(* ===== verification/_CoqProject ===== *)
-Q . S2P
Prelude.v
InstanceTypes.v
NetAddr.v
ByomPool.v
ByomPoolSpec.v
ByomServer.v
ByomProps.v
ByomProvider.v
CloudService.v
CloudServiceProps.v
CsiVolumes.v
CsiProps.v
Webhook.v
PeerPodCtrl.v
ProviderTable.v
Vxlan.v
VxlanProps.v
PodNetwork.v
PodNetworkProps.v
Initdata.v
CloudInit.v
Userdata.v
UserdataProps.v
PodFiles.v
AgentProto.v
Tls.v
Certgen.v
AgentProxy.v
Forwarder.v
ForwarderProps.v
NodeOps.v
AdaptorServer.v
Netops.v
NetopsProps.v
NetopsBench.v
SshProxy.v
SshProxyProps.v
SecureComms.v
SecureCommsProps.v
SecureBench.v
ProviderKit.v
Aws.v
AwsProps.v
Azure.v
Gcp.v
IbmCloud.v
IbmProps.v
Docker.v
PowerVs.v
SshUtil.v
Alibaba.v
AlibabaProps.v
Vsphere.v
Libvirt.v
LibvirtProps.v
Starter.v
Flags.v
Managers.v
Commands.v
CsiDispatch.v
SshTunnel.v
Redact.v
Deployment.v
AzCopy.v
ServiceSpec.v
VolumeClient.v
InformerFactory.v
CsiServer.v
CsiMonitor.v
Admission.v
Clients.v
Programs.v
