(* ===== verification/Prelude.v ===== *)
(** * Cloud API Adaptor: a verification development

    The program runs Kubernetes pods in virtual machines of a cloud ("peer
    pods").  On a worker node the cloud-api-adaptor answers the container
    runtime's hypervisor protocol: it makes a cloud-config, asks a cloud provider
    for an instance and connects the runtime to the agent in it.  Around it are
    the providers (one of them, BYOM, hands out existing VMs from a shared pool),
    a mutating webhook that rewrites the resources of peer pods at admission, a
    controller that deletes dangling instances, and wrappers around CSI storage
    drivers that replay volume requests for the pod VM.

    The code is Go.  Its functions become functions of a state monad [M S A]
    over an explicit state (the fields the code mutates, a log of the calls whose
    order matters, and the world [W] behind the interfaces it calls).  A Go error
    is [Err e], a run-time panic is [Panic], an int is a [Z] with its bounds
    written where the code depends on them, a Go map is a [gmap] whose iteration
    order is a parameter ([GoMapOrder]), strings are byte strings.  What is not
    code of the repository (the Kubernetes client, cloud SDKs, SFTP, SSH, gRPC,
    JSON, SHA-256, netlink, iptables) enters as operations of a type class; what the
    code relies on is stated as the laws of a second class, and an executable
    instance shows that the laws can hold and runs the witnesses.

    ** Files, in dependency order

    - Prelude: errors, results, panics, the state monad and its notations,
      strings, numbers, paths, generic lemmas, the tactics and the hint
      databases.
    - InstanceTypes: cloud-providers/util.go, types.go, util/instance.go and
      util/slice.go.  Selection of an instance type, key-value flags, instance
      names.  Theorems: a selected type is an allowed one and satisfies the
      request; the bisection equals a linear scan where the list is monotone (and
      misses a type where it is not); flags survive printing and setting; names
      are within their limits.
    - NetAddr: IPv4 addresses as net/netip has them, with parsing, printing and
      comparison.
    - ByomPool: cloud-providers/byom/types.go, configmap_vmpool.go,
      state_recovery.go and namespace.go.  The VM pool kept in a ConfigMap.
    - ByomPoolSpec: the laws of the API server, the abstract pool, the invariant
      and its preservation by every operation.
    - ByomServer: an executable API server for the witnesses.
    - ByomProps: theorems of the pool.  In every run, with any failures of the
      server, the addresses stay partitioned; allocation refines the step of the
      abstract pool and succeeds on a healthy server; release undoes it; repair
      restores the partition; two counterexamples of concurrent use.
    - ByomProvider: byom/provider.go and manager.go over the interface of the
      pool manager.  Creation delivers the data or gives the address back,
      deletion undoes creation, parsing of the configured addresses.
    - CloudService: cloud-api-adaptor/pkg/adaptor/cloud/cloud.go and types.go,
      pkg/util/cloud.go, pkg/adaptor/k8sops/peerpod.go,
      pkg/adaptor/vminfo/service.go.  CreateVM, StartVM, StopVM and GetInfo over a
      table of sandboxes.
    - CloudServiceProps: theorems of the service, for single calls on every
      path and, by induction over runs, for every sequence of requests.
    - CsiVolumes: csi-wrapper/pkg/wrapper (controller, worker node and pod VM),
      pkg/apis/peerpodvolume, pkg/utils, the dispatch of
      pkg/peerpodvolume/controller.go and the start of cmd/csi-podvm-wrapper.
    - CsiProps: what each wrapper asks of the storage driver and when, what
      is cached in the PeerpodVolume, and four defects.
    - Webhook: webhook/pkg/mutating_webhook and pkg/utils.
    - PeerPodCtrl: peerpod-ctrl/controllers/peerpod_controller.go.
    - ProviderTable: cloud-providers/table.go.
    - Vxlan: pkg/podnetwork/tunneler and its vxlan implementation over the
      interfaces of pkg/util/netops, with the machine's network as the tunnel
      changes it.
    - VxlanProps: what setting up either end does to the network, and that
      tearing down undoes it; an executable network for the witnesses.
    - PodNetwork: pkg/podnetwork (common.go, workernode.go, podnode.go).
    - PodNetworkProps: the choice of the primary and of the secondary
      interface, and that the tunnels of one process have different ids.
    - Initdata: pkg/initdata.  Compression and encoding, parsing, the digest.
    - CloudInit: cloud-providers/util/cloudinit.  The template of the cloud-config
      as a function, with a specification of the YAML it writes.
    - Userdata, UserdataProps: pkg/userdata and pkg/paths.  Detection of the cloud,
      retrieval with retries, the files written on the pod VM: only allowed paths
      are written, and success means that every file is there.
    - PodFiles: the two ends together, the files of CreateVM reach the pod VM.
    - AgentProto: pkg/util/agentproto/redirector.go.
    - Tls, Certgen: pkg/util/tlsutil.
    - AgentProxy: pkg/adaptor/proxy (factory.go, proxy.go, service.go).
    - Forwarder, ForwarderProps: pkg/forwarder and its interceptor; mutual TLS
      between proxy and forwarder, volumes are mounted before a container starts.
    - NodeOps: pkg/adaptor/k8sops (node.go, namespace.go).
    - AdaptorServer: pkg/adaptor/server.go and pkg/probe.
    - Netops, NetopsProps, NetopsBench: pkg/util/netops over the operations of
      netlink and netns, with an executable kernel for the witnesses.
    - SshProxy, SshProxyProps: pkg/securecomms/sshproxy.  Tags, peers and tunnels as
      a step function with an invariant over all runs, and the two ends together.
    - SecureComms, SecureCommsProps, SecureBench: pkg/securecomms (wnssh, ppssh,
      kubemgr, sshutil) and apic.  Keys and phases of both ends.
    - ProviderKit: programs over a cloud SDK, with a weakest precondition over what
      they return and which calls they make.
    - Aws, AwsProps; Azure; Gcp; IbmCloud, IbmProps; Docker; PowerVs: the providers of
      these clouds (provider.go and types.go of each).  What a launch asks for, what
      deletion reaches, what an error leaves behind.
    - SshUtil: cloud-providers/util/ssh.go.  The host keys a client accepts; it
      implements the interface of the transfer that ByomProvider uses.
    - Alibaba, AlibabaProps; Vsphere; Libvirt, LibvirtProps: the providers of these
      clouds, with the waits of Alibaba Cloud, the placement of vSphere, and the
      volumes and domain descriptions of libvirt.
    - Starter: cloud-api-adaptor/cmd/starter.go.  The goroutines that run the services,
      handle signals and tell systemd as a transition system: what [Start] returns, and
      that it returns.
    - Flags: the package flag as the programs use it, and cmd/parse.go.
    - Managers: manager.go of every provider, its flags and environment variables.
    - Commands: [Setup] of cmd/cloud-api-adaptor and cmd/agent-protocol-forwarder.
      The transport that the flags select, and where the forwarder listens.
    - CsiDispatch: csi-wrapper/pkg/peerpodvolume/controller.go.  Informer, work queue and
      workers as a transition system: no change of an object that is there is missed, and the
      system comes to rest.
    - SshTunnel: the data path of a tunnel of pkg/securecomms/sshproxy, as a transition
      system of its goroutines, with the close and the window of an SSH channel as its
      library has them.
    - Redact: cloud-providers/util/redacting.go.  The variables that are redacted keep
      the type string whatever the command line says.
    - Deployment: the two daemons together, from their flags to a connection that
      reaches the daemon in the pod VM.
    - AzCopy: cmd/az-copy-image.
    - ServiceSpec: an abstract table of machines with their instances, the starts under way,
      and the instances the provider has, has refused to delete or has and nobody knows;
      every run of the handlers of CloudService, other requests between the two halves of a
      StartVM included, refines a run of it, and from its invariants follows which instances
      exist.
    - VolumeClient: the generated client of PeerpodVolume objects
      (csi-wrapper/pkg/generated: typed client, listers, clientset).  Over the laws of an
      API server it implements the interface that CsiVolumes and CsiProps use, and the
      handlers with it stay within their namespace.
    - InformerFactory: the generated informers and their factory as a transition system;
      an informer is run once, and a shutdown waits for all of them and ends.
    - CsiServer: the endpoints, the gRPC server with its goroutine, the identity service
      and the constructors of csi-wrapper/pkg/wrapper and pkg/utils.
    - CsiMonitor: csi-wrapper/pkg/peerpodvolume/monitor.go around the factory, and the three
      programs of csi-wrapper/cmd.  No volume is handled before the cache is filled, a stop
      ends every goroutine, and the pod VM announces its pod before it serves.
    - Admission: the admission handler and main.go of the webhook, and main.go of the
      PeerPod controller; with Webhook and CloudService, the CPUs a pod asks for are those
      its VM gets.
    - Clients: the Kubernetes clients of kubemgr, k8sops and util/k8snode.go, and the
      credentials of the clouds (aws/ec2.go, azure/client.go, ibmcloud-powervs/powervs.go
      and the constructors of the providers).
    - Programs: the daemons as processes (Setup, starter, exit status), the start of the
      probe and of the SSH service, and cmd/process-user-data.

    ** Bounds and fuel

    Loops of the code over lists are structural.  [updateState] is retried by
    client-go at most as often as its back-off says, which is a parameter; the
    retries of the pod VM's wrapper are bounded by the constant 20 of the code
    ([max_retry]); [StartVM] and the other waits are single operations of the
    world, so no theorem speaks of time.  [sort.Search] runs on a fuel of the
    length of its interval, which the Prelude proves to be enough.  Integers
    that come from configuration are parsed with the bounds of their width.
    The search for a free name of a VXLAN interface is bounded by the 5 of the
    code, and the waits for an address take the number of ticks before the
    timeout as an argument, so their theorems hold for every number.  The retries of
    the user data, of SSH connections and of the waits of Power VS likewise run for
    a number of attempts that is a parameter; those of IBM Cloud are the ten of the
    code ([maxRetries]), and the walk over allowed host keys has the code's bound of
    a hundred keys.  The waits of Alibaba Cloud run on fuel, since the code bounds only
    the time spent in calls: a theorem says when they end and another that they need
    not.  The refresh of a libvirt pool makes 301 attempts at most, which is proved.  The
    transition systems have no fuel: their liveness theorems bound the number of steps
    of the goroutines by a measure of the state (twice the number of services and two
    for the starter) and say what holds when none of them can move.

    The monitor, the factory of informers and the gRPC server are such systems too: four
    steps of the goroutines of a stopped monitor are left at most, and as many steps of a
    factory that shuts down as it has informers and callers.

    ** Not modelled

    Log messages and printed texts; the libraries behind the interfaces (gRPC, HTTP, SSH,
    the Kubernetes client and its cache, controller-runtime, the cloud SDKs, cobra); code
    that protoc and deepcopy-gen made, the registration of types with a scheme, and the
    fake client, which tests alone use; test support under test/ and
    pkg/podnetwork/tuntest.  Handlers run one at a time unless a theorem splits one at the
    point where another can run, as [StartVM_create]/[StartVM_finish] and the two-node
    allocation do, or the component is given as a step function, as the peers and tunnels
    of the SSH proxy, the starter, the dispatcher and the monitor of volumes, the factory
    of informers and the gRPC server are.

    Of the code that runs in the daemons, the wrappers, the webhook and the controller what
    is left out are declarations of interfaces, accessors of a field, methods without a
    body, and the readers of a library's answer that an operation of an interface stands
    for (the metadata of AWS, the dialler of the interceptor). *)

From Stdlib Require Import ZArith Ascii String Lia.
From stdpp Require Import base gmap strings list fin_maps sorting pretty.

Open Scope Z_scope.

(** ** Go errors and results

    A Go [error] is either a package-level sentinel made by [errors.New], a
    value built by [fmt.Errorf] whose [%w] verbs wrap other errors, or a
    Kubernetes API status with a reason.  Message texts are kept only as the
    format string: no code under study branches on a formatted message. *)

Inductive StatusReason :=
| NotFound
| AlreadyExists
| Conflict
| OtherReason.

Inductive GoError :=
| Sentinel (name : string)
| Errorf (format : string) (wrapped : list GoError)
| APIStatus (reason : StatusReason).

Inductive result (A : Type) :=
| Ok (a : A)
| Err (e : GoError).
Arguments Ok {A} a.
Arguments Err {A} e.

(** A Go run-time panic (nil dereference, index out of range, explicit
    [panic]) is a third outcome beside the returned values. *)
Inductive outcome (A : Type) :=
| Return (a : A)
| Panic.
Arguments Return {A} a.
Arguments Panic {A}.

#[export] Instance StatusReason_eq_dec : EqDecision StatusReason.
Proof. solve_decision. Defined.

(** [errors.Is(err, sentinel)]: the sentinel is reachable through the chain of
    wrapped errors. *)
Fixpoint errors_Is (target : string) (e : GoError) : bool :=
  match e with
  | Sentinel s => String.eqb s target
  | Errorf _ ws => existsb (errors_Is target) ws
  | APIStatus _ => false
  end.

(** [apierrors.ReasonForError]: the reason of the first API status in the chain
    of wrapped errors, as [errors.As] finds it. *)
Fixpoint ReasonForError (e : GoError) : option StatusReason :=
  match e with
  | Sentinel _ => None
  | Errorf _ ws =>
      (fix first (ws : list GoError) : option StatusReason :=
         match ws with
         | [] => None
         | w :: rest => match ReasonForError w with Some r => Some r | None => first rest end
         end) ws
  | APIStatus r => Some r
  end.

Definition IsNotFound (e : GoError) : bool := bool_decide (ReasonForError e = Some NotFound).
Definition IsConflict (e : GoError) : bool := bool_decide (ReasonForError e = Some Conflict).
Definition IsAlreadyExists (e : GoError) : bool :=
  bool_decide (ReasonForError e = Some AlreadyExists).

Definition is_ok {A} (r : result A) : bool :=
  match r with Ok _ => true | Err _ => false end.

Definition result_map {A B} (f : A -> B) (r : result A) : result B :=
  match r with Ok a => Ok (f a) | Err e => Err e end.

(** ** State passing

    Code that calls out of the modelled component is a function of the world
    [W] it acts on; [let*] sequences two such computations and [try] is Go's
    [if err != nil { return ..., wrap(err) }]. *)

Definition M (W A : Type) : Type := W -> A * W.

Definition mret {W A} (a : A) : M W A := fun w => (a, w).
Definition mbind {W A B} (m : M W A) (k : A -> M W B) : M W B :=
  fun w => let '(a, w') := m w in k a w'.

Declare Scope go_scope.
Delimit Scope go_scope with go.

Notation "'let*' x := m 'in' k" := (mbind m (fun x => k))
  (at level 200, x name, m at level 100, k at level 200,
   format "'[v' 'let*'  x  :=  m  'in' '/' k ']'") : go_scope.

Notation "'try' x := m 'orelse' wrap 'in' k" :=
  (mbind m (fun r => match r with Ok x => k | Err e => mret (Err (wrap e)) end))
  (at level 200, x name, m at level 100, wrap at level 100, k at level 200) : go_scope.

Lemma mbind_mret_l {W A B} (a : A) (k : A -> M W B) w : mbind (mret a) k w = k a w.
Proof. reflexivity. Qed.

Lemma mbind_run {W A B} (m : M W A) (k : A -> M W B) w a w' :
  m w = (a, w') -> mbind m k w = k a w'.
Proof. unfold mbind. by intros ->. Qed.

(** ** Machine integers *)

Definition max_int64 : Z := 2 ^ 63 - 1.
Definition min_int64 : Z := - 2 ^ 63.

(** Two's-complement reading of the low 64 bits: Go's [int] and [int64]
    arithmetic on the supported 64-bit platforms. *)
Definition wrap64 (z : Z) : Z := (z + 2 ^ 63) mod 2 ^ 64 - 2 ^ 63.

Definition in_int64 (z : Z) : Prop := min_int64 <= z <= max_int64.

Lemma wrap64_id z : in_int64 z -> wrap64 z = z.
Proof.
  unfold in_int64, wrap64, min_int64, max_int64. intros H.
  rewrite Z.mod_small; lia.
Qed.

Lemma wrap64_in_range z : in_int64 (wrap64 z).
Proof.
  unfold in_int64, wrap64, min_int64, max_int64.
  pose proof (Z.mod_pos_bound (z + 2 ^ 63) (2 ^ 64)). lia.
Qed.

(** ** Strings

    Go strings are byte strings; [String.string] is the same type here.  The
    functions below translate the parts of package [strings] the code uses,
    with a one-byte separator.  [TrimSpace] trims the ASCII white space. *)

Fixpoint split_on (sep : ascii) (s : string) : list string :=
  match s with
  | EmptyString => [EmptyString]
  | String c s' =>
      if Ascii.eqb c sep then EmptyString :: split_on sep s'
      else match split_on sep s' with
           | [] => [String c EmptyString]
           | w :: ws => String c w :: ws
           end
  end.

(** [strings.Cut(s, sep)], which is also [strings.SplitN(s, sep, 2)]. *)
Fixpoint cut_on (sep : ascii) (s : string) : option (string * string) :=
  match s with
  | EmptyString => None
  | String c s' =>
      if Ascii.eqb c sep then Some (EmptyString, s')
      else match cut_on sep s' with
           | Some (a, b) => Some (String c a, b)
           | None => None
           end
  end.

Fixpoint join (sep : string) (l : list string) : string :=
  match l with
  | [] => EmptyString
  | [w] => w
  | w :: ws => (w +:+ sep +:+ join sep ws)
  end.

Definition is_space (c : ascii) : bool :=
  let n := nat_of_ascii c in
  (Nat.eqb n 32 || (Nat.leb 9 n && Nat.leb n 13))%bool.

Fixpoint trim_left (s : string) : string :=
  match s with
  | EmptyString => EmptyString
  | String c s' => if is_space c then trim_left s' else s
  end.

Fixpoint trim_right (s : string) : string :=
  match s with
  | EmptyString => EmptyString
  | String c s' =>
      match trim_right s' with
      | EmptyString => if is_space c then EmptyString else String c EmptyString
      | t => String c t
      end
  end.

Definition TrimSpace (s : string) : string := trim_right (trim_left s).

Fixpoint HasPrefix (s pre : string) {struct pre} : bool :=
  match pre, s with
  | EmptyString, _ => true
  | String a p, String b t => (Ascii.eqb a b && HasPrefix t p)%bool
  | String _ _, EmptyString => false
  end.

Fixpoint drop_bytes (n : nat) (s : string) : string :=
  match n, s with
  | S m, String _ t => drop_bytes m t
  | _, _ => s
  end.

Fixpoint take_bytes (n : nat) (s : string) : string :=
  match n, s with
  | S m, String c t => String c (take_bytes m t)
  | _, _ => EmptyString
  end.

Definition TrimPrefix (s pre : string) : string :=
  if HasPrefix s pre then drop_bytes (String.length pre) s else s.

(** [strings.Contains]. *)
Fixpoint Contains_sub (s sub : string) : bool :=
  (HasPrefix s sub || match s with
                      | EmptyString => false
                      | String _ t => Contains_sub t sub
                      end)%bool.

Definition contains_byte (c : ascii) (s : string) : bool :=
  existsb (Ascii.eqb c) (String.list_ascii_of_string s).

(** Membership in a slice of strings ([util.Contains] of both modules). *)
Fixpoint slice_contains (slice : list string) (s : string) : bool :=
  match slice with
  | [] => false
  | item :: rest => if String.eqb item s then true else slice_contains rest s
  end.

(** ** File paths: package [path/filepath] on Unix *)

(** The elements of a cleaned path, last first. *)
Fixpoint clean_elems (rooted : bool) (acc elems : list string) : list string :=
  match elems with
  | [] => acc
  | e :: rest =>
      if (String.eqb e "" || String.eqb e ".")%bool then clean_elems rooted acc rest
      else if String.eqb e ".." then
        match acc with
        | [] => clean_elems rooted (if rooted then [] else [e]) rest
        | top :: below =>
            clean_elems rooted (if String.eqb top ".." then e :: acc else below) rest
        end
      else clean_elems rooted (e :: acc) rest
  end.

Definition path_Clean (p : string) : string :=
  let rooted := HasPrefix p "/" in
  let body := join "/" (rev (clean_elems rooted [] (split_on "/" p))) in
  if rooted then "/" +:+ body else if String.eqb body "" then "." else body.

Definition nonempty (s : string) : bool := negb (String.eqb s "").

(** [filepath.Join]: the non-empty elements, cleaned; all empty gives "". *)
Definition filepath_Join (elems : list string) : string :=
  match List.filter nonempty elems with
  | [] => EmptyString
  | es => path_Clean (join "/" es)
  end.

(** [net.JoinHostPort]: a host with a colon is bracketed. *)
Definition JoinHostPort (host port : string) : string :=
  if contains_byte ":" host then "[" +:+ host +:+ "]:" +:+ port
  else host +:+ ":" +:+ port.

(** ** Numbers in decimal: package [strconv] *)

Definition is_digit (c : ascii) : bool :=
  let n := nat_of_ascii c in (Nat.leb 48 n && Nat.leb n 57)%bool.

Definition digit_value (c : ascii) : Z := Z.of_nat (nat_of_ascii c) - 48.

Fixpoint parse_digits (acc : Z) (s : string) : option Z :=
  match s with
  | EmptyString => Some acc
  | String c s' =>
      if is_digit c then parse_digits (10 * acc + digit_value c) s' else None
  end.

Definition parse_uint (s : string) : option Z :=
  match s with EmptyString => None | _ => parse_digits 0 s end.

(** [strconv.ParseInt(s, 10, 64)], which on a 64-bit platform is also
    [strconv.Atoi]: [None] stands for any error, syntax or range. *)
Definition ParseInt (s : string) : option Z :=
  let check (o : option Z) :=
    match o with
    | Some z => if ((min_int64 <=? z) && (z <=? max_int64))%bool then Some z else None
    | None => None
    end in
  match s with
  | String c s' =>
      if Ascii.eqb c "-" then check (Z.opp <$> parse_uint s')
      else if Ascii.eqb c "+" then check (parse_uint s')
      else check (parse_uint s)
  | EmptyString => None
  end.

(** [strconv.FormatInt(z, 10)] and [strconv.Itoa]. *)
Definition FormatInt (z : Z) : string := pretty z.

(** ** [sort.Search]

    The loop of the standard library: the smallest index of [0, n) at which [f]
    holds when [f] is monotone, found by bisection. *)

Fixpoint search_loop (fuel : nat) (f : nat -> bool) (i j : nat) : nat :=
  match fuel with
  | O => i
  | S fuel' =>
      if (i <? j)%nat then
        let h := ((i + j) / 2)%nat in
        if f h then search_loop fuel' f i h else search_loop fuel' f (S h) j
      else i
  end.

Definition sort_Search (n : nat) (f : nat -> bool) : nat := search_loop n f 0 n.

(** [sort.Slice] does not promise stability, so the sort itself is an interface:
    whatever order it gives to equivalent elements, the result is a permutation
    of the slice in which no element is less than one before it. *)
Definition strict_weak_order {A} (less : A -> A -> bool) : Prop :=
  (forall x, less x x = false) /\
  (forall x y z, less x y = true -> less y z = true -> less x z = true) /\
  (forall x y z, less x y = false -> less y z = false -> less x z = false).

Class SortSlice := {
  sort_Slice : forall {A : Type}, (A -> A -> bool) -> list A -> list A;
  sort_Slice_perm : forall A (less : A -> A -> bool) l, sort_Slice less l ≡ₚ l;
  sort_Slice_sorted : forall A (less : A -> A -> bool) l,
    strict_weak_order less ->
    StronglySorted (fun x y => less y x = false) (sort_Slice less l)
}.

(** Insertion sort is one implementation of that interface. *)
Fixpoint insert_by {A} (less : A -> A -> bool) (x : A) (l : list A) : list A :=
  match l with
  | [] => [x]
  | y :: l' => if less y x then y :: insert_by less x l' else x :: y :: l'
  end.

Fixpoint insertion_sort {A} (less : A -> A -> bool) (l : list A) : list A :=
  match l with
  | [] => []
  | x :: l' => insert_by less x (insertion_sort less l')
  end.

(** ** Slices

    [append(s[:i], s[i+1:]...)]: removal of one element by index. *)
Definition remove_at {A} (i : nat) (l : list A) : list A := take i l ++ drop (S i) l.

(** ** A text form for any countable type

    The codecs of the witnesses: the bits of the number of a value. *)

Fixpoint bits_string (p : positive) : string :=
  match p with
  | xH => EmptyString
  | xO p => String "0" (bits_string p)
  | xI p => String "1" (bits_string p)
  end.

Fixpoint string_bits (s : string) : option positive :=
  match s with
  | EmptyString => Some xH
  | String c s' =>
      if Ascii.eqb c "0" then xO <$> string_bits s'
      else if Ascii.eqb c "1" then xI <$> string_bits s' else None
  end.

Lemma string_bits_string p : string_bits (bits_string p) = Some p.
Proof. induction p as [p IH|p IH|]; simpl; [by rewrite IH..|done]. Qed.

Definition to_text {A} `{Countable A} (a : A) : string := bits_string (encode a).
Definition of_text {A} `{Countable A} (s : string) : option A := string_bits s ≫= decode.

Lemma of_to_text {A} `{Countable A} (a : A) : of_text (to_text a) = Some a.
Proof. unfold of_text, to_text. rewrite string_bits_string. simpl. apply decode_encode. Qed.

(** ** Automation *)

Create HintDb golib.

#[export] Hint Resolve wrap64_in_range : golib.
#[export] Hint Extern 1 (in_int64 _) => (unfold in_int64, min_int64, max_int64 in *; lia) : golib.

(** Case analysis on the head [match] or [if] of a hypothesis or of the goal,
    remembering the equation, until none is left. *)
Ltac go_cases :=
  repeat first
    [ progress simplify_eq/=
    | match goal with
      | H : context [match ?x with _ => _ end] |- _ => destruct x eqn:?
      | |- context [match ?x with _ => _ end] => destruct x eqn:?
      end ].

(** Split boolean conjunctions and turn boolean comparisons into propositions. *)
Ltac bool_to_prop :=
  repeat match goal with
  | H : (_ && _)%bool = true |- _ => apply andb_true_iff in H as [? ?]
  | H : (_ && _)%bool = false |- _ => apply andb_false_iff in H
  | H : (_ || _)%bool = true |- _ => apply orb_true_iff in H
  | H : (_ || _)%bool = false |- _ => apply orb_false_iff in H as [? ?]
  | H : negb _ = true |- _ => apply negb_true_iff in H
  | H : negb _ = false |- _ => apply negb_false_iff in H
  | H : (_ <=? _)%Z = true |- _ => apply Z.leb_le in H
  | H : (_ <=? _)%Z = false |- _ => apply Z.leb_gt in H
  | H : (_ <? _)%Z = true |- _ => apply Z.ltb_lt in H
  | H : (_ <? _)%Z = false |- _ => apply Z.ltb_ge in H
  | H : (_ =? _)%Z = true |- _ => apply Z.eqb_eq in H
  | H : (_ =? _)%Z = false |- _ => apply Z.eqb_neq in H
  | H : (_ <? _)%nat = true |- _ => apply Nat.ltb_lt in H
  | H : (_ <? _)%nat = false |- _ => apply Nat.ltb_ge in H
  | H : (_ <=? _)%nat = true |- _ => apply Nat.leb_le in H
  | H : (_ <=? _)%nat = false |- _ => apply Nat.leb_gt in H
  | H : (_ =? _)%nat = true |- _ => apply Nat.eqb_eq in H
  | H : (_ =? _)%nat = false |- _ => apply Nat.eqb_neq in H
  | H : String.eqb _ _ = true |- _ => apply String.eqb_eq in H
  | H : String.eqb _ _ = false |- _ => apply String.eqb_neq in H
  | H : Ascii.eqb _ _ = true |- _ => apply Ascii.eqb_eq in H
  | H : Ascii.eqb _ _ = false |- _ => apply Ascii.eqb_neq in H
  | H : bool_decide _ = true |- _ => apply bool_decide_eq_true in H
  | H : bool_decide _ = false |- _ => apply bool_decide_eq_false in H
  end.

(** The same, splitting boolean disjunctions into cases. *)
Ltac bool_cases :=
  bool_to_prop; repeat match goal with H : _ \/ _ |- _ => destruct H; bool_to_prop end.

(** Unfold a claim about every element of a concrete list. *)
Ltac each_element :=
  repeat first [apply SSorted_nil | apply SSorted_cons | apply List.Forall_nil
               | apply List.Forall_cons | split].

(** ** Lemmas: [sort.Search] *)

Lemma search_loop_spec fuel f i j :
  (j - i <= fuel)%nat -> (i <= j)%nat ->
  let r := search_loop fuel f i j in
  (i <= r <= j)%nat /\
  ((r < j)%nat -> f r = true) /\
  ((i < r)%nat -> f (pred r) = false).
Proof.
  revert i j. induction fuel as [|fuel IH]; intros i j Hf Hij; cbn [search_loop]; cbv zeta.
  { assert (i = j) as -> by lia. repeat split; lia. }
  destruct (i <? j)%nat eqn:E; bool_to_prop.
  2:{ repeat split; lia. }
  assert (i <= (i + j) / 2 < j)%nat as Hh.
  { split; [apply Nat.div_le_lower_bound | apply Nat.div_lt_upper_bound]; lia. }
  destruct (f ((i + j) / 2)%nat) eqn:Ef.
  - destruct (IH i ((i + j) / 2)%nat) as (? & Ht & Hb); [lia..|].
    repeat split; [lia|lia| |assumption].
    intros Hlt. destruct (decide (search_loop fuel f i ((i + j) / 2) = (i + j) / 2)%nat) as [->|];
      [assumption|apply Ht; lia].
  - destruct (IH (S ((i + j) / 2))%nat j) as (? & Ht & Hb); [lia..|].
    repeat split; [lia|lia|assumption|].
    intros Hlt.
    destruct (decide (search_loop fuel f (S ((i + j) / 2)) j = S ((i + j) / 2))%nat) as [->|];
      [assumption|apply Hb; lia].
Qed.

(** Whatever the predicate, the index returned satisfies it unless it is [n],
    and the index before it does not. *)
Lemma sort_Search_spec n f :
  (sort_Search n f <= n)%nat /\
  ((sort_Search n f < n)%nat -> f (sort_Search n f) = true) /\
  ((0 < sort_Search n f)%nat -> f (pred (sort_Search n f)) = false).
Proof.
  destruct (search_loop_spec n f 0 n) as (? & ? & ?); [lia..|].
  unfold sort_Search. repeat split; [lia|assumption|assumption].
Qed.

(** For a monotone predicate it is the least index that satisfies it. *)
Lemma sort_Search_least n f :
  (forall i j, (i <= j < n)%nat -> f i = true -> f j = true) ->
  forall i, (i < sort_Search n f)%nat -> f i = false.
Proof.
  intros Hmono i Hi. destruct (sort_Search_spec n f) as (Hle & _ & Hpred).
  destruct (f i) eqn:E; [|reflexivity].
  rewrite <- (Hpred ltac:(lia)). symmetry. apply (Hmono i); [lia|assumption].
Qed.

(** ** Lemmas: insertion sort implements [sort.Slice] *)

Lemma insert_by_perm {A} (less : A -> A -> bool) x l : insert_by less x l ≡ₚ x :: l.
Proof.
  induction l as [|y l IH]; simpl; [done|].
  destruct (less y x); [|done]. rewrite IH. apply Permutation_swap.
Qed.

Lemma insertion_sort_perm {A} (less : A -> A -> bool) l : insertion_sort less l ≡ₚ l.
Proof. induction l as [|x l IH]; simpl; [done|]. by rewrite insert_by_perm, IH. Qed.

Lemma insert_by_sorted {A} (less : A -> A -> bool) x l :
  strict_weak_order less ->
  StronglySorted (fun a b => less b a = false) l ->
  StronglySorted (fun a b => less b a = false) (insert_by less x l).
Proof.
  intros (Hirr & Htr & Hneg) Hs. induction Hs as [|y l Hs IH Hy]; simpl.
  { repeat constructor. }
  destruct (less y x) eqn:E.
  - constructor; [assumption|]. rewrite insert_by_perm. constructor; [|assumption].
    destruct (less x y) eqn:E2; [|reflexivity].
    specialize (Htr _ _ _ E E2). by rewrite Hirr in Htr.
  - constructor; [by constructor|]. constructor; [assumption|].
    eapply Forall_impl; [exact Hy|]. simpl. intros z Hz. eapply Hneg; eassumption.
Qed.

#[export, program] Instance insertion_sort_slice : SortSlice := {
  sort_Slice := @insertion_sort
}.
Next Obligation. intros. apply insertion_sort_perm. Qed.
Next Obligation.
  intros A less l Hless. induction l as [|x l IH]; simpl; [constructor|].
  by apply insert_by_sorted.
Qed.

(** ** Lemmas: strings *)

Lemma string_app_cons c s t : String c s +:+ t = String c (s +:+ t).
Proof. reflexivity. Qed.

Lemma string_app_one c s : String c EmptyString +:+ s = String c s.
Proof. reflexivity. Qed.

Lemma string_app_nil s : EmptyString +:+ s = s.
Proof. reflexivity. Qed.

Lemma contains_byte_cons sep c s :
  contains_byte sep (String c s) = false <-> c <> sep /\ contains_byte sep s = false.
Proof.
  unfold contains_byte. simpl. rewrite orb_false_iff, Ascii.eqb_neq. intuition.
Qed.

Lemma contains_byte_app sep s t :
  contains_byte sep (s +:+ t) = false <->
  contains_byte sep s = false /\ contains_byte sep t = false.
Proof.
  induction s as [|c s IH].
  - rewrite string_app_nil. unfold contains_byte at 2. simpl. tauto.
  - rewrite string_app_cons, !contains_byte_cons, IH. tauto.
Qed.

Lemma split_on_none sep s : contains_byte sep s = false -> split_on sep s = [s].
Proof.
  induction s as [|c s IH]; [done|]. rewrite contains_byte_cons. intros [Hc Hs]. simpl.
  apply Ascii.eqb_neq in Hc. by rewrite Hc, IH.
Qed.

Lemma split_on_app sep s t :
  contains_byte sep s = false -> split_on sep (s +:+ String sep t) = s :: split_on sep t.
Proof.
  induction s as [|c s IH]; [rewrite string_app_nil; simpl; by rewrite Ascii.eqb_refl|].
  rewrite contains_byte_cons, string_app_cons. intros [Hc Hs]. simpl.
  apply Ascii.eqb_neq in Hc. by rewrite Hc, IH.
Qed.

Lemma cut_on_app sep s t :
  contains_byte sep s = false -> cut_on sep (s +:+ String sep t) = Some (s, t).
Proof.
  induction s as [|c s IH]; [rewrite string_app_nil; simpl; by rewrite Ascii.eqb_refl|].
  rewrite contains_byte_cons, string_app_cons. intros [Hc Hs]. simpl.
  apply Ascii.eqb_neq in Hc. by rewrite Hc, IH.
Qed.

Lemma TrimSpace_leading c s : is_space c = true -> TrimSpace (String c s) = TrimSpace s.
Proof. unfold TrimSpace. simpl. by intros ->. Qed.

Lemma string_app_assoc (a b c : string) : (a +:+ b) +:+ c = a +:+ (b +:+ c).
Proof. induction a as [|x a IH]; [done|]. rewrite !string_app_cons. simpl. by rewrite IH. Qed.

Lemma string_length_app (a b : string) :
  String.length (a +:+ b) = (String.length a + String.length b)%nat.
Proof. induction a as [|x a IH]; [done|]. rewrite !string_app_cons. simpl. by rewrite IH. Qed.

Lemma take_bytes_length n s : (String.length (take_bytes n s) <= n)%nat.
Proof.
  revert s. induction n as [|n IH]; intros [|c s]; simpl; try lia. specialize (IH s). lia.
Qed.

(** The elements of a split do not contain the separator, and their bytes come
    from the string. *)
Lemma split_on_elems sep s : Forall (fun w => contains_byte sep w = false) (split_on sep s).
Proof.
  induction s as [|c s IH]; [by repeat constructor|]. simpl.
  destruct (Ascii.eqb c sep) eqn:E; [by constructor|]. apply Ascii.eqb_neq in E.
  destruct (split_on sep s) as [|w ws]; [apply Forall_singleton; by apply contains_byte_cons|].
  apply Forall_cons in IH as [? ?]. apply Forall_cons. split; [by apply contains_byte_cons|done].
Qed.

Lemma split_on_bytes sep c s :
  contains_byte c s = false -> Forall (fun w => contains_byte c w = false) (split_on sep s).
Proof.
  induction s as [|d s IH]; [by repeat constructor|]. rewrite contains_byte_cons. intros [Hd Hs].
  specialize (IH Hs). simpl. destruct (Ascii.eqb d sep); [by constructor|].
  destruct (split_on sep s) as [|w ws]; [apply Forall_singleton; by apply contains_byte_cons|].
  apply Forall_cons in IH as [? ?]. apply Forall_cons. split; [by apply contains_byte_cons|done].
Qed.

Lemma last_forall {A} (P : A -> Prop) l d : Forall P l -> P d -> P (List.last l d).
Proof. intros Hl Hd. induction Hl as [|x l Hx Hl IH]; [done|]. simpl. by destruct l. Qed.

(** ** Lemmas: numbers in decimal *)

Lemma digit_char n : (n < 10)%N ->
  is_digit (pretty_N_char n) = true /\ digit_value (pretty_N_char n) = Z.of_N n.
Proof.
  intros Hn. rewrite <- (N2Nat.id n). assert (N.to_nat n < 10)%nat as Hk by lia.
  revert Hk. generalize (N.to_nat n). clear n Hn. intros k Hk.
  do 10 (destruct k as [|k]; [by split|]). lia.
Qed.

Lemma parse_digits_pretty x s : parse_digits 0 (pretty_N_go x s) = parse_digits (Z.of_N x) s.
Proof.
  revert s. induction (N.lt_wf_0 x) as [x _ IH]. intros s.
  destruct (decide (0 < x)%N) as [Hx|Hx]; [|by assert (x = 0)%N as -> by lia; rewrite pretty_N_go_0].
  rewrite pretty_N_go_step by done. rewrite IH by (apply N.div_lt; lia). cbn [parse_digits].
  destruct (digit_char (x mod 10)) as [-> ->]; [by apply N.mod_lt|]. f_equal.
  rewrite (N.div_mod x 10) at 3 by done. lia.
Qed.

Lemma pretty_nonempty x : (0 < x)%N -> exists c s, pretty_N_go x "" = String c s /\ is_digit c = true.
Proof.
  assert (forall x s c, is_digit c = true -> exists c' s', pretty_N_go x (String c s) = String c' s' /\ is_digit c' = true) as Hgo.
  { intros y. induction (N.lt_wf_0 y) as [y _ IH]. intros s c Hc.
    destruct (decide (0 < y)%N) as [Hy|Hy]; [|assert (y = 0)%N as -> by lia; rewrite pretty_N_go_0; eauto].
    rewrite pretty_N_go_step by done. apply IH; [apply N.div_lt; lia|]. apply digit_char. by apply N.mod_lt. }
  intros Hx. rewrite pretty_N_go_step by done. apply Hgo. apply digit_char. by apply N.mod_lt.
Qed.

(** What FormatInt prints, ParseInt reads back. *)
Lemma ParseInt_FormatInt z : 0 <= z <= max_int64 -> ParseInt (FormatInt z) = Some z.
Proof.
  intros Hz. assert ((min_int64 <=? z) && (z <=? max_int64) = true)%bool as Hr.
  { apply andb_true_iff. rewrite !Z.leb_le. unfold min_int64, max_int64 in *. lia. }
  destruct z as [|p|p]; [by vm_compute| |lia].
  change (FormatInt (Zpos p)) with (pretty_N_go (Npos p) "").
  destruct (pretty_nonempty (Npos p)) as (c & s & E & Hc); [lia|].
  pose proof (parse_digits_pretty (Npos p) "") as Hp. rewrite E in Hp |- *.
  unfold ParseInt, parse_uint. rewrite Hp. simpl (parse_digits _ "").
  destruct (Ascii.eqb c "-") eqn:E1; [apply Ascii.eqb_eq in E1; by subst|].
  destruct (Ascii.eqb c "+") eqn:E2; [apply Ascii.eqb_eq in E2; by subst|]. by rewrite Hr.
Qed.

(** Digits and no separator. *)
Lemma digits_no_byte sep acc s z :
  is_digit sep = false -> parse_digits acc s = Some z -> contains_byte sep s = false.
Proof.
  intros Hs. revert acc. induction s as [|c s IH]; intros acc; cbn [parse_digits]; [done|].
  destruct (is_digit c) eqn:E; [|done]. intros Hp. apply contains_byte_cons. split; [|by eapply IH].
  intros ->. by rewrite E in Hs.
Qed.

Lemma parse_uint_FormatInt z : 0 <= z -> parse_uint (FormatInt z) = Some z.
Proof.
  intros Hz. destruct z as [|p|p]; [by vm_compute| |lia].
  change (FormatInt (Zpos p)) with (pretty_N_go (Npos p) "").
  destruct (pretty_nonempty (Npos p)) as (c & s & E & Hc); [lia|].
  pose proof (parse_digits_pretty (Npos p) "") as Hp. rewrite E in Hp |- *. exact Hp.
Qed.

Lemma parse_uint_digits s z : parse_uint s = Some z -> parse_digits 0 s = Some z.
Proof. by destruct s. Qed.

Lemma FormatInt_no_byte sep z : 0 <= z -> is_digit sep = false -> contains_byte sep (FormatInt z) = false.
Proof.
  intros Hz Hs. apply (digits_no_byte _ 0 _ z Hs). by apply parse_uint_digits, parse_uint_FormatInt.
Qed.

(** Every byte of a string satisfies a predicate. *)
Definition all_bytes (p : ascii -> bool) (s : string) : Prop :=
  Forall (fun c => p c = true) (String.list_ascii_of_string s).

Lemma all_bytes_app p s t : all_bytes p (s +:+ t) <-> all_bytes p s /\ all_bytes p t.
Proof.
  unfold all_bytes. induction s as [|c s IH]; [simpl; rewrite string_app_nil, Forall_nil; tauto|].
  rewrite string_app_cons. simpl. rewrite !Forall_cons, IH. tauto.
Qed.

Lemma all_bytes_take p n s : all_bytes p s -> all_bytes p (take_bytes n s).
Proof.
  unfold all_bytes. revert n. induction s as [|c s IH]; intros [|n]; simpl; try by constructor.
  rewrite !Forall_cons. intuition auto.
Qed.

Lemma all_bytes_of_list p l :
  Forall (fun c => p c = true) l -> all_bytes p (String.string_of_list_ascii l).
Proof. unfold all_bytes. by rewrite String.list_ascii_of_string_of_list_ascii. Qed.

(** ** Prefixes *)

Lemma HasPrefix_app p s : HasPrefix (p +:+ s) p = true.
Proof.
  induction p as [|c p IH]; [by destruct s|]. rewrite string_app_cons. simpl.
  by rewrite Ascii.eqb_refl.
Qed.

Lemma drop_bytes_app p s : drop_bytes (String.length p) (p +:+ s) = s.
Proof. induction p as [|c p IH]; [by destruct s|]. rewrite string_app_cons. exact IH. Qed.

Lemma TrimPrefix_app p s : TrimPrefix (p +:+ s) p = s.
Proof. unfold TrimPrefix. rewrite HasPrefix_app. apply drop_bytes_app. Qed.

Lemma string_app_nil_r s : s +:+ "" = s.
Proof. induction s as [|c s IH]; [done|]. by rewrite string_app_cons, IH. Qed.
