(* ===== verification/InstanceTypes.v ===== *)
(** * Instance selection and naming

    Models src/cloud-providers/util.go (selection of the pod VM's instance
    type), src/cloud-providers/types.go (specs and the key-value flag),
    src/cloud-providers/util/slice.go and src/cloud-providers/util/instance.go
    (instance names).  All numbers are Go [int64]/[int] values; the code under
    study compares them and never does arithmetic on the specs, so no width
    shows up here. *)

From Stdlib Require Import ZArith Ascii String Lia.
From stdpp Require Import base gmap strings list fin_maps sorting.
From S2P Require Import Prelude.

Open Scope Z_scope.

(** ** Data: types.go *)

Record InstanceTypeSpec := mkSpec {
  InstanceType : string;
  VCPUs : Z;
  Memory : Z;
  Arch : string;
  GPUs : Z;
  Image : string;
  MultiNic : bool
}.

(** [Instance]; the type of addresses is that of [netip.Addr]. *)
Record Instance (addr : Type) := mkInstance {
  ID : string;
  Name : string;
  IPs : list addr
}.
Arguments mkInstance {addr} ID Name IPs.
Arguments ID {addr} i.
Arguments Name {addr} i.
Arguments IPs {addr} i.

(** ** Selection: util.go *)

Definition VerifyCloudInstanceType (instanceType : string)
    (validInstanceTypes : list string) (defaultInstanceType : string) : result string :=
  if String.eqb instanceType "" then Ok defaultInstanceType
  else if ((length validInstanceTypes =? 0)%nat
           && negb (String.eqb instanceType defaultInstanceType))%bool then
    Err (Errorf "requested instance type is not default and supported instance types list is empty" [])
  else if ((0 <? length validInstanceTypes)%nat
           && negb (slice_contains validInstanceTypes instanceType))%bool then
    Err (Errorf "requested instance type is not part of supported instance types list" [])
  else Ok instanceType.

Definition lessResources (a b : InstanceTypeSpec) : bool :=
  if negb (GPUs a =? GPUs b) then GPUs a <? GPUs b
  else if negb (Memory a =? Memory b) then Memory a <? Memory b
  else VCPUs a <? VCPUs b.

Definition SortInstanceTypesOnResources `{SortSlice}
    (instanceTypeSpecList : list InstanceTypeSpec) : list InstanceTypeSpec :=
  sort_Slice lessResources instanceTypeSpecList.

Fixpoint FilterOutGPUInstances (l : list InstanceTypeSpec) : list InstanceTypeSpec :=
  match l with
  | [] => []
  | spec :: rest =>
      if GPUs spec =? 0 then spec :: FilterOutGPUInstances rest
      else FilterOutGPUInstances rest
  end.

(** The closure given to [sort.Search], as a predicate on the spec at index [i];
    [sort.Search] only calls it with indices in range. *)
Definition at_index (l : list InstanceTypeSpec) (p : InstanceTypeSpec -> bool) (i : nat) : bool :=
  match l !! i with Some s => p s | None => false end.

Definition fits (vcpus memory : Z) (s : InstanceTypeSpec) : bool :=
  ((memory <=? Memory s) && (vcpus <=? VCPUs s))%bool.

Definition GetBestFitInstanceType (specList : list InstanceTypeSpec) (vcpus memory : Z)
    : result string :=
  let l := FilterOutGPUInstances specList in
  let index := sort_Search (length l) (at_index l (fits vcpus memory)) in
  match l !! index with
  | None => Err (Errorf "no instance type found for the given vcpus and memory" [])
  | Some s => Ok (InstanceType s)
  end.

Definition fits_gpu (gpus vcpus memory : Z) (s : InstanceTypeSpec) : bool :=
  ((gpus <=? GPUs s) && (vcpus <=? VCPUs s) && (memory <=? Memory s))%bool.

Definition GetBestFitInstanceTypeWithGPU (l : list InstanceTypeSpec) (gpus vcpus memory : Z)
    : result string :=
  let index := sort_Search (length l) (at_index l (fits_gpu gpus vcpus memory)) in
  match l !! index with
  | None => Err (Errorf "no instance type found for the given GPUs, vCPUs, and memory" [])
  | Some s => Ok (InstanceType s)
  end.

Definition SelectInstanceTypeToUse (spec : InstanceTypeSpec) (specList : list InstanceTypeSpec)
    (validInstanceTypes : list string) (defaultInstanceType : string) : result string :=
  let selected : result string :=
    if negb (String.eqb (InstanceType spec) "") then Ok (InstanceType spec)
    else if 0 <? GPUs spec then
      match GetBestFitInstanceTypeWithGPU specList (GPUs spec) (VCPUs spec) (Memory spec) with
      | Ok t => Ok t
      | Err e => Err (Errorf "failed to get instance type based on GPU, vCPU, and memory annotations" [e])
      end
    else if (negb (VCPUs spec =? 0) && negb (Memory spec =? 0))%bool then
      match GetBestFitInstanceType specList (VCPUs spec) (Memory spec) with
      | Ok t => Ok t
      | Err e => Err (Errorf "failed to get instance type based on vCPU and memory annotations" [e])
      end
    else Ok EmptyString in
  match selected with
  | Err e => Err e
  | Ok instanceType =>
      match VerifyCloudInstanceType instanceType validInstanceTypes defaultInstanceType with
      | Ok t => Ok t
      | Err e => Err (Errorf "failed to verify instance type" [e])
      end
  end.

(** [DefaultToEnv]: the value left in [*field], given the environment. *)
Definition DefaultToEnv (getenv : string -> string) (field env fallback : string) : string :=
  if negb (String.eqb field "") then field
  else let val := getenv env in
       if String.eqb val "" then fallback else val.

(** ** Key-value flag: types.go

    Go's iteration order over a map is unspecified: [KeyValueFlag_String] takes
    the order as the list of entries it visits. *)

Definition KeyValueFlag_String (entries : list (string * string)) : string :=
  join ", " (map (fun kv => kv.1 +:+ "=" +:+ kv.2) entries).

Fixpoint set_pairs (pairs : list string) (k : gmap string string)
    : result unit * gmap string string :=
  match pairs with
  | [] => (Ok tt, k)
  | kv :: rest =>
      match cut_on "=" kv with
      | None => (Err (Errorf "invalid key-value pair" []), k)
      | Some (key, value) => set_pairs rest (<[TrimSpace key := TrimSpace value]> k)
      end
  end.

(** [k.Set(value)]: the receiver is a nil-able map, initialised on first use;
    the pairs before a malformed one stay set. *)
Definition KeyValueFlag_Set (k : option (gmap string string)) (value : string)
    : result unit * gmap string string :=
  set_pairs (split_on "," value) (default ∅ k).

(** ** Names: util/instance.go

    [for _, c := range s] iterates over the runes of [s]: UTF-8 decoding, with
    U+FFFD for every invalid byte. *)

Definition rune_error : Z := 65533.

Definition cont (b lo hi : Z) : bool := ((lo <=? b) && (b <=? hi))%bool.

(** Accepted range of the second byte and number of continuation bytes, by lead byte. *)
Definition lead_byte (b : Z) : option (Z * Z * nat) :=
  if cont b 194 223 then Some (128, 191, 1%nat)
  else if b =? 224 then Some (160, 191, 2%nat)
  else if b =? 237 then Some (128, 159, 2%nat)
  else if cont b 225 239 then Some (128, 191, 2%nat)
  else if b =? 240 then Some (144, 191, 3%nat)
  else if b =? 244 then Some (128, 143, 3%nat)
  else if cont b 241 243 then Some (128, 191, 3%nat)
  else None.

Fixpoint runes (l : list Z) : list Z :=
  match l with
  | [] => []
  | b0 :: l1 =>
      if b0 <? 128 then b0 :: runes l1
      else match lead_byte b0, l1 with
      | Some (lo, hi, n), b1 :: l2 =>
          if negb (cont b1 lo hi) then rune_error :: runes l1
          else match n, l2 with
          | 1%nat, _ => Z.lor (Z.shiftl (Z.land b0 31) 6) (Z.land b1 63) :: runes l2
          | _, b2 :: l3 =>
              if negb (cont b2 128 191) then rune_error :: runes l1
              else match n, l3 with
              | 2%nat, _ =>
                  Z.lor (Z.lor (Z.shiftl (Z.land b0 15) 12) (Z.shiftl (Z.land b1 63) 6))
                        (Z.land b2 63) :: runes l3
              | _, b3 :: l4 =>
                  if negb (cont b3 128 191) then rune_error :: runes l1
                  else Z.lor (Z.lor (Z.shiftl (Z.land b0 7) 18) (Z.shiftl (Z.land b1 63) 12))
                             (Z.lor (Z.shiftl (Z.land b2 63) 6) (Z.land b3 63)) :: runes l4
              | _, [] => rune_error :: runes l1
              end
          | _, [] => rune_error :: runes l1
          end
      | _, _ => rune_error :: runes l1
      end
  end.

Definition bytes_of (s : string) : list Z :=
  map (fun c => Z.of_nat (nat_of_ascii c)) (String.list_ascii_of_string s).

Definition podvmNamePrefix : string := "podvm".

Section Names.

(** [unicode.ToLower] outside of ASCII. *)
Context (unicode_lower : Z -> Z).

Definition ToLower_rune (c : Z) : Z :=
  if c <? 128 then (if cont c 65 90 then c + 32 else c) else unicode_lower c.

(** [strings.ToLower] maps every rune and re-encodes; ranging over the result
    gives the mapped runes. *)
Definition sanitize_rune (c : Z) : Z :=
  if (cont c 97 122 || cont c 48 57 || (c =? 45))%bool then c else 45.

Definition sanitize (input : string) : string :=
  String.string_of_list_ascii
    (map (fun c => ascii_of_nat (Z.to_nat (sanitize_rune (ToLower_rune c))))
         (runes (bytes_of input))).

Definition GenerateInstanceName (podName0 sandboxID0 : string) (podvmNameMax : Z)
    : outcome string :=
  let podName := sanitize podName0 in
  let sandboxID := sanitize sandboxID0 in
  let prefixLen := Z.of_nat (String.length podvmNamePrefix) in
  let podNameLen := Z.of_nat (String.length podName) in
  let name (n : Z) :=
    podvmNamePrefix +:+ "-" +:+ take_bytes (Z.to_nat n) podName +:+ "-" +:+ take_bytes 8 sandboxID in
  if ((0 <? podvmNameMax) && (podvmNameMax <? prefixLen + podNameLen + 10))%bool then
    let podNameLen' := podvmNameMax - prefixLen - 10 in
    if podNameLen' <? 0 then Panic else Return (name podNameLen')
  else Return (name podNameLen).

End Names.

(** ** Reference definitions *)

(** The first element of the list that fits: what the bisection stands for. *)
Definition first_fit (p : InstanceTypeSpec -> bool) (l : list InstanceTypeSpec) : option string :=
  InstanceType <$> List.find p l.

(** The list offers more vCPUs with more memory: then a request that fits one
    entry fits every later one. *)
Definition scales (l : list InstanceTypeSpec) : Prop :=
  StronglySorted (fun a b => Memory a <= Memory b /\ VCPUs a <= VCPUs b) l.

(** ** Lemmas *)

Lemma slice_contains_spec l s : slice_contains l s = true <-> s ∈ l.
Proof.
  induction l as [|x l IH]; simpl; [split; [done|by intros ?%not_elem_of_nil]|].
  rewrite elem_of_cons. destruct (String.eqb x s) eqn:E; bool_to_prop; subst; [tauto|].
  rewrite IH. intuition congruence.
Qed.

Lemma FilterOutGPU_elem l s : s ∈ FilterOutGPUInstances l <-> s ∈ l /\ GPUs s = 0.
Proof.
  induction l as [|x l IH]; simpl; [by rewrite elem_of_nil; intuition|].
  rewrite elem_of_cons. destruct (GPUs x =? 0) eqn:E; bool_to_prop.
  - rewrite elem_of_cons, IH. naive_solver.
  - rewrite IH. naive_solver.
Qed.

Lemma lessResources_lex a b :
  lessResources a b = true <->
  GPUs a < GPUs b \/
  GPUs a = GPUs b /\ (Memory a < Memory b \/ Memory a = Memory b /\ VCPUs a < VCPUs b).
Proof. unfold lessResources. go_cases; rewrite ?Z.ltb_lt; bool_to_prop; lia. Qed.

Lemma lessResources_lex_false a b :
  lessResources a b = false <->
  GPUs b < GPUs a \/
  GPUs a = GPUs b /\ (Memory b < Memory a \/ Memory a = Memory b /\ VCPUs b <= VCPUs a).
Proof. unfold lessResources. go_cases; rewrite ?Z.ltb_ge; bool_to_prop; lia. Qed.

Lemma lessResources_order : strict_weak_order lessResources.
Proof.
  repeat split; intros; rewrite ?lessResources_lex, ?lessResources_lex_false in *; lia.
Qed.

Lemma at_index_Some l p i s : l !! i = Some s -> at_index l p i = p s.
Proof. unfold at_index. by intros ->. Qed.

(** What a search over the list yields, whatever the predicate. *)
Lemma search_sound l p i :
  i = sort_Search (length l) (at_index l p) ->
  match l !! i with
  | Some s => p s = true
  | None => i = length l
  end.
Proof.
  intros ->. destruct (sort_Search_spec (length l) (at_index l p)) as (Hle & Hin & _).
  destruct (l !! _) as [s|] eqn:E.
  - rewrite <- (at_index_Some _ p _ _ E). by apply Hin, (lookup_lt_Some _ _ _ E).
  - apply lookup_ge_None in E. lia.
Qed.

Lemma find_least l p i s :
  l !! i = Some s -> p s = true ->
  (forall j, (j < i)%nat -> at_index l p j = false) -> List.find p l = Some s.
Proof.
  revert i. induction l as [|x l IH]; intros [|i] Hi Hp Hb; simplify_eq/=.
  - by rewrite Hp.
  - pose proof (Hb 0%nat ltac:(lia)) as H0. unfold at_index in H0. simpl in H0. rewrite H0.
    apply (IH i); [done..|]. intros j Hj. apply (Hb (S j)). lia.
Qed.

Lemma find_none_iff l (p : InstanceTypeSpec -> bool) :
  (forall j, (j < length l)%nat -> at_index l p j = false) -> List.find p l = None.
Proof.
  intros Hb. destruct (List.find p l) as [s|] eqn:E; [|done].
  apply List.find_some in E as [Hin Hp]. apply list_elem_of_In in Hin.
  apply list_elem_of_lookup in Hin as [j Hj].
  specialize (Hb j (lookup_lt_Some _ _ _ Hj)). rewrite (at_index_Some _ _ _ _ Hj) in Hb. congruence.
Qed.

(** A bisection over a list in which fitting is upward closed is a linear scan. *)
Lemma search_is_first_fit l p :
  (forall i j, (i <= j < length l)%nat -> at_index l p i = true -> at_index l p j = true) ->
  InstanceType <$> l !! sort_Search (length l) (at_index l p) = first_fit p l.
Proof.
  intros Hmono. pose proof (sort_Search_least _ _ Hmono) as Hleast.
  pose proof (search_sound l p _ eq_refl) as Hs.
  unfold first_fit. destruct (l !! _) as [s|] eqn:E.
  - by erewrite find_least.
  - rewrite find_none_iff; [done|]. intros j Hj. apply Hleast. lia.
Qed.

Lemma StronglySorted_lookup {A} (R : A -> A -> Prop) l i j x y :
  StronglySorted R l -> (i < j)%nat -> l !! i = Some x -> l !! j = Some y -> R x y.
Proof.
  intros Hs. revert i j. induction Hs as [|z l Hs IH Hz]; intros [|i] [|j] ? Hi Hj;
    simplify_eq/=; try lia.
  - rewrite Forall_forall in Hz. apply Hz. by eapply list_elem_of_lookup_2.
  - apply (IH i j); [lia|done..].
Qed.

Lemma scales_monotone l vcpus memory :
  scales l ->
  forall i j, (i <= j < length l)%nat ->
  at_index l (fits vcpus memory) i = true -> at_index l (fits vcpus memory) j = true.
Proof.
  intros Hs i j Hij. unfold at_index, fits.
  destruct (decide (i = j)) as [->|]; [done|].
  destruct (l !! i) as [a|] eqn:Ei; [|done].
  destruct (lookup_lt_is_Some_2 l j) as [b Eb]; [lia|]. rewrite Eb.
  destruct (StronglySorted_lookup _ _ i j a b Hs ltac:(lia) Ei Eb).
  intros. bool_to_prop. apply andb_true_iff. rewrite !Z.leb_le. lia.
Qed.

(** A byte that [sanitize] can produce. *)
Definition name_byte (c : ascii) : bool :=
  let n := nat_of_ascii c in
  ((Nat.leb 97 n && Nat.leb n 122) || (Nat.leb 48 n && Nat.leb n 57) || Nat.eqb n 45)%bool.

Lemma sanitize_rune_byte c : name_byte (ascii_of_nat (Z.to_nat (sanitize_rune c))) = true.
Proof.
  unfold sanitize_rune, cont. destruct (_ || _)%bool eqn:E; [|reflexivity].
  assert (0 <= c <= 127) as Hc by (bool_cases; lia).
  unfold name_byte. rewrite nat_ascii_embedding by lia.
  bool_cases;
    [rewrite (proj2 (Nat.leb_le 97 (Z.to_nat c))), (proj2 (Nat.leb_le (Z.to_nat c) 122)) by lia
    |rewrite (proj2 (Nat.leb_le 48 (Z.to_nat c))), (proj2 (Nat.leb_le (Z.to_nat c) 57)) by lia
    |subst c]; simpl; rewrite ?orb_true_r; reflexivity.
Qed.

Lemma sanitize_bytes lower s : all_bytes name_byte (sanitize lower s).
Proof.
  apply all_bytes_of_list, Forall_map, Forall_true. intros c. apply sanitize_rune_byte.
Qed.

(** A key or value the flag can carry: no separator in it, nothing to trim. *)
Definition flag_clean (kv : string * string) : Prop :=
  TrimSpace kv.1 = kv.1 /\ TrimSpace kv.2 = kv.2 /\
  contains_byte "," kv.1 = false /\ contains_byte "," kv.2 = false /\
  contains_byte "=" kv.1 = false.

Lemma set_pairs_entry k v rest m pre :
  flag_clean (k, v) -> pre = EmptyString \/ pre = " "%string ->
  set_pairs ((pre +:+ (k +:+ "=" +:+ v)) :: rest) m = set_pairs rest (<[k := v]> m).
Proof.
  intros (Hk & Hv & _ & _ & Heq) Hpre. cbn [set_pairs]. simpl in *.
  rewrite (string_app_one "="), <- string_app_assoc, cut_on_app.
  2:{ destruct Hpre; subst; [done|]. by apply contains_byte_app. }
  rewrite Hv. destruct Hpre; subst; [by rewrite string_app_nil, Hk|].
  by rewrite string_app_one, TrimSpace_leading, Hk.
Qed.

Lemma set_pairs_join kv entries m pre :
  Forall flag_clean (kv :: entries) -> pre = EmptyString \/ pre = " "%string ->
  set_pairs (split_on "," (pre +:+ KeyValueFlag_String (kv :: entries))) m
  = (Ok tt, foldl (fun m kv => <[kv.1 := kv.2]> m) m (kv :: entries)).
Proof.
  revert kv m pre. induction entries as [|kv' entries IH]; intros [k v] m pre Hall Hpre;
    inversion Hall as [|? ? Hkv Hrest]; subst.
  all: assert (contains_byte "," (pre +:+ (k +:+ "=" +:+ v)) = false) as Hno
    by (destruct Hkv as (_ & _ & Hk & Hv & _); simpl in *;
        rewrite !contains_byte_app; destruct Hpre; subst; done).
  - unfold KeyValueFlag_String. simpl. rewrite split_on_none by exact Hno.
    by rewrite set_pairs_entry.
  - change (KeyValueFlag_String ((k, v) :: kv' :: entries))
      with ((k +:+ "=" +:+ v) +:+ ", " +:+ KeyValueFlag_String (kv' :: entries)).
    rewrite <- string_app_assoc.
    rewrite (string_app_cons "," " ").
    rewrite split_on_app by exact Hno. rewrite set_pairs_entry by done.
    by rewrite IH by auto.
Qed.

Lemma foldl_insert_lookup (entries : list (string * string)) (m : gmap string string) k v :
  NoDup entries.*1 -> (k, v) ∈ entries ->
  foldl (fun m kv => <[kv.1 := kv.2]> m) m entries !! k = Some v.
Proof.
  revert m. induction entries as [|[k' v'] entries IH]; intros m Hnd Hin; [by apply elem_of_nil in Hin|].
  simpl in *. apply NoDup_cons in Hnd as [Hk' Hnd]. apply elem_of_cons in Hin as [[= -> ->]|Hin].
  2:{ by apply IH. }
  clear IH. cut ((<[k' := v']> m : gmap string string) !! k' = Some v'); [|by simplify_map_eq].
  generalize (<[k' := v']> m). induction entries as [|[k2 v2] entries IH2]; intros m' Hm'; [done|].
  simpl in *. apply IH2; [set_solver|by apply NoDup_cons in Hnd as [_ ?]|].
  rewrite lookup_insert_ne; [done|]. set_solver.
Qed.

Lemma foldl_insert_map (entries : list (string * string)) (k : gmap string string) :
  entries ≡ₚ map_to_list k ->
  foldl (fun m kv => <[kv.1 := kv.2]> m) (∅ : gmap string string) entries = k.
Proof.
  intros Hperm.
  assert (NoDup entries.*1) as Hnd by (rewrite Hperm; apply NoDup_fst_map_to_list).
  apply map_eq. intros i. destruct (k !! i) as [v|] eqn:E.
  - apply foldl_insert_lookup; [done|]. rewrite Hperm. by apply elem_of_map_to_list.
  - assert (i ∉ entries.*1) as Hi.
    { intros [[i' v'] [-> Hin]]%list_elem_of_fmap. simpl in E. rewrite Hperm, elem_of_map_to_list in Hin.
      by rewrite E in Hin. }
    clear Hperm Hnd. cut ((∅ : gmap string string) !! i = None); [|done].
    generalize (∅ : gmap string string).
    induction entries as [|[k2 v2] entries IH]; intros m Hm; [done|]. simpl in *.
    apply IH; [set_solver|]. rewrite lookup_insert_ne; [done|]. set_solver.
Qed.

(** What [VerifyCloudInstanceType] lets through. *)
Lemma verify_ok t valid def t' :
  VerifyCloudInstanceType t valid def = Ok t' ->
  (t = EmptyString /\ t' = def) \/ (t <> EmptyString /\ t' = t /\ (valid = [] /\ t = def \/ t ∈ valid)).
Proof.
  unfold VerifyCloudInstanceType. destruct (String.eqb t "") eqn:E; bool_to_prop.
  { intros [= <-]. by left. }
  destruct valid as [|v valid].
  - simpl. destruct (String.eqb t def) eqn:Ed; [|done]. bool_to_prop. naive_solver.
  - cbn [length Nat.eqb Nat.ltb Nat.leb andb].
    destruct (slice_contains (v :: valid) t) eqn:Ec; [|done].
    apply slice_contains_spec in Ec. naive_solver.
Qed.

Lemma bestfit_elem l vcpus memory t :
  GetBestFitInstanceType l vcpus memory = Ok t ->
  exists s, s ∈ l /\ InstanceType s = t /\ GPUs s = 0 /\ memory <= Memory s /\ vcpus <= VCPUs s.
Proof.
  unfold GetBestFitInstanceType. pose proof (search_sound (FilterOutGPUInstances l) (fits vcpus memory) _ eq_refl) as Hs.
  destruct (_ !! _) as [s|] eqn:E; [|done]. intros [= <-]. exists s.
  apply list_elem_of_lookup_2, FilterOutGPU_elem in E as [? ?].
  unfold fits in Hs. bool_to_prop. repeat split; [done..].
Qed.

Lemma bestfit_gpu_elem l gpus vcpus memory t :
  GetBestFitInstanceTypeWithGPU l gpus vcpus memory = Ok t ->
  exists s, s ∈ l /\ InstanceType s = t /\ gpus <= GPUs s /\ memory <= Memory s /\ vcpus <= VCPUs s.
Proof.
  unfold GetBestFitInstanceTypeWithGPU. pose proof (search_sound l (fits_gpu gpus vcpus memory) _ eq_refl) as Hs.
  destruct (_ !! _) as [s|] eqn:E; [|done]. intros [= <-]. exists s.
  apply list_elem_of_lookup_2 in E. unfold fits_gpu in Hs. bool_to_prop. repeat split; done.
Qed.

(** ** Properties *)

Lemma selected_allowed spec specList valid def t :
  SelectInstanceTypeToUse spec specList valid def = Ok t ->
  (t = def \/ t ∈ valid) /\ (InstanceType spec <> EmptyString -> t = InstanceType spec).
Proof.
  unfold SelectInstanceTypeToUse. intros H.
  destruct (String.eqb (InstanceType spec) "") eqn:En; bool_to_prop; go_cases;
    match goal with E : VerifyCloudInstanceType _ _ _ = Ok _ |- _ => apply verify_ok in E end;
    naive_solver.
Qed.

(** the instance type handed to a cloud provider is always one its
    configuration allows, the default or a member of the list of valid types;
    and a type named explicitly by the pod's annotation is used as it is, not
    replaced by another one. *)
Theorem select_only_allowed_types spec specList valid def t :
  SelectInstanceTypeToUse spec specList valid def = Ok t ->
  (t = def \/ t ∈ valid) /\ (InstanceType spec <> EmptyString -> t = InstanceType spec).
Proof. apply selected_allowed. Qed.

Lemma select_only_allowed_types_witness :
  ("m.large" = "m.small" \/ "m.large" ∈ ["m.small"; "m.large"])%string /\
  ("" <> "" -> "m.large" = "")%string.
Proof.
  apply (select_only_allowed_types (mkSpec "" 2 4096 "" 0 "" false)
    [mkSpec "m.small" 1 2048 "" 0 "" false; mkSpec "m.large" 2 8192 "" 0 "" false]).
  reflexivity.
Defined.

(** a pod VM sized by its resource annotations gets an instance type that
    provides at least the requested GPUs, vCPUs and memory, on any list of specs
    (sorted or not); a request without GPUs is never served by a GPU type.  The
    one exception is an entry with an empty type name, which stands for the
    default type. *)
Theorem select_meets_request spec specList valid def t :
  InstanceType spec = EmptyString ->
  (0 < GPUs spec \/ (VCPUs spec <> 0 /\ Memory spec <> 0)) ->
  SelectInstanceTypeToUse spec specList valid def = Ok t ->
  exists s, s ∈ specList /\
    (t = InstanceType s \/ InstanceType s = EmptyString /\ t = def) /\
    GPUs spec <= GPUs s /\ VCPUs spec <= VCPUs s /\ Memory spec <= Memory s /\
    (GPUs spec <= 0 -> GPUs s = 0).
Proof.
  intros Hname Hreq. unfold SelectInstanceTypeToUse. rewrite Hname. simpl.
  destruct (0 <? GPUs spec) eqn:Eg.
  - destruct (GetBestFitInstanceTypeWithGPU _ _ _ _) as [u|] eqn:E; [|done].
    apply bestfit_gpu_elem in E as (s & ? & ? & ? & ? & ?).
    destruct (VerifyCloudInstanceType _ _ _) eqn:Ev; [|done]. intros [= <-].
    apply verify_ok in Ev. bool_to_prop. exists s. repeat split; [done|naive_solver|lia..].
  - bool_to_prop. destruct Hreq as [?|[Hv Hm]]; [lia|].
    rewrite (proj2 (Z.eqb_neq _ _) Hv), (proj2 (Z.eqb_neq _ _) Hm). simpl.
    destruct (GetBestFitInstanceType _ _ _) as [u|] eqn:E; [|done].
    apply bestfit_elem in E as (s & ? & ? & ? & ? & ?).
    destruct (VerifyCloudInstanceType _ _ _) eqn:Ev; [|done]. intros [= <-].
    apply verify_ok in Ev. exists s. repeat split; [done|naive_solver|lia..].
Qed.

Lemma select_meets_request_witness :
  exists s, s ∈ [mkSpec "g.small" 4 8192 "" 1 "" false; mkSpec "g.large" 8 65536 "" 4 "" false] /\
    ("g.large"%string = InstanceType s \/ InstanceType s = EmptyString /\ "g.large"%string = "d"%string) /\
    2 <= GPUs s /\ 4 <= VCPUs s /\ 16384 <= Memory s /\ (2 <= 0 -> GPUs s = 0).
Proof.
  apply (select_meets_request (mkSpec "" 4 16384 "" 2 "" false) _ ["g.large"; "d"]%string "d");
    [reflexivity|left; simpl; lia|reflexivity].
Defined.

(** on a list whose specs scale together (more memory never comes with fewer
    vCPUs), the bisection of [GetBestFitInstanceType] is exactly a linear scan
    for the first CPU-only spec that fits: it returns that spec's type, and an
    error only when no spec fits. *)
Theorem bestfit_is_first_fit l vcpus memory :
  scales (FilterOutGPUInstances l) ->
  GetBestFitInstanceType l vcpus memory
  = match first_fit (fits vcpus memory) (FilterOutGPUInstances l) with
    | Some t => Ok t
    | None => Err (Errorf "no instance type found for the given vcpus and memory" [])
    end.
Proof.
  intros Hs. rewrite <- search_is_first_fit by (by apply scales_monotone).
  unfold GetBestFitInstanceType. by destruct (_ !! _).
Qed.

Lemma bestfit_is_first_fit_witness :
  GetBestFitInstanceType
    [mkSpec "a" 1 2 "" 0 "" false; mkSpec "g" 1 2 "" 1 "" false; mkSpec "b" 2 4 "" 0 "" false] 2 3
  = Ok "b"%string.
Proof.
  rewrite (bestfit_is_first_fit
    [mkSpec "a" 1 2 "" 0 "" false; mkSpec "g" 1 2 "" 1 "" false; mkSpec "b" 2 4 "" 0 "" false] 2 3);
    [reflexivity|].
  unfold scales. simpl. each_element; simpl; lia.
Defined.

(** [SortInstanceTypesOnResources] alone does not make the search complete:
    on three CPU-only specs in the order the sort produces (memory first), a
    request for 4 vCPUs and 8 GiB is answered with an error although the first
    spec provides 8 vCPUs and 8 GiB. *)
Theorem bestfit_misses_a_fitting_type :
  let l := [mkSpec "c8" 8 8192 "" 0 "" false; mkSpec "m2" 2 16384 "" 0 "" false;
            mkSpec "r2" 2 32768 "" 0 "" false] in
  StronglySorted (fun x y => lessResources y x = false) l /\
  (exists s, s ∈ l /\ fits 4 8192 s = true) /\
  is_ok (GetBestFitInstanceType l 4 8192) = false.
Proof.
  cbv zeta. split; [|split].
  - each_element; reflexivity.
  - eexists. split; [apply list_elem_of_here|reflexivity].
  - reflexivity.
Qed.

(** a generated instance name fits the provider's limit, starts with
    "podvm-", and is made of lower-case letters, digits and '-' only, whatever
    the pod name and sandbox id; the function panics exactly when the limit is
    positive and below 15, the length of the fixed parts. *)
Theorem instance_name_well_formed lower podName sandboxID max :
  match GenerateInstanceName lower podName sandboxID max with
  | Return name =>
      (0 < max -> Z.of_nat (String.length name) <= max) /\
      all_bytes name_byte name /\ HasPrefix name "podvm-" = true /\ (max <= 0 \/ 15 <= max)
  | Panic => 0 < max < 15
  end.
Proof.
  unfold GenerateInstanceName. set (p := sanitize lower podName). set (i := sanitize lower sandboxID).
  assert (forall n, all_bytes name_byte
    (podvmNamePrefix +:+ "-" +:+ take_bytes (Z.to_nat n) p +:+ "-" +:+ take_bytes 8 i)) as Hb.
  { intros n. rewrite !all_bytes_app. repeat split;
      try (apply all_bytes_take, sanitize_bytes); unfold all_bytes; repeat constructor. }
  assert (forall n, String.length
    (podvmNamePrefix +:+ "-" +:+ take_bytes (Z.to_nat n) p +:+ "-" +:+ take_bytes 8 i)
    <= 15 + Z.to_nat n)%nat as Hl.
  { intros n. rewrite !string_length_app.
    change (String.length podvmNamePrefix) with 5%nat. change (String.length "-") with 1%nat.
    pose proof (take_bytes_length (Z.to_nat n) p). pose proof (take_bytes_length 8 i). lia. }
  change (Z.of_nat (String.length podvmNamePrefix)) with 5. destruct (_ && _)%bool eqn:E; bool_to_prop.
  - destruct (_ <? 0) eqn:E2; bool_to_prop; [lia|].
    specialize (Hl (max - 5 - 10)). refine (conj _ (conj (Hb _) (conj eq_refl _))); lia.
  - specialize (Hl (Z.of_nat (String.length p))).
    refine (conj _ (conj (Hb _) (conj eq_refl _))); bool_cases; lia.
Qed.

(** printing a key-value flag and parsing the text back gives the same map,
    for every order in which Go may visit the entries, provided the map is not
    empty and no key or value holds a separator or outer white space. *)
Theorem keyvalue_flag_roundtrip (k : gmap string string) (entries : list (string * string)) :
  entries ≡ₚ map_to_list k -> k <> ∅ -> Forall flag_clean entries ->
  KeyValueFlag_Set None (KeyValueFlag_String entries) = (Ok tt, k).
Proof.
  intros Hperm Hne Hclean. destruct entries as [|kv entries].
  { apply Permutation_nil_l in Hperm. by apply symmetry, map_to_list_empty_iff in Hperm. }
  unfold KeyValueFlag_Set. rewrite <- (string_app_nil (KeyValueFlag_String _)).
  rewrite set_pairs_join by auto. f_equal. by apply foldl_insert_map.
Qed.

Lemma keyvalue_flag_roundtrip_witness :
  KeyValueFlag_Set None (KeyValueFlag_String [("team", "a b"); ("env", "x=y")])
  = (Ok tt, <["team" := "a b"]> (<["env" := "x=y"]> ∅)).
Proof.
  apply keyvalue_flag_roundtrip.
  - vm_compute. repeat constructor.
  - intros H. apply (f_equal (lookup "team"%string)) in H. discriminate H.
  - each_element; reflexivity.
Defined.
