(* ===== verification/NetAddr.v ===== *)
(** * Network addresses and Go maps

    The interface of the standard library's [net/netip] that the providers and
    the pod network use, with an executable IPv4 implementation of it, and the
    unspecified iteration order of Go maps. *)

From Stdlib Require Import ZArith Ascii String Lia.
From stdpp Require Import base gmap strings list fin_maps pretty.
From S2P Require Import Prelude.

Open Scope Z_scope.

(** ** [net/netip]

    [Addr] stands for the valid addresses.  The zero [netip.Addr], what [Next]
    gives after the last address of a family, is [None] and prints as
    "invalid IP". *)
Class NetIP := {
  Addr : Type;
  #[global] Addr_eq_dec :: EqDecision Addr;
  ParseAddr : string -> option Addr;
  Addr_String : Addr -> string;
  Addr_Compare : Addr -> Addr -> comparison;
  Addr_Next : Addr -> option Addr;
  Addr_Is4 : Addr -> bool;
  ParseAddr_String : forall a, ParseAddr (Addr_String a) = Some a;
  Addr_String_ascii : forall a, all_bytes (fun c => Nat.ltb (nat_of_ascii c) 128) (Addr_String a);
  Addr_Compare_Eq : forall a b, Addr_Compare a b = Eq <-> a = b
}.

Lemma Addr_String_inj `{NetIP} a b : Addr_String a = Addr_String b -> a = b.
Proof.
  intros E. apply (f_equal ParseAddr) in E. rewrite !ParseAddr_String in E. by simplify_eq.
Qed.

Definition ascii_string (s : string) : Prop :=
  all_bytes (fun c => Nat.ltb (nat_of_ascii c) 128) s.

(** ** Iteration over a map

    [range m] visits every entry once, in an unspecified order. *)
Class GoMapOrder := {
  map_order : forall {A : Type}, gmap string A -> list (string * A);
  map_order_perm : forall A (m : gmap string A), map_order m ≡ₚ map_to_list m
}.

#[export, program] Instance map_to_list_order : GoMapOrder := {
  map_order := fun A m => map_to_list m
}.
Next Obligation. done. Qed.

Lemma elem_of_map_order `{GoMapOrder} {A} (m : gmap string A) k v :
  (k, v) ∈ map_order m <-> m !! k = Some v.
Proof. rewrite map_order_perm. apply elem_of_map_to_list. Qed.

(** ** IPv4 *)

(** One decimal octet: one to three digits, no leading zero, at most 255. *)
Definition parse_octet (s : string) : option Z :=
  match s with
  | String "0" (String _ _) => None
  | _ => if Nat.leb (String.length s) 3 then
           match parse_uint s with
           | Some z => if z <=? 255 then Some z else None
           | None => None
           end
         else None
  end.

Definition octets (z : Z) : Z * Z * Z * Z :=
  (z / 2 ^ 24 mod 256, z / 2 ^ 16 mod 256, z / 2 ^ 8 mod 256, z mod 256).

Definition of_octets (a b c d : Z) : Z := a * 2 ^ 24 + b * 2 ^ 16 + c * 2 ^ 8 + d.

Definition parse_ipv4 (s : string) : option Z :=
  match split_on "." s with
  | [a; b; c; d] =>
      match parse_octet a, parse_octet b, parse_octet c, parse_octet d with
      | Some a, Some b, Some c, Some d => Some (of_octets a b c d)
      | _, _, _, _ => None
      end
  | _ => None
  end.

(** Decimal digits of an octet, without a leading zero. *)
Definition digit (z : Z) : ascii := ascii_of_nat (Z.to_nat (48 + z)).

Definition octet_string (z : Z) : string :=
  if z <? 10 then String (digit z) EmptyString
  else if z <? 100 then String (digit (z / 10)) (String (digit (z mod 10)) EmptyString)
  else String (digit (z / 100))
         (String (digit (z / 10 mod 10)) (String (digit (z mod 10)) EmptyString)).

Definition ipv4_string (z : Z) : string :=
  let '(a, b, c, d) := octets z in
  octet_string a +:+ "." +:+ octet_string b +:+ "." +:+ octet_string c +:+ "." +:+ octet_string d.

(** The 256 octets are checked by evaluation. *)
Definition octet_ok (z : Z) : bool :=
  match parse_octet (octet_string z) with
  | Some z' =>
      ((z =? z') && negb (contains_byte "." (octet_string z)) &&
       forallb (fun c => Nat.ltb (nat_of_ascii c) 128) (String.list_ascii_of_string (octet_string z)))%bool
  | None => false
  end.

Lemma octet_ok_all z : 0 <= z < 256 -> octet_ok z = true.
Proof.
  intros Hz. assert (forallb octet_ok (map Z.of_nat (seq 0 256)) = true) as Hall
    by (vm_compute; reflexivity).
  rewrite forallb_forall in Hall. apply Hall. apply in_map_iff. exists (Z.to_nat z).
  split; [lia|]. apply in_seq. lia.
Qed.

Lemma octet_roundtrip z :
  0 <= z < 256 ->
  parse_octet (octet_string z) = Some z /\ contains_byte "." (octet_string z) = false /\
  ascii_string (octet_string z).
Proof.
  intros Hz. pose proof (octet_ok_all z Hz) as H. unfold octet_ok in H. go_cases. bool_to_prop.
  subst. repeat split; [done|]. unfold ascii_string, all_bytes. apply Forall_forall.
  match goal with H : forallb _ _ = true |- _ => rewrite forallb_forall in H end.
  intros c Hc. by apply H0, list_elem_of_In.
Qed.

Lemma octets_of z : 0 <= z < 2 ^ 32 ->
  let '(a, b, c, d) := octets z in of_octets a b c d = z.
Proof.
  intros Hz. unfold octets, of_octets.
  pose proof (Z.div_mod z (2 ^ 8)). pose proof (Z.div_mod (z / 2 ^ 8) (2 ^ 8)).
  pose proof (Z.div_mod (z / 2 ^ 16) (2 ^ 8)).
  assert (z / 2 ^ 8 / 2 ^ 8 = z / 2 ^ 16) by (rewrite Z.div_div; [done|lia..]).
  assert (z / 2 ^ 16 / 2 ^ 8 = z / 2 ^ 24) by (rewrite Z.div_div; [done|lia..]).
  assert (z / 2 ^ 24 mod 256 = z / 2 ^ 24) as ->.
  { apply Z.mod_small. split; [apply Z.div_pos; lia|apply Z.div_lt_upper_bound; lia]. }
  change (2 ^ 8) with 256 in *. lia.
Qed.

Lemma parse_ipv4_string z : 0 <= z < 2 ^ 32 -> parse_ipv4 (ipv4_string z) = Some z.
Proof.
  intros Hz. pose proof (octets_of z Hz) as Ho. unfold ipv4_string, parse_ipv4.
  unfold octets in *. cbv beta iota in Ho |- *.
  destruct (octet_roundtrip (z / 2 ^ 24 mod 256)) as (Ha & ? & ?); [apply Z.mod_pos_bound; lia|].
  destruct (octet_roundtrip (z / 2 ^ 16 mod 256)) as (Hb & ? & ?); [apply Z.mod_pos_bound; lia|].
  destruct (octet_roundtrip (z / 2 ^ 8 mod 256)) as (Hc & ? & ?); [apply Z.mod_pos_bound; lia|].
  destruct (octet_roundtrip (z mod 256)) as (Hd & ? & ?); [apply Z.mod_pos_bound; lia|].
  rewrite !(string_app_one "."), !split_on_app, split_on_none by done.
  by rewrite Ha, Hb, Hc, Hd, Ho.
Qed.

Lemma ipv4_string_ascii z : ascii_string (ipv4_string z).
Proof.
  unfold ipv4_string, octets, ascii_string. rewrite !all_bytes_app.
  repeat split; try (apply octet_roundtrip, Z.mod_pos_bound; lia); repeat constructor.
Qed.

(** The addresses are the values of 32 bits. *)
Definition in_32_bits (z : Z) : bool := ((0 <=? z) && (z <? 2 ^ 32))%bool.

Record ipv4 := mk_ipv4 { addr_value : Z; addr_range : Is_true (in_32_bits addr_value) }.

Definition guarded {A} (b : bool) : (Is_true b -> A) -> option A :=
  if b as b return (Is_true b -> A) -> option A then fun mk => Some (mk I) else fun _ => None.

Lemma guarded_true {A} b (mk : Is_true b -> A) H : guarded b mk = Some (mk H).
Proof. destruct b; by destruct H. Qed.

Definition mk_addr (z : Z) : option ipv4 := guarded (in_32_bits z) (mk_ipv4 z).

Lemma addr_value_range a : 0 <= addr_value a < 2 ^ 32.
Proof.
  destruct a as [a Ha]. simpl. apply Is_true_eq_true in Ha. unfold in_32_bits in Ha.
  bool_to_prop. lia.
Qed.

Lemma mk_addr_value a : mk_addr (addr_value a) = Some a.
Proof. destruct a as [z Ha]. exact (guarded_true _ _ Ha). Qed.

Lemma addr_value_inj a b : addr_value a = addr_value b -> a = b.
Proof. intros E. apply (inj Some). by rewrite <- (mk_addr_value a), <- (mk_addr_value b), E. Qed.

#[export] Instance ipv4_eq_dec : EqDecision ipv4.
Proof.
  refine (fun a b => match decide (addr_value a = addr_value b) with
                     | left E => left (addr_value_inj a b E)
                     | right NE => right (fun E => NE (f_equal addr_value E))
                     end).
Defined.

#[export, program] Instance ipv4_netip : NetIP := {
  Addr := ipv4;
  Addr_eq_dec := ipv4_eq_dec;
  ParseAddr := fun s => parse_ipv4 s ≫= mk_addr;
  Addr_String := fun a => ipv4_string (addr_value a);
  Addr_Compare := fun a b => (addr_value a ?= addr_value b);
  Addr_Next := fun a => mk_addr (addr_value a + 1);
  Addr_Is4 := fun _ => true
}.
Next Obligation.
  intros a. cbv beta. rewrite parse_ipv4_string by apply addr_value_range. simpl. apply mk_addr_value.
Qed.
Next Obligation. intros a. apply ipv4_string_ascii. Qed.
Next Obligation.
  intros a b. rewrite Z.compare_eq_iff. split; [apply addr_value_inj|by intros ->].
Qed.
