(* ===== verification/ByomPool.v ===== *)
(** * The BYOM pool manager

    Models src/cloud-providers/byom/configmap_vmpool.go (the ConfigMap-backed
    pool of pre-created VMs), state_recovery.go (recovery of its state),
    types.go (the state, and parsing of the list of pool IPs), errors.go and
    namespace.go.

    The Kubernetes client, the retry helper of client-go, the JSON codec, MD5,
    the clock and the probe of a VM are parameters ([PoolEnv], [StateCodec],
    [HashMD5]); their documented behaviour is the classes of laws
    ([PoolEnvLaws] and the fields of the codec and hash classes).  A manager
    holds its mutex for the whole of an operation, so an operation is one
    function of the world; the API server is shared with the managers of other
    nodes, which act between operations or, for [lost_update], between the API
    calls of one operation.  Contexts and their timeouts are not modelled: a
    call that times out is a call that returns an error. *)

From Stdlib Require Import ZArith Ascii String Lia.
From stdpp Require Import base gmap strings list fin_maps.
From S2P Require Import Prelude NetAddr.

Open Scope Z_scope.
Open Scope go_scope.

(** ** Errors: errors.go *)

Definition ErrNoAvailableIPs := Sentinel "no available IPs in pool".
Definition ErrRetrievingPoolState := Sentinel "failed to retrieve pool state".
Definition ErrUpdatingPoolState := Sentinel "failed to update pool state".
Definition ErrRetrievingConfigMap := Sentinel "failed to retrieve the pool state configmap".
Definition ErrInvalidClient := Sentinel "kubernetes client cannot be nil".
Definition ErrNilConfig := Sentinel "configuration cannot be nil".
Definition ErrCreatingPoolMgr := Sentinel "failed to create VM pool manager".
Definition ErrEmptyPoolIPs := Sentinel "pool IPs cannot be empty".
Definition ErrInvalidIPAddress := Sentinel "invalid IP address".
Definition ErrNodeNameDetection := Sentinel "unable to determine node name".
Definition ErrConflict := Sentinel "conflict".
Definition ErrInvalidAllocatedIP := Sentinel "invalid allocated IP".

(** ** Data: types.go

    Times are nanoseconds.  [AllocatedIPs] is a Go map: [None] is the nil map,
    which reads as empty and panics on assignment. *)

Record IPAllocation := mkAllocation {
  AllocationID : string;
  IP : string;
  NodeName : string;
  PodName : string;
  AllocatedAt : Z
}.

Record IPAllocationState := mkState {
  AllocatedIPs : option (gmap string IPAllocation);
  AvailableIPs : list string;
  LastUpdated : Z;
  Version : Z
}.

Record GlobalVMPoolConfig := mkConfig {
  Namespace : string;
  ConfigMapName : string;
  PoolIPs : list string;
  SkipVMReadiness : bool
}.

(** The fields of a Kubernetes ConfigMap the code reads or writes; a nil [Data]
    is an empty one, as the code makes it. *)
Record ConfigMap := mkConfigMap {
  cm_name : string;
  cm_namespace : string;
  cm_labels : gmap string string;
  cm_data : gmap string string;
  ResourceVersion : string
}.

Definition stateDataKey : string := "allocation-state".
Definition nodeNameEnvVar : string := "NODE_NAME".
Definition nodeNameFile : string := "/etc/podinfo/nodename".
Definition hostnameFile : string := "/etc/hostname".

Definition allocs (s : IPAllocationState) : gmap string IPAllocation := default ∅ (AllocatedIPs s).

(** ** What the manager calls

    [cm_*] are the client's operations on ConfigMaps, [OnError retriable fn] is
    [retry.OnError(retry.DefaultBackoff, retriable, fn)], [dial ip] tries to
    reach port 22 of a VM and [Now] is [metav1.Now]. *)
Class PoolEnv (W : Type) := {
  cm_Get : string -> string -> M W (result ConfigMap);
  cm_Create : ConfigMap -> M W (result ConfigMap);
  cm_Update : ConfigMap -> M W (result ConfigMap);
  OnError : (GoError -> bool) -> M W (option GoError) -> M W (option GoError);
  dial : string -> M W (option GoError);
  Now : M W Z;
  getenv : string -> string;
  ReadFile : string -> option string
}.

(** [retry.RetryOnConflict]. *)
Definition RetryOnConflict `{PoolEnv W} (fn : M W (option GoError)) : M W (option GoError) :=
  OnError IsConflict fn.

(** JSON carries a time as whole seconds. *)
Definition trunc_time (t : Z) : Z := t / 10 ^ 9 * 10 ^ 9.

Definition trunc_alloc (a : IPAllocation) : IPAllocation :=
  mkAllocation (AllocationID a) (IP a) (NodeName a) (PodName a) (trunc_time (AllocatedAt a)).

Definition truncate (s : IPAllocationState) : IPAllocationState :=
  mkState (fmap (M := option) (fmap trunc_alloc) (AllocatedIPs s)) (AvailableIPs s)
          (trunc_time (LastUpdated s)) (Version s).

Definition ascii_alloc (id : string) (a : IPAllocation) : Prop :=
  ascii_string id /\ ascii_string (AllocationID a) /\ ascii_string (IP a) /\
  ascii_string (NodeName a) /\ ascii_string (PodName a).

(** The states whose strings are ASCII, which JSON carries unchanged. *)
Definition ascii_state (s : IPAllocationState) : Prop :=
  map_Forall ascii_alloc (allocs s) /\ Forall ascii_string (AvailableIPs s).

(** [json.MarshalIndent] and [json.Unmarshal] at type [IPAllocationState]. *)
Class StateCodec := {
  marshal : IPAllocationState -> string;
  unmarshal : string -> option IPAllocationState;
  unmarshal_marshal : forall s, ascii_state s -> unmarshal (marshal s) = Some (truncate s)
}.

(** [md5.Sum]: sixteen bytes. *)
Class HashMD5 := {
  md5_Sum : string -> list Z;
  md5_Sum_bytes : forall s, length (md5_Sum s) = 16%nat /\ Forall (fun b => 0 <= b < 256) (md5_Sum s)
}.

(** ** Node identity *)

Definition getCurrentNodeName `{PoolEnv W} : result string :=
  let from_file (path : string) : option string :=
    match ReadFile path with
    | Some data => let nodeName := TrimSpace data in
                   if String.eqb nodeName "" then None else Some nodeName
    | None => None
    end in
  if negb (String.eqb (getenv nodeNameEnvVar) "") then Ok (TrimSpace (getenv nodeNameEnvVar))
  else match from_file nodeNameFile with
  | Some nodeName => Ok nodeName
  | None =>
      match from_file hostnameFile with
      | Some nodeName => Ok nodeName
      | None => Err (Errorf "tried env var, file, and" [ErrNodeNameDetection])
      end
  end.

(** ** The manager *)

Section Manager.

Context {W : Type} `{PoolEnv W} `{StateCodec} `{HashMD5} `{NetIP} `{GoMapOrder}.
Context (cfg : GlobalVMPoolConfig).

(** [binary.BigEndian.Uint32]. *)
Definition BigEndian_Uint32 (b : list Z) : Z :=
  Z.lor (Z.lor (Z.shiftl (nth 0 b 0) 24) (Z.shiftl (nth 1 b 0) 16))
        (Z.lor (Z.shiftl (nth 2 b 0) 8) (nth 3 b 0)).

(** [int(seed) % len]: Go's remainder truncates towards zero; [int] has 64 bits. *)
Definition selectIPIndex (availableIPs : list string) (allocationID : string) : nat :=
  if (length availableIPs <=? 1)%nat then 0%nat
  else
    let seed := BigEndian_Uint32 (md5_Sum allocationID) in
    Z.to_nat (Z.rem seed (Z.of_nat (length availableIPs))).

(** Every connection error is retried. *)
Definition checkVMReadiness (ipStr : string) : M W (option GoError) :=
  OnError (fun _ => true) (dial ipStr).

Definition initializeEmptyState : M W IPAllocationState :=
  let* now := Now in
  mret (mkState (Some ∅) (PoolIPs cfg) now 1).

Definition getCurrentState : M W (result (IPAllocationState * string)) :=
  let* r := cm_Get (Namespace cfg) (ConfigMapName cfg) in
  match r with
  | Err e =>
      if IsNotFound e then
        let* s := initializeEmptyState in mret (Ok (s, EmptyString))
      else mret (Err (Errorf "%w: %w" [ErrRetrievingConfigMap; e]))
  | Ok configMap =>
      match cm_data configMap !! stateDataKey with
      | None => let* s := initializeEmptyState in mret (Ok (s, EmptyString))
      | Some stateData =>
          match unmarshal stateData with
          | None => mret (Err (Errorf "failed to unmarshal state data: %w" []))
          | Some state => mret (Ok (state, ResourceVersion configMap))
          end
      end
  end.

Definition pool_labels : gmap string string :=
  <["app.kubernetes.io/name" := "cloud-api-adaptor"]>
  (<["app.kubernetes.io/component" := "byom-ip-pool-state"]> ∅).

(** One round of the get-modify-update loop. *)
Definition update_attempt (formattedState : string) : M W (option GoError) :=
  let* r := cm_Get (Namespace cfg) (ConfigMapName cfg) in
  match r with
  | Err e =>
      if IsNotFound e then
        let* c := cm_Create (mkConfigMap (ConfigMapName cfg) (Namespace cfg) pool_labels
                               {[stateDataKey := formattedState]} EmptyString) in
        mret (match c with Ok _ => None | Err createErr => Some createErr end)
      else mret (Some (Errorf "%w: %w" [ErrRetrievingConfigMap; e]))
  | Ok configMap =>
      let* u := cm_Update (mkConfigMap (cm_name configMap) (cm_namespace configMap)
                             (cm_labels configMap)
                             (<[stateDataKey := formattedState]> (cm_data configMap))
                             (ResourceVersion configMap)) in
      mret (match u with Ok _ => None | Err updateErr => Some updateErr end)
  end.

(** Marshalling an [IPAllocationState] cannot fail: it holds strings, integers
    and times only. *)
Definition updateState (state : IPAllocationState) : M W (option GoError) :=
  RetryOnConflict (update_attempt (marshal state)).

(** "Verify VM is ready before committing to allocation (skip in test mode)". *)
Definition verify_ready (ipStr : string) : M W (option GoError) :=
  if SkipVMReadiness cfg then mret None else checkVMReadiness ipStr.

(** The part of [doAllocateIP] after the state has been read. *)
Definition allocate_with (state : IPAllocationState) (allocationID podName : string)
    : M W (outcome (result Addr)) :=
  match allocs state !! allocationID with
  | Some allocation =>
      mret (Return match ParseAddr (IP allocation) with
                   | Some ip => Ok ip
                   | None => Err (Errorf "%w: %s: %w" [ErrInvalidAllocatedIP])
                   end)
  | None =>
      if (length (AvailableIPs state) =? 0)%nat then mret (Return (Err ErrNoAvailableIPs))
      else
        let selectedIndex := selectIPIndex (AvailableIPs state) allocationID in
        match AvailableIPs state !! selectedIndex with
        | None => mret Panic
        | Some ipStr =>
            let* ready := verify_ready ipStr in
            match ready with
            | Some e => mret (Return (Err (Errorf "%w: %s: %w" [ErrInvalidAllocatedIP; e])))
            | None =>
                match getCurrentNodeName with
                | Err e => mret (Return (Err (Errorf "%w: %w" [ErrNodeNameDetection; e])))
                | Ok nodeName =>
                    match AllocatedIPs state with
                    | None => mret Panic
                    | Some m =>
                        let* t1 := Now in
                        let* t2 := Now in
                        let state' :=
                          mkState (Some (<[allocationID :=
                                     mkAllocation allocationID ipStr nodeName podName t1]> m))
                                  (remove_at selectedIndex (AvailableIPs state)) t2
                                  (wrap64 (Version state + 1)) in
                        let* u := updateState state' in
                        mret (Return match u with
                        | Some e => Err (Errorf "%w: %w" [ErrConflict; e])
                        | None =>
                            match ParseAddr ipStr with
                            | Some ip => Ok ip
                            | None => Err (Errorf "%w: %s: %w" [ErrInvalidAllocatedIP])
                            end
                        end)
                    end
                end
            end
        end
  end.

Definition doAllocateIP (allocationID podName : string) : M W (outcome (result Addr)) :=
  let* r := getCurrentState in
  match r with
  | Err e => mret (Return (Err (Errorf "%w: %w" [ErrRetrievingPoolState; e])))
  | Ok (state, _) => allocate_with state allocationID podName
  end.

Definition AllocateIP (allocationID podName : string) : M W (outcome (result Addr)) :=
  doAllocateIP allocationID podName.

Definition doDeallocateIP (allocationID : string) : M W (result unit) :=
  let* r := getCurrentState in
  match r with
  | Err e => mret (Err (Errorf "%w: %w" [ErrRetrievingPoolState; e]))
  | Ok (state, _) =>
      match allocs state !! allocationID with
      | None => mret (Ok tt)
      | Some allocation =>
          let* t := Now in
          let state' :=
            mkState (delete allocationID <$> AllocatedIPs state)
                    (AvailableIPs state ++ [IP allocation]) t (wrap64 (Version state + 1)) in
          let* u := updateState state' in
          mret match u with
               | Some e => Err (Errorf "%w: %w" [ErrUpdatingPoolState; e])
               | None => Ok tt
               end
      end
  end.

Definition DeallocateIP (allocationID : string) : M W (result unit) := doDeallocateIP allocationID.

Definition wrap_state_error (e : GoError) : GoError := Errorf "%w: %w" [ErrRetrievingPoolState; e].

(** The third result of the Go function is [Err]; the boolean is [found]. *)
Definition GetIPfromAllocationID (allocationID : string) : M W (result (option Addr)) :=
  let* r := getCurrentState in
  mret match r with
  | Err e => Err (wrap_state_error e)
  | Ok (state, _) =>
      match allocs state !! allocationID with
      | None => Ok None
      | Some allocation =>
          match ParseAddr (IP allocation) with
          | Some ip => Ok (Some ip)
          | None => Err (Errorf "%w: %s: %w" [ErrInvalidAllocatedIP])
          end
      end
  end.

(** The loop over the map returns the first entry with that address. *)
Definition find_allocation (ipStr : string) (entries : list (string * IPAllocation)) : option string :=
  fst <$> List.find (fun kv => String.eqb (IP kv.2) ipStr) entries.

Definition GetAllocationIDfromIP (ip : Addr) : M W (result (option string)) :=
  let* r := getCurrentState in
  mret match r with
  | Err e => Err (wrap_state_error e)
  | Ok (state, _) => Ok (find_allocation (Addr_String ip) (map_order (allocs state)))
  end.

(** (total, available, inUse) *)
Definition GetPoolStatus : M W (result (Z * Z * Z)) :=
  let* r := getCurrentState in
  mret match r with
  | Err e => Err (wrap_state_error e)
  | Ok (state, _) =>
      let available := Z.of_nat (length (AvailableIPs state)) in
      let inUse := Z.of_nat (size (allocs state)) in
      Ok (available + inUse, available, inUse)
  end.

Definition ListAllocatedIPs : M W (result (gmap string IPAllocation)) :=
  let* r := getCurrentState in
  mret match r with
  | Err e => Err (wrap_state_error e)
  | Ok (state, _) => Ok (list_to_map (map_order (allocs state)))
  end.

(** *** state_recovery.go *)

Definition allocatedIPSet (m : gmap string IPAllocation) : gmap string bool :=
  foldr (fun kv acc => <[IP kv.2 := true]> acc) ∅ (map_order m).

Fixpoint keep_unallocated (set : gmap string bool) (ips : list string) : list string :=
  match ips with
  | [] => []
  | ip :: rest =>
      if default false (set !! ip) then keep_unallocated set rest
      else ip :: keep_unallocated set rest
  end.

Definition repairStateFromPrimaryConfig : M W (option GoError) :=
  let* r := getCurrentState in
  match r with
  | Err e => mret (Some (Errorf "failed to get current state for repair: %w" [e]))
  | Ok (currentState, _) =>
      let* t := Now in
      let repairedState :=
        mkState (AllocatedIPs currentState)
                (keep_unallocated (allocatedIPSet (allocs currentState)) (PoolIPs cfg)) t
                (wrap64 (Version currentState + 1)) in
      let* u := updateState repairedState in
      mret match u with
           | Some e => Some (Errorf "failed to update repaired state: %w" [e])
           | None => None
           end
  end.

Definition initializeAndSaveEmptyState : M W (option GoError) :=
  let* emptyState := initializeEmptyState in
  let* u := updateState emptyState in
  mret match u with
       | Some e => Some (Errorf "failed to initialize empty state: %w" [e])
       | None => None
       end.

Definition RecoverState : M W (option GoError) :=
  match getCurrentNodeName with
  | Err e => mret (Some (Errorf "failed to get current node name: %w" [e]))
  | Ok _ =>
      let* r := getCurrentState in
      match r with
      | Ok _ => let* _e := repairStateFromPrimaryConfig in mret None
      | Err _ => initializeAndSaveEmptyState
      end
  end.

End Manager.

(** ** Construction and configuration *)

Fixpoint validate_ips `{NetIP} (ips : list string) : option GoError :=
  match ips with
  | [] => None
  | ipStr :: rest =>
      match ParseAddr ipStr with
      | None => Some (Errorf "%w: %q: %v" [ErrInvalidIPAddress])
      | Some _ => validate_ips rest
      end
  end.

(** [NewConfigMapVMPoolManager(client, config)]: [client] tells whether the
    client is non-nil; the manager is its configuration. *)
Definition NewConfigMapVMPoolManager `{NetIP} (client : bool) (config : option GlobalVMPoolConfig)
    : result GlobalVMPoolConfig :=
  if negb client then Err ErrInvalidClient
  else match config with
  | None => Err ErrNilConfig
  | Some c =>
      if (length (PoolIPs c) =? 0)%nat then Err ErrEmptyPoolIPs
      else match validate_ips (PoolIPs c) with
           | Some e => Err e
           | None => Ok c
           end
  end.

(** [vmPoolIPs.Set]: the addresses of a range, at most [maxRangeIPs] of them.
    [ip] is [None] after the last address of the family. *)
Definition addr_string `{NetIP} (ip : option Addr) : string :=
  match ip with Some a => Addr_String a | None => "invalid IP" end.

Fixpoint expand_range `{NetIP} (budget : nat) (ip : option Addr) (endIP : Addr) : list string :=
  match budget with
  | O => []
  | S budget' =>
      addr_string ip ::
      if bool_decide (ip = Some endIP) then []
      else expand_range budget' (ip ≫= Addr_Next) endIP
  end.

(** One trimmed, non-empty entry: a range or a single address. *)
Definition expand_entry `{NetIP} (maxRangeIPs : Z) (entry : string) : result (list string) :=
  match cut_on "-" entry with
  | Some (start, end_) =>
      match ParseAddr start, ParseAddr end_ with
      | Some startIP, Some endIP =>
          match Addr_Compare startIP endIP with
          | Lt => Ok (expand_range (Z.to_nat maxRangeIPs) (Some startIP) endIP)
          | _ => Err (Errorf "invalid IP range (startIP <= endIP): %s" [])
          end
      | _, _ => Err (Errorf "invalid IP range %q: %v, %v" [])
      end
  | None =>
      match ParseAddr entry with
      | Some ip => Ok [Addr_String ip]
      | None => Err (Errorf "invalid IP address %q: %w" [])
      end
  end.

Fixpoint expand_entries `{NetIP} (maxRangeIPs : Z) (entries : list string) : result (list string) :=
  match entries with
  | [] => Ok []
  | raw :: rest =>
      let entry := TrimSpace raw in
      if String.eqb entry "" then expand_entries maxRangeIPs rest
      else match expand_entry maxRangeIPs entry with
           | Err e => Err e
           | Ok ips => result_map (app ips) (expand_entries maxRangeIPs rest)
           end
  end.

(** Deduplication that keeps the first occurrence. *)
Fixpoint dedup (seen : gset string) (ips : list string) : list string :=
  match ips with
  | [] => []
  | ip :: rest =>
      if bool_decide (ip ∈ seen) then dedup seen rest
      else ip :: dedup ({[ip]} ∪ seen) rest
  end.

Definition vmPoolIPs_Set `{NetIP} (maxRangeIPs : Z) (value : string) : result (list string) :=
  if String.eqb value "" then Ok []
  else result_map (dedup ∅) (expand_entries maxRangeIPs (split_on "," value)).

(** ** Namespace detection: namespace.go *)

Definition DefaultNamespace : string := "confidential-containers-system".
Definition ServiceAccountNamespaceFile : string :=
  "/var/run/secrets/kubernetes.io/serviceaccount/namespace".

Definition detectCurrentNamespaceWithFile (getenv : string -> string)
    (ReadFile : string -> option string) (namespaceFile : string) : result string :=
  let from_env :=
    let namespace := TrimSpace (getenv "POD_NAMESPACE") in
    if String.eqb namespace "" then
      Err (Errorf "unable to detect current namespace" [])
    else Ok namespace in
  match ReadFile namespaceFile with
  | Some data => let namespace := TrimSpace data in
                 if String.eqb namespace "" then from_env else Ok namespace
  | None => from_env
  end.

Definition getCurrentNamespaceWithDefault (getenv : string -> string)
    (ReadFile : string -> option string) : string :=
  match detectCurrentNamespaceWithFile getenv ReadFile ServiceAccountNamespaceFile with
  | Ok namespace => namespace
  | Err _ => DefaultNamespace
  end.
