(* ===== verification/ByomPoolSpec.v ===== *)
(** * Correctness of the BYOM pool manager

    The documented behaviour of the Kubernetes client and of client-go's retry
    helper as a class of laws, the invariant of the pool (no address is offered
    or handed out twice), its preservation by every operation of ByomPool, and
    what each operation does to the pool. *)

From Stdlib Require Import ZArith Ascii String Lia.
From stdpp Require Import base gmap strings list fin_maps.
From S2P Require Import Prelude NetAddr ByomPool.

Open Scope Z_scope.

(** ** Laws

    [stored w ns n] is the ConfigMap the API server holds.  A failed write may
    still have been applied (a lost response), so only a successful write tells
    what is stored; a write of an outdated resource version is refused. *)
Class PoolEnvLaws (W : Type) `{PoolEnv W} := {
  stored : W -> string -> string -> option ConfigMap;
  Get_law : forall ns n w r w', cm_Get ns n w = (r, w') ->
    (forall ns' n', stored w' ns' n' = stored w ns' n') /\
    (forall c, r = Ok c -> stored w ns n = Some c) /\
    (forall e, r = Err e -> IsNotFound e = true -> stored w ns n = None);
  Create_law : forall c w r w', cm_Create c w = (r, w') ->
    let applied := stored w (cm_namespace c) (cm_name c) = None /\
      exists c', stored w' (cm_namespace c) (cm_name c) = Some c' /\ cm_data c' = cm_data c in
    (is_ok r = true -> applied) /\
    (stored w' (cm_namespace c) (cm_name c) = stored w (cm_namespace c) (cm_name c) \/ applied);
  Update_law : forall c w r w', cm_Update c w = (r, w') ->
    let applied := exists old c',
      stored w (cm_namespace c) (cm_name c) = Some old /\ ResourceVersion old = ResourceVersion c /\
      stored w' (cm_namespace c) (cm_name c) = Some c' /\ cm_data c' = cm_data c in
    (is_ok r = true -> applied) /\
    (stored w' (cm_namespace c) (cm_name c) = stored w (cm_namespace c) (cm_name c) \/ applied);
  stored_key : forall w ns n c, stored w ns n = Some c -> cm_name c = n /\ cm_namespace c = ns;
  OnError_law : forall retriable fn w, exists w0,
    rtc (fun w1 w2 => exists e, fn w1 = (Some e, w2) /\ retriable e = true) w w0 /\
    OnError retriable fn w = fn w0;
  dial_law : forall ip w r w', dial ip w = (r, w') ->
    forall ns n, stored w' ns n = stored w ns n;
  Now_law : forall w t w', Now w = (t, w') -> forall ns n, stored w' ns n = stored w ns n
}.

(** ** The invariant *)

Definition alloc_ips (s : IPAllocationState) : list string :=
  (fun kv => IP kv.2) <$> map_to_list (allocs s).

(** All addresses the pool knows of: offered and handed out. *)
Definition all_ips (s : IPAllocationState) : list string := AvailableIPs s ++ alloc_ips s.

(** [L] holds the addresses the pool must know and [K] those it may know.  With
    one configuration both are the configured addresses; when the configuration
    changes, [L] may be empty and [K] holds the addresses of the earlier
    configurations too, which stay allocated. *)
Record pool_ok (L K : list string) (s : IPAllocationState) : Prop := {
  pool_map : AllocatedIPs s <> None;
  pool_ascii : ascii_state s;
  pool_nodup : NoDup (all_ips s);
  pool_known : forall ip, ip ∈ all_ips s -> ip ∈ K;
  pool_complete : forall ip, ip ∈ L -> ip ∈ all_ips s;
  pool_keys : map_Forall (fun id a => AllocationID a = id) (allocs s)
}.

(** A configuration the operator may give: addresses listed once. *)
Definition config_ok (P : list string) : Prop := NoDup P /\ Forall ascii_string P.

(** ** Lemmas: the pure state changes *)

Lemma allocs_truncate s : allocs (truncate s) = trunc_alloc <$> allocs s.
Proof. unfold allocs, truncate. simpl. destruct (AllocatedIPs s); simpl; [done|]. by rewrite fmap_empty. Qed.

Lemma alloc_ips_truncate s : alloc_ips (truncate s) = alloc_ips s.
Proof.
  unfold alloc_ips. rewrite allocs_truncate, map_to_list_fmap, <- list_fmap_compose.
  apply list_fmap_ext. by intros ? [? ?] ?.
Qed.

Lemma pool_ok_truncate L K s : pool_ok L K s -> pool_ok L K (truncate s).
Proof.
  intros [Hm [Ha1 Ha2] Hn Hv Hc Hk]. split.
  - unfold truncate. simpl. by destruct (AllocatedIPs s).
  - split; [|done]. rewrite allocs_truncate. by apply map_Forall_fmap.
  - unfold all_ips. by rewrite alloc_ips_truncate.
  - unfold all_ips. by rewrite alloc_ips_truncate.
  - unfold all_ips. by rewrite alloc_ips_truncate.
  - rewrite allocs_truncate. by apply map_Forall_fmap.
Qed.

Lemma alloc_ips_insert s m id a av t v :
  AllocatedIPs s = Some m -> allocs s !! id = None ->
  alloc_ips (mkState (Some (<[id := a]> m)) av t v) ≡ₚ IP a :: alloc_ips s.
Proof.
  intros Em Hid. unfold alloc_ips, allocs in *. rewrite Em in *. simpl in *.
  by rewrite map_to_list_insert.
Qed.

Lemma alloc_ips_delete s id a av t v :
  allocs s !! id = Some a ->
  IP a :: alloc_ips (mkState (delete id <$> AllocatedIPs s) av t v) ≡ₚ alloc_ips s.
Proof.
  intros Hid. unfold alloc_ips, allocs in *. destruct (AllocatedIPs s) as [m|]; simpl in *; [|done].
  rewrite <- (map_to_list_delete m id a) by done. done.
Qed.

Lemma remove_at_perm {A} (l : list A) i x : l !! i = Some x -> l ≡ₚ x :: remove_at i l.
Proof.
  intros Hi. unfold remove_at. rewrite <- (take_drop_middle l i x Hi) at 1.
  by rewrite Permutation_middle.
Qed.

Lemma elem_of_alloc_ips s ip :
  ip ∈ alloc_ips s <-> exists id a, allocs s !! id = Some a /\ IP a = ip.
Proof.
  unfold alloc_ips. rewrite list_elem_of_fmap. split.
  - intros [[id a] [-> Hin]]. apply elem_of_map_to_list in Hin. eauto.
  - intros (id & a & Hid & <-). exists (id, a). split; [done|]. by apply elem_of_map_to_list.
Qed.

(** Under the invariant an address determines its allocation. *)
Lemma pool_ok_unique L K s id1 id2 a1 a2 :
  pool_ok L K s -> allocs s !! id1 = Some a1 -> allocs s !! id2 = Some a2 -> IP a1 = IP a2 ->
  id1 = id2.
Proof.
  intros Hok H1 H2 E. destruct (decide (id1 = id2)) as [|Hne]; [done|exfalso].
  pose proof (pool_nodup _ _ _ Hok) as Hnd. apply NoDup_app in Hnd as (_ & _ & Hnd).
  unfold alloc_ips in Hnd.
  rewrite <- (insert_delete_id (allocs s) id1 a1 H1) in Hnd.
  rewrite map_to_list_insert in Hnd by apply lookup_delete_eq. simpl in Hnd.
  apply NoDup_cons in Hnd as [Hnin _]. apply Hnin. rewrite E. apply list_elem_of_fmap.
  exists (id2, a2). split; [done|]. apply elem_of_map_to_list. by rewrite lookup_delete_ne.
Qed.

Lemma pool_ok_empty L K P t v :
  config_ok P -> L ⊆ P -> P ⊆ K -> pool_ok L K (mkState (Some ∅) P t v).
Proof.
  intros [Hnd Ha] HL HK.
  assert (all_ips (mkState (Some ∅) P t v) = P) as E.
  { unfold all_ips, alloc_ips, allocs. simpl. by rewrite map_to_list_empty, app_nil_r. }
  by split; rewrite ?E.
Qed.

Lemma pool_ok_allocate L K s m id ip i node pod t1 t2 v :
  pool_ok L K s -> AllocatedIPs s = Some m -> allocs s !! id = None -> AvailableIPs s !! i = Some ip ->
  ascii_string id -> ascii_string node -> ascii_string pod ->
  let s' := mkState (Some (<[id := mkAllocation id ip node pod t1]> m)) (remove_at i (AvailableIPs s)) t2 v in
  pool_ok L K s' /\ all_ips s' ≡ₚ all_ips s.
Proof.
  intros [Hm [Ha1 Ha2] Hn Hv Hc Hk] Em Hid Hi Hai Han Hap s'.
  pose proof (remove_at_perm _ _ _ Hi) as Hperm.
  assert (all_ips s' ≡ₚ all_ips s) as Hall.
  { unfold s', all_ips. rewrite (alloc_ips_insert s m) by done. simpl. rewrite Hperm at 2.
    by rewrite <- Permutation_middle. }
  rewrite Hperm in Ha2. apply Forall_cons in Ha2 as [Haip Ha2].
  assert (allocs s = m) as Eall by (unfold allocs; by rewrite Em).
  split; [|done]. split; [done|split; [|done]|..].
  - unfold allocs. simpl. apply map_Forall_insert_2; [|by rewrite <- Eall].
    repeat split; done.
  - by rewrite Hall.
  - intros x. rewrite Hall. apply Hv.
  - intros x. rewrite Hall. apply Hc.
  - unfold allocs. simpl. apply map_Forall_insert_2; [done|by rewrite <- Eall].
Qed.

Lemma pool_ok_release L K s id a t v :
  pool_ok L K s -> allocs s !! id = Some a ->
  let s' := mkState (delete id <$> AllocatedIPs s) (AvailableIPs s ++ [IP a]) t v in
  pool_ok L K s' /\ all_ips s' ≡ₚ all_ips s.
Proof.
  intros [Hm [Ha1 Ha2] Hn Hv Hc Hk] Hid s'.
  assert (allocs s' = delete id (allocs s)) as Eall.
  { unfold allocs, s'. simpl. destruct (AllocatedIPs s); simpl; [done|]. by rewrite delete_empty. }
  assert (all_ips s' ≡ₚ all_ips s) as Hall.
  { unfold s', all_ips. rewrite <- (alloc_ips_delete s id a (AvailableIPs s ++ [IP a]) t v Hid).
    simpl. rewrite <- app_assoc. done. }
  split; [|done]. split; [simpl; by destruct (AllocatedIPs s)|split|..].
  - rewrite Eall. by apply map_Forall_delete.
  - simpl. apply Forall_app. split; [done|]. apply Forall_singleton. by destruct (Ha1 _ _ Hid) as (?&?&?&_).
  - by rewrite Hall.
  - intros x. rewrite Hall. apply Hv.
  - intros x. rewrite Hall. apply Hc.
  - rewrite Eall. by apply map_Forall_delete.
Qed.

Section Repair.
Context `{GoMapOrder}.

Lemma allocatedIPSet_spec (m : gmap string IPAllocation) ip :
  default false (allocatedIPSet m !! ip) = true <-> exists id a, m !! id = Some a /\ IP a = ip.
Proof.
  unfold allocatedIPSet. setoid_rewrite <- elem_of_map_order.
  induction (map_order m) as [|[id a] l IH]; simpl.
  - rewrite lookup_empty. split; [done|]. intros (? & ? & []%not_elem_of_nil & _).
  - rewrite lookup_insert. case_decide; simpl.
    + split; [|done]. intros _. exists id, a. split; [by left|done].
    + rewrite IH. split.
      * intros (id' & a' & Hin & E). exists id', a'. split; [by right|done].
      * intros (id' & a' & [[= -> ->]|Hin]%elem_of_cons & E); [done|eauto].
Qed.

Lemma keep_unallocated_filter set ips :
  keep_unallocated set ips = filter (fun ip => default false (set !! ip) = false) ips.
Proof.
  induction ips as [|ip ips IH]; [done|]. simpl. rewrite filter_cons.
  destruct (default false (set !! ip)); [rewrite decide_False by done|rewrite decide_True by done]; by rewrite IH.
Qed.

Lemma pool_ok_repair L K P s t v :
  config_ok P -> L ⊆ P -> P ⊆ K -> pool_ok L K s ->
  pool_ok L K (mkState (AllocatedIPs s) (keep_unallocated (allocatedIPSet (allocs s)) P) t v).
Proof.
  intros [Hnd Ha'] HL HK [Hm [Ha1 Ha2] Hn Hv Hc Hk]. rewrite keep_unallocated_filter.
  split; simpl; [done|split; [done|]| |..].
  { rewrite !Forall_forall in *. intros x [_ Hx]%list_elem_of_filter. by apply Ha'. }
  - unfold all_ips. simpl. apply NoDup_app. split; [by apply NoDup_filter|]. split.
    + intros x [Hx _]%list_elem_of_filter Hx'. apply elem_of_alloc_ips in Hx'.
      apply allocatedIPSet_spec in Hx'. unfold allocs in *. simpl in *. congruence.
    + by apply NoDup_app in Hn as (_ & _ & ?).
  - intros x [[_ Hx]%list_elem_of_filter|Hx]%elem_of_app; simpl in *; [by apply HK|].
    apply Hv, elem_of_app. by right.
  - intros x Hx. apply elem_of_app.
    destruct (default false (allocatedIPSet (allocs s) !! x)) eqn:E; [right|left].
    + by apply elem_of_alloc_ips, allocatedIPSet_spec.
    + apply list_elem_of_filter. split; [done|by apply HL].
  - done.
Qed.
End Repair.

(** ** Abstract specification: a pool of addresses

    A pool is the addresses it offers and the map from allocation ids to the
    addresses handed out.  Allocation is idempotent per id and takes an offered
    address; release gives the address of an id back and ignores unknown ids. *)

Definition pool : Type := list string * gmap string string.

Inductive pool_op :=
| Alloc (id ip : string)
| Release (id : string).

Inductive pool_step : pool_op -> pool -> pool -> Prop :=
| step_alloc free used id ip free' :
    used !! id = None -> free ≡ₚ ip :: free' ->
    pool_step (Alloc id ip) (free, used) (free', <[id := ip]> used)
| step_realloc free used id ip :
    used !! id = Some ip -> pool_step (Alloc id ip) (free, used) (free, used)
| step_release free used id ip free' :
    used !! id = Some ip -> free' ≡ₚ ip :: free ->
    pool_step (Release id) (free, used) (free', delete id used)
| step_release_unknown free used id :
    used !! id = None -> pool_step (Release id) (free, used) (free, used).

Definition abs_pool (s : IPAllocationState) : pool := (AvailableIPs s, IP <$> allocs s).

Lemma abs_truncate s : abs_pool (truncate s) = abs_pool s.
Proof.
  unfold abs_pool. rewrite allocs_truncate, <- map_fmap_compose. simpl. f_equal.
Qed.

Lemma used_lookup s id a : allocs s !! id = Some a -> (IP <$> allocs s) !! id = Some (IP a).
Proof. intros Hid. by rewrite lookup_fmap, Hid. Qed.

(** *** The hash-based choice of an index *)

Lemma BigEndian_nonneg b : Forall (fun x => 0 <= x < 256) b -> 0 <= BigEndian_Uint32 b.
Proof.
  intros Hb. assert (forall i, 0 <= nth i b 0) as Hn.
  { intros i. destruct (nth_in_or_default i b 0) as [Hin| ->]; [|lia].
    rewrite Forall_forall in Hb. apply list_elem_of_In in Hin. by apply Hb in Hin as []. }
  unfold BigEndian_Uint32. rewrite !Z.lor_nonneg, !Z.shiftl_nonneg. auto.
Qed.

Lemma selectIPIndex_bound `{HashMD5} av id :
  (0 < length av)%nat -> (selectIPIndex av id < length av)%nat.
Proof.
  intros Hav. unfold selectIPIndex. destruct (length av <=? 1)%nat eqn:E; bool_to_prop; [lia|].
  pose proof (BigEndian_nonneg _ (proj2 (md5_Sum_bytes id))).
  destruct (Z.rem_bound_pos (BigEndian_Uint32 (md5_Sum id)) (Z.of_nat (length av))); lia.
Qed.

(** ** Lemmas: the operations against the stored state *)

Section Store.

Context {W : Type} `{PoolEnvLaws W} `{StateCodec} `{HashMD5} `{NetIP} `{GoMapOrder}.
Context (cfg : GlobalVMPoolConfig) (L K : list string).
Hypothesis cfg_ok : config_ok (PoolIPs cfg).
Hypothesis cfg_needed : L ⊆ PoolIPs cfg.
Hypothesis cfg_known : PoolIPs cfg ⊆ K.

(** The text stored under the state key, if any. *)
Definition pool_text (w : W) : option string :=
  stored w (Namespace cfg) (ConfigMapName cfg) ≫= fun c => cm_data c !! stateDataKey.

(** [s] is the pool state the manager sees in [w]. *)
Definition current (w : W) (s : IPAllocationState) : Prop :=
  match pool_text w with
  | Some txt => unmarshal txt = Some s
  | None => exists t, s = mkState (Some ∅) (PoolIPs cfg) t 1
  end.

(** What is stored, if anything, is a well-formed pool. *)
Definition pool_inv (w : W) : Prop :=
  forall txt, pool_text w = Some txt -> exists s, unmarshal txt = Some s /\ pool_ok L K s.

Definition same_store (w w' : W) : Prop := forall ns n, stored w' ns n = stored w ns n.

Lemma same_store_text w w' : same_store w w' -> pool_text w' = pool_text w.
Proof. unfold pool_text. by intros ->. Qed.

Lemma same_store_inv w w' : same_store w w' -> pool_inv w -> pool_inv w'.
Proof. unfold pool_inv. intros Hs. by rewrite (same_store_text _ _ Hs). Qed.

Lemma same_store_current w w' s : same_store w w' -> current w s -> current w' s.
Proof. unfold current. intros Hs. by rewrite (same_store_text _ _ Hs). Qed.

Lemma same_store_trans w1 w2 w3 : same_store w1 w2 -> same_store w2 w3 -> same_store w1 w3.
Proof. unfold same_store. intros Ha Hb ns n. by rewrite Hb. Qed.

Lemma current_ok w s : pool_inv w -> current w s -> pool_ok L K s.
Proof.
  unfold pool_inv, current. intros Hinv. destruct (pool_text w) as [txt|].
  - intros Hs. destruct (Hinv txt eq_refl) as (s' & ? & ?). congruence.
  - intros [t ->]. by apply pool_ok_empty.
Qed.

Lemma getCurrentState_spec w r w' :
  getCurrentState cfg w = (r, w') ->
  same_store w w' /\ (forall s rv, r = Ok (s, rv) -> current w s).
Proof.
  unfold getCurrentState, initializeEmptyState, mbind, mret.
  destruct (cm_Get _ _ w) as [g w1] eqn:Eg. apply Get_law in Eg as (Hsame & Hok & Hnf).
  assert (forall t w2, Now w1 = (t, w2) -> same_store w w2) as Hnow.
  { intros t w2 Hn. eapply same_store_trans; [exact Hsame|]. exact (Now_law _ _ _ Hn). }
  destruct g as [c|e].
  - specialize (Hok c eq_refl).
    assert (pool_text w = cm_data c !! stateDataKey) as Etxt by (unfold pool_text; by rewrite Hok).
    unfold current. rewrite Etxt.
    destruct (cm_data c !! stateDataKey) as [txt|].
    + destruct (unmarshal txt); intros [= <- <-]; (split; [done|]); naive_solver.
    + destruct (Now w1) as [t w2] eqn:En. intros [= <- <-]. split; [by eapply Hnow|]. naive_solver.
  - destruct (IsNotFound e) eqn:Ee.
    + specialize (Hnf e eq_refl Ee).
      assert (pool_text w = None) as Etxt by (unfold pool_text; by rewrite Hnf).
      unfold current. rewrite Etxt.
      destruct (Now w1) as [t w2] eqn:En. intros [= <- <-]. split; [by eapply Hnow|]. naive_solver.
    + intros [= <- <-]. by split.
Qed.

Lemma update_attempt_spec txt w r w' :
  update_attempt cfg txt w = (r, w') ->
  (pool_text w' = pool_text w \/ pool_text w' = Some txt) /\
  (r = None -> pool_text w' = Some txt).
Proof.
  unfold update_attempt, mbind, mret.
  destruct (cm_Get _ _ w) as [g w1] eqn:Eg. apply Get_law in Eg as (Hsame & Hok & Hnf).
  pose proof (same_store_text _ _ Hsame) as Et.
  destruct g as [c|e].
  - pose proof (Hok c eq_refl) as Hst. destruct (stored_key _ _ _ _ Hst) as [En Ens].
    rewrite En, Ens. destruct (cm_Update _ w1) as [u w2] eqn:Eu.
    apply Update_law in Eu as [Hokr Heff]. simpl in Hokr, Heff. intros [= <- <-].
    match type of Hokr with _ -> ?A => assert (A -> pool_text w2 = Some txt) as Happ end.
    { intros (old & c' & _ & _ & Hc' & Hd). unfold pool_text. rewrite Hc'. simpl.
      by rewrite Hd, lookup_insert_eq. }
    split.
    + destruct Heff as [Heq|Happl]; [left|right; by apply Happ].
      rewrite <- Et. unfold pool_text. by rewrite Heq.
    + destruct u; [|done]. intros _. by apply Happ, Hokr.
  - destruct (IsNotFound e).
    2:{ intros [= <- <-]. by split; [left|]. }
    destruct (cm_Create _ w1) as [u w2] eqn:Eu.
    apply Create_law in Eu as [Hokr Heff]. simpl in Hokr, Heff. intros [= <- <-].
    match type of Hokr with _ -> ?A => assert (A -> pool_text w2 = Some txt) as Happ end.
    { intros (_ & c' & Hc' & Hd). unfold pool_text. rewrite Hc'. simpl.
      by rewrite Hd, lookup_singleton_eq. }
    split.
    + destruct Heff as [Heq|Happl]; [left|right; by apply Happ].
      rewrite <- Et. unfold pool_text. by rewrite Heq.
    + destruct u; [|done]. intros _. by apply Happ, Hokr.
Qed.

Lemma updateState_spec s w r w' :
  updateState cfg s w = (r, w') ->
  (pool_text w' = pool_text w \/ pool_text w' = Some (marshal s)) /\
  (r = None -> pool_text w' = Some (marshal s)).
Proof.
  unfold updateState, RetryOnConflict. intros E.
  destruct (OnError_law IsConflict (update_attempt cfg (marshal s)) w) as (w0 & Hr & E0).
  rewrite E0 in E. apply update_attempt_spec in E as [Heff Hok]. split; [|done].
  assert (pool_text w0 = pool_text w \/ pool_text w0 = Some (marshal s)) as Hw0.
  { clear -Hr H0. induction Hr as [|w w1 w0 (e & Hstep & _) _ IH]; [by left|].
    apply update_attempt_spec in Hstep as [Hs _]. destruct IH as [->|]; [done|by right]. }
  destruct Heff as [->|]; [done|by right].
Qed.

(** Storing a well-formed state keeps the invariant, even when the call fails. *)
Lemma updateState_inv s w r w' :
  pool_inv w -> pool_ok L K s -> updateState cfg s w = (r, w') ->
  pool_inv w' /\ (r = None -> current w' (truncate s)).
Proof.
  intros Hinv Hs E. apply updateState_spec in E as [Heff Hok].
  pose proof (unmarshal_marshal s (pool_ascii _ _ _ Hs)) as Hum. split.
  - intros txt. destruct Heff as [->| ->]; [apply Hinv|]. intros [= <-].
    exists (truncate s). split; [done|by apply pool_ok_truncate].
  - intros Hr. unfold current. by rewrite (Hok Hr).
Qed.

Lemma checkVMReadiness_store ip w r w' :
  checkVMReadiness ip w = (r, w') -> same_store w w'.
Proof.
  unfold checkVMReadiness. intros E.
  destruct (OnError_law (fun _ => true) (dial ip) w) as (w0 & Hr & E0). rewrite E0 in E.
  apply (same_store_trans _ w0); [|exact (dial_law _ _ _ _ E)].
  clear E E0. induction Hr as [|w w1 w0 (e & Hstep & _) _ IH]; [done|].
  eapply same_store_trans; [exact (dial_law _ _ _ _ Hstep)|done].
Qed.

Lemma ready_store (ip : string) w r w' :
  verify_ready cfg ip w = (r, w') -> same_store w w'.
Proof.
  unfold verify_ready. destruct (SkipVMReadiness cfg); [by intros [= <- <-]|apply checkVMReadiness_store].
Qed.

(** The names recorded in an allocation are ASCII. *)
Definition ascii_request (id pod : string) : Prop :=
  ascii_string id /\ ascii_string pod /\
  (forall node, getCurrentNodeName = Ok node -> ascii_string node).

Lemma allocate_with_spec s id pod w r w' :
  pool_inv w -> current w s -> ascii_request id pod ->
  allocate_with cfg s id pod w = (r, w') ->
  pool_inv w' /\ r <> Panic /\
  (forall ip, r = Return (Ok ip) ->
     exists s' str, current w' s' /\ ParseAddr str = Some ip /\
       pool_step (Alloc id str) (abs_pool s) (abs_pool s')).
Proof.
  intros Hinv Hcur (Hai & Hap & Han). pose proof (current_ok _ _ Hinv Hcur) as Hok.
  unfold allocate_with, mbind, mret. destruct (allocs s !! id) as [a|] eqn:Ea.
  { intros [= <- <-]. split; [done|]. split; [done|]. intros ip Hr.
    destruct (ParseAddr (IP a)) eqn:Ep; [|done]. simplify_eq. exists s, (IP a).
    repeat split; [done..|]. apply step_realloc. by apply used_lookup. }
  destruct (length (AvailableIPs s) =? 0)%nat eqn:El; bool_to_prop.
  { intros [= <- <-]. by repeat split. }
  pose proof (selectIPIndex_bound (AvailableIPs s) id ltac:(lia)) as Hidx.
  apply lookup_lt_is_Some_2 in Hidx as [ip0 Hip0]. rewrite Hip0.
  destruct (verify_ready cfg ip0 w) as [ready w1] eqn:Er. apply ready_store in Er.
  destruct ready as [e|]; [intros [= <- <-]; repeat split; [by eapply same_store_inv|done..]|].
  destruct getCurrentNodeName as [node|e];
    [|intros [= <- <-]; repeat split; [by eapply same_store_inv|done..]].
  destruct (AllocatedIPs s) as [m|] eqn:Em; [|by destruct (pool_map _ _ _ Hok)].
  destruct (Now w1) as [t1 w2] eqn:En1. destruct (Now w2) as [t2 w3] eqn:En2.
  assert (same_store w w3) as Hw3.
  { eapply same_store_trans; [exact Er|]. eapply same_store_trans; [exact (Now_law _ _ _ En1)|].
    exact (Now_law _ _ _ En2). }
  destruct (pool_ok_allocate _ _ s m id ip0 _ node pod t1 t2 (wrap64 (Version s + 1)) Hok Em Ea Hip0
    Hai (Han _ eq_refl) Hap) as [Hok' _].
  destruct (updateState _ _ w3) as [u w4] eqn:Eu.
  apply (updateState_inv _ _ _ _ (same_store_inv _ _ Hw3 Hinv) Hok') in Eu as [Hinv4 Hcur4].
  intros [= <- <-]. split; [done|]. split; [done|]. intros ip Hr.
  destruct u; [done|]. destruct (ParseAddr ip0) eqn:Ep; [|done]. simplify_eq.
  eexists _, ip0. split; [by apply Hcur4|]. split; [done|].
  rewrite abs_truncate. unfold abs_pool, allocs. rewrite Em. simpl. rewrite fmap_insert.
  apply step_alloc; [|by apply remove_at_perm].
  unfold allocs in Ea. rewrite Em in Ea. simpl in Ea. by rewrite lookup_fmap, Ea.
Qed.

Lemma doDeallocateIP_spec id w r w' :
  pool_inv w -> doDeallocateIP cfg id w = (r, w') ->
  pool_inv w' /\
  (r = Ok tt -> exists s0 s', current w s0 /\ current w' s' /\
     pool_step (Release id) (abs_pool s0) (abs_pool s')).
Proof.
  intros Hinv. unfold doDeallocateIP, mbind, mret.
  destruct (getCurrentState cfg w) as [g w1] eqn:Eg.
  apply getCurrentState_spec in Eg as [Hsame Hg].
  destruct g as [[s0 rv]|e]; [|intros [= <- <-]; split; [by eapply same_store_inv|done]].
  specialize (Hg _ _ eq_refl). pose proof (current_ok _ _ Hinv Hg) as Hok.
  destruct (allocs s0 !! id) as [a|] eqn:Ea.
  2:{ intros [= <- <-]. split; [by eapply same_store_inv|]. intros _. exists s0, s0.
      split; [done|]. split; [by eapply same_store_current|].
      apply step_release_unknown. by rewrite lookup_fmap, Ea. }
  destruct (Now w1) as [t w2] eqn:En.
  assert (same_store w w2) as Hw2 by (eapply same_store_trans; [exact Hsame|exact (Now_law _ _ _ En)]).
  destruct (pool_ok_release _ _ s0 id a t (wrap64 (Version s0 + 1)) Hok Ea) as [Hok' _].
  destruct (updateState _ _ w2) as [u w3] eqn:Eu.
  apply (updateState_inv _ _ _ _ (same_store_inv _ _ Hw2 Hinv) Hok') in Eu as [Hinv3 Hcur3].
  intros [= <- <-]. split; [done|]. destruct u; [done|]. intros _.
  eexists s0, _. split; [done|]. split; [by apply Hcur3|]. rewrite abs_truncate.
  unfold abs_pool. simpl.
  replace (IP <$> allocs (mkState _ _ _ _)) with (delete id (IP <$> allocs s0)).
  2:{ unfold allocs. simpl. destruct (AllocatedIPs s0); simpl; [by rewrite fmap_delete|].
      by rewrite fmap_empty, delete_empty. }
  apply (step_release _ _ _ (IP a)); [by apply used_lookup|]. by rewrite Permutation_app_comm.
Qed.

(** The abstract pool seen in [w]; [None] when the stored text does not parse. *)
Definition pool_of (w : W) : option pool :=
  match pool_text w with
  | Some txt => abs_pool <$> unmarshal txt
  | None => Some (PoolIPs cfg, ∅)
  end.

Lemma current_pool_of w s : current w s -> pool_of w = Some (abs_pool s).
Proof.
  unfold current, pool_of. destruct (pool_text w); [by intros ->|]. intros [t ->].
  unfold abs_pool, allocs. simpl. by rewrite fmap_empty.
Qed.

Lemma same_store_pool_of w w' : same_store w w' -> pool_of w' = pool_of w.
Proof. unfold pool_of. intros Hs. by rewrite (same_store_text _ _ Hs). Qed.

Lemma pool_inv_exclusive w free used :
  pool_inv w -> pool_of w = Some (free, used) ->
  NoDup free /\
  (forall id ip, used !! id = Some ip -> ip ∉ free) /\
  (forall id1 id2 ip, used !! id1 = Some ip -> used !! id2 = Some ip -> id1 = id2).
Proof.
  intros Hinv Hp.
  assert (exists s, pool_ok L K s /\ (free, used) = abs_pool s) as (s & Hok & [= -> ->]).
  { unfold pool_of in Hp. destruct (pool_text w) as [txt|] eqn:Et.
    - destruct (Hinv _ Et) as (s & Hs & Hok). rewrite Hs in Hp. simplify_eq/=. eauto.
    - simplify_eq. exists (mkState (Some ∅) (PoolIPs cfg) 0 1). split; [by apply pool_ok_empty|].
      unfold abs_pool, allocs. simpl. by rewrite fmap_empty. }
  pose proof (pool_nodup _ _ _ Hok) as Hnd. apply NoDup_app in Hnd as (Hf & Hdisj & _).
  split; [done|]. split.
  - intros id ip Hid Hin. apply (Hdisj ip Hin), elem_of_alloc_ips.
    apply lookup_fmap_Some in Hid as (a & <- & Ha). eauto.
  - intros id1 id2 ip Hid1 Hid2.
    apply lookup_fmap_Some in Hid1 as (a1 & <- & Ha1). apply lookup_fmap_Some in Hid2 as (a2 & E & Ha2).
    by eapply pool_ok_unique.
Qed.

Lemma doAllocateIP_spec id pod w r w' :
  pool_inv w -> ascii_request id pod -> doAllocateIP cfg id pod w = (r, w') ->
  pool_inv w' /\ r <> Panic /\
  (forall ip, r = Return (Ok ip) ->
     exists p p' str, pool_of w = Some p /\ pool_of w' = Some p' /\
       ParseAddr str = Some ip /\ pool_step (Alloc id str) p p').
Proof.
  intros Hinv Hreq. unfold doAllocateIP, mbind.
  destruct (getCurrentState cfg w) as [g w1] eqn:Eg.
  apply getCurrentState_spec in Eg as [Hsame Hg].
  destruct g as [[s rv]|e].
  2:{ intros [= <- <-]. repeat split; [by eapply same_store_inv|done..]. }
  specialize (Hg _ _ eq_refl). intros E.
  apply allocate_with_spec in E as (? & ? & Hip); [|by eapply same_store_inv|by eapply same_store_current|done].
  repeat split; [done..|]. intros ip Hr. destruct (Hip ip Hr) as (s' & str & Hcur & ? & ?).
  exists (abs_pool s), (abs_pool s'), str.
  rewrite (current_pool_of _ _ Hg), (current_pool_of _ _ Hcur). done.
Qed.

Lemma repair_spec w r w' :
  pool_inv w -> repairStateFromPrimaryConfig cfg w = (r, w') ->
  pool_inv w' /\
  (r = None -> exists free free' used, pool_of w = Some (free, used) /\ pool_of w' = Some (free', used) /\
     forall ip, ip ∈ free' <-> ip ∈ PoolIPs cfg /\ (forall id, used !! id <> Some ip)).
Proof.
  intros Hinv. unfold repairStateFromPrimaryConfig, mbind, mret.
  destruct (getCurrentState cfg w) as [g w1] eqn:Eg.
  apply getCurrentState_spec in Eg as [Hsame Hg].
  destruct g as [[s rv]|e]; [|intros [= <- <-]; split; [by eapply same_store_inv|done]].
  specialize (Hg _ _ eq_refl). pose proof (current_ok _ _ Hinv Hg) as Hok.
  destruct (Now w1) as [t w2] eqn:En.
  assert (same_store w w2) as Hw2 by (eapply same_store_trans; [exact Hsame|exact (Now_law _ _ _ En)]).
  pose proof (pool_ok_repair L K (PoolIPs cfg) s t (wrap64 (Version s + 1)) cfg_ok cfg_needed cfg_known Hok) as Hok'.
  destruct (updateState _ _ w2) as [u w3] eqn:Eu.
  apply (updateState_inv _ _ _ _ (same_store_inv _ _ Hw2 Hinv) Hok') in Eu as [Hinv3 Hcur3].
  intros [= <- <-]. split; [done|]. destruct u; [done|]. intros _.
  rewrite (current_pool_of _ _ Hg), (current_pool_of _ _ (Hcur3 eq_refl)), abs_truncate.
  eexists _, _, _. split; [reflexivity|]. split; [reflexivity|].
  intros ip. simpl. rewrite keep_unallocated_filter, list_elem_of_filter.
  rewrite <- not_true_iff_false, allocatedIPSet_spec. split.
  - intros [Hn Hin]. split; [done|]. intros id Hid. apply Hn.
    apply lookup_fmap_Some in Hid as (a & <- & Ha). eauto.
  - intros [Hin Hn]. split; [|done]. intros (id & a & Ha & <-). apply (Hn id).
    by rewrite lookup_fmap, Ha.
Qed.

Lemma RecoverState_spec w r w' :
  pool_inv w -> RecoverState cfg w = (r, w') -> pool_inv w'.
Proof.
  intros Hinv. unfold RecoverState, initializeAndSaveEmptyState, initializeEmptyState, mbind, mret.
  destruct getCurrentNodeName; [|by intros [= <- <-]].
  destruct (getCurrentState cfg w) as [g w1] eqn:Eg.
  apply getCurrentState_spec in Eg as [Hsame _]. apply (same_store_inv _ _ Hsame) in Hinv.
  destruct g as [[s rv]|e].
  - destruct (repairStateFromPrimaryConfig cfg w1) as [u w2] eqn:Er.
    apply repair_spec in Er as [? _]; [|done]. by intros [= <- <-].
  - destruct (Now w1) as [t w2] eqn:En.
    destruct (updateState _ _ w2) as [u w3] eqn:Eu.
    apply updateState_inv in Eu as [? _]; [by intros [= <- <-]| |by apply pool_ok_empty].
    by eapply same_store_inv; [exact (Now_law _ _ _ En)|].
Qed.

(** ** Every run

    The operations a node may call, in any order and any number of times; an
    operation that returns an error is a step too. *)
Inductive manager_step : W -> W -> Prop :=
| step_AllocateIP id pod w r w' :
    ascii_request id pod -> AllocateIP cfg id pod w = (r, w') -> manager_step w w'
| step_DeallocateIP id w r w' : DeallocateIP cfg id w = (r, w') -> manager_step w w'
| step_RecoverState w r w' : RecoverState cfg w = (r, w') -> manager_step w w'
| step_GetIP id w r w' : GetIPfromAllocationID cfg id w = (r, w') -> manager_step w w'
| step_GetID ip w r w' : GetAllocationIDfromIP cfg ip w = (r, w') -> manager_step w w'
| step_GetPoolStatus w r w' : GetPoolStatus cfg w = (r, w') -> manager_step w w'
| step_ListAllocatedIPs w r w' : ListAllocatedIPs cfg w = (r, w') -> manager_step w w'.

Lemma query_store {A} (f : result (IPAllocationState * string) -> A) w r w' :
  mbind (getCurrentState cfg) (fun x => mret (f x)) w = (r, w') -> same_store w w'.
Proof.
  unfold mbind, mret. destruct (getCurrentState cfg w) as [g w1] eqn:Eg.
  apply getCurrentState_spec in Eg as [Hsame _]. by intros [= <- <-].
Qed.

Lemma manager_step_inv w w' : pool_inv w -> manager_step w w' -> pool_inv w'.
Proof.
  intros Hinv Hs. destruct Hs as [id pod w r w' Hreq E|id w r w' E|w r w' E|id w r w' E|ip w r w' E|w r w' E|w r w' E].
  - by apply doAllocateIP_spec in E as [? _].
  - by apply doDeallocateIP_spec in E as [? _].
  - by eapply RecoverState_spec.
  - eapply same_store_inv; [exact (query_store _ _ _ _ E)|done].
  - eapply same_store_inv; [exact (query_store _ _ _ _ E)|done].
  - eapply same_store_inv; [exact (query_store _ _ _ _ E)|done].
  - eapply same_store_inv; [exact (query_store _ _ _ _ E)|done].
Qed.

End Store.
