(* ===== verification/ByomServer.v ===== *)
(** * An executable environment for the BYOM pool manager

    A concrete API server, codec, hash and retry loop that satisfy the laws of
    ByomPoolSpec: the theorems about the manager apply to it, and runs of the
    manager evaluate on it.  The server can be told to fail its next calls. *)

From Stdlib Require Import ZArith Ascii String Lia.
From stdpp Require Import base gmap strings list fin_maps countable.
From S2P Require Import Prelude NetAddr ByomPool ByomPoolSpec.

Open Scope Z_scope.

(** ** Codec: any injective text form of the state will do *)

#[export] Instance IPAllocation_eq_dec : EqDecision IPAllocation.
Proof. solve_decision. Defined.

#[export, program] Instance IPAllocation_countable : Countable IPAllocation :=
  inj_countable' (fun a => (AllocationID a, IP a, NodeName a, PodName a, AllocatedAt a))
                 (fun '(i, ip, n, p, t) => mkAllocation i ip n p t) _.
Next Obligation. by intros []. Qed.

#[export] Instance IPAllocationState_eq_dec : EqDecision IPAllocationState.
Proof. solve_decision. Defined.

#[export, program] Instance IPAllocationState_countable : Countable IPAllocationState :=
  inj_countable' (fun s => (AllocatedIPs s, AvailableIPs s, LastUpdated s, Version s))
                 (fun '(a, v, t, n) => mkState a v t n) _.
Next Obligation. by intros []. Qed.

#[export, program] Instance bits_codec : StateCodec := {
  marshal := fun s => to_text (truncate s);
  unmarshal := of_text
}.
Next Obligation. intros s _. apply of_to_text. Qed.

#[export, program] Instance zero_md5 : HashMD5 := { md5_Sum := fun _ => replicate 16 0 }.
Next Obligation. intros s. split; [done|]. apply Forall_replicate. lia. Qed.

(** ** Server *)

Record server := mkServer {
  objects : gmap (string * string) ConfigMap;
  revision : Z;
  clock : Z;
  failures : list bool;  (** whether each of the next calls fails *)
  files : gmap (string * string) string  (** what the VMs received, by address and path *)
}.

Definition next_call {A} (call : M server (result A)) : M server (result A) := fun w =>
  match failures w with
  | true :: rest => (Err (APIStatus OtherReason), mkServer (objects w) (revision w) (clock w) rest (files w))
  | false :: rest => call (mkServer (objects w) (revision w) (clock w) rest (files w))
  | [] => call w
  end.

Definition put (c : ConfigMap) (w : server) : ConfigMap * server :=
  let c' := mkConfigMap (cm_name c) (cm_namespace c) (cm_labels c) (cm_data c)
              (FormatInt (revision w)) in
  (c', mkServer (<[(cm_namespace c, cm_name c) := c']> (objects w)) (revision w + 1)
                (clock w) (failures w) (files w)).

Definition server_Get (ns n : string) : M server (result ConfigMap) := next_call (fun w =>
  match objects w !! (ns, n) with
  | Some c => (Ok (mkConfigMap n ns (cm_labels c) (cm_data c) (ResourceVersion c)), w)
  | None => (Err (APIStatus NotFound), w)
  end).

Definition server_Create (c : ConfigMap) : M server (result ConfigMap) := next_call (fun w =>
  match objects w !! (cm_namespace c, cm_name c) with
  | Some _ => (Err (APIStatus AlreadyExists), w)
  | None => let '(c', w') := put c w in (Ok c', w')
  end).

Definition server_Update (c : ConfigMap) : M server (result ConfigMap) := next_call (fun w =>
  match objects w !! (cm_namespace c, cm_name c) with
  | None => (Err (APIStatus NotFound), w)
  | Some old =>
      if String.eqb (ResourceVersion old) (ResourceVersion c) then
        let '(c', w') := put c w in (Ok c', w')
      else (Err (APIStatus Conflict), w)
  end).

(** [retry.DefaultBackoff] has four steps. *)
Fixpoint retry_steps {W} (n : nat) (retriable : GoError -> bool) (fn : M W (option GoError))
    : M W (option GoError) := fun w =>
  match n with
  | O => fn w
  | S n' =>
      match fn w with
      | (Some e, w') => if retriable e then retry_steps n' retriable fn w' else (Some e, w')
      | (None, w') => (None, w')
      end
  end.

Definition tick : M server Z := fun w =>
  (clock w, mkServer (objects w) (revision w) (clock w + 1) (failures w) (files w)).

(** The environment of the manager that runs on [node]. *)
#[export] Instance server_env (node : string) : PoolEnv server := {
  cm_Get := server_Get;
  cm_Create := server_Create;
  cm_Update := server_Update;
  OnError := retry_steps 3;
  dial := fun _ w => (None, w);
  Now := tick;
  getenv := fun v => if String.eqb v nodeNameEnvVar then node else EmptyString;
  ReadFile := fun _ => None
}.

Definition server_stored (w : server) (ns n : string) : option ConfigMap :=
  (fun c => mkConfigMap n ns (cm_labels c) (cm_data c) (ResourceVersion c)) <$> objects w !! (ns, n).

Lemma retry_steps_law {W} n retriable (fn : M W (option GoError)) w : exists w0,
  rtc (fun w1 w2 => exists e, fn w1 = (Some e, w2) /\ retriable e = true) w w0 /\
  retry_steps n retriable fn w = fn w0.
Proof.
  revert w. induction n as [|n IH]; intros w; simpl; [by exists w|].
  destruct (fn w) as [[e|] w'] eqn:E; [|by exists w]. destruct (retriable e) eqn:Er; [|by exists w].
  destruct (IH w') as (w0 & Hr & ->). exists w0. split; [|done]. eapply rtc_l; eauto.
Qed.

Lemma put_stored c w :
  server_stored (put c w).2 (cm_namespace c) (cm_name c)
  = Some (mkConfigMap (cm_name c) (cm_namespace c) (cm_labels c) (cm_data c) (FormatInt (revision w))).
Proof. unfold server_stored, put. simpl. by rewrite lookup_insert_eq. Qed.

Lemma next_call_cases {A} (call : M server (result A)) w r w' :
  next_call call w = (r, w') ->
  (r = Err (APIStatus OtherReason) /\ objects w' = objects w) \/
  (exists w1, objects w1 = objects w /\ call w1 = (r, w')).
Proof.
  unfold next_call. destruct (failures w) as [|[] rest]; intros E.
  - right. by exists w.
  - left. by simplify_eq.
  - right. by eexists; split; [|exact E].
Qed.

Lemma server_stored_objects w w' ns n :
  objects w' = objects w -> server_stored w' ns n = server_stored w ns n.
Proof. unfold server_stored. by intros ->. Qed.

#[export, program] Instance server_laws (node : string) : @PoolEnvLaws server (server_env node) := {
  stored := server_stored
}.
Next Obligation.
  intros node ns n w r w' E. simpl in E. apply next_call_cases in E as [[-> Ho]|(w1 & Ho & E)].
  - split; [|by split; intros; simplify_eq]. intros. by apply server_stored_objects.
  - cbv beta in E. rewrite Ho in E. unfold server_stored.
    destruct (objects w !! (ns, n)) eqn:El; simplify_eq/=; rewrite Ho; repeat split; intros; by simplify_eq.
Qed.
Next Obligation.
  intros node c w r w' E applied. simpl in E.
  apply next_call_cases in E as [[-> Ho]|(w1 & Ho & E)].
  { split; [done|]. left. by apply server_stored_objects. }
  cbv beta in E. rewrite Ho in E.
  destruct (objects w !! _) eqn:El; [simplify_eq/=; split; [done|left; by apply server_stored_objects]|].
  pose proof (put_stored c w1) as Hput. destruct (put c w1) as [c' w2]. simplify_eq/=.
  assert applied.
  { subst applied. simpl. split; [unfold server_stored; by rewrite El|]. eauto. }
  split; [done|by right].
Qed.
Next Obligation.
  intros node c w r w' E applied. simpl in E.
  apply next_call_cases in E as [[-> Ho]|(w1 & Ho & E)].
  { split; [done|]. left. by apply server_stored_objects. }
  cbv beta in E. rewrite Ho in E.
  destruct (objects w !! _) as [old|] eqn:El;
    [|simplify_eq/=; split; [done|left; by apply server_stored_objects]].
  destruct (String.eqb _ _) eqn:Ev; bool_to_prop;
    [|simplify_eq/=; split; [done|left; by apply server_stored_objects]].
  pose proof (put_stored c w1) as Hput. destruct (put c w1) as [c' w2]. simplify_eq/=.
  assert applied.
  { subst applied. simpl. unfold server_stored in *. rewrite El. simpl. eauto 10. }
  split; [done|by right].
Qed.
Next Obligation. intros node w ns n c E. unfold server_stored in E. by destruct (objects w !! _); simplify_eq/=. Qed.
Next Obligation. intros. apply retry_steps_law. Qed.
Next Obligation. intros. simpl in *. by simplify_eq. Qed.
Next Obligation. intros node w t w' E ns n. simpl in E. unfold tick in E. by simplify_eq. Qed.
