(* ===== verification/ByomProps.v ===== *)
(** * Properties of the BYOM pool

    The claims about the pool manager of ByomPool, with witnesses that run on
    the server of ByomServer. *)

From Stdlib Require Import ZArith Ascii String Lia.
From stdpp Require Import base gmap strings list fin_maps.
From S2P Require Import Prelude NetAddr ByomPool ByomPoolSpec ByomServer.

Open Scope Z_scope.

(** ** A healthy environment

    From a [calm] world no call fails on its own: reads return what is stored
    and writes whose precondition holds are accepted. *)
Record healthy {W : Type} `{PoolEnvLaws W} (calm : W -> Prop) : Prop := {
  healthy_Get : forall ns n w r w', calm w -> cm_Get ns n w = (r, w') ->
    calm w' /\
    match stored w ns n with
    | Some c => r = Ok c
    | None => exists e, r = Err e /\ IsNotFound e = true
    end;
  healthy_Create : forall c w r w', calm w -> cm_Create c w = (r, w') ->
    calm w' /\ (stored w (cm_namespace c) (cm_name c) = None -> is_ok r = true);
  healthy_Update : forall c w r w', calm w -> cm_Update c w = (r, w') ->
    calm w' /\
    (forall old, stored w (cm_namespace c) (cm_name c) = Some old ->
       ResourceVersion old = ResourceVersion c -> is_ok r = true);
  healthy_dial : forall ip w r w', calm w -> dial ip w = (r, w') -> calm w' /\ r = None;
  healthy_Now : forall w t w', calm w -> Now w = (t, w') -> calm w'
}.

Section Liveness.

Context {W : Type} `{PoolEnvLaws W} `{StateCodec} `{HashMD5} `{NetIP} `{GoMapOrder}.
Context (cfg : GlobalVMPoolConfig) (L K : list string).
Hypothesis cfg_ok : config_ok (PoolIPs cfg).
Hypothesis cfg_needed : L ⊆ PoolIPs cfg.
Hypothesis cfg_known : PoolIPs cfg ⊆ K.
Context (calm : W -> Prop) (Hcalm : healthy calm).

Lemma getCurrentState_calm w r w' :
  calm w -> pool_inv cfg L K w -> getCurrentState cfg w = (r, w') ->
  calm w' /\ exists s rv, r = Ok (s, rv).
Proof.
  intros Hw Hinv. unfold getCurrentState, initializeEmptyState, mbind, mret.
  destruct (cm_Get _ _ w) as [g w1] eqn:Eg. apply (healthy_Get _ Hcalm) in Eg as [Hw1 Hg]; [|done].
  destruct (stored w _ _) as [c|] eqn:Est.
  - subst g. destruct (cm_data c !! stateDataKey) as [txt|] eqn:Ed.
    + destruct (Hinv txt) as (s & -> & _); [unfold pool_text; by rewrite Est|].
      intros [= <- <-]. eauto.
    + destruct (Now w1) as [t w2] eqn:En. apply (healthy_Now _ Hcalm) in En; [|done].
      intros [= <- <-]. eauto.
  - destruct Hg as (e & -> & ->).
    destruct (Now w1) as [t w2] eqn:En. apply (healthy_Now _ Hcalm) in En; [|done].
    intros [= <- <-]. eauto.
Qed.

Lemma update_attempt_calm txt w r w' :
  calm w -> update_attempt cfg txt w = (r, w') -> calm w' /\ r = None.
Proof.
  intros Hw. unfold update_attempt, mbind, mret.
  destruct (cm_Get _ _ w) as [g w1] eqn:Eg. pose proof (Get_law _ _ _ _ _ Eg) as (Hsame & _ & _).
  apply (healthy_Get _ Hcalm) in Eg as [Hw1 Hg]; [|done].
  destruct (stored w _ _) as [c|] eqn:Est.
  - subst g. destruct (stored_key _ _ _ _ Est) as [En Ens].
    destruct (cm_Update _ w1) as [u w2] eqn:Eu.
    apply (healthy_Update _ Hcalm) in Eu as [Hw2 Hu]; [|done]. simpl in Hu.
    rewrite En, Ens, Hsame, Est in Hu. specialize (Hu _ eq_refl eq_refl).
    intros [= <- <-]. by destruct u.
  - destruct Hg as (e & -> & ->). destruct (cm_Create _ w1) as [u w2] eqn:Eu.
    apply (healthy_Create _ Hcalm) in Eu as [Hw2 Hu]; [|done]. simpl in Hu.
    rewrite Hsame, Est in Hu. specialize (Hu eq_refl).
    intros [= <- <-]. by destruct u.
Qed.

(** A retry loop around an operation that succeeds runs it once. *)
Lemma OnError_calm retriable (fn : M W (option GoError)) w :
  (fn w).1 = None -> OnError retriable fn w = fn w.
Proof.
  intros Hok. destruct (OnError_law retriable fn w) as (w0 & Hr & E). rewrite E.
  destruct Hr as [|w w1 w0 (e & He & _) _]; [done|]. by rewrite He in Hok.
Qed.

Lemma updateState_calm s w r w' :
  calm w -> updateState cfg s w = (r, w') -> calm w' /\ r = None.
Proof.
  intros Hw E. unfold updateState, RetryOnConflict in E. rewrite OnError_calm in E.
  - by eapply update_attempt_calm.
  - destruct (update_attempt _ _ w) eqn:Ea. by apply update_attempt_calm in Ea as [_ ->].
Qed.

Lemma verify_ready_calm ip w r w' :
  calm w -> verify_ready cfg ip w = (r, w') -> calm w' /\ r = None.
Proof.
  intros Hw. unfold verify_ready, checkVMReadiness. destruct (SkipVMReadiness cfg); [by intros [= <- <-]|].
  intros E. rewrite OnError_calm in E; [by apply (healthy_dial _ Hcalm) in E|].
  destruct (dial ip w) eqn:Ed. by apply (healthy_dial _ Hcalm) in Ed as [_ ->].
Qed.

Lemma allocate_with_calm s id pod node w :
  calm w -> pool_ok L K s -> getCurrentNodeName = Ok node ->
  (forall ip, ip ∈ K -> is_Some (ParseAddr ip)) ->
  (is_Some (allocs s !! id) \/ AvailableIPs s <> []) ->
  exists ip w', allocate_with cfg s id pod w = (Return (Ok ip), w') /\ calm w'.
Proof.
  intros Hw Hok Hnode Hparse Hfree. unfold allocate_with, mbind, mret.
  destruct (allocs s !! id) as [a|] eqn:Ea.
  { destruct (Hparse (IP a)) as [ip ->]; [|by eauto].
    apply (pool_known _ _ _ Hok), elem_of_app. right. apply elem_of_alloc_ips. eauto. }
  destruct Hfree as [[? ?]|Hfree]; [done|].
  assert (0 < length (AvailableIPs s))%nat as Hlen by (destruct (AvailableIPs s); simpl; [done|lia]).
  destruct (length (AvailableIPs s) =? 0)%nat eqn:El; bool_to_prop; [lia|].
  destruct (lookup_lt_is_Some_2 _ _ (selectIPIndex_bound (AvailableIPs s) id Hlen)) as [ip0 Hip0].
  rewrite Hip0. destruct (verify_ready cfg ip0 w) as [rd w1] eqn:Er.
  apply verify_ready_calm in Er as [Hw1 ->]; [|done]. rewrite Hnode.
  destruct (AllocatedIPs s) as [m|] eqn:Em; [|by destruct (pool_map _ _ _ Hok)].
  destruct (Now w1) as [t1 w2] eqn:En1. apply (healthy_Now _ Hcalm) in En1; [|done].
  destruct (Now w2) as [t2 w3] eqn:En2. apply (healthy_Now _ Hcalm) in En2; [|done].
  destruct (updateState _ _ w3) as [u w4] eqn:Eu. apply updateState_calm in Eu as [Hw4 ->]; [|done].
  destruct (Hparse ip0) as [ip ->]; [|by eauto].
  apply (pool_known _ _ _ Hok), elem_of_app. left. by eapply list_elem_of_lookup_2.
Qed.

End Liveness.


(** ** Worlds of the witnesses *)

Definition cfg1 : GlobalVMPoolConfig := mkConfig "ns" "pool" ["10.0.0.1"; "10.0.0.2"] true.
Definition cfg_single : GlobalVMPoolConfig := mkConfig "ns" "pool" ["10.0.0.1"] true.
Definition empty_server : server := mkServer ∅ 1 0 [] ∅.

(** 10.0.0.1 *)
Definition ip1 : @Addr ipv4_netip := mk_ipv4 167772161 I.

Definition env1 : PoolEnv server := server_env "n1".
Definition env2 : PoolEnv server := server_env "n2".

(** The server after one allocation on node n1. *)
Definition one_allocated : server :=
  (@AllocateIP server env1 _ _ _ cfg1 "a" "pod" empty_server).2.

Lemma run_result {A W} (run : A * W) a : run.1 = a -> run = (a, run.2).
Proof. destruct run. by intros <-. Qed.

(** Evaluates what a run returns, leaving the world it ends in. *)
Ltac run_server :=
  match goal with |- ?run = (?a, _) => refine (run_result run a _); vm_compute; reflexivity end.

Definition no_failures (w : server) : Prop := failures w = [].

Lemma server_healthy node : @healthy server _ (server_laws node) no_failures.
Proof.
  split; unfold no_failures; simpl.
  - intros ns n w r w' Hf. unfold server_Get, next_call, server_stored. rewrite Hf.
    destruct (objects w !! (ns, n)); intros; simplify_eq/=; [done|]. split; [done|]. by eexists.
  - intros c w r w' Hf. unfold server_Create, next_call, server_stored, put. rewrite Hf.
    destruct (objects w !! _); intros; by simplify_eq/=.
  - intros c w r w' Hf. unfold server_Update, next_call, server_stored, put. rewrite Hf.
    destruct (objects w !! _) as [old|]; [|intros; by simplify_eq/=].
    destruct (String.eqb _ _) eqn:Ev; bool_to_prop; intros; simplify_eq/=;
      (split; [done|]); intros; by simplify_eq/=.
  - intros ip w r w' Hf E. by simplify_eq.
  - unfold tick. intros w t w' Hf E. by simplify_eq/=.
Qed.

Lemma cfg1_ok : config_ok (PoolIPs cfg1).
Proof. split; [by apply (bool_decide_unpack _)|]. each_element; by vm_compute; each_element. Qed.

Lemma request1_ok : @ascii_request server env1 "a" "pod".
Proof.
  split; [vm_compute; by each_element|]. split; [vm_compute; by each_element|].
  intros node. vm_compute. intros [= <-]. by each_element.
Qed.

(** ** Claims *)

Section Claims.

Context {W : Type} `{PoolEnvLaws W} `{StateCodec} `{HashMD5} `{NetIP} `{GoMapOrder}.
Context (cfg : GlobalVMPoolConfig).
Hypothesis cfg_ok : config_ok (PoolIPs cfg).

Lemma run_inv L K w0 w :
  L ⊆ PoolIPs cfg -> PoolIPs cfg ⊆ K -> pool_inv cfg L K w0 -> rtc (manager_step cfg) w0 w ->
  pool_inv cfg L K w.
Proof.
  intros HL HK Hw Hr. induction Hr as [|w0 w1 w Hs _ IH]; [done|]. by eapply IH, manager_step_inv.
Qed.

Lemma pool_inv_of L K w :
  L ⊆ PoolIPs cfg -> PoolIPs cfg ⊆ K -> pool_inv cfg L K w ->
  exists s, pool_ok L K s /\ pool_of cfg w = Some (abs_pool s).
Proof.
  intros HL HK Hinv. unfold pool_of. destruct (pool_text cfg w) as [txt|] eqn:Et.
  - destruct (Hinv _ Et) as (s & -> & Hs). by exists s.
  - exists (mkState (Some ∅) (PoolIPs cfg) 0 1). split; [by apply pool_ok_empty|].
    unfold abs_pool, allocs. simpl. by rewrite fmap_empty.
Qed.

Lemma used_alloc_ips s id ip : (abs_pool s).2 !! id = Some ip -> ip ∈ alloc_ips s.
Proof.
  simpl. rewrite lookup_fmap_Some. intros (a & <- & Ha). apply elem_of_alloc_ips. eauto.
Qed.

(** C1: In every run of the pool manager that starts without a stored state,
    whatever operations are called in whatever order and whichever of their API
    calls fail, the pool stays readable and partitions the configured
    addresses: no address is offered twice, none is both offered and handed
    out, none is handed out to two allocation ids, and none is lost. *)
Theorem pool_exclusive_in_every_run w0 w :
  pool_text cfg w0 = None -> rtc (manager_step cfg) w0 w ->
  exists free used, pool_of cfg w = Some (free, used) /\
    NoDup free /\
    (forall id ip, used !! id = Some ip -> ip ∉ free) /\
    (forall id1 id2 ip, used !! id1 = Some ip -> used !! id2 = Some ip -> id1 = id2) /\
    (forall ip, ip ∈ PoolIPs cfg <-> ip ∈ free \/ exists id, used !! id = Some ip).
Proof.
  intros Hw0 Hr.
  assert (pool_inv cfg (PoolIPs cfg) (PoolIPs cfg) w0) as Hinv by (intros txt; by rewrite Hw0).
  eapply run_inv in Hinv; [|done..|exact Hr].
  destruct (pool_inv_of _ _ _ ltac:(done) ltac:(done) Hinv) as (s & Hs & Hp).
  eexists _, _. split; [exact Hp|].
  destruct (pool_inv_exclusive cfg _ _ cfg_ok ltac:(done) ltac:(done) _ _ _ Hinv Hp) as (Hn & Hd & Hi).
  repeat split; [done..| |].
  - intros Hip. apply (pool_complete _ _ _ Hs) in Hip. apply elem_of_app in Hip as [|Hip]; [by left|right].
    apply elem_of_alloc_ips in Hip as (id & a & Ha & <-). exists id. by apply used_lookup.
  - intros Hip. apply (pool_known _ _ _ Hs), elem_of_app.
    destruct Hip as [|[id Hip]]; [by left|right]. by eapply used_alloc_ips.
Qed.

(** C5: AllocateIP refines the abstract pool: from a well-formed pool it never
    panics, leaves the pool well-formed also when it fails, and an address it
    returns is the one the abstract allocation step hands to the id - a fresh
    offered address, or the one the id already has. *)
Theorem AllocateIP_refines L K id pod w r w' :
  L ⊆ PoolIPs cfg -> PoolIPs cfg ⊆ K -> pool_inv cfg L K w -> ascii_request id pod ->
  AllocateIP cfg id pod w = (r, w') ->
  pool_inv cfg L K w' /\ r <> Panic /\
  (forall ip, r = Return (Ok ip) ->
     exists p p' str, pool_of cfg w = Some p /\ pool_of cfg w' = Some p' /\
       ParseAddr str = Some ip /\ pool_step (Alloc id str) p p').
Proof. intros HL HK. by apply doAllocateIP_spec. Qed.

Lemma released_pool id ip free used p1 p2 :
  used !! id = None -> pool_step (Alloc id ip) (free, used) p1 -> pool_step (Release id) p1 p2 ->
  exists free2, p2 = (free2, used) /\ free2 ≡ₚ free.
Proof.
  intros Hid Ha Hr. inversion Ha; subst; [|congruence].
  inversion Hr; subst; [|by rewrite lookup_insert_eq in *].
  match goal with E : <[_ := _]> _ !! _ = Some _ |- _ => rewrite lookup_insert_eq in E; simplify_eq end.
  eexists. rewrite delete_insert_id by done. split; [done|]. by etrans; [|symmetry].
Qed.

(** Releasing what was allocated restores the pool: after a successful
    AllocateIP for an id that had no address and a successful DeallocateIP of
    that id, the same ids hold the same addresses as before and the offered
    addresses are a rearrangement of those offered before. *)
Theorem allocate_release_roundtrip L K id pod ip w w1 w2 free used :
  L ⊆ PoolIPs cfg -> PoolIPs cfg ⊆ K -> pool_inv cfg L K w -> ascii_request id pod ->
  pool_of cfg w = Some (free, used) -> used !! id = None ->
  AllocateIP cfg id pod w = (Return (Ok ip), w1) -> DeallocateIP cfg id w1 = (Ok tt, w2) ->
  exists free2, pool_of cfg w2 = Some (free2, used) /\ free2 ≡ₚ free.
Proof.
  intros HL HK Hinv Hreq Hp Hid Ea Ed.
  apply (doAllocateIP_spec cfg L K) in Ea as (Hinv1 & _ & Hst); [|done..].
  destruct (Hst _ eq_refl) as (p & p1 & str & E & E1 & _ & Hs). rewrite Hp in E. simplify_eq.
  apply (doDeallocateIP_spec cfg L K) in Ed as (_ & Hrel); [|done..].
  destruct (Hrel eq_refl) as (s1 & s2 & Hc1 & Hc2 & Hs2).
  rewrite (current_pool_of _ _ _ Hc1) in E1. simplify_eq.
  rewrite (current_pool_of _ _ _ Hc2).
  destruct (released_pool _ _ _ _ _ _ Hid Hs Hs2) as (free2 & -> & Hf). eauto.
Qed.

(** Recovery reconciles the pool with the configuration: when the repair
    succeeds, every allocation is kept, and the offered addresses are exactly
    the configured ones that no allocation holds. *)
Theorem repair_restores_pool L K w w' :
  L ⊆ PoolIPs cfg -> PoolIPs cfg ⊆ K -> pool_inv cfg L K w ->
  repairStateFromPrimaryConfig cfg w = (None, w') ->
  exists free free' used, pool_of cfg w = Some (free, used) /\ pool_of cfg w' = Some (free', used) /\
    NoDup free' /\
    (forall ip, ip ∈ free' <-> ip ∈ PoolIPs cfg /\ (forall id, used !! id <> Some ip)).
Proof.
  intros HL HK Hinv E. apply (repair_spec cfg L K) in E as [Hinv' Hr]; [|done..].
  destruct (Hr eq_refl) as (free & free' & used & Hp & Hp' & Hf). exists free, free', used.
  split; [done|]. split; [done|]. split; [|done].
  by destruct (pool_inv_exclusive cfg _ _ cfg_ok HL HK _ _ _ Hinv' Hp') as (? & _).
Qed.

(** C36: Allocation makes progress: when the API server accepts what it should, the
    VMs answer the check of their readiness and the node knows its name, a manager
    built by NewConfigMapVMPoolManager returns an address for every id that
    already has one, and for a new id whenever an address is on offer. *)
Theorem AllocateIP_succeeds (calm : W -> Prop) id pod node w free used :
  healthy calm -> calm w -> NewConfigMapVMPoolManager true (Some cfg) = Ok cfg ->
  getCurrentNodeName = Ok node ->
  pool_inv cfg [] (PoolIPs cfg) w -> pool_of cfg w = Some (free, used) ->
  is_Some (used !! id) \/ free <> [] ->
  exists ip w', AllocateIP cfg id pod w = (Return (Ok ip), w') /\ calm w'.
Proof.
  intros Hh Hw Hnew Hnode Hinv Hp Hfree.
  assert (forall ip, ip ∈ PoolIPs cfg -> is_Some (ParseAddr ip)) as Hparse.
  { unfold NewConfigMapVMPoolManager in Hnew. simpl in Hnew. destruct (length _ =? 0)%nat; [done|].
    clear -Hnew. induction (PoolIPs cfg) as [|x l IH]; [by intros ? ?%not_elem_of_nil|].
    simpl in Hnew. destruct (ParseAddr x) eqn:Ex; [|done]. intros ip [->|Hin]%elem_of_cons; [by eauto|by apply IH]. }
  unfold AllocateIP, doAllocateIP, mbind. destruct (getCurrentState cfg w) as [g w1] eqn:Eg.
  pose proof (getCurrentState_spec _ _ _ _ Eg) as [Hsame Hcur].
  destruct (getCurrentState_calm cfg [] _ calm Hh _ _ _ Hw Hinv Eg) as (Hw1 & s & rv & ->).
  specialize (Hcur _ _ eq_refl). pose proof (current_pool_of _ _ _ Hcur) as Hp'.
  rewrite Hp in Hp'. simplify_eq.
  eapply allocate_with_calm; [done|done| |done|done|].
  - eapply (current_ok cfg []); [done| | |exact Hinv|exact Hcur]; set_solver.
  - destruct Hfree as [Hid|]; [left|by right]. rewrite lookup_fmap in Hid. by apply fmap_is_Some in Hid.
Qed.

End Claims.

(** ** Witnesses and runs on the server *)

Lemma empty_pool_inv L K : @pool_inv server _ (server_laws "n1") _ cfg1 L K empty_server.
Proof. by intros txt. Qed.

(** Two allocations in a row: the second id gets the other address. *)
Lemma pool_exclusive_in_every_run_witness :
  exists free used,
    @pool_of server _ (server_laws "n1") _ cfg1 one_allocated = Some (free, used) /\
    NoDup free /\
    (forall id ip, used !! id = Some ip -> ip ∉ free) /\
    (forall id1 id2 ip, used !! id1 = Some ip -> used !! id2 = Some ip -> id1 = id2) /\
    (forall ip, ip ∈ PoolIPs cfg1 <-> ip ∈ free \/ exists id, used !! id = Some ip).
Proof.
  apply (@pool_exclusive_in_every_run server env1 (server_laws "n1") _ _ _ _ cfg1 cfg1_ok empty_server one_allocated).
  - reflexivity.
  - apply rtc_once, (step_AllocateIP cfg1 "a" "pod" _
      (@AllocateIP server env1 _ _ _ cfg1 "a" "pod" empty_server).1); [exact request1_ok|].
    by apply run_result.
Defined.

Lemma AllocateIP_refines_witness :
  exists p p' str, @pool_of server _ (server_laws "n1") _ cfg1 empty_server = Some p /\
    @pool_of server _ (server_laws "n1") _ cfg1 one_allocated = Some p' /\
    ParseAddr str = ParseAddr "10.0.0.1" /\ pool_step (Alloc "a" str) p p'.
Proof.
  destruct (@AllocateIP_refines server env1 (server_laws "n1") _ _ _ cfg1 cfg1_ok [] (PoolIPs cfg1) "a" "pod"
    empty_server (Return (Ok ip1)) one_allocated) as (_ & _ & Hs).
  - set_solver.
  - done.
  - apply empty_pool_inv.
  - exact request1_ok.
  - run_server.
  - destruct (Hs _ eq_refl) as (p & p' & str & ? & ? & E & ?). exists p, p', str.
    repeat split; [done..| |done]. rewrite E. by vm_compute.
Defined.

Lemma allocate_release_roundtrip_witness :
  exists free2,
    @pool_of server _ (server_laws "n1") _ cfg1
      (@DeallocateIP server env1 _ cfg1 "a" one_allocated).2 = Some (free2, ∅) /\
    free2 ≡ₚ PoolIPs cfg1.
Proof.
  apply (@allocate_release_roundtrip server env1 (server_laws "n1") _ _ _ cfg1 cfg1_ok [] (PoolIPs cfg1) "a" "pod"
    ip1 empty_server one_allocated).
  - set_solver.
  - done.
  - apply empty_pool_inv.
  - exact request1_ok.
  - reflexivity.
  - reflexivity.
  - run_server.
  - run_server.
Defined.

(** A pool from which an address was lost and which offers an allocated one is
    repaired: the configuration has a third address. *)
Definition cfg_grown : GlobalVMPoolConfig :=
  mkConfig "ns" "pool" ["10.0.0.1"; "10.0.0.2"; "10.0.0.3"] true.

Lemma repair_restores_pool_witness :
  exists free free' used,
    @pool_of server _ (server_laws "n1") _ cfg_grown one_allocated = Some (free, used) /\
    @pool_of server _ (server_laws "n1") _ cfg_grown
      (@repairStateFromPrimaryConfig server env1 _ _ cfg_grown one_allocated).2 = Some (free', used) /\
    NoDup free' /\
    (forall ip, ip ∈ free' <-> ip ∈ PoolIPs cfg_grown /\ (forall id, used !! id <> Some ip)).
Proof.
  apply (@repair_restores_pool server env1 (server_laws "n1") _ _ cfg_grown) with (L := []) (K := PoolIPs cfg_grown).
  - split; [by apply (bool_decide_unpack _)|]. each_element; by vm_compute; each_element.
  - set_solver.
  - done.
  - assert (@pool_inv server _ (server_laws "n1") _ cfg1 [] (PoolIPs cfg1) one_allocated) as Hinv.
    { apply (@manager_step_inv server env1 (server_laws "n1") _ _ _ _ cfg1 [] (PoolIPs cfg1) cfg1_ok
        ltac:(set_solver) ltac:(done) empty_server); [apply empty_pool_inv|].
      apply (step_AllocateIP cfg1 "a" "pod" _
        (@AllocateIP server env1 _ _ _ cfg1 "a" "pod" empty_server).1); [exact request1_ok|].
      by apply run_result. }
    intros txt Ht. destruct (Hinv txt Ht) as (s & Hs & [? ? ? Hk ? ?]). exists s. split; [done|].
    split; [done..| |done|done]. intros ip Hip. apply Hk in Hip. clear -Hip. set_solver.
  - run_server.
Defined.

Lemma AllocateIP_succeeds_witness :
  exists ip w', @AllocateIP server env1 _ _ _ cfg1 "b" "pod" empty_server = (Return (Ok ip), w') /\ no_failures w'.
Proof.
  apply (@AllocateIP_succeeds server env1 (server_laws "n1") _ _ _ cfg1 cfg1_ok no_failures "b" "pod" "n1"
    empty_server (PoolIPs cfg1) ∅).
  - exact (server_healthy "n1").
  - reflexivity.
  - vm_compute. reflexivity.
  - vm_compute. reflexivity.
  - apply empty_pool_inv.
  - reflexivity.
  - by right.
Defined.

(** ** Behaviours that break exclusivity *)

(** Two nodes that allocate at the same time can be handed the same
    address, whatever the hash.  updateState re-reads the ConfigMap only for its
    resource version and then stores a state computed from an earlier read, so
    no conflict is reported: node n1 reads the pool, node n2 allocates, and when
    n1 finishes both hold the address and n2's allocation is gone. *)
Theorem concurrent_allocation_loses_update `{HashMD5} :
  exists s rv w1 w2 w3,
    @getCurrentState server env1 _ cfg_single empty_server = (Ok (s, rv), w1) /\
    @AllocateIP server env2 _ _ _ cfg_single "b" "pod-b" w1 = (Return (Ok ip1), w2) /\
    @allocate_with server env1 _ _ _ cfg_single s "a" "pod-a" w2 = (Return (Ok ip1), w3) /\
    @pool_of server _ (server_laws "n1") _ cfg_single w2 = Some ([], {["b" := "10.0.0.1"]}) /\
    @pool_of server _ (server_laws "n1") _ cfg_single w3 = Some ([], {["a" := "10.0.0.1"]}).
Proof.
  eexists _, _, _, _, _. split; [reflexivity|].
  split; [run_server|].
  split; [run_server|].
  split; vm_compute; reflexivity.
Qed.

(** The server after one allocation, about to fail one call. *)
Definition flaky_server : server :=
  mkServer (objects one_allocated) (revision one_allocated) (clock one_allocated) [true] ∅.

(** One failed read of the API server makes RecoverState discard every
    allocation: it reports success, stores an empty pool, and the address of
    the running instance is handed out again. *)
Theorem RecoverState_discards_allocations :
  exists w1 w2,
    @pool_of server _ (server_laws "n1") _ cfg1 flaky_server
      = Some (["10.0.0.2"], {["a" := "10.0.0.1"]}) /\
    @RecoverState server env1 _ _ cfg1 flaky_server = (None, w1) /\
    @pool_of server _ (server_laws "n1") _ cfg1 w1 = Some (PoolIPs cfg1, ∅) /\
    @AllocateIP server env1 _ _ _ cfg1 "b" "pod" w1 = (Return (Ok ip1), w2).
Proof.
  eexists _, _. split; [vm_compute; reflexivity|].
  split; [run_server|].
  split; [vm_compute; reflexivity|]. run_server.
Qed.
