(* ===== verification/ByomProvider.v ===== *)
(** * The BYOM provider

    Models src/cloud-providers/byom/provider.go and manager.go: creation of an
    instance from the pool with rollback, its deletion, the construction of the
    provider and the loading of its configuration.

    The provider is written against the interface [GlobalVMPoolManager], and so
    are its theorems: [PoolManagerLaws] states what a pool manager promises in
    terms of the abstract pool, and [configmap_manager_laws] shows that the
    ConfigMap manager of ByomPool keeps the promise. *)

From Stdlib Require Import ZArith Ascii String Lia.
From stdpp Require Import base gmap strings list fin_maps.
From S2P Require Import Prelude InstanceTypes NetAddr ByomPool ByomPoolSpec ByomServer ByomProps.

Open Scope Z_scope.
Open Scope go_scope.

(** ** Interfaces *)

(** types.go: [GlobalVMPoolManager], the operations the provider calls. *)
Class GlobalVMPoolManager (W : Type) `{NetIP} := {
  mgr_AllocateIP : string -> string -> M W (outcome (result Addr));
  mgr_DeallocateIP : string -> M W (result unit);
  mgr_GetAllocationIDfromIP : Addr -> M W (result (option string))
}.

(** [util.SendFileViaSFTPWithContext] to an address, a path and a content. *)
Class Sftp (W : Type) := {
  SendFileViaSFTP : string -> string -> string -> M W (option GoError)
}.

(** ** Data *)

Record Config := mkByomConfig {
  VMPoolIPs : list string;
  SSHUserName : string;
  SSHPubKeyPath : string;
  SSHPrivKeyPath : string;
  SSHPubKey : string;
  SSHPrivKey : string;
  SSHTimeout : Z;
  SSHHostKeyAllowlistDir : string;
  PoolNamespace : string;
  PoolConfigMapName : string
}.

Definition sshPort : string := "22".
Definition userDataFile : string := "/media/cidata/user-data".
Definition rebootFile : string := "/media/cidata/reboot".

(** ** Operations *)

Section Provider.

Context {W : Type} `{GlobalVMPoolManager W} `{Sftp W}.

Definition sendFileViaSFTPWithChroot (address remotePath content : string) : M W (option GoError) :=
  let adjustedPath := TrimPrefix remotePath "/media/" in
  SendFileViaSFTP address adjustedPath content.

Definition sendConfigFile (userData : string) (ip : Addr) : M W (option GoError) :=
  let address := JoinHostPort (Addr_String ip) sshPort in
  let* e := sendFileViaSFTPWithChroot address userDataFile userData in
  mret match e with
       | Some err => Some (Errorf "failed to send user-data to VM %s: %w" [err])
       | None => None
       end.

Definition sendRebootFile (ip : Addr) : M W (option GoError) :=
  let address := JoinHostPort (Addr_String ip) sshPort in
  let* e := sendFileViaSFTPWithChroot address rebootFile "reboot" in
  mret match e with
       | Some err => Some (Errorf "failed to send reboot file to VM %s: %w" [err])
       | None => None
       end.

Definition allocation_id (podName sandboxID : string) : string := podName +:+ "-" +:+ sandboxID.

(** Both error paths give the address back and report the first error. *)
Definition rollback (allocationID : string) (err : GoError) : M W (outcome (result (Instance Addr))) :=
  let* _rollbackErr := mgr_DeallocateIP allocationID in
  mret (Return (Err err)).

(** [Generate] is what [cloudConfig.Generate()] returns. *)
Definition CreateInstance (podName sandboxID : string) (Generate : result string)
    : M W (outcome (result (Instance Addr))) :=
  let allocationID := allocation_id podName sandboxID in
  let* r := mgr_AllocateIP allocationID podName in
  match r with
  | Panic => mret Panic
  | Return (Err err) => mret (Return (Err (Errorf "failed to allocate IP from pool: %w" [err])))
  | Return (Ok ip) =>
      match Generate with
      | Err err => rollback allocationID (Errorf "failed to generate cloud config: %w" [err])
      | Ok cloudConfigData =>
          let* e := sendConfigFile cloudConfigData ip in
          match e with
          | Some err => rollback allocationID (Errorf "failed to send config to VM %s: %w" [err])
          | None =>
              mret (Return (Ok (mkInstance (Addr_String ip) ("byom-" +:+ Addr_String ip) [ip])))
          end
      end
  end.

Definition DeleteInstance (instanceID : string) : M W (option GoError) :=
  if String.eqb instanceID "" then mret None
  else match ParseAddr instanceID with
  | None => mret (Some (Errorf "invalid instance ID %s: %w" []))
  | Some ip =>
      let* _e := sendRebootFile ip in
      let* r := mgr_GetAllocationIDfromIP ip in
      match r with
      | Err err => mret (Some (Errorf "failed to get allocation ID for IP %s: %w" [err]))
      | Ok None => mret None
      | Ok (Some allocationID) =>
          let* d := mgr_DeallocateIP allocationID in
          mret match d with
               | Err err => Some (Errorf "failed to deallocate IP %s (allocation ID: %s): %w" [err])
               | Ok _ => None
               end
      end
  end.

End Provider.

Definition ConfigVerifier (serviceConfig : Config) : option GoError :=
  if (length (VMPoolIPs serviceConfig) =? 0)%nat then Some (Errorf "vm-pool-ips is required" [])
  else if String.eqb (SSHUserName serviceConfig) "" then Some (Errorf "ssh-username is required" [])
  else if String.eqb (SSHPrivKey serviceConfig) "" then Some (Errorf "SSH private key is required" [])
  else None.

(** ** The ConfigMap manager as the provider's pool manager *)

#[export] Instance configmap_manager {W} `{PoolEnv W} `{StateCodec} `{HashMD5} `{NetIP} `{GoMapOrder}
    (cfg : GlobalVMPoolConfig) : GlobalVMPoolManager W := {
  mgr_AllocateIP := AllocateIP cfg;
  mgr_DeallocateIP := DeallocateIP cfg;
  mgr_GetAllocationIDfromIP := GetAllocationIDfromIP cfg
}.

Definition with_keys (c : Config) (pub priv : string) : Config :=
  mkByomConfig (VMPoolIPs c) (SSHUserName c) (SSHPubKeyPath c) (SSHPrivKeyPath c) pub priv
               (SSHTimeout c) (SSHHostKeyAllowlistDir c) (PoolNamespace c) (PoolConfigMapName c).

(** [NewProvider(config)].  [sshKeys] is what [util.CreateSSHClient] returns (the
    keys it read), [inCluster] the error of [rest.InClusterConfig] and [kube] that of
    [kubernetes.NewForConfig], if any.  The provider is its configuration and that of its
    pool. *)
Definition NewProvider {W} `{PoolEnv W} `{StateCodec} `{NetIP} `{GoMapOrder}
    (config : Config) (sshKeys : result (string * string)) (inCluster kube : option GoError)
    : M W (result (Config * GlobalVMPoolConfig)) :=
  match sshKeys with
  | Err e => mret (Err (Errorf "failed to create SSH client configuration: %w" [e]))
  | Ok (pub, priv) =>
      let config := with_keys config pub priv in
      match inCluster, kube with
      | Some e, _ => mret (Err (Errorf "failed to get in-cluster config: %w" [e]))
      | None, Some e => mret (Err (Errorf "failed to create Kubernetes client: %w" [e]))
      | None, None =>
          let poolNamespace :=
            if String.eqb (PoolNamespace config) "" then getCurrentNamespaceWithDefault getenv ReadFile
            else PoolNamespace config in
          let poolConfig := mkConfig poolNamespace (PoolConfigMapName config) (VMPoolIPs config) false in
          match NewConfigMapVMPoolManager true (Some poolConfig) with
          | Err e => mret (Err (Errorf "%w: %w" [ErrCreatingPoolMgr; e]))
          | Ok mgr =>
              let* _e := RecoverState mgr in
              let* _s := GetPoolStatus mgr in
              mret (Ok (config, mgr))
          end
      end
  end.

(** [Manager.LoadEnv]: the environment fills the settings that are empty; an
    unreadable list of addresses is only logged. *)
Definition LoadEnv `{NetIP} (getenv : string -> string) (maxRangeIPs : Z) (c : Config) : Config :=
  let ips :=
    if String.eqb (getenv "VM_POOL_IPS") "" then VMPoolIPs c
    else match vmPoolIPs_Set maxRangeIPs (getenv "VM_POOL_IPS") with
         | Ok ips => ips
         | Err _ => VMPoolIPs c
         end in
  mkByomConfig ips
    (DefaultToEnv getenv (SSHUserName c) "SSH_USERNAME" "peerpod")
    (DefaultToEnv getenv (SSHPubKeyPath c) "SSH_PUB_KEY_PATH" "/root/.ssh/id_rsa.pub")
    (DefaultToEnv getenv (SSHPrivKeyPath c) "SSH_PRIV_KEY_PATH" "/root/.ssh/id_rsa")
    (SSHPubKey c) (SSHPrivKey c) (SSHTimeout c) (SSHHostKeyAllowlistDir c)
    (DefaultToEnv getenv (PoolNamespace c) "POOL_NAMESPACE" "")
    (DefaultToEnv getenv (PoolConfigMapName c) "POOL_CONFIGMAP_NAME" "byom-ip-pool-state").

(** ** What a pool manager promises *)

Class PoolManagerLaws (W : Type) `{GlobalVMPoolManager W} := {
  pool_valid : W -> Prop;
  pool_view : W -> option pool;
  request_ok : string -> string -> Prop;
  mgr_AllocateIP_law : forall id pod w r w',
    pool_valid w -> request_ok id pod -> mgr_AllocateIP id pod w = (r, w') ->
    pool_valid w' /\ r <> Panic /\
    (forall ip, r = Return (Ok ip) -> exists p p', pool_view w = Some p /\ pool_view w' = Some p' /\
       pool_step (Alloc id (Addr_String ip)) p p');
  mgr_DeallocateIP_law : forall id w r w',
    pool_valid w -> mgr_DeallocateIP id w = (r, w') ->
    pool_valid w' /\
    (r = Ok tt -> exists p p', pool_view w = Some p /\ pool_view w' = Some p' /\
       pool_step (Release id) p p');
  mgr_GetAllocationIDfromIP_law : forall ip w r w',
    pool_valid w -> mgr_GetAllocationIDfromIP ip w = (r, w') ->
    pool_valid w' /\ pool_view w' = pool_view w /\
    (forall o, r = Ok o -> exists free used, pool_view w = Some (free, used) /\
       match o with
       | Some id => used !! id = Some (Addr_String ip)
       | None => forall id, used !! id <> Some (Addr_String ip)
       end);
  pool_view_exclusive : forall w free used id1 id2 ip,
    pool_valid w -> pool_view w = Some (free, used) ->
    used !! id1 = Some ip -> used !! id2 = Some ip -> id1 = id2
}.

(** Sending a file leaves the pool alone, and a file reported as sent has
    arrived. *)
Class SftpLaws (W : Type) `{Sftp W} `{PoolManagerLaws W} := {
  received : W -> gmap (string * string) string;
  Send_law : forall address path content w r w',
    SendFileViaSFTP address path content w = (r, w') ->
    (pool_valid w -> pool_valid w') /\ pool_view w' = pool_view w /\
    (r = None -> received w' = <[(address, path) := content]> (received w))
}.

(** ** Lemmas: the ConfigMap manager keeps the promise *)

(** Addresses in the form [netip.Addr] prints, as [vmPoolIPs.Set] stores them. *)
Definition canonical `{NetIP} (s : string) : Prop := exists a, s = Addr_String a.

Section Discharge.

Context {W : Type} `{PoolEnvLaws W} `{StateCodec} `{HashMD5} `{NetIP} `{GoMapOrder}.
Context (cfg : GlobalVMPoolConfig).
Hypothesis cfg_ok : config_ok (PoolIPs cfg).
Hypothesis cfg_canonical : Forall canonical (PoolIPs cfg).

Let valid (w : W) : Prop := pool_inv cfg [] (PoolIPs cfg) w.

Lemma valid_known w free used id ip :
  valid w -> pool_of cfg w = Some (free, used) -> used !! id = Some ip -> canonical ip.
Proof.
  intros Hv Hp Hid. destruct (pool_inv_of cfg cfg_ok [] (PoolIPs cfg) w) as (s & Hs & E); [set_solver|done|done|].
  rewrite Hp in E. simplify_eq. rewrite Forall_forall in cfg_canonical. apply cfg_canonical.
  apply (pool_known _ _ _ Hs), elem_of_app. right. by eapply used_alloc_ips.
Qed.

Lemma find_allocation_spec str (m : gmap string IPAllocation) :
  match find_allocation str (map_order m) with
  | Some id => (IP <$> m) !! id = Some str
  | None => forall id, (IP <$> m) !! id <> Some str
  end.
Proof.
  unfold find_allocation. destruct (List.find _ _) as [[id a]|] eqn:E; simpl.
  - apply find_some in E as [Hin E]. simpl in E. bool_to_prop. subst.
    apply list_elem_of_In, elem_of_map_order in Hin. by rewrite lookup_fmap, Hin.
  - intros id Hid. apply lookup_fmap_Some in Hid as (a & <- & Ha).
    eapply find_none in E; [|apply list_elem_of_In, elem_of_map_order; exact Ha].
    simpl in E. by rewrite String.eqb_refl in E.
Qed.

Lemma alloc_step_canonical w' id str ip p p' :
  valid w' -> pool_of cfg w' = Some p' -> ParseAddr str = Some ip ->
  pool_step (Alloc id str) p p' -> str = Addr_String ip.
Proof.
  intros Hv Hp' Hstr Hs.
  assert (canonical str) as [a ->].
  { inversion Hs; subst; (eapply valid_known; [done|exact Hp'|]); [apply lookup_insert_eq|done]. }
  rewrite ParseAddr_String in Hstr. by simplify_eq.
Qed.

#[program] Definition configmap_manager_laws : @PoolManagerLaws W _ (configmap_manager cfg) := {|
  pool_valid := valid;
  pool_view := pool_of cfg;
  request_ok := ascii_request
|}.
Next Obligation.
  intros id pod w r w' Hv Hreq E.
  apply (doAllocateIP_spec cfg [] (PoolIPs cfg)) in E as (Hv' & Hp & Hs); [|done|set_solver|done..].
  repeat split; [done..|]. intros ip Hr. destruct (Hs ip Hr) as (p & p' & str & Ep & Ep' & Hstr & Hst).
  exists p, p'. repeat split; [done..|]. by rewrite <- (alloc_step_canonical _ _ _ _ _ _ Hv' Ep' Hstr Hst).
Qed.
Next Obligation.
  intros id w r w' Hv E.
  apply (doDeallocateIP_spec cfg [] (PoolIPs cfg)) in E as (Hv' & Hs); [|done|set_solver|done..].
  split; [done|]. intros Hr. destruct (Hs Hr) as (s & s' & Hc & Hc' & Hst).
  exists (abs_pool s), (abs_pool s').
  by rewrite (current_pool_of _ _ _ Hc), (current_pool_of _ _ _ Hc').
Qed.
Next Obligation.
  intros ip w r w' Hv E. unfold mgr_GetAllocationIDfromIP, configmap_manager in E.
  pose proof (query_store cfg _ _ _ _ E) as Hsame.
  split; [by eapply same_store_inv|]. split; [by apply same_store_pool_of|]. intros o Hr.
  unfold GetAllocationIDfromIP, mbind, mret in E.
  destruct (getCurrentState cfg w) as [[[s rv]|e] w1] eqn:Eg; [|by simplify_eq].
  apply getCurrentState_spec in Eg as [_ Hg]. specialize (Hg _ _ eq_refl). simplify_eq.
  exists (AvailableIPs s), (IP <$> allocs s). split; [by apply current_pool_of|].
  apply find_allocation_spec.
Qed.
Next Obligation.
  intros w free used id1 id2 ip Hv Hp.
  destruct (pool_inv_exclusive cfg [] (PoolIPs cfg) cfg_ok ltac:(set_solver) ltac:(done) _ _ _ Hv Hp)
    as (_ & _ & Hi). apply Hi.
Qed.

End Discharge.

(** ** Claims *)

Section ProviderClaims.

Context {W : Type} `{SftpLaws W}.

Lemma sendConfigFile_spec data ip w r w' :
  sendConfigFile data ip w = (r, w') ->
  (pool_valid w -> pool_valid w') /\ pool_view w' = pool_view w /\
  (r = None -> received w' !! (JoinHostPort (Addr_String ip) "22", "cidata/user-data") = Some data).
Proof.
  unfold sendConfigFile, sendFileViaSFTPWithChroot, mbind, mret.
  destruct (SendFileViaSFTP _ _ _ w) as [e w1] eqn:Es. apply Send_law in Es as (Hv & Hp & Hs).
  intros [= <- <-]. repeat split; [done..|]. destruct e; [done|]. intros _.
  rewrite (Hs eq_refl). apply lookup_insert_eq.
Qed.

Lemma sendRebootFile_spec ip w r w' :
  sendRebootFile ip w = (r, w') ->
  (pool_valid w -> pool_valid w') /\ pool_view w' = pool_view w.
Proof.
  unfold sendRebootFile, sendFileViaSFTPWithChroot, mbind, mret.
  destruct (SendFileViaSFTP _ _ _ w) as [e w1] eqn:Es. apply Send_law in Es as (Hv & Hp & _).
  by intros [= <- <-].
Qed.

Lemma CreateInstance_step pod sb gen w inst w' :
  pool_valid w -> request_ok (allocation_id pod sb) pod ->
  CreateInstance pod sb gen w = (Return (Ok inst), w') ->
  pool_valid w' /\ exists ip data p p', inst = mkInstance (Addr_String ip) ("byom-" +:+ Addr_String ip) [ip] /\
    gen = Ok data /\ pool_view w = Some p /\ pool_view w' = Some p' /\
    pool_step (Alloc (allocation_id pod sb) (Addr_String ip)) p p' /\
    received w' !! (JoinHostPort (Addr_String ip) "22", "cidata/user-data") = Some data.
Proof.
  intros Hv Hreq. unfold CreateInstance, rollback, mbind, mret.
  destruct (mgr_AllocateIP _ _ w) as [a w1] eqn:Ea.
  apply mgr_AllocateIP_law in Ea as (Hv1 & _ & Hs); [|done..].
  destruct a as [[ip|e]|]; [|done..]. destruct (Hs ip eq_refl) as (p & p' & Hp & Hp' & Hst).
  destruct gen as [data|e]; [|by destruct (mgr_DeallocateIP _ w1)].
  destruct (sendConfigFile data ip w1) as [[e|] w2] eqn:Es; [by destruct (mgr_DeallocateIP _ w2)|].
  apply sendConfigFile_spec in Es as (Hv2 & Hp2 & Hd). intros [= <- <-].
  split; [by apply Hv2|]. exists ip, data, p, p'. rewrite Hp2. by rewrite (Hd eq_refl).
Qed.

(** A created instance is the pool's: when CreateInstance succeeds, the
    instance carries one address, its ID is that address, the pool has handed
    exactly that address to the pod's allocation id, and the VM at that address
    has received the generated cloud-init data as cidata/user-data. *)
Theorem CreateInstance_allocates pod sb gen w inst w' :
  pool_valid w -> request_ok (allocation_id pod sb) pod ->
  CreateInstance pod sb gen w = (Return (Ok inst), w') ->
  exists ip data p p', IPs inst = [ip] /\ ID inst = Addr_String ip /\ gen = Ok data /\
    pool_view w = Some p /\ pool_view w' = Some p' /\
    pool_step (Alloc (allocation_id pod sb) (ID inst)) p p' /\
    received w' !! (JoinHostPort (ID inst) "22", "cidata/user-data") = Some data.
Proof.
  intros Hv Hreq E. apply CreateInstance_step in E as (_ & ip & data & p & p' & -> & ? & ? & ? & ? & ?); [|done..].
  by exists ip, data, p, p'.
Qed.

(** C19: A failed creation gives the address back: when the pool had handed out a
    fresh address and CreateInstance then fails (the cloud config cannot be
    generated, or the VM cannot be reached), it ends by releasing the address,
    and if that release succeeds every other allocation is untouched and the
    offered addresses are those offered before. *)
Theorem CreateInstance_rolls_back pod sb gen w w1 ip e w' free used :
  pool_valid w -> request_ok (allocation_id pod sb) pod ->
  pool_view w = Some (free, used) -> used !! allocation_id pod sb = None ->
  mgr_AllocateIP (allocation_id pod sb) pod w = (Return (Ok ip), w1) ->
  CreateInstance pod sb gen w = (Return (Err e), w') ->
  exists w2 d, pool_view w2 = pool_view w1 /\ mgr_DeallocateIP (allocation_id pod sb) w2 = (d, w') /\
    (d = Ok tt -> exists free', pool_view w' = Some (free', used) /\ free' ≡ₚ free).
Proof.
  intros Hv Hreq Hp Hfresh Ea Ec. unfold CreateInstance, rollback, mbind, mret in Ec. rewrite Ea in Ec.
  apply mgr_AllocateIP_law in Ea as (Hv1 & _ & Hs); [|done..].
  destruct (Hs ip eq_refl) as (p & p1 & Hp0 & Hp1 & Hst). rewrite Hp in Hp0. simplify_eq.
  assert (exists w2 d, pool_valid w2 /\ pool_view w2 = pool_view w1 /\
            mgr_DeallocateIP (allocation_id pod sb) w2 = (d, w')) as (w2 & d & Hv2 & Hp2 & Ed).
  { destruct gen as [data|e'].
    - destruct (sendConfigFile data ip w1) as [[e'|] w2] eqn:Es; [|done].
      apply sendConfigFile_spec in Es as (Hv2 & Hp2 & _).
      destruct (mgr_DeallocateIP _ w2) as [d w3] eqn:Ed. simplify_eq. eauto 10.
    - destruct (mgr_DeallocateIP _ w1) as [d w3] eqn:Ed. simplify_eq. eauto 10. }
  exists w2, d. repeat split; [done..|]. intros ->.
  apply mgr_DeallocateIP_law in Ed as (_ & Hrel); [|done].
  destruct (Hrel eq_refl) as (q & q' & Hq & Hq' & Hst2). rewrite Hp2, Hp1 in Hq. simplify_eq.
  destruct (released_pool _ _ _ _ _ _ Hfresh Hst Hst2) as (f & -> & Hf). eauto.
Qed.

(** C20: Creating an instance and deleting it by its ID returns the pool to where
    it was: the allocation is found by address and released. *)
Theorem create_delete_roundtrip pod sb gen w inst w1 w2 free used :
  pool_valid w -> request_ok (allocation_id pod sb) pod ->
  pool_view w = Some (free, used) -> used !! allocation_id pod sb = None -> ID inst <> "" ->
  CreateInstance pod sb gen w = (Return (Ok inst), w1) ->
  DeleteInstance (ID inst) w1 = (None, w2) ->
  exists free', pool_view w2 = Some (free', used) /\ free' ≡ₚ free.
Proof.
  intros Hv Hreq Hp Hfresh Hne Ec Ed.
  apply CreateInstance_step in Ec as (Hv1 & ip & data & p & p1 & -> & _ & Hp0 & Hp1 & Hst & _); [|done..].
  rewrite Hp in Hp0. simplify_eq. simpl in *. unfold DeleteInstance, mbind, mret in Ed.
  apply String.eqb_neq in Hne. rewrite Hne, ParseAddr_String in Ed.
  destruct (sendRebootFile ip w1) as [e w3] eqn:Es. apply sendRebootFile_spec in Es as (Hv3 & Hp3).
  specialize (Hv3 Hv1).
  destruct (mgr_GetAllocationIDfromIP ip w3) as [g w4] eqn:Eg.
  apply mgr_GetAllocationIDfromIP_law in Eg as (Hv4 & Hp4 & Hg); [|done].
  destruct g as [o|]; [|done]. destruct (Hg o eq_refl) as (free1 & used1 & Hp1' & Ho).
  rewrite Hp3, Hp1 in Hp1'. simplify_eq.
  assert (used1 !! allocation_id pod sb = Some (Addr_String ip)) as Hmine
    by (inversion Hst; subst; [apply lookup_insert_eq|done]).
  destruct o as [id|]; [|by destruct (Ho (allocation_id pod sb))].
  rewrite <- Hp3 in Hp1. pose proof (pool_view_exclusive _ _ _ _ _ _ Hv3 Hp1 Ho Hmine) as ->.
  destruct (mgr_DeallocateIP _ w4) as [d w5] eqn:Ede.
  apply mgr_DeallocateIP_law in Ede as (_ & Hrel); [|done]. destruct d as [[]|]; [|done].
  destruct (Hrel eq_refl) as (q & q' & Hq & Hq' & Hst2). rewrite Hp4, Hp1 in Hq. simplify_eq.
  destruct (released_pool _ _ _ _ _ _ Hfresh Hst Hst2) as (f & -> & Hf). eauto.
Qed.

End ProviderClaims.

(** ** Witnesses on the server *)

#[export] Instance server_sftp : Sftp server := {
  SendFileViaSFTP := fun address path content w =>
    (None, mkServer (objects w) (revision w) (clock w) (failures w)
                    (<[(address, path) := content]> (files w)))
}.

Lemma cfg1_canonical : Forall canonical (PoolIPs cfg1).
Proof.
  apply Forall_cons. split; [exists ip1; vm_compute; reflexivity|].
  apply Forall_cons. split; [|constructor]. exists (mk_ipv4 167772162 I). vm_compute. reflexivity.
Qed.

Definition mgr1 : GlobalVMPoolManager server := @configmap_manager server env1 _ _ _ _ cfg1.

Definition laws1 : @PoolManagerLaws server _ mgr1 :=
  @configmap_manager_laws server env1 (server_laws "n1") _ _ _ _ cfg1 cfg1_ok cfg1_canonical.

#[program] Definition sftp_laws1 : @SftpLaws server _ _ mgr1 laws1 := {| received := files |}.
Next Obligation. intros address path content w r w' [= <- <-]. by repeat split. Qed.

Definition created : outcome (result (Instance Addr)) * server :=
  @CreateInstance server _ mgr1 _ "p" "s" (Ok "data") empty_server.

Definition inst1 : Instance ipv4 := mkInstance "10.0.0.1" "byom-10.0.0.1" [ip1].

Lemma request_ps : @ascii_request server env1 "p-s" "p".
Proof.
  split; [vm_compute; by each_element|]. split; [vm_compute; by each_element|].
  intros node. vm_compute. intros [= <-]. by each_element.
Qed.

Lemma CreateInstance_allocates_witness :
  exists ip data p p', IPs inst1 = [ip] /\ ID inst1 = Addr_String ip /\ Ok "data" = Ok data /\
    @pool_view _ _ _ laws1 empty_server = Some p /\ @pool_view _ _ _ laws1 created.2 = Some p' /\
    pool_step (Alloc "p-s" (ID inst1)) p p' /\
    files created.2 !! (JoinHostPort (ID inst1) "22", "cidata/user-data") = Some data.
Proof.
  apply (@CreateInstance_allocates server _ _ mgr1 laws1 sftp_laws1 "p" "s" (Ok "data") empty_server).
  - apply empty_pool_inv.
  - exact request_ps.
  - unfold created. run_server.
Defined.

Lemma CreateInstance_rolls_back_witness :
  exists w2 d,
    @pool_view _ _ _ laws1 w2
    = @pool_view _ _ _ laws1 (@AllocateIP server env1 _ _ _ cfg1 "p-s" "p" empty_server).2 /\
    @DeallocateIP server env1 _ cfg1 "p-s" w2
    = (d, (@CreateInstance server _ mgr1 _ "p" "s" (Err (Errorf "no config" [])) empty_server).2) /\
    (d = Ok tt -> exists free', @pool_view _ _ _ laws1
      (@CreateInstance server _ mgr1 _ "p" "s" (Err (Errorf "no config" [])) empty_server).2
      = Some (free', ∅) /\ free' ≡ₚ PoolIPs cfg1).
Proof.
  apply (@CreateInstance_rolls_back server _ _ mgr1 laws1 sftp_laws1 "p" "s" (Err (Errorf "no config" []))
    empty_server _ ip1 (Errorf "failed to generate cloud config: %w" [Errorf "no config" []])).
  - apply empty_pool_inv.
  - exact request_ps.
  - reflexivity.
  - reflexivity.
  - run_server.
  - run_server.
Defined.

Lemma create_delete_roundtrip_witness :
  exists free',
    @pool_view _ _ _ laws1 (@DeleteInstance server _ mgr1 _ "10.0.0.1" created.2).2 = Some (free', ∅) /\
    free' ≡ₚ PoolIPs cfg1.
Proof.
  apply (@create_delete_roundtrip server _ _ mgr1 laws1 sftp_laws1 "p" "s" (Ok "data") empty_server inst1 created.2).
  - apply empty_pool_inv.
  - exact request_ps.
  - reflexivity.
  - reflexivity.
  - done.
  - unfold created. run_server.
  - run_server.
Defined.

(** ** The list of pool addresses *)

Section PoolIPs.

Context `{NetIP}.

(** Past the last address of its family a range yields this text. *)
Definition printed (s : string) : Prop := canonical s \/ s = "invalid IP".

Lemma printed_ascii s : printed s -> ascii_string s.
Proof. intros [[a ->]| ->]; [apply Addr_String_ascii|vm_compute; by each_element]. Qed.

Lemma expand_range_spec n ip endIP :
  Forall printed (expand_range n ip endIP) /\ (length (expand_range n ip endIP) <= n)%nat.
Proof.
  revert ip. induction n as [|n IH]; intros ip; simpl; [by split|].
  destruct (IH (ip ≫= Addr_Next)) as [Hp Hl].
  assert (printed (addr_string ip)) by (destruct ip; [left; by eexists|by right]).
  case_bool_decide; simpl; (split; [|lia]); apply Forall_cons; split; try done; constructor.
Qed.

Lemma expand_entry_spec n entry ips :
  expand_entry n entry = Ok ips ->
  Forall printed ips /\ (length ips <= Nat.max 1 (Z.to_nat n))%nat.
Proof.
  unfold expand_entry. destruct (cut_on _ _) as [[start end_]|].
  - destruct (ParseAddr start) as [a|], (ParseAddr end_) as [b|]; try done.
    destruct (Addr_Compare a b); try done. intros [= <-].
    destruct (expand_range_spec (Z.to_nat n) (Some a) b) as [? ?]. split; [done|lia].
  - destruct (ParseAddr entry) as [a|]; [|done]. intros [= <-].
    split; [|simpl; lia]. apply Forall_singleton. left. by eexists.
Qed.

Lemma expand_entries_spec n entries ips :
  expand_entries n entries = Ok ips ->
  Forall printed ips /\ (length ips <= Nat.max 1 (Z.to_nat n) * length entries)%nat.
Proof.
  revert ips. induction entries as [|raw rest IH]; intros ips; cbn [expand_entries length];
    [intros [= <-]; split; [done|simpl; lia]|].
  cbv zeta. destruct (String.eqb _ "") eqn:Ee; [intros E; destruct (IH _ E) as [Hp Hl]; split; [exact Hp|lia]|].
  destruct (expand_entry n _) as [here|] eqn:Eh; [|done].
  destruct (expand_entries n rest) as [ips'|]; [|done]. intros [= <-].
  destruct (IH _ eq_refl) as [Hp Hl]. apply expand_entry_spec in Eh as [Hph Hlh].
  split; [by apply Forall_app|]. rewrite length_app. lia.
Qed.

Lemma dedup_spec seen ips :
  NoDup (dedup seen ips) /\ (length (dedup seen ips) <= length ips)%nat /\
  (forall x, x ∈ dedup seen ips <-> x ∈ ips /\ x ∉ seen).
Proof.
  revert seen. induction ips as [|ip rest IH]; intros seen; simpl.
  { split; [constructor|]. split; [done|]. intros x. split; [by intros ?%not_elem_of_nil|by intros [?%not_elem_of_nil _]]. }
  case_bool_decide as Hin.
  - destruct (IH seen) as (Hn & Hl & Hx). split; [done|]. split; [lia|]. intros x. rewrite Hx.
    set_solver.
  - destruct (IH ({[ip]} ∪ seen)) as (Hn & Hl & Hx). simpl. split.
    { apply NoDup_cons. split; [|done]. rewrite Hx. set_solver. }
    split; [lia|]. intros x. rewrite !elem_of_cons, Hx. destruct (decide (x = ip)); set_solver.
Qed.

(** The pool configuration accepted on the command line or from the
    environment is well-formed: vmPoolIPs.Set lists no address twice (so the
    pool starts exclusive), every entry is in the printed form in which
    DeleteInstance looks it up, and a range contributes at most max-range-ips
    addresses. *)
Theorem vmPoolIPs_Set_well_formed n value ips :
  vmPoolIPs_Set n value = Ok ips ->
  config_ok ips /\ Forall printed ips /\
  (length ips <= Nat.max 1 (Z.to_nat n) * length (split_on "," value))%nat.
Proof.
  unfold vmPoolIPs_Set. destruct (String.eqb value "").
  { intros [= <-]. repeat split; try constructor. simpl. lia. }
  destruct (expand_entries n (split_on "," value)) as [all|] eqn:E; [|done]. intros [= <-].
  apply expand_entries_spec in E as [Hp Hl]. destruct (dedup_spec ∅ all) as (Hn & Hd & Hx).
  assert (Forall printed (dedup ∅ all)) as Hpd.
  { rewrite Forall_forall in *. intros x Hin. apply Hp. by apply Hx in Hin as [? _]. }
  split; [split; [done|]|split; [done|lia]].
  eapply Forall_impl; [exact Hpd|]. apply printed_ascii.
Qed.

End PoolIPs.

Lemma vmPoolIPs_Set_well_formed_witness :
  config_ok ["10.0.0.1"; "10.0.0.2"; "10.0.0.3"; "10.0.0.9"] /\
  Forall printed ["10.0.0.1"; "10.0.0.2"; "10.0.0.3"; "10.0.0.9"] /\ (4 <= 300)%nat.
Proof.
  apply (vmPoolIPs_Set_well_formed 100 "10.0.0.1-10.0.0.3, 10.0.0.9,10.0.0.2"). vm_compute. reflexivity.
Defined.

Definition zero_config : Config := mkByomConfig [] "" "" "" "" "" 0 "" "" "".

Definition range_env (v : string) : string :=
  if String.eqb v "VM_POOL_IPS" then "10.0.0.1-10.0.0.3,10.0.0.9" else EmptyString.

(** LoadEnv needs ParseCmd: the limit of addresses in a range is set only by
    the flag's default, so in a process that calls LoadEnv alone, as the
    peerpod controller does, the limit is zero and every range of VM_POOL_IPS
    contributes no address; with the flag's default of 100 the range is there. *)
Theorem LoadEnv_without_flags_drops_ranges :
  VMPoolIPs (LoadEnv range_env 0 zero_config) = ["10.0.0.9"] /\
  VMPoolIPs (LoadEnv range_env 100 zero_config) = ["10.0.0.1"; "10.0.0.2"; "10.0.0.3"; "10.0.0.9"].
Proof. split; vm_compute; reflexivity. Qed.
