(* ===== verification/CloudService.v ===== *)
(** * The hypervisor service of the adaptor

    Models src/cloud-api-adaptor/pkg/adaptor/cloud/cloud.go and types.go (the
    service that answers kata's CreateVM, StartVM and StopVM),
    pkg/adaptor/k8sops/peerpod.go (ownership of PeerPod objects),
    pkg/adaptor/vminfo/service.go and pkg/util/cloud.go (the annotations of a
    request).

    The service's own state is [service]: the sandboxes, the map from pods to
    PeerPods and the world it acts on.  Providers, the worker node's network,
    the agent proxy, ssh, Kubernetes and the file system are operations of
    [CloudEnv]; every call to one that creates or destroys something is recorded
    in [trace], so that what the service has called, and in which order, can be
    stated.  A handler runs as one function of the state; the places where Go
    releases the mutex and another handler can run in between are the splits
    [StartVM_create] and [StartVM_finish]. *)

From Stdlib Require Import ZArith Ascii String Lia.
From stdpp Require Import base gmap strings list fin_maps.
From S2P Require Import Prelude InstanceTypes NetAddr.

Open Scope Z_scope.
Open Scope go_scope.

(** ** Annotations: util/cloud.go

    The keys are constants of containerd and kata. *)
Class AnnotationKeys := {
  SandboxName : string;
  SandboxNamespace : string;
  MachineType : string;
  ImagePath : string;
  DefaultVCPUs : string;
  DefaultMemory : string;
  DefaultGPUs : string
}.

(** A Go map read: a missing key reads as the empty string. *)
Definition map_get (m : gmap string string) (k : string) : string := default EmptyString (m !! k).

Section Annotations.

Context `{AnnotationKeys} (annotations : gmap string string).

Definition GetPodName : string :=
  let sandboxName := map_get annotations SandboxName in
  match split_on "_" sandboxName with
  | k8s :: podName :: _ => if String.eqb k8s "k8s" then podName else sandboxName
  | _ => sandboxName
  end.

Definition GetPodNamespace : string := map_get annotations SandboxNamespace.
Definition GetInstanceTypeFromAnnotation : string := map_get annotations MachineType.
Definition GetImageFromAnnotation : string := map_get annotations ImagePath.

(** A number that does not parse counts as 0. *)
Definition resource (key : string) : Z :=
  match annotations !! key with
  | Some v => default 0 (ParseInt v)
  | None => 0
  end.

Definition GetPodvmResourcesFromAnnotation : Z * Z * Z :=
  (resource DefaultVCPUs, resource DefaultMemory, resource DefaultGPUs).

Definition GetInitdataFromAnnotation (Encode : string -> result string) : result string :=
  let str := map_get annotations "io.katacontainers.config.hypervisor.cc_init_data" in
  if String.eqb str "" then Ok EmptyString
  else match Encode str with
       | Err e => Err (Errorf "failed to encode initdata: %w" [e])
       | Ok initdataEnc => Ok initdataEnc
       end.

End Annotations.

(** ** Data *)

Record WriteFile := mkWriteFile { Path : string; Content : string }.

(** The agent proxy of a sandbox: what [proxyFactory.New] was given. *)
Record AgentProxy := mkProxy { serverName : string; socketPath : string }.

Record sandbox (PN : Type) := mkSandbox {
  agentProxy : AgentProxy;
  podNetwork : PN;
  cloudConfig : list WriteFile;
  sandbox_id : string;
  podName : string;
  podNamespace : string;
  instanceName : string;
  instanceID : string;
  netNSPath : string;
  spec : InstanceTypeSpec;
  sshClientInst : bool
}.
Arguments mkSandbox {PN}.
Arguments agentProxy {PN} s.
Arguments podNetwork {PN} s.
Arguments cloudConfig {PN} s.
Arguments sandbox_id {PN} s.
Arguments podName {PN} s.
Arguments podNamespace {PN} s.
Arguments instanceName {PN} s.
Arguments instanceID {PN} s.
Arguments netNSPath {PN} s.
Arguments spec {PN} s.
Arguments sshClientInst {PN} s.

Definition set_instance {PN} (id name : string) (s : sandbox PN) : sandbox PN :=
  mkSandbox (agentProxy s) (podNetwork s) (cloudConfig s) (sandbox_id s) (podName s)
            (podNamespace s) name id (netNSPath s) (spec s) (sshClientInst s).

(** forwarder.Config *)
Record DaemonConfig (PN : Type) := mkDaemonConfig {
  dc_PodNetwork : PN;
  dc_PodNamespace : string;
  dc_PodName : string;
  dc_TLSServerKey : string;
  dc_TLSServerCert : string;
  dc_TLSClientCA : string;
  dc_PpPrivateKey : string;
  dc_WnPublicKey : string;
  dc_SecureCommsInbounds : string;
  dc_SecureCommsOutbounds : string;
  dc_SecureComms : bool
}.
Arguments mkDaemonConfig {PN}.

Record ServerConfig := mkServerConfig {
  PodsDir : string;
  ForwarderPort : string;
  Initdata : string;
  SecureCommsTrustee : bool;
  SecureCommsPpInbounds : string;
  SecureCommsPpOutbounds : string;
  EnableScratchSpace : bool
}.

Record CreateVMRequest := mkCreateVM {
  req_Id : string;
  req_Annotations : gmap string string;
  req_NetworkNamespacePath : string
}.

(** A pod as the service reads it, and the PeerPod it makes. *)
Record Pod := mkPod { pod_Name : string; pod_Namespace : string; pod_UID : string }.

Record PeerPod := mkPeerPod {
  pp_Name : string;
  pp_Namespace : string;
  pp_Finalizers : list string;
  pp_OwnerUID : string;
  pp_InstanceID : string;
  pp_CloudProvider : string
}.

(** What ends the wait for the agent proxy: its readiness, the end of the proxy
    (with its error), or the cancellation of the request. *)
Inductive StartEvent :=
| ProxyReady
| ProxyExit (e : option GoError)
| CtxDone (e : GoError).

(** ** What the service calls *)

Class CloudEnv (W : Type) `{NetIP} := {
  PodNet : Type;
  ExternalNetViaPodVM : PodNet -> bool;
  Inspect : string -> M W (result (option PodNet));
  Setup : string -> list Addr -> PodNet -> M W (option GoError);
  Teardown : string -> PodNet -> M W (option GoError);
  prov_CreateInstance : string -> string -> list WriteFile -> InstanceTypeSpec ->
                        M W (result (Instance Addr));
  prov_DeleteInstance : string -> M W (option GoError);
  proxy_ClientCA : AgentProxy -> string;
  proxy_CAService : option (string -> M W (result (string * string)));
  proxy_Start : AgentProxy -> string -> M W StartEvent;
  proxy_Shutdown : AgentProxy -> M W (option GoError);
  sshClient : bool;                                   (** [s.sshClient != nil] *)
  InitPP : string -> M W (option string);             (** the peer pod's private key *)
  GetWnPublicKey : string;
  ssh_Start : string -> list Addr -> M W (option GoError);
  ssh_GetPort : string -> string -> string;
  DisconnectPP : string -> M W unit;
  MkdirAll : string -> M W (option GoError);
  os_WriteFile : string -> string -> M W (option GoError);
  MarshalConfig : DaemonConfig PodNet -> result string;
  GetImagePullSecrets : string -> string -> M W (option string * option GoError);
  Encode : string -> result string;
  unicode_ToLower : Z -> Z;                           (** on runes past ASCII *)
  ppService : bool;                                   (** [s.ppService != nil] *)
  cloudProvider : string;
  getPod : string -> string -> M W (result Pod);
  rand_String : M W string;
  PostPeerPod : PeerPod -> M W (option GoError);
  PatchRemoveFinalizers : string -> string -> M W (option GoError)
}.

(** ** State *)

Inductive event (addr : Type) :=
| EvCreate (pod sid : string) (r : result (Instance addr))
| EvDelete (id : string) (e : option GoError)
| EvPost (pp : PeerPod) (e : option GoError)
| EvPatch (name namespace : string) (e : option GoError)
| EvSetup (netns : string) (e : option GoError)
| EvTeardown (netns : string) (e : option GoError).
Arguments EvCreate {addr} pod sid r.
Arguments EvDelete {addr} id e.
Arguments EvPost {addr} pp e.
Arguments EvPatch {addr} name namespace e.
Arguments EvSetup {addr} netns e.
Arguments EvTeardown {addr} netns e.

Record service (W PN addr : Type) := mkService {
  sandboxes : gmap string (sandbox PN);
  podToPP : gmap string string;
  trace : list (event addr);  (** oldest first *)
  world : W
}.
Arguments mkService {W PN addr}.
Arguments sandboxes {W PN addr} s.
Arguments podToPP {W PN addr} s.
Arguments trace {W PN addr} s.
Arguments world {W PN addr} s.

Section Service.

Context {W : Type} `{CloudEnv W} `{AnnotationKeys} `{GoMapOrder}.
Context (serverConfig : ServerConfig).

Notation svc := (service W PodNet Addr).

(** A call out of the service, and one that is recorded. *)
Definition call {A} (m : M W A) : M svc A := fun s =>
  let '(a, w') := m (world s) in (a, mkService (sandboxes s) (podToPP s) (trace s) w').

Definition recorded {A} (ev : A -> event Addr) (m : M W A) : M svc A := fun s =>
  let '(a, w') := m (world s) in
  (a, mkService (sandboxes s) (podToPP s) (trace s ++ [ev a]) w').

Definition with_sandboxes (f : gmap string (sandbox PodNet) -> gmap string (sandbox PodNet))
    (s : svc) : svc :=
  mkService (f (sandboxes s)) (podToPP s) (trace s) (world s).

Definition with_podToPP (f : gmap string string -> gmap string string) (s : svc) : svc :=
  mkService (sandboxes s) (f (podToPP s)) (trace s) (world s).

(** *** Sandboxes *)

Definition addSandbox (sid : string) (sb : sandbox PodNet) : M svc (option GoError) := fun s =>
  match sandboxes s !! sid with
  | Some _ => (Some (Errorf "sandbox %s already exists" []), s)
  | None => (None, with_sandboxes <[sid := sb]> s)
  end.

Definition getSandbox (sid : string) : M svc (result (sandbox PodNet)) := fun s =>
  if String.eqb sid "" then (Err (Errorf "empty sandbox id" []), s)
  else match sandboxes s !! sid with
       | None => (Err (Errorf "sandbox %s does not exist" []), s)
       | Some sb => (Ok sb, s)
       end.

Definition removeSandbox (sid : string) : M svc (option GoError) := fun s =>
  if String.eqb sid "" then (Some (Errorf "empty sandbox id" []), s)
  else (None, with_sandboxes (delete sid) s).

Definition setInstance (sid id name : string) : M svc (option GoError) := fun s =>
  match sandboxes s !! sid with
  | None => (Some (Errorf "sandbox %s does not exist" []), s)
  | Some sb => (None, with_sandboxes <[sid := set_instance id name sb]> s)
  end.

(** *** PeerPod ownership: k8sops/peerpod.go *)

Definition ppFinalizer : string := "peer.pod/finalizer".

Definition newPeerPod (pod : Pod) (instanceId suffix : string) : PeerPod :=
  mkPeerPod (pod_Name pod +:+ "-resource-" +:+ suffix) (pod_Namespace pod) [ppFinalizer]
            (pod_UID pod) instanceId cloudProvider.

Definition OwnPeerPod (podname podns id : string) : M svc (option GoError) :=
  let* r := call (getPod podname podns) in
  match r with
  | Err e => mret (Some e)
  | Ok pod =>
      let* suffix := call rand_String in
      let pp := newPeerPod pod id suffix in
      let* e := recorded (EvPost pp) (PostPeerPod pp) in
      match e with
      | Some err => mret (Some err)
      | None => fun s => (None, with_podToPP <[pod_UID pod := pp_Name pp]> s)
      end
  end.

Definition ReleasePeerPod (podname podns id : string) : M svc (option GoError) :=
  let* r := call (getPod podname podns) in
  match r with
  | Err e => mret (Some e)
  | Ok pod => fun s =>
      match podToPP s !! pod_UID pod with
      | None => (Some (Errorf "pod to PeerPod mapping not found" []), s)
      | Some ownedPPName =>
          (let* e := recorded (EvPatch ownedPPName podns) (PatchRemoveFinalizers ownedPPName podns) in
           match e with
           | Some err => mret (Some err)
           | None => fun s' => (None, with_podToPP (delete (pod_UID pod)) s')
           end) s
      end
  end.

(** *** GetInstanceID

    One scan of the sandboxes, in the order Go visits the map. *)
Definition find_instance (podNs podNm : string) (sbs : gmap string (sandbox PodNet)) : option string :=
  (fun kv => instanceID kv.2) <$>
  List.find (fun kv => (String.eqb (podNamespace kv.2) podNs && String.eqb (podName kv.2) podNm)%bool)
            (map_order sbs).

(** The loop around [cond.Wait]: [wakeups] are the sandboxes seen at each
    wake-up, with the error of the context when it was done at that time.  The
    result is [None] while the call is still waiting. *)
Fixpoint GetInstanceID (podNs podNm : string) (wait : bool)
    (wakeups : list (gmap string (sandbox PodNet) * option GoError)) : option (result string) :=
  match wakeups with
  | [] => None
  | (sbs, ctxErr) :: rest =>
      match find_instance podNs podNm sbs with
      | Some id => Some (Ok id)
      | None =>
          if negb wait then Some (Ok EmptyString)
          else match ctxErr with
               | Some e => Some (Err (Errorf "getting instance ID: %w" [e]))
               | None => GetInstanceID podNs podNm wait rest
               end
      end
  end.

(** vminfo/service.go: [GetInfo]. *)
Definition GetInfo (podNs podNm : string) (wait : bool)
    (wakeups : list (gmap string (sandbox PodNet) * option GoError)) : option (result string) :=
  match GetInstanceID podNs podNm wait wakeups with
  | None => None
  | Some (Err e) => Some (Err (Errorf "getting VM ID for %s:%s: %s" []))
  | Some (Ok id) =>
      if String.eqb id "" then Some (Err (Errorf "VM ID for %s:%s was not found" []))
      else Some (Ok id)
  end.

(** *** CreateVM *)

Definition SocketName : string := "agent.ttrpc".
Definition DefaultConfigPath : string := "/run/peerpod/apf.json".
Definition AuthFilePath : string := "/run/peerpod/auth.json".
Definition InitDataPath : string := "/run/peerpod/initdata".
Definition ScratchSpacePath : string := "/run/peerpod/scratch-space.marker".
Definition DefaultAuthfileLimit : Z := 12288.

(** The server certificate and key, empty without a CA service. *)
Definition issue_certificate (name : string) : M svc (result (string * string)) :=
  match proxy_CAService with
  | None => mret (Ok (EmptyString, EmptyString))
  | Some Issue =>
      let* r := call (Issue name) in
      mret match r with
           | Err _ => Err (Errorf "creating TLS certificate for communication between worker node and peer pod VM" [])
           | Ok certKey => Ok certKey
           end
  end.

(** The ssh client instance, if ssh is used, with the peer pod's key. *)
Definition init_ssh (sid : string) : M svc (result (option string)) :=
  if sshClient then
    let* r := call (InitPP sid) in
    mret match r with
         | None => Err (Errorf "failed sshClient.InitPP" [])
         | Some ppPrivateKey => Ok (Some ppPrivateKey)
         end
  else mret (Ok None).

Definition daemon_config (podNet : PodNet) (pod namespace : string) (proxy : AgentProxy)
    (certPEM keyPEM : string) (ssh : option string) : DaemonConfig PodNet :=
  match ssh with
  | Some ppPrivateKey =>
      if SecureCommsTrustee serverConfig then
        mkDaemonConfig podNet namespace pod keyPEM certPEM (proxy_ClientCA proxy)
          EmptyString EmptyString EmptyString EmptyString false
      else
        mkDaemonConfig podNet namespace pod keyPEM certPEM (proxy_ClientCA proxy)
          ppPrivateKey GetWnPublicKey (SecureCommsPpInbounds serverConfig)
          (SecureCommsPpOutbounds serverConfig) true
  | None =>
      mkDaemonConfig podNet namespace pod keyPEM certPEM (proxy_ClientCA proxy)
        EmptyString EmptyString EmptyString EmptyString false
  end.

(** The files of the cloud-config, in the order they are appended. *)
Definition cloud_files (apfJSON : string) (authJSON : option string) (initdata : string)
    : list WriteFile :=
  [mkWriteFile DefaultConfigPath apfJSON] ++
  match authJSON with
  | Some auth =>
      if DefaultAuthfileLimit <? Z.of_nat (String.length auth) then []
      else [mkWriteFile AuthFilePath auth]
  | None => []
  end ++
  (let initdataEnc :=
     if (String.eqb initdata "" && negb (String.eqb (Initdata serverConfig) ""))%bool
     then Initdata serverConfig else initdata in
   if String.eqb initdataEnc "" then [] else [mkWriteFile InitDataPath initdataEnc]) ++
  (if EnableScratchSpace serverConfig then [mkWriteFile ScratchSpacePath EmptyString] else []).

(** From the marshalled configuration to the new sandbox. *)
Definition CreateVM_store (req : CreateVMRequest) (podNet : PodNet) (vmSpec : InstanceTypeSpec)
    (proxy : AgentProxy) (podDir apfJSON : string) (ssh : option string) : M svc (result string) :=
  let sid := req_Id req in
  let pod := GetPodName (req_Annotations req) in
  let namespace := GetPodNamespace (req_Annotations req) in
  let* e := call (os_WriteFile (filepath_Join [podDir; "apf.json"]) apfJSON) in
  match e with
  | Some err => mret (Err (Errorf "storing %s: %w" [err]))
  | None =>
      let* auth := call (GetImagePullSecrets pod namespace) in
      match GetInitdataFromAnnotation (req_Annotations req) Encode with
      | Err err => mret (Err (Errorf "failed to set initdata from annotation: %w" [err]))
      | Ok initdata =>
          let sb := mkSandbox proxy podNet (cloud_files apfJSON (fst auth) initdata) sid pod namespace
                      EmptyString EmptyString (req_NetworkNamespacePath req) vmSpec
                      (match ssh with Some _ => true | None => false end) in
          let* a := addSandbox sid sb in
          mret match a with
               | Some err => Err (Errorf "adding sandbox: %w" [err])
               | None => Ok (socketPath proxy)
               end
      end
  end.

(** From the pod directory on. *)
Definition CreateVM_prepare (req : CreateVMRequest) (podNet : PodNet) (vmSpec : InstanceTypeSpec)
    (name : string) : M svc (result string) :=
  let sid := req_Id req in
  let pod := GetPodName (req_Annotations req) in
  let namespace := GetPodNamespace (req_Annotations req) in
  let podDir := filepath_Join [PodsDir serverConfig; sid] in
  let* e := call (MkdirAll podDir) in
  match e with
  | Some err => mret (Err (Errorf "creating a pod directory: %s, %w" [err]))
  | None =>
      let proxy := mkProxy name (filepath_Join [podDir; SocketName]) in
      let* c := issue_certificate name in
      match c with
      | Err err => mret (Err err)
      | Ok (certPEM, keyPEM) =>
          let* i := init_ssh sid in
          match i with
          | Err err => mret (Err err)
          | Ok ssh =>
              match MarshalConfig (daemon_config podNet pod namespace proxy certPEM keyPEM ssh) with
              | Err err => mret (Err (Errorf "generating JSON data: %w" [err]))
              | Ok apfJSON => CreateVM_store req podNet vmSpec proxy podDir apfJSON ssh
              end
          end
      end
  end.

Definition CreateVM (req : CreateVMRequest) : M svc (outcome (result string)) :=
  let sid := req_Id req in
  let ann := req_Annotations req in
  let pod := GetPodName ann in
  let namespace := GetPodNamespace ann in
  if String.eqb sid "" then mret (Return (Err (Errorf "empty sandbox id" [])))
  else if String.eqb pod "" then
    mret (Return (Err (Errorf "pod name %s is missing in annotations" [])))
  else if String.eqb namespace "" then
    mret (Return (Err (Errorf "namespace name %s is missing in annotations" [])))
  else
    let '(vcpus, memory, gpus) := GetPodvmResourcesFromAnnotation ann in
    let* r := call (Inspect (req_NetworkNamespacePath req)) in
    match r with
    | Err err => mret (Return (Err (Errorf "failed to inspect netns %s: %w" [err])))
    | Ok None => mret (Return (Err (Errorf "pod network config is nil" [])))
    | Ok (Some podNet) =>
        let vmSpec := mkSpec (GetInstanceTypeFromAnnotation ann) vcpus memory EmptyString gpus
                        (GetImageFromAnnotation ann) (ExternalNetViaPodVM podNet) in
        match GenerateInstanceName unicode_ToLower pod sid 63 with
        | Panic => mret Panic
        | Return name => let* x := CreateVM_prepare req podNet vmSpec name in mret (Return x)
        end
    end.

(** *** StartVM

    Up to the instance: another handler may run before the instance is recorded. *)
Definition StartVM_create (sid : string) : M svc (result (sandbox PodNet * Instance Addr)) :=
  let* r := getSandbox sid in
  match r with
  | Err err => mret (Err (Errorf "getting sandbox: %w" [err]))
  | Ok sb =>
      let* c := recorded (EvCreate (podName sb) sid)
                  (prov_CreateInstance (podName sb) sid (cloudConfig sb) (spec sb)) in
      match c with
      | Err err => mret (Err (Errorf "creating an instance : %w" [err]))
      | Ok instance => mret (Ok (sb, instance))
      end
  end.

Definition connect_ssh (sid : string) (ips : list Addr) : M svc (option GoError) :=
  if sshClient then call (ssh_Start sid ips) else mret None.

Definition own_instance (sb : sandbox PodNet) (id : string) : M svc (option GoError) :=
  if ppService then OwnPeerPod (podName sb) (podNamespace sb) id else mret None.

(** The network tunnel and the agent proxy.  [Ok true] is a response, [Ok false]
    a nil response without an error, when the proxy ends without one before it
    is ready. *)
Definition StartVM_connect (sid : string) (sb : sandbox PodNet) (ips : list Addr) (ip0 : Addr)
    : M svc (result bool) :=
  let* s := connect_ssh sid ips in
  match s with
  | Some err => mret (Err (Errorf "failed SshClientInstance.Start: %w" [err]))
  | None =>
      let instanceIP := if sshClient then "127.0.0.1" else Addr_String ip0 in
      let forwarderPort :=
        if sshClient then ssh_GetPort sid "KATAAGENT" else ForwarderPort serverConfig in
      let* e := recorded (EvSetup (netNSPath sb)) (Setup (netNSPath sb) ips (podNetwork sb)) in
      match e with
      | Some err => mret (Err (Errorf "setting up pod network tunnel on netns %s: %w" [err]))
      | None =>
          let serverURL := "http://" +:+ JoinHostPort instanceIP forwarderPort +:+ "/agent" in
          let* st := call (proxy_Start (agentProxy sb) serverURL) in
          match st with
          | CtxDone err =>
              let* _e := call (proxy_Shutdown (agentProxy sb)) in mret (Err err)
          | ProxyExit (Some err) => mret (Err err)
          | ProxyExit None => mret (Ok false)
          | ProxyReady => mret (Ok true)
          end
      end
  end.

Definition StartVM_finish (sid : string) (sb : sandbox PodNet) (instance : Instance Addr)
    : M svc (result bool) :=
  let* _o := own_instance sb (ID instance) in
  let* e := setInstance sid (ID instance) (Name instance) in
  match e with
  | Some err => mret (Err (Errorf "setting instance: %w" [err]))
  | None =>
      match IPs instance with
      | [] => mret (Err (Errorf "instance IP is not available" []))
      | ip0 :: _ => StartVM_connect sid sb (IPs instance) ip0
      end
  end.

Definition StartVM (sid : string) : M svc (result bool) :=
  let* r := StartVM_create sid in
  match r with
  | Err e => mret (Err e)
  | Ok (sb, instance) => StartVM_finish sid sb instance
  end.

(** *** StopVM *)

Definition disconnect (sid : string) (sb : sandbox PodNet) : M svc unit :=
  if sshClientInst sb then call (DisconnectPP sid) else mret tt.

(** The PeerPod is released when the provider reported no error. *)
Definition release_deleted (d : option GoError) (sb : sandbox PodNet) : M svc (option GoError) :=
  match d with
  | Some _ => mret None
  | None =>
      if ppService then ReleasePeerPod (podName sb) (podNamespace sb) (instanceID sb)
      else mret None
  end.

Definition StopVM (sid : string) : M svc (result unit) :=
  let* r := getSandbox sid in
  match r with
  | Err err => mret (Err (Errorf "stopping VM: %v" []))
  | Ok sb =>
      let* _p := call (proxy_Shutdown (agentProxy sb)) in
      let* _d := disconnect sid sb in
      let* d := recorded (EvDelete (instanceID sb)) (prov_DeleteInstance (instanceID sb)) in
      let* _r := release_deleted d sb in
      let* _t := recorded (EvTeardown (netNSPath sb)) (Teardown (netNSPath sb) (podNetwork sb)) in
      let* _x := removeSandbox sid in
      mret (Ok tt)
  end.

End Service.
