(* ===== verification/CloudServiceProps.v ===== *)
(** * Properties of the hypervisor service

    What each handler of CloudService does to the sandboxes and to the trace of
    calls, and what follows for every run: sandboxes are unique, a created
    instance is not lost, and a PeerPod loses its finalizer only after the
    provider has confirmed the deletion. *)

From Stdlib Require Import ZArith Ascii String Lia.
From stdpp Require Import base gmap strings list fin_maps.
From S2P Require Import Prelude InstanceTypes NetAddr CloudService.

Open Scope Z_scope.

Section Handlers.

Context {W : Type} `{CloudEnv W} `{AnnotationKeys} `{GoMapOrder}.
Context (serverConfig : ServerConfig).

Notation svc := (service W PodNet Addr).

(** ** Lemmas: what a piece of a handler leaves alone

    [frame evs s s']: the sandboxes are untouched and the calls [evs] were
    recorded. *)
Definition frame (evs : list (event Addr)) (s s' : svc) : Prop :=
  sandboxes s' = sandboxes s /\ trace s' = trace s ++ evs.

Lemma frame_refl s : frame [] s s.
Proof. split; [done|by rewrite app_nil_r]. Qed.

Lemma frame_trans e1 e2 s1 s2 s3 : frame e1 s1 s2 -> frame e2 s2 s3 -> frame (e1 ++ e2) s1 s3.
Proof. intros [? Ht] [? Ht']. split; [congruence|]. by rewrite Ht', Ht, app_assoc. Qed.

Lemma call_frame {A} (m : M W A) s a s' :
  call m s = (a, s') -> frame [] s s' /\ podToPP s' = podToPP s.
Proof.
  unfold call. destruct (m (world s)). intros [= <- <-]. split; [|done]. split; [done|].
  by rewrite app_nil_r.
Qed.

Lemma recorded_frame {A} ev (m : M W A) s a s' :
  recorded ev m s = (a, s') -> frame [ev a] s s' /\ podToPP s' = podToPP s.
Proof. unfold recorded. destruct (m (world s)). by intros [= <- <-]. Qed.

(** Events that concern PeerPods. *)
Definition is_post (e : event Addr) : Prop := match e with EvPost _ _ => True | _ => False end.
Definition is_patch (e : event Addr) : Prop := match e with EvPatch _ _ _ => True | _ => False end.

Lemma OwnPeerPod_frame pod ns id s e s' :
  OwnPeerPod pod ns id s = (e, s') -> exists evs, frame evs s s' /\ Forall is_post evs.
Proof.
  unfold OwnPeerPod, mbind, mret. destruct (call (getPod pod ns) s) as [r s1] eqn:E1.
  apply call_frame in E1 as [F1 _]. destruct r as [p|err]; [|intros [= <- <-]; by exists []].
  destruct (call rand_String s1) as [suffix s2] eqn:E2. apply call_frame in E2 as [F2 _].
  destruct (recorded _ _ s2) as [x s3] eqn:E3. apply recorded_frame in E3 as [F3 _].
  pose proof (frame_trans _ _ _ _ _ F1 (frame_trans _ _ _ _ _ F2 F3)) as F. simpl in F.
  destruct x; intros [= <- <-]; eexists; (split; [exact F|by repeat constructor]).
Qed.

Lemma ReleasePeerPod_frame pod ns id s e s' :
  ReleasePeerPod pod ns id s = (e, s') ->
  exists evs, frame evs s s' /\ (evs = [] \/ exists n x, evs = [EvPatch n ns x]).
Proof.
  unfold ReleasePeerPod, mbind, mret. destruct (call (getPod pod ns) s) as [r s1] eqn:E1.
  apply call_frame in E1 as [F1 _]. destruct r as [p|err]; [|intros [= <- <-]; eauto].
  destruct (podToPP s1 !! pod_UID p) as [name|]; [|intros [= <- <-]; eauto].
  destruct (recorded _ _ s1) as [x s2] eqn:E2. apply recorded_frame in E2 as [F2 _].
  pose proof (frame_trans _ _ _ _ _ F1 F2) as F. simpl in F.
  destruct x; intros [= <- <-]; eexists; (split; [exact F|eauto]).
Qed.

(** ** Lemmas: the handlers *)

Lemma CreateVM_store_spec req podNet vmSpec proxy podDir apfJSON ssh s r s' :
  CreateVM_store serverConfig req podNet vmSpec proxy podDir apfJSON ssh s = (r, s') ->
  trace s' = trace s /\ podToPP s' = podToPP s /\
  match r with
  | Err _ => sandboxes s' = sandboxes s
  | Ok path => sandboxes s !! req_Id req = None /\ path = socketPath proxy /\
      exists sb, sandboxes s' = <[req_Id req := sb]> (sandboxes s) /\ agentProxy sb = proxy /\
        sandbox_id sb = req_Id req /\ podName sb = GetPodName (req_Annotations req) /\
        podNamespace sb = GetPodNamespace (req_Annotations req) /\ instanceID sb = "" /\
        podNetwork sb = podNet /\ spec sb = vmSpec
  end.
Proof.
  unfold CreateVM_store, mbind, mret.
  destruct (call (os_WriteFile _ _) s) as [e s1] eqn:E1. apply call_frame in E1 as [[F1 T1] P1].
  rewrite app_nil_r in T1. destruct e; [by intros [= <- <-]|].
  destruct (call (GetImagePullSecrets _ _) s1) as [auth s2] eqn:E2. apply call_frame in E2 as [[F2 T2] P2].
  rewrite app_nil_r in T2. rewrite <- F1, <- T1, <- P1, <- F2, <- T2, <- P2.
  destruct (GetInitdataFromAnnotation _ _); [|by intros [= <- <-]].
  unfold addSandbox. destruct (sandboxes s2 !! req_Id req) eqn:El; [by intros [= <- <-]|].
  intros [= <- <-]. repeat split; [done..|]. eexists. by repeat split.
Qed.

Lemma init_ssh_frame sid s r s' :
  init_ssh sid s = (r, s') -> frame [] s s' /\ podToPP s' = podToPP s.
Proof.
  unfold init_ssh, mbind, mret. destruct sshClient.
  - destruct (call (InitPP sid) s) as [o s1] eqn:E. apply call_frame in E. by destruct o; intros [= <- <-].
  - intros [= <- <-]. split; [apply frame_refl|done].
Qed.

Lemma issue_certificate_frame name s r s' :
  issue_certificate name s = (r, s') -> frame [] s s' /\ podToPP s' = podToPP s.
Proof.
  unfold issue_certificate, mbind, mret. destruct proxy_CAService as [Issue|].
  - destruct (call (Issue name) s) as [o s1] eqn:E. apply call_frame in E. by destruct o; intros [= <- <-].
  - intros [= <- <-]. split; [apply frame_refl|done].
Qed.

Lemma CreateVM_prepare_spec req podNet vmSpec name s r s' :
  CreateVM_prepare serverConfig req podNet vmSpec name s = (r, s') ->
  trace s' = trace s /\ podToPP s' = podToPP s /\
  match r with
  | Err _ => sandboxes s' = sandboxes s
  | Ok path => sandboxes s !! req_Id req = None /\
      path = filepath_Join [filepath_Join [PodsDir serverConfig; req_Id req]; SocketName] /\
      exists sb, sandboxes s' = <[req_Id req := sb]> (sandboxes s) /\
        sandbox_id sb = req_Id req /\ podName sb = GetPodName (req_Annotations req) /\
        podNamespace sb = GetPodNamespace (req_Annotations req) /\ instanceID sb = ""
  end.
Proof.
  unfold CreateVM_prepare, mbind, mret.
  destruct (call (MkdirAll _) s) as [e s2] eqn:E2. apply call_frame in E2 as [[F2 T2] P2].
  rewrite app_nil_r in T2. destruct e; [intros [= <- <-]; by repeat split; congruence|].
  destruct (issue_certificate _ s2) as [c s3] eqn:E3. apply issue_certificate_frame in E3 as [[F3 T3] P3].
  rewrite app_nil_r in T3. destruct c as [[certPEM keyPEM]|]; [|intros [= <- <-]; by repeat split; congruence].
  destruct (init_ssh _ s3) as [i s4] eqn:E4. apply init_ssh_frame in E4 as [[F4 T4] P4].
  rewrite app_nil_r in T4. destruct i as [ssh|]; [|intros [= <- <-]; by repeat split; congruence].
  destruct (MarshalConfig _) as [apfJSON|]; [|intros [= <- <-]; by repeat split; congruence].
  intros E5. apply CreateVM_store_spec in E5 as (T5 & P5 & Hr).
  assert (sandboxes s4 = sandboxes s) as Es by congruence. rewrite Es in Hr.
  split; [congruence|]. split; [congruence|]. destruct r as [path|]; [|congruence].
  destruct Hr as (? & -> & sb & ? & Ep & ? & ? & ? & ? & _). split; [done|]. split; [done|].
  by exists sb.
Qed.

Lemma CreateVM_spec req s :
  let '(r, s') := CreateVM serverConfig req s in
  trace s' = trace s /\ podToPP s' = podToPP s /\
  match r with
  | Panic => False
  | Return (Err _) => sandboxes s' = sandboxes s
  | Return (Ok path) => req_Id req <> "" /\ sandboxes s !! req_Id req = None /\
      path = filepath_Join [filepath_Join [PodsDir serverConfig; req_Id req]; SocketName] /\
      exists sb, sandboxes s' = <[req_Id req := sb]> (sandboxes s) /\
        sandbox_id sb = req_Id req /\ podName sb = GetPodName (req_Annotations req) /\
        podNamespace sb = GetPodNamespace (req_Annotations req) /\ instanceID sb = ""
  end.
Proof.
  unfold CreateVM. cbv zeta. destruct (String.eqb (req_Id req) "") eqn:Ei; [by repeat split|]. apply String.eqb_neq in Ei.
  destruct (String.eqb _ ""); [by repeat split|]. destruct (String.eqb _ ""); [by repeat split|].
  destruct (GetPodvmResourcesFromAnnotation _) as [[vcpus memory] gpus].
  unfold mbind, mret. destruct (call (Inspect _) s) as [r s1] eqn:E1.
  apply call_frame in E1 as [[F1 T1] P1]. rewrite app_nil_r in T1.
  destruct r as [[podNet|]|err]; [|by repeat split..].
  destruct (GenerateInstanceName _ _ _ 63) as [name|] eqn:En.
  2:{ unfold GenerateInstanceName in En. change (Z.of_nat (String.length podvmNamePrefix)) with 5 in En.
      destruct (_ && _)%bool; [|done]. by destruct (63 - 5 - 10 <? 0) eqn:E. }
  clear En. destruct (CreateVM_prepare _ _ _ _ _ s1) as [x s2] eqn:E2.
  apply CreateVM_prepare_spec in E2 as (T2 & P2 & Hr). rewrite F1 in Hr.
  split; [congruence|]. split; [congruence|]. by destruct x; [split|].
Qed.

(** C7: CreateVM is all or nothing and never replaces a sandbox.  It does not
    panic on any request; when it fails, no sandbox is added or changed; when it
    succeeds, the id was not in use, one sandbox was added for the pod and
    namespace of the annotations, without an instance, and the returned socket
    is the one of the pod's own directory.  No instance is created or deleted. *)
Theorem CreateVM_all_or_nothing req s :
  let '(r, s') := CreateVM serverConfig req s in
  trace s' = trace s /\ podToPP s' = podToPP s /\
  match r with
  | Panic => False
  | Return (Err _) => sandboxes s' = sandboxes s
  | Return (Ok path) => sandboxes s !! req_Id req = None /\
      path = filepath_Join [filepath_Join [PodsDir serverConfig; req_Id req]; SocketName] /\
      exists sb, sandboxes s' = <[req_Id req := sb]> (sandboxes s) /\
        sandbox_id sb = req_Id req /\ podName sb = GetPodName (req_Annotations req) /\
        podNamespace sb = GetPodNamespace (req_Annotations req) /\ instanceID sb = ""
  end.
Proof.
  pose proof (CreateVM_spec req s) as Hc. destruct (CreateVM _ _ _) as [[[path|]|] s']; [|done..].
  by destruct Hc as (? & ? & _ & ?).
Qed.

(** All that the invariants need of CreateVM. *)
Lemma CreateVM_frame req s :
  let '(r, s') := CreateVM serverConfig req s in
  trace s' = trace s /\
  (sandboxes s' = sandboxes s \/
   exists sid sb, sandboxes s' = <[sid := sb]> (sandboxes s) /\ sandboxes s !! sid = None).
Proof.
  unfold CreateVM. cbv zeta. destruct (String.eqb _ ""); [by split; [|left]|].
  destruct (String.eqb _ ""); [by split; [|left]|]. destruct (String.eqb _ ""); [by split; [|left]|].
  destruct (GetPodvmResourcesFromAnnotation _) as [[vcpus memory] gpus].
  unfold mbind, mret. destruct (call (Inspect _) s) as [r s1] eqn:E1.
  apply call_frame in E1 as [[F1 T1] _]. rewrite app_nil_r in T1.
  destruct r as [[podNet|]|err]; [|by split; [|left]..].
  destruct (GenerateInstanceName _ _ _ 63) as [name|]; [|by split; [|left]].
  destruct (CreateVM_prepare _ _ _ _ _ s1) as [x s2] eqn:E2.
  apply CreateVM_prepare_spec in E2 as (T2 & P2 & Hr). rewrite F1 in Hr.
  split; [congruence|]. destruct x; [right|by left]. destruct Hr as (? & _ & sb & ? & _). eauto.
Qed.

Lemma StopVM_spec sid sb s :
  sid <> "" -> sandboxes s !! sid = Some sb ->
  exists s' d patch t, StopVM sid s = (Ok tt, s') /\
    sandboxes s' = delete sid (sandboxes s) /\
    trace s' = trace s ++ [EvDelete (instanceID sb) d] ++ patch ++ [EvTeardown (netNSPath sb) t] /\
    (patch = [] \/ d = None /\ exists n x, patch = [EvPatch n (podNamespace sb) x]).
Proof.
  intros Hsid Hsb. unfold StopVM, getSandbox, removeSandbox, mbind, mret. apply String.eqb_neq in Hsid.
  rewrite Hsid, Hsb.
  destruct (call (proxy_Shutdown _) s) as [p s1] eqn:E1. apply call_frame in E1 as [F1 _].
  destruct (disconnect sid sb s1) as [u s2] eqn:E2.
  assert (frame [] s1 s2) as F2.
  { unfold disconnect, mret in E2. destruct (sshClientInst sb); [by apply call_frame in E2 as [? _]|]. simplify_eq. apply frame_refl. }
  destruct (recorded _ _ s2) as [d s3] eqn:E3. apply recorded_frame in E3 as [F3 _].
  destruct (release_deleted d sb s3) as [x s4] eqn:E4.
  assert (exists patch, frame patch s3 s4 /\
    (patch = [] \/ d = None /\ exists n x, patch = [EvPatch n (podNamespace sb) x])) as (patch & F4 & Hp).
  { unfold release_deleted, mret in E4. destruct d; [simplify_eq; exists []; split; [apply frame_refl|by left]|].
    destruct ppService; [|simplify_eq; exists []; split; [apply frame_refl|by left]].
    apply ReleasePeerPod_frame in E4 as (evs & F4 & [->|Hp]); eauto 10. }
  destruct (recorded _ _ s4) as [t s5] eqn:E5. apply recorded_frame in E5 as [F5 _].
  pose proof (frame_trans _ _ _ _ _ F1 (frame_trans _ _ _ _ _ F2 (frame_trans _ _ _ _ _ F3
    (frame_trans _ _ _ _ _ F4 F5)))) as [Fs Ft]. simpl in Ft.
  eexists _, d, patch, t. split; [reflexivity|]. simpl. by rewrite Fs, Ft.
Qed.

(** C6: StopVM always cleans up: for a sandbox it knows, whatever fails on the
    way, it reports success, forgets exactly that sandbox, asks the provider to
    delete its instance, tears its network down, and removes the finalizer of
    the pod's PeerPod only if the provider has confirmed the deletion. *)
Theorem StopVM_cleans_up sid sb s :
  sid <> "" -> sandboxes s !! sid = Some sb ->
  exists s' d patch t, StopVM sid s = (Ok tt, s') /\
    sandboxes s' = delete sid (sandboxes s) /\
    trace s' = trace s ++ [EvDelete (instanceID sb) d] ++ patch ++ [EvTeardown (netNSPath sb) t] /\
    (patch = [] \/ d = None /\ exists n x, patch = [EvPatch n (podNamespace sb) x]).
Proof. apply StopVM_spec. Qed.

Lemma StopVM_unknown sid s :
  sid = "" \/ sandboxes s !! sid = None -> exists e, StopVM sid s = (Err e, s).
Proof.
  unfold StopVM, getSandbox, mbind, mret. intros [->|Hs]; [by eexists|].
  destruct (String.eqb sid ""); [by eexists|]. rewrite Hs. by eexists.
Qed.

Lemma StartVM_create_spec sid s r s' :
  StartVM_create sid s = (r, s') ->
  match r with
  | Ok (sb, inst) => sid <> "" /\ sandboxes s !! sid = Some sb /\ frame [EvCreate (podName sb) sid (Ok inst)] s s'
  | Err _ => s' = s \/ exists sb e, sandboxes s !! sid = Some sb /\ frame [EvCreate (podName sb) sid (Err e)] s s'
  end.
Proof.
  unfold StartVM_create, getSandbox, mbind, mret.
  destruct (String.eqb sid "") eqn:Es; [intros [= <- <-]; by left|]. bool_to_prop.
  destruct (sandboxes s !! sid) as [sb|] eqn:Esb; [|intros [= <- <-]; by left].
  destruct (recorded _ _ s) as [c s1] eqn:E1. apply recorded_frame in E1 as [F1 _].
  destruct c; intros [= <- <-]; eauto.
Qed.

Definition is_setup (e : event Addr) : Prop := match e with EvSetup _ _ => True | _ => False end.

Lemma StartVM_connect_frame sid sb ips ip0 s r s' :
  StartVM_connect serverConfig sid sb ips ip0 s = (r, s') ->
  exists evs, frame evs s s' /\ Forall is_setup evs.
Proof.
  unfold StartVM_connect, mbind, mret.
  destruct (connect_ssh sid ips s) as [x s1] eqn:E1.
  assert (frame [] s s1) as F1.
  { unfold connect_ssh, mret in E1. destruct sshClient; [by apply call_frame in E1 as [? _]|]. simplify_eq. apply frame_refl. }
  destruct x; [intros [= <- <-]; by exists []|].
  destruct (recorded _ _ s1) as [e s2] eqn:E2. apply recorded_frame in E2 as [F2 _].
  pose proof (frame_trans _ _ _ _ _ F1 F2) as F12. simpl in F12.
  destruct e; [intros [= <- <-]; eexists; split; [exact F12|by repeat constructor]|].
  destruct (call (proxy_Start _ _) s2) as [st s3] eqn:E3. apply call_frame in E3 as [F3 _].
  pose proof (frame_trans _ _ _ _ _ F12 F3) as F. simpl in F.
  destruct st as [|[]|]; [intros [= <- <-]; eexists; (split; [exact F|by repeat constructor])..|].
  destruct (call (proxy_Shutdown _) s3) as [q s4] eqn:E4. apply call_frame in E4 as [F4 _].
  pose proof (frame_trans _ _ _ _ _ F F4) as F'. simpl in F'.
  intros [= <- <-]. eexists. split; [exact F'|by repeat constructor].
Qed.

(** Events that neither create nor delete an instance. *)
Definition neutral (e : event Addr) : Prop :=
  match e with EvPost _ _ | EvSetup _ _ => True | _ => False end.

Lemma StartVM_finish_spec sid sb inst s r s' :
  StartVM_finish serverConfig sid sb inst s = (r, s') ->
  exists evs, trace s' = trace s ++ evs /\ Forall neutral evs /\
    match sandboxes s !! sid with
    | Some sb0 => sandboxes s' = <[sid := set_instance (ID inst) (Name inst) sb0]> (sandboxes s)
    | None => sandboxes s' = sandboxes s /\ is_ok r = false
    end.
Proof.
  unfold StartVM_finish, setInstance, mbind, mret.
  destruct (own_instance sb (ID inst) s) as [o s1] eqn:E1.
  assert (exists evs, frame evs s s1 /\ Forall neutral evs) as (evs1 & [F1 T1] & N1).
  { unfold own_instance, mret in E1. destruct ppService; [|simplify_eq; exists []; split; [apply frame_refl|done]].
    apply OwnPeerPod_frame in E1 as (evs & F & Hn). exists evs. split; [done|].
    eapply Forall_impl; [exact Hn|]. by intros []. }
  rewrite F1. destruct (sandboxes s !! sid) as [sb0|] eqn:Esb.
  2:{ intros [= <- <-]. exists evs1. by repeat split. }
  destruct (IPs inst) as [|ip0 ips]; [intros [= <- <-]; exists evs1; simpl; by rewrite F1|].
  intros E2. apply StartVM_connect_frame in E2 as (evs2 & [F2 T2] & N2). simpl in F2, T2.
  exists (evs1 ++ evs2). rewrite T2, T1, app_assoc. split; [done|]. split.
  - apply Forall_app. split; [done|]. eapply Forall_impl; [exact N2|]. by intros [].
  - by rewrite F2, F1.
Qed.

(** ** Every run

    The handlers in any order, with any ids and any answers of what they call;
    between them the world may change.  kata starts a VM once: StartVM is not
    called again for a sandbox that has its instance. *)
Inductive service_step (s : svc) : svc -> Prop :=
| step_CreateVM req r s' : CreateVM serverConfig req s = (r, s') -> service_step s s'
| step_StartVM sid r s' :
    (forall sb, sandboxes s !! sid = Some sb -> instanceID sb = "") ->
    StartVM serverConfig sid s = (r, s') -> service_step s s'
| step_StopVM sid r s' : StopVM sid s = (r, s') -> service_step s s'
| step_world w : service_step s (mkService (sandboxes s) (podToPP s) (trace s) w).

Definition fresh_service (s : svc) : Prop := sandboxes s = ∅ /\ trace s = [].

(** The instances created and not deleted, according to the provider. *)
Definition live_step (live : gset string) (e : event Addr) : gset string :=
  match e with
  | EvCreate _ _ (Ok inst) => {[ID inst]} ∪ live
  | EvDelete id None => live ∖ {[id]}
  | _ => live
  end.

Definition outstanding (tr : list (event Addr)) : gset string := foldl live_step ∅ tr.

Lemma live_neutral evs live : Forall neutral evs -> foldl live_step live evs = live.
Proof. intros Hn. revert live. induction Hn as [|e evs He _ IH]; intros live; [done|]. simpl. destruct e; done || apply IH. Qed.

(** How the service accounts for an instance. *)
Definition accounted (s : svc) (id : string) : Prop :=
  (exists sid sb, sandboxes s !! sid = Some sb /\ instanceID sb = id) \/
  (exists e, EvDelete id (Some e) ∈ trace s).

Definition no_loss (s : svc) : Prop :=
  "" ∉ outstanding (trace s) /\ forall id, id ∈ outstanding (trace s) -> accounted s id.

Lemma no_loss_same s s' :
  sandboxes s' = sandboxes s -> trace s' = trace s -> no_loss s -> no_loss s'.
Proof. unfold no_loss, accounted. by intros -> ->. Qed.

Lemma CreateVM_no_loss req s r s' : CreateVM serverConfig req s = (r, s') -> no_loss s -> no_loss s'.
Proof.
  intros E [He Ha]. pose proof (CreateVM_frame req s) as Hc. rewrite E in Hc.
  destruct Hc as (Ht & Hsb). split; [by rewrite Ht|]. intros id. rewrite Ht. intros Hid.
  destruct (Ha id Hid) as [(sid & sb & Hl & Hi)|Hd]; [left|right; by rewrite Ht].
  exists sid, sb. split; [|done]. destruct Hsb as [->|(sid' & sb' & -> & Hnew)]; [done|].
  rewrite lookup_insert_ne; [done|]. intros ->. congruence.
Qed.

Lemma StopVM_no_loss sid s r s' : StopVM sid s = (r, s') -> no_loss s -> no_loss s'.
Proof.
  intros E [He Ha]. destruct (decide (sid = "" \/ sandboxes s !! sid = None)) as [Hno|Hyes].
  { apply StopVM_unknown in Hno as [e Hno]. rewrite E in Hno. by simplify_eq. }
  destruct (sandboxes s !! sid) as [sb|] eqn:Esb; [|tauto].
  destruct (StopVM_spec sid sb s ltac:(tauto) Esb) as (s1 & d & patch & t & Es & Hs & Ht & Hp). rewrite E in Es. injection Es as -> <-.
  assert (outstanding (trace s') = live_step (outstanding (trace s)) (EvDelete (instanceID sb) d)) as Eo.
  { unfold outstanding. rewrite Ht, foldl_app. simpl.
    destruct Hp as [->|(_ & n & x & ->)]; by destruct d. }
  assert (outstanding (trace s') ⊆ outstanding (trace s)) as Hsub.
  { rewrite Eo. destruct d; simpl; set_solver. }
  split; [set_solver|]. intros id Hid. pose proof (Hsub id Hid) as Hid0.
  destruct (Ha id Hid0) as [(sid' & sb' & Hl & Hi)|[e Hd]].
  2:{ right. exists e. rewrite Ht, elem_of_app. by left. }
  destruct (decide (sid' = sid)) as [->|Hne].
  - simplify_eq. right. rewrite Eo in Hid. destruct d as [e|]; simpl in Hid; [|set_solver].
    exists e. rewrite Ht. set_solver.
  - left. exists sid', sb'. rewrite Hs. by rewrite lookup_delete_ne by congruence.
Qed.

Section Provider.

(** Providers name their instances. *)
Hypothesis provider_names : forall pod sid files vm w inst w',
  prov_CreateInstance pod sid files vm w = (Ok inst, w') -> ID inst <> "".

Lemma StartVM_create_named sid s sb inst s' :
  StartVM_create sid s = (Ok (sb, inst), s') -> ID inst <> "".
Proof.
  unfold StartVM_create, getSandbox, recorded, mbind, mret. destruct (String.eqb sid ""); [done|].
  destruct (sandboxes s !! sid) as [sb0|]; [|done].
  destruct (prov_CreateInstance _ _ _ _ _) as [c w'] eqn:E.
  destruct c; intros; simplify_eq. by eapply provider_names.
Qed.

Lemma StartVM_no_loss sid s r s' :
  (forall sb, sandboxes s !! sid = Some sb -> instanceID sb = "") ->
  StartVM serverConfig sid s = (r, s') -> no_loss s -> no_loss s'.
Proof.
  intros Hfirst E [He Ha]. unfold StartVM, mbind, mret in E.
  destruct (StartVM_create sid s) as [c s1] eqn:E1. pose proof (StartVM_create_spec _ _ _ _ E1) as Hc.
  destruct c as [[sb inst]|err].
  2:{ simplify_eq. destruct Hc as [->|(sb & e & _ & [Fs Ft])]; [done|].
      assert (outstanding (trace s') = outstanding (trace s)) as Eo
        by (unfold outstanding; by rewrite Ft, foldl_app).
      split; [by rewrite Eo|]. intros id. rewrite Eo. intros Hid.
      destruct (Ha id Hid) as [(x & y & Hl & Hi)|[e' Hd]]; [left|right].
      - exists x, y. by rewrite Fs.
      - exists e'. rewrite Ft, elem_of_app. by left. }
  destruct Hc as (_ & Hsb & [Fs Ft]). pose proof (StartVM_create_named _ _ _ _ _ E1) as Hname.
  apply StartVM_finish_spec in E as (evs & Ht & Hn & Hs). rewrite Fs, Hsb in Hs.
  assert (outstanding (trace s') = {[ID inst]} ∪ outstanding (trace s)) as Eo.
  { unfold outstanding. rewrite Ht, Ft, !foldl_app. simpl. by rewrite live_neutral. }
  split; [rewrite Eo; set_solver|]. intros id. rewrite Eo, elem_of_union, elem_of_singleton.
  intros [->|Hid].
  { left. exists sid, (set_instance (ID inst) (Name inst) sb). by rewrite Hs, lookup_insert_eq. }
  destruct (Ha id Hid) as [(x & y & Hl & Hi)|[e Hd]].
  - left. exists x, y. rewrite Hs, lookup_insert_ne; [done|]. intros ->.
    apply Hfirst in Hl. congruence.
  - right. exists e. rewrite Ht, Ft, !elem_of_app. tauto.
Qed.

(** No instance is lost: in every run of the service from its start, an
    instance that the provider has created and not deleted is recorded in a
    sandbox, where StopVM will find it, or its deletion was attempted and the
    provider refused. *)
Theorem no_instance_lost s0 s id :
  fresh_service s0 -> rtc service_step s0 s -> id ∈ outstanding (trace s) ->
  (exists sid sb, sandboxes s !! sid = Some sb /\ instanceID sb = id) \/
  (exists e, EvDelete id (Some e) ∈ trace s).
Proof.
  intros [_ Ht0] Hr.
  assert (no_loss s0) as Hinv by (split; rewrite Ht0; set_solver).
  assert (no_loss s) as [_ Ha]; [|apply Ha]. clear Ht0. induction Hr as [|s0 s1 s Hs _ IH]; [done|].
  apply IH. clear IH. destruct Hs.
  - by eapply CreateVM_no_loss.
  - by eapply StartVM_no_loss.
  - by eapply StopVM_no_loss.
  - by eapply no_loss_same.
Qed.

End Provider.

(** *** Finalizers *)

(** Every patch is preceded by a confirmed deletion. *)
Definition guarded_patches (tr : list (event Addr)) : Prop :=
  forall i n ns x, tr !! i = Some (EvPatch n ns x) ->
  exists j id, S j = i /\ tr !! j = Some (EvDelete id None).

Lemma guarded_app tr evs :
  guarded_patches tr -> Forall (fun e => ~ is_patch e) evs -> guarded_patches (tr ++ evs).
Proof.
  intros Hg Hn i n ns x Hi. apply lookup_app_Some in Hi as [Hi|[_ Hi]].
  - destruct (Hg i n ns x Hi) as (j & id & <- & Hj). exists j, id. split; [done|].
    by apply lookup_app_l_Some.
  - rewrite Forall_lookup in Hn. by destruct (Hn _ _ Hi).
Qed.

Lemma guarded_patch tr id n ns x :
  guarded_patches tr -> guarded_patches (tr ++ [EvDelete id None; EvPatch n ns x]).
Proof.
  intros Hg i n' ns' x' Hi.
  assert (tr ++ [EvDelete id None; EvPatch n ns x] = (tr ++ [EvDelete id None]) ++ [EvPatch n ns x]) as E
    by by rewrite <- app_assoc.
  assert (guarded_patches (tr ++ [EvDelete id None])) as Hg1 by (apply guarded_app; [done|by repeat constructor; intros []]).
  rewrite E in Hi |- *. apply lookup_app_Some in Hi as [Hi|[Hle Hi]].
  - destruct (Hg1 _ _ _ _ Hi) as (j & id' & <- & Hj). exists j, id'. split; [done|]. by apply lookup_app_l_Some.
  - rewrite length_app in *. simpl in *. apply list_lookup_singleton_Some in Hi as [Hi _].
    exists (length tr), id. split; [lia|]. rewrite <- app_assoc. by apply list_lookup_middle.
Qed.

Lemma step_guarded s s' : service_step s s' -> guarded_patches (trace s) -> guarded_patches (trace s').
Proof.
  intros Hs Hg. destruct Hs as [req r s' E|sid r s' _ E|sid r s' E|w]; [| | |done].
  - pose proof (CreateVM_frame req s) as Hc. rewrite E in Hc. by destruct Hc as [-> _].
  - unfold StartVM, mbind, mret in E. destruct (StartVM_create sid s) as [c s1] eqn:E1.
    apply StartVM_create_spec in E1.
    assert (guarded_patches (trace s1)) as Hg1.
    { destruct c as [[sb inst]|]; [destruct E1 as (_ & _ & [_ ->])|destruct E1 as [->|(? & ? & _ & [_ ->])]; [done|]];
        apply guarded_app; [done|by repeat constructor; intros []|done|by repeat constructor; intros []]. }
    destruct c as [[sb inst]|]; [|by simplify_eq].
    apply StartVM_finish_spec in E as (evs & -> & Hn & _). apply guarded_app; [done|].
    eapply Forall_impl; [exact Hn|]. by intros [] ? ?; simpl in *.
  - destruct (decide (sid = "" \/ sandboxes s !! sid = None)) as [Hno|Hyes].
    { apply StopVM_unknown in Hno as [e Hno]. rewrite E in Hno. by simplify_eq. }
    destruct (sandboxes s !! sid) as [sb|] eqn:Esb; [|tauto].
    destruct (StopVM_spec sid sb s ltac:(tauto) Esb) as (s1 & d & patch & t & Es & _ & Ht & Hp). rewrite E in Es. injection Es as -> <-.
    rewrite Ht. destruct Hp as [->|(-> & n & x & ->)]; simpl.
    + apply guarded_app; [done|]. by repeat constructor; intros [].
    + change (guarded_patches (trace s ++ [EvDelete (instanceID sb) None; EvPatch n (podNamespace sb) x] ++
        [EvTeardown (netNSPath sb) t])). rewrite app_assoc. apply guarded_app; [by apply guarded_patch|].
      by repeat constructor; intros [].
Qed.

(** C4: A PeerPod keeps its finalizer until its instance is gone: in every run
    of the service from its start, each removal of a finalizer comes directly
    after a deletion that the provider has confirmed. *)
Theorem finalizer_removed_only_after_deletion s0 s :
  fresh_service s0 -> rtc service_step s0 s ->
  forall i n ns x, trace s !! i = Some (EvPatch n ns x) ->
  exists j id, S j = i /\ trace s !! j = Some (EvDelete id None).
Proof.
  intros [_ Ht0] Hr.
  assert (guarded_patches (trace s0)) as Hg by (rewrite Ht0; by intros i n ns x).
  assert (guarded_patches (trace s)); [|done]. clear Ht0.
  induction Hr as [|s0 s1 s Hs _ IH]; [done|]. by eapply IH, step_guarded.
Qed.

(** ** Interleavings *)

(** StopVM during StartVM loses the instance: when a sandbox is stopped after
    the provider has created its instance and before StartVM has recorded it,
    StopVM succeeds, StartVM fails, and the instance stays outstanding: no
    sandbox records it and nothing asks the provider to delete it. *)
Theorem StopVM_during_StartVM_loses_instance sid s s1 s2 s3 sb inst r2 r3 :
  sandboxes s !! sid = Some sb -> instanceID sb = "" -> ID inst <> "" ->
  (forall sid' sb', sandboxes s !! sid' = Some sb' -> instanceID sb' <> ID inst) ->
  StartVM_create sid s = (Ok (sb, inst), s1) -> StopVM sid s1 = (r2, s2) ->
  StartVM_finish serverConfig sid sb inst s2 = (r3, s3) ->
  r2 = Ok tt /\ is_ok r3 = false /\ ID inst ∈ outstanding (trace s3) /\
  (forall sid' sb', sandboxes s3 !! sid' = Some sb' -> instanceID sb' <> ID inst) /\
  (forall e, EvDelete (ID inst) e ∈ trace s3 -> EvDelete (ID inst) e ∈ trace s).
Proof.
  intros Hsb Hid Hne Hother E1 E2 E3. pose proof (StartVM_create_spec _ _ _ _ E1) as (Hsid & _ & [Fs Ft]).
  rewrite <- Fs in Hsb. destruct (StopVM_spec sid sb s1 Hsid Hsb) as (s2' & d & patch & t & E2' & Hs2 & Ht2 & Hp).
  rewrite E2 in E2'. injection E2' as -> <-. apply StartVM_finish_spec in E3 as (evs & Ht3 & Hn & Hs3).
  rewrite Hs2, lookup_delete_eq in Hs3. destruct Hs3 as [Hs3 Hr3].
  assert (outstanding (trace s3) = live_step ({[ID inst]} ∪ outstanding (trace s)) (EvDelete (instanceID sb) d)) as Eo.
  { unfold outstanding. rewrite Ht3, Ht2, Ft, !foldl_app, live_neutral by done. simpl.
    destruct Hp as [->|(_ & n & x & ->)]; by destruct d. }
  split; [done|]. split; [done|]. split; [|split].
  - rewrite Eo. destruct d; simpl; rewrite ?Hid; set_solver.
  - intros sid' sb'. rewrite Hs3, Fs. intros [_ Hl]%lookup_delete_Some. by eapply Hother.
  - intros e. rewrite Ht3, Ht2, Ft, !elem_of_app, !list_elem_of_singleton.
    intros [[[He|He]|[He|[He|He]]]|He]; [done|done|congruence| |done|].
    + destruct Hp as [->|(_ & n & x & ->)]; [by apply not_elem_of_nil in He|].
      by apply list_elem_of_singleton in He.
    + rewrite Forall_forall in Hn. by apply Hn in He.
Qed.

(** *** The VM information service *)

(** GetInfo does not wait for the instance: between CreateVM and the end of
    StartVM the sandbox is there without an instance, and a request that asks
    to wait is then answered at once with an error, as if it had not asked. *)
Theorem GetInfo_ignores_wait podNs podNm sbs ctxErr wakeups :
  (forall sid sb, sbs !! sid = Some sb -> podNamespace sb = podNs -> podName sb = podNm -> instanceID sb = "") ->
  (exists sid sb, sbs !! sid = Some sb /\ podNamespace sb = podNs /\ podName sb = podNm) ->
  GetInfo podNs podNm true ((sbs, ctxErr) :: wakeups) = GetInfo podNs podNm false ((sbs, ctxErr) :: wakeups) /\
  exists e, GetInfo podNs podNm true ((sbs, ctxErr) :: wakeups) = Some (Err e).
Proof.
  intros Hno (sid & sb & Hsb & Hns & Hnm).
  assert (find_instance podNs podNm sbs = Some "") as Hf.
  { unfold find_instance. destruct (List.find _ _) as [[sid' sb']|] eqn:E; simpl.
    - apply find_some in E as [Hin E]. simpl in E. bool_to_prop.
      apply list_elem_of_In, elem_of_map_order in Hin. f_equal. by eapply Hno.
    - eapply find_none in E; [|apply list_elem_of_In, elem_of_map_order; exact Hsb].
      simpl in E. rewrite Hns, Hnm, !String.eqb_refl in E. done. }
  unfold GetInfo. simpl. rewrite Hf. simpl. split; [done|by eexists].
Qed.

End Handlers.

(** ** The files a VM is given *)

(** The cloud-config of a VM: the forwarder's configuration comes first, no
    path is written twice, the init data of the pod's annotation takes
    precedence over the global one and is omitted only when both are empty, and
    credentials above the limit are left out. *)
Theorem cloud_files_spec cfg apfJSON authJSON initdata :
  let files := cloud_files cfg apfJSON authJSON initdata in
  NoDup (Path <$> files) /\
  files !! 0%nat = Some (mkWriteFile DefaultConfigPath apfJSON) /\
  (forall c, mkWriteFile InitDataPath c ∈ files <->
     c = (if String.eqb initdata "" then Initdata cfg else initdata) /\ c <> "") /\
  (forall c, mkWriteFile AuthFilePath c ∈ files <->
     authJSON = Some c /\ Z.of_nat (String.length c) <= DefaultAuthfileLimit) /\
  (mkWriteFile ScratchSpacePath "" ∈ files <-> EnableScratchSpace cfg = true).
Proof.
  cbv zeta. unfold cloud_files.
  set (chosen := if (String.eqb initdata "" && _)%bool then _ else _).
  assert (chosen = if String.eqb initdata "" then Initdata cfg else initdata) as <-.
  { subst chosen. destruct (String.eqb initdata "") eqn:E; [|done]. simpl. bool_to_prop. subst.
    destruct (String.eqb (Initdata cfg) "") eqn:E2; simpl; [|done]. by bool_to_prop. }
  clearbody chosen.
  assert (forall l : Z, match authJSON with Some c => Z.of_nat (String.length c) <= l | None => True end \/
            exists c, authJSON = Some c /\ l < Z.of_nat (String.length c)) as Hauth.
  { intros l. destruct authJSON as [c|]; [|by left]. destruct (Z.le_gt_cases (Z.of_nat (String.length c)) l); eauto. }
  destruct (String.eqb chosen "") eqn:Ec; bool_to_prop;
  destruct (EnableScratchSpace cfg);
  (destruct authJSON as [auth|];
   [destruct (DefaultAuthfileLimit <? Z.of_nat (String.length auth)) eqn:Ea; bool_to_prop|]);
  simpl; (split; [apply (bool_decide_unpack _); reflexivity|]); (split; [done|]);
  repeat split; intros; rewrite ?elem_of_cons, ?list_elem_of_singleton, ?elem_of_nil in *;
  naive_solver (auto with lia).
Qed.

(** ** Witnesses: a service with scripted answers *)

#[export] Instance kata_keys : AnnotationKeys := {
  SandboxName := "io.kubernetes.cri.sandbox-name";
  SandboxNamespace := "io.kubernetes.cri.sandbox-namespace";
  MachineType := "io.katacontainers.config.hypervisor.machine_type";
  ImagePath := "io.katacontainers.config.hypervisor.image";
  DefaultVCPUs := "io.katacontainers.config.hypervisor.default_vcpus";
  DefaultMemory := "io.katacontainers.config.hypervisor.default_memory";
  DefaultGPUs := "io.katacontainers.config.hypervisor.default_gpus"
}.

(** The world counts the instances created so far. *)
#[export] Instance counting_env : @CloudEnv Z ipv4_netip := {
  PodNet := bool;
  ExternalNetViaPodVM := fun b => b;
  Inspect := fun _ w => (Ok (Some false), w);
  Setup := fun _ _ _ w => (None, w);
  Teardown := fun _ _ w => (None, w);
  prov_CreateInstance := fun _ sid _ _ w => (Ok (mkInstance ("i-" +:+ FormatInt w) sid [mk_ipv4 167772161 I]), w + 1);
  prov_DeleteInstance := fun _ w => (None, w);
  proxy_ClientCA := fun _ => "ca";
  proxy_CAService := None;
  proxy_Start := fun _ _ w => (ProxyReady, w);
  proxy_Shutdown := fun _ w => (None, w);
  sshClient := false;
  InitPP := fun _ w => (None, w);
  GetWnPublicKey := EmptyString;
  ssh_Start := fun _ _ w => (None, w);
  ssh_GetPort := fun _ _ => EmptyString;
  DisconnectPP := fun _ w => (tt, w);
  MkdirAll := fun _ w => (None, w);
  os_WriteFile := fun _ _ w => (None, w);
  MarshalConfig := fun _ => Ok "{}";
  GetImagePullSecrets := fun _ _ w => (None, None, w);
  Encode := fun s => Ok s;
  unicode_ToLower := fun c => c;
  ppService := true;
  cloudProvider := "libvirt";
  getPod := fun n ns w => (Ok (mkPod n ns "uid"), w);
  rand_String := fun w => ("abcde", w);
  PostPeerPod := fun _ w => (None, w);
  PatchRemoveFinalizers := fun _ _ w => (None, w)
}.

Definition conf1 : ServerConfig := mkServerConfig "/run/peerpod/pods" "15150" "" false "" "" false.

Definition req1 : CreateVMRequest :=
  mkCreateVM "s1" {["io.kubernetes.cri.sandbox-name" := "web"; "io.kubernetes.cri.sandbox-namespace" := "default"]} "/ns".

Definition start_state : service Z bool ipv4 := mkService ∅ ∅ [] 0.
Definition after_create : service Z bool ipv4 := (CreateVM conf1 req1 start_state).2.
Definition after_start : service Z bool ipv4 := (StartVM conf1 "s1" after_create).2.
Definition after_stop : service Z bool ipv4 := (StopVM "s1" after_start).2.

Definition sandbox_of (s : service Z bool ipv4) (default : sandbox bool) : sandbox bool :=
  match sandboxes s !! "s1" with Some sb => sb | None => default end.

Definition no_sandbox : sandbox bool :=
  mkSandbox (mkProxy "" "") false [] "" "" "" "" "" "" (mkSpec "" 0 0 "" 0 "" false) false.

Definition sandbox1 : sandbox bool := sandbox_of after_create no_sandbox.

Lemma run_pair {A S} (run : A * S) : run = (run.1, run.2).
Proof. by destruct run. Qed.

Lemma names_instances pod sid files vm w inst w' :
  @prov_CreateInstance Z ipv4_netip counting_env pod sid files vm w = (Ok inst, w') -> ID inst <> "".
Proof. intros [= <- <-]. simpl. by rewrite string_app_cons. Qed.

Lemma first_start sb : sandboxes after_create !! "s1" = Some sb -> instanceID sb = "".
Proof.
  intros Hsb. assert (sandboxes after_create !! "s1" = Some sandbox1) as E by (vm_compute; reflexivity).
  rewrite E in Hsb. injection Hsb as <-. vm_compute. reflexivity.
Qed.

Lemma run_to_start : rtc (service_step conf1) start_state after_start.
Proof.
  apply (rtc_l _ _ after_create).
  - exact (step_CreateVM _ _ req1 _ _ (run_pair (CreateVM conf1 req1 start_state))).
  - apply rtc_once.
    exact (step_StartVM _ _ "s1" _ _ first_start (run_pair (StartVM conf1 "s1" after_create))).
Qed.

Lemma run_to_stop : rtc (service_step conf1) start_state after_stop.
Proof.
  apply (rtc_r _ after_start); [apply run_to_start|].
  exact (step_StopVM _ _ "s1" _ _ (run_pair (StopVM "s1" after_start))).
Qed.

Lemma StopVM_cleans_up_witness :
  exists s' d patch t, StopVM "s1" after_start = (Ok tt, s') /\
    sandboxes s' = delete "s1" (sandboxes after_start) /\
    trace s' = trace after_start ++ [EvDelete (instanceID (sandbox_of after_start no_sandbox)) d] ++ patch
                 ++ [EvTeardown (netNSPath (sandbox_of after_start no_sandbox)) t] /\
    (patch = [] \/ d = None /\ exists n x, patch = [EvPatch n (podNamespace (sandbox_of after_start no_sandbox)) x]).
Proof.
  apply (@StopVM_cleans_up Z ipv4_netip counting_env "s1" (sandbox_of after_start no_sandbox) after_start).
  - done.
  - vm_compute. reflexivity.
Defined.

Lemma no_instance_lost_witness :
  (exists sid sb, sandboxes after_start !! sid = Some sb /\ instanceID sb = "i-0") \/
  (exists e, EvDelete "i-0" (Some e) ∈ trace after_start).
Proof.
  apply (no_instance_lost conf1 names_instances start_state after_start "i-0").
  - by split.
  - exact run_to_start.
  - apply (bool_decide_unpack _). vm_compute. exact I.
Defined.

Lemma finalizer_removed_only_after_deletion_witness :
  exists j id, S j = 4%nat /\ trace after_stop !! j = Some (EvDelete id None).
Proof.
  apply (@finalizer_removed_only_after_deletion Z ipv4_netip counting_env kata_keys conf1 start_state after_stop) with
    (n := "web-resource-abcde") (ns := "default") (x := None).
  - by split.
  - exact run_to_stop.
  - vm_compute. reflexivity.
Defined.

(** The run of the race: create, the instance is made, stop, finish. *)
Definition race_inst : Instance ipv4 := mkInstance "i-0" "s1" [mk_ipv4 167772161 I].
Definition race1 : service Z bool ipv4 := (StartVM_create "s1" after_create).2.
Definition race2 : service Z bool ipv4 := (StopVM "s1" race1).2.
Definition race3 : result bool * service Z bool ipv4 := StartVM_finish conf1 "s1" sandbox1 race_inst race2.

Lemma StopVM_during_StartVM_loses_instance_witness :
  (StopVM "s1" race1).1 = Ok tt /\ is_ok race3.1 = false /\ "i-0" ∈ outstanding (trace race3.2) /\
  (forall sid' sb', sandboxes race3.2 !! sid' = Some sb' -> instanceID sb' <> "i-0") /\
  (forall e, EvDelete "i-0" e ∈ trace race3.2 -> EvDelete "i-0" e ∈ trace after_create).
Proof.
  apply (@StopVM_during_StartVM_loses_instance Z ipv4_netip counting_env conf1 "s1" after_create race1 race2 race3.2 sandbox1 race_inst).
  - vm_compute. reflexivity.
  - vm_compute. reflexivity.
  - done.
  - intros sid' sb' Hsb. assert (sid' = "s1") as ->.
    { destruct (decide (sid' = "s1")) as [|Hne]; [done|exfalso].
      change (sandboxes after_create) with (<["s1" := sandbox1]> (∅ : gmap string (sandbox bool))) in Hsb.
      by rewrite lookup_insert_ne in Hsb. }
    intros E. discriminate (eq_trans (eq_sym (first_start _ Hsb)) E).
  - vm_compute. reflexivity.
  - exact (run_pair (StopVM "s1" race1)).
  - exact (run_pair race3).
Defined.

Lemma GetInfo_ignores_wait_witness :
  GetInfo "default" "web" true [(sandboxes after_create, None)]
  = GetInfo "default" "web" false [(sandboxes after_create, None)] /\
  exists e, GetInfo "default" "web" true [(sandboxes after_create, None)] = Some (Err e).
Proof.
  apply (@GetInfo_ignores_wait Z ipv4_netip counting_env _ "default" "web").
  - intros sid sb Hsb _ _.
    change (sandboxes after_create) with (<["s1" := sandbox1]> (∅ : gmap string (sandbox bool))) in Hsb.
    apply lookup_insert_Some in Hsb as [[_ <-]|[_ Hsb]]; [by vm_compute|by rewrite lookup_empty in Hsb].
  - exists "s1", sandbox1. repeat split; vm_compute; reflexivity.
Defined.
