(* ===== verification/CsiVolumes.v ===== *)
(** * Volumes of peer pods: the CSI wrapper

    Models src/csi-wrapper: pkg/wrapper/controllerservice.go, nodeservice.go and
    podvmservice.go (the wrappers around a storage driver on the controller, the
    worker node and in the pod VM), pkg/apis/peerpodvolume/v1alpha1/types.go
    (the PeerpodVolume object in which they cache requests and hand work to each
    other), pkg/utils, pkg/peerpodvolume/controller.go (dispatch of changes) and
    the start of cmd/csi-podvm-wrapper/main.go.

    The API server, the storage driver behind the wrapper, the file system and
    the JSON codec are operations of [CsiEnv] and [CsiCodec].  Every call to the
    driver is recorded, so that what the driver was asked can be stated.  The
    generated client returns an empty object beside an error, which is
    [zero_volume] here: code that ignores the error goes on with it. *)

From Stdlib Require Import ZArith Ascii String Lia.
From stdpp Require Import base gmap strings list fin_maps.
From S2P Require Import Prelude.

Open Scope Z_scope.
Open Scope go_scope.

(** ** Data *)

Record VolumeSpec := mkVolumeSpec {
  PodName : string;
  PodNamespace : string;
  PodUid : string;
  NodeID : string;
  NodeName : string;
  VolumeID : string;
  VolumeName : string;
  VMID : string;
  VMName : string;
  DevicePath : string;
  StagingTargetPath : string;
  TargetPath : string;
  WrapperControllerPublishVolumeReq : string;
  WrapperControllerPublishVolumeRes : string;
  WrapperNodeStageVolumeReq : string;
  WrapperNodePublishVolumeReq : string;
  WrapperNodeUnpublishVolumeReq : string;
  WrapperNodeUnstageVolumeReq : string
}.

(** [Labels] is a Go map: [None] is nil and panics on assignment. *)
Record PeerpodVolume := mkVolume {
  v_Name : string;
  v_Labels : option (gmap string string);
  v_Spec : VolumeSpec;
  v_State : string;
  v_ResourceVersion : string
}.

Definition zero_spec : VolumeSpec := mkVolumeSpec "" "" "" "" "" "" "" "" "" "" "" "" "" "" "" "" "" "".
Definition zero_volume : PeerpodVolume := mkVolume "" None zero_spec "" "".

Definition ControllerPublishVolumeCached : string := "controllerPublishVolumeCached".
Definition NodeStageVolumeCached : string := "nodeStageVolumeCached".
Definition NodePublishVolumeCached : string := "nodePublishVolumeCached".
Definition NodeUnpublishVolumeCached : string := "nodeUnpublishVolumeCached".
Definition NodeUnstageVolumeCached : string := "nodeUnstageVolumeCached".
Definition PeerPodVSIIDReady : string := "peerPodVSIIDReady".
Definition PeerPodVSIRunning : string := "peerPodVSIRunning".
Definition ControllerPublishVolumeApplied : string := "controllerPublishVolumeApplied".
Definition NodeStageVolumeApplied : string := "nodeStageVolumeApplied".
Definition NodePublishVolumeApplied : string := "nodePublishVolumeApplied".
Definition NodeUnpublishVolumeApplied : string := "nodeUnpublishVolumeApplied".
Definition NodeUnstageVolumeApplied : string := "nodeUnstageVolumeApplied".

Definition PeerpodParamKey : string := "peerpod".
Definition peerpodVolumeNamePlaceholder : string := "peerpod-volume-name-placeholder".

Definition with_state (v : PeerpodVolume) (st : string) : PeerpodVolume :=
  mkVolume (v_Name v) (v_Labels v) (v_Spec v) st (v_ResourceVersion v).

Definition with_spec (v : PeerpodVolume) (labels : option (gmap string string)) (s : VolumeSpec)
    : PeerpodVolume :=
  mkVolume (v_Name v) labels s (v_State v) (v_ResourceVersion v).

(** Requests of the CSI protocol: the fields the wrapper reads or replaces, and
    the rest as a text. *)
Record ControllerPublishRequest := mkCPub {
  cp_VolumeId : string;
  cp_NodeId : string;
  cp_VolumeContext : gmap string string;
  cp_rest : string
}.

Record NodeStageRequest := mkStage {
  ns_VolumeId : string;
  ns_StagingTargetPath : string;
  ns_PublishContext : gmap string string;
  ns_rest : string
}.

Record NodePublishRequest := mkPublish {
  np_VolumeId : string;
  np_TargetPath : string;
  np_rest : string
}.

Record NodeUnpublishRequest := mkUnpublish { nu_VolumeId : string; nu_TargetPath : string }.
Record NodeUnstageRequest := mkUnstage { nt_VolumeId : string; nt_StagingTargetPath : string }.

(** A call to the storage driver, and its answer: an id or a context, where
    there is one. *)
Inductive DriverCall :=
| DCreateVolume (name : string) (parameters : gmap string string) (rest : string)
| DDeleteVolume (id : string)
| DControllerPublish (req : ControllerPublishRequest)
| DControllerUnpublish (id node : string)
| DNodeStage (req : NodeStageRequest)
| DNodePublish (req : NodePublishRequest)
| DNodeUnpublish (req : NodeUnpublishRequest)
| DNodeUnstage (req : NodeUnstageRequest)
| DOther (rpc req : string).

Record DriverAnswer := mkAnswer {
  da_VolumeId : string;
  da_PublishContext : gmap string string;
  da_text : string
}.

(** ** Normalization: utils/normalize.go *)

(** [strings.ReplaceAll] of "#" and of "###" by ".". *)
Fixpoint replace_hash (s : string) : string :=
  match s with
  | EmptyString => EmptyString
  | String c s' => String (if Ascii.eqb c "#" then "." else c)%char (replace_hash s')
  end.

Fixpoint replace_hash3 (s : string) : string :=
  match s with
  | String "#" (String "#" (String "#" s')) => String "." (replace_hash3 s')
  | String c s' => String c (replace_hash3 s')
  | EmptyString => EmptyString
  end.

(** [filepath.Base]: the last element, after trailing slashes are removed. *)
Fixpoint trim_slashes (s : string) : string :=
  match s with
  | EmptyString => EmptyString
  | String c s' =>
      match trim_slashes s' with
      | EmptyString => if Ascii.eqb c "/" then EmptyString else String c EmptyString
      | t => String c t
      end
  end.

Definition filepath_Base (p : string) : string :=
  if String.eqb p "" then "."
  else let b := List.last (split_on "/" (trim_slashes p)) EmptyString in
       if String.eqb b "" then "/" else b.

Definition NormalizeVolumeID (volumeID : string) : string :=
  filepath_Base (replace_hash (replace_hash3 volumeID)).

Definition NormalizeVMID (vmID : string) : string := List.last (split_on "/" vmID) EmptyString.

(** ** What the wrappers call *)

Class CsiEnv (W : Type) := {
  (** the methods of [PeerpodVolumes(namespace)] of the client *)
  vol_Get : string -> string -> M W (result PeerpodVolume);
  vol_Create : string -> PeerpodVolume -> M W (result PeerpodVolume);
  vol_Update : string -> PeerpodVolume -> M W (result PeerpodVolume);
  vol_UpdateStatus : string -> PeerpodVolume -> M W (result PeerpodVolume);
  vol_Delete : string -> string -> M W (option GoError);
  csi_Namespace : string;  (** the field [Namespace] of the services and of the configuration *)
  driver_dial : M W (option GoError);
  driver : DriverCall -> M W (result DriverAnswer);
  uuid_NewV4 : M W string;
  vminfo_dial : M W (option GoError);
  GetVMInfo : string -> string -> M W (result string);
  fs_change : string -> string -> M W unit;  (** MkdirAll, RemoveAll, kata's volume.Add and Remove *)
  csi_getenv : string -> string;
  azureVM : string -> bool  (** [azureVMRegexp.MatchString] *)
}.

(** [jsonpb] at the types of the cached requests. *)
Class CsiCodec := {
  marshal_publish : ControllerPublishRequest -> string;
  unmarshal_publish : string -> option ControllerPublishRequest;
  marshal_context : gmap string string -> string;
  unmarshal_context : string -> option (gmap string string);
  marshal_stage : NodeStageRequest -> string;
  unmarshal_stage : string -> option NodeStageRequest;
  marshal_npublish : NodePublishRequest -> string;
  unmarshal_npublish : string -> option NodePublishRequest;
  marshal_unpublish : NodeUnpublishRequest -> string;
  unmarshal_unpublish : string -> option NodeUnpublishRequest;
  marshal_unstage : NodeUnstageRequest -> string;
  unmarshal_unstage : string -> option NodeUnstageRequest;
  publish_roundtrip : forall r, unmarshal_publish (marshal_publish r) = Some r;
  context_roundtrip : forall c, unmarshal_context (marshal_context c) = Some c;
  stage_roundtrip : forall r, unmarshal_stage (marshal_stage r) = Some r;
  npublish_roundtrip : forall r, unmarshal_npublish (marshal_npublish r) = Some r;
  unpublish_roundtrip : forall r, unmarshal_unpublish (marshal_unpublish r) = Some r;
  unstage_roundtrip : forall r, unmarshal_unstage (marshal_unstage r) = Some r
}.

(** The wrapper's state: the calls made to the driver, oldest first, and the
    world. *)
Record wrapper (W : Type) := mkWrapper { calls : list DriverCall; vworld : W }.
Arguments mkWrapper {W} calls vworld.
Arguments calls {W} w.
Arguments vworld {W} w.

Section Wrapper.

Context {W : Type} `{CsiEnv W} `{CsiCodec}.

Notation st := (wrapper W).

Definition api {A} (m : M W A) : M st A := fun s =>
  let '(a, w') := m (vworld s) in (a, mkWrapper (calls s) w').

(** The object returned beside an error is the empty one. *)
Definition object (r : result PeerpodVolume) : PeerpodVolume :=
  match r with Ok v => v | Err _ => zero_volume end.

(** [redirect]: the error is that of the connection; the call is made otherwise. *)
Definition redirect {A} (fn : M st A) : M st (result A) :=
  let* e := api driver_dial in
  match e with
  | Some err => mret (Err err)
  | None => let* a := fn in mret (Ok a)
  end.

Definition client (c : DriverCall) : M st (result DriverAnswer) := fun s =>
  let '(a, w') := driver c (vworld s) in (a, mkWrapper (calls s ++ [c]) w').

(** A handler that passes its request on and returns the driver's answer. *)
Definition forward (c : DriverCall) : M st (result DriverAnswer) :=
  let* r := redirect (client c) in
  mret match r with Err e => Err e | Ok answer => answer end.

Definition Return_of {A} (m : M st A) : M st (outcome A) := let* a := m in mret (Return a).

(** [m[k] = v] on a map that may be nil. *)
Definition set_label (labels : option (gmap string string)) (k v : string)
    : outcome (option (gmap string string)) :=
  match labels with None => Panic | Some m => Return (Some (<[k := v]> m)) end.

(** ** Controller: controllerservice.go *)

Definition createPeerpodVolume (volumeID volumeName : string) : M st (result PeerpodVolume) :=
  api (vol_Create csi_Namespace (mkVolume volumeID (Some {["volumeName" := volumeName]})
         (mkVolumeSpec "" "" "" "" "" volumeID volumeName "" "" "" "" "" "" "" "" "" "" "") "" "")).

(** The closure of [CreateVolume]: a failed driver call leaves a nil response,
    whose volume is then dereferenced. *)
Definition CreateVolume (name : string) (parameters : gmap string string) (rest : string)
    : M st (outcome (result DriverAnswer)) :=
  let peerpod := default EmptyString (parameters !! PeerpodParamKey) in
  let* e := api driver_dial in
  match e with
  | Some err => mret (Return (Err err))
  | None =>
      let params := if String.eqb peerpod "" then parameters else delete PeerpodParamKey parameters in
      let* res := client (DCreateVolume name params rest) in
      if String.eqb peerpod "" then mret (Return res)
      else match res with
           | Err _ => mret Panic
           | Ok answer =>
               let* _v := createPeerpodVolume (NormalizeVolumeID (da_VolumeId answer)) name in
               mret (Return res)
           end
  end.

(** The error returned is that of reading the object, not that of the driver. *)
Definition DeleteVolume (id : string) : M st (result unit) :=
  let* e := api driver_dial in
  match e with
  | Some err => mret (Err err)
  | None =>
      let* _res := client (DDeleteVolume id) in
      let volumeID := NormalizeVolumeID id in
      let* g := api (vol_Get csi_Namespace volumeID) in
      match g with
      | Err err => mret (Err err)
      | Ok _ => let* _d := api (vol_Delete csi_Namespace volumeID) in mret (Ok tt)
      end
  end.

Definition fake_context (volumeID requestID : string) : gmap string string :=
  <["volume-id" := volumeID]> (<["node-id" := EmptyString]> (<["attach-status" := "attached"]>
    (<["device-path" := "/dev/fff"]> {["request-id" := requestID]}))).

Definition cache_publish (s : VolumeSpec) (nodeID reqJson resJson : string) : VolumeSpec :=
  mkVolumeSpec (PodName s) (PodNamespace s) (PodUid s) nodeID (NodeName s) (VolumeID s) (VolumeName s)
    (VMID s) (VMName s) (DevicePath s) (StagingTargetPath s) (TargetPath s) reqJson resJson
    (WrapperNodeStageVolumeReq s) (WrapperNodePublishVolumeReq s) (WrapperNodeUnpublishVolumeReq s)
    (WrapperNodeUnstageVolumeReq s).

(** From the object on: the request and a made-up response are cached. *)
Definition publish_cached (volumeID : string) (req : ControllerPublishRequest) (saved : PeerpodVolume)
    : M st (outcome (result (gmap string string))) :=
  let* requestID := api uuid_NewV4 in
  let res := fake_context volumeID requestID in
  match set_label (v_Labels saved) "nodeID" (cp_NodeId req) with
  | Panic => mret Panic
  | Return labels =>
      let saved' := with_spec saved labels
        (cache_publish (v_Spec saved) (cp_NodeId req) (marshal_publish req) (marshal_context res)) in
      let* u := api (vol_Update csi_Namespace saved') in
      match u with
      | Err err => mret (Return (Err err))
      | Ok updated =>
          let* us := api (vol_UpdateStatus csi_Namespace (with_state updated ControllerPublishVolumeCached)) in
          mret (Return match us with Err err => Err err | Ok _ => Ok res end)
      end
  end.

(** Without a PeerpodVolume: a request that is not for a peer pod is passed on,
    and then treated like one that is. *)
Definition ControllerPublishVolume (req : ControllerPublishRequest)
    : M st (outcome (result (gmap string string))) :=
  let volumeID := NormalizeVolumeID (cp_VolumeId req) in
  let* g := api (vol_Get csi_Namespace volumeID) in
  match g with
  | Ok saved => publish_cached volumeID req saved
  | Err _ =>
      let peerPod := default EmptyString (cp_VolumeContext req !! PeerpodParamKey) in
      let create : M st (outcome (result (gmap string string))) :=
        let req' := mkCPub (cp_VolumeId req) (cp_NodeId req)
                      (delete PeerpodParamKey (cp_VolumeContext req)) (cp_rest req) in
        let* c := createPeerpodVolume volumeID peerpodVolumeNamePlaceholder in
        match c with
        | Err err => mret (Return (Err err))
        | Ok saved => publish_cached volumeID req' saved
        end in
      if String.eqb peerPod "" then
        let* r := redirect (client (DControllerPublish req)) in
        match r with
        | Err err => mret (Return (Err err))
        | Ok _ => create
        end
      else create
  end.

(** [ControllerUnpublishVolume] clears everything but the volume itself. *)
Definition reset_spec (s : VolumeSpec) : VolumeSpec :=
  mkVolumeSpec "" "" "" "" "" (VolumeID s) (VolumeName s) "" "" "" "" "" "" "" "" "" "" "".

(** Its call to the driver, for a volume that is attached to the pod VM. *)
Definition detach_applied (id : string) (saved : PeerpodVolume) : M st unit :=
  if Contains_sub (v_State saved) "Applied" then
    let* _r := redirect (client (DControllerUnpublish id (VMID (v_Spec saved)))) in mret tt
  else mret tt.

Definition ControllerUnpublishVolume (id node : string) : M st (result unit) :=
  let volumeID := NormalizeVolumeID id in
  let* g := api (vol_Get csi_Namespace volumeID) in
  match g with
  | Err _ =>
      let* r := redirect (client (DControllerUnpublish id node)) in
      mret match r with
           | Err err => Err err
           | Ok (Err err) => Err err
           | Ok (Ok _) => Ok tt
           end
  | Ok saved =>
      let* _d := detach_applied id saved in
      let saved' := with_spec saved (Some {["volumeName" := VolumeName (v_Spec saved)]})
                      (reset_spec (v_Spec saved)) in
      let* u := api (vol_Update csi_Namespace saved') in
      let* _us := api (vol_UpdateStatus csi_Namespace (with_state (object u) EmptyString)) in
      mret (Ok tt)
  end.

Definition set_attached (s : VolumeSpec) (resJson devicePath : string) : VolumeSpec :=
  mkVolumeSpec (PodName s) (PodNamespace s) (PodUid s) (NodeID s) (NodeName s) (VolumeID s)
    (VolumeName s) (VMID s) (VMName s) devicePath (StagingTargetPath s) (TargetPath s)
    (WrapperControllerPublishVolumeReq s) resJson (WrapperNodeStageVolumeReq s)
    (WrapperNodePublishVolumeReq s) (WrapperNodeUnpublishVolumeReq s) (WrapperNodeUnstageVolumeReq s).

(** The node id the driver is given: the VM's, or its name on Azure. *)
Definition driver_node_id (vmID : string) : string :=
  if azureVM vmID then filepath_Base vmID else vmID.

(** What follows the driver's answer. *)
Definition record_attached (v : PeerpodVolume) (context : gmap string string) : M st unit :=
  let v' := with_spec v (v_Labels v)
    (set_attached (v_Spec v) (marshal_context context)
       (default EmptyString (context !! "device-path"))) in
  let* u := api (vol_Update csi_Namespace v') in
  match u with
  | Err _ => mret tt
  | Ok updated =>
      let* _us := api (vol_UpdateStatus csi_Namespace (with_state updated ControllerPublishVolumeApplied)) in mret tt
  end.

Definition reproduce_publish (v : PeerpodVolume) (req : ControllerPublishRequest) : M st unit :=
  let* r := client (DControllerPublish req) in
  match r with
  | Err _ => mret tt
  | Ok answer => record_attached v (da_PublishContext answer)
  end.

Definition Controller_SyncHandler (v : PeerpodVolume) : M st unit :=
  if (String.eqb (v_State v) PeerPodVSIIDReady && String.eqb (DevicePath (v_Spec v)) "")%bool then
    match unmarshal_publish (WrapperControllerPublishVolumeReq (v_Spec v)) with
    | None => mret tt
    | Some req =>
        let* _r := redirect (reproduce_publish v
          (mkCPub (cp_VolumeId req) (driver_node_id (VMID (v_Spec v))) (cp_VolumeContext req)
                  (cp_rest req))) in
        mret tt
    end
  else mret tt.

(** The handlers that only pass their request on. *)
Definition ValidateVolumeCapabilities (req : string) := forward (DOther "ValidateVolumeCapabilities" req).
Definition ListVolumes (req : string) := forward (DOther "ListVolumes" req).
Definition GetCapacity (req : string) := forward (DOther "GetCapacity" req).
Definition ControllerGetCapabilities (req : string) := forward (DOther "ControllerGetCapabilities" req).
Definition CreateSnapshot (req : string) := forward (DOther "CreateSnapshot" req).
Definition DeleteSnapshot (req : string) := forward (DOther "DeleteSnapshot" req).
Definition ListSnapshots (req : string) := forward (DOther "ListSnapshots" req).
Definition ControllerExpandVolume (req : string) := forward (DOther "ControllerExpandVolume" req).
Definition ControllerGetVolume (req : string) := forward (DOther "ControllerGetVolume" req).

(** ** Worker node: nodeservice.go *)

(** /var/lib/kubelet/pods/UID/volumes/kubernetes.io~csi/NAME/mount: the fields
    are taken by index. *)
Definition getPodUIDandVolumeName (targetPath : string) : outcome (string * string) :=
  let paths := split_on "/" targetPath in
  match paths !! 5%nat, paths !! 8%nat with
  | Some podUid, Some volumeName => Return (podUid, volumeName)
  | _, _ => Panic
  end.

Definition cache_npublish (s : VolumeSpec) (target podUid volumeName req : string) : VolumeSpec :=
  mkVolumeSpec (PodName s) (PodNamespace s) podUid (NodeID s) (NodeName s) (VolumeID s) volumeName
    (VMID s) (VMName s) (DevicePath s) (StagingTargetPath s) target
    (WrapperControllerPublishVolumeReq s) (WrapperControllerPublishVolumeRes s)
    (WrapperNodeStageVolumeReq s) req (WrapperNodeUnpublishVolumeReq s) (WrapperNodeUnstageVolumeReq s).

(** Update, read again, and set the state of what was read. *)
Definition update_then_state (volumeID : string) (v : PeerpodVolume) (state : string)
    : M st (result unit) :=
  let* u := api (vol_Update csi_Namespace v) in
  match u with
  | Err err => mret (Err err)
  | Ok _ =>
      let* g := api (vol_Get csi_Namespace volumeID) in
      let* us := api (vol_UpdateStatus csi_Namespace (with_state (object g) state)) in
      mret match us with Err err => Err err | Ok _ => Ok tt end
  end.

(** A handler that finds no PeerpodVolume passes its request on. *)
Definition pass_on (c : DriverCall) : M st (outcome (result unit)) :=
  let* r := forward c in
  mret (Return match r with Err err => Err err | Ok _ => Ok tt end).

Definition NodePublishVolume (req : NodePublishRequest) : M st (outcome (result unit)) :=
  let volumeID := NormalizeVolumeID (np_VolumeId req) in
  let* g := api (vol_Get csi_Namespace volumeID) in
  match g with
  | Err _ => pass_on (DNodePublish req)
  | Ok saved =>
      let targetPath := np_TargetPath req in
      let* _m := api (fs_change "mkdir" targetPath) in
      let* _k := api (fs_change "kata-add" targetPath) in
      match getPodUIDandVolumeName targetPath with
      | Panic => mret Panic
      | Return (podUid, volumeName) =>
          match set_label (v_Labels saved) "podUid" podUid with
          | Panic => mret Panic
          | Return labels =>
              let savedVolumeName := VolumeName (v_Spec saved) in
              let placeholder := String.eqb savedVolumeName peerpodVolumeNamePlaceholder in
              if (negb (String.eqb volumeName savedVolumeName) && negb placeholder)%bool then
                mret (Return (Err (Errorf "the volume name from target path doesn't match with the CR" [])))
              else
                let labels' := if placeholder then fmap (M := option) <["volumeName" := volumeName]> labels else labels in
                let name := if placeholder then volumeName else savedVolumeName in
                let* r := update_then_state volumeID
                  (with_spec saved labels'
                     (cache_npublish (v_Spec saved) targetPath podUid name (marshal_npublish req)))
                  NodePublishVolumeCached in
                mret (Return r)
          end
      end
  end.

Definition cache_stage (s : VolumeSpec) (staging req : string) : VolumeSpec :=
  mkVolumeSpec (PodName s) (PodNamespace s) (PodUid s) (NodeID s) (NodeName s) (VolumeID s)
    (VolumeName s) (VMID s) (VMName s) (DevicePath s) staging (TargetPath s)
    (WrapperControllerPublishVolumeReq s) (WrapperControllerPublishVolumeRes s) req
    (WrapperNodePublishVolumeReq s) (WrapperNodeUnpublishVolumeReq s) (WrapperNodeUnstageVolumeReq s).

Definition NodeStageVolume (req : NodeStageRequest) : M st (outcome (result unit)) :=
  let volumeID := NormalizeVolumeID (ns_VolumeId req) in
  let* g := api (vol_Get csi_Namespace volumeID) in
  match g with
  | Err _ => pass_on (DNodeStage req)
  | Ok saved =>
      let* _m := api (fs_change "mkdir" (ns_StagingTargetPath req)) in
      let* r := update_then_state volumeID
        (with_spec saved (v_Labels saved)
           (cache_stage (v_Spec saved) (ns_StagingTargetPath req) (marshal_stage req)))
        NodeStageVolumeCached in
      mret (Return r)
  end.

Definition cache_unpublish (s : VolumeSpec) (req : string) : VolumeSpec :=
  mkVolumeSpec (PodName s) (PodNamespace s) (PodUid s) (NodeID s) (NodeName s) (VolumeID s)
    (VolumeName s) (VMID s) (VMName s) (DevicePath s) (StagingTargetPath s) (TargetPath s)
    (WrapperControllerPublishVolumeReq s) (WrapperControllerPublishVolumeRes s)
    (WrapperNodeStageVolumeReq s) (WrapperNodePublishVolumeReq s) req (WrapperNodeUnstageVolumeReq s).

Definition cache_unstage (s : VolumeSpec) (req : string) : VolumeSpec :=
  mkVolumeSpec (PodName s) (PodNamespace s) (PodUid s) (NodeID s) (NodeName s) (VolumeID s)
    (VolumeName s) (VMID s) (VMName s) (DevicePath s) (StagingTargetPath s) (TargetPath s)
    (WrapperControllerPublishVolumeReq s) (WrapperControllerPublishVolumeRes s)
    (WrapperNodeStageVolumeReq s) (WrapperNodePublishVolumeReq s) (WrapperNodeUnpublishVolumeReq s) req.

(** The new state goes into the object Update returned, the status update is
    made with the object that was read. *)
Definition update_and_state_saved (saved : PeerpodVolume) : M st (result unit) :=
  let* u := api (vol_Update csi_Namespace saved) in
  match u with
  | Err err => mret (Err err)
  | Ok _updated =>
      let* us := api (vol_UpdateStatus csi_Namespace saved) in
      mret match us with Err err => Err err | Ok _ => Ok tt end
  end.

Definition NodeUnpublishVolume (req : NodeUnpublishRequest) : M st (outcome (result unit)) :=
  let* g := api (vol_Get csi_Namespace (NormalizeVolumeID (nu_VolumeId req))) in
  match g with
  | Err _ => pass_on (DNodeUnpublish req)
  | Ok saved =>
      let* _m := api (fs_change "remove" (nu_TargetPath req)) in
      let* _k := api (fs_change "kata-remove" (nu_TargetPath req)) in
      let* r := update_and_state_saved
        (with_spec saved (v_Labels saved) (cache_unpublish (v_Spec saved) (marshal_unpublish req))) in
      mret (Return r)
  end.

Definition NodeUnstageVolume (req : NodeUnstageRequest) : M st (outcome (result unit)) :=
  let* g := api (vol_Get csi_Namespace (NormalizeVolumeID (nt_VolumeId req))) in
  match g with
  | Err _ => pass_on (DNodeUnstage req)
  | Ok saved =>
      let* _m := api (fs_change "remove" (nt_StagingTargetPath req)) in
      let* r := update_and_state_saved
        (with_spec saved (v_Labels saved) (cache_unstage (v_Spec saved) (marshal_unstage req))) in
      mret (Return r)
  end.

Definition NodeGetInfo (req : string) := forward (DOther "NodeGetInfo" req).
Definition NodeGetCapabilities (req : string) := forward (DOther "NodeGetCapabilities" req).
Definition NodeGetVolumeStats (req : string) := forward (DOther "NodeGetVolumeStats" req).
Definition NodeExpandVolume (req : string) := forward (DOther "NodeExpandVolume" req).

Definition set_vm (s : VolumeSpec) (vmID : string) : VolumeSpec :=
  mkVolumeSpec (PodName s) (PodNamespace s) (PodUid s) (NodeID s) (NodeName s) (VolumeID s)
    (VolumeName s) vmID (VMName s) (DevicePath s) (StagingTargetPath s) (TargetPath s)
    (WrapperControllerPublishVolumeReq s) (WrapperControllerPublishVolumeRes s)
    (WrapperNodeStageVolumeReq s) (WrapperNodePublishVolumeReq s) (WrapperNodeUnpublishVolumeReq s)
    (WrapperNodeUnstageVolumeReq s).

(** The information service is dialled before it is asked; a failed dial ends
    the process ([glog.Fatalf]), which is [Panic] here. *)
Definition Node_SyncHandler (v : PeerpodVolume) : M st (outcome unit) :=
  if negb (String.eqb (NodeName (v_Spec v)) (csi_getenv "POD_NODE_NAME")) then mret (Return tt)
  else if String.eqb (v_State v) PeerPodVSIRunning then
    let* e := api vminfo_dial in
    match e with
    | Some _ => mret Panic
    | None =>
        let* r := api (GetVMInfo (PodNamespace (v_Spec v)) (PodName (v_Spec v))) in
        match r with
        | Err _ => mret (Return tt)
        | Ok vmID =>
            match set_label (v_Labels v) "vmID" (NormalizeVMID vmID) with
            | Panic => mret Panic
            | Return labels =>
                let* u := api (vol_Update csi_Namespace (with_spec v labels (set_vm (v_Spec v) vmID))) in
                let* _us := api (vol_UpdateStatus csi_Namespace (with_state (object u) PeerPodVSIIDReady)) in
                mret (Return tt)
            end
        end
    end
  else mret (Return tt).

(** ** Pod VM: podvmservice.go *)

(** The loop of the two retried requests: [budget] more rounds are left after
    this one.  [attempt] is one round and tells whether it succeeded. *)
Fixpoint retry_loop (budget : nat) (attempt : M st bool) : M st bool :=
  let* reproduced := attempt in
  match budget with
  | O => mret reproduced
  | S budget' => if reproduced then mret true else retry_loop budget' attempt
  end.

Definition max_retry : nat := 20.

(** One round: the driver is called, and on success the state is recorded. *)
Definition reproduce_attempt (c : DriverCall) (v : PeerpodVolume) (state : string) : M st bool :=
  let* r := redirect (
    let* a := client c in
    match a with
    | Err _ => mret false
    | Ok _ =>
        let* us := api (vol_UpdateStatus csi_Namespace (with_state v state)) in
        mret (is_ok us)
    end) in
  mret match r with Ok b => b | Err _ => false end.

(** The made-up publish context of the cached request is replaced by the real
    one of the controller. *)
Definition real_context (v : PeerpodVolume) : gmap string string :=
  let publishContext := default ∅ (unmarshal_context (WrapperControllerPublishVolumeRes (v_Spec v))) in
  <["device-path" := DevicePath (v_Spec v)]> publishContext.

Definition ReproduceNodeStageVolume (v : PeerpodVolume) : M st unit :=
  match unmarshal_stage (WrapperNodeStageVolumeReq (v_Spec v)) with
  | None => mret tt
  | Some req =>
      let modified := mkStage (ns_VolumeId req) (ns_StagingTargetPath req) (real_context v) (ns_rest req) in
      let* _b := retry_loop max_retry (reproduce_attempt (DNodeStage modified) v NodeStageVolumeApplied) in
      mret tt
  end.

Definition ReproduceNodePublishVolume (v : PeerpodVolume) : M st unit :=
  match unmarshal_npublish (WrapperNodePublishVolumeReq (v_Spec v)) with
  | None => mret tt
  | Some req =>
      let* _b := retry_loop max_retry (reproduce_attempt (DNodePublish req) v NodePublishVolumeApplied) in
      mret tt
  end.

Definition ReproduceNodeUnpublishVolume (v : PeerpodVolume) : M st unit :=
  match unmarshal_unpublish (WrapperNodeUnpublishVolumeReq (v_Spec v)) with
  | None => mret tt
  | Some req =>
      let* _b := reproduce_attempt (DNodeUnpublish req) v NodeUnpublishVolumeApplied in mret tt
  end.

Definition ReproduceNodeUnstageVolume (v : PeerpodVolume) : M st unit :=
  match unmarshal_unstage (WrapperNodeUnstageVolumeReq (v_Spec v)) with
  | None => mret tt
  | Some req =>
      let* _b := reproduce_attempt (DNodeUnstage req) v NodeUnstageVolumeApplied in mret tt
  end.

Definition PodVM_SyncHandler (v : PeerpodVolume) : M st unit :=
  if (negb (String.eqb (PodName (v_Spec v)) (csi_getenv "POD_NAME"))
      || negb (String.eqb (PodNamespace (v_Spec v)) (csi_getenv "POD_NAME_SPACE")))%bool then mret tt
  else if String.eqb (v_State v) ControllerPublishVolumeApplied then ReproduceNodeStageVolume v
  else if String.eqb (v_State v) NodeStageVolumeApplied then ReproduceNodePublishVolume v
  else if String.eqb (v_State v) NodeUnpublishVolumeCached then ReproduceNodeUnpublishVolume v
  else if String.eqb (v_State v) NodeUnstageVolumeCached then ReproduceNodeUnstageVolume v
  else mret tt.

(** The requests the pod VM's wrapper passes on. *)
Definition PodVM_NodePublishVolume (req : NodePublishRequest) := forward (DNodePublish req).
Definition PodVM_NodeUnpublishVolume (req : NodeUnpublishRequest) := forward (DNodeUnpublish req).
Definition PodVM_NodeStageVolume (req : NodeStageRequest) := forward (DNodeStage req).
Definition PodVM_NodeUnstageVolume (req : NodeUnstageRequest) := forward (DNodeUnstage req).
Definition PodVM_NodeGetInfo (req : string) := forward (DOther "NodeGetInfo" req).
Definition PodVM_NodeGetCapabilities (req : string) := forward (DOther "NodeGetCapabilities" req).
Definition PodVM_NodeGetVolumeStats (req : string) := forward (DOther "NodeGetVolumeStats" req).
Definition PodVM_NodeExpandVolume (req : string) := forward (DOther "NodeExpandVolume" req).

(** *** Start of the pod VM's wrapper: cmd/csi-podvm-wrapper/main.go *)

Definition set_pod (s : VolumeSpec) (podName podNamespace podNodeName : string) : VolumeSpec :=
  mkVolumeSpec podName podNamespace (PodUid s) (NodeID s) podNodeName (VolumeID s)
    (VolumeName s) (VMID s) (VMName s) (DevicePath s) (StagingTargetPath s) (TargetPath s)
    (WrapperControllerPublishVolumeReq s) (WrapperControllerPublishVolumeRes s)
    (WrapperNodeStageVolumeReq s) (WrapperNodePublishVolumeReq s) (WrapperNodeUnpublishVolumeReq s)
    (WrapperNodeUnstageVolumeReq s).

(** One item of the listed volumes: [Err] ends the process. *)
Definition announce_pod (v : PeerpodVolume) : M st (outcome (result unit)) :=
  let podName := csi_getenv "POD_NAME" in
  let podNamespace := csi_getenv "POD_NAME_SPACE" in
  let podNodeName := csi_getenv "POD_NODE_NAME" in
  match v_Labels v with
  | None => mret Panic
  | Some m =>
      let labels := Some (<["podNodeName" := podNodeName]> (<["podNamespace" := podNamespace]>
                            (<["podName" := podName]> m))) in
      let* u := api (vol_Update csi_Namespace (with_spec v labels (set_pod (v_Spec v) podName podNamespace podNodeName))) in
      match u with
      | Err err => mret (Return (Err err))
      | Ok updated =>
          let* us := api (vol_UpdateStatus csi_Namespace (with_state updated PeerPodVSIRunning)) in
          mret (Return match us with Err err => Err err | Ok _ => Ok tt end)
      end
  end.

Fixpoint announce_pods (items : list PeerpodVolume) : M st (outcome (result unit)) :=
  match items with
  | [] => mret (Return (Ok tt))
  | v :: rest =>
      let* r := announce_pod v in
      match r with
      | Return (Ok _) => announce_pods rest
      | other => mret other
      end
  end.

(** ** Dispatch: peerpodvolume/controller.go

    [SplitMetaNamespaceKey]: a name alone has no namespace. *)
Definition SplitMetaNamespaceKey (key : string) : option (string * string) :=
  match split_on "/" key with
  | [name] => Some (EmptyString, name)
  | [namespace; name] => Some (namespace, name)
  | _ => None
  end.

(** [syncHandler key]: [lister] is the informer's cache.  [Some e] puts the key
    back into the queue. *)
Definition syncHandler (ns key : string) (lister : string -> result PeerpodVolume)
    (syncFunction : PeerpodVolume -> M st unit) : M st (option GoError) :=
  match SplitMetaNamespaceKey key with
  | None => mret None
  | Some (namespace, name) =>
      if negb (String.eqb namespace ns) then mret None
      else match lister name with
           | Err e => mret (if IsNotFound e then None else Some e)
           | Ok v =>
               if String.eqb (VolumeID (v_Spec v)) "" then mret None
               else let* _u := syncFunction v in mret None
           end
  end.

End Wrapper.
