(* ===== verification/CsiProps.v ===== *)
(** * Properties of the CSI wrapper

    The documented behaviour of the API server for PeerpodVolume objects (a
    status subresource and optimistic concurrency), and what the handlers of
    CsiVolumes do under it: requests are cached and reproduced unchanged but for
    the node, retries are bounded, and the states move as intended where they
    do. *)

From Stdlib Require Import ZArith Ascii String Lia.
From stdpp Require Import base gmap strings list fin_maps.
From S2P Require Import Prelude CsiVolumes.

Open Scope Z_scope.

(** ** Laws

    [vol_stored] is what the API server holds.  Update writes labels and spec and
    keeps the status, UpdateStatus writes the status alone; both are refused when
    the resource version is outdated, and a refused write changes nothing.  A
    failed call may still have been applied. *)
Class CsiLaws (W : Type) `{CsiEnv W} := {
  vol_stored : W -> string -> option PeerpodVolume;
  vol_stored_name : forall w n v, vol_stored w n = Some v -> v_Name v = n;
  vol_Get_law : forall n w r w', vol_Get csi_Namespace n w = (r, w') ->
    (forall n', vol_stored w' n' = vol_stored w n') /\
    (forall v, r = Ok v -> vol_stored w n = Some v);
  vol_Create_law : forall v w r w', vol_Create csi_Namespace v w = (r, w') ->
    forall v', r = Ok v' -> vol_stored w (v_Name v) = None /\ vol_stored w' (v_Name v) = Some v' /\
      v_Name v' = v_Name v /\ v_Labels v' = v_Labels v /\ v_Spec v' = v_Spec v;
  vol_Create_other : forall v w r w', vol_Create csi_Namespace v w = (r, w') ->
    forall n, n <> v_Name v -> vol_stored w' n = vol_stored w n;
  vol_Update_other : forall v w r w', vol_Update csi_Namespace v w = (r, w') ->
    forall n, n <> v_Name v -> vol_stored w' n = vol_stored w n;
  vol_UpdateStatus_other : forall v w r w', vol_UpdateStatus csi_Namespace v w = (r, w') ->
    forall n, n <> v_Name v -> vol_stored w' n = vol_stored w n;
  vol_Update_law : forall v w r w', vol_Update csi_Namespace v w = (r, w') ->
    let applied v' := exists old, vol_stored w (v_Name v) = Some old /\
      v_ResourceVersion old = v_ResourceVersion v /\ vol_stored w' (v_Name v) = Some v' /\
      v_Name v' = v_Name v /\ v_Labels v' = v_Labels v /\ v_Spec v' = v_Spec v /\ v_State v' = v_State old in
    (forall v', r = Ok v' -> applied v') /\
    (vol_stored w' (v_Name v) = vol_stored w (v_Name v) \/ exists v', applied v');
  vol_UpdateStatus_law : forall v w r w', vol_UpdateStatus csi_Namespace v w = (r, w') ->
    let applied v' := exists old, vol_stored w (v_Name v) = Some old /\
      v_ResourceVersion old = v_ResourceVersion v /\ vol_stored w' (v_Name v) = Some v' /\
      v_Name v' = v_Name v /\ v_Labels v' = v_Labels old /\ v_Spec v' = v_Spec old /\ v_State v' = v_State v in
    (forall v', r = Ok v' -> applied v') /\
    (vol_stored w' (v_Name v) = vol_stored w (v_Name v) \/ exists v', applied v');
  driver_law : forall c w r w', driver c w = (r, w') -> forall n, vol_stored w' n = vol_stored w n;
  dial_law : forall w r w', driver_dial w = (r, w') -> forall n, vol_stored w' n = vol_stored w n;
  uuid_law : forall w r w', uuid_NewV4 w = (r, w') -> forall n, vol_stored w' n = vol_stored w n;
  fs_law : forall k p w r w', fs_change k p w = (r, w') -> forall n, vol_stored w' n = vol_stored w n
}.

Section Props.

Context {W : Type} `{CsiLaws W} `{CsiCodec}.

Notation st := (wrapper W).

Definition held (s : st) (n : string) : option PeerpodVolume := vol_stored (vworld s) n.

(** ** Lemmas: calls *)

Lemma api_calls {A} (m : M W A) s a s' : api m s = (a, s') -> calls s' = calls s.
Proof. unfold api. destruct (m (vworld s)). by intros [= <- <-]. Qed.

Lemma api_run {A} (m : M W A) s a s' : api m s = (a, s') -> m (vworld s) = (a, vworld s').
Proof. unfold api. destruct (m (vworld s)). by intros [= <- <-]. Qed.

Lemma client_spec c s a s' :
  client c s = (a, s') -> calls s' = calls s ++ [c] /\ (forall n, held s' n = held s n).
Proof.
  unfold client, held. destruct (driver c (vworld s)) eqn:E. intros [= <- <-]. simpl.
  split; [done|]. by eapply driver_law.
Qed.

Lemma fs_spec k p s a s' :
  api (fs_change k p) s = (a, s') -> calls s' = calls s /\ (forall n, held s' n = held s n).
Proof. intros E. split; [by eapply api_calls|]. eapply fs_law. by apply api_run. Qed.

Lemma redirect_spec {A} (fn : M st A) s r s' :
  redirect fn s = (r, s') ->
  exists s1, calls s1 = calls s /\ (forall n, held s1 n = held s n) /\
    match r with
    | Err _ => s' = s1
    | Ok a => fn s1 = (a, s')
    end.
Proof.
  unfold redirect, mbind, mret. destruct (api driver_dial s) as [e s1] eqn:E1.
  pose proof (api_calls _ _ _ _ E1). pose proof (dial_law _ _ _ (api_run _ _ _ _ E1)).
  destruct e; [intros [= <- <-]; by exists s1|].
  destruct (fn s1) as [a s2] eqn:E2. intros [= <- <-]. by exists s1.
Qed.

(** The handlers that pass their request on, by the driver call they make. *)
Inductive forwards : DriverCall -> M st (result DriverAnswer) -> Prop :=
| fw_validate q : forwards (DOther "ValidateVolumeCapabilities" q) (ValidateVolumeCapabilities q)
| fw_list q : forwards (DOther "ListVolumes" q) (ListVolumes q)
| fw_capacity q : forwards (DOther "GetCapacity" q) (GetCapacity q)
| fw_caps q : forwards (DOther "ControllerGetCapabilities" q) (ControllerGetCapabilities q)
| fw_csnap q : forwards (DOther "CreateSnapshot" q) (CreateSnapshot q)
| fw_dsnap q : forwards (DOther "DeleteSnapshot" q) (DeleteSnapshot q)
| fw_lsnap q : forwards (DOther "ListSnapshots" q) (ListSnapshots q)
| fw_expand q : forwards (DOther "ControllerExpandVolume" q) (ControllerExpandVolume q)
| fw_getvol q : forwards (DOther "ControllerGetVolume" q) (ControllerGetVolume q)
| fw_info q : forwards (DOther "NodeGetInfo" q) (NodeGetInfo q)
| fw_ncaps q : forwards (DOther "NodeGetCapabilities" q) (NodeGetCapabilities q)
| fw_stats q : forwards (DOther "NodeGetVolumeStats" q) (NodeGetVolumeStats q)
| fw_nexpand q : forwards (DOther "NodeExpandVolume" q) (NodeExpandVolume q)
| fw_vpublish q : forwards (DNodePublish q) (PodVM_NodePublishVolume q)
| fw_vunpublish q : forwards (DNodeUnpublish q) (PodVM_NodeUnpublishVolume q)
| fw_vstage q : forwards (DNodeStage q) (PodVM_NodeStageVolume q)
| fw_vunstage q : forwards (DNodeUnstage q) (PodVM_NodeUnstageVolume q)
| fw_vinfo q : forwards (DOther "NodeGetInfo" q) (PodVM_NodeGetInfo q)
| fw_vcaps q : forwards (DOther "NodeGetCapabilities" q) (PodVM_NodeGetCapabilities q)
| fw_vstats q : forwards (DOther "NodeGetVolumeStats" q) (PodVM_NodeGetVolumeStats q)
| fw_vexpand q : forwards (DOther "NodeExpandVolume" q) (PodVM_NodeExpandVolume q).

(** The wrapper is transparent for requests that do not concern peer pods:
    each forwarding handler leaves the PeerpodVolumes alone and either makes
    exactly one call, its own request, and returns the driver's answer, or
    reports that the driver could not be reached without calling it. *)
Theorem forwarding_is_transparent c m s :
  forwards c m ->
  let '(r, s') := m s in
  (forall n, held s' n = held s n) /\
  (exists s1, calls s1 = calls s /\ (forall n, held s1 n = held s n) /\
     (calls s' = calls s /\ is_ok r = false \/ calls s' = calls s ++ [c] /\ (r, s') = client c s1)).
Proof.
  intros Hf. assert (m = forward c) as -> by by destruct Hf.
  unfold forward, mbind, mret. destruct (redirect (client c) s) as [r s'] eqn:E.
  apply redirect_spec in E as (s1 & Hc & Hh & Hr). destruct r as [a|e].
  - pose proof (client_spec _ _ _ _ Hr) as [Hc1 Hh1]. rewrite Hc in Hc1.
    split; [intros n; by rewrite Hh1|]. exists s1. split; [done|]. split; [done|]. right. by rewrite Hr.
  - subst. split; [done|]. exists s1. split; [done|]. split; [done|]. by left.
Qed.

(** ** Lemmas: writes *)

Lemma Get_spec n s r s' :
  api (vol_Get csi_Namespace n) s = (r, s') ->
  calls s' = calls s /\ (forall m, held s' m = held s m) /\ (forall v, r = Ok v -> held s n = Some v).
Proof. intros E. split; [by eapply api_calls|]. eapply vol_Get_law. by apply api_run. Qed.

Lemma Update_spec v s r s' :
  api (vol_Update csi_Namespace v) s = (r, s') ->
  calls s' = calls s /\ (forall n, n <> v_Name v -> held s' n = held s n) /\
  (forall n, v_State <$> held s' n = v_State <$> held s n) /\
  (v_Spec <$> held s' (v_Name v) = v_Spec <$> held s (v_Name v) \/
   v_Spec <$> held s' (v_Name v) = Some (v_Spec v)) /\
  (forall v', r = Ok v' -> held s' (v_Name v) = Some v' /\ v_Name v' = v_Name v /\ v_Spec v' = v_Spec v).
Proof.
  intros E. split; [by eapply api_calls|]. apply api_run in E.
  pose proof (vol_Update_other _ _ _ _ E) as Ho. apply vol_Update_law in E as [Hok Heff].
  split; [done|]. unfold held. split; [|split].
  - intros n. destruct (decide (n = v_Name v)) as [->|Hne]; [|by rewrite Ho].
    destruct Heff as [->|(v' & old & Hold & _ & Hnew & _ & _ & _ & Hst)]; [done|].
    rewrite Hold, Hnew. simpl. by rewrite Hst.
  - destruct Heff as [->|(v' & old & Hold & _ & Hnew & _ & _ & Hsp & _)]; [by left|right].
    rewrite Hnew. simpl. by rewrite Hsp.
  - intros v' Hr. destruct (Hok v' Hr) as (old & _ & _ & Hnew & Hn & _ & Hsp & _). done.
Qed.

Lemma UpdateStatus_spec v s r s' :
  api (vol_UpdateStatus csi_Namespace v) s = (r, s') ->
  calls s' = calls s /\ (forall n, n <> v_Name v -> held s' n = held s n) /\
  (forall n, v_Spec <$> held s' n = v_Spec <$> held s n) /\
  (v_State <$> held s' (v_Name v) = v_State <$> held s (v_Name v) \/
   v_State <$> held s' (v_Name v) = Some (v_State v)) /\
  (forall v', r = Ok v' -> v_State <$> held s' (v_Name v) = Some (v_State v)).
Proof.
  intros E. split; [by eapply api_calls|]. apply api_run in E.
  pose proof (vol_UpdateStatus_other _ _ _ _ E) as Ho. apply vol_UpdateStatus_law in E as [Hok Heff].
  split; [done|]. unfold held. split; [|split].
  - intros n. destruct (decide (n = v_Name v)) as [->|Hne]; [|by rewrite Ho].
    destruct Heff as [->|(v' & old & Hold & _ & Hnew & _ & _ & Hsp & _)]; [done|].
    rewrite Hold, Hnew. simpl. by rewrite Hsp.
  - destruct Heff as [->|(v' & old & Hold & _ & Hnew & _ & _ & _ & Hst)]; [by left|right].
    rewrite Hnew. simpl. by rewrite Hst.
  - intros v' Hr. destruct (Hok v' Hr) as (old & _ & _ & Hnew & _ & _ & _ & Hst).
    rewrite Hnew. simpl. by rewrite Hst.
Qed.

(** ** Publishing *)

Lemma publish_cached_spec volumeID req saved s ctx s' :
  publish_cached volumeID req saved s = (Return (Ok ctx), s') ->
  calls s' = calls s /\ (exists requestID, ctx = fake_context volumeID requestID) /\
  exists v', held s' (v_Name saved) = Some v' /\ v_State v' = ControllerPublishVolumeCached /\
    NodeID (v_Spec v') = cp_NodeId req /\
    unmarshal_publish (WrapperControllerPublishVolumeReq (v_Spec v')) = Some req /\
    unmarshal_context (WrapperControllerPublishVolumeRes (v_Spec v')) = Some ctx.
Proof.
  unfold publish_cached, mbind, mret. destruct (api uuid_NewV4 s) as [rid s1] eqn:E1.
  apply api_calls in E1. destruct (set_label _ _ _) as [labels|]; [|done].
  destruct (api (vol_Update csi_Namespace _) s1) as [u s2] eqn:E2. apply Update_spec in E2 as (C2 & _ & _ & _ & Hw2).
  destruct u as [updated|]; [|done]. destruct (Hw2 updated eq_refl) as (Hheld & Hn & Hsp). simpl in Hheld, Hn, Hsp.
  destruct (api (vol_UpdateStatus csi_Namespace _) s2) as [us s3] eqn:E3.
  apply UpdateStatus_spec in E3 as (C3 & _ & S3 & _ & Hw3).
  destruct us as [x|]; [|done]. intros [= <- <-]. split; [congruence|]. split; [by eexists|].
  specialize (Hw3 x eq_refl). simpl in Hw3. rewrite Hn in Hw3. specialize (S3 (v_Name saved)). rewrite Hheld in S3.
  destruct (held s3 (v_Name saved)) as [v'|]; [|done]. simpl in Hw3, S3. simplify_eq.
  exists v'. split; [done|]. split; [done|]. rewrite S3, Hsp. simpl.
  by rewrite publish_roundtrip, context_roundtrip.
Qed.

Lemma createPeerpodVolume_spec id name s r s' :
  createPeerpodVolume id name s = (r, s') ->
  calls s' = calls s /\ (forall v, r = Ok v -> held s id = None /\ v_Name v = id).
Proof.
  unfold createPeerpodVolume. intros E. split; [by eapply api_calls|]. intros v Hr. apply api_run in E.
  by destruct (vol_Create_law _ _ _ _ E v Hr) as (? & _ & ? & _).
Qed.

(** Publishing a peer pod's volume is only cached: when the volume has its
    PeerpodVolume and ControllerPublishVolume succeeds, the storage driver has
    not been called, and the object is in the cached state and holds the request
    and the response in a form from which both are read back unchanged. *)
Theorem ControllerPublishVolume_caches req s v ctx s' :
  held s (NormalizeVolumeID (cp_VolumeId req)) = Some v ->
  ControllerPublishVolume req s = (Return (Ok ctx), s') ->
  calls s' = calls s /\
  exists v', held s' (NormalizeVolumeID (cp_VolumeId req)) = Some v' /\
    v_State v' = ControllerPublishVolumeCached /\ NodeID (v_Spec v') = cp_NodeId req /\
    unmarshal_publish (WrapperControllerPublishVolumeReq (v_Spec v')) = Some req /\
    unmarshal_context (WrapperControllerPublishVolumeRes (v_Spec v')) = Some ctx.
Proof.
  intros Hv. unfold ControllerPublishVolume, mbind. set (id := NormalizeVolumeID (cp_VolumeId req)) in *.
  destruct (api (vol_Get csi_Namespace id) s) as [g s1] eqn:E1. apply Get_spec in E1 as (C1 & Hw1 & G1).
  destruct g as [saved|err].
  { intros E. specialize (G1 saved eq_refl). pose proof (vol_stored_name _ _ _ G1) as Hn.
    apply publish_cached_spec in E as (C2 & _ & v' & Hheld & Hst). rewrite Hn in Hheld.
    split; [congruence|]. eauto. }
  assert (forall s2 r s3, held s2 id = held s id ->
    createPeerpodVolume id peerpodVolumeNamePlaceholder s2 = (r, s3) -> is_ok r = false) as Hno.
  { intros s2 r s3 Hh E. apply createPeerpodVolume_spec in E as [_ Hc]. destruct r as [x|]; [|done].
    destruct (Hc x eq_refl) as [Hc' _]. congruence. }
  destruct (String.eqb _ "").
  - destruct (redirect _ s1) as [r s2] eqn:E2. apply redirect_spec in E2 as (s1' & _ & Hw1' & Hr).
    destruct r as [a|]; [|done]. apply client_spec in Hr as [_ Hw2].
    destruct (createPeerpodVolume _ _ s2) as [c s3] eqn:E3. apply Hno in E3; [|by rewrite Hw2, Hw1', Hw1].
    by destruct c.
  - destruct (createPeerpodVolume _ _ s1) as [c s3] eqn:E3. apply Hno in E3; [|by rewrite Hw1].
    by destruct c.
Qed.

(** A volume that is not for a peer pod is hijacked: when there is no
    PeerpodVolume and the request does not ask for one, the request is passed
    to the driver, and then a PeerpodVolume is created all the same and the
    driver's answer is replaced by the made-up one. *)
Theorem ControllerPublishVolume_hijacks_ordinary_volumes req s e w1 ctx s' :
  vol_Get csi_Namespace (NormalizeVolumeID (cp_VolumeId req)) (vworld s) = (Err e, w1) ->
  cp_VolumeContext req !! PeerpodParamKey = None ->
  ControllerPublishVolume req s = (Return (Ok ctx), s') ->
  calls s' = calls s ++ [DControllerPublish req] /\
  (exists requestID, ctx = fake_context (NormalizeVolumeID (cp_VolumeId req)) requestID) /\
  exists v', held s' (NormalizeVolumeID (cp_VolumeId req)) = Some v' /\
    v_State v' = ControllerPublishVolumeCached.
Proof.
  intros Eg Hkey. unfold ControllerPublishVolume, mbind. set (id := NormalizeVolumeID (cp_VolumeId req)) in *.
  unfold api at 1. rewrite Eg, Hkey. simpl.
  destruct (redirect _ _) as [r s2] eqn:E2. apply redirect_spec in E2 as (s1 & C1 & _ & Hr).
  destruct r as [a|]; [|done]. apply client_spec in Hr as [C2 _].
  destruct (createPeerpodVolume _ _ s2) as [c s3] eqn:E3. apply createPeerpodVolume_spec in E3 as [C3 Hc].
  destruct c as [saved|]; [|done]. destruct (Hc saved eq_refl) as [_ Hn]. intros E.
  apply publish_cached_spec in E as (C4 & Hctx & v' & Hheld & Hst & _). rewrite Hn in Hheld.
  split; [rewrite C4, C3, C2, C1; done|]. eauto.
Qed.

Lemma record_attached_spec v ctx s u s' :
  record_attached v ctx s = (u, s') ->
  calls s' = calls s /\
  (v_State <$> held s' (v_Name v) = v_State <$> held s (v_Name v) \/
   v_State <$> held s' (v_Name v) = Some ControllerPublishVolumeApplied).
Proof.
  unfold record_attached, mbind, mret. destruct (api (vol_Update csi_Namespace _) s) as [r s1] eqn:E1.
  apply Update_spec in E1 as (C1 & _ & S1 & _ & Hw1). destruct r as [updated|].
  2:{ intros [= <- <-]. split; [done|]. left. apply S1. }
  destruct (Hw1 updated eq_refl) as (_ & Hn & _). simpl in Hn.
  destruct (api (vol_UpdateStatus csi_Namespace _) s1) as [us s2] eqn:E2. apply UpdateStatus_spec in E2 as (C2 & _ & _ & S2 & _).
  simpl in S2. rewrite Hn in S2. intros [= <- <-]. split; [congruence|]. destruct S2 as [->|]; [left; apply S1|by right].
Qed.

(** The controller attaches a volume to the pod VM and only then: handling a
    PeerpodVolume makes at most one driver call, only when the VM's id is ready
    and no device is known; the call is the cached request with the VM in place
    of the worker node, and the state becomes Applied only if it was made. *)
Theorem Controller_SyncHandler_attaches v s :
  let '(_, s') := Controller_SyncHandler v s in
  (calls s' = calls s /\ v_State <$> held s' (v_Name v) = v_State <$> held s (v_Name v)) \/
  (v_State v = PeerPodVSIIDReady /\ DevicePath (v_Spec v) = "" /\
   exists req, unmarshal_publish (WrapperControllerPublishVolumeReq (v_Spec v)) = Some req /\
     calls s' = calls s ++ [DControllerPublish (mkCPub (cp_VolumeId req)
       (driver_node_id (VMID (v_Spec v))) (cp_VolumeContext req) (cp_rest req))] /\
     (v_State <$> held s' (v_Name v) = v_State <$> held s (v_Name v) \/
      v_State <$> held s' (v_Name v) = Some ControllerPublishVolumeApplied)).
Proof.
  unfold Controller_SyncHandler. destruct (_ && _)%bool eqn:E; [|by left]. bool_to_prop.
  destruct (unmarshal_publish _) as [req|]; [|by left]. unfold mbind, mret.
  destruct (redirect _ s) as [r s'] eqn:Er. apply redirect_spec in Er as (s1 & C1 & Hw1 & Hr).
  destruct r as [u|]; [|subst; left; split; [done|by rewrite Hw1]]. right. do 2 (split; [done|]).
  exists req. split; [done|]. unfold reproduce_publish, mbind, mret in Hr.
  destruct (client _ s1) as [a s2] eqn:E2. apply client_spec in E2 as [C2 Hw2].
  destruct a as [answer|].
  - apply record_attached_spec in Hr as [C3 S3]. split; [congruence|]. by rewrite Hw2, Hw1 in S3.
  - simplify_eq. split; [congruence|]. left. by rewrite Hw2, Hw1.
Qed.

(** ** Reproduction in the pod VM *)

Lemma reproduce_attempt_spec c v state s b s' :
  reproduce_attempt c v state s = (b, s') ->
  (calls s' = calls s \/ calls s' = calls s ++ [c]) /\
  (b = true -> calls s' = calls s ++ [c] /\ v_State <$> held s' (v_Name v) = Some state).
Proof.
  unfold reproduce_attempt, mbind, mret. destruct (redirect _ s) as [r s1] eqn:E.
  apply redirect_spec in E as (s0 & C0 & _ & Hr). destruct r as [b'|].
  2:{ subst. intros [= <- <-]. split; [by left|done]. }
  intros [= <- <-]. destruct (client c s0) as [a s2] eqn:E2. apply client_spec in E2 as [C2 _].
  destruct a as [answer|]; [|simplify_eq; split; [right; congruence|done]].
  destruct (api (vol_UpdateStatus csi_Namespace _) s2) as [us s3] eqn:E3. apply UpdateStatus_spec in E3 as (C3 & _ & _ & _ & S3).
  simplify_eq. split; [right; congruence|]. intros Hb. destruct us as [x|]; [|done].
  split; [congruence|]. by apply (S3 x).
Qed.

Lemma retry_loop_spec budget c v state s b s' :
  retry_loop budget (reproduce_attempt c v state) s = (b, s') ->
  exists k, (k <= S budget)%nat /\ calls s' = calls s ++ replicate k c /\
    (b = true -> (0 < k)%nat /\ v_State <$> held s' (v_Name v) = Some state).
Proof.
  revert s. induction budget as [|budget IH]; intros s; cbn [retry_loop]; unfold mbind, mret;
    destruct (reproduce_attempt c v state s) as [b1 s1] eqn:E1; apply reproduce_attempt_spec in E1 as [C1 T1].
  - intros [= <- <-]. destruct b1.
    + destruct (T1 eq_refl) as [C T]. exists 1%nat. split; [lia|]. split; [done|]. intros _. split; [lia|done].
    + destruct C1 as [->| ->]; [exists 0%nat|exists 1%nat]; simpl; rewrite ?app_nil_r; (split; [lia|done]).
  - destruct b1; [intros [= <- <-]|intros E].
    + destruct (T1 eq_refl) as [C T]. exists 1%nat. split; [lia|]. split; [done|]. intros _. split; [lia|done].
    + apply IH in E as (k & Hk & Ck & Tk). destruct C1 as [C1|C1]; rewrite C1 in Ck.
      * exists k. split; [lia|done].
      * exists (S k). split; [lia|]. rewrite <- app_assoc in Ck. split; [done|]. intros Hb.
        destruct (Tk Hb). split; [lia|done].
Qed.

(** Staging in the pod VM is retried a bounded number of times and with the
    right request: at most 21 driver calls are made, all of the cached request
    with the controller's real publish context and the VM's device path in place
    of the made-up one. *)
Theorem ReproduceNodeStageVolume_bounded v s :
  let '(_, s') := ReproduceNodeStageVolume v s in
  exists k, (k <= 21)%nat /\
  match unmarshal_stage (WrapperNodeStageVolumeReq (v_Spec v)) with
  | None => k = 0%nat /\ s' = s
  | Some req => exists ctx,
      calls s' = calls s ++ replicate k (DNodeStage (mkStage (ns_VolumeId req) (ns_StagingTargetPath req) ctx (ns_rest req))) /\
      ctx !! "device-path" = Some (DevicePath (v_Spec v)) /\
      (forall c key, unmarshal_context (WrapperControllerPublishVolumeRes (v_Spec v)) = Some c ->
         key <> "device-path" -> ctx !! key = c !! key)
  end.
Proof.
  unfold ReproduceNodeStageVolume. destruct (unmarshal_stage _) as [req|]; [|by exists 0%nat; split; [lia|]].
  unfold mbind, mret. destruct (retry_loop _ _ s) as [b s'] eqn:E.
  apply retry_loop_spec in E as (k & Hk & Ck & _). exists k. split; [unfold max_retry in Hk; lia|].
  exists (real_context v). split; [done|]. unfold real_context. split; [apply lookup_insert_eq|].
  intros c key -> Hkey. simpl. by rewrite lookup_insert_ne.
Qed.

(** ** Unpublishing *)

Lemma update_and_state_saved_state v0 v s r s' :
  held s (v_Name v) = Some v0 -> v_State v = v_State v0 ->
  update_and_state_saved v s = (r, s') -> forall n, v_State <$> held s' n = v_State <$> held s n.
Proof.
  intros Hv Hst. unfold update_and_state_saved, mbind, mret.
  destruct (api (vol_Update csi_Namespace v) s) as [u s1] eqn:E1. apply Update_spec in E1 as (_ & _ & S1 & _).
  destruct u as [x|]; [|by intros [= <- <-]].
  destruct (api (vol_UpdateStatus csi_Namespace v) s1) as [us s2] eqn:E2. apply UpdateStatus_spec in E2 as (_ & O2 & _ & S2 & _).
  intros [= <- <-] n. destruct (decide (n = v_Name v)) as [->|Hne]; [|by rewrite O2].
  destruct S2 as [->| ->]; [apply S1|]. rewrite Hv. simpl. by rewrite Hst.
Qed.

(** Unpublishing a peer pod's volume is never signalled: NodeUnpublishVolume
    leaves the state of every PeerpodVolume as it was, because it updates the
    status with the object it read instead of the one it has put the new state
    into.  The pod VM, which waits for the state NodeUnpublishVolumeCached, does
    not unpublish. *)
Theorem NodeUnpublishVolume_never_signals req s :
  let '(_, s') := NodeUnpublishVolume req s in
  forall n, v_State <$> held s' n = v_State <$> held s n.
Proof.
  unfold NodeUnpublishVolume, mbind, mret.
  destruct (api (vol_Get csi_Namespace _) s) as [g s1] eqn:E1. apply Get_spec in E1 as (_ & Hw1 & G1).
  destruct g as [saved|].
  - specialize (G1 saved eq_refl). pose proof (vol_stored_name _ _ _ G1) as Hn.
    destruct (api (fs_change _ _) s1) as [u2 s2] eqn:E2. apply fs_spec in E2 as [_ Hw2].
    destruct (api (fs_change _ _) s2) as [u3 s3] eqn:E3. apply fs_spec in E3 as [_ Hw3].
    destruct (update_and_state_saved _ s3) as [r s4] eqn:E4. intros n.
    erewrite update_and_state_saved_state; [by rewrite Hw3, Hw2, Hw1| | |exact E4].
    + simpl. rewrite Hw3, Hw2, Hw1, Hn. exact G1.
    + done.
  - unfold pass_on, forward, mbind, mret. destruct (redirect _ s1) as [r s2] eqn:E2.
    apply redirect_spec in E2 as (s1' & _ & Hw1' & Hr). intros n. destruct r as [a|].
    + apply client_spec in Hr as [_ Hw2]. by rewrite Hw2, Hw1', Hw1.
    + subst. by rewrite Hw1', Hw1.
Qed.

(** Detaching follows the VM: for a volume with a PeerpodVolume,
    ControllerUnpublishVolume reports success whatever happens, calls the driver
    at most once, only when the volume is attached to the pod VM and with the
    VM's id, and leaves the object with its old specification or with one in
    which only the volume's id and name are kept. *)
Theorem ControllerUnpublishVolume_detaches id node s v w1 :
  vol_Get csi_Namespace (NormalizeVolumeID id) (vworld s) = (Ok v, w1) ->
  let '(r, s') := ControllerUnpublishVolume id node s in
  r = Ok tt /\
  (calls s' = calls s \/
   Contains_sub (v_State v) "Applied" = true /\
   calls s' = calls s ++ [DControllerUnpublish id (VMID (v_Spec v))]) /\
  (v_Spec <$> held s' (v_Name v) = Some (v_Spec v) \/
   v_Spec <$> held s' (v_Name v) = Some (reset_spec (v_Spec v))).
Proof.
  intros Eg. destruct (vol_Get_law _ _ _ _ Eg) as [Hsame Hv]. specialize (Hv v eq_refl).
  pose proof (vol_stored_name _ _ _ Hv) as Hn.
  unfold ControllerUnpublishVolume, mbind, mret. unfold api at 1. rewrite Eg.
  set (s1 := mkWrapper (calls s) w1).
  assert (held s1 (v_Name v) = Some v) as Hv1 by (unfold held; simpl; by rewrite Hsame, Hn).
  destruct (detach_applied id v s1) as [u s2] eqn:E2.
  assert ((calls s2 = calls s \/ Contains_sub (v_State v) "Applied" = true /\
           calls s2 = calls s ++ [DControllerUnpublish id (VMID (v_Spec v))]) /\
          forall n, held s2 n = held s1 n) as [C2 Hw2].
  { unfold detach_applied, mbind, mret in E2.
    destruct (Contains_sub (v_State v) "Applied") eqn:Ea; [|simplify_eq; split; [by left|done]].
    destruct (redirect _ s1) as [r s1'] eqn:Er. apply redirect_spec in Er as (s0 & C0 & H0' & Hr). simplify_eq.
    destruct r as [a|]; [|subst; split; [by left|done]]. apply client_spec in Hr as [Cc Hh].
    split; [right; split; [done|]; rewrite Cc, C0; done|]. intros n. by rewrite Hh, H0'. }
  destruct (api (vol_Update csi_Namespace _) s2) as [up s3] eqn:E3. apply Update_spec in E3 as (C3 & _ & _ & S3 & Hw3).
  destruct (api (vol_UpdateStatus csi_Namespace _) s3) as [us s4] eqn:E4. apply UpdateStatus_spec in E4 as (C4 & _ & S4 & _ & _).
  split; [done|]. rewrite C4, C3. split; [done|]. simpl in S3. rewrite S4, Hw2, Hv1 in *. done.
Qed.

(** ** Errors *)

(** A driver error crashes the wrapper: when the driver refuses to create a
    volume for a peer pod, CreateVolume dereferences the missing response and
    panics instead of returning the driver's error. *)
Theorem CreateVolume_panics_on_driver_error name params rest peerpod s w1 w2 e :
  params !! PeerpodParamKey = Some peerpod -> peerpod <> "" ->
  driver_dial (vworld s) = (None, w1) ->
  driver (DCreateVolume name (delete PeerpodParamKey params) rest) w1 = (Err e, w2) ->
  (CreateVolume name params rest s).1 = Panic.
Proof.
  intros Hk Hne Ed Ec. unfold CreateVolume, mbind, mret. rewrite Hk. simpl.
  apply String.eqb_neq in Hne. rewrite Hne. unfold api. rewrite Ed. unfold client. simpl. by rewrite Ec.
Qed.

(** Deleting an ordinary volume reports an error: the driver's result is
    overwritten by that of looking for a PeerpodVolume, so DeleteVolume of a
    volume that has none fails with NotFound after the driver has deleted it. *)
Theorem DeleteVolume_reports_missing_object id s w1 w2 w3 answer e :
  driver_dial (vworld s) = (None, w1) -> driver (DDeleteVolume id) w1 = (Ok answer, w2) ->
  vol_Get csi_Namespace (NormalizeVolumeID id) w2 = (Err e, w3) ->
  DeleteVolume id s = (Err e, mkWrapper (calls s ++ [DDeleteVolume id]) w3).
Proof.
  intros Ed Ec Eg. unfold DeleteVolume, mbind, mret, api, client. rewrite Ed. simpl. rewrite Ec. simpl.
  by rewrite Eg.
Qed.

End Props.

(** ** Object names *)

Lemma replace_hash_clean s : contains_byte "#" (replace_hash s) = false.
Proof.
  induction s as [|c s IH]; [done|]. simpl. apply contains_byte_cons. split; [|done].
  destruct (Ascii.eqb c "#") eqn:E; [done|]. by apply Ascii.eqb_neq.
Qed.

Lemma replace_hash_id s : contains_byte "#" s = false -> replace_hash s = s.
Proof.
  induction s as [|c s IH]; [done|]. rewrite contains_byte_cons. intros [Hc Hs]. simpl.
  apply Ascii.eqb_neq in Hc. by rewrite Hc, IH.
Qed.

Lemma replace_hash3_id s : contains_byte "#" s = false -> replace_hash3 s = s.
Proof.
  induction s as [|c s IH]; [done|]. rewrite contains_byte_cons. intros [Hc Hs].
  assert (replace_hash3 (String c s) = String c (replace_hash3 s)) as ->; [|by rewrite IH].
  destruct c as [[] [] [] [] [] [] [] []]; try reflexivity. by destruct Hc.
Qed.

Lemma trim_slashes_bytes c s : contains_byte c s = false -> contains_byte c (trim_slashes s) = false.
Proof.
  induction s as [|d s IH]; [done|]. rewrite contains_byte_cons. intros [Hd Hs]. specialize (IH Hs). simpl.
  destruct (trim_slashes s) eqn:E; [destruct (Ascii.eqb d "/"); [done|]|]; by apply contains_byte_cons.
Qed.

Lemma trim_slashes_id s : contains_byte "/" s = false -> trim_slashes s = s.
Proof.
  induction s as [|d s IH]; [done|]. rewrite contains_byte_cons. intros [Hd Hs]. simpl.
  rewrite (IH Hs). destruct s; [|done]. apply Ascii.eqb_neq in Hd. by rewrite Hd.
Qed.

Lemma filepath_Base_elem s : contains_byte "#" s = false ->
  contains_byte "#" (filepath_Base s) = false /\ filepath_Base s <> "" /\
  (filepath_Base s = "/" \/ contains_byte "/" (filepath_Base s) = false).
Proof.
  intros Hs. unfold filepath_Base. destruct (String.eqb s ""); [by split; [done|split; [done|right]]|].
  destruct (String.eqb (List.last _ _) "") eqn:E; [by split; [done|split; [done|left]]|]. bool_to_prop.
  split; [|split; [done|right]].
  - apply (last_forall (fun w => contains_byte "#" w = false)); [|done].
    by apply split_on_bytes, trim_slashes_bytes.
  - apply (last_forall (fun w => contains_byte "/" w = false)); [apply split_on_elems|done].
Qed.

Lemma filepath_Base_id s : s <> "" -> contains_byte "/" s = false -> filepath_Base s = s.
Proof.
  intros Hne Hs. unfold filepath_Base. apply String.eqb_neq in Hne. rewrite Hne.
  rewrite trim_slashes_id, split_on_none by done. simpl. by rewrite Hne.
Qed.

(** A normalized volume id can name an object: it is not empty, has no "#"
    and no "/" (unless the id consists of slashes), and normalizing it again
    does not change it, so every handler looks up the same object. *)
Theorem NormalizeVolumeID_stable id :
  let n := NormalizeVolumeID id in
  n <> "" /\ contains_byte "#" n = false /\ (n = "/" \/ contains_byte "/" n = false) /\
  NormalizeVolumeID n = n.
Proof.
  cbv zeta. unfold NormalizeVolumeID at 1 2 3 4 6.
  destruct (filepath_Base_elem (replace_hash (replace_hash3 id)) (replace_hash_clean _)) as (Hh & Hne & Hs).
  split; [done|]. split; [done|]. split; [done|]. unfold NormalizeVolumeID.
  rewrite (replace_hash3_id (filepath_Base _)), (replace_hash_id (filepath_Base _)) by done.
  destruct Hs as [->|Hs]; [done|]. by apply filepath_Base_id.
Qed.

(** ** Witnesses: an API server with a driver that can fail *)

Record vserver := mkVServer {
  vobjects : gmap string PeerpodVolume;
  vrevision : Z;
  driver_up : bool
}.

Definition named (n : string) (v : PeerpodVolume) : PeerpodVolume :=
  mkVolume n (v_Labels v) (v_Spec v) (v_State v) (v_ResourceVersion v).

Definition vput (v : PeerpodVolume) (w : vserver) : result PeerpodVolume * vserver :=
  let v' := mkVolume (v_Name v) (v_Labels v) (v_Spec v) (v_State v) (FormatInt (vrevision w)) in
  (Ok v', mkVServer (<[v_Name v := v']> (vobjects w)) (vrevision w + 1) (driver_up w)).

(** A write against the version it was made from. *)
Definition vwrite (merge : PeerpodVolume -> PeerpodVolume -> PeerpodVolume) (v : PeerpodVolume)
    : M vserver (result PeerpodVolume) := fun w =>
  match vobjects w !! v_Name v with
  | None => (Err (APIStatus NotFound), w)
  | Some old =>
      if String.eqb (v_ResourceVersion old) (v_ResourceVersion v) then vput (named (v_Name v) (merge old v)) w
      else (Err (APIStatus Conflict), w)
  end.

#[export] Instance vserver_env : CsiEnv vserver := {
  vol_Get := fun _ n w => match vobjects w !! n with
                        | Some v => (Ok (named n v), w)
                        | None => (Err (APIStatus NotFound), w)
                        end;
  vol_Create := fun _ v w => match vobjects w !! v_Name v with
                           | Some _ => (Err (APIStatus AlreadyExists), w)
                           | None => vput (with_state v "") w
                           end;
  vol_Update := fun _ => vwrite (fun old v => with_state v (v_State old));
  vol_UpdateStatus := fun _ => vwrite (fun old v => with_state old (v_State v));
  vol_Delete := fun _ n w => (None, mkVServer (delete n (vobjects w)) (vrevision w) (driver_up w));
  csi_Namespace := "default";
  driver_dial := fun w => (None, w);
  driver := fun _ w => (if driver_up w then Ok (mkAnswer "vol" {["device-path" := "/dev/vdb"]} "")
                        else Err (Errorf "driver" []), w);
  uuid_NewV4 := fun w => ("uuid", w);
  vminfo_dial := fun w => (None, w);
  GetVMInfo := fun _ _ w => (Ok "vm-1", w);
  fs_change := fun _ _ w => (tt, w);
  csi_getenv := fun _ => "x";
  azureVM := fun _ => false
}.

Lemma vwrite_law merge v w r w' :
  vwrite merge v w = (r, w') ->
  ((exists e, r = Err e) /\ w' = w) \/
  (exists old, vobjects w !! v_Name v = Some old /\ v_ResourceVersion old = v_ResourceVersion v /\
     r = Ok (mkVolume (v_Name v) (v_Labels (merge old v)) (v_Spec (merge old v)) (v_State (merge old v))
               (FormatInt (vrevision w))) /\
     vobjects w' = <[v_Name v := mkVolume (v_Name v) (v_Labels (merge old v)) (v_Spec (merge old v))
                       (v_State (merge old v)) (FormatInt (vrevision w))]> (vobjects w)).
Proof.
  unfold vwrite, vput. destruct (vobjects w !! v_Name v) as [old|] eqn:E; [|intros [= <- <-]; left; eauto].
  destruct (String.eqb _ _) eqn:Er; bool_to_prop; intros [= <- <-]; [right|left; eauto].
  exists old. by repeat split.
Qed.

#[export, program] Instance vserver_laws : CsiLaws vserver := {
  vol_stored := fun w n => named n <$> vobjects w !! n
}.
Next Obligation. intros w n v E. apply fmap_Some in E as (x & _ & ->). done. Qed.
Next Obligation.
  intros n w r w' E. simpl in E. destruct (vobjects w !! n) eqn:El; simplify_eq; (split; [done|]);
    intros v E; simplify_eq/=; by rewrite El.
Qed.
Next Obligation.
  intros v w r w' E v' Hr. simpl in E. destruct (vobjects w !! v_Name v) eqn:El; [by simplify_eq|].
  unfold vput in E. simpl in E. injection E as <- <-. injection Hr as <-. simpl.
  split; [by rewrite ?El|]. split; [|done]. by rewrite lookup_insert_eq.
Qed.
Next Obligation.
  intros v w r w' E n Hn. simpl in E. destruct (vobjects w !! v_Name v); unfold vput in E; simplify_eq/=; [done|].
  by rewrite lookup_insert_ne.
Qed.
Next Obligation.
  intros v w r w' E n Hn. apply vwrite_law in E as [[_ ->]|(old & _ & _ & _ & ->)]; [done|].
  by rewrite lookup_insert_ne.
Qed.
Next Obligation.
  intros v w r w' E n Hn. apply vwrite_law in E as [[_ ->]|(old & _ & _ & _ & ->)]; [done|].
  by rewrite lookup_insert_ne.
Qed.
Next Obligation.
  intros v w r w' E applied.
  apply vwrite_law in E as [[[e ->] ->]|(old & Hold & Hrv & -> & Hobj)]; [split; [done|by left]|].
  match type of Hobj with _ = <[_ := ?x]> _ => assert (applied x) as Ha end.
  { exists (named (v_Name v) old). rewrite Hold, Hobj, lookup_insert_eq. by repeat split. }
  split; [by intros v' [= <-]|right; eauto].
Qed.
Next Obligation.
  intros v w r w' E applied.
  apply vwrite_law in E as [[[e ->] ->]|(old & Hold & Hrv & -> & Hobj)]; [split; [done|by left]|].
  match type of Hobj with _ = <[_ := ?x]> _ => assert (applied x) as Ha end.
  { exists (named (v_Name v) old). rewrite Hold, Hobj, lookup_insert_eq. by repeat split. }
  split; [by intros v' [= <-]|right; eauto].
Qed.
Next Obligation. intros c w r w' [= _ <-]. done. Qed.
Next Obligation. intros w r w' [= _ <-]. done. Qed.
Next Obligation. intros w r w' [= _ <-]. done. Qed.
Next Obligation. intros k p w r w' [= _ <-]. done. Qed.

#[export, program] Instance text_codec : CsiCodec := {
  marshal_publish := fun r => to_text (cp_VolumeId r, cp_NodeId r, cp_VolumeContext r, cp_rest r);
  unmarshal_publish := fun t => (fun x : string * string * gmap string string * string => let '(a, b, c, d) := x in mkCPub a b c d) <$> of_text t;
  marshal_context := to_text;
  unmarshal_context := of_text;
  marshal_stage := fun r => to_text (ns_VolumeId r, ns_StagingTargetPath r, ns_PublishContext r, ns_rest r);
  unmarshal_stage := fun t => (fun x : string * string * gmap string string * string => let '(a, b, c, d) := x in mkStage a b c d) <$> of_text t;
  marshal_npublish := fun r => to_text (np_VolumeId r, np_TargetPath r, np_rest r);
  unmarshal_npublish := fun t => (fun x : string * string * string => let '(a, b, c) := x in mkPublish a b c) <$> of_text t;
  marshal_unpublish := fun r => to_text (nu_VolumeId r, nu_TargetPath r);
  unmarshal_unpublish := fun t => (fun x : string * string => let '(a, b) := x in mkUnpublish a b) <$> of_text t;
  marshal_unstage := fun r => to_text (nt_VolumeId r, nt_StagingTargetPath r);
  unmarshal_unstage := fun t => (fun x : string * string => let '(a, b) := x in mkUnstage a b) <$> of_text t
}.
Next Obligation. intros []. rewrite of_to_text. reflexivity. Qed.
Next Obligation. intros c. apply of_to_text. Qed.
Next Obligation. intros []. rewrite of_to_text. reflexivity. Qed.
Next Obligation. intros []. rewrite of_to_text. reflexivity. Qed.
Next Obligation. intros []. rewrite of_to_text. reflexivity. Qed.
Next Obligation. intros []. rewrite of_to_text. reflexivity. Qed.

Definition vol_req : ControllerPublishRequest := mkCPub "pool#vol" "worker-1" ∅ "".

Definition plain_volume : PeerpodVolume :=
  mkVolume "pool.vol" (Some {["volumeName" := "pvc"]})
    (mkVolumeSpec "" "" "" "" "" "pool.vol" "pvc" "vm-1" "" "" "" "" "" "" "" "" "" "") "" "1".

Definition with_volume (st : string) : wrapper vserver :=
  mkWrapper [] (mkVServer {["pool.vol" := with_state plain_volume st]} 2 true).

Definition no_volume : wrapper vserver := mkWrapper [] (mkVServer ∅ 2 true).

Definition context1 : gmap string string := fake_context "pool.vol" "uuid".

(** Evaluates what a handler returns, leaving the state it ends in. *)
Ltac run_wrapper :=
  match goal with |- ?run = (?a, _) => refine (eq_trans (surjective_pairing run) (f_equal (fun x => (x, run.2)) _));
    vm_compute; reflexivity end.

Lemma forwarding_is_transparent_witness :
  let '(r, s') := ListVolumes "all" no_volume in
  (forall n, held s' n = held no_volume n) /\
  (exists s1, calls s1 = calls no_volume /\ (forall n, held s1 n = held no_volume n) /\
     (calls s' = calls no_volume /\ is_ok r = false \/
      calls s' = calls no_volume ++ [DOther "ListVolumes" "all"] /\ (r, s') = client (DOther "ListVolumes" "all") s1)).
Proof. apply (forwarding_is_transparent (DOther "ListVolumes" "all") (ListVolumes "all") no_volume). apply fw_list. Defined.

Lemma ControllerPublishVolume_caches_witness :
  let s' := (ControllerPublishVolume vol_req (with_volume "")).2 in
  calls s' = [] /\
  exists v', held s' "pool.vol" = Some v' /\
    v_State v' = ControllerPublishVolumeCached /\ NodeID (v_Spec v') = "worker-1" /\
    unmarshal_publish (WrapperControllerPublishVolumeReq (v_Spec v')) = Some vol_req /\
    unmarshal_context (WrapperControllerPublishVolumeRes (v_Spec v')) = Some context1.
Proof.
  apply (ControllerPublishVolume_caches vol_req (with_volume "") plain_volume).
  - vm_compute. reflexivity.
  - run_wrapper.
Defined.

Lemma ControllerPublishVolume_hijacks_ordinary_volumes_witness :
  let s' := (ControllerPublishVolume vol_req no_volume).2 in
  calls s' = [DControllerPublish vol_req] /\
  (exists requestID, context1 = fake_context (NormalizeVolumeID (cp_VolumeId vol_req)) requestID) /\
  exists v', held s' "pool.vol" = Some v' /\ v_State v' = ControllerPublishVolumeCached.
Proof.
  apply (ControllerPublishVolume_hijacks_ordinary_volumes vol_req no_volume (APIStatus NotFound) (vworld no_volume) context1).
  - vm_compute. reflexivity.
  - reflexivity.
  - run_wrapper.
Defined.

Lemma ControllerUnpublishVolume_detaches_witness :
  let '(r, s') := ControllerUnpublishVolume "pool#vol" "worker-1" (with_volume NodePublishVolumeApplied) in
  r = Ok tt /\
  (calls s' = [] \/
   Contains_sub NodePublishVolumeApplied "Applied" = true /\
   calls s' = [DControllerUnpublish "pool#vol" "vm-1"]) /\
  (v_Spec <$> held s' "pool.vol" = Some (v_Spec plain_volume) \/
   v_Spec <$> held s' "pool.vol" = Some (reset_spec (v_Spec plain_volume))).
Proof.
  apply (ControllerUnpublishVolume_detaches "pool#vol" "worker-1" (with_volume NodePublishVolumeApplied)
    (with_state plain_volume NodePublishVolumeApplied) (vworld (with_volume NodePublishVolumeApplied))).
  vm_compute. reflexivity.
Defined.

Definition driver_down : wrapper vserver := mkWrapper [] (mkVServer ∅ 2 false).

Lemma CreateVolume_panics_on_driver_error_witness :
  (CreateVolume "pvc" {["peerpod" := "yes"]} "" driver_down).1 = Panic.
Proof.
  apply (CreateVolume_panics_on_driver_error "pvc" {["peerpod" := "yes"]} "" "yes" driver_down
    (vworld driver_down) (vworld driver_down) (Errorf "driver" [])).
  - reflexivity.
  - done.
  - reflexivity.
  - reflexivity.
Defined.

Lemma DeleteVolume_reports_missing_object_witness :
  DeleteVolume "pool#vol" no_volume
  = (Err (APIStatus NotFound), mkWrapper [DDeleteVolume "pool#vol"] (vworld no_volume)).
Proof.
  apply (DeleteVolume_reports_missing_object "pool#vol" no_volume (vworld no_volume) (vworld no_volume) (vworld no_volume)
    (mkAnswer "vol" {["device-path" := "/dev/vdb"]} "") (APIStatus NotFound)).
  - reflexivity.
  - reflexivity.
  - vm_compute. reflexivity.
Defined.
