(* ===== verification/Webhook.v ===== *)
(** * The pod mutating webhook

    Models src/webhook/pkg/mutating_webhook/remove-resourcespec.go and
    pkg/utils/utils.go: a pod of the peer-pod runtime class gets its resource
    specification replaced by the extended resource of a pod VM, and the sum of
    what its containers asked for as annotations, which the adaptor of
    CloudService reads when it selects the instance type.

    A [resource.Quantity] is its value in units of one billionth, the smallest
    one can hold.  Rounding memory to MiB is a helper of Kubernetes and printing
    a quantity is one of apimachinery: parameters. *)

From Stdlib Require Import ZArith Ascii String Lia.
From stdpp Require Import base gmap strings list fin_maps.
From S2P Require Import Prelude InstanceTypes CloudService.

Open Scope Z_scope.

(** ** Data *)

Notation quantity := Z (only parsing).
Definition nano : Z := 10 ^ 9.

(** [Quantity.Value]: rounded up to a whole number. *)
Definition Value (q : quantity) : Z := - (- q / nano).

Definition Sign (q : quantity) : Z := Z.sgn q.
Definition IsZero (q : quantity) : bool := q =? 0.

Record Resources := mkResources {
  Requests : gmap string quantity;
  Limits : gmap string quantity
}.

(** A container is its resources and the rest of its specification. *)
Record Container := mkContainer { c_Resources : Resources; c_rest : string }.

Record Pod := mkPodSpec {
  Annotations : option (gmap string string);
  RuntimeClassName : option string;
  Containers : list Container;
  InitContainers : list Container;
  p_rest : string
}.

Definition no_resources : Resources := mkResources ∅ ∅.

Definition ResourceCPU : string := "cpu".
Definition ResourceMemory : string := "memory".
Definition GPU_RESOURCE_NAME : string := "nvidia.com/gpu".
Definition RUNTIME_CLASS_NAME_DEFAULT : string := "kata-remote".
Definition POD_VM_EXTENDED_RESOURCE_DEFAULT : string := "kata.peerpods.io/vm".
Definition PEERPODS_CPU_ANNOTATION : string := "io.katacontainers.config.hypervisor.default_vcpus".
Definition PEERPODS_MEMORY_ANNOTATION : string := "io.katacontainers.config.hypervisor.default_memory".
Definition PEERPODS_GPU_ANNOTATION : string := "io.katacontainers.config.hypervisor.default_gpus".

(** ** What the webhook calls *)

Class WebhookEnv := {
  RoundUpToMiB : quantity -> result Z;
  Quantity_String : quantity -> string;
  wh_getenv : string -> string
}.

Section Webhook.

Context `{WebhookEnv}.

(** ** utils.go *)

Definition add_quantity (name : string) (pick : Resources -> gmap string quantity)
    (total : quantity) (c : Container) : quantity :=
  match pick (c_Resources c) !! name with
  | Some q => total + q
  | None => total
  end.

Definition GetResourceRequestQuantity (pod : Pod) (name : string) : quantity :=
  foldl (add_quantity name Requests) (foldl (add_quantity name Requests) 0 (Containers pod))
        (InitContainers pod).

Definition GetResourceLimitQuantity (pod : Pod) (name : string) : quantity :=
  foldl (add_quantity name Limits) (foldl (add_quantity name Limits) 0 (Containers pod))
        (InitContainers pod).

(** An amount that cannot be converted is written as 0. *)
Definition ConvertMemoryQuantityToMib (q : quantity) : string :=
  match RoundUpToMiB q with
  | Ok mib => FormatInt mib
  | Err _ => "0"
  end.

(** ** remove-resourcespec.go *)

Definition defaultContainerResourceRequirements : Resources :=
  let name := if String.eqb (wh_getenv "POD_VM_EXTENDED_RESOURCE") ""
              then POD_VM_EXTENDED_RESOURCE_DEFAULT else wh_getenv "POD_VM_EXTENDED_RESOURCE" in
  mkResources {[name := nano]} {[name := nano]}.

(** The quantity an annotation is based on, if any: the limit when it is not
    below a request that is there, else the request. *)
Definition effective (request limit : quantity) : option quantity :=
  if (negb (IsZero request) && (request <=? limit))%bool then Some limit
  else if Sign request =? 1 then Some request
  else None.

Definition annotate (key : string) (value : option string) (m : gmap string string)
    : gmap string string :=
  match value with Some v => <[key := v]> m | None => m end.

Definition pod_annotations (pod : Pod) : gmap string string :=
  let cpuRequest := GetResourceRequestQuantity pod ResourceCPU in
  let cpuLimit := GetResourceLimitQuantity pod ResourceCPU in
  let memoryRequest := GetResourceRequestQuantity pod ResourceMemory in
  let memoryLimit := GetResourceLimitQuantity pod ResourceMemory in
  let gpuRequest := GetResourceRequestQuantity pod GPU_RESOURCE_NAME in
  let cpu := (fun q => FormatInt (Value q)) <$> effective cpuRequest cpuLimit in
  let memory := ConvertMemoryQuantityToMib <$> effective memoryRequest memoryLimit in
  let gpu := if Sign gpuRequest =? 1 then Some (Quantity_String gpuRequest) else None in
  annotate PEERPODS_GPU_ANNOTATION gpu
    (annotate PEERPODS_MEMORY_ANNOTATION memory
       (annotate PEERPODS_CPU_ANNOTATION cpu (default ∅ (Annotations pod)))).

Definition strip (c : Container) : Container := mkContainer no_resources (c_rest c).

(** A pod without containers makes the last assignment panic. *)
Definition adjustResourceSpec (pod : Pod) : outcome Pod :=
  match strip <$> Containers pod with
  | [] => Panic
  | first :: others =>
      Return (mkPodSpec (Some (pod_annotations pod)) (RuntimeClassName pod)
                (mkContainer defaultContainerResourceRequirements (c_rest first) :: others)
                (strip <$> InitContainers pod) (p_rest pod))
  end.

Definition mutatePod (pod : Pod) : outcome Pod :=
  let runtimeClassName := if String.eqb (wh_getenv "TARGET_RUNTIMECLASS") ""
                          then RUNTIME_CLASS_NAME_DEFAULT else wh_getenv "TARGET_RUNTIMECLASS" in
  match RuntimeClassName pod with
  | Some name => if String.eqb name runtimeClassName then adjustResourceSpec pod else Return pod
  | None => Return pod
  end.

(** ** Lemmas *)

Lemma Value_bounds q : (Value q - 1) * nano < q <= Value q * nano.
Proof.
  unfold Value. assert (0 < nano) by (unfold nano; lia).
  pose proof (Z.div_mod (- q) nano ltac:(lia)). pose proof (Z.mod_pos_bound (- q) nano ltac:(lia)). nia.
Qed.

Lemma Value_range q : 0 < q -> q <= max_int64 * nano -> 0 <= Value q <= max_int64.
Proof.
  intros Hq Hm. pose proof (Value_bounds q). assert (0 < nano) by (unfold nano; lia). nia.
Qed.

Lemma add_stripped name pick total cs :
  pick no_resources !! name = None ->
  foldl (add_quantity name pick) total (strip <$> cs) = total.
Proof.
  intros Hn. revert total. induction cs as [|c cs IH]; intros total; [done|]. simpl.
  assert (add_quantity name pick total (strip c) = total) as -> by (unfold add_quantity; change (c_Resources (strip c)) with no_resources; by rewrite Hn).
  apply IH.
Qed.

Definition extended_resource : string :=
  if String.eqb (wh_getenv "POD_VM_EXTENDED_RESOURCE") ""
  then POD_VM_EXTENDED_RESOURCE_DEFAULT else wh_getenv "POD_VM_EXTENDED_RESOURCE".

Lemma stripped_request pod first others name :
  name <> extended_resource -> strip <$> Containers pod = first :: others ->
  let pod' := mkPodSpec (Some (pod_annotations pod)) (RuntimeClassName pod)
                (mkContainer defaultContainerResourceRequirements (c_rest first) :: others)
                (strip <$> InitContainers pod) (p_rest pod) in
  GetResourceRequestQuantity pod' name = 0.
Proof.
  intros Hn E pod'. unfold GetResourceRequestQuantity. simpl.
  assert (add_quantity name Requests 0 (mkContainer defaultContainerResourceRequirements (c_rest first)) = 0) as ->.
  { unfold add_quantity, defaultContainerResourceRequirements. simpl. fold extended_resource.
    by rewrite lookup_singleton_ne. }
  destruct (Containers pod) as [|c cs]; [done|]. simpl in E. simplify_eq.
  rewrite add_stripped by done. by apply add_stripped.
Qed.

(** ** Claims *)

(** C38: Mutating a pod twice is mutating it once: the webhook runs on every
    update of a pod, and on a pod it has already mutated it changes nothing and
    keeps the annotations. *)
Theorem mutatePod_idempotent pod pod' :
  extended_resource <> ResourceCPU -> extended_resource <> ResourceMemory ->
  extended_resource <> GPU_RESOURCE_NAME ->
  mutatePod pod = Return pod' -> mutatePod pod' = Return pod'.
Proof.
  intros Hc Hm Hg. unfold mutatePod. destruct (RuntimeClassName pod) as [name|] eqn:Er.
  2:{ intros [= <-]. by rewrite Er. }
  destruct (String.eqb name _) eqn:En; [|intros [= <-]; by rewrite Er, En].
  unfold adjustResourceSpec at 1. destruct (strip <$> Containers pod) as [|first others] eqn:Ec; [done|].
  intros [= <-]. simpl. rewrite Er, En. unfold adjustResourceSpec. simpl.
  pose proof (fun n Hn => stripped_request pod first others n Hn Ec) as Hz. simpl in Hz. rewrite Er in Hz.
  set (pod' := mkPodSpec _ _ _ _ _) in *.
  assert (pod_annotations pod' = pod_annotations pod) as ->.
  { unfold pod_annotations at 1. rewrite !Hz by congruence. reflexivity. }
  assert (forall cs : list Container, strip <$> (strip <$> cs) = strip <$> cs) as Hs.
  { intros cs. rewrite <- list_fmap_compose. by apply list_fmap_ext. }
  assert (strip <$> others = others) as Ho.
  { destruct (Containers pod) as [|c cs]; [done|]. simpl in Ec. simplify_eq. apply Hs. }
  rewrite Hs. unfold fmap in Ho. by rewrite Ho.
Qed.

(** A mutated pod asks the node for one pod VM and nothing else: only pods of
    the runtime class are changed, the first container carries exactly the
    extended resource, every other container and init container carries none,
    and nothing else of the pod changes.  Only a pod without containers makes
    the webhook panic. *)
Theorem mutatePod_resources pod :
  match mutatePod pod with
  | Panic => Containers pod = []
  | Return pod' =>
      pod' = pod \/
      exists c cs, Containers pod = c :: cs /\
        Containers pod' = mkContainer (mkResources {[extended_resource := nano]} {[extended_resource := nano]})
                            (c_rest c) :: (strip <$> cs) /\
        InitContainers pod' = strip <$> InitContainers pod /\
        RuntimeClassName pod' = RuntimeClassName pod /\ p_rest pod' = p_rest pod
  end.
Proof.
  unfold mutatePod. destruct (RuntimeClassName pod) as [name|] eqn:Er; [|by left].
  destruct (String.eqb name _); [|by left]. unfold adjustResourceSpec.
  destruct (Containers pod) as [|c cs]; [done|]. simpl. right. exists c, cs. rewrite Er. by repeat split.
Qed.

Lemma effective_enough request limit q :
  effective request limit = Some q -> 0 <= request -> request <= q /\ limit <= q /\ 0 < q.
Proof.
  unfold effective, IsZero, Sign. destruct (_ && _)%bool eqn:E.
  - intros [= <-] Hr. bool_to_prop. lia.
  - destruct (Z.sgn request =? 1) eqn:Es; [|done]. intros [= <-] Hr. bool_to_prop.
    assert (0 < request) by lia. destruct E as [E|E]; bool_to_prop; lia.
Qed.

Lemma annotation_lookup pod :
  pod_annotations pod !! PEERPODS_CPU_ANNOTATION =
  match effective (GetResourceRequestQuantity pod ResourceCPU) (GetResourceLimitQuantity pod ResourceCPU) with
  | Some q => Some (FormatInt (Value q))
  | None => default ∅ (Annotations pod) !! PEERPODS_CPU_ANNOTATION
  end.
Proof.
  unfold pod_annotations, annotate. destruct (Sign _ =? 1); rewrite ?lookup_insert_ne by done;
  destruct (ConvertMemoryQuantityToMib <$> _); rewrite ?lookup_insert_ne by done;
  (destruct (effective _ _); simpl; [by rewrite lookup_insert_eq|done]).
Qed.

(** The VM gets at least the CPUs the pod asked for: when the containers of a
    pod request CPU, the annotation the webhook writes is read back by the
    adaptor as a whole number that covers the sum of the requests and the sum of
    the limits and exceeds the larger one by less than one CPU. *)
Theorem cpu_annotation_covers_request `{AnnotationKeys} pod pod' :
  DefaultVCPUs = PEERPODS_CPU_ANNOTATION ->
  adjustResourceSpec pod = Return pod' ->
  0 < GetResourceRequestQuantity pod ResourceCPU ->
  Z.max (GetResourceRequestQuantity pod ResourceCPU) (GetResourceLimitQuantity pod ResourceCPU)
    <= max_int64 * nano ->
  let vcpus := fst (fst (GetPodvmResourcesFromAnnotation (default ∅ (Annotations pod')))) in
  let wanted := Z.max (GetResourceRequestQuantity pod ResourceCPU) (GetResourceLimitQuantity pod ResourceCPU) in
  wanted <= vcpus * nano < wanted + nano.
Proof.
  intros Hkey Hadj Hreq Hmax. cbv zeta. unfold GetPodvmResourcesFromAnnotation, resource. simpl fst.
  unfold adjustResourceSpec in Hadj. destruct (strip <$> Containers pod); [done|].
  injection Hadj as <-. simpl. rewrite Hkey, annotation_lookup.
  set (request := GetResourceRequestQuantity pod ResourceCPU) in *.
  set (limit := GetResourceLimitQuantity pod ResourceCPU) in *.
  assert (effective request limit = Some (Z.max request limit)) as ->.
  { unfold effective, IsZero, Sign. destruct (_ && _)%bool eqn:E; bool_cases; try lia.
    - f_equal. lia.
    - rewrite Z.sgn_pos by done. simpl. f_equal. lia. }
  pose proof (Value_range (Z.max request limit) ltac:(lia) Hmax) as Hv.
  rewrite ParseInt_FormatInt by done. simpl.
  pose proof (Value_bounds (Z.max request limit)). unfold nano in *. lia.
Qed.

End Webhook.

(** ** Witnesses *)

#[export] Instance plain_webhook : WebhookEnv := {
  RoundUpToMiB := fun q => Ok (- (- q / (2 ^ 20 * nano)));
  Quantity_String := fun q => FormatInt (Value q);
  wh_getenv := fun _ => EmptyString
}.

Definition pod1 : Pod :=
  mkPodSpec None (Some "kata-remote")
    [mkContainer (mkResources {["cpu" := 2500 * 10 ^ 6]} {["cpu" := 3200 * 10 ^ 6]}) "app";
     mkContainer (mkResources {["cpu" := 100 * 10 ^ 6]} ∅) "sidecar"] [] "".

Definition pod2 : Pod :=
  match mutatePod pod1 with Return p => p | Panic => pod1 end.

Lemma mutatePod_idempotent_witness : mutatePod pod2 = Return pod2.
Proof.
  apply (mutatePod_idempotent pod1 pod2).
  - done.
  - done.
  - done.
  - vm_compute. reflexivity.
Defined.

#[local] Instance webhook_keys : AnnotationKeys := {
  SandboxName := "io.kubernetes.cri.sandbox-name";
  SandboxNamespace := "io.kubernetes.cri.sandbox-namespace";
  MachineType := "io.katacontainers.config.hypervisor.machine_type";
  ImagePath := "io.katacontainers.config.hypervisor.image";
  DefaultVCPUs := PEERPODS_CPU_ANNOTATION;
  DefaultMemory := PEERPODS_MEMORY_ANNOTATION;
  DefaultGPUs := PEERPODS_GPU_ANNOTATION
}.

(** 2.5 and 0.1 CPUs requested, 3.2 as a limit: four virtual CPUs. *)
Lemma cpu_annotation_covers_request_witness :
  3200 * 10 ^ 6 <= fst (fst (GetPodvmResourcesFromAnnotation (default ∅ (Annotations pod2)))) * nano
    < 3200 * 10 ^ 6 + nano.
Proof.
  apply (cpu_annotation_covers_request pod1 pod2).
  - reflexivity.
  - vm_compute. reflexivity.
  - vm_compute. reflexivity.
  - vm_compute. discriminate.
Defined.
