(* ===== verification/PeerPodCtrl.v ===== *)
(** * The PeerPod controller

    Models src/peerpod-ctrl/controllers/peerpod_controller.go (the controller
    that deletes the instance of a PeerPod when the object is deleted, and the
    PeerPods an earlier run of the adaptor has left behind for the same pod) and
    src/cloud-providers/table.go (the table of providers and the checks before an
    external plugin is opened).

    The API server, the providers and the operating system are operations of
    [CtrlEnv]; deletions of instances and writes of objects are recorded in the
    order they are made. *)

From Stdlib Require Import ZArith Ascii String Lia.
From stdpp Require Import base gmap strings list fin_maps.
From S2P Require Import Prelude InstanceTypes CsiVolumes.

Open Scope Z_scope.
Open Scope go_scope.

(** ** Data *)

(** Times of the API are whole seconds; nothing reads or writes the status. *)
Record PeerPod := mkPeerPod {
  pp_Name : string;
  pp_UID : string;
  pp_Owners : list string;  (** the UIDs of the owner references *)
  pp_Created : Z;
  pp_Deleted : bool;  (** has a deletion timestamp *)
  pp_Finalizers : list string;
  pp_CloudProvider : string;
  pp_InstanceID : string
}.

Definition ppFinalizer : string := "peer.pod/finalizer".
Definition ppConfigMap : string := "peer-pods-cm".
Definition ppSecret : string := "peer-pods-secret".

(** ** What the controller calls

    A provider is a name in the table and what [LoadEnv] and [NewProvider] made
    of it; the process environment is part of the world. *)
Class CtrlEnv (W : Type) := {
  pp_Get : string -> M W (result PeerPod);
  pp_List : M W (result (list PeerPod));
  pp_Delete : PeerPod -> M W (option GoError);
  pp_Update : PeerPod -> M W (option GoError);
  data_Get : string -> string -> M W (result (option (gmap string string)));
  os_Setenv : string -> string -> M W unit;
  os_Getenv : string -> M W string;
  provider_DeleteInstance : string -> string -> M W (option GoError);
  provider_New : string -> M W (option GoError);  (** [LoadEnv] and [NewProvider] *)
  in_table : string -> M W bool;  (** after [LoadCloudProvider] *)
  range_map : gmap string string -> list (string * string)
}.

Inductive ctrl_event :=
| CtlDeleteInstance (provider id : string) (e : option GoError)
| CtlDelete (pp : PeerPod)
| CtlUpdate (pp : PeerPod).

Record controller (W : Type) := mkController {
  Providers : gmap string unit;
  log : list ctrl_event;  (** oldest first *)
  cworld : W
}.
Arguments mkController {W}.
Arguments Providers {W} c.
Arguments log {W} c.
Arguments cworld {W} c.

(** [CreationTimestamp.Before] and the index into the owner references. *)
Definition isOldPeerPod (pp cur : PeerPod) : outcome bool :=
  match pp_Owners pp, pp_Owners cur with
  | o1 :: _, o2 :: _ =>
      Return (String.eqb o1 o2 && negb (String.eqb (pp_UID pp) (pp_UID cur))
              && (pp_Created pp <? pp_Created cur))%bool
  | _, _ => Panic
  end.

Section Controller.

Context {W : Type} `{CtrlEnv W}.

Notation st := (controller W).

Definition ctl {A} (m : M W A) : M st A := fun s =>
  let '(a, w') := m (cworld s) in (a, mkController (Providers s) (log s) w').

Definition logged {A} (ev : A -> ctrl_event) (m : M W A) : M st A := fun s =>
  let '(a, w') := m (cworld s) in (a, mkController (Providers s) (log s ++ [ev a]) w').

(** Every entry becomes an environment variable. *)
Fixpoint set_all (entries : list (string * string)) : M st unit :=
  match entries with
  | [] => mret tt
  | (k, v) :: rest => let* _u := ctl (os_Setenv k v) in set_all rest
  end.

(** The data of an object, and its entries set as variables. *)
Definition import_data (ns name : string) : M st (option (gmap string string)) :=
  let* r := ctl (data_Get ns name) in
  match r with
  | Err _ => mret None
  | Ok None => mret None
  | Ok (Some data) => let* _u := set_all (range_map data) in mret (Some data)
  end.

Definition cloudConfigsGetter : M st (option GoError) :=
  let* ns := ctl (os_Getenv "PEERPODS_NAMESPACE") in
  if String.eqb ns "" then mret (Some (Errorf "PEERPODS_NAMESPACE is not set" []))
  else
    let* cm := import_data ns ppConfigMap in
    let* secret := import_data ns ppSecret in
    mret match cm, secret with
         | None, None => Some (Errorf "ConfigMap Error: %v, Secret Error: %v" [])
         | _, _ => None
         end.

Definition GetProvider (cloudName : string) : M st (option GoError) :=
  let* known := ctl (in_table cloudName) in
  if known then ctl (provider_New cloudName)
  else mret (Some (Errorf "%s cloud provider not supported" [])).

(** The objects of the same pod that are older than [cur] are deleted. *)
Fixpoint delete_old (cur : PeerPod) (items : list PeerPod) : M st (outcome unit) :=
  match items with
  | [] => mret (Return tt)
  | item :: rest =>
      match isOldPeerPod item cur with
      | Panic => mret Panic
      | Return true => let* _e := logged (fun _ => CtlDelete item) (pp_Delete item) in delete_old cur rest
      | Return false => delete_old cur rest
      end
  end.

(** The provider of an object, made on first use and kept. *)
Definition ensure_provider (name : string) : M st (option GoError) := fun s =>
  match Providers s !! name with
  | Some _ => (None, s)
  | None =>
      (let* e := GetProvider name in
       match e with
       | Some err => mret (Some err)
       | None => fun s' => (None, mkController (<[name := tt]> (Providers s')) (log s') (cworld s'))
       end) s
  end.

Definition without_finalizer (pp : PeerPod) : PeerPod :=
  mkPeerPod (pp_Name pp) (pp_UID pp) (pp_Owners pp) (pp_Created pp) (pp_Deleted pp)
    (List.filter (fun f => negb (String.eqb f ppFinalizer)) (pp_Finalizers pp))
    (pp_CloudProvider pp) (pp_InstanceID pp).

(** The object is being deleted and still has the finalizer. *)
Definition finalize (pp : PeerPod) : M st (option GoError) :=
  let* p := ensure_provider (pp_CloudProvider pp) in
  match p with
  | Some err => mret (Some err)
  | None =>
      let* d := logged (CtlDeleteInstance (pp_CloudProvider pp) (pp_InstanceID pp))
                  (provider_DeleteInstance (pp_CloudProvider pp) (pp_InstanceID pp)) in
      match d with
      | Some err => mret (Some err)
      | None =>
          let pp' := without_finalizer pp in
          let* u := logged (fun _ => CtlUpdate pp') (pp_Update pp') in
          mret match u with
               | Some err => if IsNotFound err then None else Some err
               | None => None
               end
      end
  end.

(** [Some e] makes the framework try again. *)
Definition load_configs : M st unit := fun s =>
  if bool_decide (Providers s = ∅) then (let* _e := cloudConfigsGetter in mret tt) s else (tt, s).

Definition Reconcile (name : string) : M st (outcome (option GoError)) :=
  let* _c := load_configs in
  let* g := ctl (pp_Get name) in
  match g with
  | Err err => mret (Return (if IsNotFound err then None else Some err))
  | Ok pp =>
      if negb (pp_Deleted pp) then
        let* l := ctl pp_List in
        match l with
        | Err err => mret (Return (Some err))
        | Ok items =>
            let* o := delete_old pp items in
            mret match o with Panic => Panic | Return _ => Return None end
        end
      else if slice_contains (pp_Finalizers pp) ppFinalizer then
        let* e := finalize pp in mret (Return e)
      else mret (Return None)
  end.

(** ** Lemmas *)

Lemma ctl_frame {A} (m : M W A) s a s' : ctl m s = (a, s') -> log s' = log s /\ Providers s' = Providers s.
Proof. unfold ctl. destruct (m (cworld s)). by intros [= <- <-]. Qed.

Lemma logged_frame {A} ev (m : M W A) s a s' :
  logged ev m s = (a, s') -> log s' = log s ++ [ev a] /\ Providers s' = Providers s.
Proof. unfold logged. destruct (m (cworld s)). by intros [= <- <-]. Qed.

Lemma ctl_value {A} (m : M W A) s : (ctl m s).1 = (m (cworld s)).1.
Proof. unfold ctl. by destruct (m (cworld s)). Qed.

Lemma without_finalizer_spec pp : pp_Finalizers (without_finalizer pp) = filter (fun f => f <> ppFinalizer) (pp_Finalizers pp).
Proof.
  unfold without_finalizer. cbn [pp_Finalizers]. induction (pp_Finalizers pp) as [|f l IH]; [done|].
  rewrite filter_cons. cbn [List.filter]. destruct (String.eqb_spec f ppFinalizer) as [->|Hn]; cbn [negb]; case_decide; try done.
  by f_equal.
Qed.

Lemma set_all_frame entries s u s' : set_all entries s = (u, s') -> log s' = log s.
Proof.
  revert s. induction entries as [|[k v] rest IH]; intros s; simpl; [by intros [= <- <-]|].
  unfold mbind. destruct (ctl (os_Setenv k v) s) as [x s1] eqn:E. apply ctl_frame in E as [<- _]. apply IH.
Qed.

Lemma import_data_frame ns name s r s' : import_data ns name s = (r, s') -> log s' = log s.
Proof.
  unfold import_data, mbind, mret. destruct (ctl (data_Get ns name) s) as [d s1] eqn:E.
  apply ctl_frame in E as [<- _]. destruct d as [[m|]|]; [|by intros [= <- <-]..].
  destruct (set_all (range_map m) s1) as [u s2] eqn:E2. apply set_all_frame in E2. by intros [= <- <-].
Qed.

Lemma load_configs_frame s u s' : load_configs s = (u, s') -> log s' = log s.
Proof.
  unfold load_configs. case_bool_decide; [|by intros [= <- <-]].
  unfold cloudConfigsGetter, mbind, mret. destruct (ctl (os_Getenv _) s) as [ns s1] eqn:E1.
  apply ctl_frame in E1 as [<- _]. destruct (String.eqb ns ""); [by intros [= <- <-]|].
  destruct (import_data ns ppConfigMap s1) as [cm s2] eqn:E2. apply import_data_frame in E2 as <-.
  destruct (import_data ns ppSecret s2) as [sec s3] eqn:E3. apply import_data_frame in E3 as <-.
  by intros [= <- <-].
Qed.

Lemma ensure_provider_frame name s r s' : ensure_provider name s = (r, s') -> log s' = log s.
Proof.
  unfold ensure_provider, GetProvider, mbind, mret. destruct (Providers s !! name); [by intros [= <- <-]|].
  destruct (ctl (in_table name) s) as [k s1] eqn:E1. apply ctl_frame in E1 as [<- _].
  destruct k; [|by intros [= <- <-]]. destruct (ctl (provider_New name) s1) as [e s2] eqn:E2.
  apply ctl_frame in E2 as [<- _]. by destruct e; intros [= <- <-].
Qed.

Lemma delete_old_log cur items s o s' :
  delete_old cur items s = (o, s') ->
  exists old, log s' = log s ++ (CtlDelete <$> old) /\
    (forall p, p ∈ old -> p ∈ items /\ isOldPeerPod p cur = Return true) /\
    (o = Return tt -> forall p, p ∈ items -> isOldPeerPod p cur = Return true -> p ∈ old).
Proof.
  revert s. induction items as [|item rest IH]; intros s; simpl.
  { intros [= <- <-]. exists []. rewrite app_nil_r. split; [done|]. split; [by intros p ?%not_elem_of_nil|].
    by intros _ p ?%not_elem_of_nil. }
  destruct (isOldPeerPod item cur) as [[]|] eqn:Eo.
  - unfold mbind. destruct (logged _ _ s) as [e s1] eqn:E1. apply logged_frame in E1 as [L1 _]. intros E.
    apply IH in E as (old & Hl & Ha & Hb). exists (item :: old). rewrite Hl, L1, <- app_assoc.
    split; [done|]. set_solver.
  - intros E. apply IH in E as (old & Hl & Ha & Hb). exists old. split; [done|].
    split; [set_solver|]. intros Ho p [->|Hp]%elem_of_cons Hold; [congruence|by apply Hb].
  - intros [= <- <-]. exists []. rewrite app_nil_r. split; [done|]. split; [by intros p ?%not_elem_of_nil|done].
Qed.

Lemma delete_old_owned cur items p :
  p ∈ items -> pp_Owners p = [] -> forall s s', delete_old cur items s <> (Return tt, s').
Proof.
  intros Hin Hp. induction items as [|item rest IH]; intros s s'; [by apply not_elem_of_nil in Hin|]. simpl.
  destruct (isOldPeerPod item cur) as [[]|] eqn:Eo; [| |done].
  - unfold mbind. destruct (logged _ _ s) as [e s1]. apply IH.
    apply elem_of_cons in Hin as [->|]; [|done]. unfold isOldPeerPod in Eo. by rewrite Hp in Eo.
  - apply IH. apply elem_of_cons in Hin as [->|]; [|done]. unfold isOldPeerPod in Eo. by rewrite Hp in Eo.
Qed.

(** ** Claims *)

(** C21: The controller removes a finalizer only after the instance is gone: one
    reconciliation makes at most one deletion of an instance, for the instance
    and the provider that the object read under its name gives, and only when that object
    is being deleted and has the finalizer; it updates the object only right after the
    provider has confirmed, and what is written is the object that was read, with all of
    its fields, less that finalizer. *)
Theorem Reconcile_finalizes name s :
  let '(_, s') := Reconcile name s in
  exists evs, log s' = log s ++ evs /\
  ((exists old, evs = CtlDelete <$> old) \/
   exists pp e, (pp_Get name (cworld (load_configs s).2)).1 = Ok pp /\ pp_Deleted pp = true /\ ppFinalizer ∈ pp_Finalizers pp /\
     (evs = [CtlDeleteInstance (pp_CloudProvider pp) (pp_InstanceID pp) e] /\ e <> None \/
      exists pp', evs = [CtlDeleteInstance (pp_CloudProvider pp) (pp_InstanceID pp) e; CtlUpdate pp'] /\ e = None /\
        pp_Name pp' = pp_Name pp /\ pp_UID pp' = pp_UID pp /\ pp_Owners pp' = pp_Owners pp /\ pp_Created pp' = pp_Created pp /\
        pp_Deleted pp' = pp_Deleted pp /\ pp_CloudProvider pp' = pp_CloudProvider pp /\ pp_InstanceID pp' = pp_InstanceID pp /\
        pp_Finalizers pp' = filter (fun f => f <> ppFinalizer) (pp_Finalizers pp))).
Proof.
  unfold Reconcile, mbind, mret. destruct (load_configs s) as [u s1] eqn:E1. apply load_configs_frame in E1.
  pose proof (ctl_value (pp_Get name) s1) as Hg. destruct (ctl (pp_Get name) s1) as [g s2] eqn:E2. apply ctl_frame in E2 as [L2 _].
  cbn [fst snd] in *. destruct g as [pp|err].
  2:{ exists []. rewrite app_nil_r, L2. split; [done|]. left. by exists []. }
  destruct (pp_Deleted pp) eqn:Ed; simpl.
  - destruct (slice_contains _ _) eqn:Ef.
    2:{ exists []. rewrite app_nil_r, L2. split; [done|]. left. by exists []. }
    assert (ppFinalizer ∈ pp_Finalizers pp) as Hf.
    { clear -Ef. induction (pp_Finalizers pp) as [|x l IH]; [done|]. simpl in Ef.
      destruct (String.eqb x ppFinalizer) eqn:E; bool_to_prop; [subst; by left|right; by apply IH]. }
    unfold finalize, mbind, mret. destruct (ensure_provider _ s2) as [p s3] eqn:E3. apply ensure_provider_frame in E3.
    destruct p. { exists []. rewrite app_nil_r. split; [congruence|]. left. by exists []. }
    destruct (logged _ _ s3) as [d s4] eqn:E4. apply logged_frame in E4 as [L4 _].
    destruct d as [err|].
    { eexists. split; [rewrite L4, E3, L2, E1; reflexivity|]. right. exists pp, (Some err). split_and!; [done..|]. by left. }
    destruct (logged _ _ s4) as [x s5] eqn:E5. apply logged_frame in E5 as [L5 _].
    eexists. split; [rewrite L5, L4, E3, L2, E1, <- app_assoc; reflexivity|]. right. exists pp, None.
    split_and!; [done..|]. right. exists (without_finalizer pp). split_and!; [done..|]. apply without_finalizer_spec.
  - destruct (ctl pp_List s2) as [l s3] eqn:E3. apply ctl_frame in E3 as [L3 _].
    destruct l as [items|]; [|exists []; rewrite app_nil_r; split; [congruence|left; by exists []]].
    destruct (delete_old pp items s3) as [o s4] eqn:E4. apply delete_old_log in E4 as (old & Hlog & _).
    exists (CtlDelete <$> old). split; [rewrite Hlog; congruence|]. left. by exists old.
Qed.

(** Only older PeerPods of the same pod are cleaned up: reconciling a live
    object deletes exactly those listed objects that have another UID and the
    same first owner and were created in an earlier second; the object itself and
    the newest PeerPod of a pod are therefore never deleted, for whichever object
    of the pod the controller runs. *)
Theorem old_peerpods_spec cur items s :
  let '(o, s') := delete_old cur items s in
  exists old, log s' = log s ++ (CtlDelete <$> old) /\
    (forall p, p ∈ old -> p ∈ items /\ pp_UID p <> pp_UID cur /\
       head (pp_Owners p) = head (pp_Owners cur) /\ pp_Created p < pp_Created cur) /\
    (o = Return tt -> forall p, p ∈ items -> pp_UID p <> pp_UID cur ->
       head (pp_Owners p) = head (pp_Owners cur) -> pp_Created p < pp_Created cur -> p ∈ old) /\
    (forall newest, (forall q, q ∈ cur :: items -> pp_Created q <= pp_Created newest) -> newest ∉ old).
Proof.
  destruct (delete_old cur items s) as [o s'] eqn:E. pose proof E as E0.
  apply delete_old_log in E as (old & Hlog & Ha & Hb).
  assert (forall p, isOldPeerPod p cur = Return true <->
    pp_Owners p <> [] /\ pp_UID p <> pp_UID cur /\ head (pp_Owners p) = head (pp_Owners cur) /\
    pp_Created p < pp_Created cur) as Hold.
  { intros p. unfold isOldPeerPod. destruct (pp_Owners p) as [|x l], (pp_Owners cur) as [|y m]; simpl;
      [naive_solver..|]. split.
    - intros [= Hq]. bool_to_prop. by subst.
    - intros (_ & Hu & [= ->] & Hc). apply String.eqb_neq in Hu. rewrite String.eqb_refl, Hu. simpl. f_equal. by apply Z.ltb_lt. }
  exists old. split; [done|]. split; [|split].
  - intros p Hp. destruct (Ha p Hp) as [Hin Ho]. apply Hold in Ho as (_ & ? & ? & ?). done.
  - intros -> p Hin Hu Ho Hc. apply Hb; [done|done|]. apply Hold. split; [|done].
    intros Hnil. exact (delete_old_owned cur items p Hin Hnil s s' E0).
  - intros newest Hn Hin. destruct (Ha _ Hin) as [_ Ho]. apply Hold in Ho as (_ & _ & _ & Hc).
    specialize (Hn cur ltac:(by left)). lia.
Qed.

End Controller.

(** ** Witness: a controller in a cluster that holds one PeerPod under deletion *)

Definition pp1 : PeerPod := mkPeerPod "web" "u1" ["pod-uid"] 7 true ["other/finalizer"; ppFinalizer] "aws" "i-1".

#[local] Instance bench_ctrl : CtrlEnv (option PeerPod) := {|
  pp_Get n := fun w => (match w with Some pp => Ok pp | None => Err (Sentinel "not found") end, w);
  pp_List := fun w => (Ok (match w with Some pp => [pp] | None => [] end), w);
  pp_Delete _ := fun w => (None, w);
  pp_Update pp := fun _ => (None, Some pp);
  data_Get _ _ := fun w => (Ok None, w);
  os_Setenv _ _ := fun w => (tt, w);
  os_Getenv _ := fun w => ("peerpods"%string, w);
  provider_DeleteInstance _ _ := fun w => (None, w);
  provider_New _ := fun w => (None, w);
  in_table _ := fun w => (true, w);
  range_map m := map_to_list m
|}.

Example Reconcile_finalizes_witness :
  let s' := (Reconcile "web" (mkController ∅ [] (Some pp1))).2 in
  log s' = [CtlDeleteInstance "aws" "i-1" None; CtlUpdate (mkPeerPod "web" "u1" ["pod-uid"] 7 true ["other/finalizer"] "aws" "i-1")] /\
  exists evs, log s' = evs /\
    ((exists old, evs = CtlDelete <$> old) \/ exists pp, pp_Deleted pp = true /\ ppFinalizer ∈ pp_Finalizers pp).
Proof.
  cbv zeta. pose proof (Reconcile_finalizes "web" (mkController ∅ [] (Some pp1))) as Hr.
  destruct (Reconcile "web" (mkController ∅ [] (Some pp1))) as [r s'] eqn:E. cbn [fst snd]. split.
  - vm_compute in E. injection E as _ <-. reflexivity.
  - destruct Hr as (evs & Hl & Hc). exists evs. split; [exact Hl|].
    destruct Hc as [Ho|(pp & e & _ & Hd & Hf & _)]; [by left|right; by exists pp].
Defined.
