(* ===== verification/ProviderTable.v ===== *)
(** * The table of cloud providers

    Models src/cloud-providers/table.go: registration and lookup of providers,
    and the checks before an external plugin is opened.  The file system, SHA-256
    and the plugin loader are parameters; opening a plugin is recorded. *)

From Stdlib Require Import ZArith Ascii String Lia.
From stdpp Require Import base gmap strings list fin_maps.
From S2P Require Import Prelude InstanceTypes NetAddr CsiVolumes.

Open Scope Z_scope.

(** [filepath.Dir]: everything up to the last slash, cleaned. *)
Fixpoint dir_part (s : string) : string :=
  match s with
  | EmptyString => EmptyString
  | String c s' =>
      match dir_part s' with
      | EmptyString => if Ascii.eqb c "/" then String c EmptyString else EmptyString
      | t => String c t
      end
  end.

Definition filepath_Dir (p : string) : string := path_Clean (dir_part p).

(** The mode bits that [hasExecutePermission] tests. *)
Record FileMode := mkMode { mode_Dir : bool; mode_bits : Z }.

Class TableEnv := {
  tb_getenv : string -> string;
  os_Stat : string -> result FileMode;
  (** the content of a file: [None] when it cannot be opened, [Some (Err e)]
      when reading it fails *)
  file_content : string -> option (result string);
  sha256_hex : string -> string;
  plugin_Open : string -> option GoError;
  unicode_fold : Z -> Z  (** case folding of runes past ASCII *)
}.

Section Table.

Context `{TableEnv}.

(** The table and the plugins that [plugin.Open] was asked for so far.  The
    first successful open of a plugin runs its initialisation, which registers
    its providers as [registers path]; opening it again only returns it. *)
Record table (CP : Type) := mkTable { providerTable : gmap string CP; opened : list string }.
Arguments mkTable {CP} providerTable opened.
Arguments providerTable {CP} t.
Arguments opened {CP} t.

Context {CP : Type} (registers : string -> gmap string CP).

(** (filename, sum, error): the name is there once the file could be opened. *)
Definition getFileNameAndSha256sum (providerPath : string) : string * string * option GoError :=
  match file_content providerPath with
  | None => (EmptyString, EmptyString, Some (Errorf "open" []))
  | Some (Err e) => (filepath_Base providerPath, EmptyString, Some e)
  | Some (Ok content) => (filepath_Base providerPath, sha256_hex content, None)
  end.

(** [mode&os.ModeDir != 0 && mode&0100 != 0]: 0100 is octal. *)
Definition hasExecutePermission (providerPath : string) : result bool :=
  match os_Stat (filepath_Dir providerPath) with
  | Err e => Err e
  | Ok m => Ok (mode_Dir m && negb (Z.land (mode_bits m) 64 =? 0))%bool
  end.

(** [strings.EqualFold]: rune by rune, without regard to case. *)
Definition EqualFold (s t : string) : bool :=
  bool_decide (ToLower_rune unicode_fold <$> runes (bytes_of s)
               = ToLower_rune unicode_fold <$> runes (bytes_of t)).

(** Whether the plugin may be opened, by the checks in their order. *)
Definition plugin_accepted (name : string) : bool :=
  if negb (String.eqb (tb_getenv "ENABLE_CLOUD_PROVIDER_EXTERNAL_PLUGIN") "true") then false
  else
    let externalPluginPath := tb_getenv "CLOUD_PROVIDER_EXTERNAL_PLUGIN_PATH" in
    match hasExecutePermission externalPluginPath with
    | Err _ => false
    | Ok executePermission =>
        if negb executePermission then false
        else
          let cloudProviderPluginHash := tb_getenv "CLOUD_PROVIDER_EXTERNAL_PLUGIN_HASH" in
          if String.eqb externalPluginPath "" then false
          else if String.eqb cloudProviderPluginHash "" then false
          else
            let '(filename, realPluginHash, err) := getFileNameAndSha256sum externalPluginPath in
            if negb (EqualFold filename (name +:+ ".so")) then false
            else match err with
                 | Some _ => false
                 | None => String.eqb cloudProviderPluginHash realPluginHash
                 end
    end.

Definition LoadCloudProvider (name : string) (t : table CP) : table CP :=
  if plugin_accepted name then
    let path := tb_getenv "CLOUD_PROVIDER_EXTERNAL_PLUGIN_PATH" in
    let registered :=
      match plugin_Open path with
      | Some _ => ∅
      | None => if bool_decide (path ∈ opened t) then ∅ else registers path
      end in
    mkTable (registered ∪ providerTable t) (opened t ++ [path])
  else t.

Definition table_Get (name : string) (t : table CP) : option CP * table CP :=
  let t' := LoadCloudProvider name t in (providerTable t' !! name, t').

Definition AddCloudProvider (name : string) (cloud : CP) (t : table CP) : table CP :=
  mkTable (<[name := cloud]> (providerTable t)) (opened t).

Definition table_List `{GoMapOrder} (t : table CP) : list string := fst <$> map_order (providerTable t).

(** C39: Only a verified plugin is opened: looking up a provider opens at most the
    configured plugin, and only when external plugins are enabled, the
    directory can be entered, the file's name is the provider's and the SHA-256
    sum of the content equals the configured one; otherwise the table is left
    as it was. *)
Theorem plugin_opened_only_if_verified name t :
  let t' := (table_Get name t).2 in
  t' = t \/
  (opened t' = opened t ++ [tb_getenv "CLOUD_PROVIDER_EXTERNAL_PLUGIN_PATH"] /\
   tb_getenv "ENABLE_CLOUD_PROVIDER_EXTERNAL_PLUGIN" = "true" /\
   exists content m,
     file_content (tb_getenv "CLOUD_PROVIDER_EXTERNAL_PLUGIN_PATH") = Some (Ok content) /\
     tb_getenv "CLOUD_PROVIDER_EXTERNAL_PLUGIN_HASH" = sha256_hex content /\
     tb_getenv "CLOUD_PROVIDER_EXTERNAL_PLUGIN_HASH" <> "" /\
     EqualFold (filepath_Base (tb_getenv "CLOUD_PROVIDER_EXTERNAL_PLUGIN_PATH")) (name +:+ ".so") = true /\
     os_Stat (filepath_Dir (tb_getenv "CLOUD_PROVIDER_EXTERNAL_PLUGIN_PATH")) = Ok m /\
     mode_Dir m = true /\ Z.testbit (mode_bits m) 6 = true).
Proof.
  cbv zeta. unfold table_Get, LoadCloudProvider. cbv zeta. cbn [snd].
  destruct (plugin_accepted name) eqn:E; [right|by left]. split; [done|].
  unfold plugin_accepted, hasExecutePermission, getFileNameAndSha256sum in E.
  destruct (String.eqb (tb_getenv "ENABLE_CLOUD_PROVIDER_EXTERNAL_PLUGIN") "true") eqn:E1; simpl in E; [|done].
  destruct (os_Stat _) as [m|]; [|done]. destruct (mode_Dir m) eqn:Em; [|done]. simpl in E.
  destruct (Z.land (mode_bits m) 64 =? 0) eqn:Eb; simpl in E; [done|].
  destruct (String.eqb (tb_getenv "CLOUD_PROVIDER_EXTERNAL_PLUGIN_PATH") "") eqn:E2; [done|].
  destruct (String.eqb (tb_getenv "CLOUD_PROVIDER_EXTERNAL_PLUGIN_HASH") "") eqn:E3; [done|].
  destruct (file_content _) as [[content|e]|]; cbv beta iota in E.
  - destruct (EqualFold _ (name +:+ ".so")) eqn:E4; cbv beta iota delta [negb] in E; [|done]. bool_to_prop. split; [done|].
    exists content, m. split; [done|].
    split; [done|]. split; [done|]. split; [done|].  split; [done|]. split; [done|].
    change 64 with (2 ^ 6) in Eb. rewrite <- Z.shiftl_1_l in Eb.
    destruct (Z.testbit (mode_bits m) 6) eqn:Et; [done|exfalso]. apply Eb. apply Z.bits_inj'. intros k Hk.
    rewrite Z.land_spec, Z.bits_0, Z.shiftl_1_l, Z.pow2_bits_eqb by done.
    destruct (6 =? k) eqn:Ek; bool_to_prop; [subst; by rewrite Et|by rewrite andb_false_r].
  - by destruct (negb _).
  - by destruct (negb _).
Qed.

(** A registered provider is found under its name and no other entry is
    disturbed, when external plugins are not enabled. *)
Theorem AddCloudProvider_Get name other cloud t :
  tb_getenv "ENABLE_CLOUD_PROVIDER_EXTERNAL_PLUGIN" <> "true" ->
  (table_Get name (AddCloudProvider name cloud t)).1 = Some cloud /\
  (other <> name -> (table_Get other (AddCloudProvider name cloud t)).1 = (table_Get other t).1).
Proof.
  intros Hoff. apply String.eqb_neq in Hoff.
  assert (forall n, plugin_accepted n = false) as Hn by (intros n; unfold plugin_accepted; by rewrite Hoff).
  unfold table_Get, LoadCloudProvider. rewrite !Hn. simpl. split; [apply lookup_insert_eq|].
  intros Hne. by rewrite lookup_insert_ne.
Qed.

End Table.

(** A process without external plugins. *)
#[local] Instance no_plugins : TableEnv := {
  tb_getenv _ := EmptyString;
  os_Stat _ := Err (Errorf "stat" []);
  file_content _ := None;
  sha256_hex s := s;
  plugin_Open _ := None;
  unicode_fold z := z
}.

Lemma AddCloudProvider_Get_witness :
  (@table_Get no_plugins nat (fun _ => ∅) "libvirt" (AddCloudProvider "libvirt" 1%nat (mkTable nat ∅ []))).1 = Some 1%nat.
Proof.
  destruct (@AddCloudProvider_Get no_plugins nat (fun _ => ∅) "libvirt" "aws" 1%nat (mkTable nat ∅ []))
    as [Hget _]; [done|exact Hget].
Defined.
