(* ===== verification/Vxlan.v ===== *)
(** * The VXLAN tunnel of a pod

    Models src/cloud-api-adaptor/pkg/podnetwork/tunneler (tunneler.go, config.go)
    and its vxlan implementation (workernode.go, podnode.go, iptables.go).  The
    worker node's end of the tunnel is a VXLAN interface inside the pod's
    network namespace with traffic redirected to and from the pod's interface; the
    pod VM's end is a VXLAN interface that takes the place of the pod's.

    The interfaces [netops.Namespace] and [netops.Link] and the iptables package
    are operations of [NetOps].  [NetLaws] says what successful operations do to
    the interfaces, redirects and iptables chains of the machine; nothing is said
    of failed ones, except that an interface that exists already stays. *)

From Stdlib Require Import ZArith Ascii String Lia.
From stdpp Require Import base gmap strings list fin_maps.
From S2P Require Import Prelude NetAddr.

Open Scope Z_scope.
Open Scope go_scope.

(** ** Data *)

(** [netip.Prefix]: the zero value, which is not valid, is [None]. *)
Record prefix (A : Type) := mkPrefix { prefix_Addr : A; prefix_Bits : Z }.
Arguments mkPrefix {A} prefix_Addr prefix_Bits.
Arguments prefix_Addr {A} p.
Arguments prefix_Bits {A} p.

Notation Prefix := (option (prefix Addr)).

#[export] Instance prefix_eq_dec `{NetIP} : EqDecision (prefix Addr).
Proof. solve_decision. Defined.

(** [Bits] of a prefix that is not valid is -1. *)
Definition Bits {A} (p : option (prefix A)) : Z :=
  match p with Some p => prefix_Bits p | None => -1 end.

(** A [netip.Addr] that may be the zero value. *)
Definition addr_text `{NetIP} (a : option Addr) : string :=
  match a with Some a => Addr_String a | None => "invalid IP" end.

Section Data.
Context `{NetIP}.

Record VXLAN := mkVXLAN { vx_Group : option Addr; vx_ID : Z; vx_Port : Z }.

(** [netops.Route]. *)
Record Route := mkRoute {
  rt_Destination : Prefix;
  rt_Source : option Addr;
  rt_Gateway : option Addr;
  rt_Device : string;
  rt_Priority : Z;
  rt_Table : Z;
  rt_Type : Z;
  rt_Protocol : Z;
  rt_Scope : Z;
  rt_Onlink : bool
}.

(** [netops.Neighbor] and [tunneler.Neighbor] have the same fields. *)
Record Neighbor := mkNeighbor {
  nb_IP : option Addr;
  nb_HardwareAddr : string;
  nb_Dev : string;
  nb_State : Z
}.

(** [tunneler.Route] and [tunneler.Config]. *)
Record TRoute := mkTRoute {
  tr_Dst : Prefix;
  tr_GW : option Addr;
  tr_Dev : string;
  tr_Protocol : Z;
  tr_Scope : Z
}.

Record TConfig := mkTConfig {
  tc_PodIP : Prefix;
  tc_PodHwAddr : string;
  tc_InterfaceName : string;
  tc_WorkerNodeIP : Prefix;
  tc_TunnelType : string;
  tc_Routes : list TRoute;
  tc_Neighbors : list Neighbor;
  tc_MTU : Z;
  tc_Index : Z;
  tc_VXLANPort : Z;
  tc_VXLANID : Z;
  tc_Dedicated : bool;
  tc_ExternalNetViaPodVM : bool
}.

Record NetworkConfig := mkNetworkConfig {
  nc_TunnelType : string;
  nc_HostInterface : string;
  nc_VXLAN_Port : Z;
  nc_VXLAN_MinID : Z;
  nc_ExternalNetViaPodVM : bool;
  nc_PodSubnetCIDRs : list string
}.

End Data.

(** ** What the tunnel calls

    [NS] and [LK] are the handles of namespaces and links.  [ns_Run n fn] runs
    [fn] inside the namespace; the iptables operations name the namespace they
    run in. *)
Class NetOps (W : Type) `{NetIP} := {
  NS : Type;
  LK : Type;
  OpenCurrentNamespace : M W (result NS);
  OpenNamespace : string -> M W (result NS);
  ns_Close : NS -> M W (option GoError);
  ns_Run : NS -> M W (option GoError) -> M W (option GoError);
  LinkAdd : NS -> string -> VXLAN -> M W (result LK);
  LinkFind : NS -> string -> M W (result LK);
  LinkList : NS -> M W (result (list LK));
  RedirectAdd : NS -> string -> string -> M W (option GoError);
  RedirectDel : NS -> string -> M W (option GoError);
  RouteAdd : NS -> Route -> M W (option GoError);
  RouteDel : NS -> Route -> M W (option GoError);
  GetDefaultRoutes : NS -> M W (result (list Route));
  RouteList : NS -> option Route -> M W (result (list Route));
  NeighborAdd : NS -> Neighbor -> M W (option GoError);
  NeighborList : NS -> Neighbor -> M W (result (list Neighbor));
  Link_Name : LK -> string;
  GetAddr : LK -> M W (result (list Prefix));
  AddAddr : LK -> Prefix -> M W (option GoError);
  GetHardwareAddr : LK -> M W (result string);
  SetHardwareAddr : LK -> string -> M W (option GoError);
  GetMTU : LK -> M W (result Z);
  SetMTU : LK -> Z -> M W (option GoError);
  GetDevice : LK -> M W (result (option VXLAN));  (** [None]: not a VXLAN device *)
  SetNamespace : LK -> NS -> M W (option GoError);
  SetName : LK -> string -> M W (option GoError);
  SetUp : LK -> M W (option GoError);
  Link_Delete : LK -> M W (option GoError);
  ipt_New : NS -> M W (option GoError);
  ChainExists : NS -> string -> string -> M W (result bool);
  NewChain : NS -> string -> string -> M W (option GoError);
  AppendUnique : NS -> string -> string -> list string -> M W (option GoError);
  ipt_Delete : NS -> string -> string -> list string -> M W (option GoError);
  ipt_List : NS -> string -> string -> M W (result (list string));
  DeleteIfExists : NS -> string -> string -> list string -> M W (option GoError);
  DeleteChain : NS -> string -> string -> M W (option GoError)
}.

(** [if err := m; err != nil { return wrap(err) }] in a function that returns an
    error, and the same for a call that also gives a value. *)
Notation "'check' m 'orelse' wrap 'in' k" :=
  (mbind m (fun e => match e with Some err => mret (Some (wrap err)) | None => k end))
  (at level 200, m at level 100, wrap at level 100, k at level 200) : go_scope.

Notation "'get' x := m 'orelse' wrap 'in' k" :=
  (mbind m (fun r => match r with Ok x => k | Err err => mret (Some (wrap err)) end))
  (at level 200, x name, m at level 100, wrap at level 100, k at level 200) : go_scope.

(** [defer h.Close()], where the error of [Close] does not reach the caller. *)
Definition closing {W A} (close : M W (option GoError)) (body : M W A) : M W A :=
  let* r := body in let* _e := close in mret r.

Definition same_error (e : GoError) : GoError := e.
Definition wrapped (format : string) (e : GoError) : GoError := Errorf format [e].

(** ** iptables.go *)

Definition iptablesOutputChainName : string := "peerpod-OUTPUT".
Definition iptablesPreRoutingChainName : string := "peerpod-PREROUTING".

Record iptablesRule := mkRule { r_table : string; r_base : string; r_chain : string; r_spec : list string }.

Definition iptablesRules (addr port id : string) : list iptablesRule :=
  let comment := "peerpod [vni:" +:+ id +:+ "]" in
  [ mkRule "raw" "OUTPUT" iptablesOutputChainName
      ["-m"; "comment"; "--comment"; comment; "-d"; addr;
       "-p"; "udp"; "-m"; "udp"; "--dport"; port; "-j"; "NOTRACK"];
    mkRule "raw" "PREROUTING" iptablesPreRoutingChainName
      ["-m"; "comment"; "--comment"; comment; "-s"; addr;
       "-p"; "udp"; "-m"; "udp"; "--dport"; port; "-j"; "NOTRACK"] ].

Section Tunnel.

Context {W : Type} `{NetIP} `{!NetOps W}.

Definition ensure_chain (n : NS) (rule : iptablesRule) (exists_ : bool) : M W (option GoError) :=
  if exists_ then mret None
  else
    check NewChain n (r_table rule) (r_chain rule)
      orelse wrapped "failed to create iptables chain %s on table %s: %w" in
    check AppendUnique n (r_table rule) (r_base rule) ["-j"; r_chain rule]
      orelse wrapped "failed to add iptables rule -t %s -A %s -j %s: %w" in
    mret None.

Definition setup_rule (n : NS) (rule : iptablesRule) : M W (option GoError) :=
  get exists_ := ChainExists n (r_table rule) (r_chain rule)
    orelse wrapped "failed to check the existence of iptables chain %q: %w" in
  check ensure_chain n rule exists_ orelse same_error in
  check AppendUnique n (r_table rule) (r_chain rule) (r_spec rule)
    orelse wrapped "failed to add iptables rule -t %s -A %s %s: %w" in
  mret None.

(** The loop over the rules, which ends at the first error. *)
Fixpoint for_rules (body : iptablesRule -> M W (option GoError)) (rules : list iptablesRule)
    : M W (option GoError) :=
  match rules with
  | [] => mret None
  | rule :: rest => check body rule orelse same_error in for_rules body rest
  end.

Definition iptablesSetup (n : NS) (dstAddr : option Addr) (dstPort vxlanID : Z) : M W (option GoError) :=
  ns_Run n
    (check ipt_New n orelse wrapped "failed to initialize iptables: %w" in
     for_rules (setup_rule n) (iptablesRules (addr_text dstAddr) (FormatInt dstPort) (FormatInt vxlanID))).

(** What is left to do when the chain has only its "-N" line. *)
Definition remove_chain (n : NS) (rule : iptablesRule) : M W (option GoError) :=
  check DeleteIfExists n (r_table rule) (r_base rule) ["-j"; r_chain rule]
    orelse wrapped "failed to delete iptables rule -t %s -A %s -j %s: %w" in
  check DeleteChain n (r_table rule) (r_chain rule)
    orelse wrapped "failed to delete iptables chain %s on table %s: %w" in
  mret None.

Definition teardown_rule (n : NS) (rule : iptablesRule) : M W (option GoError) :=
  check ipt_Delete n (r_table rule) (r_chain rule) (r_spec rule)
    orelse wrapped "failed to delete iptables rule -t %s -A %s %s: %w" in
  get lines := ipt_List n (r_table rule) (r_chain rule)
    orelse wrapped "failed to list rules in chain %s on table %s: %w" in
  if (1 <? length lines)%nat then mret None else remove_chain n rule.

Definition iptablesTeardown (n : NS) (dstAddr : option Addr) (dstPort vxlanID : Z) : M W (option GoError) :=
  ns_Run n
    (check ipt_New n orelse wrapped "failed to initialize iptables: %w" in
     for_rules (teardown_rule n) (iptablesRules (addr_text dstAddr) (FormatInt dstPort) (FormatInt vxlanID))).

(** ** vxlan/workernode.go *)

Definition hostVxlanInterfacePrefix : string := "ppvxlan".
Definition secondPodInterface : string := "vxlan1".
Definition ErrExist : string := "file already exists".

Definition Configure (n : NetworkConfig) (c : TConfig) : TConfig :=
  mkTConfig (tc_PodIP c) (tc_PodHwAddr c) (tc_InterfaceName c) (tc_WorkerNodeIP c) (tc_TunnelType c)
    (tc_Routes c) (tc_Neighbors c) (tc_MTU c) (tc_Index c) (nc_VXLAN_Port n)
    (wrap64 (nc_VXLAN_MinID n + tc_Index c)) (tc_Dedicated c) (tc_ExternalNetViaPodVM c).

(** The address at the far end of the tunnel. *)
Definition tunnel_destination (podNodeIPs : list (option Addr)) (config : TConfig) : result (option Addr) :=
  match podNodeIPs with
  | [] => Err (Errorf "pod node has no IPs" [])
  | ip0 :: rest =>
      if tc_Dedicated config then
        match rest with
        | [] => Err (Errorf "dedicated tunnel missing destination address" [])
        | ip1 :: _ => Ok ip1
        end
      else Ok ip0
  end.

(** The loop that looks for a free name: [budget] more indices may be tried. *)
Fixpoint create_vxlan (budget : nat) (index : Z) (names : list string) (n : NS) (dev : VXLAN)
    : M W (result (string * LK)) :=
  match budget with
  | O => mret (Err (Errorf "failed to create vxlan interface %s: too many" []))
  | S budget' =>
      let name := hostVxlanInterfacePrefix +:+ FormatInt index in
      if slice_contains names name then create_vxlan budget' (index + 1) names n dev
      else
        let* r := LinkAdd n name dev in
        match r with
        | Ok l => mret (Ok (name, l))
        | Err err =>
            if errors_Is ErrExist err then create_vxlan budget' (index + 1) names n dev
            else mret (Err (wrapped "failed to add vxlan interface %s: %w" err))
        end
  end.

Definition max_vxlan_index : nat := 5.

(** From the created interface on. *)
Definition attach_worker (podNS : NS) (name : string) (l : LK) (podInterface : string)
    : M W (option GoError) :=
  check SetNamespace l podNS orelse wrapped "failed to move vxlan interface %s to netns %s: %w" in
  get pl := LinkFind podNS name
    orelse wrapped "failed to find vxlan interface %q on pod netns %s to %s: %w" in
  check SetName pl secondPodInterface
    orelse wrapped "failed to change vxlan interface name %s on netns %s to %s: %w" in
  check SetUp pl orelse same_error in
  check RedirectAdd podNS podInterface secondPodInterface
    orelse wrapped "failed to add a tc redirect filter from %s to %s: %w" in
  check RedirectAdd podNS secondPodInterface podInterface
    orelse wrapped "failed to add a tc redirect filter from %s to %s: %w" in
  mret None.

Definition worker_tunnel (hostNS podNS : NS) (dstAddr : option Addr) (config : TConfig)
    : M W (option GoError) :=
  check iptablesSetup hostNS dstAddr (tc_VXLANPort config) (tc_VXLANID config) orelse same_error in
  get links := LinkList hostNS orelse wrapped "failed to get interfaces on host: %w" in
  get created := create_vxlan max_vxlan_index 1 (Link_Name <$> links) hostNS
    (mkVXLAN dstAddr (tc_VXLANID config) (tc_VXLANPort config)) orelse same_error in
  attach_worker podNS created.1 created.2 (tc_InterfaceName config).

Definition worker_Setup (nsPath : string) (podNodeIPs : list (option Addr)) (config : TConfig)
    : M W (option GoError) :=
  match tunnel_destination podNodeIPs config with
  | Err e => mret (Some e)
  | Ok dstAddr =>
      get hostNS := OpenCurrentNamespace orelse wrapped "failed to get current network namespace: %w" in
      closing (ns_Close hostNS)
        (get podNS := OpenNamespace nsPath orelse wrapped "failed to get a network namespace: %s: %w" in
         closing (ns_Close podNS) (worker_tunnel hostNS podNS dstAddr config))
  end.

(** The VXLAN interface is deleted, and then the rules of the tunnel it served. *)
Definition delete_vxlan (not_found : string) (hostNS podNS : NS) (name : string) : M W (option GoError) :=
  get l := LinkFind podNS name orelse wrapped not_found in
  get device := GetDevice l orelse wrapped "failed to get device info of %s: %w" in
  match device with
  | None => mret (Some (Errorf "not a VXLAN interface: %s" []))
  | Some d =>
      check Link_Delete l orelse wrapped "failed to delete vxlan interface %s at %s: %w" in
      check iptablesTeardown hostNS (vx_Group d) (vx_Port d) (vx_ID d) orelse same_error in
      mret None
  end.

Definition worker_detach (hostNS podNS : NS) (config : TConfig) : M W (option GoError) :=
  check RedirectDel podNS (tc_InterfaceName config)
    orelse wrapped "failed to delete a tc redirect filter from %s to %s: %w" in
  check RedirectDel podNS secondPodInterface
    orelse wrapped "failed to delete a tc redirect filter from %s to %s: %w" in
  delete_vxlan "failed to find vxlan interface %q on pod netns %s to %s: %w" hostNS podNS secondPodInterface.

Definition worker_Teardown (nsPath hostInterface : string) (config : TConfig) : M W (option GoError) :=
  get hostNS := OpenCurrentNamespace orelse wrapped "failed to get current network namespace: %w" in
  closing (ns_Close hostNS)
    (get podNS := OpenNamespace nsPath orelse wrapped "failed to get a network namespace: %s: %w" in
     closing (ns_Close podNS) (worker_detach hostNS podNS config)).

(** ** vxlan/podnode.go *)

Definition hostVxlanInterface : string := "vxlan0".
Definition maxMTU : Z := 1450.

(** From the created interface on. *)
Definition attach_pod (podNS : NS) (l : LK) (config : TConfig) (podAddr : Prefix) : M W (option GoError) :=
  check SetNamespace l podNS orelse wrapped "failed to move vxlan interface %s to netns %s: %w" in
  check SetName l (tc_InterfaceName config)
    orelse wrapped "failed to rename vxlan interface %s on netns %s: %w" in
  check SetHardwareAddr l (tc_PodHwAddr config) orelse wrapped "failed to set pod HW address %s on %s: %w" in
  let mtu := if maxMTU <? tc_MTU config then maxMTU else tc_MTU config in
  check SetMTU l mtu orelse wrapped "failed to set MTU of %s to %d on %s: %w" in
  check AddAddr l podAddr orelse wrapped "failed to add pod IP %s to %s on %s: %w" in
  check SetUp l orelse same_error in
  mret None.

Definition pod_tunnel (hostNS podNS : NS) (nodeAddr : prefix Addr) (config : TConfig) : M W (option GoError) :=
  check iptablesSetup hostNS (Some (prefix_Addr nodeAddr)) (tc_VXLANPort config) (tc_VXLANID config)
    orelse same_error in
  get l := LinkAdd hostNS hostVxlanInterface
    (mkVXLAN (Some (prefix_Addr nodeAddr)) (tc_VXLANID config) (tc_VXLANPort config))
    orelse wrapped "failed to add vxlan interface %s: %w" in
  attach_pod podNS l config (tc_PodIP config).

Definition pod_Setup (nsPath : string) (podNodeIPs : list (option Addr)) (config : TConfig)
    : M W (option GoError) :=
  if String.eqb (tc_InterfaceName config) "" then mret (Some (Errorf "InterfaceName is not specified" []))
  else match tc_WorkerNodeIP config, tc_PodIP config with
  | None, _ => mret (Some (Errorf "WorkerNodeIP is not specified: %#v" []))
  | _, None => mret (Some (Errorf "PodIP is not specified: %#v" []))
  | Some nodeAddr, Some _ =>
      get hostNS := OpenCurrentNamespace orelse wrapped "failed to get host network namespace: %w" in
      closing (ns_Close hostNS)
        (get podNS := OpenNamespace nsPath orelse wrapped "failed to get a pod network namespace: %s: %w" in
         closing (ns_Close podNS) (pod_tunnel hostNS podNS nodeAddr config))
  end.

Definition pod_Teardown (nsPath hostInterface : string) (config : TConfig) : M W (option GoError) :=
  get hostNS := OpenCurrentNamespace orelse wrapped "failed to get host network namespace: %w" in
  closing (ns_Close hostNS)
    (get podNS := OpenNamespace nsPath orelse wrapped "failed to get a pod network namespace: %s: %w" in
     closing (ns_Close podNS) (delete_vxlan "failed to find vxlan interface %q on netns %s: %w" hostNS podNS
                                  (tc_InterfaceName config))).

End Tunnel.

(** ** The machine's network, as the tunnel changes it *)

Record iface (A : Type) := mkIface {
  if_ns : string;
  if_name : string;
  if_dev : option (option A * Z * Z);
  if_mtu : Z;
  if_hw : string;
  if_addrs : list (option (prefix A));
  if_up : bool
}.
Arguments mkIface {A}.
Arguments if_ns {A} i.
Arguments if_name {A} i.
Arguments if_dev {A} i.
Arguments if_mtu {A} i.
Arguments if_hw {A} i.
Arguments if_addrs {A} i.
Arguments if_up {A} i.

(** Interfaces by their index, redirects by namespace and source, rules by
    namespace, table and chain. *)
Record netview (A : Type) := mkView {
  ifaces : gmap Z (iface A);
  redirs : gmap (string * string) string;
  chains : gmap (string * string * string) (list (list string))
}.
Arguments mkView {A}.
Arguments ifaces {A} n.
Arguments redirs {A} n.
Arguments chains {A} n.

Section View.
Context {A : Type}.
Implicit Types (v : netview A) (i : iface A).

Definition on_ifaces (f : gmap Z (iface A) -> gmap Z (iface A)) v := mkView (f (ifaces v)) (redirs v) (chains v).
Definition on_redirs f v := mkView (ifaces v) (f (redirs v)) (chains v).
Definition on_chains f v := mkView (ifaces v) (redirs v) (f (chains v)).

Definition set_if_ns ns i := mkIface ns (if_name i) (if_dev i) (if_mtu i) (if_hw i) (if_addrs i) (if_up i).
Definition set_if_name n i := mkIface (if_ns i) n (if_dev i) (if_mtu i) (if_hw i) (if_addrs i) (if_up i).
Definition set_if_mtu m i := mkIface (if_ns i) (if_name i) (if_dev i) m (if_hw i) (if_addrs i) (if_up i).
Definition set_if_hw h i := mkIface (if_ns i) (if_name i) (if_dev i) (if_mtu i) h (if_addrs i) (if_up i).
Definition add_if_addr a i := mkIface (if_ns i) (if_name i) (if_dev i) (if_mtu i) (if_hw i) (if_addrs i ++ [a]) (if_up i).
Definition set_if_up i := mkIface (if_ns i) (if_name i) (if_dev i) (if_mtu i) (if_hw i) (if_addrs i) true.

End View.

(** A rule is removed at its first place. *)
Fixpoint remove_rule (spec : list string) (rules : list (list string)) : list (list string) :=
  match rules with
  | [] => []
  | r :: rest => if decide (r = spec) then rest else r :: remove_rule spec rest
  end.
