(* ===== verification/VxlanProps.v ===== *)
(** * Correctness of the VXLAN tunnel

    The laws of the machine's network, what setting a tunnel up does to it, that
    tearing it down undoes exactly that, and an executable network that satisfies the
    laws. *)

From Stdlib Require Import ZArith Ascii String Lia.
From stdpp Require Import base gmap strings list fin_maps.
From S2P Require Import Prelude NetAddr Vxlan.

Open Scope Z_scope.
Open Scope go_scope.

(** ** Laws

    A namespace is identified by what its handle refers to: the current one is
    the host's, and a path refers to the same namespace each time.  Successful
    operations have the effect their documentation gives; reading changes
    nothing.  Within a namespace the names of interfaces are unique, so that the
    interface found by its name is the only one. *)
Definition append_unique (spec : list string) (rules : list (list string)) : list (list string) :=
  if decide (spec ∈ rules) then rules else rules ++ [spec].

Class NetLaws (W : Type) `{NetIP} `{!NetOps W} := {
  view : W -> netview Addr;
  ns_id : NS -> string;
  lk_id : LK -> Z;
  host_ns : string;
  netns_at : string -> string;
  OpenCurrent_law : forall w r w', OpenCurrentNamespace w = (r, w') ->
    view w' = view w /\ (forall n, r = Ok n -> ns_id n = host_ns);
  Open_law : forall p w r w', OpenNamespace p w = (r, w') ->
    view w' = view w /\ (forall n, r = Ok n -> ns_id n = netns_at p);
  Close_law : forall n w r w', ns_Close n w = (r, w') -> view w' = view w;
  Run_law : forall n fn w w', ns_Run n fn w = (None, w') ->
    exists w1 w2, view w1 = view w /\ fn w1 = (None, w2) /\ view w' = view w2;
  LinkAdd_law : forall n name dev w l w', LinkAdd n name dev w = (Ok l, w') ->
    ifaces (view w) !! lk_id l = None /\
    exists mtu hw, view w' = on_ifaces <[lk_id l := mkIface (ns_id n) name
      (Some (vx_Group dev, vx_ID dev, vx_Port dev)) mtu hw [] false]> (view w);
  LinkAdd_exist_law : forall n name dev w e w', LinkAdd n name dev w = (Err e, w') ->
    errors_Is ErrExist e = true -> view w' = view w;
  LinkFind_law : forall n name w r w', LinkFind n name w = (r, w') ->
    view w' = view w /\
    (forall l, r = Ok l ->
       (exists i, ifaces (view w) !! lk_id l = Some i /\ if_ns i = ns_id n /\ if_name i = name) /\
       (forall k i, ifaces (view w) !! k = Some i -> if_ns i = ns_id n -> if_name i = name -> k = lk_id l));
  LinkList_law : forall n w r w', LinkList n w = (r, w') -> view w' = view w;
  RedirectAdd_law : forall n src dst w w', RedirectAdd n src dst w = (None, w') ->
    view w' = on_redirs <[(ns_id n, src) := dst]> (view w);
  RedirectDel_law : forall n src w w', RedirectDel n src w = (None, w') ->
    view w' = on_redirs (delete (ns_id n, src)) (view w);
  SetNamespace_law : forall l n w w', SetNamespace l n w = (None, w') ->
    view w' = on_ifaces (alter (set_if_ns (ns_id n)) (lk_id l)) (view w);
  SetName_law : forall l name w w', SetName l name w = (None, w') ->
    view w' = on_ifaces (alter (set_if_name name) (lk_id l)) (view w);
  SetUp_law : forall l w w', SetUp l w = (None, w') ->
    view w' = on_ifaces (alter set_if_up (lk_id l)) (view w);
  SetMTU_law : forall l mtu w w', SetMTU l mtu w = (None, w') ->
    view w' = on_ifaces (alter (set_if_mtu mtu) (lk_id l)) (view w);
  SetHardwareAddr_law : forall l hw w w', SetHardwareAddr l hw w = (None, w') ->
    view w' = on_ifaces (alter (set_if_hw hw) (lk_id l)) (view w);
  AddAddr_law : forall l a w w', AddAddr l a w = (None, w') ->
    view w' = on_ifaces (alter (add_if_addr a) (lk_id l)) (view w);
  GetDevice_law : forall l w r w', GetDevice l w = (r, w') ->
    view w' = view w /\
    (forall d i, r = Ok (Some d) -> ifaces (view w) !! lk_id l = Some i ->
       if_dev i = Some (vx_Group d, vx_ID d, vx_Port d));
  Link_Delete_law : forall l w w', Link_Delete l w = (None, w') ->
    view w' = on_ifaces (delete (lk_id l)) (view w);
  ipt_New_law : forall n w r w', ipt_New n w = (r, w') -> view w' = view w;
  ChainExists_law : forall n t c w r w', ChainExists n t c w = (r, w') ->
    view w' = view w /\
    (forall b, r = Ok b -> b = bool_decide (is_Some (chains (view w) !! (ns_id n, t, c))));
  NewChain_law : forall n t c w w', NewChain n t c w = (None, w') ->
    view w' = on_chains <[(ns_id n, t, c) := []]> (view w);
  AppendUnique_law : forall n t c spec w w', AppendUnique n t c spec w = (None, w') ->
    view w' = on_chains (alter (append_unique spec) (ns_id n, t, c)) (view w);
  ipt_Delete_law : forall n t c spec w w', ipt_Delete n t c spec w = (None, w') ->
    view w' = on_chains (alter (remove_rule spec) (ns_id n, t, c)) (view w);
  ipt_List_law : forall n t c w r w', ipt_List n t c w = (r, w') ->
    view w' = view w /\
    (forall lines, r = Ok lines -> exists rules,
       chains (view w) !! (ns_id n, t, c) = Some rules /\ length lines = S (length rules));
  DeleteIfExists_law : forall n t c spec w w', DeleteIfExists n t c spec w = (None, w') ->
    view w' = on_chains (alter (remove_rule spec) (ns_id n, t, c)) (view w);
  DeleteChain_law : forall n t c w w', DeleteChain n t c w = (None, w') ->
    view w' = on_chains (delete (ns_id n, t, c)) (view w)
}.

(** ** Runs that succeed *)

Lemma check_ok {W} (m k : M W (option GoError)) (wrap : GoError -> GoError) (w w' : W) :
  (check m orelse wrap in k) w = (None, w') -> exists w1, m w = (None, w1) /\ k w1 = (None, w').
Proof. unfold mbind, mret. destruct (m w) as [[e|] w1]; [done|]. eauto. Qed.

Lemma get_ok {W A} (m : M W (result A)) (k : A -> M W (option GoError)) (wrap : GoError -> GoError) (w w' : W) :
  (get x := m orelse wrap in k x) w = (None, w') ->
  exists x w1, m w = (Ok x, w1) /\ k x w1 = (None, w').
Proof. unfold mbind, mret. destruct (m w) as [[x|e] w1]; [eauto|done]. Qed.

Lemma closing_run {W A} (close : M W (option GoError)) (body : M W A) (w w' : W) r :
  closing close body w = (r, w') -> exists w1 e, body w = (r, w1) /\ close w1 = (e, w').
Proof.
  unfold closing, mbind, mret. destruct (body w) as [a w1] eqn:E. destruct (close w1) as [e w2] eqn:E2.
  intros [= -> ->]. eauto.
Qed.

(** Take the next step of a successful run off the front. *)
Ltac next_ok H w E :=
  first [apply check_ok in H as (w & E & H) | apply get_ok in H as (? & w & E & H)].

(** ** iptables: the effect on the chains, as functions *)

Section Chains.

Context {K : Type} `{Countable K}.

Notation tables := (gmap K (list (list string))).

(** [k] is the chain of the rule, [b] the chain that jumps to it. *)
Definition add_rule (k b : K) (jump spec : list string) (ch : tables) : tables :=
  alter (append_unique spec) k
    match ch !! k with
    | None => alter (append_unique jump) b (<[k := []]> ch)
    | Some _ => ch
    end.

Definition del_rule (k b : K) (jump spec : list string) (ch : tables) : tables :=
  let ch1 := alter (remove_rule spec) k ch in
  match ch1 !! k with
  | Some [] => delete k (alter (remove_rule jump) b ch1)
  | _ => ch1
  end.

(** The tunnel is new to the chain, and a chain that exists is in use. *)
Definition rule_fresh (k b : K) (jump spec : list string) (ch : tables) : Prop :=
  match ch !! k with
  | None => forall rules, ch !! b = Some rules -> jump ∉ rules
  | Some rules => rules <> [] /\ spec ∉ rules
  end.

#[export] Instance rule_fresh_dec k b jump spec ch : Decision (rule_fresh k b jump spec ch).
Proof.
  unfold rule_fresh. destruct (ch !! k) as [rules|]; [apply _|].
  destruct (ch !! b) as [rules|]; [|by left].
  destruct (decide (jump ∈ rules)) as [Hi|Hn]; [right; intros Hr; by apply (Hr rules)|left; by intros ? [= <-]].
Defined.

Lemma remove_append spec rules : spec ∉ rules -> remove_rule spec (append_unique spec rules) = rules.
Proof.
  intros Hn. unfold append_unique. rewrite decide_False by done.
  induction rules as [|r rules IH]; simpl; [by rewrite decide_True|].
  apply not_elem_of_cons in Hn as [Hne Hn]. rewrite decide_False by done. by rewrite IH.
Qed.

Lemma del_add_rule k b jump spec ch :
  k <> b -> rule_fresh k b jump spec ch -> del_rule k b jump spec (add_rule k b jump spec ch) = ch.
Proof.
  intros Hkb. unfold rule_fresh, del_rule, add_rule. destruct (ch !! k) as [rules|] eqn:E.
  - intros [Hne Hn]. rewrite alter_alter_eq. rewrite lookup_alter_eq, E. simpl.
    rewrite remove_append by done. destruct rules; [done|].
    apply map_eq. intros j. destruct (decide (j = k)) as [->|Hj].
    + rewrite lookup_alter_eq, E. simpl. by rewrite remove_append.
    + by rewrite lookup_alter_ne.
  - intros Hj. rewrite alter_alter_eq. rewrite lookup_alter_eq.
    rewrite lookup_alter_ne, lookup_insert_eq by done. cbn [fmap option_fmap option_map]. unfold compose.
    rewrite remove_append by apply not_elem_of_nil.
    apply map_eq. intros j. destruct (decide (j = k)) as [->|Hjk].
    + by rewrite lookup_delete_eq, E.
    + rewrite lookup_delete_ne by done. destruct (decide (j = b)) as [->|Hjb].
      * rewrite lookup_alter_eq, lookup_alter_ne, lookup_alter_eq, lookup_insert_ne by done.
        destruct (ch !! b) as [rules|] eqn:Eb; simpl; [|done]. by rewrite remove_append by auto.
      * by rewrite !lookup_alter_ne, lookup_insert_ne by done.
Qed.

(** Rules in different chains do not interfere. *)
Lemma add_rule_lookup k b jump spec ch j :
  j <> k -> j <> b -> add_rule k b jump spec ch !! j = ch !! j.
Proof.
  intros Hk Hb. unfold add_rule. rewrite lookup_alter_ne by done.
  destruct (ch !! k); [done|]. by rewrite lookup_alter_ne, lookup_insert_ne.
Qed.

Lemma add_rule_alter k b jump spec ch f j :
  j <> k -> j <> b -> add_rule k b jump spec (alter f j ch) = alter f j (add_rule k b jump spec ch).
Proof.
  intros Hk Hb. unfold add_rule. rewrite lookup_alter_ne, (alter_alter_ne f _ _ j k) by done. f_equal.
  destruct (ch !! k); [done|]. rewrite (alter_alter_ne f _ _ j b) by done. f_equal. by rewrite insert_alter_ne.
Qed.

Lemma add_rule_delete k b jump spec ch j :
  j <> k -> j <> b -> add_rule k b jump spec (delete j ch) = delete j (add_rule k b jump spec ch).
Proof.
  intros Hk Hb. unfold add_rule. rewrite lookup_delete_ne, delete_alter_ne by done. f_equal.
  destruct (ch !! k); [done|]. rewrite delete_alter_ne by done. f_equal. by rewrite delete_insert_ne.
Qed.

Lemma del_add_other k b jump spec k' b' jump' spec' ch :
  k <> k' -> k <> b' -> b <> k' -> b <> b' ->
  del_rule k b jump spec (add_rule k' b' jump' spec' ch) = add_rule k' b' jump' spec' (del_rule k b jump spec ch).
Proof.
  intros. unfold del_rule. rewrite <- add_rule_alter, add_rule_lookup by done.
  destruct (alter (remove_rule spec) k ch !! k) as [[|]|]; [|done..].
  by rewrite add_rule_delete, (add_rule_alter _ _ _ _ _ (remove_rule jump) b).
Qed.

End Chains.

(** ** What the operations do *)

Section Spec.

Context {W : Type} `{NetIP} `{!NetOps W} `{!NetLaws W}.

Definition rule_key (n : string) (r : iptablesRule) : string * string * string := (n, r_table r, r_chain r).
Definition base_key (n : string) (r : iptablesRule) : string * string * string := (n, r_table r, r_base r).

Definition add_rules (n : string) (rules : list iptablesRule) ch :=
  foldl (fun ch r => add_rule (rule_key n r) (base_key n r) ["-j"; r_chain r] (r_spec r) ch) ch rules.
Definition del_rules (n : string) (rules : list iptablesRule) ch :=
  foldl (fun ch r => del_rule (rule_key n r) (base_key n r) ["-j"; r_chain r] (r_spec r) ch) ch rules.

Lemma setup_rule_effect n rule w w' :
  setup_rule n rule w = (None, w') ->
  view w' = on_chains (add_rule (rule_key (ns_id n) rule) (base_key (ns_id n) rule) ["-j"; r_chain rule] (r_spec rule)) (view w).
Proof.
  unfold setup_rule. intros E. next_ok E w1 E1. apply ChainExists_law in E1 as [V1 Hx].
  specialize (Hx _ eq_refl). next_ok E w2 E2. next_ok E w3 E3. injection E as <-.
  apply AppendUnique_law in E3. rewrite E3. unfold on_chains at 1 2. unfold add_rule, rule_key.
  unfold ensure_chain in E2. rewrite Hx in E2.
  destruct (chains (view w) !! (ns_id n, r_table rule, r_chain rule)) as [rules|] eqn:Ec.
  - rewrite bool_decide_true in E2 by eauto. injection E2 as <-. by rewrite V1.
  - rewrite bool_decide_false in E2 by (by intros [? ?]).
    next_ok E2 w4 E4. next_ok E2 w5 E5. injection E2 as <-.
    apply NewChain_law in E4. apply AppendUnique_law in E5. rewrite E5, E4, V1. done.
Qed.

Lemma teardown_rule_effect n rule w w' :
  teardown_rule n rule w = (None, w') ->
  view w' = on_chains (del_rule (rule_key (ns_id n) rule) (base_key (ns_id n) rule) ["-j"; r_chain rule] (r_spec rule)) (view w).
Proof.
  unfold teardown_rule. intros E. next_ok E w1 E1. apply ipt_Delete_law in E1.
  next_ok E w2 E2. apply ipt_List_law in E2 as [V2 Hl]. destruct (Hl _ eq_refl) as (rules & Hr & Hlen).
  unfold on_chains, del_rule, rule_key. rewrite E1 in Hr. simpl in Hr. rewrite Hr.
  rewrite E1 in V2. destruct (1 <? length _)%nat eqn:E3; bool_to_prop.
  - injection E as <-. rewrite V2. destruct rules; [simpl in Hlen; lia|done].
  - destruct rules; [|simpl in Hlen; lia]. unfold remove_chain in E. next_ok E w4 E4. next_ok E w5 E5.
    injection E as <-. apply DeleteIfExists_law in E4. apply DeleteChain_law in E5. rewrite E5, E4, V2. done.
Qed.

Lemma for_rules_effect (body : iptablesRule -> M W (option GoError)) (f : iptablesRule -> _) rules w w' :
  (forall r w w', body r w = (None, w') -> view w' = on_chains (f r) (view w)) ->
  for_rules body rules w = (None, w') -> view w' = on_chains (fun ch => foldl (fun ch r => f r ch) ch rules) (view w).
Proof.
  intros Hb. revert w. induction rules as [|r rules IH]; simpl; intros w E.
  - injection E as <-. by destruct (view w).
  - next_ok E w1 E1. apply Hb in E1. apply IH in E. by rewrite E, E1.
Qed.

Definition tunnel_rules (dst : option Addr) (port id : Z) : list iptablesRule :=
  iptablesRules (addr_text dst) (FormatInt port) (FormatInt id).

Lemma iptablesSetup_effect n dst port id w w' :
  iptablesSetup n dst port id w = (None, w') ->
  view w' = on_chains (add_rules (ns_id n) (tunnel_rules dst port id)) (view w).
Proof.
  unfold iptablesSetup. intros E. apply Run_law in E as (w1 & w2 & V1 & E & V2). next_ok E w3 E3.
  apply ipt_New_law in E3. eapply for_rules_effect in E; [|intros ???; apply setup_rule_effect].
  by rewrite V2, E, E3, V1.
Qed.

Lemma iptablesTeardown_effect n dst port id w w' :
  iptablesTeardown n dst port id w = (None, w') ->
  view w' = on_chains (del_rules (ns_id n) (tunnel_rules dst port id)) (view w).
Proof.
  unfold iptablesTeardown. intros E. apply Run_law in E as (w1 & w2 & V1 & E & V2). next_ok E w3 E3.
  apply ipt_New_law in E3. eapply for_rules_effect in E; [|intros ???; apply teardown_rule_effect].
  by rewrite V2, E, E3, V1.
Qed.

(** No rule of the tunnel is there yet, and the chains that exist are in use. *)
Definition tunnel_fresh (n : string) (dst : option Addr) (port id : Z) (v : netview Addr) : Prop :=
  Forall (fun r => rule_fresh (rule_key n r) (base_key n r) ["-j"; r_chain r] (r_spec r) (chains v))
         (tunnel_rules dst port id).

#[export] Instance tunnel_fresh_dec n dst port id v : Decision (tunnel_fresh n dst port id v).
Proof. unfold tunnel_fresh. apply _. Defined.

Lemma del_add_rules n dst port id v :
  tunnel_fresh n dst port id v ->
  del_rules n (tunnel_rules dst port id) (add_rules n (tunnel_rules dst port id) (chains v)) = chains v.
Proof.
  unfold tunnel_fresh, tunnel_rules, iptablesRules, del_rules, add_rules. intros Hf.
  inversion Hf as [|? ? F1 Hf']. inversion Hf' as [|? ? F2 _]. subst. simpl.
  rewrite del_add_other by (intros [=]).
  rewrite (del_add_rule _ _ _ _ (chains v)); [|intros [=]|exact F1]. apply del_add_rule; [intros [=]|exact F2].
Qed.

(** *** Interfaces *)

Definition vxlan_iface (ns name : string) (dst : option Addr) (id port mtu : Z) (hw : string)
    (addrs : list Prefix) (up : bool) : iface Addr :=
  mkIface ns name (Some (dst, id, port)) mtu hw addrs up.

Lemma create_vxlan_effect budget index names n dst id port w name l w' :
  create_vxlan budget index names n (mkVXLAN dst id port) w = (Ok (name, l), w') ->
  slice_contains names name = false /\ ifaces (view w) !! lk_id l = None /\
  exists mtu hw, view w' = on_ifaces <[lk_id l := vxlan_iface (ns_id n) name dst id port mtu hw [] false]> (view w).
Proof.
  revert index w. induction budget as [|budget IH]; simpl; intros index w; [done|].
  destruct (slice_contains names (hostVxlanInterfacePrefix +:+ FormatInt index)) eqn:Ec; [apply IH|].
  unfold mbind, mret. destruct (LinkAdd n _ _ w) as [[l'|e] w1] eqn:E.
  - intros [= <- <- <-]. apply LinkAdd_law in E as [Hf (mtu & hw & Hv)]. eauto 6.
  - destruct (errors_Is ErrExist e) eqn:Ee; [|done]. intros E2.
    apply LinkAdd_exist_law in E; [|done]. rewrite <- E. by apply (IH (index + 1)).
Qed.

Lemma attach_worker_effect podNS name l podInterface w w' i :
  ifaces (view w) !! lk_id l = Some i -> if_name i = name ->
  attach_worker podNS name l podInterface w = (None, w') ->
  view w' = on_redirs (fun m => <[(ns_id podNS, secondPodInterface) := podInterface]>
                                  (<[(ns_id podNS, podInterface) := secondPodInterface]> m))
    (on_ifaces <[lk_id l := set_if_up (set_if_name secondPodInterface (set_if_ns (ns_id podNS) i))]> (view w)).
Proof.
  intros Hi Hn. unfold attach_worker. intros E.
  next_ok E w1 E1. apply SetNamespace_law in E1.
  next_ok E w2 E2. apply LinkFind_law in E2 as [V2 Hl]. destruct (Hl _ eq_refl) as [_ Hu].
  assert (ifaces (view w1) !! lk_id l = Some (set_if_ns (ns_id podNS) i)) as Hi1.
  { rewrite E1. simpl. rewrite lookup_alter_eq, Hi. done. }
  assert (lk_id l = lk_id x) as Hk by by apply (Hu _ _ Hi1).
  next_ok E w3 E3. apply SetName_law in E3. next_ok E w4 E4. apply SetUp_law in E4.
  next_ok E w5 E5. apply RedirectAdd_law in E5. next_ok E w6 E6. apply RedirectAdd_law in E6.
  injection E as <-. rewrite E6, E5, E4, E3, V2, E1, <- Hk. unfold on_redirs, on_ifaces. simpl. f_equal.
  rewrite !alter_alter_eq. apply map_eq. intros j. destruct (decide (j = lk_id l)) as [->|Hj].
  - by rewrite lookup_alter_eq, lookup_insert_eq, Hi.
  - by rewrite lookup_alter_ne, lookup_insert_ne.
Qed.

(** The interfaces that [delete_vxlan] may meet are known by their names. *)
Lemma delete_vxlan_effect msg hostNS podNS name w w' k i dst id port :
  ifaces (view w) !! k = Some i -> if_ns i = ns_id podNS -> if_name i = name ->
  if_dev i = Some (dst, id, port) ->
  delete_vxlan msg hostNS podNS name w = (None, w') ->
  view w' = on_chains (del_rules (ns_id hostNS) (tunnel_rules dst port id)) (on_ifaces (delete k) (view w)).
Proof.
  intros Hi Hns Hnm Hd. unfold delete_vxlan. intros E.
  next_ok E w1 E1. apply LinkFind_law in E1 as [V1 Hl]. destruct (Hl _ eq_refl) as [_ Hu].
  pose proof (Hu _ _ Hi Hns Hnm) as ->.
  next_ok E w2 E2. apply GetDevice_law in E2 as [V2 Hdev]. destruct x0 as [d|]; [|done].
  rewrite V1 in Hdev. specialize (Hdev _ _ eq_refl Hi).
  next_ok E w3 E3. apply Link_Delete_law in E3. next_ok E w4 E4. apply iptablesTeardown_effect in E4.
  injection E as <-. rewrite E4, E3, V2, V1. rewrite Hdev in Hd. injection Hd as -> -> ->. done.
Qed.

(** Both namespaces are opened around the work and closed after it. *)
Lemma opened_ok (e1 e2 : GoError -> GoError) nsPath (body : NS -> NS -> M W (option GoError)) w w' :
  (get hostNS := OpenCurrentNamespace orelse e1 in
   closing (ns_Close hostNS)
     (get podNS := OpenNamespace nsPath orelse e2 in closing (ns_Close podNS) (body hostNS podNS))) w = (None, w') ->
  exists h p w1 w2, ns_id h = host_ns /\ ns_id p = netns_at nsPath /\ view w1 = view w /\
    body h p w1 = (None, w2) /\ view w' = view w2.
Proof.
  intros E. next_ok E w1 E1. apply OpenCurrent_law in E1 as [V1 Hh]. apply closing_run in E as (w2 & e & E & E2).
  next_ok E w3 E3. apply Open_law in E3 as [V3 Hp]. apply closing_run in E as (w4 & e' & E & E4).
  apply Close_law in E2, E4. exists x, x0, w3, w4. rewrite E2, E4, V3, V1. auto.
Qed.

Lemma worker_Setup_effect nsPath ips c w w' :
  worker_Setup nsPath ips c w = (None, w') ->
  exists dst k mtu hw, tunnel_destination ips c = Ok dst /\ ifaces (view w) !! k = None /\
  view w' = mkView
    (<[k := vxlan_iface (netns_at nsPath) secondPodInterface dst (tc_VXLANID c) (tc_VXLANPort c) mtu hw [] true]>
       (ifaces (view w)))
    (<[(netns_at nsPath, secondPodInterface) := tc_InterfaceName c]>
       (<[(netns_at nsPath, tc_InterfaceName c) := secondPodInterface]> (redirs (view w))))
    (add_rules host_ns (tunnel_rules dst (tc_VXLANPort c) (tc_VXLANID c)) (chains (view w))).
Proof.
  unfold worker_Setup. destruct (tunnel_destination ips c) as [dst|]; [|done]. intros E. exists dst.
  apply opened_ok in E as (h & p & w1 & w4 & Hh & Hp & V1 & E & E4). unfold worker_tunnel in E.
  next_ok E w5 E5. apply iptablesSetup_effect in E5. next_ok E w6 E6. apply LinkList_law in E6.
  next_ok E w7 E7. destruct x0 as [name l].
  apply create_vxlan_effect in E7 as (_ & Hf & mtu & hw & E7). exists (lk_id l), mtu, hw.
  split; [done|]. rewrite E6, E5, V1 in Hf, E7. split; [exact Hf|].
  eapply attach_worker_effect in E; [|rewrite E7; simpl; apply lookup_insert_eq|reflexivity].
  rewrite E4, E, E7, Hp, Hh. unfold on_redirs, on_ifaces, on_chains. simpl. f_equal.
  apply insert_insert_eq.
Qed.

Lemma worker_Teardown_effect nsPath hostInterface c w w' k i dst id port :
  ifaces (view w) !! k = Some i -> if_ns i = netns_at nsPath -> if_name i = secondPodInterface ->
  if_dev i = Some (dst, id, port) ->
  worker_Teardown nsPath hostInterface c w = (None, w') ->
  view w' = mkView (delete k (ifaces (view w)))
    (delete (netns_at nsPath, secondPodInterface) (delete (netns_at nsPath, tc_InterfaceName c) (redirs (view w))))
    (del_rules host_ns (tunnel_rules dst port id) (chains (view w))).
Proof.
  intros Hi Hns Hnm Hd. unfold worker_Teardown. intros E.
  apply opened_ok in E as (h & p & w1 & w4 & Hh & Hp & V1 & E & E4). unfold worker_detach in E.
  next_ok E w5 E5. apply RedirectDel_law in E5. next_ok E w6 E6. apply RedirectDel_law in E6.
  eapply delete_vxlan_effect in E; [| |rewrite Hp; exact Hns|exact Hnm|exact Hd]; cycle 1.
  { rewrite E6, E5, V1. exact Hi. }
  rewrite E4, E, E6, E5, V1, Hp, Hh. done.
Qed.

(** C8: Tearing a tunnel down undoes setting it up: when the worker node's end of a
    tunnel has been set up and torn down again, with nothing else changed in
    between, the interfaces, the redirects and the iptables chains of the
    machine are what they were.  The tunnel must be new (its rules and redirects
    absent) and the chains for peer pods, if present, in use by other tunnels. *)
Theorem tunnel_roundtrip nsPath ips c hostInterface dst w w1 w2 w3 :
  tunnel_destination ips c = Ok dst ->
  tunnel_fresh host_ns dst (tc_VXLANPort c) (tc_VXLANID c) (view w) ->
  redirs (view w) !! (netns_at nsPath, tc_InterfaceName c) = None ->
  redirs (view w) !! (netns_at nsPath, secondPodInterface) = None ->
  worker_Setup nsPath ips c w = (None, w1) -> view w2 = view w1 ->
  worker_Teardown nsPath hostInterface c w2 = (None, w3) ->
  view w3 = view w.
Proof.
  intros Hd Hf Hr1 Hr2 E1 V E2. apply worker_Setup_effect in E1 as (dst' & k & mtu & hw & Hd' & Hk & E1).
  rewrite Hd in Hd'. injection Hd' as <-. rewrite E1 in V.
  eapply worker_Teardown_effect in E2;
    [|rewrite V; apply lookup_insert_eq|reflexivity|reflexivity|reflexivity].
  rewrite E2, V. cbn [ifaces redirs chains]. rewrite del_add_rules by done. destruct (view w) as [ifs rds chs]; simpl in *. f_equal.
  - by apply delete_insert_id.
  - apply map_eq. intros j. destruct (decide (j = (netns_at nsPath, secondPodInterface))) as [->|Hj1].
    { by rewrite lookup_delete_eq. }
    rewrite lookup_delete_ne by done. destruct (decide (j = (netns_at nsPath, tc_InterfaceName c))) as [->|Hj2].
    { by rewrite lookup_delete_eq. }
    by rewrite lookup_delete_ne, !lookup_insert_ne.
Qed.

Lemma attach_pod_effect podNS l c podAddr w w' i :
  ifaces (view w) !! lk_id l = Some i ->
  attach_pod podNS l c podAddr w = (None, w') ->
  view w' = on_ifaces <[lk_id l := mkIface (ns_id podNS) (tc_InterfaceName c) (if_dev i)
    (Z.min maxMTU (tc_MTU c)) (tc_PodHwAddr c) (if_addrs i ++ [podAddr]) true]> (view w).
Proof.
  intros Hi. unfold attach_pod. intros E.
  next_ok E w1 E1. apply SetNamespace_law in E1. next_ok E w2 E2. apply SetName_law in E2.
  next_ok E w3 E3. apply SetHardwareAddr_law in E3. cbv zeta in E.
  assert ((if maxMTU <? tc_MTU c then maxMTU else tc_MTU c) = Z.min maxMTU (tc_MTU c)) as Hm
    by (destruct (maxMTU <? tc_MTU c) eqn:Em; bool_to_prop; lia).
  rewrite Hm in E. next_ok E w4 E4. apply SetMTU_law in E4.
  next_ok E w5 E5. apply AddAddr_law in E5. next_ok E w6 E6. apply SetUp_law in E6.
  injection E as <-. rewrite E6, E5, E4, E3, E2, E1. unfold on_ifaces. simpl. f_equal.
  rewrite !alter_alter_eq. apply map_eq. intros j. destruct (decide (j = lk_id l)) as [->|Hj].
  - by rewrite lookup_alter_eq, lookup_insert_eq, Hi.
  - by rewrite lookup_alter_ne, lookup_insert_ne.
Qed.

(** The pod VM's end of a tunnel takes the place of the pod's interface: when
    it has been set up, the pod's namespace has one new interface with the pod's
    interface name, hardware address and IP address, up, with an MTU of at
    most 1450, a VXLAN device towards the worker node with the tunnel's id
    and port; the tunnel's rules are in place and nothing else has changed. *)
Theorem pod_Setup_result nsPath ips c w w' :
  pod_Setup nsPath ips c w = (None, w') ->
  exists node k, tc_WorkerNodeIP c = Some node /\ tc_PodIP c <> None /\ tc_InterfaceName c <> "" /\
  ifaces (view w) !! k = None /\
  view w' = mkView
    (<[k := vxlan_iface (netns_at nsPath) (tc_InterfaceName c) (Some (prefix_Addr node)) (tc_VXLANID c)
             (tc_VXLANPort c) (Z.min 1450 (tc_MTU c)) (tc_PodHwAddr c) [tc_PodIP c] true]> (ifaces (view w)))
    (redirs (view w))
    (add_rules host_ns (tunnel_rules (Some (prefix_Addr node)) (tc_VXLANPort c) (tc_VXLANID c)) (chains (view w))).
Proof.
  unfold pod_Setup. destruct (String.eqb (tc_InterfaceName c) "") eqn:En; [done|]. bool_to_prop.
  destruct (tc_WorkerNodeIP c) as [node|]; [|done]. destruct (tc_PodIP c) as [pod|] eqn:Ep; [|done].
  intros E. apply opened_ok in E as (h & p & w1 & w4 & Hh & Hp & V1 & E & E4). unfold pod_tunnel in E.
  next_ok E w5 E5. apply iptablesSetup_effect in E5.
  next_ok E w6 E6. apply LinkAdd_law in E6 as (Hf & mtu & hw & E6). rewrite E5, V1 in Hf, E6.
  exists node, (lk_id x). do 4 (split; [done|]).
  eapply attach_pod_effect in E; [|rewrite E6; simpl; apply lookup_insert_eq].
  rewrite E4, E, E6, Hp, Hh, Ep. unfold on_ifaces, on_chains. simpl. f_equal. apply insert_insert_eq.
Qed.

End Spec.

(** ** An executable network

    Handles of namespaces are their names, handles of interfaces their index
    and the name they were found under.  Routes are kept beside the view. *)
Record sim := mkSim { sv : netview ipv4; sroutes : list (string * Route) }.

Definition sim_fail {A} (w : sim) : result A * sim := (Err (Errorf "failed" []), w).

Definition sim_set (v : netview ipv4) (w : sim) : option GoError * sim := (None, mkSim v (sroutes w)).

(** The interfaces of a namespace with a name. *)
Definition named (n name : string) (w : sim) : list (Z * iface ipv4) :=
  List.filter (fun ki => (String.eqb (if_ns ki.2) n && String.eqb (if_name ki.2) name)%bool)
    (map_to_list (ifaces (sv w))).

Definition sim_find (n name : string) (w : sim) : result (Z * string) * sim :=
  match named n name w with [(k, _)] => (Ok (k, name), w) | _ => sim_fail w end.

Definition sim_add (n name : string) (dev : VXLAN) (w : sim) : result (Z * string) * sim :=
  let k := Z.of_nat (size (ifaces (sv w))) in
  match named n name w, ifaces (sv w) !! k with
  | [], None =>
      (Ok (k, name), mkSim (on_ifaces <[k := mkIface n name (Some (vx_Group dev, vx_ID dev, vx_Port dev))
                                               1500 "" [] false]> (sv w)) (sroutes w))
  | [], _ => sim_fail w
  | _, _ => (Err (Errorf "failed to create %s interface %q: %s:  %w" [Sentinel ErrExist]), w)
  end.

Definition sim_link (f : iface ipv4 -> iface ipv4) (l : Z * string) (w : sim) : option GoError * sim :=
  sim_set (on_ifaces (alter f l.1) (sv w)) w.

Definition sim_chain (present : bool) (k : string * string * string)
    (f : gmap (string * string * string) (list (list string)) -> gmap (string * string * string) (list (list string)))
    (w : sim) : option GoError * sim :=
  if decide (bool_decide (is_Some (chains (sv w) !! k)) = present)
  then sim_set (on_chains f (sv w)) w else (Some (Errorf "failed" []), w).

Definition same_route (r1 r2 : Route) : bool :=
  (bool_decide (rt_Destination r1 = rt_Destination r2) && String.eqb (rt_Device r1) (rt_Device r2))%bool.

Definition sim_routes (n : string) (w : sim) : list Route :=
  snd <$> List.filter (fun x => String.eqb x.1 n) (sroutes w).

#[export] Instance sim_ops : NetOps sim := {
  NS := string;
  LK := Z * string;
  OpenCurrentNamespace := fun w => (Ok "host", w);
  OpenNamespace := fun p w => (Ok p, w);
  ns_Close := fun _ w => (None, w);
  ns_Run := fun _ fn => fn;
  LinkAdd := sim_add;
  LinkFind := sim_find;
  LinkList := fun n w =>
    (Ok ((fun ki => (ki.1, if_name ki.2)) <$>
         List.filter (fun ki => String.eqb (if_ns ki.2) n) (map_to_list (ifaces (sv w)))), w);
  RedirectAdd := fun n src dst w => sim_set (on_redirs <[(n, src) := dst]> (sv w)) w;
  RedirectDel := fun n src w => sim_set (on_redirs (delete (n, src)) (sv w)) w;
  RouteAdd := fun n r w => (None, mkSim (sv w) (sroutes w ++ [(n, r)]));
  RouteDel := fun n r w =>
    (None, mkSim (sv w) (List.filter (fun x => negb (String.eqb x.1 n && same_route r x.2)) (sroutes w)));
  GetDefaultRoutes := fun n w => (Ok (List.filter (fun r => Bits (rt_Destination r) =? 0) (sim_routes n w)), w);
  RouteList := fun n f w => (Ok (sim_routes n w), w);
  NeighborAdd := fun _ _ w => (None, w);
  NeighborList := fun _ _ w => (Ok [], w);
  Link_Name := snd;
  GetAddr := fun l w => (Ok (default [] (if_addrs <$> ifaces (sv w) !! l.1)), w);
  AddAddr := fun l a => sim_link (add_if_addr a) l;
  GetHardwareAddr := fun l w => (Ok (default EmptyString (if_hw <$> ifaces (sv w) !! l.1)), w);
  SetHardwareAddr := fun l hw => sim_link (set_if_hw hw) l;
  GetMTU := fun l w => (Ok (default 0 (if_mtu <$> ifaces (sv w) !! l.1)), w);
  SetMTU := fun l mtu => sim_link (set_if_mtu mtu) l;
  GetDevice := fun l w =>
    (Ok ((fun d : option ipv4 * Z * Z => mkVXLAN d.1.1 d.1.2 d.2) <$> (ifaces (sv w) !! l.1 ≫= if_dev)), w);
  SetNamespace := fun l n => sim_link (set_if_ns n) l;
  SetName := fun l name => sim_link (set_if_name name) l;
  SetUp := sim_link set_if_up;
  Link_Delete := fun l w => sim_set (on_ifaces (delete l.1) (sv w)) w;
  ipt_New := fun _ w => (None, w);
  ChainExists := fun n t c w => (Ok (bool_decide (is_Some (chains (sv w) !! (n, t, c)))), w);
  NewChain := fun n t c => sim_chain false (n, t, c) <[(n, t, c) := []]>;
  AppendUnique := fun n t c spec => sim_chain true (n, t, c) (alter (append_unique spec) (n, t, c));
  ipt_Delete := fun n t c spec => sim_chain true (n, t, c) (alter (remove_rule spec) (n, t, c));
  ipt_List := fun n t c w =>
    match chains (sv w) !! (n, t, c) with
    | Some rules => (Ok ("-N" :: (join " " <$> rules)), w)
    | None => sim_fail w
    end;
  DeleteIfExists := fun n t c spec => sim_chain true (n, t, c) (alter (remove_rule spec) (n, t, c));
  DeleteChain := fun n t c => sim_chain true (n, t, c) (delete (n, t, c))
}.

Lemma named_spec n name w k i :
  (k, i) ∈ named n name w <-> ifaces (sv w) !! k = Some i /\ if_ns i = n /\ if_name i = name.
Proof.
  unfold named. rewrite list_elem_of_In, filter_In, <- list_elem_of_In, elem_of_map_to_list, andb_true_iff.
  simpl. by rewrite !String.eqb_eq.
Qed.

Lemma sim_chain_ok present k f w w' : sim_chain present k f w = (None, w') -> sv w' = on_chains f (sv w).
Proof. unfold sim_chain. case_decide; [|done]. by intros [= <-]. Qed.

Lemma sim_find_ok n name w r w' :
  sim_find n name w = (r, w') ->
  sv w' = sv w /\
  (forall l, r = Ok l ->
     (exists i, ifaces (sv w) !! l.1 = Some i /\ if_ns i = n /\ if_name i = name) /\
     (forall k i, ifaces (sv w) !! k = Some i -> if_ns i = n -> if_name i = name -> k = l.1)).
Proof.
  unfold sim_find, sim_fail. destruct (named n name w) as [|[k i] [|]] eqn:E; intros [= <- <-]; [done| |done].
  split; [done|]. intros l [= <-]. simpl. split.
  - exists i. apply named_spec. rewrite E. apply list_elem_of_here.
  - intros k' i' Hk Hn Hm. assert ((k', i') ∈ named n name w) as Hin by by apply named_spec.
    rewrite E, list_elem_of_singleton in Hin. by injection Hin as ->.
Qed.

Lemma sim_add_ok n name dev w r w' :
  sim_add n name dev w = (r, w') ->
  (forall l, r = Ok l -> ifaces (sv w) !! l.1 = None /\
     sv w' = on_ifaces <[l.1 := mkIface n name (Some (vx_Group dev, vx_ID dev, vx_Port dev)) 1500 "" [] false]> (sv w)) /\
  (forall e, r = Err e -> sv w' = sv w).
Proof.
  unfold sim_add, sim_fail. destruct (named n name w); [destruct (ifaces (sv w) !! _) eqn:E|];
    intros [= <- <-]; (split; [|by intros ? [= <-]]); [done| |done].
  by intros l [= <-].
Qed.

#[local] Hint Resolve sim_chain_ok sim_find_ok : golib.

#[export, program] Instance sim_laws : NetLaws sim := {
  view := sv;
  ns_id := fun n : string => n;
  lk_id := fun l : Z * string => l.1;
  host_ns := "host";
  netns_at := fun p => p
}.
Solve Obligations with
  (simpl; intros; unfold sim_link, sim_set in *; simplify_eq/=;
   first [done | by split; intros; simplify_eq/= | by eauto 6 with golib]).
Next Obligation.
  intros n name dev w l w' E. destruct (sim_add_ok _ _ _ _ _ _ E) as [Ha _].
  destruct (Ha _ eq_refl) as [Hf Hv]. split; [exact Hf|]. by eexists _, _.
Qed.
Next Obligation. intros n name dev w e w' E _. by eapply (sim_add_ok _ _ _ _ _ _ E). Qed.
Next Obligation.
  intros l w r w' [= <- <-]. split; [done|]. intros d i. simpl. intros Hd Hi. rewrite Hi in Hd. simpl in Hd.
  destruct i as [? ? [[[g k] q]|] ? ? ? ?]; by simplify_eq/=.
Qed.
Next Obligation.
  intros n t c w r w'. simpl. unfold sim_fail. destruct (chains (sv w) !! _) as [rules|] eqn:E; intros [= <- <-].
  - split; [done|]. intros lines [= <-]. exists rules. split; [done|]. simpl. by rewrite length_fmap.
  - done.
Qed.

(** A worker node with one pod and the tunnel of another pod. *)
Definition ip (z : Z) : option ipv4 := mk_addr z.

Definition sim0 : sim :=
  mkSim (mkView
    {[ 0 := mkIface "host" "eth0" None 1500 "02:00" [] true; 1 := mkIface "/pod" "eth0" None 1500 "02:01" [] true ]}
    ∅
    {[ ("host", "raw", "OUTPUT") := [["-j"; "peerpod-OUTPUT"]];
       ("host", "raw", "PREROUTING") := [];
       ("host", "raw", "peerpod-OUTPUT") := [["other"]] ]}) [].

Definition config0 : TConfig :=
  mkTConfig (mk_addr 167772165 ≫= fun a => Some (mkPrefix a 24)) "02:05" "eth0"
    (mk_addr 3232235521 ≫= fun a => Some (mkPrefix a 24)) "vxlan" [] [] 9000 7 4789 555007 false false.

Lemma tunnel_roundtrip_witness :
  let ips := [ip 3232235530] in
  let w1 := (worker_Setup "/pod" ips config0 sim0).2 in
  let w3 := (worker_Teardown "/pod" "eth0" config0 w1).2 in
  (worker_Setup "/pod" ips config0 sim0).1 = None /\ (worker_Teardown "/pod" "eth0" config0 w1).1 = None /\
  view w3 = view sim0.
Proof.
  intros ips w1 w3.
  assert ((worker_Setup "/pod" ips config0 sim0).1 = None) as E1 by (vm_compute; reflexivity).
  assert ((worker_Teardown "/pod" "eth0" config0 w1).1 = None) as E2 by (vm_compute; reflexivity).
  assert (tunnel_fresh "host" (ip 3232235530) 4789 555007 (sv sim0)) as Hfresh.
  { assert ((if tunnel_fresh_dec "host" (ip 3232235530) 4789 555007 (sv sim0) then true else false) = true) as Hd
      by (vm_compute; reflexivity).
    destruct (tunnel_fresh_dec _ _ _ _ _) as [Hf|]; [exact Hf|discriminate Hd]. }
  split; [exact E1|]. split; [exact E2|].
  apply (@tunnel_roundtrip sim ipv4_netip sim_ops sim_laws "/pod" ips config0 "eth0" (ip 3232235530) sim0 w1 w1 w3).
  - reflexivity.
  - exact Hfresh.
  - vm_compute. reflexivity.
  - vm_compute. reflexivity.
  - rewrite <- E1. apply surjective_pairing.
  - reflexivity.
  - rewrite <- E2. apply surjective_pairing.
Defined.

Lemma pod_Setup_result_witness :
  let w' := (pod_Setup "/pod" [] config0 sim0).2 in
  (pod_Setup "/pod" [] config0 sim0).1 = None /\
  exists k i, ifaces (view w') !! k = Some i /\ if_mtu i = 1450 /\ if_up i = true.
Proof.
  intros w'. assert ((pod_Setup "/pod" [] config0 sim0).1 = None) as E by (vm_compute; reflexivity).
  split; [exact E|].
  destruct (@pod_Setup_result sim ipv4_netip sim_ops sim_laws "/pod" [] config0 sim0 w') as (node & k & _ & _ & _ & _ & Hv).
  { rewrite <- E. apply surjective_pairing. }
  exists k. eexists. rewrite Hv. split; [apply lookup_insert_eq|]. split; reflexivity.
Defined.
