(* ===== verification/PodNetwork.v ===== *)
(** * The network of a pod

    Models src/cloud-api-adaptor/pkg/podnetwork: common.go (which interface is
    primary, the secondary interface that is given to the pod), workernode.go
    (what the worker node tells the pod VM about the pod's network) and podnode.go
    (how the pod VM recreates it), with the registry of
    pkg/podnetwork/tunneler.  Namespaces, links and the tunnel are those of
    [Vxlan]. *)

From Stdlib Require Import ZArith Ascii String Lia.
From stdpp Require Import base gmap strings list fin_maps.
From S2P Require Import Prelude NetAddr Vxlan.

Open Scope Z_scope.
Open Scope go_scope.

(** What [net/netip] says about prefixes. *)
Class NetPrefix `{NetIP} := {
  IPv4Unspecified : Addr;
  Addr_BitLen : Addr -> Z;
  Addr_Mask : Addr -> Z -> Addr;  (** the address with the bits past the length cleared *)
  ParsePrefix : string -> option (prefix Addr)
}.

(** [math.MaxInt]. *)
Notation MaxInt := max_int64.

(** ** common.go *)

(** The name up to its first digit and the rest.  Names of interfaces are taken
    to be ASCII. *)
Fixpoint split_digits (s : string) : string * string :=
  match s with
  | EmptyString => (EmptyString, EmptyString)
  | String c s' =>
      if is_digit c then (EmptyString, s)
      else let '(p, r) := split_digits s' in (String c p, r)
  end.

Definition extractInterfaceNumber (iface : string) : string * Z :=
  let '(pre, digits) := split_digits iface in
  match digits with
  | EmptyString => (iface, MaxInt)
  | _ => (pre, default MaxInt (ParseInt digits))
  end.

(** "veth", "lo" and so on: interfaces that are never given away. *)
Definition allowedPrefixes : list string :=
  ["veth"; "lo"; "docker"; "podman"; "br-"; "cni"; "tunl"; "tun"; "tap"].

Definition isInterfaceFilteredOut (ifName : string) : bool :=
  existsb (HasPrefix ifName) allowedPrefixes.

Section Network.

Context {W : Type} `{NetIP} `{!NetPrefix} `{!NetOps W}.

Definition DefaultPrefix : Prefix := Some (mkPrefix IPv4Unspecified 0).

Definition route_to (dst : Prefix) (gw : option Addr) (dev : string) : Route :=
  mkRoute dst None gw dev 0 0 0 0 0 false.

(** The interface chosen so far: name, prefix and number of the name, gateway. *)
Record primary := mkPrimary { pr_dev : string; pr_prefix : string; pr_num : Z; pr_gw : option Addr }.

(** The variable [priority] of the code is never lowered, so a route only has
    to be below the maximum. *)
Definition primary_step (acc : primary) (r : Route) : primary :=
  if ((Bits (rt_Destination r) =? 0) && (rt_Priority r <? MaxInt))%bool then
    let '(devPrefix, devNum) := extractInterfaceNumber (rt_Device r) in
    if (String.eqb (pr_dev acc) ""
        || (String.eqb devPrefix (pr_prefix acc) && (devNum <? pr_num acc)))%bool
    then mkPrimary (rt_Device r) devPrefix devNum (rt_Gateway r)
    else acc
  else acc.

Definition primary_of (routes : list Route) : option (string * option Addr) :=
  let p := foldl primary_step (mkPrimary "" "" MaxInt None) routes in
  if String.eqb (pr_dev p) "" then None else Some (pr_dev p, pr_gw p).

Definition findPrimaryInterface (n : NS) : M W (result (string * option Addr)) :=
  try routes := RouteList n (Some (route_to DefaultPrefix None ""))
    orelse wrapped "failed to get routes on namespace %q: %w" in
  mret match primary_of routes with
       | None => Err (Errorf "failed to identify primary interface on network namespace %q" [])
       | Some p => Ok p
       end.

(** The first IPv4 address of a link, the zero prefix when there is none. *)
Fixpoint first_ipv4 (addrs : list Prefix) : Prefix :=
  match addrs with
  | [] => None
  | Some a :: rest => if Addr_Is4 (prefix_Addr a) then Some a else first_ipv4 rest
  | None :: rest => first_ipv4 rest
  end.

Definition is_default_of (iface : string) (r : Route) : bool :=
  (String.eqb (rt_Device r) iface && (Bits (rt_Destination r) =? 0) && (rt_Priority r <? MaxInt))%bool.

Definition getInterfaceDetails (n : NS) (iface : string) : M W (result (Prefix * option Route)) :=
  try link := LinkFind n iface orelse wrapped "failed to find link %q: %w" in
  try addrs := GetAddr link orelse wrapped "failed to get addresses for link %q: %w" in
  try routes := RouteList n (Some (route_to DefaultPrefix None ""))
    orelse wrapped "failed to get routes on namespace %q: %w" in
  mret (Ok (first_ipv4 addrs, List.find (is_default_of iface) routes)).

Definition Masked (p : Prefix) : Prefix :=
  match p with
  | Some p => Some (mkPrefix (Addr_Mask (prefix_Addr p) (prefix_Bits p)) (prefix_Bits p))
  | None => None
  end.

Definition ErrNoSecondaryInterface : GoError := Sentinel "no valid secondary interface found".

(** The loop over the links. *)
Fixpoint find_secondary (n : NS) (primaryInterface : string) (priAddr : Prefix) (defRoute : Route)
    (links : list LK) : M W (result (string * Prefix * Route)) :=
  match links with
  | [] => mret (Err ErrNoSecondaryInterface)
  | link :: rest =>
      let name := Link_Name link in
      if (isInterfaceFilteredOut name || String.eqb name primaryInterface)%bool
      then find_secondary n primaryInterface priAddr defRoute rest
      else
        try d := getInterfaceDetails n name orelse same_error in
        match d with
        | (None, _) => find_secondary n primaryInterface priAddr defRoute rest
        | (Some addr, Some route) => mret (Ok (name, Some addr, route))
        | (Some addr, None) =>
            if decide (Masked priAddr = Masked (Some addr))
            then mret (Ok (name, Some addr, route_to (rt_Destination defRoute) (rt_Gateway defRoute) name))
            else find_secondary n primaryInterface priAddr defRoute rest
        end
  end.

Definition getSecondaryInterfaceDetails (n : NS) (primaryInterface : string)
    : M W (result (string * Prefix * Route)) :=
  try d := getInterfaceDetails n primaryInterface orelse same_error in
  match d with
  | (_, None) => mret (Err (Errorf "default route for primary interface (%q) is nil" []))
  | (priAddr, Some defRoute) =>
      try links := LinkList n orelse wrapped "failed to list links in namespace %q: %w" in
      find_secondary n primaryInterface priAddr defRoute links
  end.

(** Calls in a row, up to the first error. *)
Fixpoint each {A} (f : A -> M W (option GoError)) (wrap : GoError -> GoError) (l : list A)
    : M W (option GoError) :=
  match l with
  | [] => mret None
  | x :: rest => check f x orelse wrap in each f wrap rest
  end.

Definition moveInterfaceToNamespace (srcNs dstNs : NS) (iface : string) (addrCIDR : Prefix)
    (defRoute : Route) : M W (option GoError) :=
  get link := LinkFind srcNs iface orelse wrapped "failed to get link %q: %w" in
  check SetNamespace link dstNs orelse wrapped "failed to move link %q to namespace %q: %w" in
  check AddAddr link addrCIDR orelse wrapped "failed to set address %q for link %q: %w" in
  check SetUp link orelse wrapped "failed to bring up link %q: %w" in
  get defRoutes := GetDefaultRoutes dstNs
    orelse wrapped "failed to get default route in namespace %q: %w" in
  check each (RouteDel dstNs) (wrapped "failed to delete default route %v in namespace %q: %w") defRoutes
    orelse same_error in
  check RouteAdd dstNs defRoute orelse wrapped "failed to set route %v for link %q: %w" in
  mret None.

Definition setupExternalNetwork (hostNS : NS) (hostPrimaryInterface : string) (podNS : NS)
    : M W (option GoError) :=
  get sec := getSecondaryInterfaceDetails hostNS hostPrimaryInterface
    orelse wrapped "failed to get secondary interface details: %w" in
  moveInterfaceToNamespace hostNS podNS sec.1.1 sec.1.2 sec.2.

(** ** The registry of tunnels: tunneler/tunneler.go *)

(** [tunneler.Tunneler]; [t_Configure] is there when it is also a
    [TunnelerConfigurator]. *)
Record Tunneler := mkTunneler {
  t_Setup : string -> list (option Addr) -> TConfig -> M W (option GoError);
  t_Teardown : string -> string -> TConfig -> M W (option GoError);
  t_Configure : option (NetworkConfig -> TConfig -> TConfig)
}.

Record tunnel_driver := mkDriver { newWorkerNodeTunneler : result Tunneler; newPodNodeTunneler : result Tunneler }.

Definition Register (tunnelType : string) (d : tunnel_driver) (drivers : gmap string tunnel_driver)
    : gmap string tunnel_driver := <[tunnelType := d]> drivers.

(** What [init] registers. *)
Definition drivers : gmap string tunnel_driver :=
  Register "vxlan"
    (mkDriver (Ok (mkTunneler worker_Setup worker_Teardown (Some Configure)))
              (Ok (mkTunneler pod_Setup pod_Teardown None))) ∅.

Definition getDriver (tunnelType : string) : result tunnel_driver :=
  match drivers !! tunnelType with
  | None => Err (Errorf "unknown tunnel type: %q" [])
  | Some d => Ok d
  end.

Definition WorkerNodeTunneler (tunnelType : string) : result Tunneler :=
  match getDriver tunnelType with Err e => Err e | Ok d => newWorkerNodeTunneler d end.

Definition PodNodeTunneler (tunnelType : string) : result Tunneler :=
  match getDriver tunnelType with Err e => Err e | Ok d => newPodNodeTunneler d end.

(** ** podnode.go *)

(** The loops that wait: the ticker fires [ticks] times before the timeout
    wins the [select]. *)
Fixpoint detectPrimaryInterface (ticks : nat) (hostNS : NS) : M W (result string) :=
  let* r := findPrimaryInterface hostNS in
  match r, ticks with
  | Ok p, _ => mret (Ok p.1)
  | Err _, O => mret (Err (Errorf "failed to identify primary interface on netns %s" []))
  | Err _, S ticks' => detectPrimaryInterface ticks' hostNS
  end.

Fixpoint detectIP (ticks : nat) (hostNS : NS) (hostInterface : string) : M W (result (option Addr)) :=
  try hostLink := LinkFind hostNS hostInterface
    orelse wrapped "failed to find host interface %q on netns %s: %w" in
  try prefixes := GetAddr hostLink orelse wrapped "failed to get addresses assigned %s on netns %s: %w" in
  match prefixes with
  | _ :: _ :: _ => mret (Err (Errorf "more than one IP address assigned on %s (netns: %s)" []))
  | [p] => mret (Ok (prefix_Addr <$> p))
  | [] =>
      match ticks with
      | O => mret (Err (Errorf "failed to identify IP address assigned to host interface %s on netns %s" []))
      | S ticks' => detectIP ticks' hostNS hostInterface
      end
  end.

Definition IsSingleIP (p : Prefix) : bool :=
  match p with Some p => prefix_Bits p =? Addr_BitLen (prefix_Addr p) | None => false end.

(** Routes without a gateway come first. *)
Definition has_gateway (r : TRoute) : bool := match tr_GW r with Some _ => true | None => false end.

Definition ordered_routes (routes : list TRoute) : list TRoute :=
  List.filter (fun r => negb (has_gateway r)) routes ++ List.filter has_gateway routes.

Definition to_route (r : TRoute) : Route :=
  mkRoute (tr_Dst r) None (tr_GW r) (tr_Dev r) 0 0 0 (tr_Protocol r) (tr_Scope r) false.

(** The route the kernel has added for the pod's address is removed. *)
Definition drop_kernel_route (podNS : NS) (c : TConfig) : M W (option GoError) :=
  if IsSingleIP (tc_PodIP c) then mret None
  else
    check RouteDel podNS (route_to (Masked (tc_PodIP c)) None (tc_InterfaceName c))
      orelse (fun _ => Errorf "failed to remove route %s dev %s: %v" []) in
    mret None.

(** From the pod's namespace on. *)
Definition populate (hostNS podNS : NS) (nsPath hostPrimaryInterface : string)
    (podNodeIPs : list (option Addr)) (tun : Tunneler) (c : TConfig) : M W (option GoError) :=
  check t_Setup tun nsPath podNodeIPs c orelse wrapped "failed to set up tunnel %q: %w" in
  check drop_kernel_route podNS c orelse same_error in
  check each (fun r => RouteAdd podNS (to_route r))
      (wrapped "failed to add a route to %s via %s on pod network namespace %s: %w")
      (ordered_routes (tc_Routes c)) orelse same_error in
  check each (NeighborAdd podNS) (wrapped "failed to add an ARP entry: %s dev %s lladdr %s %s on pod network namespace %s: %w")
      (tc_Neighbors c) orelse same_error in
  if tc_ExternalNetViaPodVM c then
    let* _e := setupExternalNetwork hostNS hostPrimaryInterface podNS in mret None
  else mret None.

(** The addresses of the pod VM: the primary one, and that of a dedicated
    interface. *)
Definition pod_node_ips (ticks : nat) (hostNS : NS) (configured hostPrimaryInterface : string)
    (c : TConfig) (primaryIP : option Addr) : M W (result (list (option Addr))) :=
  let hostInterface := if String.eqb configured "" then hostPrimaryInterface else configured in
  if tc_Dedicated c then
    if String.eqb hostInterface hostPrimaryInterface
    then mret (Err (Errorf "%s is not a dedicated interface" []))
    else
      try dedicatedIP := detectIP ticks hostNS hostInterface orelse same_error in
      mret (Ok [primaryIP; dedicatedIP])
  else mret (Ok [primaryIP]).

(** [ticks1], [ticks2] and [ticks3] are those of the three waits. *)
Definition podNode_Setup (ticks1 ticks2 ticks3 : nat) (nsPath configured : string) (c : TConfig)
    : M W (option GoError) :=
  match PodNodeTunneler (tc_TunnelType c) with
  | Err e => mret (Some (wrapped "failed to get tunneler: %w" e))
  | Ok tun =>
      get hostNS := OpenCurrentNamespace orelse wrapped "failed to open the host network namespace: %w" in
      closing (ns_Close hostNS)
        (get hostPrimaryInterface := detectPrimaryInterface ticks1 hostNS orelse same_error in
         get primaryIP := detectIP ticks2 hostNS hostPrimaryInterface orelse same_error in
         get podNodeIPs := pod_node_ips ticks3 hostNS configured hostPrimaryInterface c primaryIP
           orelse same_error in
         get podNS := OpenNamespace nsPath orelse wrapped "failed to open network namespace %q: %w" in
         closing (ns_Close podNS)
           (populate hostNS podNS nsPath hostPrimaryInterface podNodeIPs tun c))
  end.

(** The interface a node uses for the tunnel: the configured or the primary one. *)
Definition host_interface (hostNS : NS) (configured : string) : M W (result string) :=
  if String.eqb configured "" then
    try p := findPrimaryInterface hostNS orelse wrapped "failed to identify the host primary interface: %w" in
    mret (Ok p.1)
  else mret (Ok configured).

Definition tear_down (tun : Tunneler) (nsPath configured : string) (c : TConfig) : M W (option GoError) :=
  get hostNS := OpenCurrentNamespace orelse wrapped "failed to open the host network namespace: %w" in
  closing (ns_Close hostNS)
    (get hostInterface := host_interface hostNS configured orelse same_error in
     check t_Teardown tun nsPath hostInterface c orelse wrapped "failed to tear down tunnel %q: %w" in
     mret None).

Definition podNode_Teardown (nsPath configured : string) (c : TConfig) : M W (option GoError) :=
  match PodNodeTunneler (tc_TunnelType c) with
  | Err e => mret (Some (wrapped "failed to get tunneler: %w" e))
  | Ok tun => tear_down tun nsPath configured c
  end.

(** ** workernode.go *)

Record workerNode := mkWorkerNode { wn_config : NetworkConfig; wn_tunneler : Tunneler;
                                    wn_configure : NetworkConfig -> TConfig -> TConfig }.

Definition NewWorkerNode (nc : NetworkConfig) : result workerNode :=
  match WorkerNodeTunneler (nc_TunnelType nc) with
  | Err e => Err (wrapped "failed to get tunneler: %w" e)
  | Ok t => match t_Configure t with
            | None => Err (Errorf "internal error: Configure is not defined: %T" [])
            | Some configure => Ok (mkWorkerNode nc t configure)
            end
  end.

Definition getPodIP (podLink : LK) : M W (result Prefix) :=
  try prefixes := GetAddr podLink orelse wrapped "failed to get IP address on %s of netns %s: %w" in
  let ips := List.filter (fun p => match p with Some p => Addr_Is4 (prefix_Addr p) | None => false end) prefixes in
  mret match ips with
       | [] => Err (Errorf "no IPv4 address found on %s of netns %s" [])
       | [ip] => Ok ip
       | _ => Err (Errorf "more than one IPv4 addresses found on %s of netns %s" [])
       end.

Definition to_troute (r : Route) : TRoute :=
  mkTRoute (rt_Destination r) (rt_Gateway r) (rt_Device r) (rt_Protocol r) (rt_Scope r).

(** Routes to the configured subnets; a text that is not a prefix is skipped. *)
Definition subnet_routes (cidrs : list string) (gw : option Addr) (dev : string) : list TRoute :=
  omap (fun cidr => (fun p => mkTRoute (Some p) gw dev 0 0) <$> ParsePrefix cidr) cidrs.

Definition NEIGHBOR_STATE_PERMANENT : Z := 128.

(** The pod's side of [Inspect]. *)
Definition inspect_pod (n : workerNode) (nsPath : string) (index : Z) (dedicated : bool)
    (workerNodeIP : Prefix) : M W (result TConfig) :=
  try podNS := OpenNamespace nsPath orelse wrapped "failed to open network namespace %q: %w" in
  closing (ns_Close podNS)
    (try routes := RouteList podNS None orelse same_error in
     try p := findPrimaryInterface podNS orelse same_error in
     try podLink := LinkFind podNS p.1 orelse wrapped "failed to find pod interface %q on netns %s): %w" in
     try podIP := getPodIP podLink orelse same_error in
     try hw := GetHardwareAddr podLink orelse wrapped "failed to get Mac address for Pod interface %s: %w" in
     try mtu := GetMTU podLink orelse wrapped "failed to get MTU size of %s: %w" in
     try neighbors := NeighborList podNS (mkNeighbor None "" p.1 NEIGHBOR_STATE_PERMANENT) orelse same_error in
     mret (Ok (wn_configure n (wn_config n)
       (mkTConfig podIP hw p.1 workerNodeIP (nc_TunnelType (wn_config n))
          ((to_troute <$> routes) ++ subnet_routes (nc_PodSubnetCIDRs (wn_config n)) p.2 p.1)
          neighbors mtu index 0 0 dedicated (nc_ExternalNetViaPodVM (wn_config n)))))).

(** The address of the node is the first of its interface; without one the index
    expression panics. *)
Definition inspect_host (n : workerNode) (nsPath : string) (index : Z) (hostNS : NS)
    : M W (outcome (result TConfig)) :=
  let* p := findPrimaryInterface hostNS in
  match p with
  | Err e => mret (Return (Err (wrapped "failed to identify the host primary interface: %w" e)))
  | Ok (hostPrimaryInterface, _) =>
      let configured := nc_HostInterface (wn_config n) in
      let hostInterface := if String.eqb configured "" then hostPrimaryInterface else configured in
      let dedicated := negb (String.eqb hostInterface hostPrimaryInterface) in
      let* l := LinkFind hostNS hostInterface in
      match l with
      | Err e => mret (Return (Err (wrapped "failed to find host interface %q on netns %s: %w" e)))
      | Ok hostLink =>
          let* a := GetAddr hostLink in
          match a with
          | Err e => mret (Return (Err (wrapped "failed to get IP address on %s (netns: %s): %w" e)))
          | Ok [] => mret Panic
          | Ok (workerNodeIP :: _) =>
              let* r := inspect_pod n nsPath index dedicated workerNodeIP in mret (Return r)
          end
      end
  end.

Definition Inspect_at (n : workerNode) (nsPath : string) (index : Z) : M W (outcome (result TConfig)) :=
  let* h := OpenCurrentNamespace in
  match h with
  | Err e => mret (Return (Err (wrapped "failed to open the host network namespace: %w" e)))
  | Ok hostNS => closing (ns_Close hostNS) (inspect_host n nsPath index hostNS)
  end.

(** [podIndexManager]: the state is the next index and the world. *)
Definition podIndex_Get : M (Z * W) Z := fun s => (s.1, (wrap64 (s.1 + 1), s.2)).

Definition Inspect (n : workerNode) (nsPath : string) : M (Z * W) (outcome (result TConfig)) :=
  let* index := podIndex_Get in
  fun s => let '(r, w') := Inspect_at n nsPath index s.2 in (r, (s.1, w')).

Definition workerNode_Setup (n : workerNode) (nsPath : string) (podNodeIPs : list (option Addr))
    (c : TConfig) : M W (option GoError) :=
  check t_Setup (wn_tunneler n) nsPath podNodeIPs c orelse wrapped "failed to set up tunnel %q: %w" in
  mret None.

Definition workerNode_Teardown (n : workerNode) (nsPath : string) (c : TConfig) : M W (option GoError) :=
  tear_down (wn_tunneler n) nsPath (nc_HostInterface (wn_config n)) c.

End Network.

(** ** config.go: the flag with the subnets *)

Definition SubnetCIDRs_String (l : list string) : string := join ", " l.

Definition SubnetCIDRs_Set (l : list string) (value : string) : list string :=
  l ++ (TrimSpace <$> split_on "," value).
