(* ===== verification/PodNetworkProps.v ===== *)
(** * Properties of the pod network

    Which interface is taken as primary, that only a suitable interface is given
    to the pod, that the tunnels of one process have different identifiers, and
    the order in which routes are recreated. *)

From Stdlib Require Import ZArith Ascii String Lia.
From stdpp Require Import base gmap strings list fin_maps sorting.
From S2P Require Import Prelude NetAddr Vxlan VxlanProps PodNetwork.

Open Scope Z_scope.
Open Scope go_scope.

Lemma try_ok {W A B} (m : M W (result A)) (k : A -> M W (result B)) (wrap : GoError -> GoError) (w w' : W) b :
  (try x := m orelse wrap in k x) w = (Ok b, w') ->
  exists x w1, m w = (Ok x, w1) /\ k x w1 = (Ok b, w').
Proof. unfold mbind, mret. destruct (m w) as [[x|e] w1]; [eauto|done]. Qed.

Ltac next_try H w E := apply try_ok in H as (? & w & E & H).

Section Props.

Context {W : Type} `{NetIP} `{!NetPrefix} `{!NetOps W}.

(** ** The primary interface *)

(** A route that may name the primary interface. *)
Definition default_route (r : Route) : Prop :=
  Bits (rt_Destination r) = 0 /\ rt_Priority r < MaxInt /\ rt_Device r <> "".

Definition if_prefix (dev : string) : string := (extractInterfaceNumber dev).1.
Definition if_number (dev : string) : Z := (extractInterfaceNumber dev).2.

(** What the loop knows after the routes [l]. *)
Definition primary_inv (l : list Route) (p : primary) : Prop :=
  (pr_dev p = "" /\ forall r, r ∈ l -> ~ default_route r) \/
  (pr_prefix p = if_prefix (pr_dev p) /\ pr_num p = if_number (pr_dev p) /\
   (exists r, r ∈ l /\ default_route r /\ rt_Device r = pr_dev p /\ rt_Gateway r = pr_gw p) /\
   forall r, r ∈ l -> default_route r -> if_prefix (rt_Device r) = pr_prefix p ->
     pr_num p <= if_number (rt_Device r)).

Lemma primary_inv_dev l p : primary_inv l p -> pr_dev p = "" -> forall r, r ∈ l -> ~ default_route r.
Proof. intros [[_ Hn]|(_ & _ & (r0 & _ & (_ & _ & Hr0) & Hd & _) & _)] He; [done|congruence]. Qed.

Lemma if_number_max dev : if_number dev <= MaxInt.
Proof.
  unfold if_number, extractInterfaceNumber. destruct (split_digits dev) as [? [|a s]]; cbn [snd]; [lia|].
  destruct (ParseInt (String a s)) as [z|] eqn:Ez; simpl; [|lia]. unfold ParseInt in Ez. go_cases; bool_to_prop; lia.
Qed.

Lemma primary_keep l p r :
  primary_inv l p ->
  (default_route r -> pr_dev p <> "" /\
     (if_prefix (rt_Device r) = pr_prefix p -> pr_num p <= if_number (rt_Device r))) ->
  primary_inv (l ++ [r]) p.
Proof.
  intros [[Hd Hn]|(H1 & H2 & (r0 & Hin & Hr0) & Hmin)] Hr.
  - left. split; [done|]. intros r' [Hl|Hl%list_elem_of_singleton]%elem_of_app; [by apply Hn|].
    subst r'. intros Hdr. by apply Hr in Hdr as [? _].
  - right. do 2 (split; [done|]). split; [exists r0; rewrite elem_of_app; tauto|].
    intros r' [Hl|Hl%list_elem_of_singleton]%elem_of_app Hdr; [by apply Hmin|]. subst r'. by apply Hr.
Qed.

Lemma primary_take l p r :
  primary_inv l p -> default_route r ->
  pr_dev p = "" \/ (if_prefix (rt_Device r) = pr_prefix p /\ if_number (rt_Device r) <= pr_num p) ->
  primary_inv (l ++ [r])
    (mkPrimary (rt_Device r) (if_prefix (rt_Device r)) (if_number (rt_Device r)) (rt_Gateway r)).
Proof.
  intros Hp Hdr Hor. right. simpl. do 2 (split; [done|]). split.
  { exists r. rewrite elem_of_app, list_elem_of_singleton. tauto. }
  intros r' [Hl|Hl%list_elem_of_singleton]%elem_of_app Hdr' Hpre; [|subst; lia].
  destruct Hor as [He|[Hq Hle]]; [by destruct (primary_inv_dev _ _ Hp He r' Hl)|].
  destruct Hp as [[He Hn]|(_ & _ & _ & Hmin)]; [by destruct (Hn r' Hl)|].
  specialize (Hmin r' Hl Hdr'). rewrite Hpre, Hq in Hmin. specialize (Hmin eq_refl). lia.
Qed.

Lemma primary_step_inv l p r : primary_inv l p -> primary_inv (l ++ [r]) (primary_step p r).
Proof.
  intros Hp. unfold primary_step.
  destruct ((Bits (rt_Destination r) =? 0) && (rt_Priority r <? MaxInt))%bool eqn:Ed; bool_to_prop.
  2: { apply primary_keep; [done|]. intros (Hb & Hpr & _). bool_cases; lia. }
  destruct (extractInterfaceNumber (rt_Device r)) as [pre num] eqn:En.
  assert (pre = if_prefix (rt_Device r) /\ num = if_number (rt_Device r)) as [-> ->]
    by (unfold if_prefix, if_number; by rewrite En).
  destruct (String.eqb (pr_dev p) "") eqn:Ee; bool_to_prop; simpl.
  - destruct (decide (rt_Device r = "")) as [Hz|Hnz]; [|by apply (primary_take l p); [..|left]].
    left. split; [done|]. intros r' [Hl|Hl%list_elem_of_singleton]%elem_of_app.
    + by eapply primary_inv_dev.
    + subst r'. by intros (_ & _ & ?).
  - destruct (String.eqb _ _ && _)%bool eqn:Ec; bool_to_prop.
    + apply (primary_take l p); [done| |right; split; [done|lia]]. split; [done|]. split; [done|]. intros Hz.
      destruct Hp as [[? _]|(_ & Hn & _)]; [done|]. pose proof (if_number_max (pr_dev p)).
      rewrite Hz in *. change (if_number "") with MaxInt in *. lia.
    + apply primary_keep; [done|]. intros _. split; [done|]. intros Hq. bool_cases; [congruence|lia].
Qed.

Lemma primary_inv_fold l : primary_inv l (foldl primary_step (mkPrimary "" "" MaxInt None) l).
Proof.
  induction l as [|r l IH] using rev_ind; [left; split; [done|]; intros r Hr; by apply not_elem_of_nil in Hr|].
  rewrite foldl_snoc. by apply primary_step_inv.
Qed.

(** The primary interface is one of a default route: the interface and the
    gateway that findPrimaryInterface returns are those of one default route,
    and among the default routes over interfaces of the same kind (the same name
    up to the number) it has the lowest number; it fails only when the routes
    cannot be read or no default route has a device. *)
Theorem findPrimaryInterface_spec n w :
  let '(r, w') := findPrimaryInterface n w in
  let '(routes, w1) := RouteList n (Some (route_to DefaultPrefix None "")) w in
  w' = w1 /\
  match r, routes with
  | Ok (dev, gw), Ok l =>
      (exists r, r ∈ l /\ default_route r /\ rt_Device r = dev /\ rt_Gateway r = gw) /\
      (forall r, r ∈ l -> default_route r -> if_prefix (rt_Device r) = if_prefix dev ->
         if_number dev <= if_number (rt_Device r))
  | Ok _, Err _ => False
  | Err _, Ok l => forall r, r ∈ l -> ~ default_route r
  | Err _, Err _ => True
  end.
Proof.
  unfold findPrimaryInterface, mbind, mret. destruct (RouteList n _ w) as [[l|e] w1]; [|done]. split; [done|].
  unfold primary_of. pose proof (primary_inv_fold l) as Hinv. set (p := foldl _ _ l) in *.
  destruct (String.eqb (pr_dev p) "") eqn:Ee; bool_to_prop; [by eapply primary_inv_dev|].
  destruct Hinv as [[? _]|(Hp & Hn & Hex & Hmin)]; [done|]. split; [exact Hex|].
  intros r Hr Hd Hq. rewrite <- Hn. apply Hmin; [done..|congruence].
Qed.

(** ** The interface that is given to the pod *)

Lemma first_ipv4_is4 addrs a : first_ipv4 addrs = Some a -> Addr_Is4 (prefix_Addr a) = true.
Proof.
  induction addrs as [|[b|] addrs IH]; simpl; [done| |exact IH].
  destruct (Addr_Is4 (prefix_Addr b)) eqn:E; [by intros [= <-]|exact IH].
Qed.

Lemma getInterfaceDetails_ok n iface w a r w' :
  getInterfaceDetails n iface w = (Ok (a, r), w') ->
  (forall p, a = Some p -> Addr_Is4 (prefix_Addr p) = true) /\
  (forall rt, r = Some rt -> rt_Device rt = iface /\ Bits (rt_Destination rt) = 0).
Proof.
  unfold getInterfaceDetails. intros E. next_try E w1 E1. next_try E w2 E2. next_try E w3 E3.
  injection E as <- <- <-. split; [apply first_ipv4_is4|]. intros rt Hf.
  apply List.find_some in Hf as [_ Hd]. unfold is_default_of in Hd. by bool_to_prop.
Qed.

Lemma find_secondary_ok n primaryInterface priAddr defRoute links w name addr route w' :
  Bits (rt_Destination defRoute) = 0 ->
  find_secondary n primaryInterface priAddr defRoute links w = (Ok (name, addr, route), w') ->
  name <> primaryInterface /\ isInterfaceFilteredOut name = false /\
  (exists a, addr = Some a /\ Addr_Is4 (prefix_Addr a) = true) /\
  rt_Device route = name /\ Bits (rt_Destination route) = 0 /\ name ∈ Link_Name <$> links.
Proof.
  intros Hdef. revert w. induction links as [|l links IH]; simpl; intros w E; [done|].
  assert (forall w1, find_secondary n primaryInterface priAddr defRoute links w1 = (Ok (name, addr, route), w') ->
    name <> primaryInterface /\ isInterfaceFilteredOut name = false /\
    (exists a, addr = Some a /\ Addr_Is4 (prefix_Addr a) = true) /\
    rt_Device route = name /\ Bits (rt_Destination route) = 0 /\ name ∈ Link_Name l :: (Link_Name <$> links)) as Hrest.
  { intros w1 Hw. apply IH in Hw as (? & ? & ? & ? & ? & ?). repeat (split; [done|]). by right. }
  destruct (_ || _)%bool eqn:Ef; [by eapply Hrest|]. bool_to_prop.
  next_try E w1 E1. destruct x as [[a|] [r|]]; [| |by eapply Hrest..].
  - apply getInterfaceDetails_ok in E1 as [Ha Hr]. injection E as <- <- <- <-.
    destruct (Hr _ eq_refl) as [? ?]. repeat (split; [eauto|]). left.
  - apply getInterfaceDetails_ok in E1 as [Ha _]. case_decide; [|by eapply Hrest].
    injection E as <- <- <- <-. repeat (split; [eauto|]). left.
Qed.

(** Only a suitable interface is given to the pod: the secondary interface is
    an interface of the host that is not the primary one and not a virtual one,
    it has an IPv4 address, and the route that goes with it is a default route
    over this interface. *)
Theorem secondary_interface_suitable n primaryInterface w name addr route w' :
  getSecondaryInterfaceDetails n primaryInterface w = (Ok (name, addr, route), w') ->
  name <> primaryInterface /\ isInterfaceFilteredOut name = false /\
  (exists a, addr = Some a /\ Addr_Is4 (prefix_Addr a) = true) /\
  rt_Device route = name /\ Bits (rt_Destination route) = 0 /\
  exists links w1 w2, LinkList n w1 = (Ok links, w2) /\ name ∈ Link_Name <$> links.
Proof.
  unfold getSecondaryInterfaceDetails. intros E. next_try E w1 E1. destruct x as [priAddr [defRoute|]]; [|done].
  apply getInterfaceDetails_ok in E1 as [_ Hr]. destruct (Hr _ eq_refl) as [_ Hb].
  next_try E w2 E2. apply find_secondary_ok in E as (? & ? & ? & ? & ? & Hin); [|done].
  repeat (split; [done|]). eauto.
Qed.

(** ** Routes of the pod *)

Lemma ordered_routes_spec l :
  ordered_routes l ≡ₚ l /\
  exists l1 l2, ordered_routes l = l1 ++ l2 /\ Forall (fun r => has_gateway r = false) l1 /\
    Forall (fun r => has_gateway r = true) l2 /\ sublist l1 l /\ sublist l2 l.
Proof.
  unfold ordered_routes. split.
  - induction l as [|r l IH]; simpl; [done|]. destruct (has_gateway r); simpl.
    + by rewrite <- Permutation_middle, IH.
    + by rewrite IH.
  - eexists _, _. split; [done|]. rewrite !Forall_forall. split.
    { intros r. rewrite list_elem_of_In, filter_In. intros [_ Hr]. by bool_to_prop. }
    split. { intros r. rewrite list_elem_of_In, filter_In. tauto. }
    split; (induction l as [|r l IH]; simpl; [constructor|]); destruct (has_gateway r); simpl; by constructor.
Qed.

(** ** Identifiers of tunnels *)

Lemma NewWorkerNode_ok nc n : NewWorkerNode nc = Ok n -> wn_config n = nc /\ wn_configure n = Configure.
Proof.
  unfold NewWorkerNode, WorkerNodeTunneler, getDriver, drivers, Register.
  destruct (decide (nc_TunnelType nc = "vxlan")) as [->|Hne].
  - rewrite lookup_insert_eq. simpl. by intros [= <-].
  - by rewrite lookup_insert_ne.
Qed.

Lemma inspect_pod_index n nsPath index dedicated ip w c w' :
  wn_configure n = Configure -> inspect_pod n nsPath index dedicated ip w = (Ok c, w') ->
  tc_VXLANID c = wrap64 (nc_VXLAN_MinID (wn_config n) + index) /\ tc_VXLANPort c = nc_VXLAN_Port (wn_config n).
Proof.
  intros Hc. unfold inspect_pod. intros E. next_try E w1 E1. apply closing_run in E as (w2 & e & E & _).
  do 7 (let w := fresh "w" in let E1 := fresh "E" in next_try E w E1). injection E as <- _. rewrite Hc. done.
Qed.

Lemma Inspect_index n nsPath s c s' r :
  Inspect n nsPath s = (r, s') -> s'.1 = wrap64 (s.1 + 1) /\
  (wn_configure n = Configure -> r = Return (Ok c) ->
   tc_VXLANID c = wrap64 (nc_VXLAN_MinID (wn_config n) + s.1) /\ tc_VXLANPort c = nc_VXLAN_Port (wn_config n)).
Proof.
  destruct s as [i w]. unfold Inspect, podIndex_Get, mbind. simpl.
  destruct (Inspect_at n nsPath i w) as [r0 w0] eqn:E. intros [= <- <-]. split; [done|]. intros Hc ->.
  unfold Inspect_at, mbind, mret in E. destruct (OpenCurrentNamespace w) as [[h|] w1]; [|done].
  apply closing_run in E as (w2 & e & E & _). unfold inspect_host, mbind, mret in E.
  destruct (findPrimaryInterface h w1) as [[[p g]|] w3]; [|done].
  destruct (LinkFind h _ w3) as [[l|] w4]; [|done]. destruct (GetAddr l w4) as [[[|a addrs]|] w5]; [done| |done].
  destruct (inspect_pod _ _ _ _ _ w5) as [r1 w6] eqn:E6. injection E as -> ->. by eapply inspect_pod_index.
Qed.

(** A process that inspects pods, with anything happening to the world in
    between: the number of calls and the configurations handed out. *)
Inductive inspections (n : workerNode) : Z * W -> nat -> list TConfig -> Z * W -> Prop :=
| insp_none s : inspections n s 0 [] s
| insp_world i w w1 k cs s' : inspections n (i, w1) k cs s' -> inspections n (i, w) k cs s'
| insp_failed nsPath s r s1 k cs s' : Inspect n nsPath s = (r, s1) -> (forall c, r <> Return (Ok c)) ->
    inspections n s1 k cs s' -> inspections n s (S k) cs s'
| insp_ok nsPath s c s1 k cs s' : Inspect n nsPath s = (Return (Ok c), s1) ->
    inspections n s1 k cs s' -> inspections n s (S k) (c :: cs) s'.

Lemma inspections_ids n s k cs s' :
  wn_configure n = Configure -> inspections n s k cs s' ->
  0 <= s.1 -> 0 <= nc_VXLAN_MinID (wn_config n) -> nc_VXLAN_MinID (wn_config n) + s.1 + Z.of_nat k <= max_int64 ->
  Forall (fun c => nc_VXLAN_MinID (wn_config n) + s.1 <= tc_VXLANID c <= max_int64) cs /\
  StronglySorted Z.lt (tc_VXLANID <$> cs).
Proof.
  intros Hc Hi. induction Hi as [s|i w w1 k cs s' Hi IH|p s r s1 k cs s' E Hr Hi IH|p s c s1 k cs s' E Hi IH];
    intros Hw0 Hm Hb; [split; constructor|by apply IH| |].
  - apply (Inspect_index _ _ _ (mkTConfig None "" "" None "" [] [] 0 0 0 0 false false)) in E as [Hs _].
    rewrite wrap64_id in Hs by auto with golib. rewrite Hs in IH.
    destruct IH as [Hf Hsorted]; [lia..|]. split; [|done]. eapply Forall_impl; [exact Hf|]. simpl. intros; lia.
  - apply (Inspect_index _ _ _ c) in E as [Hs Hid]. destruct (Hid Hc eq_refl) as [Hid' _].
    rewrite wrap64_id in Hs, Hid' by auto with golib. rewrite Hs in IH.
    destruct IH as [Hf Hsorted]; [lia..|]. split.
    + constructor; [lia|]. eapply Forall_impl; [exact Hf|]. simpl. intros; lia.
    + simpl. constructor; [done|]. apply Forall_fmap. eapply Forall_impl; [exact Hf|]. simpl. intros; lia.
Qed.

(** C35: The tunnels of one process have different identifiers: over any sequence of
    inspections of pods, whatever fails and whatever happens to the network in
    between, the VXLAN ids handed out grow strictly and start at the configured
    minimum, as long as the sum stays within an int. *)
Theorem tunnel_ids_distinct nc n w k cs s' :
  NewWorkerNode nc = Ok n -> 0 <= nc_VXLAN_MinID nc -> nc_VXLAN_MinID nc + Z.of_nat k <= max_int64 ->
  inspections n (0, w) k cs s' ->
  NoDup (tc_VXLANID <$> cs) /\ StronglySorted Z.lt (tc_VXLANID <$> cs) /\
  Forall (fun c => nc_VXLAN_MinID nc <= tc_VXLANID c) cs.
Proof.
  intros Hn Hm Hb Hi. apply NewWorkerNode_ok in Hn as [<- Hc].
  apply inspections_ids in Hi as [Hf Hsorted]; [|done|simpl; lia..].
  split; [|split; [done|eapply Forall_impl; [exact Hf|]; simpl; intros; lia]].
  clear Hf. induction (tc_VXLANID <$> cs) as [|z l IH]; [constructor|].
  inversion Hsorted as [|? ? Hs Hlt]. constructor; [|by apply IH].
  intros Hin. rewrite Forall_forall in Hlt. specialize (Hlt z Hin). lia.
Qed.

(** A host interface without an address makes [Inspect] panic. *)
Lemma inspect_host_panics n nsPath index hostNS w dev gw w1 l w2 w3 :
  findPrimaryInterface hostNS w = (Ok (dev, gw), w1) ->
  LinkFind hostNS (if String.eqb (nc_HostInterface (wn_config n)) "" then dev else nc_HostInterface (wn_config n)) w1
    = (Ok l, w2) ->
  GetAddr l w2 = (Ok [], w3) ->
  inspect_host n nsPath index hostNS w = (Panic, w3).
Proof. intros E1 E2 E3. unfold inspect_host, mbind, mret. by rewrite E1, E2, E3. Qed.

End Props.

(** ** A worker node on the executable network *)

#[export] Instance ipv4_prefix : NetPrefix := {
  IPv4Unspecified := mk_ipv4 0 I;
  Addr_BitLen := fun _ => 32;
  Addr_Mask := fun a bits =>
    default a (mk_addr (Z.shiftl (Z.shiftr (addr_value a) (32 - bits)) (32 - bits)));
  ParsePrefix := fun s =>
    match split_on "/" s with
    | [a; b] => match ParseAddr a, ParseInt b with Some a, Some b => Some (mkPrefix a b) | _, _ => None end
    | _ => None
    end
}.

Definition prefix_of (s : string) : Prefix := ParsePrefix s.

Definition default_via (dev : string) (gw : string) : Route :=
  mkRoute (prefix_of "0.0.0.0/0") None (ParseAddr gw) dev 100 254 1 3 0 false.

(** The host has two interfaces, the pod one. *)
Definition sim1 : sim :=
  mkSim (mkView
    {[ 0 := mkIface "host" "lo" None 65536 "" [prefix_of "127.0.0.1/8"] true;
       1 := mkIface "host" "eth0" None 1500 "02:00" [prefix_of "10.0.0.4/24"] true;
       2 := mkIface "host" "eth1" None 1500 "02:02" [prefix_of "10.0.0.5/24"] true;
       3 := mkIface "/pod" "eth0" None 1500 "02:01" [prefix_of "10.244.0.7/24"] true ]} ∅ ∅)
    [("host", default_via "eth0" "10.0.0.1"); ("/pod", default_via "eth0" "10.244.0.1")].

Definition secondary1 : result (string * Prefix * Route) * sim :=
  @getSecondaryInterfaceDetails sim ipv4_netip ipv4_prefix sim_ops "host" "eth0" sim1.

Lemma secondary_interface_suitable_witness :
  exists name addr route, secondary1.1 = Ok (name, addr, route) /\
    name <> "eth0" /\ rt_Device route = name.
Proof.
  assert (is_ok secondary1.1 = true) as Hok by (vm_compute; reflexivity).
  destruct secondary1 as [[[[name addr] route]|e] w'] eqn:E; [|discriminate Hok].
  exists name, addr, route. split; [reflexivity|].
  destruct (@secondary_interface_suitable sim ipv4_netip ipv4_prefix sim_ops "host" "eth0" sim1 name addr route w' E)
    as (Hne & _ & _ & Hdev & _). split; [exact Hne|exact Hdev].
Defined.

Definition nc0 : NetworkConfig := mkNetworkConfig "vxlan" "" 4789 555000 false ["10.244.0.0/16"].

Definition node0 : @workerNode sim ipv4_netip :=
  mkWorkerNode nc0 (mkTunneler worker_Setup worker_Teardown (Some Configure)) Configure.

Definition inspected (r : outcome (result TConfig)) : option TConfig :=
  match r with Return (Ok c) => Some c | _ => None end.

Definition is_inspected (r : outcome (result TConfig)) : bool :=
  match r with Return (Ok _) => true | _ => false end.

Lemma inspected_some r : is_inspected r = true -> exists c, inspected r = Some c.
Proof. destruct r as [[c|]|]; simpl; [eauto|done..]. Qed.

Lemma inspected_run (s : Z * sim) c :
  inspected (Inspect node0 "/pod" s).1 = Some c -> Inspect node0 "/pod" s = (Return (Ok c), (Inspect node0 "/pod" s).2).
Proof. destruct (Inspect node0 "/pod" s) as [[[c'|]|] s']; simpl; [by intros [= ->]|done..]. Qed.

Lemma tunnel_ids_distinct_witness :
  exists c1 c2 s', inspections node0 (0, sim1) 2 [c1; c2] s' /\ tc_VXLANID c1 <> tc_VXLANID c2.
Proof.
  set (s1 := (Inspect node0 "/pod" (0, sim1)).2).
  destruct (inspected_some (Inspect node0 "/pod" (0, sim1)).1) as [c1 E1]; [vm_compute; reflexivity|].
  destruct (inspected_some (Inspect node0 "/pod" s1).1) as [c2 E2]; [vm_compute; reflexivity|].
  assert (inspections node0 (0, sim1) 2 [c1; c2] (Inspect node0 "/pod" s1).2) as Hi.
  { eapply insp_ok; [apply inspected_run, E1|]. eapply insp_ok; [apply inspected_run, E2|]. apply insp_none. }
  exists c1, c2, (Inspect node0 "/pod" s1).2. split; [exact Hi|].
  destruct (@tunnel_ids_distinct sim ipv4_netip ipv4_prefix sim_ops nc0 node0 sim1 2 [c1; c2]
    (Inspect node0 "/pod" s1).2) as (Hnd & _);
    [reflexivity|discriminate|discriminate|exact Hi|].
  intros Heq. inversion Hnd as [|? ? Hn _]. apply Hn. simpl. rewrite Heq. left.
Defined.
