(* ===== verification/Initdata.v ===== *)
(** * Initdata

    Models src/cloud-api-adaptor/pkg/initdata/initdata.go: the document that a
    pod's annotation carries into its VM, TOML compressed with gzip and written in
    base64, together with the digest that attestation uses.  Also the parts of
    encoding/base64 and encoding/hex that the code calls.

    [InitdataEnv] holds gzip, TOML and the hash functions; [InitdataLaws] says
    that decompression undoes compression.  The streaming base64 decoder is the
    decoder applied to everything the reader gives. *)

From Stdlib Require Import ZArith Ascii String Lia.
From stdpp Require Import base gmap strings list.
From S2P Require Import Prelude.

Open Scope Z_scope.

(** ** encoding/base64, StdEncoding

    Three bytes are four sextets; a final group of one or two bytes is padded.
    A byte is its eight bits, least significant first, as in [ascii]. *)

Definition base64_alphabet : string :=
  "ABCDEFGHIJKLMNOPQRSTUVWXYZabcdefghijklmnopqrstuvwxyz0123456789+/".

(** Six bits, most significant first. *)
Definition sextet : Type := (bool * bool * bool * bool * bool * bool).

Definition sextet_value (x : sextet) : nat :=
  let '(b5, b4, b3, b2, b1, b0) := x in
  let d := Nat.b2n in
  (32 * d b5 + 16 * d b4 + 8 * d b3 + 4 * d b2 + 2 * d b1 + d b0)%nat.

Definition sextet_of_value (n : nat) : sextet :=
  (Nat.testbit n 5, Nat.testbit n 4, Nat.testbit n 3,
   Nat.testbit n 2, Nat.testbit n 1, Nat.testbit n 0).

Definition sextet_char (x : sextet) : ascii :=
  default "="%char (String.get (sextet_value x) base64_alphabet).

(** The position of a character in a string. *)
Fixpoint char_index (c : ascii) (s : string) : option nat :=
  match s with
  | EmptyString => None
  | String c' rest => if Ascii.eqb c c' then Some 0%nat else S <$> char_index c rest
  end.

Definition char_sextet (c : ascii) : option sextet :=
  sextet_of_value <$> char_index c base64_alphabet.

(** [EncodeToString]: the four sextets of three bytes, or the padded end. *)
Fixpoint EncodeToString (s : string) : string :=
  match s with
  | EmptyString => EmptyString
  | String (Ascii a0 a1 a2 a3 a4 a5 a6 a7) EmptyString =>
      String (sextet_char (a7, a6, a5, a4, a3, a2))
      (String (sextet_char (a1, a0, false, false, false, false)) "==")
  | String (Ascii a0 a1 a2 a3 a4 a5 a6 a7) (String (Ascii b0 b1 b2 b3 b4 b5 b6 b7) EmptyString) =>
      String (sextet_char (a7, a6, a5, a4, a3, a2))
      (String (sextet_char (a1, a0, b7, b6, b5, b4))
      (String (sextet_char (b3, b2, b1, b0, false, false)) "="))
  | String (Ascii a0 a1 a2 a3 a4 a5 a6 a7) (String (Ascii b0 b1 b2 b3 b4 b5 b6 b7)
      (String (Ascii c0 c1 c2 c3 c4 c5 c6 c7) rest)) =>
      String (sextet_char (a7, a6, a5, a4, a3, a2))
      (String (sextet_char (a1, a0, b7, b6, b5, b4))
      (String (sextet_char (b3, b2, b1, b0, c7, c6))
      (String (sextet_char (c5, c4, c3, c2, c1, c0)) (EncodeToString rest))))
  end.

(** The decoder skips carriage returns and newlines. *)
Definition is_newline (c : ascii) : bool :=
  (Ascii.eqb c "010" || Ascii.eqb c "013")%bool.

Fixpoint skip_newlines (s : string) : string :=
  match s with
  | EmptyString => EmptyString
  | String c rest => if is_newline c then skip_newlines rest else String c (skip_newlines rest)
  end.

Definition is_padding (c : ascii) : bool := Ascii.eqb c "=".

(** Groups of four; padding only at the very end; the spare bits of a padded
    group are not looked at. *)
Fixpoint decode_groups (s : string) : option string :=
  match s with
  | EmptyString => Some EmptyString
  | String w (String x (String y (String z rest))) =>
      match char_sextet w, char_sextet x with
      | Some (a7, a6, a5, a4, a3, a2), Some (a1, a0, b7, b6, b5, b4) =>
          let a := Ascii a0 a1 a2 a3 a4 a5 a6 a7 in
          if is_padding y then
            if (is_padding z && String.eqb rest "")%bool then Some (String a EmptyString) else None
          else
            match char_sextet y with
            | Some (b3, b2, b1, b0, c7, c6) =>
                let b := Ascii b0 b1 b2 b3 b4 b5 b6 b7 in
                if is_padding z then
                  if String.eqb rest "" then Some (String a (String b EmptyString)) else None
                else
                  match char_sextet z with
                  | Some (c5, c4, c3, c2, c1, c0) =>
                      let c := Ascii c0 c1 c2 c3 c4 c5 c6 c7 in
                      (fun t => String a (String b (String c t))) <$> decode_groups rest
                  | None => None
                  end
            | None => None
            end
      | _, _ => None
      end
  | _ => None
  end.

Definition DecodeString (s : string) : result string :=
  match decode_groups (skip_newlines s) with
  | Some d => Ok d
  | None => Err (Sentinel "CorruptInputError")
  end.

(** ** encoding/hex *)

Definition hex_digit (b3 b2 b1 b0 : bool) : ascii :=
  default "0"%char (String.get (sextet_value (false, false, b3, b2, b1, b0)) "0123456789abcdef").

Fixpoint hex_EncodeToString (s : string) : string :=
  match s with
  | EmptyString => EmptyString
  | String (Ascii a0 a1 a2 a3 a4 a5 a6 a7) rest =>
      String (hex_digit a7 a6 a5 a4) (String (hex_digit a3 a2 a1 a0) (hex_EncodeToString rest))
  end.

(** ** The document *)

Record InitDataBody := mkBody {
  Algorithm : string;
  Version : string;
  Data : gmap string string
}.

Record InitData := mkInitData {
  Body : InitDataBody;
  Digest : string
}.

(** Code outside the repository: gzip, TOML and the hashes, which give raw
    bytes. *)
Class InitdataEnv := {
  gzip_Write : string -> result string;
  gzip_Read : string -> result string;
  toml_Unmarshal : string -> result InitDataBody;
  Sum256 : string -> string;
  Sum384 : string -> string;
  Sum512 : string -> string
}.

(** Reading a gzip stream gives back what was written to it, and writing to a
    buffer in memory does not fail. *)
Class InitdataLaws `{InitdataEnv} := {
  gzip_Write_ok : forall s, is_ok (gzip_Write s) = true;
  gzip_Read_Write : forall s z, gzip_Write s = Ok z -> gzip_Read z = Ok s
}.

Section Initdata.

Context `{InitdataEnv}.

Definition digest (alg body : string) : result string :=
  if String.eqb alg "sha256" then Ok (hex_EncodeToString (Sum256 body))
  else if String.eqb alg "sha384" then Ok (hex_EncodeToString (Sum384 body))
  else if String.eqb alg "sha512" then Ok (hex_EncodeToString (Sum512 body))
  else Err (Errorf "Error creating initdata digest, algorithm %s is not supported" []).

(** [reader] is what reading to the end gives. *)
Definition decode (reader : string) : result string :=
  match DecodeString reader with
  | Ok z => gzip_Read z
  | Err e => Err e
  end.

Definition Parse (reader : string) : result InitData :=
  match decode reader with
  | Err e => Err e
  | Ok initdataToml =>
      match toml_Unmarshal initdataToml with
      | Err e => Err e
      | Ok body =>
          match digest (Algorithm body) initdataToml with
          | Err e => Err e
          | Ok d => Ok (mkInitData body d)
          end
      end
  end.

Definition Encode (initdataStr : string) : result string :=
  match gzip_Write initdataStr with
  | Err e => Err e
  | Ok z => Ok (EncodeToString z)
  end.

Definition DecodeAnnotation (annotation : string) : result string := decode annotation.

End Initdata.

(** ** base64 round trip *)

(** Induction three bytes at a time. *)
Lemma string_ind3 (P : string -> Prop) :
  P EmptyString -> (forall a, P (String a EmptyString)) ->
  (forall a b, P (String a (String b EmptyString))) ->
  (forall a b c s, P s -> P (String a (String b (String c s)))) ->
  forall s, P s.
Proof.
  intros P0 P1 P2 P3.
  fix IH 1. intros [|a [|b [|c s]]]; [done|apply P1|apply P2|apply P3, IH].
Qed.

Lemma char_sextet_char x : char_sextet (sextet_char x) = Some x.
Proof. destruct x as [[[[[[] []] []] []] []] []]; reflexivity. Qed.

Lemma sextet_char_not_padding x : is_padding (sextet_char x) = false.
Proof. destruct x as [[[[[[] []] []] []] []] []]; reflexivity. Qed.

Lemma sextet_char_not_newline x : is_newline (sextet_char x) = false.
Proof. destruct x as [[[[[[] []] []] []] []] []]; reflexivity. Qed.

Ltac sextets :=
  repeat first [ rewrite char_sextet_char | rewrite sextet_char_not_padding
               | rewrite sextet_char_not_newline ].

Lemma skip_newlines_Encode s : skip_newlines (EncodeToString s) = EncodeToString s.
Proof.
  induction s as [| [] | [] [] | [] [] [] s IH] using string_ind3;
    cbn [EncodeToString skip_newlines]; sextets; [done..|by rewrite IH].
Qed.

Lemma decode_groups_Encode s : decode_groups (EncodeToString s) = Some s.
Proof.
  induction s as [| [] | [] [] | [] [] [] s IH] using string_ind3;
    cbn [EncodeToString decode_groups]; sextets; [done..|by rewrite IH].
Qed.

Lemma DecodeString_Encode s : DecodeString (EncodeToString s) = Ok s.
Proof. unfold DecodeString. by rewrite skip_newlines_Encode, decode_groups_Encode. Qed.

(** ** hex *)

Lemma hex_length s : String.length (hex_EncodeToString s) = (2 * String.length s)%nat.
Proof. induction s as [|[] s IH]; cbn [hex_EncodeToString String.length]; [done|lia]. Qed.

Lemma hex_digit_inj a b c d a' b' c' d' :
  hex_digit a b c d = hex_digit a' b' c' d' -> (a, b, c, d) = (a', b', c', d').
Proof. by destruct a, b, c, d, a', b', c', d'; cbv; intros E; inversion E. Qed.

Lemma hex_inj s t : hex_EncodeToString s = hex_EncodeToString t -> s = t.
Proof.
  revert t. induction s as [|[] s IH]; intros [|[] t]; cbn [hex_EncodeToString]; try done.
  intros E. injection E as E1 E2 E3.
  apply hex_digit_inj in E1. apply hex_digit_inj in E2. simplify_eq. f_equal. by apply IH.
Qed.

(** ** Encoding and parsing a document *)

Section Laws.

Context `{InitdataLaws}.

Lemma Encode_ok s : exists e, Encode s = Ok e /\ decode e = Ok s.
Proof.
  pose proof (gzip_Write_ok s) as Hw. unfold Encode, decode.
  destruct (gzip_Write s) as [z|] eqn:E; [|done].
  exists (EncodeToString z). split; [done|].
  rewrite DecodeString_Encode. by apply gzip_Read_Write.
Qed.

(** A document survives the trip through an annotation: encoding it succeeds,
    decoding gives the text back, and parsing gives the fields of its TOML with
    the digest that its own algorithm makes of the text, or the parser's error, or
    the error of an unsupported algorithm. *)
Theorem initdata_roundtrip s :
  exists e, Encode s = Ok e /\ DecodeAnnotation e = Ok s /\
    Parse e = match toml_Unmarshal s with
              | Err err => Err err
              | Ok body => result_map (mkInitData body) (digest (Algorithm body) s)
              end.
Proof.
  destruct (Encode_ok s) as (e & He & Hd). exists e. split; [done|].
  unfold DecodeAnnotation, Parse. rewrite Hd. split; [done|].
  destruct (toml_Unmarshal s) as [body|]; [|done]. by destruct (digest _ _).
Qed.

End Laws.

(** ** An executable environment *)

(** A two-byte header in place of compression, the text in place of its hash, and a
    TOML parser that knows the given documents. *)
Definition gzip_magic : string := String "031" (String "139" EmptyString).

Definition bench_initdata (docs : list (string * InitDataBody)) : InitdataEnv := {|
  gzip_Write := fun s => Ok (gzip_magic +:+ s);
  gzip_Read := fun z =>
    if HasPrefix z gzip_magic then Ok (TrimPrefix z gzip_magic) else Err (Sentinel "gzip: invalid header");
  toml_Unmarshal := fun s =>
    match find (fun d => String.eqb (fst d) s) docs with
    | Some (_, b) => Ok b
    | None => Err (Sentinel "toml: invalid document")
    end;
  Sum256 := fun s => s;
  Sum384 := fun s => s;
  Sum512 := fun s => s
|}.

Lemma bench_initdata_laws docs : @InitdataLaws (bench_initdata docs).
Proof.
  split; [done|]. cbn [gzip_Write gzip_Read bench_initdata]. intros s z [= <-].
  unfold gzip_magic, TrimPrefix. rewrite !string_app_cons, string_app_nil. by destruct s.
Qed.

Example initdata_roundtrip_witness :
  let E := bench_initdata [("version = 1"%string, mkBody "sha384" "0.1.0" ∅)] in
  exists e, Encode "version = 1" = Ok e /\ DecodeAnnotation e = Ok "version = 1"%string /\
    Parse e = Ok (mkInitData (mkBody "sha384" "0.1.0" ∅) "76657273696f6e203d2031").
Proof.
  exact (@initdata_roundtrip _
    (bench_initdata_laws [("version = 1"%string, mkBody "sha384" "0.1.0" ∅)]) "version = 1").
Defined.
