(* ===== verification/CloudInit.v ===== *)
(** * cloud-init documents

    Models src/cloud-providers/util/cloudinit/cloudconfig.go: the text template
    that writes a cloud-config, and the resources file of the credentials.

    The reader below is a specification, not code of the repository: it reads
    a subset of YAML, lists of items with the keys of a file, each key at most
    once and with a value, by the rules of YAML for literal block scalars
    (indentation found from the first line with text, clipped at the end).  The
    theorem of this file says when a generated document is read back as the
    files it was made from. *)

From Stdlib Require Import ZArith Ascii String Lia.
From stdpp Require Import base gmap strings list.
From S2P Require Import Prelude Initdata.

Open Scope Z_scope.

Definition DefaultAuthfileLimit : Z := 12288.

Record WriteFile := mkWriteFile {
  Path : string;
  Content : string;
  Owner : string;
  Permissions : string;
  Encoding : string;
  Append : string
}.

Record CloudConfig := mkCloudConfig { WriteFiles : list WriteFile }.

Definition newline : ascii := "010".
Definition nl : string := String newline EmptyString.

(** ** The template *)

Definition splitLines (text : string) : list string :=
  let lines := split_on newline text in
  match rev lines with
  | [] => []
  | l :: front => if String.eqb l "" then rev front else lines
  end.

(** A field with [{{- if }}] is left out when it is empty. *)
Definition render_field (key value : string) : string :=
  if String.eqb value "" then "" else nl +:+ "    " +:+ key +:+ ": " +:+ value.

Definition render_content (content : string) : string :=
  if String.eqb content "" then ""
  else nl +:+ "    content: |" +:+
       foldr (fun line rest => nl +:+ "      " +:+ line +:+ rest) "" (splitLines content).

Definition render_file (f : WriteFile) : string :=
  nl +:+ "  - path: " +:+ Path f +:+
  render_field "owner" (Owner f) +:+
  render_field "permissions" (Permissions f) +:+
  render_field "encoding" (Encoding f) +:+
  render_field "append" (Append f) +:+
  render_content (Content f).

Definition cloudInitText (config : CloudConfig) : string :=
  "#cloud-config" +:+
  match WriteFiles config with
  | [] => ""
  | files =>
      nl +:+ nl +:+ "write_files:" +:+
      foldr (fun f rest => render_file f +:+ rest) "" files
  end +:+ nl.

(** The template is well formed and writing to a buffer does not fail. *)
Definition Generate (config : CloudConfig) : result string := Ok (cloudInitText config).

(** The template of the resources file has one field, the encoded text. *)
Definition AuthJSONToResourcesJSON (text : string) : string :=
  let quote := String "034" EmptyString in
  "{" +:+ quote +:+ "default/credential/test" +:+ quote +:+ ":" +:+ quote +:+
  EncodeToString text +:+ quote +:+ "}".

(** ** Reading a document: specification *)

Definition spaces (n : nat) : string := String.string_of_list_ascii (replicate n " "%char).

Fixpoint leading_spaces (s : string) : nat :=
  match s with
  | String " " rest => S (leading_spaces rest)
  | _ => 0
  end.

Definition is_blank (s : string) : bool := String.eqb (drop_bytes (leading_spaces s) s) "".

(** The indentation of a block: the spaces before the first line with text. *)
Fixpoint block_indent (lines : list string) : option nat :=
  match lines with
  | [] => None
  | l :: rest => if is_blank l then block_indent rest else Some (leading_spaces l)
  end.

(** One line of a block: what is past the indentation; a blank line may be
    shorter. *)
Definition block_line (n : nat) (l : string) : option string :=
  if Nat.leb n (leading_spaces l) then Some (drop_bytes n l)
  else if is_blank l then Some EmptyString else None.

(** The blank lines before the text may not be longer than the indentation. *)
Fixpoint leading_blanks_ok (n : nat) (lines : list string) : bool :=
  match lines with
  | [] => true
  | l :: rest => if is_blank l then (Nat.leb (String.length l) n && leading_blanks_ok n rest)%bool else true
  end.

Fixpoint drop_empty (lines : list string) : list string :=
  match lines with
  | EmptyString :: rest => drop_empty rest
  | _ => lines
  end.

(** Clipping: trailing empty lines are dropped, one final line break is kept. *)
Definition clip_lines (lines : list string) : string :=
  foldr (fun l rest => l +:+ nl +:+ rest) "" (rev (drop_empty (rev lines))).

(** A block without text is not part of the subset. *)
Definition block_value (lines : list string) : option string :=
  match block_indent lines with
  | None => None
  | Some n => if leading_blanks_ok n lines then clip_lines <$> mapM (block_line n) lines else None
  end.

(** A line belongs to the block under a key when it is indented deeper. *)
Definition in_block (l : string) : bool := (Nat.leb 5 (leading_spaces l) || is_blank l)%bool.

Inductive reading :=
| Between
| InItem (f : WriteFile)
| InBlock (f : WriteFile) (block : list string).

Definition leave (r : reading) : option (list WriteFile) :=
  match r with
  | Between => Some []
  | InItem f => Some [f]
  | InBlock f block =>
      (fun c => [mkWriteFile (Path f) c (Owner f) (Permissions f) (Encoding f) (Append f)])
        <$> block_value block
  end.

(** A key is given once, and with a value. *)
Definition once (old v : string) (r : reading) : option (list WriteFile * reading) :=
  if (String.eqb old "" && negb (String.eqb v ""))%bool then Some ([], r) else None.

(** A line with a key, after the items [cur] (none or one) read so far. *)
Definition key_line (cur : list WriteFile) (l : string) : option (list WriteFile * reading) :=
  if HasPrefix l "  - path: " then
    Some (cur, InItem (mkWriteFile (TrimPrefix l "  - path: ") "" "" "" "" ""))
  else
    match cur with
    | [mkWriteFile p c o m e a] =>
        if HasPrefix l "    owner: " then
          let v := TrimPrefix l "    owner: " in once o v (InItem (mkWriteFile p c v m e a))
        else if HasPrefix l "    permissions: " then
          let v := TrimPrefix l "    permissions: " in once m v (InItem (mkWriteFile p c o v e a))
        else if HasPrefix l "    encoding: " then
          let v := TrimPrefix l "    encoding: " in once e v (InItem (mkWriteFile p c o m v a))
        else if HasPrefix l "    append: " then
          let v := TrimPrefix l "    append: " in once a v (InItem (mkWriteFile p c o m e v))
        else if String.eqb l "    content: |" then
          if String.eqb c "" then Some ([], InBlock (mkWriteFile p c o m e a) []) else None
        else None
    | _ => None
    end.

Definition continues (r : reading) (l : string) : option reading :=
  match r with
  | InBlock f block => if in_block l then Some (InBlock f (block ++ [l])) else None
  | _ => None
  end.

Fixpoint read_lines (r : reading) (lines : list string) : option (list WriteFile) :=
  match lines with
  | [] => leave r
  | l :: rest =>
      match continues r l with
      | Some r' => read_lines r' rest
      | None =>
          match leave r with
          | None => None
          | Some cur =>
              match key_line cur l with
              | None => None
              | Some (closed, r') => app closed <$> read_lines r' rest
              end
          end
      end
  end.

Definition read_document (text : string) : option CloudConfig :=
  mkCloudConfig <$>
  match splitLines text with
  | ["#cloud-config"%string] => Some []
  | "#cloud-config"%string :: ""%string :: "write_files:"%string :: lines => read_lines Between lines
  | _ => None
  end.

(** ** What can be read back *)

(** Characters of a plain scalar that YAML gives no other meaning to. *)
Definition plain_char (c : ascii) : bool :=
  let n := Z.of_nat (nat_of_ascii c) in
  ((47 <=? n) && (n <=? 57) || (65 <=? n) && (n <=? 90) || (97 <=? n) && (n <=? 122)
   || (n =? 45) || (n =? 46) || (n =? 95))%bool.

(** Printable ASCII and line feeds. *)
Definition text_char (c : ascii) : bool :=
  let n := Z.of_nat (nat_of_ascii c) in ((32 <=? n) && (n <=? 126) || (n =? 10))%bool.

(** The first line that is not empty starts with something other than a space. *)
Fixpoint starts_flush (lines : list string) : bool :=
  match lines with
  | [] => false
  | EmptyString :: rest => starts_flush rest
  | String c _ :: _ => negb (Ascii.eqb c " ")
  end.

Definition renderable (f : WriteFile) : Prop :=
  Forall (all_bytes plain_char) [Path f; Owner f; Permissions f; Encoding f; Append f] /\
  all_bytes text_char (Content f) /\
  (Content f = "" \/ starts_flush (splitLines (Content f)) = true).

(** The content as a block carries it: its lines, each ended. *)
Definition clip (content : string) : string :=
  if String.eqb content "" then "" else clip_lines (splitLines content).

Definition clip_file (f : WriteFile) : WriteFile :=
  mkWriteFile (Path f) (clip (Content f)) (Owner f) (Permissions f) (Encoding f) (Append f).

(** ** The text as lines *)

(** Lines, each after a line feed. *)
Definition lines_text (lines : list string) : string :=
  foldr (fun l rest => nl +:+ l +:+ rest) "" lines.

Definition one_line (l : string) : Prop := contains_byte newline l = false.

Lemma lines_text_app l1 l2 : lines_text (l1 ++ l2) = lines_text l1 +:+ lines_text l2.
Proof.
  induction l1 as [|l l1 IH]; [done|]. cbn [app lines_text foldr].
  fold (lines_text (l1 ++ l2)) (lines_text l1). by rewrite IH, !string_app_assoc.
Qed.

Lemma split_lines_text first lines :
  one_line first -> Forall one_line lines ->
  split_on newline (first +:+ lines_text lines +:+ nl) = first :: lines ++ [EmptyString].
Proof.
  revert first. induction lines as [|l lines IH]; intros first Hf Hl.
  - cbn [lines_text foldr]. rewrite string_app_nil. unfold nl. by rewrite split_on_app.
  - apply Forall_cons in Hl as [Hl Hls]. cbn [lines_text foldr]. fold (lines_text lines).
    unfold nl at 1. rewrite !string_app_assoc, string_app_one, split_on_app by done.
    cbn [app]. f_equal. by rewrite <- IH.
Qed.

Lemma splitLines_text first lines :
  one_line first -> Forall one_line lines ->
  splitLines (first +:+ lines_text lines +:+ nl) = first :: lines.
Proof.
  intros Hf Hl. unfold splitLines. rewrite split_lines_text by done.
  rewrite app_comm_cons, rev_app_distr. cbn [rev app]. rewrite String.eqb_refl.
  by rewrite rev_app_distr, rev_involutive.
Qed.

Definition field_lines (key value : string) : list string :=
  if String.eqb value "" then [] else [("    " +:+ key +:+ ": " +:+ value)%string].

Definition content_lines (content : string) : list string :=
  if String.eqb content "" then []
  else "    content: |"%string :: map (String.append "      ") (splitLines content).

Definition file_lines (f : WriteFile) : list string :=
  ("  - path: " +:+ Path f)%string ::
  field_lines "owner" (Owner f) ++ field_lines "permissions" (Permissions f) ++
  field_lines "encoding" (Encoding f) ++ field_lines "append" (Append f) ++
  content_lines (Content f).

Lemma field_lines_text key value : lines_text (field_lines key value) = render_field key value.
Proof.
  unfold field_lines, render_field. destruct (String.eqb _ _); [done|].
  cbn [lines_text foldr]. by rewrite string_app_nil_r.
Qed.

Lemma content_lines_text content : lines_text (content_lines content) = render_content content.
Proof.
  unfold content_lines, render_content. destruct (String.eqb _ _); [done|].
  cbn [lines_text foldr]. fold (lines_text (map (String.append "      ") (splitLines content))).
  do 2 f_equal. induction (splitLines content) as [|l ls IH]; [done|].
  cbn [map lines_text foldr]. fold (lines_text (map (String.append "      ") ls)).
  by rewrite IH, !string_app_assoc.
Qed.

Lemma file_lines_text f : lines_text (file_lines f) = render_file f.
Proof.
  unfold file_lines, render_file. cbn [lines_text foldr].
  fold (lines_text (field_lines "owner" (Owner f) ++ field_lines "permissions" (Permissions f) ++
    field_lines "encoding" (Encoding f) ++ field_lines "append" (Append f) ++
    content_lines (Content f))).
  by rewrite !lines_text_app, !field_lines_text, content_lines_text, !string_app_assoc.
Qed.

Lemma Generate_lines files :
  files <> [] ->
  Generate (mkCloudConfig files) =
  Ok ("#cloud-config" +:+ lines_text ("" :: "write_files:" :: concat (map file_lines files)) +:+ nl).
Proof.
  intros Hne. unfold Generate, cloudInitText. cbn [WriteFiles]. f_equal. f_equal.
  destruct files as [|f0 files]; [done|]. set (fs := f0 :: files).
  enough (E : lines_text (concat (map file_lines fs)) =
              foldr (fun f rest => render_file f +:+ rest) "" fs).
  { cbn [lines_text foldr]. fold (lines_text (concat (map file_lines fs))). rewrite E.
    by rewrite !string_app_assoc, string_app_nil. }
  clear. induction fs as [|f fs IH]; [done|]. cbn [map concat foldr].
  by rewrite lines_text_app, file_lines_text, IH.
Qed.

(** ** Every line of a renderable file is one line *)

Lemma one_line_app s t : one_line (s +:+ t) <-> one_line s /\ one_line t.
Proof. apply contains_byte_app. Qed.

Lemma all_bytes_one_line p s :
  p newline = false -> all_bytes p s -> one_line s.
Proof.
  intros Hp. unfold all_bytes, one_line. induction s as [|c s IH]; [done|]. simpl.
  rewrite Forall_cons. intros [Hc Hs]. apply contains_byte_cons. split; [by intros ->; congruence|auto].
Qed.

Lemma splitLines_one_line s : Forall one_line (splitLines s).
Proof.
  pose proof (split_on_elems newline s) as Hs. unfold splitLines.
  destruct (rev (split_on newline s)) as [|l front] eqn:E; [constructor|].
  destruct (String.eqb l ""); [|done].
  rewrite <- (rev_involutive (split_on newline s)), E in Hs. cbn [rev] in Hs.
  by apply Forall_app in Hs as [Hs _].
Qed.

(** The lines of a text have no other bytes, and neither has a block. *)
Lemma split_on_all_bytes (P : ascii -> bool) sep s : all_bytes P s -> Forall (all_bytes P) (split_on sep s).
Proof.
  unfold all_bytes. induction s as [|c s IH]; cbn [split_on String.list_ascii_of_string]; [by repeat constructor|].
  intros [Hc Hs]%List.Forall_cons_iff. specialize (IH Hs). destruct (Ascii.eqb c sep); [by constructor|].
  destruct (split_on sep s) as [|w ws]; [by repeat constructor|]. apply List.Forall_cons_iff in IH as [Hw Hws].
  constructor; [|done]. by constructor.
Qed.

Lemma splitLines_bytes P s : all_bytes P s -> Forall (all_bytes P) (splitLines s).
Proof.
  intros Hs. apply (split_on_all_bytes P newline) in Hs. unfold splitLines.
  destruct (rev (split_on newline s)) as [|l front] eqn:E; [constructor|]. destruct (String.eqb l ""); [|done].
  rewrite <- (rev_involutive (split_on newline s)), E in Hs. cbn [rev] in Hs. by apply Forall_app in Hs as [Hs _].
Qed.

Lemma drop_empty_bytes P ls : Forall (all_bytes P) ls -> Forall (all_bytes P) (drop_empty ls).
Proof. induction 1 as [|[|c l] ls Hl Hls IH]; cbn [drop_empty]; [constructor|done|by constructor]. Qed.

Lemma clip_bytes P s : P newline = true -> all_bytes P s -> all_bytes P (clip s).
Proof.
  intros Hn Hs. unfold clip. destruct (String.eqb s ""); [constructor|]. unfold clip_lines.
  assert (Hl : Forall (all_bytes P) (rev (drop_empty (rev (splitLines s))))).
  { apply Forall_rev, drop_empty_bytes, Forall_rev. by apply splitLines_bytes. }
  induction Hl as [|l ls Hl _ IH]; cbn [foldr]; [constructor|]. rewrite !all_bytes_app. split_and!; [done|by repeat constructor|done].
Qed.

Lemma field_lines_one_line key value :
  one_line key -> all_bytes plain_char value -> Forall one_line (field_lines key value).
Proof.
  intros Hk Hv. unfold field_lines. destruct (String.eqb _ _); [constructor|].
  apply Forall_singleton. rewrite !one_line_app. repeat split; try done.
  by apply (all_bytes_one_line plain_char).
Qed.

Lemma content_lines_one_line content : Forall one_line (content_lines content).
Proof.
  unfold content_lines. destruct (String.eqb _ _); [constructor|]. constructor; [done|].
  apply Forall_map. apply (Forall_impl _ _ _ (splitLines_one_line content)).
  intros l Hl. change (one_line ("      " +:+ l)). by apply one_line_app.
Qed.

Lemma file_lines_one_line f : renderable f -> Forall one_line (file_lines f).
Proof.
  intros [Hp _]. rewrite !Forall_cons in Hp. destruct Hp as (Hp & Ho & Hm & He & Ha & _).
  unfold file_lines. constructor; [apply one_line_app; split; [done|]; by apply (all_bytes_one_line plain_char)|].
  rewrite !Forall_app. repeat split; try (by apply field_lines_one_line).
  apply content_lines_one_line.
Qed.

(** ** Reading the lines of a file *)

Lemma leading_spaces_app6 l : leading_spaces ("      " +:+ l) = (6 + leading_spaces l)%nat.
Proof. by rewrite !string_app_cons. Qed.

Lemma is_blank_app6 l : is_blank ("      " +:+ l) = is_blank l.
Proof. unfold is_blank. by rewrite leading_spaces_app6, !string_app_cons. Qed.

(** The lines of a block are collected. *)
Lemma read_block f block ls rest :
  read_lines (InBlock f block) (map (String.append "      ") ls ++ rest) =
  read_lines (InBlock f (block ++ map (String.append "      ") ls)) rest.
Proof.
  revert block. induction ls as [|l ls IH]; intros block; cbn [map app].
  - by rewrite app_nil_r.
  - cbn [read_lines continues].
    change (in_block _) with (in_block ("      " +:+ l)). unfold in_block.
    rewrite leading_spaces_app6. cbn [Nat.leb orb Nat.add]. rewrite IH. by rewrite <- app_assoc.
Qed.

(** ... and give the content back when its first text is flush. *)
Lemma block_indent_flush ls :
  starts_flush ls = true -> block_indent (map (String.append "      ") ls) = Some 6%nat.
Proof.
  induction ls as [|l ls IH]; [done|]. cbn [map block_indent starts_flush].
  change (String.append "      " l) with ("      " +:+ l). rewrite is_blank_app6, leading_spaces_app6.
  destruct l as [|c l]; [done|]. intros Hc. apply negb_true_iff, Ascii.eqb_neq in Hc.
  assert (E : leading_spaces (String c l) = 0%nat).
  { cbn [leading_spaces]. by destruct c as [[] [] [] [] [] [] [] []]. }
  unfold is_blank. rewrite E. reflexivity.
Qed.

Lemma leading_blanks_flush ls :
  starts_flush ls = true -> leading_blanks_ok 6 (map (String.append "      ") ls) = true.
Proof.
  induction ls as [|l ls IH]; [done|]. cbn [map leading_blanks_ok starts_flush].
  change (String.append "      " l) with ("      " +:+ l). rewrite is_blank_app6.
  destruct l as [|c l]; [done|]. intros Hc. apply negb_true_iff, Ascii.eqb_neq in Hc.
  assert (E : leading_spaces (String c l) = 0%nat).
  { cbn [leading_spaces]. by destruct c as [[] [] [] [] [] [] [] []]. }
  unfold is_blank. rewrite E. reflexivity.
Qed.

Lemma block_line_app6 l : block_line 6 ("      " +:+ l) = Some l.
Proof.
  unfold block_line. rewrite leading_spaces_app6. cbn [Nat.leb Nat.add].
  by rewrite (drop_bytes_app "      ").
Qed.

Lemma block_lines_flush ls : mapM (block_line 6) (map (String.append "      ") ls) = Some ls.
Proof.
  apply mapM_Some_2, Forall2_fmap_l, Forall_Forall2_diag, Forall_forall. intros l _.
  apply block_line_app6.
Qed.

Lemma block_value_flush ls :
  starts_flush ls = true ->
  block_value (map (String.append "      ") ls) = Some (clip_lines ls).
Proof.
  intros Hf. unfold block_value.
  by rewrite block_indent_flush, leading_blanks_flush, block_lines_flush.
Qed.

(** A line with a key sets its field; an absent field leaves the item alone. *)
Lemma read_key f l r rest :
  key_line [f] l = Some ([], r) -> read_lines (InItem f) (l :: rest) = read_lines r rest.
Proof. intros E. cbn [read_lines continues leave]. rewrite E. by destruct (read_lines r rest). Qed.

Lemma read_field f key v f' rest :
  (v = "" -> f = f') ->
  (v <> "" -> key_line [f] ("    " +:+ key +:+ ": " +:+ v) = Some ([], InItem f')) ->
  read_lines (InItem f) (field_lines key v ++ rest) = read_lines (InItem f') rest.
Proof.
  intros Hempty Hkey. unfold field_lines. destruct (String.eqb_spec v "") as [->|].
  - cbn [app]. by rewrite Hempty.
  - by apply read_key, Hkey.
Qed.

Lemma once_new v r : v <> "" -> once "" v r = Some ([], r).
Proof. intros Hv. unfold once. by rewrite (proj2 (String.eqb_neq _ _) Hv). Qed.

Lemma read_fields p o m e a rest :
  read_lines (InItem (mkWriteFile p "" "" "" "" ""))
    (field_lines "owner" o ++ field_lines "permissions" m ++ field_lines "encoding" e ++
     field_lines "append" a ++ rest) =
  read_lines (InItem (mkWriteFile p "" o m e a)) rest.
Proof.
  rewrite (read_field _ _ _ (mkWriteFile p "" o "" "" "")) by (by intros -> || by apply once_new).
  rewrite (read_field _ _ _ (mkWriteFile p "" o m "" "")) by (by intros -> || by apply once_new).
  rewrite (read_field _ _ _ (mkWriteFile p "" o m e "")) by (by intros -> || by apply once_new).
  by rewrite (read_field _ _ _ (mkWriteFile p "" o m e a)) by (by intros -> || by apply once_new).
Qed.

Lemma read_path r cur p rest :
  leave r = Some cur ->
  read_lines r (("  - path: " +:+ p)%string :: rest) =
  app cur <$> read_lines (InItem (mkWriteFile p "" "" "" "" "")) rest.
Proof.
  intros Hr. cbn [read_lines].
  assert (E : continues r ("  - path: " +:+ p) = None) by (by destruct r).
  by rewrite E, Hr.
Qed.

(** Reading a file closes the items before it and leaves the file open. *)
Lemma read_file r cur f rest :
  leave r = Some cur -> renderable f ->
  exists r', leave r' = Some [clip_file f] /\
    read_lines r (file_lines f ++ rest) = app cur <$> read_lines r' rest.
Proof.
  intros Hr (_ & _ & Hc). destruct f as [p c o m e a]. unfold file_lines, clip_file, clip.
  cbn [Path Content Owner Permissions Encoding Append app] in *.
  erewrite read_path by exact Hr. rewrite <- !app_assoc, read_fields. unfold content_lines.
  destruct (String.eqb_spec c "") as [->|Hne].
  - by exists (InItem (mkWriteFile p "" o m e a)).
  - destruct Hc as [?|Hc]; [done|]. cbn [app].
    exists (InBlock (mkWriteFile p "" o m e a) (map (String.append "      ") (splitLines c))).
    cbn [leave]. rewrite block_value_flush by done. split; [done|].
    rewrite (read_key _ _ (InBlock (mkWriteFile p "" o m e a) [])) by reflexivity.
    by rewrite read_block.
Qed.

Lemma read_files r cur files :
  leave r = Some cur -> Forall renderable files ->
  read_lines r (concat (map file_lines files)) = Some (cur ++ map clip_file files).
Proof.
  revert r cur. induction files as [|f files IH]; intros r cur Hr Hf.
  - cbn [map concat read_lines]. by rewrite app_nil_r.
  - apply Forall_cons in Hf as [Hf Hfs]. cbn [map concat].
    destruct (read_file r cur f (concat (map file_lines files)) Hr Hf) as (r' & Hr' & ->).
    by rewrite (IH _ _ Hr' Hfs).
Qed.

Lemma Generate_read files :
  Forall renderable files ->
  exists text, Generate (mkCloudConfig files) = Ok text /\
    read_document text = Some (mkCloudConfig (map clip_file files)).
Proof.
  intros Hf. destruct (decide (files = [])) as [->|Hne]; [by eexists|].
  eexists. split; [by apply Generate_lines|]. unfold read_document.
  rewrite splitLines_text; [|done|].
  - by rewrite (read_files _ []).
  - do 2 (constructor; [done|]). apply Forall_concat, Forall_map.
    apply (Forall_impl _ _ _ Hf). intros f. apply file_lines_one_line.
Qed.

(** A generated cloud-config is read back as the files it was generated from,
    each with its content ended by one line break: for any number of files with
    plain paths and attributes whose content is empty or printable text whose
    first line that is not empty starts without a space. *)
Theorem Generate_roundtrip files :
  Forall renderable files ->
  exists text, Generate (mkCloudConfig files) = Ok text /\
    read_document text = Some (mkCloudConfig (map clip_file files)).
Proof. apply Generate_read. Qed.

Example Generate_roundtrip_witness :
  exists text, Generate (mkCloudConfig [mkWriteFile "/run/peerpod/apf.json" "{ }" "" "0600" "" ""]) = Ok text /\
    read_document text =
      Some (mkCloudConfig [mkWriteFile "/run/peerpod/apf.json" ("{ }" +:+ nl) "" "0600" "" ""]).
Proof.
  apply (Generate_roundtrip [mkWriteFile "/run/peerpod/apf.json" "{ }" "" "0600" "" ""]).
  apply Forall_singleton. split_and!; [by repeat constructor|by repeat constructor|by right].
Defined.
