(* ===== verification/Userdata.v ===== *)
(** * User data of the pod VM

    Models src/cloud-api-adaptor/pkg/userdata (provision.go, heuristics.go and
    imds.go) and pkg/paths/paths.go: the program that runs at the start of a pod
    VM, finds the cloud it runs in, fetches the user data that the adaptor passed
    to the instance, writes the files it may write, and extracts the initdata.

    [PodVMEnv] holds the machine: files, HTTP, DMI, the CPU's hypervisor vendor,
    YAML and the waits of the retry library.  The state [podvm] is the machine
    with the log of the files written. *)

From Stdlib Require Import ZArith Ascii String Lia.
From stdpp Require Import base gmap strings list.
From S2P Require Import Prelude NetAddr ProviderTable Initdata.

Open Scope Z_scope.
Open Scope go_scope.

(** ** Paths and constants *)

Definition AACfgPath : string := "/run/peerpod/aa.toml".
Definition AuthFilePath : string := "/run/peerpod/auth.json".
Definition CDHCfgPath : string := "/run/peerpod/cdh.toml".
Definition InitDataPath : string := "/run/peerpod/initdata".
Definition ScratchSpacePath : string := "/run/peerpod/scratch-space.marker".
Definition ForwarderCfgPath : string := "/run/peerpod/apf.json".
Definition UserDataPath : string := "/media/cidata/user-data".

Definition ConfigParent : string := "/run/peerpod".
Definition DigestPath : string := "/run/peerpod/initdata.digest".
Definition PolicyPath : string := "/run/peerpod/policy.rego".
Definition AWSUserDataImdsUrl : string := "http://169.254.169.254/latest/user-data".
Definition AzureUserDataImdsUrl : string :=
  "http://169.254.169.254/metadata/instance/compute/userData?api-version=2021-01-01&format=text".
Definition GcpImdsUrl : string := "http://metadata.google.internal/computeMetadata/v1/instance".
Definition GcpUserDataImdsUrl : string :=
  "http://metadata.google.internal/computeMetadata/v1/instance/attributes/user-data".
Definition AlibabaCloudUserDataImdsUrl : string := "http://100.100.100.200/latest/user-data".

Definition WriteFilesList : list string :=
  [AACfgPath; CDHCfgPath; ForwarderCfgPath; AuthFilePath; InitDataPath; ScratchSpacePath].
Definition InitdDataFilesList : list string := [AACfgPath; CDHCfgPath; PolicyPath].

Record Config := mkConfig {
  fetchTimeout : Z;
  digestPath : string;
  initdataPath : string;
  parentPath : string;
  writeFiles : list string;
  initdataFiles : list string
}.

Definition NewConfig (timeout : Z) : Config :=
  mkConfig timeout DigestPath InitDataPath ConfigParent WriteFilesList InitdDataFilesList.

Record WriteFile := mkWriteFile { Path : string; Content : string }.
Record CloudConfig := mkCloudConfig { WriteFiles : list WriteFile }.

(** The providers of user data; each is an empty struct. *)
Inductive UserDataProvider :=
| FileUserDataProvider
| AzureUserDataProvider
| AWSUserDataProvider
| GCPUserDataProvider
| AlibabaCloudDataProvider.

(** ** The machine *)

Inductive HypervisorVendor := MSVM | KVM | OtherVendor.

Class PodVMEnv (W : Type) := {
  HypervisorVendorID : HypervisorVendor;
  vm_Stat : string -> M W (option GoError);
  vm_ReadFile : string -> M W (result string);
  (** an open file: what reading it to the end gives *)
  vm_Open : string -> M W (result (result string));
  vm_MkdirAll : string -> M W (option GoError);
  vm_WriteFile : string -> string -> M W (option GoError);
  (** the system manufacturer in the DMI table, or the error of reading it *)
  dmi_manufacturer : M W (result string);
  http_NewRequest : string -> option GoError;
  (** status code and body of the answer to a GET with headers *)
  http_Do : string -> list (string * string) -> M W (result (Z * result string));
  yaml_UnmarshalStrict : string -> result CloudConfig;
  (** retry-go: the attempts it makes, the check of the context before the first
      one and the wait between two, which ends early when the context is done *)
  retry_attempts : nat;
  retry_context : M W (option GoError);
  retry_wait : M W (option GoError)
}.

Record podvm (W : Type) := mkPodVM { machine : W; written : list (string * string) }.
Arguments mkPodVM {W} _ _.
Arguments machine {W} _.
Arguments written {W} _.

Section Provision.

Context {W : Type} `{PodVMEnv W} `{InitdataEnv} `{GoMapOrder}.

Notation st := (podvm W).

Definition on_machine {A} (m : M W A) : M st A := fun s =>
  let '(a, w') := m (machine s) in (a, mkPodVM w' (written s)).

(** ** imds.go *)

Definition StatusOK : Z := 200.

(** What is done with the answer of the metadata service. *)
Definition imds_answer (b64 : bool) (resp : Z * result string) : result string :=
  let '(code, body) := resp in
  if negb (code =? StatusOK) then Err (Errorf "endpoint %s returned != 200 status code: %s" [])
  else
    match body with
    | Err e => Err (Errorf "failed to read response body: %s" [])
    | Ok data =>
        if negb b64 then Ok data
        else match DecodeString data with
             | Ok decoded => Ok decoded
             | Err _ => Err (Errorf "failed to decode b64 encoded userData: %s" [])
             end
    end.

Definition imdsGet (url : string) (b64 : bool) (headers : list (string * string)) : M st (result string) :=
  if String.eqb url "" then mret (Err (Errorf "url is empty" []))
  else
    match http_NewRequest url with
    | Some _ => mret (Err (Errorf "failed to create request: %s" []))
    | None =>
        let* resp := on_machine (http_Do url headers) in
        mret match resp with
             | Err _ => Err (Errorf "failed to send request: %s" [])
             | Ok r => imds_answer b64 r
             end
    end.

(** ** heuristics.go *)

Definition ErrNotExist : string := "file does not exist".

Definition isAzureVM : bool :=
  match HypervisorVendorID with MSVM => true | _ => false end.

Definition manufactured_by (name : string) : M st bool :=
  let* t := on_machine dmi_manufacturer in
  mret match t with Err _ => false | Ok provider => String.eqb provider name end.

Definition isAWSVM : M st bool := manufactured_by "Amazon EC2".
Definition isAlibabaCloudVM : M st bool := manufactured_by "Alibaba Cloud".

Definition isGCPVM : M st bool :=
  match HypervisorVendorID with
  | KVM =>
      let* r := imdsGet GcpImdsUrl false [("Metadata-Flavor", "Google")%string] in
      mret (is_ok r)
  | _ => mret false
  end.

Definition hasUserDataFile : M st bool :=
  let* e := on_machine (vm_Stat UserDataPath) in
  mret match e with
       | Some err => negb (errors_Is ErrNotExist err)
       | None => true
       end.

(** ** provision.go *)

Definition GetUserData (p : UserDataProvider) : M st (result string) :=
  match p with
  | AzureUserDataProvider => imdsGet AzureUserDataImdsUrl true [("Metadata", "true")%string]
  | AWSUserDataProvider => imdsGet AWSUserDataImdsUrl false []
  | GCPUserDataProvider => imdsGet GcpUserDataImdsUrl true [("Metadata-Flavor", "Google")%string]
  | FileUserDataProvider =>
      let* r := on_machine (vm_ReadFile UserDataPath) in
      mret match r with
           | Err _ => Err (Errorf "failed to read file: %s" [])
           | Ok userData => Ok userData
           end
  | AlibabaCloudDataProvider => imdsGet AlibabaCloudUserDataImdsUrl false []
  end.

Definition newProvider : M st (result UserDataProvider) :=
  let* f := hasUserDataFile in
  if (f : bool) then mret (Ok FileUserDataProvider)
  else if isAzureVM then mret (Ok AzureUserDataProvider)
  else
    let* aws := isAWSVM in
    if (aws : bool) then mret (Ok AWSUserDataProvider)
    else
      let* gcp := isGCPVM in
      if (gcp : bool) then mret (Ok GCPUserDataProvider)
      else
        let* ali := isAlibabaCloudVM in
        if (ali : bool) then mret (Ok AlibabaCloudDataProvider)
        else mret (Err (Errorf "unsupported user data provider" [])).

Definition parseUserData (userData : string) : result CloudConfig := yaml_UnmarshalStrict userData.

(** One attempt: the user data must arrive and parse. *)
Definition retrieve_once (provider : UserDataProvider) : M st (result CloudConfig) :=
  let* ud := GetUserData provider in
  mret match ud with
       | Err e => Err (Errorf "failed to get user data: %w" [e])
       | Ok data =>
           match parseUserData data with
           | Err e => Err (Errorf "failed to parse user data: %w" [e])
           | Ok parsed => Ok parsed
           end
       end.

(** The attempts of retry-go with the options of the code: the last error is
    returned, or the context's error when it ends a wait. *)
Fixpoint retry_loop {A} (attempts : nat) (f : M st (result A)) : M st (result A) :=
  let* r := f in
  match r with
  | Ok a => mret (Ok a)
  | Err e =>
      match attempts with
      | O | S O => mret (Err e)
      | S rest =>
          let* c := on_machine retry_wait in
          match c with
          | Some ctxErr => mret (Err ctxErr)
          | None => retry_loop rest f
          end
      end
  end.

Definition retry_Do {A} (f : M st (result A)) : M st (result A) :=
  let* c := on_machine retry_context in
  match c with
  | Some ctxErr => mret (Err ctxErr)
  | None => retry_loop retry_attempts f
  end.

Definition retrieveCloudConfig (provider : UserDataProvider) : M st (result CloudConfig) :=
  retry_Do (retrieve_once provider).

Definition log_write (path bytes : string) : M st unit := fun s =>
  (tt, mkPodVM (machine s) (written s ++ [(path, bytes)])).

Definition writeFile (path bytes : string) : M st (option GoError) :=
  let* e := on_machine (vm_MkdirAll (filepath_Dir path)) in
  match e with
  | Some err => mret (Some (Errorf "failed to create directory: %w" [err]))
  | None =>
      let* _u := log_write path bytes in
      let* e := on_machine (vm_WriteFile path bytes) in
      mret match e with
           | Some err => Some (Errorf "failed to write file %s: %w" [err])
           | None => None
           end
  end.

Fixpoint isAllowed (path : string) (filesList : list string) : bool :=
  match filesList with
  | [] => false
  | listedFile :: rest => if String.eqb listedFile path then true else isAllowed path rest
  end.

(** The two loops of the program: write what is allowed, skip the rest, stop at
    the first error. *)
Fixpoint write_allowed (allowed : list string) (msg : string) (files : list (string * string))
    : M st (option GoError) :=
  match files with
  | [] => mret None
  | (path, bytes) :: rest =>
      if isAllowed path allowed then
        let* e := writeFile path bytes in
        match e with
        | Some err => mret (Some (Errorf msg [err]))
        | None => write_allowed allowed msg rest
        end
      else write_allowed allowed msg rest
  end.

Definition config_entries (cc : CloudConfig) : list (string * string) :=
  map (fun wf => (Path wf, Content wf)) (WriteFiles cc).

Definition processCloudConfig (cfg : Config) (cc : CloudConfig) : M st (option GoError) :=
  write_allowed (writeFiles cfg) "failed to write config file %s: %w" (config_entries cc).

Definition quoted (s : string) : string := String "034" (s +:+ String "034" EmptyString).
Definition line_feed : string := String "010" EmptyString.

Definition dummyToml : string :=
  "algorithm = " +:+ quoted "sha256" +:+ line_feed +:+
  "version = " +:+ quoted "0.1.0" +:+ line_feed +:+ line_feed +:+
  "[data]" +:+ line_feed +:+ quoted "aa.toml" +:+ " = '''" +:+ line_feed +:+ "'''".

Definition generateDummyInitdata (cfg : Config) : M st (option GoError) :=
  match Encode dummyToml with
  | Err err => mret (Some (Errorf "failed to encode dummy initdata: %w" [err]))
  | Ok encoded =>
      let* e := writeFile (initdataPath cfg) encoded in
      mret match e with
           | Some err => Some (Errorf "failed to write dummy initdata: %w" [err])
           | None => None
           end
  end.

(** The file of one entry of the document: its key joined to the directory. *)
Definition initdata_entries (cfg : Config) (id : InitData) : list (string * string) :=
  map (fun kv => (filepath_Join [parentPath cfg; fst kv], snd kv)) (map_order (Data (Body id))).

(** Parsing what an open file gives. *)
Definition parse_reader (reader : result string) : result InitData :=
  match reader with Ok content => Parse content | Err e => Err e end.

(** From the opened file on. *)
Definition extract_opened (cfg : Config) (reader : result string) : M st (option GoError) :=
  match parse_reader reader with
  | Err err => mret (Some (Errorf "Error parse initdata: %w" [err]))
  | Ok id =>
      let* e := write_allowed (initdataFiles cfg) "Error write a file in initdata: %w"
                  (initdata_entries cfg id) in
      match e with
      | Some err => mret (Some err)
      | None =>
          let* e := writeFile (digestPath cfg) (Digest id) in
          mret match e with
               | Some err => Some (Errorf "failed to write file %s: %w" [err])
               | None => None
               end
      end
  end.

Definition extractInitdataAndHash (cfg : Config) : M st (option GoError) :=
  let path := initdataPath cfg in
  let* e := on_machine (vm_Stat path) in
  let* g := match e with
            | None => mret None
            | Some err =>
                if errors_Is ErrNotExist err then
                  let* e' := generateDummyInitdata cfg in
                  mret match e' with
                       | Some err => Some (Errorf "failed to generate dummy initdata: %w" [err])
                       | None => None
                       end
                else mret (Some (Errorf "Error stat initdata file: %w" [err]))
            end in
  match g with
  | Some err => mret (Some err)
  | None =>
      let* f := on_machine (vm_Open path) in
      match f with
      | Err err => mret (Some (Errorf "Error read initdata file: %w" [err]))
      | Ok reader => extract_opened cfg reader
      end
  end.

(** The part of [ProvisionFiles] that a provider of user data adds. *)
Definition provision_config (cfg : Config) (provider : UserDataProvider) : M st (option GoError) :=
  let* r := retrieveCloudConfig provider in
  match r with
  | Err err => mret (Some (Errorf "failed to retrieve cloud config: %w" [err]))
  | Ok cc =>
      let* e := processCloudConfig cfg cc in
      mret match e with
           | Some err => Some (Errorf "failed to process cloud config: %w" [err])
           | None => None
           end
  end.

Definition ProvisionFiles (cfg : Config) : M st (option GoError) :=
  let* p := newProvider in
  let* c := match p with
            | Ok provider => provision_config cfg provider
            | Err _ => mret None
            end in
  match c with
  | Some err => mret (Some err)
  | None =>
      let* e := extractInitdataAndHash cfg in
      mret match e with
           | Some err => Some (Errorf "failed to extract initdata hash: %w" [err])
           | None => None
           end
  end.

End Provision.
