(* ===== verification/UserdataProps.v ===== *)
(** * Theorems of the provisioning of a pod VM

    - Confinement: whatever the user data and the initdata say, only the listed
      paths are written ([ProvisionFiles_confined]).
    - The files a successful run writes, in order, the digest last
      ([ProvisionFiles_success]).

    Confinement is an instance of a structural lemma, [ProvisionFiles_respects]:
    the program respects every preorder on states that its queries and its
    permitted writes respect. *)

From Stdlib Require Import ZArith Ascii String Lia.
From stdpp Require Import base gmap strings list.
From S2P Require Import Prelude NetAddr ProviderTable Initdata Userdata.

Open Scope Z_scope.
Open Scope go_scope.

(** ** Operations that only ask the machine *)

Section Respects.

Context {W : Type} `{PodVMEnv W} `{InitdataEnv} `{GoMapOrder}.

Notation st := (podvm W).

Inductive is_query : forall A, M W A -> Prop :=
| query_Stat p : is_query _ (vm_Stat p)
| query_ReadFile p : is_query _ (vm_ReadFile p)
| query_Open p : is_query _ (vm_Open p)
| query_dmi : is_query _ dmi_manufacturer
| query_http u h : is_query _ (http_Do u h)
| query_context : is_query _ retry_context
| query_wait : is_query _ retry_wait.

Definition respects (R : relation st) {A} (m : M st A) : Prop := forall s, R s (m s).2.

(** A preorder, the paths that may be written, and that queries and permitted
    writes respect the preorder. *)
Context (R : relation st) `{!PreOrder R} (cfg : Config).

Definition permitted (path : string) : Prop :=
  path ∈ writeFiles cfg ++ initdataFiles cfg ++ [initdataPath cfg; digestPath cfg].

Hypothesis query_respects : forall A (m : M W A), is_query A m -> respects R (on_machine m).
Hypothesis write_respects : forall p b, permitted p -> respects R (writeFile p b).

Lemma respects_ret {A} (a : A) : respects R (mret a).
Proof. intros s. cbn. reflexivity. Qed.

Lemma respects_bind {A B} (m : M st A) (k : A -> M st B) :
  respects R m -> (forall a, respects R (k a)) -> respects R (mbind m k).
Proof.
  intros Hm Hk s. unfold mbind. specialize (Hm s). destruct (m s) as [a s1].
  etransitivity; [exact Hm|]. apply Hk.
Qed.

Lemma isAllowed_elem path l : isAllowed path l = true -> path ∈ l.
Proof.
  induction l as [|x l IH]; [done|]. cbn [isAllowed].
  destruct (String.eqb_spec x path) as [->|]; [left|right; auto].
Qed.

Ltac respect :=
  repeat lazymatch goal with
  | |- respects _ (mret _) => apply respects_ret
  | |- respects _ (on_machine _) => apply query_respects; constructor
  | |- respects _ (mbind _ _) => apply respects_bind; [|intros ?]
  | |- respects _ (match ?x with _ => _ end) => destruct x
  end.

Lemma imdsGet_respects u b h : respects R (imdsGet u b h).
Proof. unfold imdsGet. respect. Qed.

Lemma newProvider_respects : respects R newProvider.
Proof.
  unfold newProvider, hasUserDataFile, isAWSVM, isAlibabaCloudVM, manufactured_by, isGCPVM.
  respect; apply imdsGet_respects.
Qed.

Lemma GetUserData_respects p : respects R (GetUserData p).
Proof. destruct p; cbn [GetUserData]; respect; apply imdsGet_respects. Qed.

Lemma retry_loop_respects {A} n (f : M st (result A)) : respects R f -> respects R (retry_loop n f).
Proof.
  intros Hf. induction n as [|n IH]; cbn [retry_loop]; respect; try exact Hf; exact IH.
Qed.

Lemma retrieveCloudConfig_respects p : respects R (retrieveCloudConfig p).
Proof.
  unfold retrieveCloudConfig, retry_Do, retrieve_once. respect.
  apply retry_loop_respects. respect. apply GetUserData_respects.
Qed.

Lemma write_allowed_respects allowed msg files :
  (forall p, p ∈ allowed -> permitted p) -> respects R (write_allowed allowed msg files).
Proof.
  intros Hp. induction files as [|[p b] files IH]; cbn [write_allowed]; [respect|].
  destruct (isAllowed p allowed) eqn:E; [|exact IH].
  respect; [by apply write_respects, Hp, isAllowed_elem|exact IH].
Qed.

Lemma extract_respects : respects R (extractInitdataAndHash cfg).
Proof.
  assert (Hid : permitted (initdataPath cfg)) by (unfold permitted; set_solver).
  assert (Hdig : permitted (digestPath cfg)) by (unfold permitted; set_solver).
  unfold extractInitdataAndHash, generateDummyInitdata, extract_opened.
  respect; first [by apply write_respects | apply write_allowed_respects].
  intros p Hp. unfold permitted. set_solver.
Qed.

Lemma ProvisionFiles_respects : respects R (ProvisionFiles cfg).
Proof.
  unfold ProvisionFiles, provision_config, processCloudConfig.
  respect; first [ apply newProvider_respects | apply retrieveCloudConfig_respects
                 | apply extract_respects | apply write_allowed_respects ].
  intros p Hp. unfold permitted. set_solver.
Qed.

End Respects.

(** ** Confinement *)

Section Confinement.

Context {W : Type} `{PodVMEnv W} `{InitdataEnv} `{GoMapOrder}.

Notation st := (podvm W).

(** The log grew by writes to paths that satisfy [P]. *)
Definition grows_by (P : string -> Prop) : relation st := fun s s' =>
  exists l, written s' = written s ++ l /\ Forall (fun w => P w.1) l.

#[local] Instance grows_by_preorder P : PreOrder (grows_by P).
Proof.
  split.
  - intros s. exists []. by rewrite app_nil_r.
  - intros s1 s2 s3 (l1 & E1 & F1) (l2 & E2 & F2). exists (l1 ++ l2).
    rewrite E2, E1, app_assoc. split; [done|]. by apply Forall_app.
Qed.

Lemma on_machine_written {A} (m : M W A) (s : st) : written (on_machine m s).2 = written s.
Proof. unfold on_machine. by destruct (m (machine s)). Qed.

Lemma writeFile_written p b (s : st) :
  exists l, written (writeFile p b s).2 = written s ++ l /\ (l = [] \/ l = [(p, b)]) /\
    ((writeFile p b s).1 = None -> l = [(p, b)]).
Proof.
  unfold writeFile, mbind, on_machine, log_write.
  destruct (vm_MkdirAll _ _) as [[e|] w1]; cbn.
  - exists []. rewrite app_nil_r. split_and!; auto; done.
  - destruct (vm_WriteFile p b w1) as [e w2]; cbn. exists [(p, b)]. auto.
Qed.

(** C13: Provisioning is confined.  Whatever the metadata service, the user data and
    the initdata contain (paths out of the directory, keys with dots, repeated
    entries), every file written by [ProvisionFiles] with the configuration of
    [NewConfig] is one of eight files of /run/peerpod: the six that user data may
    write, the policy and the digest. *)
Theorem ProvisionFiles_confined timeout (s : st) :
  exists l, written (ProvisionFiles (NewConfig timeout) s).2 = written s ++ l /\
    Forall (fun w => w.1 ∈ WriteFilesList ++ [PolicyPath; DigestPath] /\
                     filepath_Dir w.1 = ConfigParent) l.
Proof.
  apply (ProvisionFiles_respects
    (grows_by (fun p => p ∈ WriteFilesList ++ [PolicyPath; DigestPath] /\
                        filepath_Dir p = ConfigParent))).
  - intros A m _ s1. exists []. by rewrite on_machine_written, app_nil_r.
  - intros p b Hp s1. destruct (writeFile_written p b s1) as (l & E & Hl & _).
    exists l. split; [done|].
    assert (Hin : p ∈ WriteFilesList ++ [PolicyPath; DigestPath]).
    { unfold permitted in Hp. cbn [writeFiles initdataFiles initdataPath digestPath NewConfig] in Hp.
      unfold WriteFilesList, InitdDataFilesList in *. set_solver. }
    assert (Hdir : filepath_Dir p = ConfigParent).
    { clear -Hin. unfold WriteFilesList in Hin.
      repeat (apply elem_of_cons in Hin as [->|Hin]; [reflexivity|]). by apply elem_of_nil in Hin. }
    destruct Hl as [->| ->]; [constructor|by apply Forall_singleton].
Qed.

(** ** What a successful run writes *)

(** Queries write nothing: the log stays as it is. *)
Definition same_log : relation st := fun s s' => written s' = written s.

#[local] Instance same_log_preorder : PreOrder same_log.
Proof. split; [by intros ?|]. intros s1 s2 s3 E1 E2. unfold same_log in *. congruence. Qed.

Lemma queries_same_log A (m : M W A) : is_query A m -> respects same_log (on_machine m).
Proof. intros _ s. apply on_machine_written. Qed.

Lemma newProvider_written (s : st) : written (newProvider s).2 = written s.
Proof. exact (newProvider_respects same_log queries_same_log s). Qed.

Lemma retrieve_written p (s : st) : written (retrieveCloudConfig p s).2 = written s.
Proof. exact (retrieveCloudConfig_respects same_log queries_same_log p s). Qed.

(** A configuration that is returned was parsed from user data of the provider. *)
Lemma retry_loop_ok {A} n (f : M st (result A)) s a s' :
  retry_loop n f s = (Ok a, s') -> exists s0, f s0 = (Ok a, s').
Proof.
  revert s. induction n as [|n IH]; intros s; cbn [retry_loop]; unfold mbind;
    destruct (f s) as [[b|e] s1] eqn:E; [intros [= -> ->]; eauto|done|intros [= -> ->]; eauto|].
  destruct n as [|n]; [done|].
  destruct (on_machine retry_wait s1) as [[c|] s2]; [done|]. apply IH.
Qed.

Lemma retrieve_parsed p s cc s' :
  retrieveCloudConfig p s = (Ok cc, s') ->
  exists s0 data, (GetUserData p s0).1 = Ok data /\ yaml_UnmarshalStrict data = Ok cc.
Proof.
  unfold retrieveCloudConfig, retry_Do, mbind at 1.
  destruct (on_machine retry_context s) as [[c|] s1]; [done|].
  intros (s0 & E)%retry_loop_ok. exists s0. unfold retrieve_once, mbind, parseUserData in E.
  destruct (GetUserData p s0) as [[data|e] s2]; cbn in E; [|done].
  exists data. split; [done|]. destruct (yaml_UnmarshalStrict data); unfold mret in E; congruence.
Qed.

Definition allowed_only (allowed : list string) (files : list (string * string)) :
    list (string * string) :=
  List.filter (fun w => isAllowed w.1 allowed) files.

Lemma writeFile_ok p b (s s' : st) :
  writeFile p b s = (None, s') -> written s' = written s ++ [(p, b)].
Proof.
  intros E. destruct (writeFile_written p b s) as (l & El & _ & Hl).
  rewrite E in El, Hl. cbn [fst snd] in *. by rewrite El, Hl.
Qed.

Lemma write_allowed_ok allowed msg files s s' :
  write_allowed allowed msg files s = (None, s') ->
  written s' = written s ++ allowed_only allowed files.
Proof.
  revert s. induction files as [|[p b] files IH]; intros s; cbn [write_allowed allowed_only List.filter fst].
  - intros [= <-]. by rewrite app_nil_r.
  - destruct (isAllowed p allowed); [|apply IH].
    unfold mbind. destruct (writeFile p b s) as [[e|] s1] eqn:E; [done|].
    intros E'. rewrite (IH _ E'), (writeFile_ok _ _ _ _ E). by rewrite <- app_assoc.
Qed.

(** Nothing, or the generated initdata. *)
Definition dummy_write (cfg : Config) (l : list (string * string)) : Prop :=
  l = [] \/ exists e, Encode dummyToml = Ok e /\ l = [(initdataPath cfg, e)].

Lemma extract_opened_ok cfg reader s s' :
  extract_opened cfg reader s = (None, s') ->
  exists id, parse_reader reader = Ok id /\
    written s' = written s ++ allowed_only (initdataFiles cfg) (initdata_entries cfg id) ++
                 [(digestPath cfg, Digest id)].
Proof.
  unfold extract_opened. destruct (parse_reader reader) as [id|e]; [|done].
  unfold mbind. destruct (write_allowed _ _ _ s) as [[e|] s1] eqn:E1; [done|].
  destruct (writeFile _ _ s1) as [[e|] s2] eqn:E2; [done|]. intros [= <-].
  exists id. split; [done|].
  by rewrite (writeFile_ok _ _ _ _ E2), (write_allowed_ok _ _ _ _ _ E1), app_assoc.
Qed.

Lemma dummy_ok cfg (s s' : st) :
  generateDummyInitdata cfg s = (None, s') ->
  exists l, dummy_write cfg l /\ written s' = written s ++ l.
Proof.
  unfold generateDummyInitdata. destruct (Encode dummyToml) as [e|] eqn:Ee; [|done].
  unfold mbind. destruct (writeFile _ _ s) as [[x|] s1] eqn:E; [done|]. cbn. intros [= <-].
  exists [(initdataPath cfg, e)]. split; [|by apply writeFile_ok]. right. by exists e.
Qed.

Lemma extract_ok cfg s s' :
  extractInitdataAndHash cfg s = (None, s') ->
  exists l content id, dummy_write cfg l /\ Parse content = Ok id /\
    written s' = written s ++ l ++ allowed_only (initdataFiles cfg) (initdata_entries cfg id) ++
                 [(digestPath cfg, Digest id)].
Proof.
  unfold extractInitdataAndHash, mbind at 1.
  pose proof (on_machine_written (vm_Stat (initdataPath cfg)) s) as E0.
  destruct (on_machine (vm_Stat _) s) as [e s1]. cbn [snd] in E0.
  unfold mbind at 1. destruct (match e with None => mret None | Some _ => _ end s1)
    as [[g|] s2] eqn:Eg; [done|].
  assert (Hg : exists l, dummy_write cfg l /\ written s2 = written s1 ++ l).
  { destruct e as [err|].
    - destruct (errors_Is ErrNotExist err); [|done]. unfold mbind in Eg.
      destruct (generateDummyInitdata cfg s1) as [[x|] s3] eqn:Ed; [done|].
      injection Eg as <-. by apply dummy_ok.
    - injection Eg as <-. exists []. split; [by left|]. by rewrite app_nil_r. }
  destruct Hg as (l & Hl & E2). unfold mbind.
  pose proof (on_machine_written (vm_Open (initdataPath cfg)) s2) as E3.
  destruct (on_machine (vm_Open _) s2) as [[reader|err] s3]; [|done]. cbn [snd] in E3.
  intros (id & Hp & E4)%extract_opened_ok.
  destruct reader as [content|]; [|done]. exists l, content, id.
  split_and!; [done..|]. by rewrite E4, E3, E2, E0, !app_assoc.
Qed.

(** A run of [ProvisionFiles] that reports success wrote exactly, in this order:
    the entries of the user data whose path is on the list (none without a
    provider of user data), a generated initdata or nothing, the entries of the
    initdata whose file is on its list, and last the digest that belongs to the
    same initdata.  The configuration came from user data that parsed, and the
    initdata from a document that parsed. *)
Theorem ProvisionFiles_success cfg (s s' : st) :
  ProvisionFiles cfg s = (None, s') ->
  exists cc l content id,
    written s' = written s ++ allowed_only (writeFiles cfg) (config_entries cc) ++ l ++
                 allowed_only (initdataFiles cfg) (initdata_entries cfg id) ++
                 [(digestPath cfg, Digest id)] /\
    dummy_write cfg l /\ Parse content = Ok id /\
    match (newProvider s).1 with
    | Ok p => exists s0 data, (GetUserData p s0).1 = Ok data /\ yaml_UnmarshalStrict data = Ok cc
    | Err _ => cc = mkCloudConfig []
    end.
Proof.
  unfold ProvisionFiles, mbind at 1. pose proof (newProvider_written s) as E0.
  destruct (newProvider s) as [p s1]. cbn [fst snd] in *. unfold mbind at 1.
  destruct (match p with Ok _ => _ | Err _ => mret None end s1) as [[c|] s2] eqn:Ec; [done|].
  unfold mbind. destruct (extractInitdataAndHash cfg s2) as [[e|] s3] eqn:Ee; [done|].
  intros [= <-]. apply extract_ok in Ee as (l & content & id & Hl & Hp & E3).
  destruct p as [p|e].
  - unfold provision_config, mbind in Ec. pose proof (retrieve_written p s1) as E1.
    destruct (retrieveCloudConfig p s1) as [[cc|] s4] eqn:Er; [|done]. cbn [snd] in E1.
    destruct (processCloudConfig cfg cc s4) as [[x|] s5] eqn:Ew; [done|]. injection Ec as <-.
    apply write_allowed_ok in Ew. apply retrieve_parsed in Er.
    exists cc, l, content, id. split_and!; [|done..]. by rewrite E3, Ew, E1, E0, !app_assoc.
  - injection Ec as <-. exists (mkCloudConfig []), l, content, id.
    split_and!; [|done..]. by rewrite E3, E0.
Qed.

End Confinement.
