(* ===== verification/PodFiles.v ===== *)
(** * From the adaptor to the pod VM

    Composes three components: the files that the hypervisor service puts into a
    cloud-config ([CloudService.cloud_files]), the text a provider makes of them
    ([CloudInit.Generate]) and the program that unpacks the text in the pod VM
    ([Userdata.ProvisionFiles]).

    [PodVMLaws] describes a machine that works: its files as a map, what reading
    and writing do to it, a context that has not expired, and a YAML parser that
    agrees with the reader of CloudInit on the subset of YAML this one reads, whoever
    wrote the document.  [bench] is an executable machine with these laws. *)

From Stdlib Require Import ZArith Ascii String Lia.
From stdpp Require Import base gmap strings list fin_maps.
From S2P Require Import Prelude NetAddr ProviderTable Initdata CloudInit CloudService Userdata UserdataProps.

Open Scope Z_scope.
Open Scope go_scope.

(** ** Files between the components *)

(** A file of the service, as the generator gets it. *)
Definition to_cloudinit (f : CloudService.WriteFile) : CloudInit.WriteFile :=
  CloudInit.mkWriteFile (CloudService.Path f) (CloudService.Content f) "" "" "" "".

(** A file with a path and a content only, as the pod VM parses it. *)
Definition plain_file (f : CloudInit.WriteFile) : Prop :=
  CloudInit.Owner f = "" /\ CloudInit.Permissions f = "" /\
  CloudInit.Encoding f = "" /\ CloudInit.Append f = "".

#[export] Instance plain_file_dec f : Decision (plain_file f).
Proof. unfold plain_file. apply _. Defined.

Definition to_userdata (f : CloudInit.WriteFile) : Userdata.WriteFile :=
  Userdata.mkWriteFile (CloudInit.Path f) (CloudInit.Content f).

(** A file that the subset gives without quoting: an absolute path of plain characters and
    printable text. *)
Definition bare_file (f : CloudInit.WriteFile) : Prop :=
  plain_file f /\ HasPrefix (CloudInit.Path f) "/" = true /\ all_bytes plain_char (CloudInit.Path f) /\
  all_bytes text_char (CloudInit.Content f).

Class PodVMLaws (W : Type) `{PodVMEnv W} := {
  files : W -> gmap string string;
  query_files : forall A (m : M W A), is_query A m -> forall w, files (m w).2 = files w;
  Stat_present : forall p w, is_Some (files w !! p) -> (vm_Stat p w).1 = None;
  Open_present : forall p w c, files w !! p = Some c -> (vm_Open p w).1 = Ok (Ok c);
  MkdirAll_works : forall d w, (vm_MkdirAll d w).1 = None /\ files (vm_MkdirAll d w).2 = files w;
  WriteFile_works : forall p b w,
    (vm_WriteFile p b w).1 = None /\ files (vm_WriteFile p b w).2 = <[p := b]> (files w);
  context_alive : forall w, (retry_context w).1 = None;
  yaml_reads_subset : forall body cc,
    read_document (body +:+ nl) = Some cc -> Forall bare_file (CloudInit.WriteFiles cc) ->
    yaml_UnmarshalStrict (body +:+ nl) = Ok (Userdata.mkCloudConfig (map to_userdata (CloudInit.WriteFiles cc)))
}.

(** ** The files after a list of writes *)

Definition replay (l : list (string * string)) (m : gmap string string) : gmap string string :=
  foldl (fun m w => <[w.1 := w.2]> m) m l.

Lemma replay_app l1 l2 m : replay (l1 ++ l2) m = replay l2 (replay l1 m).
Proof. apply foldl_app. Qed.

Lemma replay_other l m p : p ∉ map fst l -> replay l m !! p = m !! p.
Proof.
  revert m. induction l as [|[q b] l IH]; intros m Hp; [done|]. cbn [fst map] in Hp.
  change (replay l (<[q := b]> m) !! p = m !! p). rewrite IH by set_solver. apply lookup_insert_ne. set_solver.
Qed.

Lemma replay_last l1 p b l2 m : p ∉ map fst l2 -> replay (l1 ++ (p, b) :: l2) m !! p = Some b.
Proof.
  intros Hp. rewrite replay_app. change (replay l2 (<[p := b]> (replay l1 m)) !! p = Some b).
  rewrite replay_other by done.
  apply lookup_insert_eq.
Qed.

Lemma replay_elem l p b m : NoDup (map fst l) -> (p, b) ∈ l -> replay l m !! p = Some b.
Proof.
  intros Hnd (l1 & l2 & ->)%list_elem_of_split. apply replay_last.
  rewrite map_app in Hnd. apply NoDup_app in Hnd as (_ & _ & Hnd). cbn [map fst] in Hnd.
  by apply NoDup_cons in Hnd as [Hp _].
Qed.

(** ** Line breaks do not change an encoded document *)

Lemma skip_newlines_app s t : skip_newlines (s +:+ t) = skip_newlines s +:+ skip_newlines t.
Proof.
  induction s as [|c s IH]; [done|]. rewrite string_app_cons. cbn [skip_newlines].
  destruct (is_newline c); [done|]. by rewrite IH, string_app_cons.
Qed.

Definition glue (ls : list string) : string := foldr (fun l rest => skip_newlines l +:+ rest) "" ls.

Lemma glue_app l1 l2 : glue (l1 ++ l2) = glue l1 +:+ glue l2.
Proof.
  induction l1 as [|l l1 IH]; [done|]. cbn [app glue foldr]. fold (glue (l1 ++ l2)) (glue l1).
  by rewrite IH, string_app_assoc.
Qed.

Lemma glue_split s : glue (split_on newline s) = skip_newlines s.
Proof.
  induction s as [|c s IH]; [done|]. cbn [split_on skip_newlines].
  destruct (Ascii.eqb_spec c newline) as [->|Hc]; [exact IH|].
  destruct (split_on newline s) as [|w ws] eqn:E; cbn [glue foldr skip_newlines] in *.
  - rewrite <- IH. by destruct (is_newline c).
  - rewrite <- IH. by destruct (is_newline c).
Qed.

Lemma glue_splitLines s : glue (splitLines s) = skip_newlines s.
Proof.
  rewrite <- glue_split. unfold splitLines.
  destruct (rev (split_on newline s)) as [|l front] eqn:E.
  - apply (f_equal (@rev _)) in E. rewrite rev_involutive in E. by rewrite E.
  - destruct (String.eqb_spec l "") as [->|]; [|done].
    apply (f_equal (@rev _)) in E. rewrite rev_involutive in E. rewrite E. cbn [rev].
    rewrite glue_app. cbn [glue foldr skip_newlines]. by rewrite string_app_nil_r.
Qed.

Lemma glue_drop_empty ls : glue (rev (drop_empty ls)) = glue (rev ls).
Proof.
  induction ls as [|[|c l] ls IH]; [done| |done]. cbn [drop_empty rev].
  rewrite IH, glue_app. cbn [glue foldr skip_newlines]. by rewrite string_app_nil_r.
Qed.

Lemma skip_newlines_clip_lines ls : skip_newlines (clip_lines ls) = glue ls.
Proof.
  unfold clip_lines. transitivity (glue (rev (drop_empty (rev ls)))).
  - induction (rev (drop_empty (rev ls))) as [|l ks IH]; [done|]. cbn [foldr glue].
    fold (glue ks). by rewrite !skip_newlines_app, IH.
  - by rewrite glue_drop_empty, rev_involutive.
Qed.

Lemma skip_newlines_clip s : skip_newlines (clip s) = skip_newlines s.
Proof.
  unfold clip. destruct (String.eqb_spec s "") as [->|]; [done|].
  by rewrite skip_newlines_clip_lines, glue_splitLines.
Qed.

Lemma Parse_clip `{InitdataEnv} c : Parse (clip c) = Parse c.
Proof. unfold Parse, decode, DecodeString. by rewrite skip_newlines_clip. Qed.

(** ** A machine that works *)

Section Working.

Context {W : Type} `{PodVMLaws W} `{InitdataEnv} `{GoMapOrder}.

Notation st := (podvm W).

Lemma on_machine_query {A} (m : M W A) (s : st) :
  is_query A m -> files (machine (on_machine m s).2) = files (machine s).
Proof.
  intros Hm. unfold on_machine. pose proof (query_files A m Hm (machine s)) as E.
  by destruct (m (machine s)).
Qed.

Lemma on_machine_value {A} (m : M W A) (s : st) : (on_machine m s).1 = (m (machine s)).1.
Proof. unfold on_machine. by destruct (m (machine s)). Qed.

Definition same_files : relation st := fun s s' => files (machine s') = files (machine s).

#[local] Instance same_files_preorder : PreOrder same_files.
Proof. split; [by intros ?|]. intros s1 s2 s3 E1 E2. unfold same_files in *. congruence. Qed.

Lemma queries_same_files A (m : M W A) : is_query A m -> respects same_files (on_machine m).
Proof. intros Hm s. by apply on_machine_query. Qed.

Lemma writeFile_works p b (s : st) :
  exists s', writeFile p b s = (None, s') /\ files (machine s') = <[p := b]> (files (machine s)).
Proof.
  unfold writeFile, mbind, on_machine, log_write.
  destruct (MkdirAll_works (filepath_Dir p) (machine s)) as [Em Ef].
  destruct (vm_MkdirAll (filepath_Dir p) (machine s)) as [e w1]. cbn [fst snd] in *. subst e.
  cbn [machine written]. destruct (WriteFile_works p b w1) as [Ew Ef'].
  destruct (vm_WriteFile p b w1) as [e w2]. cbn [fst snd] in *. subst e.
  eexists. split; [done|]. cbn [machine]. by rewrite Ef', Ef.
Qed.

Lemma write_allowed_works allowed msg l (s : st) :
  exists s', write_allowed allowed msg l s = (None, s') /\
    files (machine s') = replay (allowed_only allowed l) (files (machine s)).
Proof.
  revert s. induction l as [|[p b] l IH]; intros s; cbn [write_allowed allowed_only List.filter fst].
  - by exists s.
  - destruct (isAllowed p allowed); [|apply IH]. unfold mbind.
    destruct (writeFile_works p b s) as (s1 & -> & E1).
    destruct (IH s1) as (s2 & E2 & E2'). exists s2. split; [done|].
    rewrite E2', E1. reflexivity.
Qed.

Lemma extract_works cfg (s : st) content id :
  files (machine s) !! initdataPath cfg = Some content -> Parse content = Ok id ->
  exists s', extractInitdataAndHash cfg s = (None, s') /\
    files (machine s') =
      <[digestPath cfg := Digest id]>
        (replay (allowed_only (initdataFiles cfg) (initdata_entries cfg id)) (files (machine s))).
Proof.
  intros Hc Hp. unfold extractInitdataAndHash, mbind at 1.
  pose proof (on_machine_query _ s (query_Stat (initdataPath cfg))) as E1.
  pose proof (on_machine_value (vm_Stat (initdataPath cfg)) s) as V1.
  rewrite Stat_present in V1 by done.
  destruct (on_machine (vm_Stat _) s) as [e s1]. cbn [fst snd] in *. subst e.
  unfold mbind at 1, mret at 1, mbind at 1.
  pose proof (on_machine_query _ s1 (query_Open (initdataPath cfg))) as E2.
  pose proof (on_machine_value (vm_Open (initdataPath cfg)) s1) as V2.
  rewrite (Open_present _ _ content) in V2 by (by rewrite E1).
  destruct (on_machine (vm_Open _) s1) as [r s2]. cbn [fst snd] in *. subst r.
  unfold extract_opened. cbn [parse_reader]. rewrite Hp. unfold mbind.
  destruct (write_allowed_works (initdataFiles cfg) "Error write a file in initdata: %w"
              (initdata_entries cfg id) s2) as (s3 & -> & E3).
  destruct (writeFile_works (digestPath cfg) (Digest id) s3) as (s4 & -> & E4).
  exists s4. split; [done|]. by rewrite E4, E3, E2, E1.
Qed.

(** User data that is there is retrieved at the first attempt. *)
Lemma retrieve_works p text cc (s : st) :
  (forall s0, files (machine s0) = files (machine s) -> (GetUserData p s0).1 = Ok text) ->
  yaml_UnmarshalStrict text = Ok cc ->
  exists s', retrieveCloudConfig p s = (Ok cc, s') /\ files (machine s') = files (machine s).
Proof.
  intros Hd Hy. pose proof (retrieveCloudConfig_respects same_files queries_same_files p s) as Hf.
  enough (E : (retrieveCloudConfig p s).1 = Ok cc).
  { destruct (retrieveCloudConfig p s) as [r s']. cbn [fst snd] in *. subst. by exists s'. }
  unfold retrieveCloudConfig, retry_Do, mbind at 1.
  pose proof (on_machine_value retry_context s) as Vc. rewrite context_alive in Vc.
  pose proof (on_machine_query _ s query_context) as Fc.
  destruct (on_machine retry_context s) as [c s1]. cbn [fst snd] in *. subst c.
  assert (Er : (retrieve_once p s1).1 = Ok cc).
  { unfold retrieve_once, mbind, parseUserData. specialize (Hd s1 Fc).
    destruct (GetUserData p s1) as [r s2]. cbn [fst] in Hd. subst r. cbn [mret fst]. by rewrite Hy. }
  destruct retry_attempts as [|n]; cbn [retry_loop]; unfold mbind;
    destruct (retrieve_once p s1) as [r s2]; cbn [fst] in Er; by subst r.
Qed.

Lemma process_works timeout cc (s : st) :
  exists s', processCloudConfig (NewConfig timeout) cc s = (None, s') /\
    files (machine s') = replay (allowed_only WriteFilesList (config_entries cc)) (files (machine s)).
Proof. apply write_allowed_works. Qed.

(** The paths of the service's files, in order. *)
Lemma cloud_files_paths cfg apfJSON authJSON initdata :
  sublist (map CloudService.Path (cloud_files cfg apfJSON authJSON initdata))
    [DefaultConfigPath; CloudService.AuthFilePath; CloudService.InitDataPath;
     CloudService.ScratchSpacePath].
Proof.
  unfold cloud_files. rewrite !map_app.
  set (chosen := if (String.eqb initdata "" && _)%bool then _ else _). clearbody chosen.
  destruct authJSON as [auth|]; [destruct (_ <? _)|]; destruct (String.eqb chosen "");
    destruct (EnableScratchSpace cfg); cbn [map app CloudService.Path];
    repeat constructor.
Qed.

(** What the pod VM parses out of the rendered files. *)
Definition delivered (fs : list CloudService.WriteFile) : Userdata.CloudConfig :=
  Userdata.mkCloudConfig (map (fun f => to_userdata (clip_file f)) (map to_cloudinit fs)).

Lemma delivered_entries fs :
  config_entries (delivered fs) =
  map (fun f => (CloudService.Path f, clip (CloudService.Content f))) fs.
Proof. unfold config_entries, delivered. cbn [Userdata.WriteFiles]. by rewrite !map_map. Qed.

(** Every file of the service is on the list of the pod VM. *)
Lemma allowed_delivered cfg apfJSON authJSON initdata :
  let fs := cloud_files cfg apfJSON authJSON initdata in
  allowed_only WriteFilesList (config_entries (delivered fs)) = config_entries (delivered fs).
Proof.
  cbv zeta. pose proof (cloud_files_paths cfg apfJSON authJSON initdata) as Hsub.
  set (fs := cloud_files _ _ _ _) in *. rewrite delivered_entries.
  assert (Hin : Forall (fun p => isAllowed p WriteFilesList = true) (map CloudService.Path fs)).
  { apply Forall_forall. intros p Hp.
    apply (elem_of_sublist _ _ _ Hp) in Hsub. clear Hp. revert p Hsub. apply Forall_forall.
    repeat constructor. }
  unfold allowed_only. clearbody fs. clear Hsub. induction fs as [|f fs IH]; [done|].
  cbn [map] in *. apply Forall_cons in Hin as [Hf Hin]. cbn [List.filter fst].
  by rewrite Hf, IH.
Qed.

(** The pod VM parses what the provider rendered. *)
Lemma rendered_parses fs text :
  Forall renderable fs -> Forall plain_file fs -> Forall (fun f => HasPrefix (CloudInit.Path f) "/" = true) fs ->
  Generate (CloudInit.mkCloudConfig fs) = Ok text ->
  yaml_UnmarshalStrict text = Ok (Userdata.mkCloudConfig (map (fun f => to_userdata (clip_file f)) fs)).
Proof.
  intros Hr Hp Hs Hg. destruct (Generate_read fs Hr) as (t & Hg' & Ht). rewrite Hg in Hg'. injection Hg' as <-.
  assert (exists body, text = body +:+ nl) as [body ->].
  { unfold Generate, cloudInitText in Hg. injection Hg as <-. rewrite <- string_app_assoc. by eexists. }
  rewrite (yaml_reads_subset _ _ Ht); cbn [CloudInit.WriteFiles]; [by rewrite map_map|].
  apply Forall_map, Forall_forall. intros f Hf. rewrite Forall_forall in Hr, Hp, Hs.
  destruct (Hr f Hf) as (Hpath & Htext & _). split_and!; [exact (Hp f Hf)|exact (Hs f Hf)|by apply List.Forall_cons_iff in Hpath as [? _]|].
  by apply clip_bytes.
Qed.

Lemma cloud_files_absolute cfg apfJSON authJSON initdata :
  Forall (fun f => HasPrefix (CloudInit.Path f) "/" = true) (map to_cloudinit (cloud_files cfg apfJSON authJSON initdata)).
Proof.
  pose proof (cloud_files_paths cfg apfJSON authJSON initdata) as Hsub. apply Forall_map, Forall_forall. intros f Hf.
  assert (Hp : CloudService.Path f ∈ map CloudService.Path (cloud_files cfg apfJSON authJSON initdata)) by (apply list_elem_of_fmap; by exists f).
  apply (elem_of_sublist _ _ _ Hp) in Hsub. clear Hp. cbn.
  repeat (apply elem_of_cons in Hsub as [->|Hsub]; [reflexivity|]). by apply elem_of_nil in Hsub.
Qed.

Lemma initdata_paths cfg id p :
  p ∈ map fst (allowed_only (initdataFiles cfg) (initdata_entries cfg id)) -> p ∈ initdataFiles cfg.
Proof.
  intros ([q b] & -> & Hq)%list_elem_of_fmap. unfold allowed_only in Hq.
  apply list_elem_of_In, filter_In in Hq as [_ Hq]. by apply isAllowed_elem.
Qed.


End Working.

(** ** An executable machine *)

(** A machine is its files; the user data is the file of a NoCloud disk. *)
Definition parse_plain (text : string) : result Userdata.CloudConfig :=
  match read_document text with
  | Some cc =>
      if forallb (fun f => bool_decide (plain_file f)) (CloudInit.WriteFiles cc)
      then Ok (Userdata.mkCloudConfig (map to_userdata (CloudInit.WriteFiles cc)))
      else Err (Sentinel "yaml: unknown field")
  | None => Err (Sentinel "yaml: invalid document")
  end.

Definition missing : GoError := Errorf "stat: %w" [Sentinel ErrNotExist].

#[local] Instance bench : PodVMEnv (gmap string string) := {|
  HypervisorVendorID := OtherVendor;
  vm_Stat := fun p w => (match w !! p with Some _ => None | None => Some missing end, w);
  vm_ReadFile := fun p w => (match w !! p with Some c => Ok c | None => Err missing end, w);
  vm_Open := fun p w => (match w !! p with Some c => Ok (Ok c) | None => Err missing end, w);
  vm_MkdirAll := fun _ w => (None, w);
  vm_WriteFile := fun p b w => (None, <[p := b]> w);
  dmi_manufacturer := fun w => (Err (Sentinel "no table"), w);
  http_NewRequest := fun _ => None;
  http_Do := fun _ _ w => (Err (Sentinel "no route"), w);
  yaml_UnmarshalStrict := parse_plain;
  retry_attempts := 10;
  retry_context := fun w => (None, w);
  retry_wait := fun w => (None, w)
|}.

#[local, program] Instance bench_laws : PodVMLaws (gmap string string) := {| files := fun w => w |}.
Next Obligation. intros A m Hm w. by destruct Hm. Qed.
Next Obligation. intros p w [c E]. cbn. by rewrite E. Qed.
Next Obligation. intros p w c E. cbn. by rewrite E. Qed.
Next Obligation. done. Qed.
Next Obligation. done. Qed.
Next Obligation. done. Qed.
Next Obligation.
  intros body cc Hr Hp. cbn [yaml_UnmarshalStrict bench]. unfold parse_plain. rewrite Hr.
  assert (E : forallb (fun f => bool_decide (plain_file f)) (CloudInit.WriteFiles cc) = true).
  { apply forallb_forall. intros f Hf. apply bool_decide_eq_true. rewrite Forall_forall in Hp. apply (Hp f). by apply list_elem_of_In. }
  by rewrite E.
Qed.

(** A document of one allowed file and one that is not, encoded, and the files of
    a pod that carries it. *)
Definition demo_body : InitDataBody :=
  mkBody "sha256" "0.1.0" {["aa.toml"%string := "url"%string; "../../etc/passwd"%string := "x"%string]}.
#[local] Instance demo_env : InitdataEnv := bench_initdata [("data"%string, demo_body)].

Definition demo_initdata : string := "H4tkYXRh".
Definition demo_files : list CloudService.WriteFile :=
  cloud_files (mkServerConfig "/run/peerpod/pods" "15150" "" false "" "" true) "{ }" None demo_initdata.

Definition demo_text : string :=
  match Generate (CloudInit.mkCloudConfig (map to_cloudinit demo_files)) with Ok t => t | Err _ => "" end.
Definition demo_vm : podvm (gmap string string) := mkPodVM {[UserDataPath := demo_text]} [].


Example ProvisionFiles_success_witness :
  let s' := (ProvisionFiles (NewConfig 180) demo_vm).2 in
  exists cc l content id,
    written s' = allowed_only WriteFilesList (config_entries cc) ++ l ++
      allowed_only InitdDataFilesList (initdata_entries (NewConfig 180) id) ++ [(DigestPath, Digest id)] /\
    dummy_write (NewConfig 180) l /\ Parse content = Ok id /\
    exists s0 data, (GetUserData FileUserDataProvider s0).1 = Ok data /\ yaml_UnmarshalStrict data = Ok cc.
Proof.
  assert (Hp : (newProvider demo_vm).1 = Ok FileUserDataProvider) by (vm_compute; reflexivity).
  destruct (ProvisionFiles_success (NewConfig 180) demo_vm (ProvisionFiles (NewConfig 180) demo_vm).2)
    as (cc & l & content & id & E & Hl & Hc & Hd); [vm_compute; reflexivity|].
  rewrite Hp in Hd. exists cc, l, content, id. split_and!; [exact E|exact Hl|exact Hc|exact Hd].
Defined.

(** Only the permitted entries were written, the key with dots was not. *)
Example demo_written :
  map fst (written (ProvisionFiles (NewConfig 180) demo_vm).2) =
  [ForwarderCfgPath; InitDataPath; ScratchSpacePath; AACfgPath; DigestPath].
Proof. vm_compute. reflexivity. Qed.
