(* ===== verification/AgentProto.v ===== *)
(** * The agent protocol and its redirector

    Models src/cloud-api-adaptor/pkg/util/agentproto/redirector.go: the object that
    answers kata's agent protocol by passing every request to a connection that is
    dialled at the first use.  It is the base of the proxy on the worker node
    ([AgentProxy]) and of the interceptor in the pod VM ([Forwarder]).

    The methods are an inductive type; the requests that the two layers above look
    into are records, the others are opaque.  The state keeps the Go fields
    ([once], [agentClient], [ttrpcClient]) and logs how often the dialer ran and
    which requests were sent. *)

From Stdlib Require Import ZArith Ascii String Lia.
From stdpp Require Import base gmap strings list.
From S2P Require Import Prelude.

Open Scope Z_scope.
Open Scope go_scope.

(** ** The protocol *)

Inductive agent_method :=
| CreateContainer | StartContainer | RemoveContainer | ExecProcess | SignalProcess
| WaitProcess | UpdateContainer | UpdateEphemeralMounts | StatsContainer | PauseContainer
| ResumeContainer | RemoveStaleVirtiofsShareMounts | WriteStdin | ReadStdout | ReadStderr
| CloseStdin | TtyWinResize | UpdateInterface | UpdateRoutes | ListInterfaces | ListRoutes
| AddARPNeighbors | GetIPTables | SetIPTables | GetMetrics | MemAgentMemcgSet
| MemAgentCompactSet | CreateSandbox | DestroySandbox | OnlineCPUMem | ReseedRandomDev
| GetGuestDetails | MemHotplugByProbe | SetGuestDateTime | CopyFile | GetOOMEvent | AddSwap
| AddSwapPath | GetVolumeStats | ResizeVolume | SetPolicy | Check | Version.

#[export] Instance agent_method_eq_dec : EqDecision agent_method.
Proof. solve_decision. Defined.

Record Mount := mkMount { Destination : string; Source : string; Type_ : string }.
Record LinuxNamespace := mkNamespace { ns_Type : string; ns_Path : string }.

(** [other] stands for the fields that no code of the repository reads. *)
Record Linux := mkLinux { Namespaces : list LinuxNamespace; linux_other : string }.

(** A nil pointer or a nil map is [None]. *)
Record Spec := mkSpec {
  Mounts : list Mount;
  Annotations : option (gmap string string);
  spec_Linux : option Linux;
  spec_other : string
}.

Record Storage := mkStorage { Driver : string; storage_other : string }.

Record CreateContainerRequest := mkCreateContainer {
  ContainerId : string;
  OCI : option Spec;
  Storages : list Storage;
  container_other : string
}.

Record CreateSandboxRequest := mkCreateSandbox {
  Hostname : string;
  SandboxId : string;
  Dns : list string;
  sandbox_other : string
}.

(** A connection to an agent, with the generated client of the protocol. *)
Class AgentEnv (W : Type) := {
  Conn : Type;
  OtherReq : agent_method -> Type;
  Res : agent_method -> Type;
  Req := fun m : agent_method => match m return Type with
         | CreateContainer => CreateContainerRequest
         | CreateSandbox => CreateSandboxRequest
         | m => OtherReq m
         end;
  dialer : M W (result Conn);
  client_call : Conn -> forall m, Req m -> M W (result (Res m));
  client_Close : Conn -> M W (option GoError)
}.

(** A request sent on the connection. *)
Inductive sent `{AgentEnv W} := Sent (m : agent_method) (req : Req m).

Section Redirector.

Context {W : Type} `{AgentEnv W}.

(** [agentClient] and [ttrpcClient] are set together, from one connection. *)
Record redirector := mkRedirector {
  once : bool;
  agentClient : option Conn;
  dials : nat;
  log : list sent;
  net : W
}.

Definition NewRedirector (w : W) : redirector := mkRedirector false None 0 [] w.

(** The function that [once] runs: its result is the captured [err]. *)
Definition connect_once : M redirector (option GoError) := fun s =>
  if once s then (None, s)
  else
    let '(r, w) := dialer (net s) in
    match r with
    | Err e => (Some e, mkRedirector true (agentClient s) (S (dials s)) (log s) w)
    | Ok conn => (None, mkRedirector true (Some conn) (S (dials s)) (log s) w)
    end.

Definition not_established : string := "agent connection is not established".

Definition Connect : M redirector (option GoError) :=
  let* e := connect_once in
  fun s =>
    match e with
    | Some err => (Some (Errorf "agent connection is not established: %w" [err]), s)
    | None =>
        match agentClient s with
        | None => (Some (Sentinel not_established), s)
        | Some _ => (None, s)
        end
    end.

Definition Close : M redirector (option GoError) := fun s =>
  match agentClient s with
  | None => (None, s)
  | Some client =>
      let '(e, w) := client_Close client (net s) in
      (e, mkRedirector (once s) (agentClient s) (dials s) (log s) w)
  end.

(** A call of the generated client; a nil client is a nil dereference. *)
Definition agent_call (m : agent_method) (req : Req m) : M redirector (outcome (result (Res m))) :=
  fun s =>
    match agentClient s with
    | None => (Panic, s)
    | Some client =>
        let '(r, w) := client_call client m req (net s) in
        (Return r, mkRedirector (once s) (agentClient s) (dials s) (log s ++ [Sent m req]) w)
    end.

(** Every method of the protocol: connect, then pass the request on. *)
Definition redirect (m : agent_method) (req : Req m) : M redirector (outcome (result (Res m))) :=
  let* e := Connect in
  match e with
  | Some err => mret (Return (Err err))
  | None => agent_call m req
  end.

(** ** Uses of a redirector *)

Inductive operation :=
| OpConnect
| OpClose
| OpCall (m : agent_method) (req : Req m).

(** What the caller sees of one operation. *)
Inductive answer := Answered (ok : bool) | Crashed.

Definition error_answer (e : option GoError) : answer :=
  Answered (match e with None => true | Some _ => false end).

Definition operate (o : operation) : M redirector answer :=
  match o with
  | OpConnect => let* e := Connect in mret (error_answer e)
  | OpClose => let* e := Close in mret (error_answer e)
  | OpCall m req =>
      let* r := redirect m req in
      mret match r with Return r => Answered (is_ok r) | Panic => Crashed end
  end.

Fixpoint operations (os : list operation) : M redirector (list answer) :=
  match os with
  | [] => mret []
  | o :: rest =>
      let* a := operate o in
      let* l := operations rest in
      mret (a :: l)
  end.

(** The requests among the operations, in order. *)
Fixpoint requests (os : list operation) : list sent :=
  match os with
  | [] => []
  | OpCall m req :: rest => Sent m req :: requests rest
  | _ :: rest => requests rest
  end.

(** ** Invariant *)

(** Nothing was dialled or sent before the first use; at most one dial; nothing was
    sent without a connection. *)
Definition redirector_inv (s : redirector) : Prop :=
  (once s = false -> agentClient s = None /\ dials s = 0%nat) /\
  (dials s <= 1)%nat /\ (agentClient s = None -> log s = []).

Lemma New_inv w : redirector_inv (NewRedirector w).
Proof. repeat split. cbn. lia. Qed.

Lemma Connect_inv s : redirector_inv s ->
  let s' := (Connect s).2 in
  redirector_inv s' /\ log s' = log s /\ once s' = true /\
  ((Connect s).1 = None <-> is_Some (agentClient s')).
Proof.
  intros (Hfresh & Hd & Hlog). unfold Connect, mbind, connect_once, redirector_inv.
  destruct (once s) eqn:Eo.
  - destruct (agentClient s) eqn:Ec; cbn; rewrite ?Eo, ?Ec; split_and!; try done; by split.
  - destruct (Hfresh eq_refl) as [Ec Ed]. destruct (dialer (net s)) as [[conn|e] w]; cbn.
    + split_and!; try done; try lia; by split.
    + rewrite Ec. split_and!; try done; try lia; auto.
Qed.

Lemma Close_same s :
  let s' := (Close s).2 in
  once s' = once s /\ agentClient s' = agentClient s /\ dials s' = dials s /\ log s' = log s.
Proof. unfold Close. destruct (agentClient s) eqn:E; [destruct (client_Close _ _)|]; cbn; auto. Qed.

(** A call sends its request exactly when there is a connection after connecting,
    and never runs into a nil client. *)
Lemma redirect_inv m req s : redirector_inv s ->
  let s' := (redirect m req s).2 in
  redirector_inv s' /\ once s' = true /\ (redirect m req s).1 <> Panic /\
  (if agentClient s' then log s' = log s ++ [Sent m req] else log s' = log s).
Proof.
  intros Hs. destruct (Connect_inv s Hs) as (Hi & Hl & Ho & Hc).
  unfold redirect, mbind. destruct (Connect s) as [[e|] s1]; cbn [fst snd] in *.
  - cbn. split_and!; try done. destruct (agentClient s1) as [c|]; [|done].
    discriminate (proj2 Hc (mk_is_Some _ c eq_refl)).
  - destruct Hc as [Hc _]. destruct (Hc eq_refl) as [conn Ec]. unfold agent_call. rewrite Ec.
    destruct (client_call conn m req (net s1)) as [r w]. cbn. unfold redirector_inv in *. cbn.
    rewrite Hl. split_and!; naive_solver.
Qed.

Lemma operate_inv o s : redirector_inv s ->
  let s' := (operate o s).2 in
  redirector_inv s' /\ (operate o s).1 <> Crashed /\
  (log s' = log s \/ log s' = log s ++ requests [o]).
Proof.
  intros Hs. destruct o as [| |m req]; cbn [operate requests]; unfold mbind.
  - destruct (Connect_inv s Hs) as (Hi & Hl & _). destruct (Connect s) as [e s1]; cbn in *. auto.
  - destruct (Close_same s) as (Eo & Ec & Ed & El). destruct (Close s) as [e s1]; cbn in *.
    unfold redirector_inv in *. rewrite Eo, Ec, Ed, El. split_and!; naive_solver.
  - destruct (redirect_inv m req s Hs) as (Hi & _ & Hn & Hl).
    destruct (redirect m req s) as [[r|] s1]; cbn in *; [|done].
    split_and!; [done..|]. destruct (agentClient s1); auto.
Qed.

(** However a redirector is used (any sequence of Connect, Close and requests, with
    any answers of the dialer and of the agent), it dials at most once, sends
    nothing without a connection, sends requests only in the order in which they
    came and unchanged, and never dereferences its nil client. *)
Theorem redirector_safe w os :
  let '(answers, s') := operations os (NewRedirector w) in
  (dials s' <= 1)%nat /\ (agentClient s' = None -> log s' = []) /\
  sublist (log s') (requests os) /\ Crashed ∉ answers.
Proof.
  enough (E : forall s, redirector_inv s ->
    let '(answers, s') := operations os s in
    redirector_inv s' /\ (exists l, log s' = log s ++ l /\ sublist l (requests os)) /\
    Crashed ∉ answers).
  { specialize (E _ (New_inv w)). destruct (operations os (NewRedirector w)) as [answers s'].
    destruct E as ((_ & Hd & Hl) & (l & El & Hsub) & Hc). cbn in El. subst l. done. }
  induction os as [|o os IH]; intros s Hs; cbn [operations].
  { cbn. split; [done|]. split; [|set_solver]. exists []. by rewrite app_nil_r. }
  destruct (operate_inv o s Hs) as (Hi & Hn & Hl). unfold mbind.
  destruct (operate o s) as [a s1]. cbn [fst snd] in *. specialize (IH s1 Hi).
  destruct (operations os s1) as [answers s2]. cbn.
  destruct IH as (Hi2 & (l & El & Hsub) & Hc). split; [done|]. split; [|set_solver].
  destruct Hl as [Hl|Hl]; rewrite El, Hl.
  - exists l. split; [done|]. destruct o; cbn [requests]; [done..|by constructor].
  - rewrite <- app_assoc. exists (requests [o] ++ l). split; [done|].
    destruct o; cbn [requests app]; [done..|by constructor].
Qed.

(** When the first dial fails, the redirector stays unusable: whatever is done
    with it afterwards, it does not dial again, every request and every Connect is
    answered by an error, and nothing is ever sent. *)
Theorem failed_dial_is_final w e w' os :
  dialer w = (Err e, w') ->
  let s := (Connect (NewRedirector w)).2 in
  let '(answers, s') := operations os s in
  dials s' = 1%nat /\ log s' = [] /\
  forall i o, os !! i = Some o -> answers !! i = Some (Answered (match o with OpClose => true | _ => false end)).
Proof.
  intros Hd. assert (Es : (Connect (NewRedirector w)).2 = mkRedirector true None 1 [] w').
  { unfold Connect, connect_once, mbind. cbn [NewRedirector once net]. by rewrite Hd. }
  rewrite Es. cbv zeta. set (s := mkRedirector true None 1 [] w').
  enough (E : operations os s = ((fun o => Answered (match o with OpClose => true | _ => false end)) <$> os, s)).
  { rewrite E. split_and!; [done..|]. intros i o Ho. by rewrite list_lookup_fmap, Ho. }
  induction os as [|o os IH]; [done|]. cbn [operations]. unfold mbind at 1.
  assert (E : operate o s = (Answered (match o with OpClose => true | _ => false end), s)).
  { by destruct o as [| |[] req]. }
  rewrite E. unfold mbind. by rewrite IH.
Qed.

(** With a connection, a method is the agent's own. *)
Lemma redirect_connected m req s conn :
  once s = true -> agentClient s = Some conn ->
  let '(r, w) := client_call conn m req (net s) in
  redirect m req s =
  (Return r, mkRedirector true (Some conn) (dials s) (log s ++ [Sent m req]) w).
Proof.
  intros Ho Hc. unfold redirect, Connect, connect_once, mbind. rewrite Ho. cbn. rewrite Hc.
  unfold agent_call. rewrite Hc, Ho. by destruct (client_call conn m req (net s)).
Qed.

End Redirector.

(** ** An executable agent *)

(** The world says whether dialling works; requests are answered with success. *)
Definition bench_agent {W} (up : W -> bool) : AgentEnv W := {|
  Conn := unit;
  OtherReq := fun _ => unit;
  Res := fun _ => unit;
  dialer := fun w => (if up w then Ok tt else Err (Sentinel "connection refused"), w);
  client_call := fun _ _ _ w => (Ok tt, w);
  client_Close := fun _ w => (None, w)
|}.

#[local] Instance bench_switch : AgentEnv bool := bench_agent (fun b => b).

Definition demo_uses : list operation := [OpCall StartContainer (tt : OtherReq StartContainer); OpClose; OpConnect].

Example failed_dial_is_final_witness :
  let s := (Connect (NewRedirector false)).2 in
  let '(answers, s') := operations demo_uses s in
  dials s' = 1%nat /\ log s' = [] /\
  forall i o, demo_uses !! i = Some o ->
    answers !! i = Some (Answered (match o with OpClose => true | _ => false end)).
Proof.
  exact (failed_dial_is_final false (Sentinel "connection refused") false demo_uses eq_refl).
Defined.
