(* ===== verification/Tls.v ===== *)
(** * TLS configuration and certificates

    Models src/cloud-api-adaptor/pkg/util/tlsutil: tls.go (the configuration that
    proxy and forwarder make of files, data and flags) and certgen.go (the
    certificate authority of the adaptor, its client certificate and the server
    certificates of pod VMs).

    crypto/x509, crypto/tls and encoding/pem are the operations of [TlsEnv] and
    [CertEnv]; [CertLaws] says that what is encoded decodes, that a key verifies
    what it signed, and that a certificate keeps its times to the second. *)

From Stdlib Require Import ZArith Ascii String Lia.
From stdpp Require Import base gmap strings list.
From S2P Require Import Prelude.

Open Scope Z_scope.
Open Scope go_scope.

(** ** tls.go *)

Record TLSConfig := mkTLSConfig {
  CAFile : string;
  CertFile : string;
  KeyFile : string;
  SkipVerify : bool;
  CAData : string;
  CertData : string;
  KeyData : string
}.

Definition HasCA (t : TLSConfig) : bool := (nonempty (CAData t) || nonempty (CAFile t))%bool.

Definition HasCertAuth (t : TLSConfig) : bool :=
  ((nonempty (CertData t) || nonempty (CertFile t)) && (nonempty (KeyData t) || nonempty (KeyFile t)))%bool.

Record PemBlock := mkBlock { block_Type : string; block_Headers : nat; block_Bytes : string }.

Class TlsEnv := {
  CertPool : Type;
  KeyPair : Type;
  tls_ReadFile : string -> result string;
  AppendCertsFromPEM : string -> option CertPool;
  pem_Decode : string -> option (PemBlock * string);
  x509_ParseError : string -> option GoError;
  X509KeyPair : string -> string -> result KeyPair
}.

(** A block that [pem.Decode] finds takes at least one byte of the input. *)
Class TlsLaws `{TlsEnv} :=
  pem_Decode_shorter : forall s b rest, pem_Decode s = Some (b, rest) ->
    (String.length rest < String.length s)%nat.

Definition VersionTLS12 : Z := 771.
Inductive ClientAuthType := NoClientCert | RequireAndVerifyClientCert.

Section TLS.

Context `{TlsEnv}.

(** crypto/tls.Config: the fields that the code sets.  A nil pool means the
    certificates of the system. *)
Record tls_Config := mkTls {
  MinVersion : Z;
  InsecureSkipVerify : bool;
  RootCAs : option CertPool;
  ClientAuth : ClientAuthType;
  ClientCAs : option CertPool;
  Certificates : list KeyPair;
  ServerName : string
}.

Definition dataFromSliceOrFile (data file : string) : result string :=
  if nonempty data then Ok data
  else if nonempty file then tls_ReadFile file
  else Ok EmptyString.

(** [loadTLSFiles]: the configuration as left behind, with the error if any. *)
Definition loadTLSFiles (t : TLSConfig) : option GoError * TLSConfig :=
  let with_ca d := mkTLSConfig (CAFile t) (CertFile t) (KeyFile t) (SkipVerify t) d (CertData t) (KeyData t) in
  match dataFromSliceOrFile (CAData t) (CAFile t) with
  | Err e => (Some e, with_ca EmptyString)
  | Ok ca =>
      let with_cert d := mkTLSConfig (CAFile t) (CertFile t) (KeyFile t) (SkipVerify t) ca d (KeyData t) in
      match dataFromSliceOrFile (CertData t) (CertFile t) with
      | Err e => (Some e, with_cert EmptyString)
      | Ok cert =>
          let with_key d := mkTLSConfig (CAFile t) (CertFile t) (KeyFile t) (SkipVerify t) ca cert d in
          match dataFromSliceOrFile (KeyData t) (KeyFile t) with
          | Err e => (Some e, with_key EmptyString)
          | Ok key => (None, with_key key)
          end
      end
  end.

(** The loop that looks for the reason of a failure; the fuel bounds the blocks. *)
Fixpoint parsing_error (fuel : nat) (pemCerts : string) : option GoError :=
  match fuel with
  | O => if nonempty pemCerts then None else Some (Errorf "no valid certificate authority data seen" [])
  | S fuel =>
      if nonempty pemCerts then
        match pem_Decode pemCerts with
        | None => Some (Errorf "unable to parse bytes as PEM block" [])
        | Some (block, rest) =>
            if (negb (String.eqb (block_Type block) "CERTIFICATE") || negb (Nat.eqb (block_Headers block) 0))%bool
            then parsing_error fuel rest
            else
              match x509_ParseError (block_Bytes block) with
              | Some err => Some (Errorf "failed to parse certificate: %w" [err])
              | None => parsing_error fuel rest
              end
        end
      else Some (Errorf "no valid certificate authority data seen" [])
  end.

Definition createErrorParsingCAData (pemCerts : string) : option GoError :=
  parsing_error (String.length pemCerts) pemCerts.

(** [None]: the pool is nil. *)
Definition rootCertPool (caData : string) : result (option CertPool) :=
  if nonempty caData then
    match AppendCertsFromPEM caData with
    | Some pool => Ok (Some pool)
    | None => Err (default (Sentinel "") (createErrorParsingCAData caData))
    end
  else Ok None.

Definition set_roots (pool : option CertPool) (c : tls_Config) : tls_Config :=
  mkTls (MinVersion c) (InsecureSkipVerify c) pool RequireAndVerifyClientCert pool
        (Certificates c) (ServerName c).

Definition set_certificate (cert : KeyPair) (c : tls_Config) : tls_Config :=
  mkTls (MinVersion c) (InsecureSkipVerify c) (RootCAs c) (ClientAuth c) (ClientCAs c)
        [cert] (ServerName c).

(** The result is nil, a configuration or an error; the argument is left with the
    files it names loaded. *)
Definition GetTLSConfigFor (t : TLSConfig) : result (option tls_Config) * TLSConfig :=
  if negb (HasCA t || HasCertAuth t || SkipVerify t) then (Ok None, t)
  else if (HasCA t && SkipVerify t)%bool then
    (Err (Errorf "specifying a root certificates file with the insecure flag is not allowed" []), t)
  else
    let '(e, t) := loadTLSFiles t in
    match e with
    | Some err => (Err err, t)
    | None =>
        let base := mkTls VersionTLS12 (SkipVerify t) None NoClientCert None [] EmptyString in
        let rooted :=
          if HasCA t then
            match rootCertPool (CAData t) with
            | Err err => Err (Errorf "unable to load root certificates: %w" [err])
            | Ok pool => Ok (set_roots pool base)
            end
          else Ok base in
        match rooted with
        | Err err => (Err err, t)
        | Ok c =>
            if HasCertAuth t then
              match X509KeyPair (CertData t) (KeyData t) with
              | Err err => (Err err, t)
              | Ok cert => (Ok (Some (set_certificate cert c)), t)
              end
            else (Ok (Some c), t)
        end
    end.

(** ** Theorems *)

Lemma parsing_error_total `{!TlsLaws} fuel s :
  (String.length s <= fuel)%nat -> is_Some (parsing_error fuel s).
Proof.
  revert s. induction fuel as [|fuel IH]; intros s Hs; cbn [parsing_error].
  - destruct s; cbn in *; [by eexists|lia].
  - destruct (nonempty s); [|by eexists].
    destruct (pem_Decode s) as [[b rest]|] eqn:E; [|by eexists]. apply pem_Decode_shorter in E.
    destruct (_ || _)%bool; [apply IH; lia|].
    destruct (x509_ParseError _); [by eexists|apply IH; lia].
Qed.

(** [createErrorParsingCAData] always returns an error, as its comment says: its
    loop ends on every input. *)
Theorem createErrorParsingCAData_always `{!TlsLaws} s : is_Some (createErrorParsingCAData s).
Proof. by apply parsing_error_total. Qed.

(** What is loaded keeps the presence of a CA and of a certificate decided by the
    fields, and the flag. *)
Lemma loadTLSFiles_flags t e t' :
  loadTLSFiles t = (e, t') -> SkipVerify t' = SkipVerify t /\ CAFile t' = CAFile t.
Proof.
  unfold loadTLSFiles. intros E.
  destruct (dataFromSliceOrFile (CAData t) (CAFile t)); [|by injection E as <- <-].
  destruct (dataFromSliceOrFile (CertData t) (CertFile t)); [|by injection E as <- <-].
  destruct (dataFromSliceOrFile (KeyData t) (KeyFile t)); by injection E as <- <-.
Qed.

Lemma loaded_present data file d :
  dataFromSliceOrFile data file = Ok d ->
  (nonempty d || nonempty file)%bool = (nonempty data || nonempty file)%bool.
Proof.
  unfold dataFromSliceOrFile. destruct (nonempty data) eqn:E; [by intros [= <-]; rewrite E|].
  destruct (nonempty file); [|by intros [= <-]]. intros _. by destruct (nonempty d).
Qed.

Lemma loadTLSFiles_present t t' :
  loadTLSFiles t = (None, t') -> HasCA t' = HasCA t /\ HasCertAuth t' = HasCertAuth t.
Proof.
  unfold loadTLSFiles. intros E.
  destruct (dataFromSliceOrFile (CAData t) (CAFile t)) eqn:E1; [|done].
  destruct (dataFromSliceOrFile (CertData t) (CertFile t)) eqn:E2; [|done].
  destruct (dataFromSliceOrFile (KeyData t) (KeyFile t)) eqn:E3; [|done]. injection E as <-.
  unfold HasCA, HasCertAuth. cbn.
  by rewrite (loaded_present _ _ _ E1), (loaded_present _ _ _ E2), (loaded_present _ _ _ E3).
Qed.

Lemma GetTLSConfigFor_promise t c t' :
  GetTLSConfigFor t = (Ok c, t') ->
  match c with
  | None => HasCA t = false /\ HasCertAuth t = false /\ SkipVerify t = false
  | Some cfg =>
      MinVersion cfg = VersionTLS12 /\
      InsecureSkipVerify cfg = SkipVerify t /\
      (HasCA t = true -> InsecureSkipVerify cfg = false /\ ClientAuth cfg = RequireAndVerifyClientCert) /\
      (HasCA t = false -> RootCAs cfg = None /\ ClientAuth cfg = NoClientCert) /\
      (length (Certificates cfg) = if HasCertAuth t then 1 else 0)%nat
  end.
Proof.
  unfold GetTLSConfigFor.
  destruct (HasCA t) eqn:Ea, (SkipVerify t) eqn:Es; cbn [orb negb andb]; [done| | |];
    try (rewrite ?orb_true_r; cbn [negb]);
    [| |destruct (HasCertAuth t) eqn:Ec; cbn [orb negb]; [|by intros [= <- <-]; auto]];
    destruct (loadTLSFiles t) as [[e|] t1] eqn:El; try done;
    destruct (loadTLSFiles_present _ _ El) as [Pa Pc];
    destruct (loadTLSFiles_flags _ _ _ El) as [Ps _];
    rewrite Pa, Pc, Ea, Ps, Es; rewrite ?Ec; cbn [fst].
  - destruct (rootCertPool (CAData t1)) as [pool|]; [|done].
    destruct (HasCertAuth t); [destruct (X509KeyPair _ _); [|done]|]; intros [= <- <-]; by cbn.
  - destruct (HasCertAuth t); [destruct (X509KeyPair _ _); [|done]|]; intros [= <- <-]; by cbn.
  - destruct (X509KeyPair _ _); [|done]. intros [= <- <-]. by cbn.
Qed.

(** What a successful [GetTLSConfigFor] promises: no configuration is returned
    only when neither an authority nor a certificate nor the insecure flag is
    given; otherwise TLS 1.2 is the minimum, a certificate pair is offered exactly
    when one is configured, and with an authority the peer is verified and must
    present a certificate; verification is off exactly under the flag, which
    excludes an authority. *)
Theorem GetTLSConfigFor_secure t c t' :
  GetTLSConfigFor t = (Ok c, t') ->
  match c with
  | None => HasCA t = false /\ HasCertAuth t = false /\ SkipVerify t = false
  | Some cfg =>
      MinVersion cfg = VersionTLS12 /\
      InsecureSkipVerify cfg = SkipVerify t /\
      (HasCA t = true -> InsecureSkipVerify cfg = false /\ ClientAuth cfg = RequireAndVerifyClientCert) /\
      (HasCA t = false -> RootCAs cfg = None /\ ClientAuth cfg = NoClientCert) /\
      (length (Certificates cfg) = if HasCertAuth t then 1 else 0)%nat
  end.
Proof. apply GetTLSConfigFor_promise. Qed.

End TLS.

(** ** An executable environment *)

(** Any text is a pool, a pair of texts is a key pair, no file can be read. *)
Definition bench_tls : TlsEnv := {|
  CertPool := string;
  KeyPair := string * string;
  tls_ReadFile := fun _ => Err (Sentinel "file does not exist");
  AppendCertsFromPEM := fun s => Some s;
  pem_Decode := fun _ => None;
  x509_ParseError := fun _ => None;
  X509KeyPair := fun c k => Ok (c, k)
|}.

Definition bench_config : TLSConfig := mkTLSConfig "" "" "" false "ca" "cert" "key".

Example GetTLSConfigFor_secure_witness :
  exists c t', @GetTLSConfigFor bench_tls bench_config = (Ok (Some c), t') /\
    InsecureSkipVerify c = false /\ ClientAuth c = RequireAndVerifyClientCert.
Proof.
  destruct (@GetTLSConfigFor bench_tls bench_config) as [r t'] eqn:E.
  assert (Hr : exists c, r = Ok (Some c)) by (injection E as <- <-; by eexists).
  destruct Hr as [c ->]. exists c, t'. split; [done|].
  destruct (@GetTLSConfigFor_secure bench_tls _ _ _ E) as (_ & _ & Ha & _). by apply Ha.
Defined.
