(* ===== verification/Certgen.v ===== *)
(** * Certificates of the adaptor and of pod VMs

    Models src/cloud-api-adaptor/pkg/util/tlsutil/certgen.go.  [CertEnv] holds the
    clock, the random source, x509 and PEM; [CertLaws] says that what is encoded
    decodes, that a key verifies what it signed, and that an encoded certificate
    keeps the fields of its template, its times to the second.  [bench_certs] is an
    executable instance. *)

From Stdlib Require Import ZArith Ascii String Lia.
From stdpp Require Import base gmap strings list countable.
From S2P Require Import Prelude.

Open Scope Z_scope.
Open Scope go_scope.

(** Times and durations in nanoseconds. *)
Definition second : Z := 10 ^ 9.
Definition validFor : Z := 2 * 365 * 24 * 3600 * second.

Definition KeyUsageDigitalSignature : Z := 1.
Definition KeyUsageCertSign : Z := 32.

Inductive ExtKeyUsage := ExtKeyUsageServerAuth | ExtKeyUsageClientAuth.

Record Certificate := mkCertificate {
  SerialNumber : Z;
  Organization : list string;
  CommonName : string;
  DNSNames : list string;
  NotBefore : Z;
  NotAfter : Z;
  KeyUsage : Z;
  ExtUsage : list ExtKeyUsage;
  IsCA : bool
}.

Class CertEnv (W : Type) := {
  PrivateKey : Type;
  PublicKey : Type;
  public : PrivateKey -> PublicKey;
  time_Now : M W Z;
  rand_Int : Z -> M W (result Z);
  ecdsa_GenerateKey : M W (result PrivateKey);
  MarshalPKCS8 : PrivateKey -> result string;
  ParsePKCS8 : string -> result PrivateKey;
  CreateCertificate : Certificate -> Certificate -> PublicKey -> PrivateKey -> M W (result string);
  ParseCertificate : string -> result Certificate;
  (** the signature of an encoded certificate, checked with a key *)
  CheckSignature : PublicKey -> string -> bool;
  pem_Encode : string -> string -> result string;
  (** the bytes of the first block and what remains *)
  pem_First : string -> option (string * string)
}.

(** Encoded times have a resolution of one second. *)
Definition to_second (t : Z) : Z := t / second * second.

Definition encoded (t : Certificate) : Certificate :=
  mkCertificate (SerialNumber t) (Organization t) (CommonName t) (DNSNames t)
    (to_second (NotBefore t)) (to_second (NotAfter t)) (KeyUsage t) (ExtUsage t) (IsCA t).

Class CertLaws (W : Type) `{CertEnv W} := {
  pem_roundtrip : forall kind der pem,
    pem_Encode kind der = Ok pem -> pem_First pem = Some (der, EmptyString) /\ pem <> EmptyString;
  key_roundtrip : forall key der, MarshalPKCS8 key = Ok der -> ParsePKCS8 der = Ok key;
  certificate_roundtrip : forall t s pk sk w der w',
    CreateCertificate t s pk sk w = (Ok der, w') ->
    ParseCertificate der = Ok (encoded t) /\ CheckSignature (public sk) der = true
}.

(** A pair of PEM texts: certificate and private key. *)
Record PemPair := mkPair { certPEM : string; keyPEM : string }.

Record caService := mkCA { orgName : string; ca_pair : PemPair }.

Section Certgen.

Context {W : Type} `{CertEnv W}.

Definition decodePEM (pemBytes : string) : result string :=
  match pem_First pemBytes with
  | None => Err (Sentinel "no PEM data is found")
  | Some (bytes, remaining) =>
      if nonempty remaining then Err (Sentinel "more than one PEM block is found") else Ok bytes
  end.

Definition encodePEM (dataType der : string) : result string :=
  match pem_Encode dataType der with
  | Err e => Err (Errorf "failed to encode PEM data type %q: %w" [e])
  | Ok buf => Ok buf
  end.

(** The parent: its certificate and its key, both or neither in every call of the
    package. *)
Definition load_parent (parent : option PemPair) : result (option (Certificate * PrivateKey)) :=
  match parent with
  | None => Ok None
  | Some p =>
      match decodePEM (certPEM p) with
      | Err e => Err (Errorf "failed to decode a parent certificate PEM: %w" [e])
      | Ok der =>
          match ParseCertificate der with
          | Err e => Err (Errorf "failed to parse a parent certificate: %w" [e])
          | Ok cert =>
              match decodePEM (keyPEM p) with
              | Err e => Err (Errorf "failed to decode a parent key PEM: %w" [e])
              | Ok keyDER =>
                  match ParsePKCS8 keyDER with
                  | Err e => Err (Errorf "failed to parse a parent key: %w" [e])
                  | Ok key => Ok (Some (cert, key))
                  end
              end
          end
      end
  end.

(** The period of validity, kept within that of the parent. *)
Definition validity (now : Z) (parent : option Certificate) : Z * Z :=
  let notBefore := now - 5 * 60 * second in
  let notAfter := notBefore + validFor in
  match parent with
  | None => (notBefore, notAfter)
  | Some p =>
      (if notBefore <? NotBefore p then NotBefore p else notBefore,
       if NotAfter p <? notAfter then NotAfter p else notAfter)
  end.

Definition certTemplate (serial : Z) (org serverName : string) (period : Z * Z)
    (isClient isCA : bool) : Certificate :=
  let authType := if isClient then ExtKeyUsageClientAuth else ExtKeyUsageServerAuth in
  let usage := Z.lor KeyUsageCertSign KeyUsageDigitalSignature in
  mkCertificate serial [org]
    (if nonempty serverName then serverName else EmptyString)
    (if nonempty serverName then [serverName] else [])
    (fst period) (snd period)
    (if isCA then Z.lor usage KeyUsageCertSign else usage)
    [authType] isCA.

(** From the generated key on: encode it, sign, encode the certificate. *)
Definition sign_certificate (template : Certificate) (parent : option (Certificate * PrivateKey))
    (key : PrivateKey) : M W (result PemPair) :=
  match MarshalPKCS8 key with
  | Err e => mret (Err (Errorf "failed to convert a private key to PKCS #8 form: %w" [e]))
  | Ok keyDER =>
      match encodePEM "PRIVATE KEY" keyDER with
      | Err e => mret (Err (Errorf "failed ot encode a private key to PEM: %w" [e]))
      | Ok kpem =>
          let signer := match parent with Some p => p | None => (template, key) end in
          let* r := CreateCertificate template (fst signer) (public key) (snd signer) in
          mret match r with
               | Err e => Err (Errorf "failed to create a certificate: %w" [e])
               | Ok certDER =>
                   match encodePEM "CERTIFICATE" certDER with
                   | Err e => Err (Errorf "failed ot encode a certificate to PEM: %w" [e])
                   | Ok cpem => Ok (mkPair cpem kpem)
                   end
               end
      end
  end.

Definition serialNumberLimit : Z := Z.shiftl 1 128.

Definition generateCertificate (org serverName : string) (parentPEM : option PemPair)
    (isClient isCA : bool) : M W (result PemPair) :=
  match load_parent parentPEM with
  | Err e => mret (Err e)
  | Ok parent =>
      let* now := time_Now in
      let period := validity now (fst <$> parent) in
      let* s := rand_Int serialNumberLimit in
      match s with
      | Err e => mret (Err (Errorf "failed to generate a serial number of a new certificate: %w" [e]))
      | Ok serialNumber =>
          let template := certTemplate serialNumber org serverName period isClient isCA in
          let* k := ecdsa_GenerateKey in
          match k with
          | Err e => mret (Err (Errorf "failed to generate ECDSA key for %s: %w" [e]))
          | Ok key => sign_certificate template parent key
          end
      end
  end.

Definition NewCAService (org : string) : M W (result caService) :=
  let* r := generateCertificate org "" None false true in
  mret match r with
       | Err _ => Err (Errorf "failed to set up a CA service for %q" [])
       | Ok p => Ok (mkCA org p)
       end.

Definition RootCertificate (s : caService) : string := certPEM (ca_pair s).

Definition Issue (s : caService) (serverName : string) : M W (result PemPair) :=
  let* r := generateCertificate (orgName s) serverName (Some (ca_pair s)) false false in
  mret match r with
       | Err e => Err (Errorf "failed to issue a server certificate for %q: %w" [e])
       | Ok p => Ok p
       end.

Definition NewClientCertificate (org : string) : M W (result PemPair) :=
  let* r := generateCertificate org "" None true false in
  mret match r with
       | Err _ => Err (Errorf "failed to generate a client certificate for %q" [])
       | Ok p => Ok p
       end.

(** The certificate that a PEM text holds. *)
Definition certificate_of (pem : string) : result Certificate :=
  match decodePEM pem with Ok der => ParseCertificate der | Err e => Err e end.

(** ** Theorems *)

Context `{!CertLaws W}.

Lemma decodePEM_encode kind der pem : encodePEM kind der = Ok pem -> decodePEM pem = Ok der.
Proof.
  unfold encodePEM, decodePEM. destruct (pem_Encode kind der) as [buf|] eqn:E; [|done].
  intros [= <-]. by destruct (pem_roundtrip _ _ _ E) as [-> _].
Qed.

(** What a successful generation leaves: the key and the certificate of the
    template, signed by the parent's key or by its own. *)
Lemma sign_certificate_ok template parent key w p w' :
  sign_certificate template parent key w = (Ok p, w') ->
  exists der, decodePEM (certPEM p) = Ok der /\ ParseCertificate der = Ok (encoded template) /\
    CheckSignature (public (match parent with Some q => snd q | None => key end)) der = true /\
    exists kder, decodePEM (keyPEM p) = Ok kder /\ ParsePKCS8 kder = Ok key.
Proof.
  unfold sign_certificate. destruct (MarshalPKCS8 key) as [kder|] eqn:Ek; [|done].
  destruct (encodePEM "PRIVATE KEY" kder) as [kpem|] eqn:Ekp; [|done]. unfold mbind.
  destruct (CreateCertificate _ _ _ _ w) as [[der|] w1] eqn:Ec; [|done].
  destruct (encodePEM "CERTIFICATE" der) as [cpem|] eqn:Ecp; [|done]. intros [= <- <-].
  destruct (certificate_roundtrip _ _ _ _ _ _ _ Ec) as [Hp Hs]. exists der. cbn.
  split_and!; [by eapply decodePEM_encode|done|by destruct parent|].
  exists kder. split; [by eapply decodePEM_encode|by apply key_roundtrip].
Qed.

Lemma generateCertificate_ok org name parent isClient isCA w p w' :
  generateCertificate org name parent isClient isCA w = (Ok p, w') ->
  exists q now serial key der,
    load_parent parent = Ok q /\
    decodePEM (certPEM p) = Ok der /\
    ParseCertificate der =
      Ok (encoded (certTemplate serial org name (validity now (fst <$> q)) isClient isCA)) /\
    CheckSignature (public (match q with Some q => snd q | None => key end)) der = true /\
    exists kder, decodePEM (keyPEM p) = Ok kder /\ ParsePKCS8 kder = Ok key.
Proof.
  unfold generateCertificate. destruct (load_parent parent) as [q|] eqn:Eq; [|done].
  unfold mbind. destruct (time_Now w) as [now w1].
  destruct (rand_Int _ w1) as [[serial|] w2]; [|done].
  destruct (ecdsa_GenerateKey w2) as [[key|] w3]; [|done].
  intros (der & ? & ? & ? & ?)%sign_certificate_ok. by exists q, now, serial, key, der.
Qed.

Lemma to_second_mono a b : a <= b -> to_second a <= to_second b.
Proof.
  intros Hab. unfold to_second, second. pose proof (Z.div_le_mono a b (10 ^ 9)). lia.
Qed.

Lemma to_second_idem a : to_second (to_second a) = to_second a.
Proof. unfold to_second, second. by rewrite Z.div_mul by done. Qed.

Lemma validity_within now p :
  NotBefore p <= fst (validity now (Some p)) /\ snd (validity now (Some p)) <= NotAfter p.
Proof. unfold validity. cbn [fst snd]. split; case_match; bool_to_prop; lia. Qed.

(** Generated PEM texts are not empty. *)
Lemma generated_nonempty org name parent isClient isCA w p w' :
  generateCertificate org name parent isClient isCA w = (Ok p, w') ->
  certPEM p <> EmptyString /\ keyPEM p <> EmptyString.
Proof.
  assert (Henc : forall kind der pem, encodePEM kind der = Ok pem -> pem <> EmptyString).
  { intros kind der pem. unfold encodePEM. destruct (pem_Encode kind der) as [buf|] eqn:E; [|done].
    intros [= <-]. by destruct (pem_roundtrip _ _ _ E) as [_ ?]. }
  unfold generateCertificate. destruct (load_parent parent) as [q|]; [|done]. unfold mbind.
  destruct (time_Now w) as [now w1]. destruct (rand_Int _ w1) as [[serial|] w2]; [|done].
  destruct (ecdsa_GenerateKey w2) as [[key|] w3]; [|done]. unfold sign_certificate.
  destruct (MarshalPKCS8 key) as [kder|]; [|done].
  destruct (encodePEM "PRIVATE KEY" kder) as [kpem|] eqn:Ekp; [|done]. unfold mbind.
  destruct (CreateCertificate _ _ _ _ w3) as [[der|] w4]; [|done].
  destruct (encodePEM "CERTIFICATE" der) as [cpem|] eqn:Ecp; [|done]. intros [= <- <-].
  split; by eapply Henc.
Qed.

(** C37: A server certificate issued for a pod VM: it names exactly that server, is for
    server authentication and not an authority, carries the signature of the
    authority's key, and its validity lies within that of the authority's
    certificate, whatever the clock said in between. *)
Theorem Issue_within_authority org w1 ca w1' name w2 p w2' :
  NewCAService org w1 = (Ok ca, w1') -> name <> "" -> Issue ca name w2 = (Ok p, w2') ->
  exists root cert der kder caKey,
    certificate_of (RootCertificate ca) = Ok root /\ IsCA root = true /\
    decodePEM (keyPEM (ca_pair ca)) = Ok kder /\ ParsePKCS8 kder = Ok caKey /\
    decodePEM (certPEM p) = Ok der /\ ParseCertificate der = Ok cert /\
    CheckSignature (public caKey) der = true /\
    DNSNames cert = [name] /\ ExtUsage cert = [ExtKeyUsageServerAuth] /\ IsCA cert = false /\
    NotBefore root <= NotBefore cert /\ NotAfter cert <= NotAfter root.
Proof.
  intros Hca Hname Hissue. unfold NewCAService, mbind in Hca.
  destruct (generateCertificate org "" None false true w1) as [[pca|] wx] eqn:Eca; [|done].
  injection Hca as <- <-.
  apply generateCertificate_ok in Eca as (q1 & now1 & serial1 & caKey & der1 & Hq1 & Hd1 & Hp1 & _ & kder & Hk & Hkp).
  unfold Issue, mbind in Hissue. cbn [orgName ca_pair] in *.
  destruct (generateCertificate org name (Some pca) false false w2) as [[p2|] wy] eqn:Ei; [|done].
  injection Hissue as <- <-.
  apply generateCertificate_ok in Ei as (q2 & now2 & serial2 & key2 & der2 & Hq2 & Hd2 & Hp2 & Hs2 & _).
  injection Hq1 as <-. cbn [load_parent] in Hq2. rewrite Hd1, Hp1, Hk, Hkp in Hq2. injection Hq2 as <-.
  unfold certificate_of, RootCertificate. cbn [ca_pair]. rewrite Hd1.
  assert (Hn : nonempty name = true) by (unfold nonempty; by apply negb_true_iff, String.eqb_neq).
  set (root := encoded (certTemplate serial1 org "" _ false true)) in *.
  destruct (validity_within now2 root) as [Hb Ha].
  do 5 eexists. split_and!; [exact Hp1|done|exact Hk|exact Hkp|exact Hd2|exact Hp2|exact Hs2| |done|done| |].
  - cbn [DNSNames encoded certTemplate]. by rewrite Hn.
  - apply to_second_mono in Hb. unfold root in Hb at 1. cbn [NotBefore encoded] in Hb.
    rewrite to_second_idem in Hb. exact Hb.
  - apply to_second_mono in Ha. unfold root in Ha at 2. cbn [NotAfter encoded] in Ha.
    rewrite to_second_idem in Ha. exact Ha.
Qed.

End Certgen.

(** ** An executable environment

    Keys are numbers, the world is a clock that also serves as random source, PEM
    is the identity and a certificate is the text of its fields and its signer. *)

Definition is_client (u : ExtKeyUsage) : bool :=
  match u with ExtKeyUsageClientAuth => true | ExtKeyUsageServerAuth => false end.
Definition usage_of (b : bool) : ExtKeyUsage :=
  if b then ExtKeyUsageClientAuth else ExtKeyUsageServerAuth.

Definition as_number {A} `{Countable A} (a : A) : Z := Zpos (encode a).
Definition of_number {A} `{Countable A} (z : Z) : option A :=
  match z with Zpos p => decode p | _ => None end.

Lemma of_as_number {A} `{Countable A} (a : A) : of_number (as_number a) = Some a.
Proof. apply decode_encode. Qed.

Definition fields_of (t : Certificate) (signer : Z) : list Z :=
  [signer; SerialNumber t; as_number (Organization t); as_number (CommonName t);
   as_number (DNSNames t); NotBefore t; NotAfter t; KeyUsage t;
   as_number (is_client <$> ExtUsage t); as_number (IsCA t)].

Definition of_fields (l : list Z) : option Certificate :=
  match l with
  | [_; sn; o; cn; dns; nb; na; ku; eu; ca] =>
      o ← of_number o; cn ← of_number cn; dns ← of_number dns; eu ← of_number eu; ca ← of_number ca;
      Some (mkCertificate sn o cn dns nb na ku (usage_of <$> eu) ca)
  | _ => None
  end.

Definition bench_certs : CertEnv Z := {|
  PrivateKey := Z;
  PublicKey := Z;
  public := fun k => k;
  time_Now := fun w => (w, w + second);
  rand_Int := fun _ w => (Ok w, w + 1);
  ecdsa_GenerateKey := fun w => (Ok w, w + 1);
  MarshalPKCS8 := fun k => Ok (to_text k);
  ParsePKCS8 := fun d => match of_text d with Some k => Ok k | None => Err (Sentinel "bad key") end;
  CreateCertificate := fun t _ _ sk w => (Ok (to_text (fields_of (encoded t) sk)), w);
  ParseCertificate := fun d =>
    match of_text d ≫= of_fields with Some c => Ok c | None => Err (Sentinel "bad certificate") end;
  CheckSignature := fun pk d =>
    match of_text d with Some (signer :: _) => (pk : Z) =? signer | _ => false end;
  pem_Encode := fun _ d => Ok (String "-" d);
  pem_First := fun p => match p with String _ d => Some (d, EmptyString) | EmptyString => None end
|}.

Lemma of_fields_of t k : of_fields (fields_of t k) = Some t.
Proof.
  destruct t as [sn o cn dns nb na ku eu ca]. unfold of_fields, fields_of.
  rewrite !of_as_number. unfold base.mbind, option_bind.
  cbn [ExtUsage]. assert (E : usage_of <$> (is_client <$> eu) = eu); [|by rewrite E].
  rewrite <- list_fmap_compose. induction eu as [|[] eu IH]; cbn; by rewrite ?IH.
Qed.

Lemma bench_certs_laws : @CertLaws Z bench_certs.
Proof.
  split; cbn.
  - by intros _ der pem [= <-].
  - intros key der [= <-]. by rewrite of_to_text.
  - intros t s pk sk w der w' [= <- <-]. rewrite of_to_text. cbn -[of_fields fields_of].
    rewrite of_fields_of. split; [done|]. apply Z.eqb_refl.
Qed.

Definition bench_ca : result caService * Z := @NewCAService Z bench_certs "forwarder" 1000.

Definition bench_issued : result PemPair * Z :=
  match bench_ca with
  | (Ok ca, w) => @Issue Z bench_certs ca "podvm" w
  | (Err e, w) => (Err e, w)
  end.

Lemma bench_issued_ok : is_ok (fst bench_issued) = true.
Proof. vm_compute. reflexivity. Qed.

Example Issue_within_authority_witness :
  exists ca p root cert der kder caKey,
    fst bench_ca = Ok ca /\ fst bench_issued = Ok p /\
    @certificate_of Z bench_certs (RootCertificate ca) = Ok root /\ IsCA root = true /\
    @decodePEM Z bench_certs (keyPEM (ca_pair ca)) = Ok kder /\ @ParsePKCS8 Z bench_certs kder = Ok caKey /\
    @decodePEM Z bench_certs (certPEM p) = Ok der /\ @ParseCertificate Z bench_certs der = Ok cert /\
    @CheckSignature Z bench_certs (@public Z bench_certs caKey) der = true /\
    DNSNames cert = ["podvm"%string] /\ ExtUsage cert = [ExtKeyUsageServerAuth] /\ IsCA cert = false /\
    NotBefore root <= NotBefore cert /\ NotAfter cert <= NotAfter root.
Proof.
  pose proof bench_issued_ok as Hok. unfold bench_issued in *.
  destruct bench_ca as [[ca|e] w] eqn:E1; [|done]. unfold bench_ca in E1.
  destruct (@Issue Z bench_certs ca "podvm" w) as [[p|e] w2] eqn:E2; [|done].
  destruct (@Issue_within_authority Z bench_certs bench_certs_laws _ _ _ _ "podvm" _ _ _ E1
           ltac:(discriminate) E2) as (root & cert & der & kder & caKey & Hw).
  exists ca, p, root, cert, der, kder, caKey. by repeat (split; [done|]).
Defined.
