(* ===== verification/AgentProxy.v ===== *)
(** * The agent proxy of the worker node

    Models src/cloud-api-adaptor/pkg/adaptor/proxy: service.go (what is changed in a
    CreateContainer request on its way to the pod VM), factory.go and the dialling,
    the start and the shutdown of proxy.go.

    [ProxyEnv] adds the file system, sockets and the ttrpc server to the agent's
    connection ([AgentEnv]); [TlsEnv] and [CertEnv] are those of Tls and Certgen. *)

From Stdlib Require Import ZArith Ascii String Lia.
From stdpp Require Import base gmap strings list.
From S2P Require Import Prelude ProviderTable Initdata AgentProto Tls Certgen.

Open Scope Z_scope.
Open Scope go_scope.

Definition SocketName : string := "agent.ttrpc".
Definition podvmServername : string := "podvm-server".
Definition kataDirectVolumesDir : string := "/run/kata-containers/shared/direct-volumes".
Definition volumeTargetPathKey : string :=
  "io.confidentialcontainers.org.peerpodvolumes.target_path".
Definition csiPluginEscapeQualifiedName : string := "kubernetes.io~csi".
Definition imageGuestPull : string := "image_guest_pull".
Definition cdiAnnotationKey : string := "cdi.k8s.io/peer-pods".
Definition defaultCDIType : string := "nvidia.com/gpu=all".
Definition defaultGPUsAnnotation : string := "io.katacontainers.config.hypervisor.default_gpus".

(** base64.URLEncoding: the alphabet with '-' and '_'. *)
Definition url_char (c : ascii) : ascii :=
  if Ascii.eqb c "+" then "-"%char else if Ascii.eqb c "/" then "_"%char else c.

Fixpoint map_string (f : ascii -> ascii) (s : string) : string :=
  match s with
  | EmptyString => EmptyString
  | String c rest => String (f c) (map_string f rest)
  end.

Definition URLEncodeToString (s : string) : string := map_string url_char (EncodeToString s).

(** How serving ends: the context is done, the stop channel is closed, or the
    server fails. *)
Inductive serve_end := CtxDone | Stopped | ServeFailed (e : GoError).

Class ProxyEnv (W : Type) `{AgentEnv W} := {
  px_Stat : string -> M W (option GoError);
  px_MkdirAll : string -> M W (option GoError);
  px_Remove : string -> M W (option GoError);
  px_Listen : string -> M W (option GoError);
  px_NewServer : M W (option GoError);
  px_Serve : M W serve_end;
  px_ServerShutdown : M W (option GoError)
}.

(** ** service.go *)

Section Service.

Context {W : Type} `{ProxyEnv W}.

Definition on_net {A} (m : M W A) : M redirector A := fun s =>
  let '(a, w) := m (net s) in (a, mkRedirector (once s) (agentClient s) (dials s) (log s) w).

Definition isNodePublishVolumeTargetPath (volumePath directVolumesDir : string) : M W bool :=
  if Contains_sub (path_Clean volumePath) ("/volumes/" +:+ csiPluginEscapeQualifiedName +:+ "/") then
    let* e := px_Stat (filepath_Join [directVolumesDir; URLEncodeToString volumePath]) in
    mret match e with None => true | Some _ => false end
  else mret false.

(** [m[key] += s]: a missing entry is the empty string, a nil map panics. *)
Definition append_annotation (ann : option (gmap string string)) (s : string)
    : outcome (option (gmap string string)) :=
  match ann with
  | None => Panic
  | Some m => Return (Some (<[volumeTargetPathKey := default EmptyString (m !! volumeTargetPathKey) +:+ s]> m))
  end.

(** One mount of the loop; [i] is its index. *)
Definition annotate_mount (i : nat) (m : Mount) (ann : option (gmap string string))
    : M W (outcome (option (gmap string string))) :=
  let* target := isNodePublishVolumeTargetPath (Source m) kataDirectVolumesDir in
  mret
    (if (target : bool) then
       match (if Nat.ltb 0 i then append_annotation ann "," else Return ann) with
       | Panic => Panic
       | Return ann => append_annotation ann (Source m)
       end
     else Return ann).

Fixpoint annotate_mounts (i : nat) (mounts : list Mount) (ann : option (gmap string string))
    : M W (outcome (option (gmap string string))) :=
  match mounts with
  | [] => mret (Return ann)
  | m :: rest =>
      let* a := annotate_mount i m ann in
      match a with
      | Panic => mret Panic
      | Return ann => annotate_mounts (S i) rest ann
      end
  end.

(** GPUs asked for by the pod are announced to the CDI of the pod VM. *)
Definition add_cdi (ann : option (gmap string string)) : option (gmap string string) :=
  match ann with
  | Some m =>
      if nonempty (default EmptyString (m !! defaultGPUsAnnotation))
      then Some (<[cdiAnnotationKey := defaultCDIType]> m) else Some m
  | None => None
  end.

Definition with_annotations (req : CreateContainerRequest) (spec : Spec)
    (ann : option (gmap string string)) : CreateContainerRequest :=
  mkCreateContainer (ContainerId req)
    (Some (mkSpec (Mounts spec) ann (spec_Linux spec) (spec_other spec)))
    (Storages req) (container_other req).

Definition proxy_CreateContainer (req : CreateContainerRequest)
    : M redirector (outcome (result (Res CreateContainer))) :=
  match OCI req with
  | None => mret Panic
  | Some spec =>
      let* a := on_net (annotate_mounts 0 (Mounts spec) (Annotations spec)) in
      match a with
      | Panic => mret Panic
      | Return ann => redirect CreateContainer (with_annotations req spec (add_cdi ann))
      end
  end.

(** The methods of the service that only log around the redirector. *)
Definition proxy_call (m : agent_method) : Req m -> M redirector (outcome (result (Res m))) :=
  match m return Req m -> M redirector (outcome (result (Res m))) with
  | CreateContainer => proxy_CreateContainer
  | m => redirect m
  end.

(** ** proxy.go: life cycle *)

Record agentProxy := mkAgentProxy {
  px_serverName : string;
  px_socketPath : string;
  px_ready : bool;
  px_stopped : bool
}.

(** [stopOnce]: closing the channel again has no effect. *)
Definition px_Shutdown (p : agentProxy) : agentProxy :=
  mkAgentProxy (px_serverName p) (px_socketPath p) (px_ready p) true.

(** Serving until one of the three events, then the deferred shutdown. *)
Definition px_serve (p : agentProxy) : M redirector (option GoError * agentProxy) :=
  let p := mkAgentProxy (px_serverName p) (px_socketPath p) true (px_stopped p) in
  let* e := on_net px_Serve in
  let* _d := on_net px_ServerShutdown in
  mret match e with
       | CtxDone => (None, px_Shutdown p)
       | Stopped => (None, p)
       | ServeFailed err => (Some err, p)
       end.

(** From the listening socket on; [Close] is deferred. *)
Definition px_connected (p : agentProxy) : M redirector (option GoError * agentProxy) :=
  let* c := Connect in
  match c with
  | Some err => mret (Some (Errorf "error connecting to agent: %v" []), p)
  | None =>
      let* n := on_net px_NewServer in
      match n with
      | Some err => mret (Some (Errorf "failed to create TTRPC server: %w" [err]), p)
      | None => px_serve p
      end
  end.

Definition px_Start (p : agentProxy) : M redirector (option GoError * agentProxy) :=
  let* e := on_net (px_MkdirAll (filepath_Dir (px_socketPath p))) in
  match e with
  | Some _ => mret (Some (Errorf "failed to create parent directories for socket: %s" []), p)
  | None =>
      let* e := on_net (px_Remove (px_socketPath p)) in
      match (match e with
             | Some err => if errors_Is "file does not exist" err then None else Some err
             | None => None
             end) with
      | Some err => mret (Some (Errorf "failed to remove %s: %w" [err]), p)
      | None =>
          let* e := on_net (px_Listen (px_socketPath p)) in
          match e with
          | Some err => mret (Some (Errorf "failed to listen on %s: %w" [err]), p)
          | None =>
              let* r := px_connected p in
              let* _c := Close in
              mret r
          end
      end
  end.

End Service.

(** ** factory.go and dialling *)

Section Factory.

Context {W : Type} `{AgentEnv W} `{TlsEnv} `{CertEnv W}.

Record factory := mkFactory {
  f_pauseImage : string;
  f_tlsConfig : option TLSConfig;
  f_caService : option caService
}.

Definition set_cert (t : TLSConfig) (p : PemPair) : TLSConfig :=
  mkTLSConfig (CAFile t) (CertFile t) (KeyFile t) (SkipVerify t) (CAData t) (certPEM p) (keyPEM p).

Definition set_ca (t : TLSConfig) (root : string) : TLSConfig :=
  mkTLSConfig (CAFile t) (CertFile t) (KeyFile t) (SkipVerify t) root (CertData t) (KeyData t).

(** The client certificate, made where none is configured; a failure panics. *)
Definition ensure_cert (t : TLSConfig) : M W (outcome TLSConfig) :=
  if HasCertAuth t then mret (Return t)
  else
    let* r := NewClientCertificate "cloud-api-adaptor" in
    mret match r with Err _ => Panic | Ok p => Return (set_cert t p) end.

(** The authority, made where none is configured. *)
Definition ensure_ca (t : TLSConfig) : M W (outcome (TLSConfig * option caService)) :=
  if HasCA t then mret (Return (t, None))
  else
    let* r := NewCAService "agent-protocol-forwarder" in
    mret match r with
         | Err _ => Panic
         | Ok s => Return (set_ca t (RootCertificate s), Some s)
         end.

Definition NewFactory (pauseImage : string) (tlsConfig : option TLSConfig) : M W (outcome factory) :=
  match tlsConfig with
  | None => mret (Return (mkFactory pauseImage None None))
  | Some t =>
      let* c := ensure_cert t in
      match c with
      | Panic => mret Panic
      | Return t =>
          let* a := ensure_ca t in
          mret match a with
               | Panic => Panic
               | Return (t, ca) => Return (mkFactory pauseImage (Some t) ca)
               end
      end
  end.

(** [factory.New] and [NewAgentProxy]: the channels are open. *)
Definition factory_New (serverName socketPath : string) : agentProxy :=
  mkAgentProxy serverName socketPath false false.

(** [ClientCA]: the certificate that goes into the cloud-init data. *)
Definition ClientCA (f : factory) : string :=
  match f_tlsConfig f with
  | None => EmptyString
  | Some t => if nonempty (CAFile t) then EmptyString else CertData t
  end.

(** The configuration that [dial] uses: plain TCP, TLS with a server name, an
    error, or the nil dereference of a missing configuration. *)
Definition dial_config (f : factory) (serverName : string) : outcome (result (option tls_Config)) :=
  match f_tlsConfig f with
  | None => Return (Ok None)
  | Some t =>
      match fst (GetTLSConfigFor t) with
      | Err _ => Return (Err (Errorf "Failed to create tls config: %v" []))
      | Ok None => Panic
      | Ok (Some c) =>
          let name := match f_caService f with Some _ => serverName | None => podvmServername end in
          Return (Ok (Some (mkTls (MinVersion c) (InsecureSkipVerify c) (RootCAs c) (ClientAuth c)
                                  (ClientCAs c) (Certificates c) name)))
      end
  end.

(** The attempts of [retry.Do] with [Attempts(0)]: until one succeeds or the
    context is done, here after [ticks] waits. *)
Fixpoint dial_attempts (ticks : nat) (attempt : M W (result Conn)) (wait : M W unit)
    (ctxErr : GoError) : M W (result Conn) :=
  let* r := attempt in
  match r with
  | Ok conn => mret (Ok conn)
  | Err _ =>
      match ticks with
      | O => mret (Err ctxErr)
      | S ticks =>
          let* _w := wait in
          dial_attempts ticks attempt wait ctxErr
      end
  end.

Definition dial (DialContext : option tls_Config -> string -> M W (result Conn)) (wait : M W unit)
    (ctxErr : GoError) (ticks : nat) (f : factory) (serverName address : string)
    : M W (outcome (result Conn)) :=
  match dial_config f serverName with
  | Panic => mret Panic
  | Return (Err e) => mret (Return (Err e))
  | Return (Ok config) =>
      let* r := dial_attempts ticks (DialContext config address) wait ctxErr in
      mret (Return match r with
                   | Err e => Err (Errorf "failed to establish agent proxy connection to %s: %w" [e])
                   | Ok conn => Ok conn
                   end)
  end.

End Factory.

(** ** Theorems of the factory *)

Section FactoryProps.

Context {W : Type} `{AgentEnv W} `{TlsEnv} `{CertLaws W}.

Lemma nonempty_true s : s <> EmptyString -> nonempty s = true.
Proof. intros Hs. unfold nonempty. by apply negb_true_iff, String.eqb_neq. Qed.

Lemma ensure_cert_ok t w t' w' :
  ensure_cert t w = (Return t', w') ->
  HasCertAuth t' = true /\ HasCA t' = HasCA t /\ SkipVerify t' = SkipVerify t.
Proof.
  unfold ensure_cert. destruct (HasCertAuth t) eqn:E; [by intros [= <- <-]|].
  unfold NewClientCertificate, mbind.
  destruct (generateCertificate _ _ _ _ _ w) as [[p|] w1] eqn:Eg; [|done]. intros [= <- <-].
  apply generated_nonempty in Eg as [Hc Hk].
  unfold HasCertAuth, HasCA. cbn. by rewrite (nonempty_true (certPEM p)), (nonempty_true (keyPEM p)) by done.
Qed.

Lemma ensure_ca_ok t w t' ca w' :
  ensure_ca t w = (Return (t', ca), w') ->
  HasCA t' = true /\ HasCertAuth t' = HasCertAuth t /\ SkipVerify t' = SkipVerify t.
Proof.
  unfold ensure_ca. destruct (HasCA t) eqn:E; [by intros [= <- <- <-]|].
  unfold NewCAService, mbind.
  destruct (generateCertificate _ _ _ _ _ w) as [[p|] w1] eqn:Eg; [|done]. intros [= <- <- <-].
  apply generated_nonempty in Eg as [Hc Hk].
  unfold HasCertAuth, HasCA, RootCertificate. cbn. by rewrite (nonempty_true (certPEM p)) by done.
Qed.

Lemma NewFactory_ok img t w f w' :
  NewFactory img (Some t) w = (Return f, w') ->
  exists t', f_tlsConfig f = Some t' /\ HasCertAuth t' = true /\ HasCA t' = true /\
    SkipVerify t' = SkipVerify t.
Proof.
  unfold NewFactory, mbind. destruct (ensure_cert t w) as [[t1|] w1] eqn:E1; [|done].
  destruct (ensure_ca t1 w1) as [[[t2 ca]|] w2] eqn:E2; [|done]. intros [= <- <-].
  apply ensure_cert_ok in E1 as (? & ? & ?). apply ensure_ca_ok in E2 as (? & ? & ?).
  exists t2. split_and!; [done|congruence..].
Qed.

(** Dialling with a factory that has TLS: it never dereferences a missing
    configuration; whenever it gets a configuration, the pod VM is verified against
    the authority, a client certificate is offered and TLS 1.2 is the minimum; and
    with the flag that asks to skip verification it never gets one, since
    [NewFactory] always leaves an authority behind and the flag excludes an
    authority. *)
Theorem factory_dial_config img t w f w' serverName :
  NewFactory img (Some t) w = (Return f, w') ->
  match dial_config f serverName with
  | Panic => False
  | Return (Err _) => True
  | Return (Ok None) => False
  | Return (Ok (Some c)) =>
      SkipVerify t = false /\ MinVersion c = VersionTLS12 /\ InsecureSkipVerify c = false /\
      ClientAuth c = RequireAndVerifyClientCert /\ length (Certificates c) = 1%nat /\
      ServerName c = match f_caService f with Some _ => serverName | None => podvmServername end
  end.
Proof.
  intros (t' & Ef & Hc & Ha & Hs)%NewFactory_ok. unfold dial_config. rewrite Ef.
  destruct (GetTLSConfigFor t') as [[[c|]|e] t''] eqn:Eg; cbn [fst]; [| |done].
  - assert (Hskip : SkipVerify t' = false).
    { unfold GetTLSConfigFor in Eg. rewrite Ha in Eg. cbn [orb negb andb] in Eg.
      by destruct (SkipVerify t'). }
    destruct (GetTLSConfigFor_promise _ _ _ Eg) as (Hm & Hi & Hca & _ & Hn). cbn.
    destruct (Hca Ha) as [? ?]. rewrite Hc in Hn. split_and!; congruence.
  - destruct (GetTLSConfigFor_promise _ _ _ Eg) as (? & ? & _). congruence.
Qed.

End FactoryProps.

(** ** Theorems of the life cycle *)

Section StartProps.

Context {W : Type} `{ProxyEnv W}.

Lemma on_net_fields {A} (m : M W A) (s : redirector) :
  let s' := (on_net m s).2 in
  once s' = once s /\ agentClient s' = agentClient s /\ dials s' = dials s /\ log s' = log s.
Proof. unfold on_net. by destruct (m (net s)). Qed.

Lemma px_serve_ready p s :
  let '((e, p'), s') := px_serve p s in px_ready p' = true /\ agentClient s' = agentClient s.
Proof.
  unfold px_serve, mbind. pose proof (on_net_fields px_Serve s) as (_ & E1 & _).
  destruct (on_net px_Serve s) as [ev s1]. cbn [snd] in E1.
  pose proof (on_net_fields px_ServerShutdown s1) as (_ & E2 & _).
  destruct (on_net px_ServerShutdown s1) as [e s2]. cbn [snd] in E2.
  destruct ev; cbn; split; congruence.
Qed.

Lemma px_connected_ready p s :
  px_ready p = false ->
  let '((e, p'), s') := px_connected p s in
  if px_ready p' then is_Some (agentClient s') else is_Some e.
Proof.
  intros Hp. unfold px_connected, mbind. destruct (Connect s) as [[err|] s1] eqn:Ec.
  { cbn. rewrite Hp. eauto. }
  assert (Hconn : is_Some (agentClient s1)).
  { unfold Connect, mbind in Ec. destruct (connect_once s) as [[?|] s2]; [done|].
    destruct (agentClient s2) eqn:E; [|done]. injection Ec as <-. rewrite E. eauto. }
  pose proof (on_net_fields px_NewServer s1) as (_ & E2 & _).
  destruct (on_net px_NewServer s1) as [[err|] s2]; cbn [snd] in E2.
  { cbn. rewrite Hp. eauto. }
  pose proof (px_serve_ready p s2) as Hs. destruct (px_serve p s2) as [[e p'] s3].
  destruct Hs as [-> ->]. by rewrite E2.
Qed.

(** A proxy announces itself ready only when it is connected to the agent of the
    pod VM; when [Start] returns without having been ready, it returns an error. *)
Theorem px_Start_ready serverName socketPath s :
  let '((e, p'), s') := px_Start (factory_New serverName socketPath) s in
  if px_ready p' then is_Some (agentClient s') else is_Some e.
Proof.
  unfold px_Start, mbind. set (p := factory_New serverName socketPath).
  destruct (on_net (px_MkdirAll _) s) as [[err|] s1]; [by eexists|].
  destruct (on_net (px_Remove _) s1) as [e2 s2].
  destruct (match e2 with Some _ => _ | None => None end); [by eexists|].
  destruct (on_net (px_Listen _) s2) as [[err|] s3]; [by eexists|].
  pose proof (px_connected_ready p s3 eq_refl) as Hr.
  destruct (px_connected p s3) as [[e p'] s4].
  pose proof (Close_same s4) as (_ & E & _). destruct (Close s4) as [c s5]. cbn in *.
  by rewrite E.
Qed.

End StartProps.

Definition bench_factory (skip : bool) : outcome factory * Z :=
  @NewFactory Z bench_certs "pause" (Some (mkTLSConfig "" "" "" skip "" "" "")) 1000.

Lemma bench_factory_made skip : exists f w, bench_factory skip = (Return f, w).
Proof.
  destruct (bench_factory skip) as [[f|] w] eqn:E; [by exists f, w|exfalso].
  assert (Hok : match (bench_factory skip).1 with Return _ => true | Panic => false end = true)
    by (destruct skip; vm_compute; reflexivity).
  by rewrite E in Hok.
Qed.

Example factory_dial_config_witness :
  exists f w, bench_factory false = (Return f, w) /\
  match @dial_config bench_tls f "podvm" with
  | Return (Ok (Some c)) => InsecureSkipVerify c = false /\ ClientAuth c = RequireAndVerifyClientCert
  | Return (Err _) => True
  | _ => False
  end.
Proof.
  destruct (bench_factory_made false) as (f & w & E). exists f, w. split; [done|].
  pose proof (@factory_dial_config Z bench_tls bench_certs bench_certs_laws _ _ _ _ _ "podvm" E) as Hd.
  destruct (@dial_config bench_tls f "podvm") as [[[c|]|e]|]; [|done..]. tauto.
Defined.
