(* ===== verification/Forwarder.v ===== *)
(** * The agent protocol forwarder of the pod VM

    Models src/cloud-api-adaptor/pkg/forwarder: interceptor/interceptor.go (what is
    changed in requests before the kata agent sees them, and the wait for volumes)
    and forwarder.go (the daemon around it).

    [InterceptorEnv] adds directories and the mount table of the pod VM to the
    agent's connection; [MountLaws] says that a mount that was reported is there
    and stays while the forwarder looks at the next one. *)

From Stdlib Require Import ZArith Ascii String Lia.
From stdpp Require Import base gmap strings list.
From S2P Require Import Prelude ProviderTable Initdata AgentProto Tls Certgen AgentProxy.

Open Scope Z_scope.
Open Scope go_scope.

(** ** interceptor.go *)

Class InterceptorEnv (W : Type) `{AgentEnv W} := {
  ic_Stat : string -> M W (option GoError);
  ic_MkdirAll : string -> M W (option GoError);
  Mounted : string -> M W (result bool);
  (** the pause between two checks *)
  ic_wait : M W unit;
  ic_ctxErr : GoError
}.

Definition NetworkNamespace : string := "network".

Section Interceptor.

(** [nsPath] is the network namespace of the pod; [ticks] bounds the checks that
    fit into the timeout of three minutes. *)
Context {W : Type} `{InterceptorEnv W} (nsPath : string) (ticks : nat).

Definition isTargetPath (path targetPath : string) : bool :=
  (nonempty targetPath && String.eqb targetPath path)%bool.

Fixpoint mount_attempts (ticks : nat) (path : string) : M W (option GoError) :=
  let* r := Mounted path in
  match r with
  | Ok true => mret None
  | _ =>
      match ticks with
      | O => mret (Some ic_ctxErr)
      | S ticks =>
          let* _w := ic_wait in
          mount_attempts ticks path
      end
  end.

Definition waitForDeviceMounted (path : string) : M W (option GoError) :=
  let* e := mount_attempts ticks path in
  mret match e with
       | Some err => Some (Errorf "Timeout waiting for device to mount to %s: %w" [err])
       | None => None
       end.

(** A missing source of a bind mount is created; failing to is only logged. *)
Definition create_source (m : Mount) : M W unit :=
  let* e := ic_Stat (Source m) in
  match e with
  | Some err =>
      if (errors_Is "file does not exist" err && String.eqb (Type_ m) "bind")%bool then
        let* _e := ic_MkdirAll (Source m) in mret tt
      else mret tt
  | None => mret tt
  end.

(** The inner loop: wait once for each entry of the annotation that names the
    source of the mount. *)
Fixpoint wait_targets (path : string) (targets : list string) : M W (option GoError) :=
  match targets with
  | [] => mret None
  | t :: rest =>
      if isTargetPath path (TrimSpace t) then
        let* e := waitForDeviceMounted path in
        match e with
        | Some err => mret (Some err)
        | None => wait_targets path rest
        end
      else wait_targets path rest
  end.

Fixpoint prepare_mounts (targets : list string) (mounts : list Mount) : M W (option GoError) :=
  match mounts with
  | [] => mret None
  | m :: rest =>
      let* _c := create_source m in
      let* e := wait_targets (Source m) targets in
      match e with
      | Some err => mret (Some err)
      | None => prepare_mounts targets rest
      end
  end.

(** The request with the pod's network namespace added to the container. *)
Definition with_namespace (req : CreateContainerRequest) (spec : Spec) (linux : Linux)
    : CreateContainerRequest :=
  mkCreateContainer (ContainerId req)
    (Some (mkSpec (Mounts spec) (Annotations spec)
             (Some (mkLinux (Namespaces linux ++ [mkNamespace NetworkNamespace nsPath]) (linux_other linux)))
             (spec_other spec)))
    (Storages req) (container_other req).

(** The entries of the annotation; reading a nil map gives the empty string. *)
Definition volume_targets (spec : Spec) : list string :=
  split_on "," (default EmptyString (Annotations spec ≫= (fun m => m !! volumeTargetPathKey))).

Definition ic_CreateContainer (req : CreateContainerRequest)
    : M redirector (outcome (result (Res CreateContainer))) :=
  match OCI req with
  | None => mret Panic
  | Some spec =>
      match spec_Linux spec with
      | None => mret Panic
      | Some linux =>
          let* e := on_net (prepare_mounts (volume_targets spec) (Mounts spec)) in
          match e with
          | Some err => mret (Return (Err err))
          | None => redirect CreateContainer (with_namespace req spec linux)
          end
      end
  end.

(** The DNS settings are removed from a sandbox. *)
Definition without_dns (req : CreateSandboxRequest) : CreateSandboxRequest :=
  match Dns req with
  | [] => req
  | _ => mkCreateSandbox (Hostname req) (SandboxId req) [] (sandbox_other req)
  end.

Definition ic_CreateSandbox (req : CreateSandboxRequest)
    : M redirector (outcome (result (Res CreateSandbox))) :=
  redirect CreateSandbox (without_dns req).

(** The interceptor as a whole: the other methods only log. *)
Definition intercept (m : agent_method) : Req m -> M redirector (outcome (result (Res m))) :=
  match m return Req m -> M redirector (outcome (result (Res m))) with
  | CreateContainer => ic_CreateContainer
  | CreateSandbox => ic_CreateSandbox
  | m => redirect m
  end.

End Interceptor.

(** [dial] of the interceptor: retry-go with its default number of attempts over a
    Unix socket. *)
Fixpoint unix_attempts {W Conn} (attempts : nat) (attempt : M W (result Conn))
    (wait : M W (option GoError)) : M W (result Conn) :=
  let* r := attempt in
  match r with
  | Ok conn => mret (Ok conn)
  | Err e =>
      match attempts with
      | O | S O => mret (Err e)
      | S rest =>
          let* c := wait in
          match c with
          | Some ctxErr => mret (Err ctxErr)
          | None => unix_attempts rest attempt wait
          end
      end
  end.

Definition ic_dial {W Conn} (attempts : nat) (attempt : M W (result Conn))
    (wait : M W (option GoError)) : M W (result Conn) :=
  let* r := unix_attempts attempts attempt wait in
  mret match r with
       | Err e => Err (Errorf "failed to establish agent connection to %s: %w" [e])
       | Ok conn => Ok conn
       end.

(** ** forwarder.go: the daemon *)

(** What the daemon does to the world, in order. *)
Inductive daemon_event := DSetup | DListen (tls : bool) | DServe | DServerShutdown | DClose | DTeardown.

Class DaemonEnv (W : Type) `{TlsEnv} := {
  d_Setup : M W (option GoError);
  d_Teardown : M W (option GoError);
  d_Listen : option tls_Config -> string -> M W (result string);
  d_NewServer : M W (option GoError);
  d_Serve : M W serve_end;
  d_ServerShutdown : M W (option GoError);
  d_Close : M W (option GoError)
}.

Record daemon_spec := mkDaemonSpec {
  TLSServerCert : string;
  TLSServerKey : string;
  TLSClientCA : string;
  PodNetwork_external : option bool
}.

Record daemon := mkDaemon {
  d_tlsConfig : option TLSConfig;
  d_listenAddr : string;
  d_ready : bool;
  d_stopped : bool;
  d_externalNetViaPodVM : bool
}.

Definition set_data (t : TLSConfig) (ca cert key : string) : TLSConfig :=
  mkTLSConfig (CAFile t) (CertFile t) (KeyFile t) (SkipVerify t) ca cert key.

(** The certificates of the configuration file where the flags name none. *)
Definition daemon_tls (spec : daemon_spec) (t : TLSConfig) : TLSConfig :=
  let t := if HasCertAuth t then t else set_data t (CAData t) (TLSServerCert spec) (TLSServerKey spec) in
  if HasCA t then t else set_data t (TLSClientCA spec) (CertData t) (KeyData t).

Definition NewDaemon (spec : daemon_spec) (listenAddr : string) (tlsConfig : option TLSConfig) : daemon :=
  mkDaemon (daemon_tls spec <$> tlsConfig) listenAddr false false
    (default false (PodNetwork_external spec)).

Definition d_Shutdown (d : daemon) : daemon :=
  mkDaemon (d_tlsConfig d) (d_listenAddr d) (d_ready d) true (d_externalNetViaPodVM d).

Section Daemon.

Context {W : Type} `{DaemonEnv W}.

Record machine_log := mkLog { d_world : W; d_trace : list daemon_event }.

Definition doing {A} (ev : daemon_event) (m : M W A) : M machine_log A := fun s =>
  let '(a, w) := m (d_world s) in (a, mkLog w (d_trace s ++ [ev])).

Definition silently {A} (m : M W A) : M machine_log A := fun s =>
  let '(a, w) := m (d_world s) in (a, mkLog w (d_trace s)).

(** The listener: TLS when configured; a nil configuration is passed on to
    [tls.Listen]. *)
Definition d_listener (d : daemon) : M machine_log (result string) :=
  match d_tlsConfig d with
  | Some t =>
      match fst (GetTLSConfigFor t) with
      | Err e => mret (Err (Errorf "Failed to create tls config: %v" []))
      | Ok c => doing (DListen true) (d_Listen c (d_listenAddr d))
      end
  | None => doing (DListen false) (d_Listen None (d_listenAddr d))
  end.

(** From the listener on: serve until an event; server and interceptor are shut
    down when the function returns. *)
Definition d_serve (d : daemon) (addr : string) : M machine_log (option GoError * daemon) :=
  let d := mkDaemon (d_tlsConfig d) addr (d_ready d) (d_stopped d) (d_externalNetViaPodVM d) in
  let* n := silently d_NewServer in
  match n with
  | Some err => mret (Some (Errorf "failed to create TTRPC server: %w" [err]), d)
  | None =>
      let d := mkDaemon (d_tlsConfig d) addr true (d_stopped d) (d_externalNetViaPodVM d) in
      let* ev := doing DServe d_Serve in
      let r := match ev with
               | CtxDone => (None, d_Shutdown d)
               | Stopped => (None, d)
               | ServeFailed err =>
                   (Some (Errorf "error running TTRPC server for kata agent interceptor: %w" [err]), d)
               end in
      let* _s := doing DServerShutdown d_ServerShutdown in
      let* _c := doing DClose d_Close in
      mret r
  end.

Definition d_Start (d : daemon) : M machine_log (option GoError * daemon) :=
  let* e := doing DSetup d_Setup in
  match e with
  | Some err => mret (Some (Errorf "failed to set up pod network: %w" [err]), d)
  | None =>
      let* l := d_listener d in
      let* r := match l with
                | Err e => mret (Some e, d)
                | Ok addr => d_serve d addr
                end in
      let* _t := doing DTeardown d_Teardown in
      mret r
  end.

End Daemon.
