(* ===== verification/ForwarderProps.v ===== *)
(** * Theorems of the forwarder, and of proxy and forwarder together

    - [daemon_lifecycle]: what the daemon does on every path, in order.
    - [mutual_tls]: the two ends agree on certificates.
    - [ic_CreateContainer_spec]: a container request reaches the agent with the
      pod's network namespace, after its volumes are mounted, or not at all.
    - [csi_volumes_mounted_first]: the volumes that the proxy marks on the worker
      node are the ones the forwarder waits for in the pod VM. *)

From Stdlib Require Import ZArith Ascii String Lia.
From stdpp Require Import base gmap strings list.
From S2P Require Import Prelude ProviderTable Initdata AgentProto Tls Certgen AgentProxy Forwarder.

Open Scope Z_scope.
Open Scope go_scope.

(** ** The daemon *)

Section DaemonProps.

Context {W : Type} `{DaemonEnv W}.

Lemma doing_trace {A} ev (m : M W A) (s : machine_log) :
  d_trace (doing ev m s).2 = d_trace s ++ [ev].
Proof. unfold doing. by destruct (m (d_world s)). Qed.

Lemma silently_trace {A} (m : M W A) (s : machine_log) : d_trace (silently m s).2 = d_trace s.
Proof. unfold silently. by destruct (m (d_world s)). Qed.

Lemma d_serve_trace d addr (s : machine_log) :
  let '((e, d'), s') := d_serve d addr s in
  exists l, d_trace s' = d_trace s ++ l /\
    ((l = [] /\ is_Some e /\ d_ready d' = d_ready d) \/
     (l = [DServe; DServerShutdown; DClose] /\ d_ready d' = true)).
Proof.
  unfold d_serve, mbind. pose proof (silently_trace d_NewServer s) as E0.
  destruct (silently d_NewServer s) as [[err|] s0]; cbn [snd] in E0.
  { cbn. exists []. rewrite app_nil_r. split; [done|]. left. eauto. }
  pose proof (doing_trace DServe d_Serve s0) as E1.
  destruct (doing DServe d_Serve s0) as [ev s1]. cbn [snd] in E1.
  pose proof (doing_trace DServerShutdown d_ServerShutdown s1) as E2.
  destruct (doing DServerShutdown d_ServerShutdown s1) as [e2 s2]. cbn [snd] in E2.
  pose proof (doing_trace DClose d_Close s2) as E3.
  destruct (doing DClose d_Close s2) as [e3 s3]. cbn [snd] in E3.
  destruct ev; cbn; exists [DServe; DServerShutdown; DClose];
    rewrite E3, E2, E1, E0, <- !app_assoc; auto.
Qed.

Lemma d_listener_trace d (s : machine_log) :
  exists l, d_trace (d_listener d s).2 = d_trace s ++ l /\
    (l = [] \/ exists tls, l = [DListen tls]) /\ (is_ok (d_listener d s).1 = true -> l <> []).
Proof.
  unfold d_listener. destruct (d_tlsConfig d) as [t|].
  - destruct (fst (GetTLSConfigFor t)) as [c|e].
    + exists [DListen true]. rewrite doing_trace. eauto.
    + exists []. cbn. rewrite app_nil_r. eauto.
  - exists [DListen false]. rewrite doing_trace. eauto.
Qed.

(** The life cycle of the forwarder, on every path: the pod network is set up
    first and, if that succeeded, torn down last; the daemon is ready exactly when
    it served, and then server and connection to the agent are shut down before the
    network; a run that never got ready returns an error. *)
Theorem daemon_lifecycle spec addr tlsConfig (s : machine_log) :
  let '((e, d'), s') := d_Start (NewDaemon spec addr tlsConfig) s in
  exists l, d_trace s' = d_trace s ++ DSetup :: l /\
    (if d_ready d' then exists tls, l = [DListen tls; DServe; DServerShutdown; DClose; DTeardown]
     else is_Some e /\ (l = [] \/ l = [DTeardown] \/ exists tls, l = [DListen tls; DTeardown])).
Proof.
  unfold d_Start, mbind. set (d := NewDaemon spec addr tlsConfig).
  pose proof (doing_trace DSetup d_Setup s) as E1.
  destruct (doing DSetup d_Setup s) as [[err|] s1]; cbn [snd] in E1.
  { cbn. exists []. rewrite E1. eauto. }
  destruct (d_listener_trace d s1) as (l & El & Hl & Hne).
  destruct (d_listener d s1) as [[a|err] s2]; cbn [fst snd is_ok] in *.
  - pose proof (d_serve_trace d a s2) as Es. destruct (d_serve d a s2) as [[e d'] s3].
    destruct Es as (l2 & E3 & Hl2). pose proof (doing_trace DTeardown d_Teardown s3) as E4.
    destruct (doing DTeardown d_Teardown s3) as [e4 s4]. cbn in *.
    destruct Hl as [->|[tls ->]]; [by destruct (Hne eq_refl)|].
    exists ([DListen tls] ++ l2 ++ [DTeardown]). rewrite E4, E3, El, E1, <- !app_assoc. split; [done|].
    destruct Hl2 as [(-> & He & ->)|(-> & ->)]; [|eauto]. cbn. eauto.
  - cbn. pose proof (doing_trace DTeardown d_Teardown s2) as E4.
    destruct (doing DTeardown d_Teardown s2) as [e4 s4]. cbn in *.
    exists (l ++ [DTeardown]). rewrite E4, El, E1, <- !app_assoc. split; [done|]. split; [eauto|].
    destruct Hl as [->|[tls ->]]; eauto.
Qed.

End DaemonProps.

(** ** Certificates of the two ends *)

Section MutualTls.

Context {W : Type} `{AgentEnv W} `{TlsEnv} `{CertLaws W}.

(** C23: Automatic mutual TLS: when the adaptor has no authority file and passes the
    certificate of its proxy factory to the pod VM ([TLSClientCA]), a forwarder
    whose flags name no authority demands a client certificate and verifies it:
    whenever it can make a TLS configuration, that configuration requires and
    verifies client certificates, and the forwarder does not skip verification. *)
Theorem mutual_tls img t w f w' spec tf c tf' :
  NewFactory img (Some t) w = (Return f, w') -> CAFile t = "" -> CertFile t = "" ->
  TLSClientCA spec = ClientCA f ->
  GetTLSConfigFor (daemon_tls spec tf) = (Ok c, tf') ->
  exists cfg, c = Some cfg /\ ClientAuth cfg = RequireAndVerifyClientCert /\
    InsecureSkipVerify cfg = false /\ MinVersion cfg = VersionTLS12.
Proof.
  intros Hf Hca Hcf Hspec Hget.
  assert (Hcert : nonempty (ClientCA f) = true).
  { unfold NewFactory, mbind in Hf. destruct (ensure_cert t w) as [[t1|] w1] eqn:E1; [|done].
    destruct (ensure_ca t1 w1) as [[[t2 ca]|] w2] eqn:E2; [|done]. injection Hf as <- <-.
    assert (Ht1 : CAFile t1 = "" /\ nonempty (CertData t1) = true).
    { unfold ensure_cert in E1. destruct (HasCertAuth t) eqn:E.
      - injection E1 as <- <-. split; [done|]. unfold HasCertAuth in E. rewrite Hcf in E.
        apply andb_prop in E as [E _]. by rewrite orb_false_r in E.
      - unfold NewClientCertificate, mbind in E1.
        destruct (generateCertificate _ _ _ _ _ w) as [[p|] wx] eqn:Eg; [|done]. injection E1 as <- <-.
        split; [done|]. by apply nonempty_true, (generated_nonempty _ _ _ _ _ _ _ _ Eg). }
    assert (Ht2 : CAFile t2 = CAFile t1 /\ CertData t2 = CertData t1).
    { unfold ensure_ca in E2. destruct (HasCA t1); [by injection E2 as <- <- <-|].
      unfold mbind in E2. destruct (NewCAService _ w1) as [[sca|] wx]; [|done]. by injection E2 as <- <- <-. }
    destruct Ht1 as [Ha Hc], Ht2 as [Ha2 Hc2]. unfold ClientCA. cbn [f_tlsConfig].
    rewrite Ha2, Ha. cbn. by rewrite Hc2. }
  assert (Hhas : HasCA (daemon_tls spec tf) = true).
  { unfold daemon_tls. set (t1 := if HasCertAuth tf then tf else _).
    destruct (HasCA t1) eqn:E; [done|]. unfold HasCA. cbn. by rewrite Hspec, Hcert. }
  pose proof (GetTLSConfigFor_promise _ _ _ Hget) as Hp. destruct c as [cfg|].
  - destruct Hp as (Hm & _ & Hauth & _). destruct (Hauth Hhas) as [Hi Hr]. exists cfg. auto.
  - destruct Hp as [Hp _]. congruence.
Qed.

End MutualTls.

(** ** Waiting for volumes *)

Class MountLaws (W : Type) `{InterceptorEnv W} := {
  is_mounted : string -> W -> Prop;
  Mounted_true : forall p w, (Mounted p w).1 = Ok true -> is_mounted p (Mounted p w).2;
  mounted_stays : forall p w, is_mounted p w ->
    (forall q, is_mounted p (Mounted q w).2) /\ (forall q, is_mounted p (ic_Stat q w).2) /\
    (forall q, is_mounted p (ic_MkdirAll q w).2) /\ is_mounted p (ic_wait w).2
}.

Section Mounts.

Context {W : Type} `{MountLaws W} (nsPath : string) (ticks : nat).

(** A computation of the loop keeps what is mounted. *)
Definition keeps_mounts {A} (m : M W A) : Prop :=
  forall p w, is_mounted p w -> is_mounted p (m w).2.

Lemma keeps_ret {A} (a : A) : keeps_mounts (mret a).
Proof. by intros p w Hp. Qed.

Lemma keeps_bind {A B} (m : M W A) (k : A -> M W B) :
  keeps_mounts m -> (forall a, keeps_mounts (k a)) -> keeps_mounts (mbind m k).
Proof.
  intros Hm Hk p w Hp. unfold mbind. specialize (Hm p w Hp). destruct (m w) as [a w1]. by apply Hk.
Qed.

Lemma keeps_ops :
  (forall q, keeps_mounts (Mounted q)) /\ (forall q, keeps_mounts (ic_Stat q)) /\
  (forall q, keeps_mounts (ic_MkdirAll q)) /\ keeps_mounts ic_wait.
Proof.
  split_and!; intros; intros p w Hp; apply mounted_stays in Hp as (? & ? & ? & ?); auto.
Qed.

Ltac keep :=
  repeat lazymatch goal with
  | |- keeps_mounts (mret _) => apply keeps_ret
  | |- keeps_mounts (mbind _ _) => apply keeps_bind; [|intros ?]
  | |- keeps_mounts (Mounted _) => apply keeps_ops
  | |- keeps_mounts (ic_Stat _) => apply keeps_ops
  | |- keeps_mounts (ic_MkdirAll _) => apply keeps_ops
  | |- keeps_mounts ic_wait => apply keeps_ops
  | |- keeps_mounts (match ?x with _ => _ end) => destruct x
  end.

Lemma mount_attempts_keeps n p : keeps_mounts (mount_attempts n p).
Proof. induction n as [|n IH]; cbn [mount_attempts]; keep; exact IH. Qed.

Lemma mount_attempts_ok n p w w' : mount_attempts n p w = (None, w') -> is_mounted p w'.
Proof.
  revert w. induction n as [|n IH]; intros w; cbn [mount_attempts]; unfold mbind;
    pose proof (Mounted_true p w) as Ht; destruct (Mounted p w) as [[[]|e] w1];
    cbn [fst snd] in Ht; try done; try (intros [= <-]; auto).
  - destruct (ic_wait w1) as [u w2]. apply IH.
  - destruct (ic_wait w1) as [u w2]. apply IH.
Qed.

Lemma wait_keeps p : keeps_mounts (waitForDeviceMounted ticks p).
Proof. unfold waitForDeviceMounted. keep. apply mount_attempts_keeps. Qed.

Lemma wait_ok p w w' : waitForDeviceMounted ticks p w = (None, w') -> is_mounted p w'.
Proof.
  unfold waitForDeviceMounted, mbind. destruct (mount_attempts ticks p w) as [[e|] w1] eqn:E; [done|].
  intros [= <-]. by eapply mount_attempts_ok.
Qed.

Lemma create_source_keeps m : keeps_mounts (create_source m).
Proof. unfold create_source. keep. Qed.

(** Some entry of the annotation names the path. *)
Definition is_target (targets : list string) (path : string) : bool :=
  existsb (fun t => isTargetPath path (TrimSpace t)) targets.

Lemma wait_targets_keeps p targets : keeps_mounts (wait_targets ticks p targets).
Proof.
  induction targets as [|t targets IH]; cbn [wait_targets]; keep; try exact IH. apply wait_keeps.
Qed.

Lemma wait_targets_ok p targets w w' :
  wait_targets ticks p targets w = (None, w') -> is_target targets p = true -> is_mounted p w'.
Proof.
  revert w. induction targets as [|t targets IH]; intros w; [done|]. cbn [wait_targets is_target existsb].
  destruct (isTargetPath p (TrimSpace t)); [|apply IH]. unfold mbind.
  destruct (waitForDeviceMounted ticks p w) as [[e|] w1] eqn:E; [done|]. intros Er _.
  apply wait_ok in E. pose proof (wait_targets_keeps p targets p w1 E) as Hk. by rewrite Er in Hk.
Qed.

Lemma prepare_keeps targets ms : keeps_mounts (prepare_mounts ticks targets ms).
Proof.
  induction ms as [|m ms IH]; cbn [prepare_mounts]; keep; try exact IH;
    [apply create_source_keeps|apply wait_targets_keeps].
Qed.

Lemma prepare_ok targets ms w w' :
  prepare_mounts ticks targets ms w = (None, w') ->
  forall m, m ∈ ms -> is_target targets (Source m) = true -> is_mounted (Source m) w'.
Proof.
  revert w. induction ms as [|m0 ms IH]; intros w; cbn [prepare_mounts]; [set_solver|].
  unfold mbind. destruct (create_source m0 w) as [u w1].
  destruct (wait_targets ticks (Source m0) targets w1) as [[e|] w2] eqn:E; [done|]. intros Er m Hm Ht.
  apply elem_of_cons in Hm as [->|Hm]; [|by eapply IH].
  pose proof (prepare_keeps targets ms (Source m0) w2 (wait_targets_ok _ _ _ _ E Ht)) as Hk.
  by rewrite Er in Hk.
Qed.

(** A container request that the forwarder receives either fails without reaching
    the agent, or is passed on with the pod's network namespace appended and
    nothing else changed, at a moment when every volume that the annotation names
    as a mount of the container is mounted in the pod VM. *)
Theorem ic_CreateContainer_spec req spec linux (s : redirector) :
  OCI req = Some spec -> spec_Linux spec = Some linux ->
  let call := ic_CreateContainer nsPath ticks req s in
  (exists e s', call = (Return (Err e), s') /\ log s' = log s) \/
  (exists s1, call = redirect CreateContainer (with_namespace nsPath req spec linux) s1 /\
     log s1 = log s /\
     forall m, m ∈ Mounts spec -> is_target (volume_targets spec) (Source m) = true ->
       is_mounted (Source m) (net s1)).
Proof.
  intros Ho Hl. unfold ic_CreateContainer, mbind, on_net. rewrite Ho, Hl.
  destruct (prepare_mounts ticks (volume_targets spec) (Mounts spec) (net s)) as [[e|] w1] eqn:E.
  - left. by eexists _, _.
  - right. eexists. split; [done|]. split; [done|]. cbn [net]. by eapply prepare_ok.
Qed.

End Mounts.

(** ** Marking volumes on the worker node *)

Lemma split_on_app_sep sep s t :
  split_on sep (s +:+ String sep t) = split_on sep s ++ split_on sep t.
Proof.
  induction s as [|c s IH]; [rewrite string_app_nil; cbn [split_on]; by rewrite Ascii.eqb_refl|].
  rewrite string_app_cons. cbn [split_on]. destruct (Ascii.eqb c sep); [by rewrite IH|].
  rewrite IH. by destruct (split_on sep s) eqn:E; [destruct s; cbn in E; repeat case_match|].
Qed.

Section Marking.

Context {W : Type} `{ProxyEnv W}.

(** The answers of the file system to the look-ups of the loop. *)
Context (known : string -> bool).
Hypothesis stat_known : forall p w, match (px_Stat p w).1 with None => true | Some _ => false end = known p.

(** The volumes that the proxy recognises. *)
Definition recognised (path : string) : bool :=
  (Contains_sub (path_Clean path) ("/volumes/" +:+ csiPluginEscapeQualifiedName +:+ "/") &&
   known (filepath_Join [kataDirectVolumesDir; URLEncodeToString path]))%bool.

Lemma recognised_run path w : (isNodePublishVolumeTargetPath path kataDirectVolumesDir w).1 = recognised path.
Proof.
  unfold isNodePublishVolumeTargetPath, recognised. destruct (Contains_sub _ _); [|done].
  cbn [andb]. rewrite <- (stat_known _ w). unfold mbind. by destruct (px_Stat _ w).
Qed.

Definition entries (ann : gmap string string) : list string :=
  split_on "," (default EmptyString (ann !! volumeTargetPathKey)).

(** A path that survives the annotation: no comma, no white space around it. *)
Definition annotatable (path : string) : Prop :=
  contains_byte "," path = false /\ TrimSpace path = path /\ path <> EmptyString.

Lemma is_target_app l1 l2 p : is_target (l1 ++ l2) p = (is_target l1 p || is_target l2 p)%bool.
Proof. apply existsb_app. Qed.

Lemma is_target_one path p : annotatable path -> is_target [path] p = String.eqb path p.
Proof.
  intros (_ & Ht & Hne). unfold is_target, isTargetPath. cbn [existsb].
  rewrite Ht, orb_false_r, nonempty_true by done. done.
Qed.

(** The annotation before mount [i]: still empty before the first one. *)
Definition ann_ready (i : nat) (m : gmap string string) : Prop :=
  i = 0%nat -> default EmptyString (m !! volumeTargetPathKey) = EmptyString.

(** One mount adds its source to the entries exactly when it is recognised. *)
Lemma annotate_mount_spec i mt m w :
  ann_ready i m -> (recognised (Source mt) = true -> annotatable (Source mt)) ->
  exists m' w', annotate_mount i mt (Some m) w = (Return (Some m'), w') /\
    (forall p, is_target (entries m') p =
       (is_target (entries m) p || (recognised (Source mt) && String.eqb (Source mt) p))%bool) /\
    (forall k, k <> volumeTargetPathKey -> m' !! k = m !! k).
Proof.
  intros Hr Ha. unfold annotate_mount, mbind. pose proof (recognised_run (Source mt) w) as Er.
  destruct (isNodePublishVolumeTargetPath _ _ w) as [b w1]. cbn [fst] in Er. subst b.
  destruct (recognised (Source mt)) eqn:Erec.
  2:{ eexists _, _. split; [done|]. split; [|done]. intros p. by rewrite orb_false_r. }
  specialize (Ha eq_refl). destruct (Nat.ltb_spec 0 i) as [Hi|Hi]; cbn.
  - eexists _, _. split; [done|]. split.
    + intros p. unfold entries. rewrite !lookup_insert_eq. cbn [from_option id].
      rewrite string_app_assoc, string_app_one, split_on_app_sep, is_target_app. f_equal.
      rewrite (split_on_none _ _ (proj1 Ha)). by apply is_target_one.
    + intros k Hk. by rewrite !lookup_insert_ne by done.
  - eexists _, _. split; [done|]. split.
    + intros p. unfold entries. rewrite lookup_insert_eq. cbn [from_option id].
      assert (i = 0%nat) as Hi0 by lia. rewrite (Hr Hi0), string_app_nil.
      rewrite (split_on_none _ _ (proj1 Ha)), is_target_one by done. done.
    + intros k Hk. by rewrite lookup_insert_ne by done.
Qed.

(** The whole loop: the entries are the recognised sources. *)
Lemma annotate_mounts_spec i ms m w :
  ann_ready i m -> (forall mt, mt ∈ ms -> recognised (Source mt) = true -> annotatable (Source mt)) ->
  exists m' w', annotate_mounts i ms (Some m) w = (Return (Some m'), w') /\
    (forall p, is_target (entries m') p =
       (is_target (entries m) p || existsb (fun mt => recognised (Source mt) && String.eqb (Source mt) p) ms)%bool) /\
    (forall k, k <> volumeTargetPathKey -> m' !! k = m !! k).
Proof.
  revert i m w. induction ms as [|mt ms IH]; intros i m w Hr Ha; cbn [annotate_mounts existsb].
  - eexists _, _. split; [done|]. split; [|done]. intros p. by rewrite orb_false_r.
  - unfold mbind. destruct (annotate_mount_spec i mt m w Hr) as (m1 & w1 & E1 & H1 & K1).
    { apply Ha. left. }
    rewrite E1. destruct (IH (S i) m1 w1) as (m2 & w2 & E2 & H2 & K2).
    { done. } { intros mt' Hm. apply Ha. by right. }
    exists m2, w2. split; [done|]. split.
    + intros p. by rewrite H2, H1, orb_assoc.
    + intros k Hk. by rewrite K2, K1.
Qed.

End Marking.

(** ** Proxy and forwarder together *)

Section Together.

Context {Wn : Type} `{ProxyEnv Wn} (known : string -> bool).
Hypothesis stat_known : forall p w, match (px_Stat p w).1 with None => true | Some _ => false end = known p.

Context {Wp : Type} `{MountLaws Wp} (nsPath : string) (ticks : nat).

Lemma entries_add_cdi ann :
  exists ann', add_cdi (Some ann) = Some ann' /\ entries ann' = entries ann.
Proof.
  unfold add_cdi. destruct (nonempty _); [|by exists ann].
  eexists. split; [done|]. unfold entries. by rewrite lookup_insert_ne by done.
Qed.

(** C11: Volumes across the two machines: when a container with CSI volumes is created,
    the proxy on the worker node passes on one request, with the same mounts, whose
    annotation names exactly the volumes it recognised; and the forwarder in the pod
    VM that receives this request lets it reach the agent only when all of those
    volumes are mounted there (otherwise it answers with an error and sends
    nothing). *)
Theorem csi_volumes_mounted_first req spec linux ann (s : @redirector Wn _) :
  OCI req = Some spec -> Annotations spec = Some ann -> spec_Linux spec = Some linux ->
  ann !! volumeTargetPathKey = None ->
  (forall m, m ∈ Mounts spec -> recognised known (Source m) = true -> annotatable (Source m)) ->
  exists req' spec' s1,
    proxy_CreateContainer req s = redirect CreateContainer req' s1 /\ log s1 = log s /\
    OCI req' = Some spec' /\ Mounts spec' = Mounts spec /\
    (forall m, m ∈ Mounts spec ->
       is_target (volume_targets spec') (Source m) = recognised known (Source m)) /\
    forall t : @redirector Wp _,
      let call := ic_CreateContainer nsPath ticks req' t in
      (exists e t', call = (Return (Err e), t') /\ log t' = log t) \/
      (exists t1, call = redirect CreateContainer (with_namespace nsPath req' spec' linux) t1 /\
         log t1 = log t /\
         forall m, m ∈ Mounts spec -> recognised known (Source m) = true ->
           is_mounted (Source m) (net t1)).
Proof.
  intros Ho Han Hl Habs Hann.
  destruct (annotate_mounts_spec known stat_known 0 (Mounts spec) ann (net s)) as (m1 & w1 & E1 & Hent & _).
  { intros _. by rewrite Habs. } { done. }
  destruct (entries_add_cdi m1) as (m2 & E2 & Hcdi).
  set (spec' := mkSpec (Mounts spec) (Some m2) (spec_Linux spec) (spec_other spec)).
  set (req' := with_annotations req spec (Some m2)).
  assert (Htarget : forall m, m ∈ Mounts spec ->
    is_target (volume_targets spec') (Source m) = recognised known (Source m)).
  { intros m Hm. unfold volume_targets. change (is_target (entries m2) (Source m) = recognised known (Source m)).
    assert (Hnone : is_target (entries ann) (Source m) = false) by (unfold entries; by rewrite Habs).
    rewrite Hcdi, Hent, Hnone, orb_false_l.
    apply eq_true_iff_eq. rewrite existsb_exists. split.
    - intros (m' & _ & Hm'). apply andb_prop in Hm' as [Hr He]. apply String.eqb_eq in He. by rewrite <- He.
    - intros Hr. exists m. split; [by apply list_elem_of_In|]. by rewrite Hr, String.eqb_refl. }
  exists req', spec', (mkRedirector (once s) (agentClient s) (dials s) (log s) w1).
  split; [|split; [done|split; [done|split; [done|split; [done|]]]]].
  - unfold proxy_CreateContainer, mbind, on_net. rewrite Ho, Han, E1. by rewrite E2.
  - intros t. cbv zeta. unfold ic_CreateContainer, mbind, on_net. cbn [OCI req' with_annotations].
    fold spec'. cbn [spec_Linux spec']. rewrite Hl. cbn [Mounts spec'].
    destruct (prepare_mounts ticks (volume_targets _) (Mounts spec) (net t)) as [[e|] w2] eqn:E.
    + left. by eexists _, _.
    + right. eexists. split; [done|]. split; [done|]. intros m Hm Hr. cbn [net].
      eapply prepare_ok; [exact E|done|]. by rewrite Htarget.
Qed.

End Together.

(** ** Executable machines and witnesses *)

(** A forwarder with the generated certificate of the proxy. *)
Example mutual_tls_witness :
  exists f w, bench_factory false = (Return f, w) /\
  forall c tf', @GetTLSConfigFor bench_tls (daemon_tls (mkDaemonSpec "crt" "key" (ClientCA f) None)
                  (mkTLSConfig "" "" "" false "" "" "")) = (Ok c, tf') ->
  exists cfg, c = Some cfg /\ ClientAuth cfg = RequireAndVerifyClientCert /\
    InsecureSkipVerify cfg = false /\ MinVersion cfg = VersionTLS12.
Proof.
  destruct (bench_factory_made false) as (f & w & E). exists f, w. split; [done|]. intros c tf' Hget.
  exact (@mutual_tls Z bench_tls bench_certs bench_certs_laws _ _ _ _ _
           (mkDaemonSpec "crt" "key" (ClientCA f) None) _ _ _ E eq_refl eq_refl eq_refl Hget).
Defined.

Definition csi_source : string := "/var/lib/kubelet/pods/1/volumes/kubernetes.io~csi/pv/mount".

(** A machine is the list of its mounted paths; the volume appears while waiting. *)
#[local] Instance demo_agent : AgentEnv (list string) := bench_agent (fun _ => true).

#[local] Instance demo_proxy : ProxyEnv (list string) := {|
  px_Stat := fun _ w => (None, w);
  px_MkdirAll := fun _ w => (None, w);
  px_Remove := fun _ w => (None, w);
  px_Listen := fun _ w => (None, w);
  px_NewServer := fun w => (None, w);
  px_Serve := fun w => (Stopped, w);
  px_ServerShutdown := fun w => (None, w)
|}.

#[local] Instance demo_podvm : InterceptorEnv (list string) := {|
  ic_Stat := fun _ w => (None, w);
  ic_MkdirAll := fun _ w => (None, w);
  Mounted := fun p w => (Ok (slice_contains w p), w);
  ic_wait := fun w => (tt, csi_source :: w);
  ic_ctxErr := Sentinel "context deadline exceeded"
|}.

#[local, program] Instance demo_mounts : MountLaws (list string) := {|
  is_mounted := fun p w => slice_contains w p = true
|}.
Next Obligation. intros p w E. cbn in *. by injection E. Qed.
Next Obligation.
  intros p w E. split_and!; [done..|]. cbn [ic_wait demo_podvm snd slice_contains].
  by destruct (String.eqb csi_source p).
Qed.

Definition demo_spec : Spec :=
  mkSpec [mkMount "/etc/hosts" "/run/hosts" "bind"; mkMount "/data" csi_source "bind"] (Some ∅)
    (Some (mkLinux [] "")) "".
Definition demo_request : CreateContainerRequest := mkCreateContainer "c1" (Some demo_spec) [] "".

Example csi_volumes_mounted_first_witness :
  exists req' spec' s1,
    proxy_CreateContainer demo_request (NewRedirector []) = redirect CreateContainer req' s1 /\
    Mounts spec' = Mounts demo_spec /\
    is_target (volume_targets spec') csi_source = true /\
    forall t : redirector,
      let call := ic_CreateContainer "/run/netns/podns" 3 req' t in
      (exists e t', call = (Return (Err e), t') /\ log t' = log t) \/
      (exists t1, call = redirect CreateContainer (with_namespace "/run/netns/podns" req' spec' (mkLinux [] "")) t1 /\
         is_mounted csi_source (net t1)).
Proof.
  destruct (csi_volumes_mounted_first (fun _ => true) ltac:(done) "/run/netns/podns" 3
    demo_request demo_spec (mkLinux [] "") ∅ (NewRedirector [])) as
    (req' & spec' & s1 & E1 & _ & _ & E2 & Ht & Hf); [done|done|done|done| |].
  { intros m Hm. repeat (apply elem_of_cons in Hm as [->|Hm]; [by vm_compute|]). by apply elem_of_nil in Hm. }
  assert (Hin : mkMount "/data" csi_source "bind" ∈ Mounts demo_spec) by (right; left).
  exists req', spec', s1. split; [exact E1|]. split; [exact E2|].
  split; [exact (Ht _ Hin)|]. intros t. destruct (Hf t) as [Hl|(t1 & E & _ & Hm)]; [by left|].
  right. exists t1. split; [exact E|]. by apply (Hm _ Hin).
Defined.

(** The forwarder waits until the volume is there and then passes the request on. *)
Example demo_waits :
  map (fun x => match x with Sent m _ => m end)
    (log (ic_CreateContainer "/run/netns/podns" 3
      (with_annotations demo_request demo_spec (Some {[volumeTargetPathKey := ("," +:+ csi_source)%string]}))
      (NewRedirector [])).2) = [CreateContainer].
Proof. vm_compute. reflexivity. Qed.
