(* ===== verification/NodeOps.v ===== *)
(** * Operations on the worker node's Kubernetes objects

    Models src/cloud-api-adaptor/pkg/adaptor/k8sops/node.go (the extended resource
    that limits the pod VMs of a node, and the image pull secrets of a pod),
    namespace.go, and pkg/probe (the start-up probe of the adaptor).

    The Kubernetes client, the environment and JSON are operations of [NodeEnv];
    [NodeLaws] describes a node's capacities and what a JSON patch does to them. *)

From Stdlib Require Import ZArith Ascii String Lia.
From stdpp Require Import base gmap strings list fin_maps.
From S2P Require Import Prelude NetAddr Initdata.

Open Scope Z_scope.
Open Scope go_scope.

(** ** Data *)

Record jsonPatch := mkPatch { Op : string; patch_Path : string; Value : string }.

Record Auth := mkAuth { Username : string; Password : string; auth_Auth : string }.
Notation Registries := (gmap string Auth).

Record PodSecrets := mkPodSecrets { ServiceAccountName : string; ImagePullSecrets : list string }.

Class NodeEnv (W : Type) := {
  node_Getenv : string -> string;
  node_ReadFile : string -> result string;
  kube_config : option GoError;
  kube_client : option GoError;
  json_patches : list jsonPatch -> result string;
  Nodes_Patch : string -> string -> M W (option GoError);
  Pods_Get : string -> string -> M W (result PodSecrets);
  ServiceAccounts_Get : string -> string -> M W (result (list string));
  (** the data of a secret *)
  Secrets_Get : string -> string -> M W (result (gmap string string));
  json_dockerconfig : string -> result Registries;
  json_dockercfg : string -> result Registries;
  json_auths : Registries -> result string
}.

(** ** node.go *)

Fixpoint replace_slash (s : string) : string :=
  match s with
  | EmptyString => EmptyString
  | String c rest =>
      if Ascii.eqb c "/" then "~1" +:+ replace_slash rest else String c (replace_slash rest)
  end.

Definition newJsonPatch (verb jsonpath key value : string) : jsonPatch :=
  mkPatch verb (filepath_Join [jsonpath; replace_slash key]) value.

Section NodeOps.

Context {W : Type} `{NodeEnv W}.

(** [getKubeConfig] and [getClient]: the error of the first that fails. *)
Definition kube_setup : option GoError :=
  match kube_config with
  | Some _ => Some (Errorf "failed to get k8s config: %v" [])
  | None =>
      match kube_client with
      | Some _ => Some (Errorf "failed to get k8s client: %v" [])
      | None => None
      end
  end.

Definition patchNodeStatus (nodeName : string) (patches : list jsonPatch) : M W (option GoError) :=
  match patches with
  | [] => mret None
  | _ =>
      match json_patches patches with
      | Err e => mret (Some e)
      | Ok data => Nodes_Patch nodeName data
      end
  end.

Definition patch_node (p : jsonPatch) : M W (option GoError) :=
  match kube_setup with
  | Some e => mret (Some e)
  | None => patchNodeStatus (node_Getenv "NODE_NAME") [p]
  end.

Definition AdvertiseExtendedResources (peerPodsLimitPerNode : Z) : M W (option GoError) :=
  if peerPodsLimitPerNode <? 0 then mret None
  else patch_node (newJsonPatch "add" "/status/capacity" "kata.peerpods.io~1vm"
                     (FormatInt peerPodsLimitPerNode)).

Definition RemoveExtendedResources : M W (option GoError) :=
  patch_node (newJsonPatch "remove" "/status/capacity" "kata.peerpods.io~1vm" "").

Definition IsKubernetesEnvironment : bool := nonempty (node_Getenv "NODE_NAME").

(** The registries that a secret holds. *)
Definition secret_registries (data : gmap string string) : result Registries :=
  match data !! ".dockerconfigjson"%string with
  | Some d => json_dockerconfig d
  | None =>
      match data !! ".dockercfg"%string with
      | Some d => json_dockercfg d
      | None => Ok ∅
      end
  end.

(** The credentials of one registry, blanked and encoded; [None] is skipped. *)
Definition usable_auth (creds : Auth) : option Auth :=
  if nonempty (auth_Auth creds) then Some (mkAuth "" "" (auth_Auth creds))
  else if (nonempty (Username creds) && nonempty (Password creds))%bool
       then Some (mkAuth "" "" (EncodeToString (Username creds +:+ ":" +:+ Password creds)))
       else None.

Definition add_registry (auths : Registries) (entry : string * Auth) : Registries :=
  match usable_auth (snd entry) with
  | Some a => <[fst entry := a]> auths
  | None => auths
  end.

Definition addAuths `{GoMapOrder} (namespace secretName : string) (auths : Registries)
    : M W (result Registries) :=
  let* s := Secrets_Get namespace secretName in
  mret match s with
       | Err _ => Ok auths
       | Ok data =>
           match secret_registries data with
           | Err e => Err e
           | Ok registries => Ok (foldl add_registry auths (map_order registries))
           end
       end.

Fixpoint add_all_auths `{GoMapOrder} (namespace : string) (secrets : list string) (auths : Registries)
    : M W (result Registries) :=
  match secrets with
  | [] => mret (Ok auths)
  | s :: rest =>
      let* r := addAuths namespace s auths in
      match r with
      | Err e => mret (Err e)
      | Ok auths => add_all_auths namespace rest auths
      end
  end.

(** The credentials: those of the service account, then those of the pod. *)
Definition collect_auths `{GoMapOrder} (podName namespace : string) : M W (result Registries) :=
  let* p := Pods_Get namespace podName in
  match p with
  | Err e => mret (Err e)
  | Ok pod =>
      let accountName := if nonempty (ServiceAccountName pod) then ServiceAccountName pod else "default"%string in
      let* a := ServiceAccounts_Get namespace accountName in
      match a with
      | Err e => mret (Err e)
      | Ok secrets =>
          let* r := add_all_auths namespace secrets ∅ in
          match r with
          | Err e => mret (Err e)
          | Ok auths => add_all_auths namespace (ImagePullSecrets pod) auths
          end
      end
  end.

Definition GetImagePullSecrets `{GoMapOrder} (podName namespace : string) : M W (result (option string)) :=
  match kube_setup with
  | Some e => mret (Err e)
  | None =>
      let* r := collect_auths podName namespace in
      mret match r with
           | Err e => Err e
           | Ok auths =>
               if decide (auths = ∅) then Ok None
               else match json_auths auths with Ok j => Ok (Some j) | Err e => Err e end
           end
  end.

(** ** namespace.go *)

Definition ServiceAccountNamespaceFile : string :=
  "/var/run/secrets/kubernetes.io/serviceaccount/namespace".
Definition DefaultNamespace : string := "confidential-containers-system".

Definition GetCurrentNamespace : result string :=
  let from_env :=
    let namespace := node_Getenv "POD_NAMESPACE" in
    if nonempty namespace then Ok namespace
    else Err (Errorf "unable to detect current namespace: service account file not found and POD_NAMESPACE environment variable not set" []) in
  match node_ReadFile ServiceAccountNamespaceFile with
  | Ok namespace => if nonempty namespace then Ok namespace else from_env
  | Err _ => from_env
  end.

Definition GetCurrentNamespaceWithDefault : string :=
  match GetCurrentNamespace with Ok n => n | Err _ => DefaultNamespace end.

End NodeOps.

(** ** Theorems: the extended resource *)

(** A node's capacities; a patch of one entry adds or removes it, and removing an
    entry that is not there fails. *)
Class NodeLaws (W : Type) `{NodeEnv W} := {
  capacity : string -> W -> gmap string string;
  kube_works : kube_config = None /\ kube_client = None;
  patches_marshal : forall p, is_ok (json_patches [p]) = true;
  Patch_add : forall node key value data w,
    json_patches [mkPatch "add" ("/status/capacity/" +:+ key) value] = Ok data ->
    (Nodes_Patch node data w).1 = None /\
    capacity node (Nodes_Patch node data w).2 = <[key := value]> (capacity node w);
  Patch_remove : forall node key data w,
    json_patches [mkPatch "remove" ("/status/capacity/" +:+ key) ""] = Ok data ->
    is_Some (capacity node w !! key) ->
    (Nodes_Patch node data w).1 = None /\
    capacity node (Nodes_Patch node data w).2 = delete key (capacity node w)
}.

Section NodeProps.

Context {W : Type} `{NodeLaws W}.

Definition vm_resource : string := "kata.peerpods.io~1vm".

Lemma vm_patch verb value :
  newJsonPatch verb "/status/capacity" "kata.peerpods.io~1vm" value =
  mkPatch verb ("/status/capacity/" +:+ vm_resource) value.
Proof. reflexivity. Qed.

(** The limit of pod VMs on a node: advertising a limit sets the extended resource
    to its decimal and nothing else; a negative limit changes nothing; and removing
    the resource afterwards gives back the capacities the node had, if it did not
    advertise the resource before. *)
Theorem extended_resource_roundtrip limit w :
  let node := node_Getenv "NODE_NAME" in
  let adv := AdvertiseExtendedResources limit w in
  adv.1 = None /\
  capacity node adv.2 = (if limit <? 0 then capacity node w
                         else <[vm_resource := FormatInt limit]> (capacity node w)) /\
  (0 <= limit -> capacity node w !! vm_resource = None ->
   (RemoveExtendedResources adv.2).1 = None /\
   capacity node (RemoveExtendedResources adv.2).2 = capacity node w).
Proof.
  cbv zeta. destruct kube_works as [Ec Ek].
  unfold AdvertiseExtendedResources, RemoveExtendedResources, patch_node, kube_setup.
  rewrite Ec, Ek, !vm_patch. unfold patchNodeStatus.
  destruct (Z.ltb_spec limit 0) as [Hneg|Hpos]; [by split_and!; [..|lia]|].
  pose proof (patches_marshal (mkPatch "add" ("/status/capacity/" +:+ vm_resource) (FormatInt limit))) as Ma.
  destruct (json_patches [mkPatch "add" _ _]) as [da|] eqn:Ea; [|done].
  destruct (Patch_add (node_Getenv "NODE_NAME") _ _ _ w Ea) as [A1 A2].
  split_and!; [done..|]. intros _ Hno.
  pose proof (patches_marshal (mkPatch "remove" ("/status/capacity/" +:+ vm_resource) "")) as Mr.
  destruct (json_patches [mkPatch "remove" _ _]) as [dr|] eqn:Er; [|done].
  destruct (Patch_remove (node_Getenv "NODE_NAME") _ _
    (Nodes_Patch (node_Getenv "NODE_NAME") da w).2 Er) as [R1 R2].
  { rewrite A2, lookup_insert_eq. eauto. }
  split; [done|]. rewrite R2, A2. by apply delete_insert_id.
Qed.

End NodeProps.

(** ** Theorems: pull secrets *)

Section SecretProps.

Context {W : Type} `{NodeEnv W} `{GoMapOrder}.

(** Credentials in the form that is delivered: no user name, no password. *)
Definition delivered_auth (a : Auth) : Prop :=
  Username a = "" /\ Password a = "" /\ auth_Auth a <> "".

Lemma EncodeToString_nonempty s : s <> "" -> EncodeToString s <> "".
Proof. by destruct s as [|[] [|[] [|[] s]]]. Qed.

Lemma usable_auth_delivered creds a : usable_auth creds = Some a -> delivered_auth a.
Proof.
  unfold usable_auth, delivered_auth, nonempty.
  destruct (String.eqb_spec (auth_Auth creds) "") as [->|Hne]; cbn [negb].
  - destruct (_ && _)%bool; [|done]. intros [= <-]. cbn. split_and!; [done..|].
    apply EncodeToString_nonempty. by destruct (Username creds).
  - by intros [= <-].
Qed.

Lemma add_registry_delivered auths e :
  map_Forall (fun _ => delivered_auth) auths -> map_Forall (fun _ => delivered_auth) (add_registry auths e).
Proof.
  intros Ha. unfold add_registry. destruct (usable_auth (snd e)) eqn:E; [|done].
  apply map_Forall_insert_2; [by eapply usable_auth_delivered|done].
Qed.

Lemma addAuths_delivered ns name auths w auths' w' :
  map_Forall (fun _ => delivered_auth) auths ->
  addAuths ns name auths w = (Ok auths', w') -> map_Forall (fun _ => delivered_auth) auths'.
Proof.
  intros Ha. unfold addAuths, mbind. destruct (Secrets_Get ns name w) as [[data|] w1].
  2:{ intros E. injection E as <- <-. done. }
  destruct (secret_registries data) as [regs|]; [|done]. intros E. injection E as <- <-.
  revert auths Ha. induction (map_order regs) as [|e l IH]; intros auths Ha; [done|].
  cbn [foldl]. by apply IH, add_registry_delivered.
Qed.

Lemma add_all_delivered ns names auths w auths' w' :
  map_Forall (fun _ => delivered_auth) auths ->
  add_all_auths ns names auths w = (Ok auths', w') -> map_Forall (fun _ => delivered_auth) auths'.
Proof.
  revert auths w. induction names as [|n names IH]; intros auths w Ha; cbn [add_all_auths].
  { intros E. by injection E as <- <-. }
  unfold mbind. destruct (addAuths ns n auths w) as [[auths1|] w1] eqn:E; [|done].
  apply IH. by eapply addAuths_delivered.
Qed.

(** The pull secrets that go into a pod VM: whatever the secrets of the service
    account and of the pod contain, the document handed on is made of registries
    whose entries carry an encoded credential and neither user name nor password,
    and there is no document when no registry has a usable credential. *)
Theorem pull_secrets_delivered podName namespace w j w' :
  GetImagePullSecrets podName namespace w = (Ok j, w') ->
  exists auths, map_Forall (fun _ => delivered_auth) auths /\
    match j with
    | None => auths = ∅
    | Some doc => auths <> ∅ /\ json_auths auths = Ok doc
    end.
Proof.
  unfold GetImagePullSecrets. destruct kube_setup; [done|]. unfold mbind.
  destruct (collect_auths podName namespace w) as [[auths|] w1] eqn:E; [|done].
  intros Ej. exists auths. split.
  - unfold collect_auths, mbind in E. destruct (Pods_Get namespace podName w) as [[pod|] w2]; [|done].
    destruct (ServiceAccounts_Get _ _ w2) as [[secrets|] w3]; [|done].
    destruct (add_all_auths namespace secrets ∅ w3) as [[auths1|] w4] eqn:E1; [|done].
    eapply add_all_delivered; [|exact E]. eapply add_all_delivered; [|exact E1]. apply map_Forall_empty.
  - unfold mret in Ej. destruct (decide (auths = ∅)) as [->|Hne]; [by injection Ej as <- <-|].
    destruct (json_auths auths); [|done]. by injection Ej as <- <-.
Qed.

End SecretProps.

(** ** An executable cluster

    The world is the capacities of the node; a patch is the text of its fields; one
    service account has one secret. *)

Definition patch_fields (p : jsonPatch) : string * string * string := (Op p, patch_Path p, Value p).

Definition apply_patch (f : string * string * string) (w : gmap string string)
    : option GoError * gmap string string :=
  let '(op, path, value) := f in
  let key := TrimPrefix path "/status/capacity/" in
  if String.eqb op "add" then (None, <[key := value]> w)
  else match w !! key with
       | Some _ => (None, delete key w)
       | None => (Some (Sentinel "nonexistent path"), w)
       end.

#[local] Instance bench_node : NodeEnv (gmap string string) := {|
  node_Getenv := fun k => if String.eqb k "NODE_NAME" then "worker-0"%string else EmptyString;
  node_ReadFile := fun _ => Err (Sentinel "file does not exist");
  kube_config := None;
  kube_client := None;
  json_patches := fun ps => Ok (to_text (patch_fields <$> ps));
  Nodes_Patch := fun _ data w =>
    match of_text (A:=list (string * string * string)) data with
    | Some [f] => apply_patch f w
    | _ => (Some (Sentinel "bad patch"), w)
    end;
  Pods_Get := fun _ _ w => (Ok (mkPodSecrets "" []), w);
  ServiceAccounts_Get := fun _ _ w => (Ok ["regcred"%string], w);
  Secrets_Get := fun _ _ w => (Ok {[".dockerconfigjson"%string := EmptyString]}, w);
  json_dockerconfig := fun _ => Ok {["quay.io"%string := mkAuth "u" "p" ""]};
  json_dockercfg := fun _ => Ok ∅;
  json_auths := fun _ => Ok "{}"%string
|}.

#[local, program] Instance bench_node_laws : NodeLaws (gmap string string) := {| capacity := fun _ w => w |}.
Next Obligation. done. Qed.
Next Obligation. done. Qed.
Next Obligation.
  intros node key value data w E. injection E as <-. cbn -[to_text of_text TrimPrefix String.append]. rewrite of_to_text.
  cbn -[TrimPrefix String.append]. by rewrite (TrimPrefix_app "/status/capacity/").
Qed.
Next Obligation.
  intros node key data w E [v Hv]. injection E as <-. cbn -[to_text of_text TrimPrefix String.append]. rewrite of_to_text.
  cbn -[TrimPrefix String.append]. rewrite (TrimPrefix_app "/status/capacity/"). by rewrite Hv.
Qed.

Example extended_resource_roundtrip_witness :
  let adv := AdvertiseExtendedResources 10 (∅ : gmap string string) in
  (RemoveExtendedResources adv.2).1 = None /\
  capacity (node_Getenv "NODE_NAME") (RemoveExtendedResources adv.2).2 =
    capacity (node_Getenv "NODE_NAME") (∅ : gmap string string).
Proof.
  destruct (extended_resource_roundtrip 10 (∅ : gmap string string)) as (_ & _ & Hr).
  exact (Hr ltac:(lia) ltac:(reflexivity)).
Defined.

Example pull_secrets_delivered_witness :
  exists auths : Registries, map_Forall (fun _ => delivered_auth) auths /\ auths <> ∅ /\
    json_auths auths = Ok "{}"%string.
Proof.
  destruct (GetImagePullSecrets "pod" "default" (∅ : gmap string string)) as [r w] eqn:E.
  assert (Hr : r = Ok (Some "{}"%string)).
  { replace r with (GetImagePullSecrets "pod" "default" (∅ : gmap string string)).1 by (by rewrite E).
    vm_compute. reflexivity. }
  subst r. apply pull_secrets_delivered in E as (auths & Ha & Hj). by exists auths.
Defined.
