(* ===== verification/AdaptorServer.v ===== *)
(** * The adaptor's server and its start-up probe

    Models src/cloud-api-adaptor/pkg/adaptor/server.go and pkg/probe (probe.go and
    checker.go).  The server ties the parts of the worker node together: it verifies
    the provider's configuration, advertises the node's resource, serves the
    hypervisor protocol on a socket and cleans up when it is stopped. *)

From Stdlib Require Import ZArith Ascii String Lia.
From stdpp Require Import base gmap strings list.
From S2P Require Import Prelude NetAddr ProviderTable Initdata AgentProto Tls Certgen AgentProxy NodeOps.

Open Scope Z_scope.
Open Scope go_scope.

(** ** server.go *)

(** What the server does, in order. *)
Inductive server_event :=
| SAdvertise | SListen | SServe | SRemoveResources | STeardown | SRpcShutdown.

Class ServerEnv (W : Type) `{NodeEnv W} := {
  sv_ConfigVerifier : M W (option GoError);
  sv_Teardown : M W (option GoError);
  sv_NewServer : M W (option GoError);
  sv_MkdirAll : string -> M W (option GoError);
  sv_RemoveAll : string -> M W (option GoError);
  sv_Listen : string -> M W (option GoError);
  sv_Serve : M W serve_end;
  sv_RpcShutdown : M W (option GoError)
}.

Record server := mkServer {
  sv_socketPath : string;
  enableCloudConfigVerify : bool;
  PeerPodsLimitPerNode : Z;
  sv_ready : bool;
  sv_stopped : bool
}.

Definition NewServer (socketPath : string) (verify : bool) (limit : Z) : server :=
  mkServer socketPath verify limit false false.

Section Server.

Context {W : Type} `{ServerEnv W}.

Record host := mkHost { host_world : W; host_trace : list server_event }.

Definition host_do {A} (evs : list server_event) (m : M W A) : M host A := fun s =>
  let '(a, w) := m (host_world s) in (a, mkHost w (host_trace s ++ evs)).

(** [Shutdown]: the channel is closed once; the resource is removed and the
    provider torn down each time. *)
Definition sv_Shutdown (sv : server) : M host (option GoError * server) :=
  let sv := mkServer (sv_socketPath sv) (enableCloudConfigVerify sv) (PeerPodsLimitPerNode sv)
              (sv_ready sv) true in
  let* _r := host_do [SRemoveResources] RemoveExtendedResources in
  let* e := host_do [STeardown] sv_Teardown in
  mret (e, sv).

(** The first error wins over that of the deferred shutdown. *)
Definition first_error (a b : option GoError) : option GoError :=
  match a with Some _ => a | None => b end.

(** From the listening socket on. *)
Definition sv_serve (sv : server) : M host (option GoError * server) :=
  let sv := mkServer (sv_socketPath sv) (enableCloudConfigVerify sv) (PeerPodsLimitPerNode sv)
              true (sv_stopped sv) in
  let* ev := host_do [SServe] sv_Serve in
  let* r := match ev with
            | CtxDone => sv_Shutdown sv
            | Stopped => mret (None, sv)
            | ServeFailed err => mret (Some err, sv)
            end in
  let* e := host_do [SRpcShutdown] sv_RpcShutdown in
  mret (first_error (fst r) e, snd r).

Definition sv_listen (sv : server) : M host (option GoError * server) :=
  let* e := host_do [] sv_NewServer in
  match e with
  | Some err => mret (Some err, sv)
  | None =>
      let* e := host_do [] (sv_MkdirAll (filepath_Dir (sv_socketPath sv))) in
      match e with
      | Some err => mret (Some err, sv)
      | None =>
          let* e := host_do [] (sv_RemoveAll (sv_socketPath sv)) in
          match e with
          | Some err => mret (Some err, sv)
          | None =>
              let* e := host_do [SListen] (sv_Listen (sv_socketPath sv)) in
              match e with
              | Some err => mret (Some err, sv)
              | None => sv_serve sv
              end
          end
      end
  end.

(** The verifier's error is tested, but the returned variable is [err], which is
    still nil there. *)
Definition sv_Start (sv : server) : M host (option GoError * server) :=
  let* v := if enableCloudConfigVerify sv then host_do [] sv_ConfigVerifier else mret None in
  match v with
  | Some _verifierErr => mret (None, sv)
  | None =>
      let* e := if IsKubernetesEnvironment
                then host_do [SAdvertise] (AdvertiseExtendedResources (PeerPodsLimitPerNode sv))
                else mret None in
      match e with
      | Some err => mret (Some err, sv)
      | None => sv_listen sv
      end
  end.

(** ** Theorems of the server *)

Lemma host_do_trace {A} evs (m : M W A) (s : host) : host_trace (host_do evs m s).2 = host_trace s ++ evs.
Proof. unfold host_do. by destruct (m (host_world s)). Qed.

Lemma host_do_value {A} evs (m : M W A) (s : host) : (host_do evs m s).1 = (m (host_world s)).1.
Proof. unfold host_do. by destruct (m (host_world s)). Qed.

(** A configuration that the provider rejects does not make [Start] fail: the
    server returns no error although it never advertised, listened or served. *)
Theorem server_start_swallows_verify_error sv (s : host) err :
  enableCloudConfigVerify sv = true -> (sv_ConfigVerifier (host_world s)).1 = Some err ->
  (sv_Start sv s).1 = (None, sv) /\ host_trace (sv_Start sv s).2 = host_trace s.
Proof.
  intros Hv He. unfold sv_Start, mbind. rewrite Hv.
  pose proof (host_do_value [] sv_ConfigVerifier s) as V. rewrite He in V.
  pose proof (host_do_trace [] sv_ConfigVerifier s) as T. rewrite app_nil_r in T.
  destruct (host_do [] sv_ConfigVerifier s) as [r s1]. cbn [fst snd] in *. by subst r.
Qed.

Lemma sv_serve_trace sv (s : host) :
  let '((e, sv'), s') := sv_serve sv s in
  sv_ready sv' = true /\
  exists l, host_trace s' = host_trace s ++ [SServe] ++ l ++ [SRpcShutdown] /\
    (l = [] \/ (l = [SRemoveResources; STeardown] /\ sv_stopped sv' = true)).
Proof.
  unfold sv_serve, mbind. pose proof (host_do_trace [SServe] sv_Serve s) as E1.
  destruct (host_do [SServe] sv_Serve s) as [ev s1]. cbn [snd] in E1.
  destruct ev.
  - unfold sv_Shutdown, mbind. pose proof (host_do_trace [SRemoveResources] RemoveExtendedResources s1) as E2.
    destruct (host_do [SRemoveResources] RemoveExtendedResources s1) as [r s2]. cbn [snd] in E2.
    pose proof (host_do_trace [STeardown] sv_Teardown s2) as E3.
    destruct (host_do [STeardown] sv_Teardown s2) as [r3 s3]. cbn [snd] in E3. cbn.
    pose proof (host_do_trace [SRpcShutdown] sv_RpcShutdown s3) as E4.
    destruct (host_do [SRpcShutdown] sv_RpcShutdown s3) as [r4 s4]. cbn [snd] in E4. cbn.
    split; [done|]. exists [SRemoveResources; STeardown]. rewrite E4, E3, E2, E1, <- !app_assoc. auto.
  - cbn. pose proof (host_do_trace [SRpcShutdown] sv_RpcShutdown s1) as E4.
    destruct (host_do [SRpcShutdown] sv_RpcShutdown s1) as [r4 s4]. cbn [snd] in E4. cbn.
    split; [done|]. exists []. rewrite E4, E1, <- !app_assoc. auto.
  - cbn. pose proof (host_do_trace [SRpcShutdown] sv_RpcShutdown s1) as E4.
    destruct (host_do [SRpcShutdown] sv_RpcShutdown s1) as [r4 s4]. cbn [snd] in E4. cbn.
    split; [done|]. exists []. rewrite E4, E1, <- !app_assoc. auto.
Qed.

(** Before serving: nothing, or an attempt to listen; an error in both cases. *)
Lemma sv_listen_trace sv (s : host) :
  sv_ready sv = false ->
  let '((e, sv'), s') := sv_listen sv s in
  exists l, host_trace s' = host_trace s ++ l /\
    if sv_ready sv' then
      exists l', l = SListen :: SServe :: l' ++ [SRpcShutdown] /\ (l' = [] \/ l' = [SRemoveResources; STeardown])
    else is_Some e /\ (l = [] \/ l = [SListen]).
Proof.
  intros Hr. unfold sv_listen, mbind.
  pose proof (host_do_trace [] sv_NewServer s) as E1.
  destruct (host_do [] sv_NewServer s) as [[err|] s1]; cbn [snd] in E1; rewrite app_nil_r in E1.
  { cbn. rewrite Hr. exists []. rewrite app_nil_r. eauto. }
  pose proof (host_do_trace [] (sv_MkdirAll (filepath_Dir (sv_socketPath sv))) s1) as E2.
  destruct (host_do [] (sv_MkdirAll _) s1) as [[err|] s2]; cbn [snd] in E2; rewrite app_nil_r in E2.
  { cbn. rewrite Hr. exists []. rewrite app_nil_r, E2. eauto. }
  pose proof (host_do_trace [] (sv_RemoveAll (sv_socketPath sv)) s2) as E3.
  destruct (host_do [] (sv_RemoveAll _) s2) as [[err|] s3]; cbn [snd] in E3; rewrite app_nil_r in E3.
  { cbn. rewrite Hr. exists []. rewrite app_nil_r, E3, E2. eauto. }
  pose proof (host_do_trace [SListen] (sv_Listen (sv_socketPath sv)) s3) as E4.
  destruct (host_do [SListen] (sv_Listen _) s3) as [[err|] s4]; cbn [snd] in E4.
  { cbn. rewrite Hr. exists [SListen]. rewrite E4, E3, E2, E1. eauto. }
  pose proof (sv_serve_trace sv s4) as Es. destruct (sv_serve sv s4) as [[e sv'] s5].
  destruct Es as (-> & l & El & Hl). exists (SListen :: SServe :: l ++ [SRpcShutdown]).
  rewrite El, E4, E3, E2, E1, <- !app_assoc. split; [done|]. exists l. split; [done|]. tauto.
Qed.

(** The order of the server's life: it listens only after the node's resource was
    advertised (in Kubernetes), serves only after listening, shuts the protocol
    server down last, and when the context ends removes the resource and tears the
    provider down before that. *)
Theorem server_lifecycle socketPath limit (s : host) :
  let '((e, sv'), s') := sv_Start (NewServer socketPath false limit) s in
  let adv := if IsKubernetesEnvironment then [SAdvertise] else [] in
  exists l, host_trace s' = host_trace s ++ adv ++ l /\
    if sv_ready sv' then
      exists l', l = SListen :: SServe :: l' ++ [SRpcShutdown] /\ (l' = [] \/ l' = [SRemoveResources; STeardown])
    else is_Some e /\ (l = [] \/ l = [SListen]).
Proof.
  unfold sv_Start, mbind. set (sv := NewServer socketPath false limit).
  change (PeerPodsLimitPerNode sv) with limit. change (enableCloudConfigVerify sv) with false.
  cbv beta iota. unfold mret at 1.
  destruct IsKubernetesEnvironment.
  - pose proof (host_do_trace [SAdvertise] (AdvertiseExtendedResources limit) s) as E1.
    destruct (host_do [SAdvertise] _ s) as [[err|] s1]; cbn [snd] in E1.
    { cbn. exists []. rewrite E1. eauto. }
    pose proof (sv_listen_trace sv s1 eq_refl) as Hl. destruct (sv_listen sv s1) as [[e sv'] s2].
    destruct Hl as (l & El & Hl). exists l. rewrite El, E1, <- app_assoc. auto.
  - cbn. pose proof (sv_listen_trace sv s eq_refl) as Hl. destruct (sv_listen sv s) as [[e sv'] s2].
    destruct Hl as (l & El & Hl). exists l. auto.
Qed.

End Server.

(** ** The probe *)

Record Condition := mkCondition { c_Type : string; c_Status : string; LastTransitionTime : Z }.
Record ProbePod := mkProbePod { RuntimeClassName : option string; Conditions : list Condition }.

Definition PodReady : string := "Ready".
Definition ConditionTrue : string := "True".

(** The Ready conditions of one pod: the first that is not met is the error. *)
Fixpoint check_conditions (startTime : Z) (cs : list Condition) : option GoError :=
  match cs with
  | [] => None
  | c :: rest =>
      if negb (String.eqb (c_Type c) PodReady) then check_conditions startTime rest
      else if negb (String.eqb (c_Status c) ConditionTrue) then
        Some (Errorf "PeerPod %s is not Ready." [])
      else if LastTransitionTime c <? startTime then
        Some (Errorf "PeerPod %s has not been restarted." [])
      else check_conditions startTime rest
  end.

Fixpoint check_pods (runtimeClass : string) (startTime : Z) (pods : list ProbePod) : option GoError :=
  match pods with
  | [] => None
  | p :: rest =>
      if match RuntimeClassName p with Some n => String.eqb n runtimeClass | None => false end then
        match check_conditions startTime (Conditions p) with
        | Some e => Some e
        | None => check_pods runtimeClass startTime rest
        end
      else check_pods runtimeClass startTime rest
  end.

Class ProbeEnv (W : Type) := {
  probe_Getenv : string -> string;
  probe_List : string -> M W (result (list ProbePod));
  probe_Dial : string -> M W (option GoError)
}.

Definition DEFAULT_CC_RUNTIMECLASS_NAME : string := "kata-remote".

Section Probe.

Context {W : Type} `{ProbeEnv W}.

Record Checker := mkChecker { RuntimeclassName : string; SocketPath : string }.

Definition GetRuntimeclassName : string :=
  let n := probe_Getenv "RUNTIMECLASS_NAME" in
  if nonempty n then n else DEFAULT_CC_RUNTIMECLASS_NAME.

Definition GetAllPeerPods (c : Checker) (startTime : Z) : M W (bool * option GoError) :=
  let* r := probe_List ("spec.nodeName=" +:+ probe_Getenv "NODE_NAME") in
  mret match r with
       | Err e => (false, Some e)
       | Ok pods =>
           match check_pods (RuntimeclassName c) startTime pods with
           | Some e => (false, Some e)
           | None => (true, None)
           end
       end.

Definition IsSocketOpen (c : Checker) : M W (bool * option GoError) :=
  let* e := probe_Dial (SocketPath c) in
  mret match e with Some err => (false, Some err) | None => (true, None) end.

Definition StatusInternalServerError : Z := 500.
Definition StatusOK : Z := 200.

(** The handler with the package variable [podsReadizProbesDone]: the status and the
    variable afterwards. *)
Definition StartupHandler (c : Checker) (startTime : Z) (done : bool) : M W (Z * bool) :=
  let* o := IsSocketOpen c in
  if (match snd o with Some _ => true | None => negb (fst o) end)
  then mret (StatusInternalServerError, done)
  else if done then mret (StatusOK, done)
  else
    let* r := GetAllPeerPods c startTime in
    let '(ret, err) := r in
    mret (if match err with Some _ => true | None => negb ret end
          then (StatusInternalServerError, ret) else (StatusOK, ret)).

(** A peer pod whose Ready conditions are all true and newer than the start. *)
Definition restarted (runtimeClass : string) (startTime : Z) (p : ProbePod) : Prop :=
  RuntimeClassName p = Some runtimeClass ->
  forall c, c ∈ Conditions p -> c_Type c = PodReady ->
    c_Status c = ConditionTrue /\ startTime <= LastTransitionTime c.

Lemma check_conditions_spec startTime cs :
  check_conditions startTime cs = None <->
  forall c, c ∈ cs -> c_Type c = PodReady -> c_Status c = ConditionTrue /\ startTime <= LastTransitionTime c.
Proof.
  induction cs as [|c cs IH]; [set_solver|]. cbn [check_conditions].
  destruct (String.eqb_spec (c_Type c) PodReady) as [Ht|Ht]; cbn [negb]; [|set_solver].
  destruct (String.eqb_spec (c_Status c) ConditionTrue) as [Hs|Hs]; cbn [negb].
  - destruct (Z.ltb_spec (LastTransitionTime c) startTime) as [Hl|Hl].
    + split; [done|]. intros Hc. destruct (Hc c) as [_ ?]; [left|done|lia].
    + rewrite IH. split; intros Hc c' Hin Ht'; [|set_solver].
      apply elem_of_cons in Hin as [->|Hin]; auto.
  - split; [done|]. intros Hc. destruct (Hc c) as [? _]; [left|done|done].
Qed.

Lemma check_pods_spec rc startTime pods :
  check_pods rc startTime pods = None <-> Forall (restarted rc startTime) pods.
Proof.
  induction pods as [|p pods IH]; [by split; [constructor|]|]. cbn [check_pods].
  rewrite Forall_cons, <- IH. unfold restarted at 1.
  destruct (RuntimeClassName p) as [n|]; [|naive_solver].
  destruct (String.eqb_spec n rc) as [->|Hn]; [|naive_solver].
  destruct (check_conditions startTime (Conditions p)) as [e|] eqn:E.
  - split; [done|]. intros [Hp _]. pose proof (proj2 (check_conditions_spec startTime (Conditions p)) (Hp eq_refl)). congruence.
  - pose proof (proj1 (check_conditions_spec startTime (Conditions p)) E). naive_solver.
Qed.

(** The start-up probe: it answers 200 exactly when the adaptor's socket accepts
    a connection and either an earlier probe already succeeded or the listing of
    the node's pods succeeds and every peer pod on it has been ready since the
    adaptor started; the memory of success is kept and never reset by a later
    failure of the socket. *)
Theorem StartupHandler_spec c startTime done w :
  let sock := (IsSocketOpen c w).1 in
  let w1 := (IsSocketOpen c w).2 in
  let pods := (probe_List ("spec.nodeName=" +:+ probe_Getenv "NODE_NAME") w1).1 in
  let ok := done = true \/ exists l, pods = Ok l /\ Forall (restarted (RuntimeclassName c) startTime) l in
  let '((status, done'), _) := StartupHandler c startTime done w in
  (status = StatusOK <-> sock = (true, None) /\ ok) /\ (done = true -> done' = true) /\
  (status = StatusOK -> done' = true).
Proof.
  cbv zeta. unfold StartupHandler, GetAllPeerPods, mbind.
  assert (Hs : (IsSocketOpen c w).1 = (true, None) \/ exists e, (IsSocketOpen c w).1 = (false, Some e)).
  { unfold IsSocketOpen, mbind. destruct (probe_Dial _ w) as [[e|] w1]; cbn; eauto. }
  destruct (IsSocketOpen c w) as [o w1]. cbn [fst snd] in *.
  destruct Hs as [->|[e ->]]; cbn; [|split_and!; [|done|done]; split; [done|naive_solver]].
  destruct done; cbn; [split_and!; [|done|done]; naive_solver|].
  destruct (probe_List _ w1) as [[pods|e] w2]; cbn; [|split_and!; [|done|done]; naive_solver].
  pose proof (check_pods_spec (RuntimeclassName c) startTime pods) as Hc.
  destruct (check_pods _ _ pods) as [e|]; cbn; (split_and!; [|done|done]).
  - split; [done|]. intros [_ [?|(l & [= <-] & Hl)]]; [done|]. by apply Hc in Hl.
  - split; [|done]. intros _. split; [done|]. right. exists pods. split; [done|]. by apply Hc.
Qed.

End Probe.

(** ** A server whose provider rejects the configuration *)

#[local] Instance demo_node : NodeEnv (gmap string string) := bench_node.

#[local] Instance demo_server : ServerEnv (gmap string string) := {|
  sv_ConfigVerifier := fun w => (Some (Sentinel "invalid image"), w);
  sv_Teardown := fun w => (None, w);
  sv_NewServer := fun w => (None, w);
  sv_MkdirAll := fun _ w => (None, w);
  sv_RemoveAll := fun _ w => (None, w);
  sv_Listen := fun _ w => (None, w);
  sv_Serve := fun w => (CtxDone, w);
  sv_RpcShutdown := fun w => (None, w)
|}.

Example server_start_swallows_verify_error_witness :
  let s := mkHost (∅ : gmap string string) [] in
  (sv_Start (NewServer "/run/peerpod/hypervisor.sock" true 10) s).1 =
    (None, NewServer "/run/peerpod/hypervisor.sock" true 10) /\
  host_trace (sv_Start (NewServer "/run/peerpod/hypervisor.sock" true 10) s).2 = [].
Proof.
  exact (server_start_swallows_verify_error (NewServer "/run/peerpod/hypervisor.sock" true 10)
    (mkHost (∅ : gmap string string) []) (Sentinel "invalid image") eq_refl eq_refl).
Defined.
