(* ===== verification/Netops.v ===== *)
(** * Network namespaces, links, routes and neighbors

    Models src/cloud-api-adaptor/pkg/util/netops/netops.go, the implementation of
    the interfaces [Namespace] and [Link] over the netlink and netns libraries, which
    are the operations of [Netlink].  The state [thread] is the kernel with the
    number of times the goroutine is locked to its thread.  Addresses keep the
    abstraction of NetAddr, with their bytes ([NetBytes]). *)

From Stdlib Require Import ZArith Ascii String Lia.
From stdpp Require Import base gmap strings list.
From S2P Require Import Prelude NetAddr Vxlan.

Open Scope Z_scope.
Open Scope go_scope.

(** ** Addresses as bytes *)

(** net.IP: the bytes; nil is the empty list. *)
Notation IP := (list Z).

(** [AsSlice] and [AddrFromSlice] of net/netip. *)
Class NetBytes `{NetIP} := {
  AsSlice : Addr -> IP;
  AddrFromSlice : IP -> option Addr;
  IPv4Unspecified : Addr;
  AddrFromSlice_AsSlice : forall a, AddrFromSlice (AsSlice a) = Some a;
  AsSlice_bytes : forall a, Forall (fun b => 0 <= b < 256) (AsSlice a)
}.

Definition BitLen `{NetBytes} (a : Addr) : Z := 8 * Z.of_nat (length (AsSlice a)).

(** net.IPNet *)
Record IPNet := mkIPNet { net_IP : IP; net_Mask : list Z }.

(** [net.CIDRMask(ones, bits)] for a whole number of bytes: each byte has its share
    of the leading ones. *)
Definition mask_byte (ones : Z) : Z :=
  if ones <=? 0 then 0 else if 8 <=? ones then 255 else 255 - (2 ^ (8 - ones) - 1).

Fixpoint CIDRMask (ones : Z) (bytes : nat) : list Z :=
  match bytes with
  | O => []
  | S n => mask_byte ones :: CIDRMask (ones - 8) n
  end.

(** The ones of one byte of a mask, if they are leading. *)
Definition byte_ones (b : Z) : option Z :=
  List.find (fun n => b =? mask_byte n) [0; 1; 2; 3; 4; 5; 6; 7; 8].

(** [IPMask.Size]: the number of leading ones; a mask of another form counts as 0. *)
Fixpoint mask_ones (mask : list Z) : option Z :=
  match mask with
  | [] => Some 0
  | b :: rest =>
      if b =? 255 then (Z.add 8) <$> mask_ones rest
      else if forallb (Z.eqb 0) rest then byte_ones b else None
  end.

Definition Mask_Size (mask : list Z) : Z := default 0 (mask_ones mask).

Section Addresses.

Context `{NetBytes}.

(** [netip.PrefixFrom]: a length out of range gives a prefix that is not valid. *)
Definition PrefixFrom (a : option Addr) (bits : Z) : Prefix :=
  match a with
  | Some a => if ((0 <=? bits) && (bits <=? BitLen a))%bool then Some (mkPrefix a bits) else None
  | None => None
  end.

Definition toAddr (ip : IP) : option Addr := AddrFromSlice ip.

Definition toPrefix (ipnet : option IPNet) : Prefix :=
  match ipnet with
  | None => PrefixFrom (Some IPv4Unspecified) 0
  | Some n => PrefixFrom (AddrFromSlice (net_IP n)) (Mask_Size (net_Mask n))
  end.

Definition toIP (addr : option Addr) : IP :=
  match addr with None => [] | Some a => AsSlice a end.

Definition toIPNet (p : Prefix) : option IPNet :=
  match p with
  | None => None
  | Some p => Some (mkIPNet (AsSlice (prefix_Addr p)) (CIDRMask (prefix_Bits p) (length (AsSlice (prefix_Addr p)))))
  end.

(** ** Routes *)

Definition DefaultPrefix : Prefix := PrefixFrom (Some IPv4Unspecified) 0.

Definition or_default (p : Prefix) : Prefix :=
  match p with None => DefaultPrefix | Some _ => p end.

(** [bytes.Compare] *)
Fixpoint bytes_Compare (a b : list Z) : comparison :=
  match a, b with
  | [], [] => Eq
  | [], _ => Lt
  | _, [] => Gt
  | x :: a, y :: b => match x ?= y with Eq => bytes_Compare a b | c => c end
  end.

Definition prefix_slice (p : Prefix) : list Z :=
  match p with Some p => AsSlice (prefix_Addr p) | None => [] end.

(** [compare]: by table, destination, length and priority. *)
Definition compare (r1 r2 : Route) : bool :=
  if negb (rt_Table r1 =? rt_Table r2) then rt_Table r1 <? rt_Table r2
  else
    let d1 := or_default (rt_Destination r1) in
    let d2 := or_default (rt_Destination r2) in
    match bytes_Compare (prefix_slice d1) (prefix_slice d2) with
    | Lt => true
    | Gt => false
    | Eq =>
        if negb (Bits d1 =? Bits d2) then Bits d1 <? Bits d2
        else rt_Priority r1 <? rt_Priority r2
    end.

(** netlink.Route: the fields that the code uses. *)
Record nlRoute := mkNlRoute {
  nr_Dst : option IPNet;
  nr_Src : IP;
  nr_Gw : IP;
  nr_LinkIndex : Z;
  nr_Priority : Z;
  nr_Table : Z;
  nr_Type : Z;
  nr_Protocol : Z;
  nr_Scope : Z;
  nr_Flags : Z
}.

Definition nlRoute_zero : nlRoute := mkNlRoute None [] [] 0 0 0 0 0 0 0.

Inductive rt_filter :=
| RT_FILTER_DST | RT_FILTER_SRC | RT_FILTER_GW | RT_FILTER_OIF | RT_FILTER_TABLE | RT_FILTER_TYPE
| RT_FILTER_PROTOCOL | RT_FILTER_IIF | RT_FILTER_PRIORITY.

Definition RT_TABLE_MAIN : Z := 254.
Definition RTN_UNICAST : Z := 1.
Definition RTPROT_KERNEL : Z := 2.
Definition RTPROT_BOOT : Z := 3.
Definition RTPROT_STATIC : Z := 4.
Definition RTPROT_DHCP : Z := 16.
Definition FLAG_ONLINK : Z := 4.
Definition SCOPE_LINK : Z := 253.
Definition MaxInt : Z := 2 ^ 63 - 1.

Definition empty_route : Route := mkRoute None None None "" 0 0 0 0 0 false.

(** Rules of the routing policy. *)
Record Rule := mkRule { ru_Src : Prefix; ru_IifName : string; ru_Priority : Z; ru_Table : Z }.
Record nlRule := mkNlRule { nu_Src : option IPNet; nu_IifName : string; nu_Priority : Z; nu_Table : Z }.

(** [netlink.NewRule]: no priority is -1. *)
Definition NewRule : nlRule := mkNlRule None "" (-1) 0.

(** netlink.Neigh *)
Record nlNeigh := mkNlNeigh {
  ne_IP : IP;
  ne_LinkIndex : Z;
  ne_HardwareAddr : list Z;
  ne_State : Z
}.

(** ** Neighbor states *)

Definition NEIGHBOR_STATE_PERMANENT : Z := 128.

Definition neighorStateMap : list (Z * string) :=
  [(0, "none"); (1, "incomplete"); (2, "reachable"); (4, "stale"); (8, "delay"); (16, "probe");
   (32, "failed"); (64, "noarp"); (128, "permanent")]%string.

Definition NeighborState_String (s : Z) : string :=
  match List.find (fun kv => fst kv =? s) neighorStateMap with
  | Some (_, str) => str
  | None => "unknown"
  end.

(** [initLookupTable]: a later value replaces an earlier one of the same name. *)
Definition initLookupTable {T} (str : T -> string) (s : list T) : gmap string T :=
  foldl (fun m x => <[str x := x]> m) ∅ s.

Definition neighborStates : gmap string Z :=
  initLookupTable NeighborState_String (map fst neighorStateMap).

End Addresses.

(** ** Links *)

Inductive nlKind `{NetBytes} :=
| KVxlan (group : IP) (id port : Z)
| KVeth (peer : string) (peerNs : Z)
| KBridge
| KOther (type : string).

(** ** The libraries *)

Class Netlink (W : Type) `{NetBytes} := {
  Handle : Type;
  (** a file descriptor of a namespace *)
  NsHandle := Z;
  Getpid : M W Z;
  Gettid : M W Z;
  netns_GetFromPath : string -> M W (result NsHandle);
  netns_Get : M W (result NsHandle);
  netns_Set : NsHandle -> M W (option GoError);
  netns_NewNamed : string -> M W (result NsHandle);
  netns_DeleteNamed : string -> M W (option GoError);
  netns_Close : NsHandle -> M W (option GoError);
  NewHandleAt : NsHandle -> M W (result Handle);
  Handle_Close : Handle -> M W unit;
  (** a link: its attributes and what identifies it *)
  nlLink : Type;
  Attrs_Name : nlLink -> string;
  Attrs_Index : nlLink -> Z;
  Attrs_MTU : nlLink -> Z;
  Attrs_HardwareAddr : nlLink -> list Z;
  nl_Kind : nlLink -> nlKind;
  nl_Type : nlKind -> string;
  nl_LinkList : Handle -> M W (result (list nlLink));
  nl_LinkAdd : Handle -> string -> nlKind -> M W (option GoError);
  nl_LinkByName : Handle -> string -> M W (result nlLink);
  nl_LinkByIndex : Handle -> Z -> M W (result nlLink);
  nl_LinkDel : Handle -> nlLink -> M W (option GoError);
  nl_LinkSetMTU : Handle -> nlLink -> Z -> M W (option GoError);
  nl_LinkSetHardwareAddr : Handle -> nlLink -> list Z -> M W (option GoError);
  nl_LinkSetMaster : Handle -> nlLink -> nlLink -> M W (option GoError);
  nl_LinkSetNsFd : Handle -> nlLink -> NsHandle -> M W (option GoError);
  nl_LinkSetName : Handle -> nlLink -> string -> M W (option GoError);
  nl_LinkSetUp : Handle -> nlLink -> M W (option GoError);
  nl_AddrList : Handle -> nlLink -> M W (result (list IPNet));
  nl_AddrAdd : Handle -> nlLink -> option IPNet -> M W (option GoError);
  nl_RouteListFiltered : Handle -> nlRoute -> list rt_filter -> M W (result (list nlRoute));
  nl_RouteAdd : Handle -> nlRoute -> M W (option GoError);
  nl_RouteDel : Handle -> nlRoute -> M W (option GoError);
  nl_RuleAdd : Handle -> nlRule -> M W (option GoError);
  nl_RuleDel : Handle -> nlRule -> M W (option GoError);
  nl_RuleListFiltered : Handle -> nlRule -> list rt_filter -> M W (result (list nlRule));
  nl_NeighAdd : Handle -> nlNeigh -> M W (option GoError);
  (** state and link index of the request *)
  nl_NeighListExecute : Handle -> Z -> Z -> M W (result (list nlNeigh));
  (** traffic control: the ingress qdisc of a link and u32 redirects from one link
      index to another; [true] marks a filter or qdisc of those kinds in a list *)
  nl_Filter : Type;
  nl_Qdisc : Type;
  is_U32 : nl_Filter -> bool;
  is_Ingress : nl_Qdisc -> bool;
  nl_QdiscAddIngress : Handle -> Z -> M W (option GoError);
  nl_FilterAddRedirect : Handle -> Z -> Z -> M W (option GoError);
  nl_FilterList : Handle -> nlLink -> M W (result (list nl_Filter));
  nl_FilterDel : Handle -> nl_Filter -> M W (option GoError);
  nl_QdiscList : Handle -> nlLink -> M W (result (list nl_Qdisc));
  nl_QdiscDel : Handle -> nl_Qdisc -> M W (option GoError);
  ParseMAC : string -> option (list Z);
  HardwareAddr_String : list Z -> string
}.

Section Namespace.

Context {W : Type} `{NetBytes} `{!Netlink W}.

Record thread := mkThread { kernel : W; locks : Z }.

Definition sys {A} (m : M W A) : M thread A := fun s =>
  let '(a, w) := m (kernel s) in (a, mkThread w (locks s)).

Definition LockOSThread : M thread unit := fun s => (tt, mkThread (kernel s) (locks s + 1)).
Definition UnlockOSThread : M thread unit := fun s => (tt, mkThread (kernel s) (locks s - 1)).

Record namespace := mkNamespace { ns_handle : Handle; ns_path : string; ns_nsHandle : NsHandle }.

(** ** Opening, closing and running *)

Definition n_OpenNamespace (nsPath : string) : M thread (result namespace) :=
  let* h := sys (netns_GetFromPath nsPath) in
  match h with
  | Err e => mret (Err (Errorf "failed to get network namespace %s: %w" [e]))
  | Ok nsHandle =>
      let* h := sys (NewHandleAt nsHandle) in
      mret match h with
           | Err e => Err (Errorf "failed to get a handle for network namespace %s: %w" [e])
           | Ok handle => Ok (mkNamespace handle nsPath nsHandle)
           end
  end.

Definition n_OpenCurrentNamespace : M thread (result namespace) :=
  let* pid := sys Getpid in
  let* tid := sys Gettid in
  n_OpenNamespace ("/proc/" +:+ FormatInt pid +:+ "/task/" +:+ FormatInt tid +:+ "/ns/net").

Definition n_Close (ns : namespace) : M thread (option GoError) :=
  let* _u := sys (Handle_Close (ns_handle ns)) in
  let* e := sys (netns_Close (ns_nsHandle ns)) in
  mret match e with
       | Some err => Some (Errorf "failed to close network namespace %v: %w" [err])
       | None => None
       end.

(** The two deferred functions of [Run]; both write the named result. *)
Definition set_back (old : NsHandle) (err : option GoError) : M thread (option GoError) :=
  let* e := sys (netns_Set old) in
  mret match e with
       | Some _ => Some (Errorf "failed to set back to the host network namespace: %w (previous error %v)"
                           (option_list err))
       | None => err
       end.

Definition close_old (old : NsHandle) (err : option GoError) : M thread (option GoError) :=
  let* e := sys (netns_Close old) in
  mret match e with
       | Some x => Some (Errorf "failed to close the original network namespace: %w (previous error: %v)" [x])
       | None => err
       end.

(** The body of [Run] between [netns.Get] and the closing of its result. *)
Definition run_in (ns : namespace) (old : NsHandle) (fn : M thread (option GoError)) : M thread (option GoError) :=
  if ns_nsHandle ns =? old then fn
  else
    let* e := sys (netns_Set (ns_nsHandle ns)) in
    match e with
    | Some err => mret (Some (Errorf "failed to set a network namespace: %w" [err]))
    | None => let* err := fn in set_back old err
    end.

Definition n_Run (ns : namespace) (fn : M thread (option GoError)) : M thread (option GoError) :=
  let* _l := LockOSThread in
  let* g := sys netns_Get in
  let* err := match g with
              | Err e => mret (Some (Errorf "failed to get current network namespace: %w" [e]))
              | Ok old => let* err := run_in ns old fn in close_old old err
              end in
  let* _u := UnlockOSThread in
  mret err.

(** The deferred function assigns the result of [Close] to the named result, also
    when it is nil. *)
Definition RunAsNsPath (nsPath : string) (fn : M thread (option GoError)) : M thread (option GoError) :=
  let* o := n_OpenNamespace nsPath in
  match o with
  | Err e => mret (Some (Errorf "failed to open network namespace %q: %w" [e]))
  | Ok podNS =>
      let* _err := n_Run podNS fn in
      let* e := n_Close podNS in
      mret match e with
           | Some err => Some (Errorf "failed to close a network namespace %q: %w " [err])
           | None => None
           end
  end.

(** The results are not named, so what the deferred function assigns to [err] is
    lost; and the deferred call locks the thread again. *)
Definition CreateNamedNamespace (name : string) : M thread (result string) :=
  let* _l := LockOSThread in
  let* g := sys netns_Get in
  let* r := match g with
            | Err e => mret (Err (Errorf "failed to get the current network namespace: %w" [e]))
            | Ok old =>
                let* n := sys (netns_NewNamed name) in
                let* r := match n with
                          | Err e => mret (Err (Errorf "failed to create a new named network namespace: %w" [e]))
                          | Ok nsHandle =>
                              let* c := sys (netns_Close nsHandle) in
                              mret match c with
                                   | Some e => Err (Errorf "failed to close a new named network namespace: %w" [e])
                                   | None => Ok (filepath_Join ["/run/netns"%string; name])
                                   end
                          end in
                let* _e := sys (netns_Set old) in
                mret r
            end in
  let* _l2 := LockOSThread in
  mret r.

Definition DeleteNamedNamespace (name : string) : M thread (option GoError) :=
  let* e := sys (netns_DeleteNamed name) in
  mret match e with
       | Some err => Some (Errorf "failed to delete a named network namespace %s: %w" [err])
       | None => None
       end.

(** ** Links *)

Record link := mkLink { l_nlLink : nlLink; l_ns : namespace }.

Definition l_Name (l : link) : string := Attrs_Name (l_nlLink l).

(** A call on the link whose error is wrapped. *)
Definition on_link (l : link) (msg : string) (m : Handle -> nlLink -> M W (option GoError))
    : M thread (option GoError) :=
  let* e := sys (m (ns_handle (l_ns l)) (l_nlLink l)) in
  mret (wrapped msg <$> e).

Definition l_GetAddr (l : link) : M thread (result (list Prefix)) :=
  let* r := sys (nl_AddrList (ns_handle (l_ns l)) (l_nlLink l)) in
  mret match r with
       | Err e => Err (Errorf "failed to get IP addresses assigned to %s interface %q:  %w" [e])
       | Ok addrs => Ok (map (fun a => toPrefix (Some a)) addrs)
       end.

Definition l_AddAddr (l : link) (p : Prefix) : M thread (option GoError) :=
  on_link l "failed to assign an IP address %q to %s: %w" (fun h k => nl_AddrAdd h k (toIPNet p)).

Definition l_GetMTU (l : link) : M thread (result Z) := mret (Ok (Attrs_MTU (l_nlLink l))).

Definition l_SetMTU (l : link) (mtu : Z) : M thread (option GoError) :=
  on_link l "failed to set MTU of %s to %d: %w" (fun h k => nl_LinkSetMTU h k mtu).

Definition l_GetHardwareAddr (l : link) : M thread (result string) :=
  mret (Ok (HardwareAddr_String (Attrs_HardwareAddr (l_nlLink l)))).

Definition l_SetHardwareAddr (l : link) (hwAddr : string) : M thread (option GoError) :=
  match ParseMAC hwAddr with
  | None => mret (Some (Errorf "failed to parse hardware address %q: %w" []))
  | Some mac =>
      on_link l "failed to set hardware address %q to %s (netns: %s): %w"
        (fun h k => nl_LinkSetHardwareAddr h k mac)
  end.

Definition l_SetMaster (l master : link) : M thread (option GoError) :=
  on_link l "failed to set master device of %s to %s: %w"
    (fun h k => nl_LinkSetMaster h k (l_nlLink master)).

(** The link belongs to the target namespace afterwards. *)
Definition l_SetNamespace (l : link) (target : namespace) : M thread (option GoError * link) :=
  let* e := sys (nl_LinkSetNsFd (ns_handle (l_ns l)) (l_nlLink l) (ns_nsHandle target)) in
  mret match e with
       | Some err => (Some (Errorf "failed to change network namespace of interface %s from %s to %s: %w" [err]), l)
       | None => (None, mkLink (l_nlLink l) target)
       end.

Definition l_SetName (l : link) (name : string) : M thread (option GoError) :=
  on_link l "failed to change name of interface %s on %s to %s: %w" (fun h k => nl_LinkSetName h k name).

Definition l_SetUp (l : link) : M thread (option GoError) :=
  on_link l "failed to set link state up: %s: %w" nl_LinkSetUp.

Definition l_Delete (l : link) : M thread (option GoError) :=
  on_link l "failed to delete an interface of %s: %s:  %w" nl_LinkDel.

(** Only VXLAN devices give their attributes. *)
Definition l_GetDevice (l : link) : M thread (result VXLAN) :=
  mret match nl_Kind (l_nlLink l) with
       | KVxlan group id port => Ok (mkVXLAN (toAddr group) id port)
       | _ => Err (Errorf "device info is not available: %s" [])
       end.

(** ** Devices *)

Inductive Device :=
| VEth (peerName : string) (peerNamespace : namespace)
| Bridge
| VXLANDevice (d : VXLAN).

Definition getLink (d : Device) : nlKind :=
  match d with
  | VEth peerName peerNs => KVeth peerName (ns_nsHandle peerNs)
  | Bridge => KBridge
  | VXLANDevice v => KVxlan (toIP (vx_Group v)) (vx_ID v) (vx_Port v)
  end.

Definition n_LinkFind (ns : namespace) (name : string) : M thread (result link) :=
  let* r := sys (nl_LinkList (ns_handle ns)) in
  mret match r with
       | Err e => Err (Errorf "failed to get a list of interfaces (netns: %s): %w" [e])
       | Ok links =>
           match List.find (fun k => String.eqb (Attrs_Name k) name) links with
           | Some k => Ok (mkLink k ns)
           | None => Err (Errorf "failed to find interface %q on netns %s" [])
           end
       end.

Definition n_LinkList (ns : namespace) : M thread (result (list link)) :=
  let* r := sys (nl_LinkList (ns_handle ns)) in
  mret match r with
       | Err e => Err (Errorf "failed to get a list of interfaces: %w" [e])
       | Ok links => Ok (map (fun k => mkLink k ns) links)
       end.

Definition n_LinkAdd (ns : namespace) (name : string) (device : Device) : M thread (result link) :=
  let* e := sys (nl_LinkAdd (ns_handle ns) name (getLink device)) in
  match e with
  | Some err => mret (Err (Errorf "failed to create %s interface %q: %s:  %w" [err]))
  | None =>
      let* r := n_LinkFind ns name in
      mret match r with
           | Err e => Err (Errorf "failed to find created %s interface %q on %s:  %w" [e])
           | Ok l => Ok l
           end
  end.

(** ** Routes *)

(** The fields of a filter that need no look-up, with their masks, in the order in
    which the code sets them around the device. *)
Definition filter_addrs (f : Route) (r : nlRoute) : nlRoute * list rt_filter :=
  let '(r, m1) := match rt_Destination f with
                  | Some p =>
                      (if 0 <? prefix_Bits p
                       then mkNlRoute (toIPNet (Some p)) (nr_Src r) (nr_Gw r) (nr_LinkIndex r) (nr_Priority r)
                              (nr_Table r) (nr_Type r) (nr_Protocol r) (nr_Scope r) (nr_Flags r)
                       else r, [RT_FILTER_DST])
                  | None => (r, [])
                  end in
  let '(r, m2) := match rt_Source f with
                  | Some a => (mkNlRoute (nr_Dst r) (toIP (Some a)) (nr_Gw r) (nr_LinkIndex r) (nr_Priority r)
                                 (nr_Table r) (nr_Type r) (nr_Protocol r) (nr_Scope r) (nr_Flags r), [RT_FILTER_SRC])
                  | None => (r, [])
                  end in
  let '(r, m3) := match rt_Gateway f with
                  | Some a => (mkNlRoute (nr_Dst r) (nr_Src r) (toIP (Some a)) (nr_LinkIndex r) (nr_Priority r)
                                 (nr_Table r) (nr_Type r) (nr_Protocol r) (nr_Scope r) (nr_Flags r), [RT_FILTER_GW])
                  | None => (r, [])
                  end in
  (r, m1 ++ m2 ++ m3).

Definition filter_numbers (f : Route) (r : nlRoute) : nlRoute * list rt_filter :=
  let on (b : bool) (m : rt_filter) := if b then [m] else [] in
  let tb := negb (rt_Table f =? 0) in
  let ty := negb (rt_Type f =? 0) in
  let pr := negb (rt_Protocol f =? 0) in
  (mkNlRoute (nr_Dst r) (nr_Src r) (nr_Gw r) (nr_LinkIndex r) (nr_Priority r)
     (if tb then rt_Table f else nr_Table r) (if ty then rt_Type f else nr_Type r)
     (if pr then rt_Protocol f else nr_Protocol r) (nr_Scope r) (nr_Flags r),
   on tb RT_FILTER_TABLE ++ on ty RT_FILTER_TYPE ++ on pr RT_FILTER_PROTOCOL).

Definition with_index (r : nlRoute) (i : Z) : nlRoute :=
  mkNlRoute (nr_Dst r) (nr_Src r) (nr_Gw r) i (nr_Priority r) (nr_Table r) (nr_Type r)
    (nr_Protocol r) (nr_Scope r) (nr_Flags r).

(** The index of a named device; no name leaves the route alone. *)
Definition device_index (ns : namespace) (dev : string) (r : nlRoute) : M thread (result (nlRoute * bool)) :=
  if nonempty dev then
    let* k := sys (nl_LinkByName (ns_handle ns) dev) in
    mret match k with
         | Err e => Err (Errorf "failed to get interface %s: %w" [e])
         | Ok k => Ok (with_index r (Attrs_Index k), true)
         end
  else mret (Ok (r, false)).

Definition routeListFiltered (ns : namespace) (f : Route) : M thread (result (list nlRoute)) :=
  let '(r, m1) := filter_addrs f nlRoute_zero in
  let* d := device_index ns (rt_Device f) r in
  match d with
  | Err e => mret (Err e)
  | Ok (r, oif) =>
      let '(r, m2) := filter_numbers f r in
      let mask := m1 ++ (if (oif : bool) then [RT_FILTER_OIF] else []) ++ m2 in
      let* l := sys (nl_RouteListFiltered (ns_handle ns) r mask) in
      mret match l with
           | Err e => Err (Errorf "failed to get routes on namespace %q: %w" [e])
           | Ok routes => Ok routes
           end
  end.

(** The name of the device of a route. *)
Definition route_device (ns : namespace) (index : Z) : M thread (result string) :=
  if 0 <? index then
    let* k := sys (nl_LinkByIndex (ns_handle ns) index) in
    mret match k with
         | Err e => Err (Errorf "failed to get a link with index %d of a route: %w" [e])
         | Ok k => Ok (Attrs_Name k)
         end
  else mret (Ok EmptyString).

Definition of_nlRoute (dev : string) (r : nlRoute) : Route :=
  mkRoute (toPrefix (nr_Dst r)) (toAddr (nr_Src r)) (toAddr (nr_Gw r)) dev (nr_Priority r) (nr_Table r)
    (nr_Type r) (nr_Protocol r) (nr_Scope r) (negb (Z.land (nr_Flags r) FLAG_ONLINK =? 0)).

Fixpoint convert_routes (ns : namespace) (rs : list nlRoute) : M thread (result (list Route)) :=
  match rs with
  | [] => mret (Ok [])
  | r :: rest =>
      let* d := route_device ns (nr_LinkIndex r) in
      match d with
      | Err e => mret (Err e)
      | Ok dev =>
          let* l := convert_routes ns rest in
          mret (result_map (cons (of_nlRoute dev r)) l)
      end
  end.

(** The loop over the filters. *)
Fixpoint list_filters (ns : namespace) (filters : list Route) : M thread (result (list Route)) :=
  match filters with
  | [] => mret (Ok [])
  | f :: rest =>
      let* l := routeListFiltered ns f in
      match l with
      | Err e => mret (Err e)
      | Ok nlRoutes =>
          let* rs := convert_routes ns nlRoutes in
          match rs with
          | Err e => mret (Err e)
          | Ok routes =>
              let* more := list_filters ns rest in
              mret (result_map (app routes) more)
          end
      end
  end.

Definition defaultFilters : list Route :=
  map (fun proto => mkRoute None None None "" 0 RT_TABLE_MAIN RTN_UNICAST proto 0 false)
    [RTPROT_STATIC; RTPROT_BOOT; RTPROT_DHCP; RTPROT_KERNEL].

Definition n_RouteList (ns : namespace) (filters : list Route) : M thread (result (list Route)) :=
  let filters := match filters with [] => defaultFilters | _ => filters end in
  let* r := list_filters ns filters in
  mret (result_map (insertion_sort compare) r).

Definition n_GetDefaultRoutes (ns : namespace) : M thread (result (list Route)) :=
  let* r := n_RouteList ns [empty_route] in
  mret match r with
       | Err e => Err (Errorf "failed to get a list of routes: %w" [e])
       | Ok routes =>
           Ok (List.filter (fun r => (Bits (rt_Destination r) =? 0) && (rt_Priority r <? MaxInt))%bool routes)
       end.

Definition to_nlRoute (r : Route) : nlRoute :=
  mkNlRoute (toIPNet (rt_Destination r)) (toIP (rt_Source r)) (toIP (rt_Gateway r)) 0 (rt_Priority r)
    (rt_Table r) (rt_Type r) (rt_Protocol r)
    (match rt_Gateway r with None => SCOPE_LINK | Some _ => rt_Scope r end)
    (if rt_Onlink r then FLAG_ONLINK else 0).

Definition n_RouteAdd (ns : namespace) (route : Route) : M thread (option GoError) :=
  let* d := device_index ns (rt_Device route) (to_nlRoute route) in
  match d with
  | Err e => mret (Some e)
  | Ok (r, _) =>
      let* e := sys (nl_RouteAdd (ns_handle ns) r) in
      mret (wrapped "failed to create a route (table: %d, dest: %s, gw: %s) with flags %d: %w" <$> e)
  end.

Fixpoint delete_routes (ns : namespace) (rs : list nlRoute) : M thread (option GoError) :=
  match rs with
  | [] => mret None
  | r :: rest =>
      let* e := sys (nl_RouteDel (ns_handle ns) r) in
      match e with
      | Some err => mret (Some (Errorf "failed to delete a route: dest: %s, gw: %s, dev %s: %w" [err]))
      | None => delete_routes ns rest
      end
  end.

Definition n_RouteDel (ns : namespace) (route : Route) : M thread (option GoError) :=
  let* l := routeListFiltered ns route in
  match l with
  | Err e => mret (Some (Errorf "failed to get a list of routes: dst: %s, gw: %s, dev %s: %w" [e]))
  | Ok [] => mret (Some (Errorf "failed to identify routes to be deleted: dest: %s, gw: %s, dev %s" []))
  | Ok routes => delete_routes ns routes
  end.

(** ** Rules *)

Definition to_nlRule (r : Rule) : nlRule :=
  mkNlRule (toIPNet (ru_Src r)) (ru_IifName r) (ru_Priority r) (ru_Table r).

Definition n_RuleAdd (ns : namespace) (rule : Rule) : M thread (option GoError) :=
  let* e := sys (nl_RuleAdd (ns_handle ns) (to_nlRule rule)) in
  mret (wrapped "failed to add a rule: %w" <$> e).

Definition n_RuleDel (ns : namespace) (rule : Rule) : M thread (option GoError) :=
  let* e := sys (nl_RuleDel (ns_handle ns) (to_nlRule rule)) in
  mret (wrapped "failed to delete a rule: %w" <$> e).

(** The filter of [RuleList]; the table is not part of it. *)
Definition rule_filter (rule : Rule) : nlRule * list rt_filter :=
  let on (b : bool) (m : rt_filter) := if b then [m] else [] in
  let src := match ru_Src rule with Some _ => true | None => false end in
  let iif := nonempty (ru_IifName rule) in
  let pri := negb (ru_Priority rule =? 0) in
  (mkNlRule (if src then toIPNet (ru_Src rule) else nu_Src NewRule)
     (if iif then ru_IifName rule else nu_IifName NewRule)
     (if pri then ru_Priority rule else nu_Priority NewRule) (nu_Table NewRule),
   on src RT_FILTER_SRC ++ on iif RT_FILTER_IIF ++ on pri RT_FILTER_PRIORITY).

Definition of_nlRule (r : nlRule) : Rule :=
  mkRule (toPrefix (nu_Src r)) (nu_IifName r) (nu_Priority r) (nu_Table r).

Definition n_RuleList (ns : namespace) (rule : Rule) : M thread (result (list Rule)) :=
  let '(r, mask) := rule_filter rule in
  let* l := sys (nl_RuleListFiltered (ns_handle ns) r mask) in
  mret match l with
       | Err e => Err (Errorf "failed to get rules: %w" [e])
       | Ok rules => Ok (map of_nlRule rules)
       end.

(** ** Neighbors *)

Definition valid_state (s : string) : bool := negb (String.eqb s "none" || String.eqb s "unknown").

Definition n_NeighborAdd (ns : namespace) (n : Neighbor) : M thread (option GoError) :=
  match nb_IP n with
  | None => mret (Some (Errorf "failed to add a new neighbor entry: invalid IP address %q" []))
  | Some ip =>
      if nonempty (nb_Dev n) then
        let* k := sys (nl_LinkByName (ns_handle ns) (nb_Dev n)) in
        match k with
        | Err e => mret (Some (Errorf "failed to add a new neighbor entry: device %s not found: %w" [e]))
        | Ok k =>
            match ParseMAC (nb_HardwareAddr n) with
            | None => mret (Some (Errorf "failed to add a new neighbor entry: invalid hardware address %q" []))
            | Some hwAddr =>
                if valid_state (NeighborState_String (nb_State n)) then
                  let* e := sys (nl_NeighAdd (ns_handle ns)
                                   (mkNlNeigh (AsSlice ip) (Attrs_Index k) hwAddr (nb_State n))) in
                  mret (wrapped "failed to add a new neighbor entry %q: %w" <$> e)
                else mret (Some (Errorf "failed to add a new neighbor entry: invalid neighbor state %q" []))
            end
        end
      else mret (Some (Errorf "failed to add a new neighbor entry: no device name" []))
  end.

Definition convert_neigh (ns : namespace) (ne : nlNeigh) : M thread (result Neighbor) :=
  let* k := sys (nl_LinkByIndex (ns_handle ns) (ne_LinkIndex ne)) in
  mret match k with
       | Err e => Err (Errorf "failed to get a link with index %d of neighbor %s: %w" [e])
       | Ok k =>
           if String.eqb (NeighborState_String (ne_State ne)) "unknown"
           then Err (Errorf "unknown neighbor state 0x%x found in entry %q" [])
           else Ok (mkNeighbor (toAddr (ne_IP ne)) (HardwareAddr_String (ne_HardwareAddr ne))
                      (Attrs_Name k) (ne_State ne))
       end.

Fixpoint convert_neighs (ns : namespace) (nes : list nlNeigh) : M thread (result (list Neighbor)) :=
  match nes with
  | [] => mret (Ok [])
  | ne :: rest =>
      let* c := convert_neigh ns ne in
      match c with
      | Err e => mret (Err e)
      | Ok n => let* l := convert_neighs ns rest in mret (result_map (cons n) l)
      end
  end.

(** One filter of [NeighborList]. *)
Definition list_neighbors (ns : namespace) (f : Neighbor) : M thread (result (list Neighbor)) :=
  if String.eqb (NeighborState_String (nb_State f)) "unknown"
  then mret (Err (Errorf "unknown neighbor state 0x%x is specified" []))
  else
    let* i := if nonempty (nb_Dev f) then
                let* k := sys (nl_LinkByName (ns_handle ns) (nb_Dev f)) in
                mret match k with
                     | Err e => Err (Errorf "failed to get a dev link named %s on network namespace %s: %w" [e])
                     | Ok k => Ok (Attrs_Index k)
                     end
              else mret (Ok 0) in
    match i with
    | Err e => mret (Err e)
    | Ok index =>
        let* l := sys (nl_NeighListExecute (ns_handle ns) (nb_State f) index) in
        match l with
        | Err e => mret (Err e)
        | Ok nes => convert_neighs ns nes
        end
    end.

Fixpoint n_NeighborList (ns : namespace) (filters : list Neighbor) : M thread (result (list Neighbor)) :=
  match filters with
  | [] => mret (Ok [])
  | f :: rest =>
      let* l := list_neighbors ns f in
      match l with
      | Err e => mret (Err e)
      | Ok ns1 => let* more := n_NeighborList ns rest in mret (result_map (app ns1) more)
      end
  end.

(** ** Redirects *)

Definition n_RedirectAdd (ns : namespace) (src dst : string) : M thread (option GoError) :=
  get srcLink := sys (nl_LinkByName (ns_handle ns) src) orelse wrapped "failed to get interface %s: %w" in
  get dstLink := sys (nl_LinkByName (ns_handle ns) dst) orelse wrapped "failed to get interface %s: %w" in
  check sys (nl_QdiscAddIngress (ns_handle ns) (Attrs_Index srcLink))
    orelse wrapped "failed to add qdisc to %s: %w" in
  check sys (nl_FilterAddRedirect (ns_handle ns) (Attrs_Index srcLink) (Attrs_Index dstLink))
    orelse wrapped "failed to add a filter to %s : %w" in
  mret None.

(** Deletes the elements of a kind, up to the first error. *)
Fixpoint delete_kind {A} (is_kind : A -> bool) (del : A -> M W (option GoError)) (msg : string)
    (l : list A) : M thread (option GoError) :=
  match l with
  | [] => mret None
  | x :: rest =>
      if is_kind x then
        check sys (del x) orelse wrapped msg in delete_kind is_kind del msg rest
      else delete_kind is_kind del msg rest
  end.

Definition n_RedirectDel (ns : namespace) (src : string) : M thread (option GoError) :=
  get srcLink := sys (nl_LinkByName (ns_handle ns) src) orelse wrapped "failed to get interface %s: %w" in
  get filters := sys (nl_FilterList (ns_handle ns) srcLink)
    orelse wrapped "failed to get a list of filters on %s: %w" in
  check delete_kind is_U32 (nl_FilterDel (ns_handle ns)) "failed to delete a filter to %s : %w" filters
    orelse same_error in
  get qdiscs := sys (nl_QdiscList (ns_handle ns) srcLink) orelse same_error in
  delete_kind is_Ingress (nl_QdiscDel (ns_handle ns)) "failed to delete a qdisc on %s : %w" qdiscs.

End Namespace.

(** ** Names in JSON *)

(** encoding/json on strings, and the names that netlink gives to protocols and
    scopes. *)
Class NamesEnv := {
  json_MarshalString : string -> string;
  json_UnmarshalString : string -> result string;
  nl_Protocol_String : Z -> string;
  nl_Scope_String : Z -> string
}.

Section Names.

Context `{NamesEnv}.

Definition unmarshalJSON {T} (data : string) (table : gmap string T) : result T :=
  match json_UnmarshalString data with
  | Err e => Err (Errorf "invalid %s: %v: %w" [e])
  | Ok str =>
      match table !! str with
      | None => Err (Errorf "unknown %s: %s" [])
      | Some v => Ok v
      end
  end.

Definition route_protocols : list Z := [RTPROT_STATIC; RTPROT_BOOT; RTPROT_DHCP; RTPROT_KERNEL].
Definition routeProtocols : gmap string Z := initLookupTable nl_Protocol_String route_protocols.
Definition RouteProtocol_MarshalJSON (p : Z) : string := json_MarshalString (nl_Protocol_String p).
Definition RouteProtocol_UnmarshalJSON (data : string) : result Z := unmarshalJSON data routeProtocols.

Definition route_scopes : list Z := [0; 200; SCOPE_LINK; 254; 255].
Definition routeScopes : gmap string Z := initLookupTable nl_Scope_String route_scopes.
Definition RouteScope_MarshalJSON (s : Z) : string := json_MarshalString (nl_Scope_String s).
Definition RouteScope_UnmarshalJSON (data : string) : result Z := unmarshalJSON data routeScopes.

Definition NeighborState_MarshalJSON (s : Z) : string := json_MarshalString (NeighborState_String s).
Definition NeighborState_UnmarshalJSON (data : string) : result Z := unmarshalJSON data neighborStates.

End Names.
