(* ===== verification/NetopsProps.v ===== *)
(** * Theorems of the network library

    - Conversions: prefixes and addresses survive the trip to netlink and back.
    - Routes: the order is a strict weak order, the list is sorted and complete.
    - Names of states, protocols and scopes survive JSON.
    - Namespaces: [Run] comes back to the namespace it started in and unlocks its
      thread; two defects of the functions around it. *)

From Stdlib Require Import ZArith Ascii String Lia.
From stdpp Require Import base gmap strings list sorting.
From S2P Require Import Prelude NetAddr Vxlan Netops.

Open Scope Z_scope.
Open Scope go_scope.

(** ** Masks *)

Lemma mask_byte_neg n : n <= 0 -> mask_byte n = 0.
Proof. intros Hn. unfold mask_byte. by rewrite (proj2 (Z.leb_le n 0) Hn). Qed.

Lemma mask_byte_full n : 8 <= n -> mask_byte n = 255.
Proof.
  intros Hn. unfold mask_byte. rewrite (proj2 (Z.leb_gt n 0)) by lia.
  by rewrite (proj2 (Z.leb_le 8 n) Hn).
Qed.

Lemma CIDRMask_zero n k : n <= 0 -> forallb (Z.eqb 0) (CIDRMask n k) = true.
Proof.
  revert n. induction k as [|k IH]; intros n Hn; [done|]. cbn [CIDRMask forallb].
  rewrite mask_byte_neg by lia. cbn. apply IH. lia.
Qed.

Lemma mask_byte_small n : 0 <= n < 8 -> mask_byte n =? 255 = false /\ byte_ones (mask_byte n) = Some n.
Proof.
  intros Hn.
  assert (Hall : forallb (fun k => negb (mask_byte k =? 255) && bool_decide (byte_ones (mask_byte k) = Some k))
                   (map Z.of_nat (seq 0 8)) = true) by (vm_compute; reflexivity).
  rewrite forallb_forall in Hall. specialize (Hall n).
  assert (Hin : In n (map Z.of_nat (seq 0 8))).
  { apply in_map_iff. exists (Z.to_nat n). split; [lia|]. apply in_seq. lia. }
  apply Hall in Hin. apply andb_prop in Hin as [Ha Hb]. apply negb_true_iff in Ha.
  by apply bool_decide_eq_true in Hb.
Qed.

Lemma mask_ones_CIDR n k : 0 <= n <= 8 * Z.of_nat k -> mask_ones (CIDRMask n k) = Some n.
Proof.
  revert n. induction k as [|k IH]; intros n Hn; cbn [CIDRMask mask_ones]; [f_equal; lia|].
  destruct (Z.le_gt_cases 8 n) as [Hf|Hs].
  - rewrite mask_byte_full by lia. cbn [Z.eqb Pos.eqb]. rewrite IH by lia. cbn. f_equal. lia.
  - destruct (mask_byte_small n) as [E1 E2]; [lia|]. rewrite E1, CIDRMask_zero by lia. done.
Qed.

Section Conversions.

Context `{NetBytes}.

(** A prefix whose length fits its address. *)
Definition valid_prefix (p : prefix Addr) : Prop := 0 <= prefix_Bits p <= BitLen (prefix_Addr p).

(** Prefixes and addresses survive the conversion to the types of netlink and
    back, for every family and every length of a prefix; a prefix that is not valid
    comes back as the default route, and an address that is not valid as itself when
    no bytes make an address. *)
Theorem conversion_roundtrip :
  (forall p, valid_prefix p -> toPrefix (toIPNet (Some p)) = Some p) /\
  toPrefix (toIPNet None) = DefaultPrefix /\
  (forall a, toAddr (toIP (Some a)) = Some a) /\
  (AddrFromSlice [] = None -> toAddr (toIP None) = None).
Proof.
  split_and!; [|done|apply AddrFromSlice_AsSlice|done].
  intros [a bits] Hv. unfold valid_prefix, BitLen in Hv. cbn [prefix_Addr prefix_Bits] in Hv.
  cbn [toIPNet toPrefix net_IP net_Mask prefix_Addr prefix_Bits]. rewrite AddrFromSlice_AsSlice.
  unfold Mask_Size. rewrite mask_ones_CIDR by lia. cbn [from_option id]. unfold PrefixFrom, BitLen.
  rewrite (proj2 (Z.leb_le 0 bits)), (proj2 (Z.leb_le bits _)) by lia. done.
Qed.

(** ** The order of routes *)

Lemma bytes_Compare_refl a : bytes_Compare a a = Eq.
Proof. induction a as [|x a IH]; [done|]. cbn. by rewrite Z.compare_refl. Qed.

Lemma bytes_Compare_eq a b : bytes_Compare a b = Eq -> a = b.
Proof.
  revert b. induction a as [|x a IH]; intros [|y b]; cbn; try done.
  destruct (Z.compare_spec x y) as [->| |]; [|done..]. intros E. f_equal. auto.
Qed.

Lemma bytes_Compare_antisym a b : bytes_Compare b a = CompOpp (bytes_Compare a b).
Proof.
  revert b. induction a as [|x a IH]; intros [|y b]; cbn; try done.
  rewrite (Z.compare_antisym x y). destruct (x ?= y); cbn; auto.
Qed.

Lemma bytes_Compare_trans a b c :
  bytes_Compare a b = Lt -> bytes_Compare b c = Lt -> bytes_Compare a c = Lt.
Proof.
  revert b c. induction a as [|x a IH]; intros [|y b] [|z c]; cbn; try done.
  destruct (Z.compare_spec x y) as [->|Hxy|], (Z.compare_spec y z) as [->|Hyz|]; try done; intros E1 E2;
    first [ by rewrite (proj2 (Z.compare_lt_iff _ _)) by lia | by eauto | rewrite Z.compare_refl; by eauto ].
Qed.

(** Lexicographic composition: [lt] first, then [less] where neither is smaller. *)
Definition lexico {A K} (key : A -> K) (cmp : K -> K -> comparison) (less : A -> A -> bool) (x y : A) : bool :=
  match cmp (key x) (key y) with Lt => true | Gt => false | Eq => less x y end.

(** A three-way comparison that is a total order on its keys. *)
Definition total_compare {K} (cmp : K -> K -> comparison) : Prop :=
  (forall a b, cmp a b = Eq <-> a = b) /\ (forall a b, cmp b a = CompOpp (cmp a b)) /\
  (forall a b c, cmp a b = Lt -> cmp b c = Lt -> cmp a c = Lt).

Lemma lexico_swo {A K} (key : A -> K) cmp (less : A -> A -> bool) :
  total_compare cmp -> strict_weak_order less -> strict_weak_order (lexico key cmp less).
Proof.
  intros (Heq & Hanti & Htr) (Hirr & Ht & Hn).
  assert (Hrefl : forall a, cmp a a = Eq) by (intros a; by apply Heq). unfold lexico.
  split_and!.
  - intros x. by rewrite Hrefl.
  - intros x y z. destruct (cmp (key x) (key y)) eqn:E1; [|intros _|done].
    + apply Heq in E1. rewrite E1. destruct (cmp (key y) (key z)); eauto.
    + destruct (cmp (key y) (key z)) eqn:E2; [|intros _|done].
      * apply Heq in E2. by rewrite <- E2, E1.
      * by rewrite (Htr _ _ _ E1 E2).
  - intros x y z. destruct (cmp (key x) (key y)) eqn:E1; [|done|intros _].
    + apply Heq in E1. rewrite E1. destruct (cmp (key y) (key z)); eauto.
    + destruct (cmp (key y) (key z)) eqn:E2; [|done|intros _].
      * apply Heq in E2. by rewrite <- E2, E1.
      * rewrite Hanti in E1. rewrite Hanti in E2.
        destruct (cmp (key y) (key x)) eqn:F1; try done. destruct (cmp (key z) (key y)) eqn:F2; try done.
        by rewrite Hanti, (Htr _ _ _ F2 F1).
Qed.

Lemma Z_total_compare : total_compare Z.compare.
Proof.
  split_and!; [apply Z.compare_eq_iff|intros a b; apply Z.compare_antisym|].
  intros a b c. rewrite !Z.compare_lt_iff. lia.
Qed.

Lemma bytes_total_compare : total_compare bytes_Compare.
Proof.
  split_and!; [|intros a b; apply bytes_Compare_antisym|apply bytes_Compare_trans].
  intros a b. split; [apply bytes_Compare_eq|]. intros ->. apply bytes_Compare_refl.
Qed.

Lemma nothing_less_swo {A} : strict_weak_order (fun _ _ : A => false).
Proof. by split_and!. Qed.

(** [compare] is the lexicographic order of table, destination bytes, length and
    priority. *)
Lemma compare_lexico r1 r2 :
  compare r1 r2 =
  lexico rt_Table Z.compare
    (lexico (fun r => prefix_slice (or_default (rt_Destination r))) bytes_Compare
      (lexico (fun r => Bits (or_default (rt_Destination r))) Z.compare
        (lexico rt_Priority Z.compare (fun _ _ => false)))) r1 r2.
Proof.
  unfold compare, lexico.
  destruct (Z.compare_spec (rt_Table r1) (rt_Table r2)) as [->|Hlt|Hgt].
  - rewrite Z.eqb_refl. cbn [negb]. destruct (bytes_Compare _ _); [|done..].
    destruct (Z.compare_spec (Bits (or_default (rt_Destination r1))) (Bits (or_default (rt_Destination r2))))
      as [->|Hlt|Hgt].
    + rewrite Z.eqb_refl. cbn [negb]. unfold Z.ltb. by destruct (_ ?= _).
    + rewrite (proj2 (Z.eqb_neq _ _)) by lia. cbn [negb]. by apply Z.ltb_lt.
    + rewrite (proj2 (Z.eqb_neq _ _)) by lia. cbn [negb]. apply Z.ltb_ge. lia.
  - rewrite (proj2 (Z.eqb_neq _ _)) by lia. cbn [negb]. by apply Z.ltb_lt.
  - rewrite (proj2 (Z.eqb_neq _ _)) by lia. cbn [negb]. apply Z.ltb_ge. lia.
Qed.

Lemma compare_swo : strict_weak_order compare.
Proof.
  assert (Hl := lexico_swo (fun r : Route => rt_Table r) _ _ Z_total_compare
    (lexico_swo (fun r => prefix_slice (or_default (rt_Destination r))) _ _ bytes_total_compare
      (lexico_swo (fun r => Bits (or_default (rt_Destination r))) _ _ Z_total_compare
        (lexico_swo (fun r => rt_Priority r) _ _ Z_total_compare nothing_less_swo)))).
  destruct Hl as (H1 & H2 & H3). split_and!.
  - intros x. rewrite compare_lexico. apply H1.
  - intros x y z. rewrite !compare_lexico. apply H2.
  - intros x y z. rewrite !compare_lexico. apply H3.
Qed.

End Conversions.

(** ** Stability of the sort *)

Section Stable.

Context {A : Type} (less : A -> A -> bool) (Hless : strict_weak_order less).

(** Neither is less than the other. *)
Definition equivalent (x y : A) : bool := (negb (less x y) && negb (less y x))%bool.

Lemma insert_by_stable k x l :
  List.filter (equivalent k) (insert_by less x l) = List.filter (equivalent k) (x :: l).
Proof.
  destruct Hless as (Hirr & Ht & Hn). induction l as [|y l IH]; [done|]. cbn [insert_by].
  destruct (less y x) eqn:E; [|done]. cbn [List.filter] in *. rewrite IH.
  destruct (equivalent k y) eqn:Ey, (equivalent k x) eqn:Ex; try done.
  unfold equivalent in *. apply andb_prop in Ey as [Ey1 Ey2]. apply andb_prop in Ex as [Ex1 Ex2].
  apply negb_true_iff in Ey1, Ey2, Ex1, Ex2. by rewrite (Hn y k x Ey2 Ex1) in E.
Qed.

Lemma insertion_sort_stable k l :
  List.filter (equivalent k) (insertion_sort less l) = List.filter (equivalent k) l.
Proof.
  induction l as [|x l IH]; [done|]. cbn [insertion_sort]. rewrite insert_by_stable.
  cbn [List.filter]. by rewrite IH.
Qed.

Lemma insertion_sort_sorted l : StronglySorted (fun x y => less y x = false) (insertion_sort less l).
Proof. exact (sort_Slice_sorted A less l Hless). Qed.

End Stable.

Section Routes.

Context {W : Type} `{NetBytes} `{!Netlink W}.

(** [RouteList]: on success it returns exactly the routes that the filters gave
    (those of the four protocols of the main table without a filter), sorted by
    table, destination, prefix length and priority, and equal ones in the order in
    which they were found; the state is that of the look-ups. *)
Theorem RouteList_sorted (ns : namespace) filters (s : thread) routes s' :
  n_RouteList ns filters s = (Ok routes, s') ->
  exists found,
    list_filters ns (match filters with [] => defaultFilters | _ => filters end) s = (Ok found, s') /\
    routes ≡ₚ found /\ StronglySorted (fun x y => compare y x = false) routes /\
    forall k, List.filter (equivalent compare k) routes = List.filter (equivalent compare k) found.
Proof.
  unfold n_RouteList, mbind. destruct (list_filters ns _ s) as [[found|e] s1]; [|done].
  intros [= <- <-]. exists found. split_and!; [done|apply insertion_sort_perm| |].
  - apply insertion_sort_sorted, compare_swo.
  - intros k. apply insertion_sort_stable, compare_swo.
Qed.

(** Deleting routes: all that match, or an error when none does. *)
Lemma delete_routes_none ns rs (s : thread) :
  (forall r w, (nl_RouteDel (ns_handle ns) r w).1 = None) ->
  (delete_routes ns rs s).1 = None.
Proof.
  intros Hd. revert s. induction rs as [|r rs IH]; intros s; [done|]. cbn [delete_routes].
  unfold mbind, sys. specialize (Hd r (kernel s)). destruct (nl_RouteDel _ r (kernel s)) as [e w].
  cbn [fst] in Hd. subst e. apply IH.
Qed.

End Routes.

(** ** Names *)

Lemma initLookupTable_foldl {T} (str : T -> string) l (m : gmap string T) x :
  str x ∉ map str l -> foldl (fun m y => <[str y := y]> m) m l !! str x = m !! str x.
Proof.
  revert m. induction l as [|y l IH]; intros m Hx; [done|]. cbn [foldl map] in *.
  rewrite IH by set_solver. apply lookup_insert_ne. set_solver.
Qed.

Lemma initLookupTable_lookup {T} (str : T -> string) l x :
  NoDup (map str l) -> x ∈ l -> initLookupTable str l !! str x = Some x.
Proof.
  intros Hnd (l1 & l2 & ->)%list_elem_of_split. unfold initLookupTable. rewrite foldl_app. cbn [foldl].
  rewrite initLookupTable_foldl; [apply lookup_insert_eq|].
  rewrite map_app in Hnd. apply NoDup_app in Hnd as (_ & _ & Hnd). cbn [map] in Hnd.
  by apply NoDup_cons in Hnd as [Hn _].
Qed.

(** JSON gives a string back, and netlink names the listed protocols and scopes
    differently. *)
Class NamesLaws `{NamesEnv} := {
  json_string_roundtrip : forall s, json_UnmarshalString (json_MarshalString s) = Ok s;
  protocol_names_distinct : NoDup (map nl_Protocol_String route_protocols);
  scope_names_distinct : NoDup (map nl_Scope_String route_scopes)
}.

(** Protocols, scopes and neighbor states that the tunnel's configuration carries
    from the worker node to the pod VM survive JSON; a neighbor state without a name
    is written but refused when read. *)
Theorem names_roundtrip `{NamesLaws} :
  (forall p, p ∈ route_protocols -> RouteProtocol_UnmarshalJSON (RouteProtocol_MarshalJSON p) = Ok p) /\
  (forall s, s ∈ route_scopes -> RouteScope_UnmarshalJSON (RouteScope_MarshalJSON s) = Ok s) /\
  (forall s, s ∈ map fst neighorStateMap -> NeighborState_UnmarshalJSON (NeighborState_MarshalJSON s) = Ok s) /\
  (forall s, s ∉ map fst neighorStateMap -> is_ok (NeighborState_UnmarshalJSON (NeighborState_MarshalJSON s)) = false).
Proof.
  unfold RouteProtocol_UnmarshalJSON, RouteProtocol_MarshalJSON, RouteScope_UnmarshalJSON,
    RouteScope_MarshalJSON, NeighborState_UnmarshalJSON, NeighborState_MarshalJSON, unmarshalJSON.
  split_and!; intros x Hx; rewrite json_string_roundtrip.
  - unfold routeProtocols. by rewrite initLookupTable_lookup by (done || apply protocol_names_distinct).
  - unfold routeScopes. by rewrite initLookupTable_lookup by (done || apply scope_names_distinct).
  - unfold neighborStates. rewrite initLookupTable_lookup; [done| |done].
    apply (bool_decide_unpack _). vm_compute. done.
  - assert (E : NeighborState_String x = "unknown").
    { unfold NeighborState_String. destruct (List.find _ neighorStateMap) as [[k v]|] eqn:Ef; [|done].
      apply find_some in Ef as [Hin Hk]. apply Z.eqb_eq in Hk. cbn in Hk. subst k. destruct Hx.
      apply list_elem_of_In, in_map_iff. by exists (x, v). }
    rewrite E. reflexivity.
Qed.

(** ** Namespaces of a thread *)

(** The namespace the thread is in, and the one a descriptor denotes. *)
Class NsLaws (W : Type) `{Netlink W} := {
  current : W -> Z;
  denotes : W -> NsHandle -> Z;
  Get_law : forall w h w', netns_Get w = (Ok h, w') ->
    denotes w' h = current w /\ current w' = current w /\ (forall k, k <> h -> denotes w' k = denotes w k);
  Get_fail : forall w e w', netns_Get w = (Err e, w') -> current w' = current w;
  Set_law : forall h w w', netns_Set h w = (None, w') ->
    current w' = denotes w h /\ (forall k, denotes w' k = denotes w k);
  Set_fail : forall h w e w', netns_Set h w = (Some e, w') -> current w' = current w;
  Close_law : forall h w, current (netns_Close h w).2 = current w
}.

Section Threads.

Context {W : Type} `{NsLaws W}.

(** What is run inside comes back to its namespace, unlocks what it locks, and
    leaves descriptors that it did not open alone. *)
Definition well_behaved (fn : M thread (option GoError)) : Prop := forall s,
  current (kernel (fn s).2) = current (kernel s) /\ locks (fn s).2 = locks s /\
  forall h, denotes (kernel (fn s).2) h = denotes (kernel s) h.

Lemma sys_locks {A} (m : M W A) s : locks (sys m s).2 = locks s.
Proof. unfold sys. by destruct (m (kernel s)). Qed.

Lemma sys_run {A} (m : M W A) s : sys m s = ((m (kernel s)).1, mkThread (m (kernel s)).2 (locks s)).
Proof. unfold sys. by destruct (m (kernel s)). Qed.

(** The part between [Get] and [Close]. *)
Lemma run_in_restores ns old fn s :
  well_behaved fn -> denotes (kernel s) old = current (kernel s) ->
  (current (kernel (run_in ns old fn s).2) = current (kernel s) \/ (run_in ns old fn s).1 <> None) /\
  locks (run_in ns old fn s).2 = locks s.
Proof.
  intros Hfn Hold. unfold run_in. destruct (ns_nsHandle ns =? old).
  { destruct (Hfn s) as (? & ? & _). auto. }
  unfold mbind. rewrite sys_run. destruct (netns_Set (ns_nsHandle ns) (kernel s)) as [[e|] w1] eqn:E1; cbn.
  { split; [by right|done]. }
  destruct (Set_law _ _ _ E1) as [_ Hd].
  set (s1 := mkThread w1 (locks s)). destruct (Hfn s1) as (_ & Hl & Hk).
  destruct (fn s1) as [err s2]. cbn [snd] in *. unfold set_back, mbind. rewrite sys_run.
  destruct (netns_Set old (kernel s2)) as [[e3|] w3] eqn:E3; cbn; (split; [|done]); [by right|left].
  destruct (Set_law _ _ _ E3) as [Hc _]. rewrite Hc, Hk. cbn [kernel s1]. by rewrite Hd.
Qed.

(** [Run] leaves the thread as it found it: whatever the function does and
    returns, and whether or not the target namespace can be entered, afterwards the
    goroutine is locked as often as before, and the thread is in the namespace it
    started in unless [Run] reports an error. *)
Theorem Run_restores ns fn s :
  well_behaved fn ->
  (current (kernel (n_Run ns fn s).2) = current (kernel s) \/ (n_Run ns fn s).1 <> None) /\
  locks (n_Run ns fn s).2 = locks s.
Proof.
  intros Hfn. unfold n_Run, LockOSThread, UnlockOSThread, mbind. rewrite sys_run.
  cbn [kernel locks]. destruct (netns_Get (kernel s)) as [[old|e] w1] eqn:Eg; cbn [fst snd].
  - destruct (Get_law _ _ _ Eg) as (Hd & Hc & _).
    destruct (run_in_restores ns old fn (mkThread w1 (locks s + 1))) as [Hc2 Hl2];
      [done|by rewrite <- Hc in Hd|]. cbn [kernel locks] in *.
    destruct (run_in ns old fn (mkThread w1 (locks s + 1))) as [err s2]. cbn [fst snd] in *.
    unfold close_old, mbind. rewrite sys_run. cbn. split; [|lia].
    destruct Hc2 as [Hc2|Hc2]; [left; by rewrite Close_law, Hc2, Hc|right; by destruct (netns_Close old _).1].
  - cbn. split; [by right|lia].
Qed.

(** [RunAsNsPath] does not report what went wrong inside: whenever the namespace
    opens and closes, it returns no error, even if the function failed or the
    namespace could not be entered and the function never ran. *)
Theorem RunAsNsPath_loses_error nsPath fn s ns s1 :
  n_OpenNamespace nsPath s = (Ok ns, s1) -> (n_Close ns (n_Run ns fn s1).2).1 = None ->
  (RunAsNsPath nsPath fn s).1 = None.
Proof.
  intros Ho Hc. unfold RunAsNsPath, mbind. rewrite Ho. destruct (n_Run ns fn s1) as [err s2]. cbn [snd] in Hc.
  destruct (n_Close ns s2) as [e s3]. cbn [fst] in Hc. by subst e.
Qed.

(** [CreateNamedNamespace] reports success although the thread could not be set
    back to its old namespace, and on every path it leaves the goroutine locked to
    its thread twice more than before, since its deferred call locks again. *)
Theorem CreateNamedNamespace_stays_locked name s :
  locks (CreateNamedNamespace name s).2 = locks s + 2.
Proof.
  unfold CreateNamedNamespace, LockOSThread, mbind. rewrite sys_run. cbn [kernel locks].
  destruct (netns_Get (kernel s)) as [[old|e] w1]; cbn [fst snd]; [|cbn; lia].
  rewrite sys_run. cbn [kernel locks].
  destruct (netns_NewNamed name w1) as [[h|e] w2]; cbn [fst snd].
  - rewrite sys_run. cbn [kernel locks]. destruct (netns_Close h w2) as [[e|] w3]; cbn; rewrite sys_run; cbn; lia.
  - cbn. rewrite sys_run. cbn. lia.
Qed.

End Threads.
