(* ===== verification/NetopsBench.v ===== *)
(** * An executable kernel for the network library

    A kernel with numbered network namespaces, descriptors that denote them, and a
    list of links and routes.  It satisfies the laws of [NetBytes], [NsLaws] and
    [NamesLaws], and the theorems of the network library are applied on it. *)

From Stdlib Require Import ZArith Ascii String Lia.
From stdpp Require Import base gmap strings list sorting.
From S2P Require Import Prelude NetAddr Vxlan Netops NetopsProps.

Open Scope Z_scope.
Open Scope go_scope.

Definition ipv4_slice (a : ipv4) : list Z :=
  let '(a, b, c, d) := octets (addr_value a) in [a; b; c; d].

Definition ipv4_of_slice (l : list Z) : option ipv4 :=
  match l with [a; b; c; d] => mk_addr (of_octets a b c d) | _ => None end.

#[export, program] Instance ipv4_bytes : NetBytes := {
  AsSlice := ipv4_slice;
  AddrFromSlice := ipv4_of_slice;
  IPv4Unspecified := mk_ipv4 0 I
}.
Next Obligation.
  intros a. unfold ipv4_slice, octets, ipv4_of_slice.
  assert (E := octets_of (addr_value a) (addr_value_range a)). unfold octets in E. rewrite E.
  apply mk_addr_value.
Qed.
Next Obligation.
  intros a. unfold ipv4_slice, octets. repeat constructor; apply Z.mod_pos_bound; lia.
Qed.

Record kern := mkKern {
  k_current : Z;
  k_fds : list Z;
  k_links : list (string * Z);
  k_routes : list nlRoute
}.

(** Descriptor [n] is the [n]th entry of the table, which only grows. *)
Definition k_denotes (w : kern) (h : Z) : Z := if h <? 0 then -1 else nth (Z.to_nat h) (k_fds w) (-1).
Definition k_open (n : Z) : M kern (result Z) := fun w =>
  (Ok (Z.of_nat (length (k_fds w))), mkKern (k_current w) (k_fds w ++ [n]) (k_links w) (k_routes w)).
Definition k_set (h : Z) : M kern (option GoError) := fun w =>
  if (0 <=? h) && (h <? Z.of_nat (length (k_fds w)))
  then (None, mkKern (k_denotes w h) (k_fds w) (k_links w) (k_routes w))
  else (Some (Errorf "bad file descriptor" []), w).
Definition k_missing {A} : M kern (result A) := mret (Err (Errorf "not found" [])).
Definition k_find (p : string * Z -> bool) : M kern (result (string * Z)) := fun w =>
  match List.find p (k_links w) with Some l => (Ok l, w) | None => (Err (Errorf "Link not found" []), w) end.
Definition k_ok : M kern (option GoError) := mret None.

#[export] Instance kern_netlink : Netlink kern := {
  Handle := unit;
  Getpid := mret 1;
  Gettid := mret 1;
  netns_GetFromPath := fun p => if String.eqb p "/run/netns/pod" then k_open 1 else k_missing;
  netns_Get := fun w => k_open (k_current w) w;
  netns_Set := k_set;
  netns_NewNamed := fun _ => k_open 2;
  netns_DeleteNamed := fun _ => k_ok;
  netns_Close := fun _ => k_ok;
  NewHandleAt := fun _ => mret (Ok tt);
  Handle_Close := fun _ => mret tt;
  nlLink := string * Z;
  Attrs_Name := fst;
  Attrs_Index := snd;
  Attrs_MTU := fun _ => 1500;
  Attrs_HardwareAddr := fun _ => [];
  nl_Kind := fun _ => KBridge;
  nl_Type := fun _ => "bridge"%string;
  nl_LinkList := fun _ w => (Ok (k_links w), w);
  nl_LinkAdd := fun _ _ _ => k_ok;
  nl_LinkByName := fun _ n => k_find (fun l => String.eqb (fst l) n);
  nl_LinkByIndex := fun _ i => k_find (fun l => Z.eqb (snd l) i);
  nl_LinkDel := fun _ _ => k_ok;
  nl_LinkSetMTU := fun _ _ _ => k_ok;
  nl_LinkSetHardwareAddr := fun _ _ _ => k_ok;
  nl_LinkSetMaster := fun _ _ _ => k_ok;
  nl_LinkSetNsFd := fun _ _ _ => k_ok;
  nl_LinkSetName := fun _ _ _ => k_ok;
  nl_LinkSetUp := fun _ _ => k_ok;
  nl_AddrList := fun _ _ => mret (Ok []);
  nl_AddrAdd := fun _ _ _ => k_ok;
  nl_RouteListFiltered := fun _ f mask w =>
    (Ok (List.filter (fun r => forallb (fun m => match m with
                                               | RT_FILTER_TABLE => nr_Table r =? nr_Table f
                                               | RT_FILTER_TYPE => nr_Type r =? nr_Type f
                                               | RT_FILTER_PROTOCOL => nr_Protocol r =? nr_Protocol f
                                               | RT_FILTER_OIF => nr_LinkIndex r =? nr_LinkIndex f
                                               | _ => true
                                               end) mask) (k_routes w)), w);
  nl_RouteAdd := fun _ r w => (None, mkKern (k_current w) (k_fds w) (k_links w) (r :: k_routes w));
  nl_RouteDel := fun _ _ => k_ok;
  nl_RuleAdd := fun _ _ => k_ok;
  nl_RuleDel := fun _ _ => k_ok;
  nl_RuleListFiltered := fun _ _ _ => mret (Ok []);
  nl_NeighAdd := fun _ _ => k_ok;
  nl_NeighListExecute := fun _ _ _ => mret (Ok []);
  nl_Filter := unit;
  nl_Qdisc := unit;
  is_U32 := fun _ => true;
  is_Ingress := fun _ => true;
  nl_QdiscAddIngress := fun _ _ => k_ok;
  nl_FilterAddRedirect := fun _ _ _ => k_ok;
  nl_FilterList := fun _ _ => mret (Ok []);
  nl_FilterDel := fun _ _ => k_ok;
  nl_QdiscList := fun _ _ => mret (Ok []);
  nl_QdiscDel := fun _ _ => k_ok;
  ParseMAC := fun _ => Some [];
  HardwareAddr_String := fun _ => EmptyString
}.

#[export, program] Instance kern_laws : NsLaws kern := {
  current := k_current;
  denotes := k_denotes
}.
Next Obligation.
  intros w h w' [= <- <-]. unfold k_denotes. cbn [k_fds]. split_and!; [|done|].
  - rewrite (proj2 (Z.ltb_ge _ _)) by lia. by rewrite Nat2Z.id, app_nth2, Nat.sub_diag by lia.
  - intros k Hk. destruct (Z.ltb_spec k 0) as [|Hk0]; [done|]. destruct (decide (Z.to_nat k < length (k_fds w))%nat) as [Hlt|Hge].
    + by rewrite app_nth1.
    + rewrite !nth_overflow; rewrite ?length_app; cbn; lia.
Qed.
Next Obligation. done. Qed.
Next Obligation.
  intros h w w'. cbn. unfold k_set. destruct (_ && _)%bool; [|done]. by intros [= <-].
Qed.
Next Obligation.
  intros h w e w'. cbn. unfold k_set. destruct (_ && _)%bool; [done|]. by intros [= _ <-].
Qed.
Next Obligation. done. Qed.

(** Strings in quotes, and the names of the netlink library. *)
Fixpoint drop_last (s : string) : string :=
  match s with
  | EmptyString => EmptyString
  | String _ EmptyString => EmptyString
  | String c rest => String c (drop_last rest)
  end.

Lemma drop_last_app s c : drop_last (s +:+ String c EmptyString) = s.
Proof.
  induction s as [|x s IH]; [done|]. change (String x s +:+ String c EmptyString) with (String x (s +:+ String c EmptyString)).
  cbn [drop_last]. rewrite IH. by destruct s.
Qed.

Definition name_of (names : list (Z * string)) (z : Z) : string :=
  match List.find (fun kv => fst kv =? z) names with Some (_, s) => s | None => pretty.pretty z end.

#[export] Instance plain_names : NamesEnv := {
  json_MarshalString := fun s => String "034" (s +:+ String "034" EmptyString);
  json_UnmarshalString := fun s =>
    match s with String _ rest => Ok (drop_last rest) | EmptyString => Err (Errorf "unexpected end of JSON input" []) end;
  nl_Protocol_String := name_of [(2, "kernel"); (3, "boot"); (4, "static"); (16, "dhcp")]%string;
  nl_Scope_String := name_of [(0, "universe"); (200, "site"); (253, "link"); (254, "host"); (255, "nowhere")]%string
}.

#[export, program] Instance plain_names_laws : NamesLaws.
Next Obligation. intros s. cbn. f_equal. apply drop_last_app. Qed.
Next Obligation. apply (bool_decide_unpack _). vm_compute. done. Qed.
Next Obligation. apply (bool_decide_unpack _). vm_compute. done. Qed.

Definition nlr (index prio proto : Z) : nlRoute := mkNlRoute None [] [] index prio 254 1 proto 0 0.

(** A host in namespace 0 with two links; two routes of equal rank come from
    different protocols. *)
Definition host : thread :=
  mkThread (mkKern 0 [] [("eth0"%string, 2); ("eth1"%string, 3)] [nlr 3 200 4; nlr 2 100 3; nlr 2 200 16]) 0.

Definition pod_ns : namespace := mkNamespace tt "/run/netns/pod" 0.
Definition host_ns : namespace := mkNamespace tt "/proc/1/task/1/ns/net" 0.
Definition opened : thread := (n_OpenNamespace "/run/netns/pod" host).2.

Lemma RouteList_sorted_witness :
  match n_RouteList host_ns [] host with
  | (Ok routes, _) => StronglySorted (fun x y => compare y x = false) routes /\
                      map rt_Device routes = ["eth0"; "eth1"; "eth0"]%string
  | (Err _, _) => False
  end.
Proof.
  assert (Hd : match n_RouteList host_ns [] host with
               | (Ok routes, _) => bool_decide (map rt_Device routes = ["eth0"; "eth1"; "eth0"]%string)
               | (Err _, _) => false
               end = true) by (vm_compute; reflexivity).
  destruct (n_RouteList host_ns [] host) as [[routes|e] s'] eqn:E; [|discriminate Hd].
  split; [|exact (bool_decide_eq_true_1 _ Hd)].
  destruct (RouteList_sorted host_ns [] host routes s' E) as (found & _ & _ & Hs & _). exact Hs.
Defined.

Lemma names_roundtrip_witness :
  RouteProtocol_UnmarshalJSON (RouteProtocol_MarshalJSON 16) = Ok 16 /\
  NeighborState_UnmarshalJSON (NeighborState_MarshalJSON 128) = Ok 128.
Proof.
  destruct names_roundtrip as (Hp & _ & Hn & _). split.
  - apply Hp. apply (bool_decide_unpack _). vm_compute. done.
  - apply Hn. apply (bool_decide_unpack _). vm_compute. done.
Defined.

(** A function that fails inside the namespace of the pod. *)
Definition failing : M (@thread kern) (option GoError) := mret (Some (Errorf "dial failed" [])).

Lemma Run_restores_witness :
  is_Some (n_Run pod_ns failing opened).1 /\ current (kernel (n_Run pod_ns failing opened).2) = 0 /\
  locks (n_Run pod_ns failing opened).2 = 0.
Proof.
  destruct (Run_restores pod_ns failing opened) as [_ Hl]; [by intros s|].
  split; [apply (bool_decide_unpack _); vm_compute; exact I|]. split; [vm_compute; reflexivity|exact Hl].
Defined.

Lemma RunAsNsPath_loses_error_witness :
  (n_Run pod_ns failing opened).1 <> None /\ (RunAsNsPath "/run/netns/pod" failing host).1 = None.
Proof.
  split; [vm_compute; discriminate|].
  apply (RunAsNsPath_loses_error "/run/netns/pod" failing host pod_ns opened); reflexivity.
Defined.
