(* ===== verification/SshProxy.v ===== *)
(** * Tunnels over SSH

    Models src/cloud-api-adaptor/pkg/securecomms/sshproxy/sshproxy.go, which worker
    node and pod VM run on the two ends of one SSH connection: tags, inbounds
    (listening sockets of one end), outbounds (addresses that the other end may
    reach), and the peer that answers requests and tunnel channels.  The goroutine
    of a peer is the step function [peer_step]; what arrives on its three channels
    and what the owner of the peer calls are the operations [peer_op], in any
    order.  The copying of bytes between a channel and a socket is in SshTunnel. *)

From Stdlib Require Import ZArith Ascii String Lia.
From stdpp Require Import base gmap strings list.
From S2P Require Import Prelude.

Open Scope Z_scope.
Open Scope go_scope.

(** ** Constants *)

Definition PP_SID : string := "pp-sid/".
Definition PP_PRIVATE_KEY : string := PP_SID +:+ "privateKey".
Definition ATTESTATION : string := "Attestation".
Definition KUBERNETES : string := "Kubernetes".
Definition KUBERNETES_PHASE : string := "KUBERNETES_PHASE".
Definition ATTESTATION_PHASE : string := "ATTESTATION_PHASE".
Definition BOTH_PHASES : string := "BOTH_PHASES".
Definition PHASE : string := "Phase".
Definition UPGRADE : string := "Upgrade".
Definition KBS : string := "KBS".

(** ** Tags *)

Record Tag := mkTag { t_port : Z; t_host : string; t_name : string; t_phase : string }.

(** [strconv.ParseUint(s, 10, 16)] *)
Definition ParseUint16 (s : string) : option Z :=
  match parse_uint s with
  | Some z => if z <=? 65535 then Some z else None
  | None => None
  end.

(** Phase, name, host (or namespace) and port of a tag. *)
Definition tag_fields (tag : string) : option (string * string * string * string) :=
  match split_on ":" tag with
  | [phase; name; port] => Some (phase, name, EmptyString, port)
  | [phase; name; host; port] => Some (phase, name, host, port)
  | _ => None
  end.

Definition legal_phase (phase : string) : bool :=
  String.eqb phase ATTESTATION_PHASE || String.eqb phase KUBERNETES_PHASE || String.eqb phase BOTH_PHASES.

(** The three checks write the same error, the last one wins. *)
Definition tag_error (port : option Z) (phase name : string) : option GoError :=
  let err := match port with
             | None => Some (Errorf "illegal tag port '%s' - err: %v" [])
             | Some _ => None
             end in
  let err := if legal_phase phase then err else Some (Errorf "illegal tag phase '%s'" []) in
  if String.eqb name "" then Some (Errorf "illegal tag name '%s'" []) else err.

Definition ParseTag (tag : string) : result Tag :=
  match tag_fields tag with
  | None => Err (Errorf "illegal tag: %s" [])
  | Some (phase, name, host, inPort) =>
      let port := ParseUint16 inPort in
      match tag_error port phase name with
      | Some e => Err e
      | None => Ok (mkTag (default 0 port) host name phase)
      end
  end.

(** ** Outbounds *)

Record Outbound := mkOutbound { ob_Name : string; ob_OutAddr : string; ob_Phase : string }.

Definition ob_Add (port : Z) (host name phase : string) (l : list Outbound) : list Outbound :=
  l ++ [mkOutbound name (host +:+ ":" +:+ FormatInt port) phase].

(** The tags before one that is illegal stay added. *)
Fixpoint ob_AddTags (tags : list string) (l : list Outbound) : option GoError * list Outbound :=
  match tags with
  | [] => (None, l)
  | tag :: rest =>
      let tag := TrimSpace tag in
      if String.eqb tag "" then ob_AddTags rest l
      else
        match ParseTag tag with
        | Err e => (Some (Errorf "failed to parse outbound tag %s: %v" []), l)
        | Ok t =>
            let host := if String.eqb (t_host t) "" then "127.0.0.1"%string else t_host t in
            ob_AddTags rest (ob_Add (t_port t) host (t_name t) (t_phase t) l)
        end
  end.

(** ** Inbounds *)

(** Listening on 127.0.0.1, also inside a network namespace: [ns_Run] runs the call
    in the namespace and gives its own error precedence over the result. *)
Class ListenEnv (W : Type) := {
  Listener : Type;
  NS : Type;
  ListenTCP : Z -> M W (result Listener);
  Listener_Port : Listener -> result string;
  Listener_Close : Listener -> M W unit;
  ns_Open : string -> M W (result NS);
  ns_Run : NS -> M W (result Listener) -> M W (result Listener);
  ns_Close : NS -> M W unit
}.

Record Inbound (L : Type) := mkInbound { ib_Name : string; ib_Listener : L; ib_Phase : string }.
Arguments mkInbound {L} ib_Name ib_Listener ib_Phase.
Arguments ib_Name {L} i.
Arguments ib_Listener {L} i.
Arguments ib_Phase {L} i.

Section Inbounds.

Context {W : Type} `{ListenEnv W}.

Definition listen (namespace : string) (port : Z) : M W (result Listener) :=
  if String.eqb namespace "" then ListenTCP port
  else
    let* o := ns_Open (filepath_Join ["/run/netns"%string; namespace]) in
    match o with
    | Err e => mret (Err (Errorf "inbound %s failed to OpenNamespace '%s': %w" [e]))
    | Ok ns =>
        let* r := ns_Run ns (ListenTCP port) in
        let* _c := ns_Close ns in
        mret match r with
             | Err e => Err (Errorf "inbound %s failed to ListenTCP '%s': %w" [e])
             | Ok l => Ok l
             end
    end.

(** The list grows by the new inbound; an address that cannot be split panics. *)
Definition ib_Add (namespace : string) (inPort : Z) (name phase : string) (l : list (Inbound Listener))
    : M W (outcome (result (string * list (Inbound Listener)))) :=
  let* r := listen namespace inPort in
  mret match r with
       | Err e => Return (Err (Errorf "inbound failed to listen to host: %s port '%d' - err: %v" []))
       | Ok tcpListener =>
           match Listener_Port tcpListener with
           | Err _ => Panic
           | Ok retPort => Return (Ok (retPort, l ++ [mkInbound name tcpListener phase]))
           end
       end.

(** The ports by name, of a tunnel whose owner asked for them. *)
Fixpoint ib_AddTags (tags : list string) (ports : gmap string string) (l : list (Inbound Listener))
    : M W (outcome (option GoError * gmap string string * list (Inbound Listener))) :=
  match tags with
  | [] => mret (Return (None, ports, l))
  | tag :: rest =>
      let tag := TrimSpace tag in
      if String.eqb tag "" then ib_AddTags rest ports l
      else
        match ParseTag tag with
        | Err e => mret (Return (Some (Errorf "failed to parse inbound tag %s: %v" []), ports, l))
        | Ok t =>
            let* r := ib_Add (t_host t) (t_port t) (t_name t) (t_phase t) l in
            match r with
            | Panic => mret Panic
            | Return (Err e) => mret (Return (Some (Errorf "failed to add inbound: %v" []), ports, l))
            | Return (Ok (retPort, l')) => ib_AddTags rest (<[t_name t := retPort]> ports) l'
            end
        end
  end.

Fixpoint DelAll (l : list (Inbound Listener)) : M W (list (Inbound Listener)) :=
  match l with
  | [] => mret []
  | i :: rest => let* _c := Listener_Close (ib_Listener i) in DelAll rest
  end.

End Inbounds.

(** ** Peers *)

Record SshPeer := mkPeer {
  pr_sid : string;
  pr_phase : string;
  pr_outbounds : gmap string Outbound;
  (** name and phase of the inbounds whose connections the peer takes *)
  pr_inbounds : gmap string string;
  pr_upgrade : bool;
  (** closing of the channels [outboundsReady] and [done] *)
  pr_ready : bool;
  pr_done : bool
}.

Definition set_outbounds (f : gmap string Outbound -> gmap string Outbound) (p : SshPeer) : SshPeer :=
  mkPeer (pr_sid p) (pr_phase p) (f (pr_outbounds p)) (pr_inbounds p) (pr_upgrade p) (pr_ready p) (pr_done p).
Definition set_inbounds (f : gmap string string -> gmap string string) (p : SshPeer) : SshPeer :=
  mkPeer (pr_sid p) (pr_phase p) (pr_outbounds p) (f (pr_inbounds p)) (pr_upgrade p) (pr_ready p) (pr_done p).
Definition set_flags (upgrade ready done : bool) (p : SshPeer) : SshPeer :=
  mkPeer (pr_sid p) (pr_phase p) (pr_outbounds p) (pr_inbounds p) upgrade ready done.

Definition new_peer (phase sid : string) : SshPeer := mkPeer sid phase ∅ ∅ false false false.

(** ssh.Request and ssh.NewChannel, the latter with what [Accept] answers. *)
Record Request := mkRequest { rq_Type : string; rq_WantReply : bool; rq_Payload : string }.
Record NewChannel := mkNewChannel { ch_Type : string; ch_ExtraData : string; ch_Accept : option GoError }.

Inductive peer_event :=
| EReply (type : string) (ok : bool) (payload : string)
| EUnknown (type : string)
| EReject (name : string)
(** a tunnel is connected to the address of the outbound, by the proxy of HTTP
    requests or directly *)
| ETunnel (outbound : Outbound) (proxied : bool)
| EClose (who : string).

Definition peer_Close (who : string) (p : SshPeer) : SshPeer * list peer_event :=
  if pr_done p then (p, []) else (set_flags (pr_upgrade p) (pr_ready p) true p, [EClose who]).

Definition handle_request (r : Request) (p : SshPeer) : SshPeer * list peer_event :=
  if rq_WantReply r then
    if String.eqb (rq_Type r) PHASE then (p, [EReply (rq_Type r) true (pr_phase p)])
    else if (String.eqb (pr_phase p) ATTESTATION && String.eqb (rq_Type r) UPGRADE)%bool
    then (set_flags true (pr_ready p) (pr_done p) p, [EReply (rq_Type r) true (pr_phase p)])
    else (p, [EReply (rq_Type r) false ""])
  else (p, []).

Definition tunnel_refused (phase : string) (o : Outbound) : bool :=
  (String.eqb (ob_Phase o) ATTESTATION_PHASE && negb (String.eqb phase ATTESTATION) ||
   String.eqb (ob_Phase o) KUBERNETES_PHASE && negb (String.eqb phase KUBERNETES))%bool.

(** After a failed [Accept] the peer is closed, but the nil channel is used all the
    same: the proxy recovers from it, the direct connection does not. *)
Definition open_tunnel (ch : NewChannel) (p : SshPeer) : outcome (SshPeer * list peer_event) :=
  let name := ch_ExtraData ch in
  match pr_outbounds p !! name with
  | None => Return (p, [EReject name])
  | Some o =>
      if tunnel_refused (pr_phase p) o then Return (p, [EReject name])
      else
        let proxied := String.eqb (ob_Name o) KBS in
        match ch_Accept ch with
        | None => Return (p, [ETunnel o proxied])
        | Some _ => if proxied then Return (peer_Close "Accept failed" p) else Panic
        end
  end.

(** *** The goroutine and its owner *)

Inductive loop_state := Running | Waiting (ch : NewChannel) | Stopped.

Record peer_conf := mkConf { c_peer : SshPeer; c_loop : loop_state; c_trace : list peer_event }.

Inductive peer_op :=
(** a global request, a new channel ([None]: the Go channel is closed), the context *)
| OReq (r : option Request)
| OChan (c : option NewChannel)
| ODone
(** calls of the owner *)
| OAddOutbound (o : Outbound)
| OAddInbound (name phase : string)
| OReady
| OClose (who : string).

Definition emit (c : peer_conf) (loop : loop_state) (r : SshPeer * list peer_event) : peer_conf :=
  mkConf (fst r) loop (c_trace c ++ snd r).

Definition emit_outcome (c : peer_conf) (r : outcome (SshPeer * list peer_event)) : outcome peer_conf :=
  match r with Panic => Panic | Return r => Return (emit c Running r) end.

(** One select of the goroutine; a tunnel channel waits for [Ready]. *)
Definition loop_step (o : peer_op) (c : peer_conf) : outcome peer_conf :=
  let p := c_peer c in
  match o with
  | OReq None => Return (emit c Stopped (peer_Close "sshReqs closed" p))
  | OReq (Some r) => Return (emit c Running (handle_request r p))
  | ODone => Return (emit c Stopped (peer_Close "Context canceled" p))
  | OChan None => Return (emit c Stopped (peer_Close "chans closed" p))
  | OChan (Some ch) =>
      if String.eqb (ch_Type ch) "tunnel" then
        if pr_ready p then emit_outcome c (open_tunnel ch p)
        else Return (mkConf p (Waiting ch) (c_trace c))
      else Return (emit c Running (p, [EUnknown (ch_Type ch)]))
  | _ => Return c
  end.

Definition AddOutbound (o : Outbound) (p : SshPeer) : SshPeer := set_outbounds <[ob_Name o := o]> p.

Definition inbound_skipped (ib_phase phase : string) : bool :=
  (String.eqb ib_phase KUBERNETES_PHASE && String.eqb phase ATTESTATION ||
   String.eqb ib_phase ATTESTATION_PHASE && String.eqb phase KUBERNETES)%bool.

Definition AddInbound (name ib_phase : string) (p : SshPeer) : SshPeer :=
  if inbound_skipped ib_phase (pr_phase p) then p else set_inbounds <[name := ib_phase]> p.

(** [Ready] closes a channel, which panics the second time; it releases a tunnel
    channel that waits for it. *)
Definition peer_Ready (c : peer_conf) : outcome peer_conf :=
  let p := c_peer c in
  if pr_ready p then Panic
  else
    let p := set_flags (pr_upgrade p) true (pr_done p) p in
    match c_loop c with
    | Waiting ch => emit_outcome (mkConf p (c_loop c) (c_trace c)) (open_tunnel ch p)
    | _ => Return (mkConf p (c_loop c) (c_trace c))
    end.

(** What arrives while the goroutine cannot take it stays in its Go channel. *)
Definition peer_step (o : peer_op) (c : peer_conf) : outcome peer_conf :=
  match o with
  | OAddOutbound b => Return (mkConf (AddOutbound b (c_peer c)) (c_loop c) (c_trace c))
  | OAddInbound name phase => Return (mkConf (AddInbound name phase (c_peer c)) (c_loop c) (c_trace c))
  | OReady => peer_Ready c
  | OClose who => Return (emit c (c_loop c) (peer_Close who (c_peer c)))
  | _ => match c_loop c with Running => loop_step o c | _ => Return c end
  end.

Fixpoint peer_run (os : list peer_op) (c : peer_conf) : outcome peer_conf :=
  match os with
  | [] => Return c
  | o :: rest => match peer_step o c with Panic => Panic | Return c' => peer_run rest c' end
  end.

Definition peer_start (p : SshPeer) : peer_conf := mkConf p Running [].

(** The answer to a request: acceptance, payload, error of the connection. *)
Record Answer := mkAnswer { an_ok : bool; an_payload : string; an_err : option GoError }.

Definition phase_verified (phase : string) (a : Answer) : bool :=
  (an_ok a && match an_err a with None => true | Some _ => false end && String.eqb (an_payload a) phase)%bool.

(** The goroutine is started before the phase is verified; without a peer it ends
    with the connection. *)
Definition NewSshPeer (phase sid : string) (a : Answer) : option SshPeer :=
  if phase_verified phase a then Some (new_peer phase sid) else None.

(** [Upgrade] closes the peer when the other end does not agree. *)
Definition peer_Upgrade (a : Answer) (p : SshPeer) : SshPeer * list peer_event :=
  if (an_ok a && match an_err a with None => true | Some _ => false end)%bool then (p, [])
  else peer_Close "Phase verification failed" p.

(** [AddTags]: outbounds first. *)
Definition AddTags {L} (inbounds : list (Inbound L)) (outbounds : list Outbound) : list peer_op :=
  map OAddOutbound outbounds ++ map (fun i => OAddInbound (ib_Name i) (ib_Phase i)) inbounds.

(** ** The proxy of the key broker *)

Definition HasSuffix (s suffix : string) : bool :=
  let n := (String.length s - String.length suffix)%nat in
  (Nat.leb (String.length suffix) (String.length s) && String.eqb (drop_bytes n s) suffix)%bool.

(** [strings.Replace(s, old, new, 1)] for a non-empty [old]. *)
Fixpoint Replace1 (s old new : string) : string :=
  if HasPrefix s old then new +:+ drop_bytes (String.length old) s
  else match s with EmptyString => EmptyString | String c t => String c (Replace1 t old new) end.

Definition urlModifier (sid path : string) : string :=
  if HasSuffix path PP_PRIVATE_KEY then Replace1 path PP_SID ("pp-" +:+ sid +:+ "/") else path.

(** What the proxy reads next, with the answer of the server to it. *)
Inductive proxy_read :=
| REof
| RError
| RRequest (path : string) (served : bool).

Inductive proxy_end :=
(** no more input so far *)
| PWaiting
| PClosed
(** the nil request after the end of the input panics; the panic is recovered and
    the channel stays open *)
| PRecovered.

(** The requests forwarded to the server, and how the loop ends. *)
Fixpoint proxy_loop (sid : string) (reads : list proxy_read) : list string * proxy_end :=
  match reads with
  | [] => ([], PWaiting)
  | REof :: _ => ([], PRecovered)
  | RError :: _ => ([], PClosed)
  | RRequest path served :: rest =>
      let path := urlModifier sid path in
      if served then let '(l, e) := proxy_loop sid rest in (path :: l, e) else ([path], PClosed)
  end.

(** The goroutine for the requests on the channel: each is refused if it wants a reply
    ([Some true]); a nil request closes the channel.  The number of refusals, and whether
    the channel was closed. *)
Fixpoint refuse_requests (reqs : list (option bool)) : nat * bool :=
  match reqs with
  | [] => (0%nat, false)
  | None :: _ => (0%nat, true)
  | Some want :: rest => let '(n, closed) := refuse_requests rest in ((if want then S n else n), closed)
  end.

(** An address that does not parse is logged: the channel is neither served nor closed. *)
Inductive proxy_start :=
| ProxyAbandoned
| ProxyServes (forwarded : list string) (ended : proxy_end) (refused : nat) (closed : bool).

Definition acceptProxy (url_parses : string -> bool) (outAddr sid : string) (reads : list proxy_read) (reqs : list (option bool))
    : proxy_start :=
  if url_parses ("http://" +:+ outAddr) then
    let '(forwarded, ended) := proxy_loop sid reads in
    let '(refused, closed) := refuse_requests reqs in
    ProxyServes forwarded ended refused closed
  else ProxyAbandoned.

(** Only requests for the peer pod's own private key are rewritten; all others, and all of
    them in their order, reach the server as they came. *)
Lemma proxy_forwards sid reads : 
  exists n, fst (proxy_loop sid reads) =
    map (urlModifier sid) (take n (omap (fun r => match r with RRequest path _ => Some path | _ => None end) reads)).
Proof.
  induction reads as [|x reads IH]; [by exists 0%nat|]. destruct x as [| |path served]; [by exists 0%nat..|]. cbn [proxy_loop].
  destruct served; [|by exists 1%nat]. destruct IH as [n IH]. destruct (proxy_loop sid reads) as [l e0]. cbn in IH. subst l.
  by exists (S n).
Qed.
