(* ===== verification/SshProxyProps.v ===== *)
(** * Theorems of the SSH tunnels

    - Tags: what is accepted is well formed, and printing and parsing agree.
    - Peers: in every run a tunnel reaches only an outbound that its owner added,
      after [Ready], in a phase for which it is meant; only the attestation phase is
      upgraded, on request of the other end.
    - The two ends: they agree on the phase, and then an inbound of one end takes
      connections exactly when the other end accepts its tunnels. *)

From Stdlib Require Import ZArith Ascii String Lia.
From stdpp Require Import base gmap strings list.
From S2P Require Import Prelude SshProxy.

Open Scope Z_scope.
Open Scope go_scope.

(** ** Tags *)

Definition well_formed_tag (t : Tag) : Prop :=
  0 <= t_port t <= 65535 /\ legal_phase (t_phase t) = true /\ t_name t <> "" /\
  contains_byte ":" (t_phase t) = false /\ contains_byte ":" (t_name t) = false /\
  contains_byte ":" (t_host t) = false.

Definition print_tag (t : Tag) : string :=
  t_phase t +:+ ":" +:+ t_name t +:+ ":" +:+
  (if String.eqb (t_host t) "" then "" else t_host t +:+ ":") +:+ FormatInt (t_port t).

Lemma parse_uint_nonneg acc s z : 0 <= acc -> parse_digits acc s = Some z -> 0 <= z.
Proof.
  revert acc. induction s as [|c s IH]; intros acc Ha; cbn [parse_digits]; [by intros [= <-]|].
  destruct (is_digit c) eqn:E; [|done]. apply IH. unfold is_digit in E. unfold digit_value.
  apply andb_prop in E as [E _]. apply Nat.leb_le in E. lia.
Qed.

Lemma ParseUint16_range s z : ParseUint16 s = Some z -> 0 <= z <= 65535.
Proof.
  unfold ParseUint16, parse_uint. intros E. destruct s as [|c s]; [done|].
  destruct (parse_digits 0 (String c s)) as [v|] eqn:Ep; [|done].
  apply parse_uint_nonneg in Ep; [|lia]. destruct (v <=? 65535) eqn:El; [|done].
  simplify_eq. bool_to_prop. lia.
Qed.

(** [ParseTag] accepts only well-formed tags, with a port of 16 bits,
    and reads every well-formed tag back from its printed form. *)
Theorem ParseTag_roundtrip :
  (forall s t, ParseTag s = Ok t -> well_formed_tag t) /\
  (forall t, well_formed_tag t -> ParseTag (print_tag t) = Ok t).
Proof.
  split.
  - intros s t. unfold ParseTag, tag_fields. pose proof (split_on_elems ":" s) as Hs.
    destruct (split_on ":" s) as [|phase [|name [|x [|port [|? ?]]]]]; try done.
    + rewrite !Forall_cons in Hs. destruct Hs as (? & ? & ? & _). unfold tag_error.
      destruct (ParseUint16 x) as [z|] eqn:Ez; destruct (legal_phase phase) eqn:El;
        destruct (String.eqb_spec name ""); try done.
      intros [= <-]. apply ParseUint16_range in Ez. by repeat split; cbn; try lia.
    + rewrite !Forall_cons in Hs. destruct Hs as (? & ? & ? & ? & _). unfold tag_error.
      destruct (ParseUint16 port) as [z|] eqn:Ez; destruct (legal_phase phase) eqn:El;
        destruct (String.eqb_spec name ""); try done.
      intros [= <-]. apply ParseUint16_range in Ez. by repeat split; cbn; try lia.
  - intros [port host name phase] (Hp & Hl & Hn & H1 & H2 & H3).
    cbn [t_port t_host t_name t_phase] in *.
    assert (Hf : parse_uint (FormatInt port) = Some port) by (apply parse_uint_FormatInt; lia).
    assert (Hu : ParseUint16 (FormatInt port) = Some port).
    { unfold ParseUint16. rewrite Hf. by rewrite (proj2 (Z.leb_le _ _)) by lia. }
    assert (Hc : contains_byte ":" (FormatInt port) = false).
    { eapply digits_no_byte; [done|]. by apply parse_uint_digits. }
    assert (Ht : tag_error (Some port) phase name = None).
    { unfold tag_error. rewrite Hl. by rewrite (proj2 (String.eqb_neq _ _) Hn). }
    unfold ParseTag, tag_fields, print_tag. cbn [t_port t_host t_name t_phase].
    rewrite !string_app_one, !split_on_app by done.
    destruct (String.eqb_spec host "") as [->|Hh].
    + rewrite string_app_nil, split_on_none by done. by rewrite Hu, Ht.
    + rewrite string_app_assoc, string_app_one, split_on_app, split_on_none by done. by rewrite Hu, Ht.
Qed.

(** ** Peers *)

Definition is_close (e : peer_event) : bool := match e with EClose _ => true | _ => false end.

(** What the trace may contain, given the operations so far. *)
Record peer_inv (phase : string) (os : list peer_op) (c : peer_conf) : Prop := {
  inv_phase : pr_phase (c_peer c) = phase;
  inv_added : forall n o, pr_outbounds (c_peer c) !! n = Some o -> OAddOutbound o ∈ os;
  inv_ready : pr_ready (c_peer c) = true -> OReady ∈ os;
  inv_tunnel : forall o b, ETunnel o b ∈ c_trace c ->
    OAddOutbound o ∈ os /\ OReady ∈ os /\ tunnel_refused phase o = false /\ b = String.eqb (ob_Name o) KBS;
  inv_upgrade : pr_upgrade (c_peer c) = true ->
    phase = ATTESTATION /\ exists payload, OReq (Some (mkRequest UPGRADE true payload)) ∈ os;
  inv_close : length (List.filter is_close (c_trace c)) = if pr_done (c_peer c) then 1%nat else 0%nat
}.

Lemma peer_inv_mono phase os o c : peer_inv phase os c -> peer_inv phase (os ++ [o]) c.
Proof.
  intros [H1 H2 H3 H4 H5 H6].
  assert (Hin : forall x, x ∈ os -> x ∈ os ++ [o]) by set_solver.
  split; [done| | | | |done].
  - intros n b E. apply Hin. eauto.
  - intros E. apply Hin. auto.
  - intros b x E. destruct (H4 _ _ E) as (? & ? & ? & ?). split_and!; auto.
  - intros E. destruct (H5 E) as (? & x & ?). eauto.
Qed.

Lemma filter_app_len {A} (f : A -> bool) l1 l2 :
  length (List.filter f (l1 ++ l2)) = (length (List.filter f l1) + length (List.filter f l2))%nat.
Proof. by rewrite List.filter_app, List.length_app. Qed.

(** What one reaction of the peer may do. *)
Record reaction_ok (phase : string) (os : list peer_op) (p : SshPeer) (r : SshPeer * list peer_event) : Prop := {
  ok_fields : pr_phase r.1 = pr_phase p /\ pr_outbounds r.1 = pr_outbounds p /\ pr_ready r.1 = pr_ready p;
  ok_upgrade : pr_upgrade r.1 = true -> pr_upgrade p = true \/
    phase = ATTESTATION /\ exists payload, OReq (Some (mkRequest UPGRADE true payload)) ∈ os;
  ok_tunnel : forall o b, ETunnel o b ∈ r.2 ->
    OAddOutbound o ∈ os /\ OReady ∈ os /\ tunnel_refused phase o = false /\ b = String.eqb (ob_Name o) KBS;
  ok_close : ((if pr_done p then 1 else 0) + length (List.filter is_close r.2) = if pr_done r.1 then 1 else 0)%nat
}.

Lemma emit_inv phase os c loop r :
  peer_inv phase os c -> reaction_ok phase os (c_peer c) r -> peer_inv phase os (emit c loop r).
Proof.
  intros [H1 H2 H3 H4 H5 H6] [(E1 & E2 & E3) Hu Ht Hc]. destruct r as [p' evs]. cbn [fst snd emit] in *.
  split; cbn [emit c_peer c_trace fst snd].
  - congruence.
  - intros n o. rewrite E2. apply H2.
  - rewrite E3. apply H3.
  - intros o b [Hin|Hin]%elem_of_app; eauto.
  - intros E. destruct (Hu E); auto.
  - rewrite filter_app_len, H6. exact Hc.
Qed.

Lemma quiet_ok phase os p evs :
  Forall (fun e => match e with ETunnel _ _ | EClose _ => False | _ => True end) evs ->
  reaction_ok phase os p (p, evs).
Proof.
  intros Hq. rewrite Forall_forall in Hq. split; cbn; [done|by left| |].
  - intros o b Hin. by apply Hq in Hin.
  - assert (Hf : List.filter is_close evs = []) by
      (destruct (List.filter is_close evs) as [|x l] eqn:E; [done|];
       assert (Hx : In x (x :: l)) by (by left); rewrite <- E in Hx; apply List.filter_In in Hx as [Hx Hy];
       apply list_elem_of_In, Hq in Hx; by destruct x).
    rewrite Hf. cbn. lia.
Qed.

Lemma close_ok phase os p who : reaction_ok phase os p (peer_Close who p).
Proof.
  unfold peer_Close. destruct (pr_done p) eqn:E.
  - apply quiet_ok. constructor.
  - split; cbn; [done|by left| |by rewrite E]. intros o b Hin. apply list_elem_of_singleton in Hin. done.
Qed.

Lemma request_ok phase os p r :
  pr_phase p = phase -> OReq (Some r) ∈ os -> reaction_ok phase os p (handle_request r p).
Proof.
  intros Hp Hr. unfold handle_request. destruct (rq_WantReply r) eqn:Ew; [|apply quiet_ok; constructor].
  destruct (String.eqb (rq_Type r) PHASE); [apply quiet_ok; by repeat constructor|].
  destruct (String.eqb_spec (pr_phase p) ATTESTATION) as [Ea|]; [|apply quiet_ok; by repeat constructor].
  destruct (String.eqb_spec (rq_Type r) UPGRADE) as [Eu|]; cbn [andb]; [|apply quiet_ok; by repeat constructor].
  split; cbn; [done| | |by destruct (pr_done p)].
  - intros _. right. split; [congruence|]. exists (rq_Payload r). destruct r. cbn in *. by subst.
  - intros o b Hin. apply list_elem_of_singleton in Hin. done.
Qed.

Lemma tunnel_ok phase os p ch r :
  pr_phase p = phase -> (forall n o, pr_outbounds p !! n = Some o -> OAddOutbound o ∈ os) -> OReady ∈ os ->
  open_tunnel ch p = Return r -> reaction_ok phase os p r.
Proof.
  intros Hp Ha Hr. unfold open_tunnel. destruct (pr_outbounds p !! ch_ExtraData ch) as [o|] eqn:Eo.
  2:{ intros [= <-]. apply quiet_ok. by repeat constructor. }
  destruct (tunnel_refused (pr_phase p) o) eqn:Et; [intros [= <-]; apply quiet_ok; by repeat constructor|].
  destruct (ch_Accept ch) as [e|].
  - destruct (String.eqb (ob_Name o) KBS); [|done]. intros [= <-]. apply close_ok.
  - intros [= <-]. split; cbn; [done|by left| |lia]. intros o' b Hin.
    apply list_elem_of_singleton in Hin. simplify_eq. split_and!; eauto.
Qed.

Lemma emit_outcome_inv phase os c ch c' :
  peer_inv phase os c -> OReady ∈ os -> emit_outcome c (open_tunnel ch (c_peer c)) = Return c' ->
  peer_inv phase os c'.
Proof.
  intros Hc Hr. unfold emit_outcome. destruct (open_tunnel ch (c_peer c)) as [r|] eqn:E; [|done].
  intros [= <-]. apply emit_inv; [done|]. destruct Hc. by eapply tunnel_ok.
Qed.

Lemma loop_step_inv phase os o c c' :
  peer_inv phase os c -> o ∈ os -> loop_step o c = Return c' -> peer_inv phase os c'.
Proof.
  intros Hc Ho. assert (Hp := inv_phase _ _ _ Hc).
  destruct o as [[r|]|[ch|]| | | | | ]; cbn [loop_step]; try (intros [= <-]).
  - apply emit_inv; [done|]. by apply request_ok.
  - apply emit_inv; [done|apply close_ok].
  - destruct (String.eqb (ch_Type ch) "tunnel").
    + destruct (pr_ready (c_peer c)) eqn:Er; [apply emit_outcome_inv; [done|by eapply inv_ready]|].
      intros [= <-]. by destruct Hc.
    + intros [= <-]. apply emit_inv; [done|]. apply quiet_ok. by repeat constructor.
  - apply emit_inv; [done|apply close_ok].
  - apply emit_inv; [done|apply close_ok].
  - done.
  - done.
  - done.
  - done.
Qed.

Lemma peer_step_inv phase os o c c' :
  peer_inv phase os c -> peer_step o c = Return c' -> peer_inv phase (os ++ [o]) c'.
Proof.
  intros Hc%(peer_inv_mono _ _ o) E. assert (Ho : o ∈ os ++ [o]) by set_solver.
  revert Hc Ho E. generalize (os ++ [o]). clear os. intros os Hc Ho.
  destruct o as [r|ch| |b|name ph| |who]; cbn [peer_step];
    try (destruct (c_loop c); [by apply loop_step_inv|by intros [= <-]|by intros [= <-]]).
  - intros [= <-]. destruct Hc. split; cbn; try done.
    intros n o Hl. apply lookup_insert_Some in Hl as [[_ <-]|[_ Hl]]; eauto.
  - intros [= <-]. unfold AddInbound. destruct (inbound_skipped _ _); [by destruct Hc|].
    destruct Hc. by split.
  - unfold peer_Ready. destruct (pr_ready (c_peer c)) eqn:Er; [done|].
    assert (Hc' : peer_inv phase os (mkConf (set_flags (pr_upgrade (c_peer c)) true (pr_done (c_peer c)) (c_peer c))
                                      (c_loop c) (c_trace c))) by (destruct Hc; by split).
    destruct (c_loop c) as [|ch|]; [by intros [= <-]| |by intros [= <-]].
    by apply (emit_outcome_inv _ _ (mkConf _ _ _) ch).
  - intros [= <-]. apply emit_inv; [done|apply close_ok].
Qed.

Lemma peer_run_inv phase os1 os2 c c' :
  peer_inv phase os1 c -> peer_run os2 c = Return c' -> peer_inv phase (os1 ++ os2) c'.
Proof.
  revert os1 c. induction os2 as [|o os IH]; intros os1 c Hc; cbn [peer_run].
  { intros [= <-]. by rewrite app_nil_r. }
  destruct (peer_step o c) as [c1|] eqn:E; [|done]. intros Hr.
  replace (os1 ++ o :: os) with ((os1 ++ [o]) ++ os) by by rewrite <- app_assoc.
  apply (IH _ c1); [by eapply peer_step_inv|done].
Qed.

Lemma new_peer_inv phase sid : peer_inv phase [] (peer_start (new_peer phase sid)).
Proof. split; cbn; try done. intros o b Hin. by apply elem_of_nil in Hin. Qed.

(** C26: In every run of a peer (any order of messages of the other end and of calls of
    its owner), each tunnel leads to an outbound that the owner added, is opened
    only after [Ready], never to an outbound of the other phase, and through the
    proxy exactly for the key broker; the peer counts as upgraded only in the
    attestation phase and after the other end asked; and it is closed at most
    once. *)
Theorem tunnels_confined phase sid os c :
  peer_run os (peer_start (new_peer phase sid)) = Return c ->
  (forall o b, ETunnel o b ∈ c_trace c ->
     OAddOutbound o ∈ os /\ OReady ∈ os /\ b = String.eqb (ob_Name o) KBS /\
     (ob_Phase o = ATTESTATION_PHASE -> phase = ATTESTATION) /\
     (ob_Phase o = KUBERNETES_PHASE -> phase = KUBERNETES)) /\
  (pr_upgrade (c_peer c) = true ->
     phase = ATTESTATION /\ exists payload, OReq (Some (mkRequest UPGRADE true payload)) ∈ os) /\
  (length (List.filter is_close (c_trace c)) <= 1)%nat.
Proof.
  intros [_ _ _ Ht Hu Hc]%(peer_run_inv phase [] os _ _ (new_peer_inv phase sid)).
  split_and!; [|done|rewrite Hc; by destruct (pr_done (c_peer c)); lia].
  intros o b (? & ? & Hr & ?)%Ht. unfold tunnel_refused in Hr. split_and!; [done..| |].
  - intros E. rewrite E in Hr. cbn in Hr. by destruct (String.eqb_spec phase ATTESTATION).
  - intros E. rewrite E in Hr. cbn in Hr. by destruct (String.eqb_spec phase KUBERNETES).
Qed.

(** ** The two ends *)

Lemma peer_run_app os1 os2 c :
  peer_run (os1 ++ os2) c = match peer_run os1 c with Panic => Panic | Return c' => peer_run os2 c' end.
Proof.
  revert c. induction os1 as [|o os IH]; intros c; [done|]. cbn [app peer_run].
  destruct (peer_step o c); [apply IH|done].
Qed.

(** What the other end answers to a request. *)
Definition answer_of (r : Request) (p : SshPeer) : Answer :=
  match snd (handle_request r p) with
  | [EReply _ ok payload] => mkAnswer ok payload None
  | _ => mkAnswer false "" None
  end.

Definition add_outbounds (l : list Outbound) (p : SshPeer) : SshPeer := foldl (fun p o => AddOutbound o p) p l.
Definition add_inbounds {L} (l : list (Inbound L)) (p : SshPeer) : SshPeer :=
  foldl (fun p i => AddInbound (ib_Name i) (ib_Phase i) p) p l.

Lemma run_AddTags {L} (ins : list (Inbound L)) outs c :
  peer_run (AddTags ins outs) c =
  Return (mkConf (add_inbounds ins (add_outbounds outs (c_peer c))) (c_loop c) (c_trace c)).
Proof.
  unfold AddTags. rewrite peer_run_app.
  assert (Ho : peer_run (map OAddOutbound outs) c =
               Return (mkConf (add_outbounds outs (c_peer c)) (c_loop c) (c_trace c))).
  { revert c. induction outs as [|o l IH]; intros [p ? ?]; [done|]. cbn. by rewrite IH. }
  rewrite Ho. generalize (add_outbounds outs (c_peer c)). intros p. revert p.
  induction ins as [|i l IH]; intros p; [done|]. cbn. by rewrite IH.
Qed.

Lemma add_inbounds_fields {L} (ins : list (Inbound L)) p :
  pr_phase (add_inbounds ins p) = pr_phase p /\ pr_outbounds (add_inbounds ins p) = pr_outbounds p /\
  pr_ready (add_inbounds ins p) = pr_ready p.
Proof.
  revert p. induction ins as [|i l IH]; intros p; [done|]. cbn [add_inbounds foldl].
  destruct (IH (AddInbound (ib_Name i) (ib_Phase i) p)) as (E1 & E2 & E3). unfold add_inbounds in *.
  rewrite E1, E2, E3. unfold AddInbound. by destruct (inbound_skipped _ _).
Qed.

Lemma add_outbounds_fields outs p :
  pr_phase (add_outbounds outs p) = pr_phase p /\ pr_inbounds (add_outbounds outs p) = pr_inbounds p /\
  pr_ready (add_outbounds outs p) = pr_ready p.
Proof. revert p. induction outs as [|o l IH]; intros p; [done|]. cbn. destruct (IH (AddOutbound o p)). done. Qed.

Lemma add_outbounds_other outs p n :
  n ∉ map ob_Name outs -> pr_outbounds (add_outbounds outs p) !! n = pr_outbounds p !! n.
Proof.
  revert p. induction outs as [|o l IH]; intros p Hn; [done|]. cbn [map] in Hn. cbn.
  change (pr_outbounds (add_outbounds l (AddOutbound o p)) !! n = pr_outbounds p !! n).
  rewrite IH by set_solver. cbn. rewrite lookup_insert_ne; [done|set_solver].
Qed.

Lemma add_outbounds_lookup outs p o :
  NoDup (map ob_Name outs) -> o ∈ outs -> pr_outbounds (add_outbounds outs p) !! ob_Name o = Some o.
Proof.
  intros Hnd (l1 & l2 & ->)%list_elem_of_split. unfold add_outbounds. rewrite foldl_app. cbn [foldl].
  rewrite map_app in Hnd. apply NoDup_app in Hnd as (_ & _ & Hnd). apply NoDup_cons in Hnd as [Hn _].
  change (pr_outbounds (add_outbounds l2 (AddOutbound o (add_outbounds l1 p))) !! ob_Name o = Some o).
  rewrite add_outbounds_other by done. cbn. apply lookup_insert_eq.
Qed.

Lemma add_inbounds_other {L} (ins : list (Inbound L)) p n :
  n ∉ map ib_Name ins -> pr_inbounds (add_inbounds ins p) !! n = pr_inbounds p !! n.
Proof.
  revert p. induction ins as [|i l IH]; intros p Hn; [done|]. cbn [map] in Hn. cbn.
  change (pr_inbounds (add_inbounds l (AddInbound (ib_Name i) (ib_Phase i) p)) !! n = pr_inbounds p !! n).
  rewrite IH by set_solver. unfold AddInbound. destruct (inbound_skipped _ _); [done|]. cbn.
  rewrite lookup_insert_ne; [done|set_solver].
Qed.

Lemma add_inbounds_lookup {L} (ins : list (Inbound L)) p i :
  NoDup (map ib_Name ins) -> pr_inbounds p = ∅ -> i ∈ ins ->
  pr_inbounds (add_inbounds ins p) !! ib_Name i =
  if inbound_skipped (ib_Phase i) (pr_phase p) then None else Some (ib_Phase i).
Proof.
  intros Hnd Hp (l1 & l2 & ->)%list_elem_of_split. unfold add_inbounds. rewrite foldl_app. cbn [foldl].
  rewrite map_app in Hnd. apply NoDup_app in Hnd as (_ & Hd & Hnd). cbn [map] in Hd.
  apply NoDup_cons in Hnd as [Hn _].
  change (pr_inbounds (add_inbounds l2 (AddInbound (ib_Name i) (ib_Phase i) (add_inbounds l1 p))) !! ib_Name i =
          if inbound_skipped (ib_Phase i) (pr_phase p) then None else Some (ib_Phase i)).
  rewrite add_inbounds_other by done. unfold AddInbound.
  destruct (add_inbounds_fields l1 p) as (-> & _ & _). destruct (inbound_skipped _ _).
  - rewrite add_inbounds_other by set_solver. by rewrite Hp.
  - cbn. apply lookup_insert_eq.
Qed.

(** In the two phases, an inbound is skipped exactly when an outbound of its phase
    is refused. *)
Lemma phases_agree phase tag_phase o :
  phase = ATTESTATION \/ phase = KUBERNETES -> ob_Phase o = tag_phase ->
  inbound_skipped tag_phase phase = tunnel_refused phase o.
Proof.
  intros Hp <-. unfold inbound_skipped, tunnel_refused.
  destruct (String.eqb_spec (ob_Phase o) KUBERNETES_PHASE) as [->|], Hp as [->| ->]; try done;
    by destruct (String.eqb (ob_Phase o) ATTESTATION_PHASE).
Qed.

Lemma tunnel_connects {L} phase phase' sid sid' p (ins : list (Inbound L)) (ins' : list (Inbound L))
    outs outs' i o :
  phase = ATTESTATION \/ phase = KUBERNETES ->
  NewSshPeer phase sid (answer_of (mkRequest PHASE true phase) (new_peer phase' sid')) = Some p ->
  NoDup (map ib_Name ins) -> NoDup (map ob_Name outs') ->
  i ∈ ins -> o ∈ outs' -> ob_Name o = ib_Name i -> ob_Phase o = ib_Phase i ->
  phase' = phase /\
  exists c c', peer_run (AddTags ins outs ++ [OReady]) (peer_start p) = Return c /\
    peer_run (AddTags ins' outs' ++ [OReady; OChan (Some (mkNewChannel "tunnel" (ib_Name i) None))])
      (peer_start (new_peer phase' sid')) = Return c' /\
    c_trace c' = [match pr_inbounds (c_peer c) !! ib_Name i with
                  | Some _ => ETunnel o (String.eqb (ob_Name o) KBS)
                  | None => EReject (ib_Name i)
                  end].
Proof.
  intros Hph Hnew Hin Hout Hi Ho Hname Htag.
  assert (phase' = phase /\ p = new_peer phase sid) as [-> ->].
  { revert Hnew. unfold NewSshPeer, phase_verified, answer_of. cbn.
    destruct (String.eqb_spec phase' phase); [|done]. by intros [= <-]. }
  split; [done|]. rewrite !peer_run_app, !run_AddTags. cbn [c_peer c_loop c_trace peer_start].
  set (q := add_inbounds ins (add_outbounds outs (new_peer phase sid))).
  set (q' := add_inbounds ins' (add_outbounds outs' (new_peer phase sid'))).
  assert (Hq : pr_ready q = false /\ pr_inbounds q !! ib_Name i =
                 if inbound_skipped (ib_Phase i) phase then None else Some (ib_Phase i)).
  { subst q. destruct (add_outbounds_fields outs (new_peer phase sid)) as (E1 & E2 & E3).
    destruct (add_inbounds_fields ins (add_outbounds outs (new_peer phase sid))) as (_ & _ & ->).
    rewrite add_inbounds_lookup by done. by rewrite E1, E3. }
  assert (Hq' : pr_ready q' = false /\ pr_phase q' = phase /\ pr_outbounds q' !! ob_Name o = Some o).
  { subst q'. destruct (add_outbounds_fields outs' (new_peer phase sid')) as (E1 & E2 & E3).
    destruct (add_inbounds_fields ins' (add_outbounds outs' (new_peer phase sid'))) as (-> & -> & ->).
    rewrite add_outbounds_lookup by done. by rewrite E1, E3. }
  clearbody q q'. destruct Hq as [Hr Hl], Hq' as (Hr' & Hp' & Hl'). cbn [peer_run peer_step peer_Ready c_peer c_loop].
  unfold peer_Ready. cbn [c_peer c_loop c_trace]. rewrite Hr, Hr'.
  rewrite (phases_agree phase _ o) in Hl by done. rewrite <- Hname in Hl |- *.
  assert (Ht : open_tunnel (mkNewChannel "tunnel" (ob_Name o) None) (set_flags (pr_upgrade q') true (pr_done q') q') =
               Return (set_flags (pr_upgrade q') true (pr_done q') q',
                       [if tunnel_refused phase o then EReject (ob_Name o)
                        else ETunnel o (String.eqb (ob_Name o) KBS)])).
  { unfold open_tunnel. cbn [set_flags pr_outbounds pr_phase ch_ExtraData ch_Accept]. rewrite Hl', Hp'.
    by destruct (tunnel_refused phase o). }
  eexists _, _. split; [reflexivity|]. cbn [c_loop loop_step c_peer ch_Type].
  change (String.eqb "tunnel" "tunnel") with true. cbn [pr_ready set_flags]. cbn iota.
  change (mkPeer (pr_sid q') (pr_phase q') (pr_outbounds q') (pr_inbounds q') (pr_upgrade q') true (pr_done q'))
    with (set_flags (pr_upgrade q') true (pr_done q') q').
  rewrite Ht. split; [reflexivity|]. cbn. rewrite Hl. by destruct (tunnel_refused phase o).
Qed.

(** C27: The two ends of a connection.  Verification succeeds exactly when both are in the
    same phase.  Then, when a connection for an inbound of one end is offered to
    the other end as a tunnel, which has an outbound of that name and phase, it is
    connected to that outbound if and only if the first end took connections for
    the inbound at all. *)
Theorem tunnel_end_to_end {L} phase phase' sid sid' p (ins : list (Inbound L)) (ins' : list (Inbound L))
    outs outs' i o :
  phase = ATTESTATION \/ phase = KUBERNETES ->
  NewSshPeer phase sid (answer_of (mkRequest PHASE true phase) (new_peer phase' sid')) = Some p ->
  NoDup (map ib_Name ins) -> NoDup (map ob_Name outs') ->
  i ∈ ins -> o ∈ outs' -> ob_Name o = ib_Name i -> ob_Phase o = ib_Phase i ->
  phase' = phase /\
  exists c c', peer_run (AddTags ins outs ++ [OReady]) (peer_start p) = Return c /\
    peer_run (AddTags ins' outs' ++ [OReady; OChan (Some (mkNewChannel "tunnel" (ib_Name i) None))])
      (peer_start (new_peer phase' sid')) = Return c' /\
    c_trace c' = [match pr_inbounds (c_peer c) !! ib_Name i with
                  | Some _ => ETunnel o (String.eqb (ob_Name o) KBS)
                  | None => EReject (ib_Name i)
                  end].
Proof. apply tunnel_connects. Qed.

(** A channel that cannot be accepted takes the whole process down: the peer goes on
    with the nil channel.  Only for the key broker, whose proxy recovers, the peer
    is closed as meant. *)
Theorem accept_failure_crashes phase sid o e :
  tunnel_refused phase o = false ->
  match peer_run [OAddOutbound o; OReady; OChan (Some (mkNewChannel "tunnel" (ob_Name o) (Some e)))]
          (peer_start (new_peer phase sid)) with
  | Panic => ob_Name o <> KBS
  | Return c => ob_Name o = KBS /\ c_trace c = [EClose "Accept failed"]
  end.
Proof.
  intros Ht. set (p := set_flags false true false (AddOutbound o (new_peer phase sid))).
  change (peer_run _ _) with
    (match emit_outcome (mkConf p Running []) (open_tunnel (mkNewChannel "tunnel" (ob_Name o) (Some e)) p) with
     | Panic => Panic | Return c' => Return c' end).
  unfold open_tunnel. cbn [ch_ExtraData ch_Accept].
  assert (Hl : pr_outbounds p !! ob_Name o = Some o) by (cbn; apply lookup_insert_eq).
  assert (Hp : pr_phase p = phase) by done. rewrite Hl, Hp, Ht.
  by destruct (String.eqb_spec (ob_Name o) KBS).
Qed.

(** ** Witnesses *)

Definition tag_ins : list (Inbound unit) :=
  [mkInbound "KBS" tt ATTESTATION_PHASE; mkInbound "DNS" tt BOTH_PHASES].
Definition tag_outs : list Outbound :=
  [mkOutbound "KBS" "10.0.0.5:8080" ATTESTATION_PHASE; mkOutbound "DNS" "127.0.0.1:53" BOTH_PHASES].

Definition kbs_ops : list peer_op :=
  [OAddOutbound (mkOutbound "KBS" "10.0.0.5:8080" ATTESTATION_PHASE);
   OChan (Some (mkNewChannel "tunnel" "KBS" None)); OReq (Some (mkRequest UPGRADE true "")); OReady;
   OReq (Some (mkRequest UPGRADE true ""))].

Lemma tunnels_confined_witness :
  match peer_run kbs_ops (peer_start (new_peer ATTESTATION "s")) with
  | Panic => False
  | Return c =>
      c_trace c = [ETunnel (mkOutbound "KBS" "10.0.0.5:8080" ATTESTATION_PHASE) true; EReply UPGRADE true ATTESTATION] /\
      (length (List.filter is_close (c_trace c)) <= 1)%nat
  end.
Proof.
  assert (Ht : match peer_run kbs_ops (peer_start (new_peer ATTESTATION "s")) with
               | Panic => False
               | Return c => c_trace c = [ETunnel (mkOutbound "KBS" "10.0.0.5:8080" ATTESTATION_PHASE) true;
                                          EReply UPGRADE true ATTESTATION]
               end) by reflexivity.
  destruct (peer_run kbs_ops (peer_start (new_peer ATTESTATION "s"))) as [c|] eqn:E; [|exact Ht].
  split; [exact Ht|]. exact (proj2 (proj2 (tunnels_confined ATTESTATION "s" kbs_ops c E))).
Defined.

Lemma tunnel_end_to_end_witness :
  exists c c', peer_run (AddTags tag_ins [] ++ [OReady]) (peer_start (new_peer KUBERNETES "s")) = Return c /\
    peer_run (AddTags (L := unit) [] tag_outs ++ [OReady; OChan (Some (mkNewChannel "tunnel" "KBS" None))])
      (peer_start (new_peer KUBERNETES "")) = Return c' /\ c_trace c' = [EReject "KBS"].
Proof.
  destruct (tunnel_end_to_end KUBERNETES KUBERNETES "s" "" (new_peer KUBERNETES "s") tag_ins [] [] tag_outs
              (mkInbound "KBS" tt ATTESTATION_PHASE) (mkOutbound "KBS" "10.0.0.5:8080" ATTESTATION_PHASE))
    as (_ & c & c' & E1 & E2 & E3); try reflexivity; try (apply (bool_decide_unpack _); vm_compute; exact I);
    [by left|by left|].
  exists c, c'. split; [exact E1|]. split; [exact E2|]. rewrite E3. injection E1 as <-. reflexivity.
Defined.
