(* ===== verification/SecureComms.v ===== *)
(** * Secure communication between worker node and pod VM

    Models src/cloud-api-adaptor/pkg/securecomms: kubemgr (SSH keys in Kubernetes
    secrets), wnssh (the client on the worker node, with the client of the key
    broker), ppssh (the server in the pod VM, with its secrets), apic (the client of
    the confidential data hub) and sshutil, on top of the peers of SshProxy.  The
    libraries for RSA and SSH are [SshKeys], the operations on the outside are
    [SecureEnv]; the order in which a peer's goroutine and its owner run is the
    operation [schedule]. *)

From Stdlib Require Import ZArith Ascii String Lia.
From stdpp Require Import base gmap strings list.
From S2P Require Import Prelude NetAddr SshProxy.

Open Scope Z_scope.
Open Scope go_scope.

Definition SSHPORT : string := "2222".
Definition KBS_CLIENT_SECRET : string := "kbs-client".
Definition ADAPTOR_SSH_SECRET : string := "sshclient".
Definition cocoNamespace : string := "confidential-containers-system".

(** ** The libraries *)

(** crypto/rsa, crypto/x509, encoding/pem and golang.org/x/crypto/ssh *)
Class SshKeys := {
  PrivateKey : Type;
  PublicKey : Type;
  Signer : Type;
  MarshalPKCS1PrivateKey : PrivateKey -> string;
  pem_EncodeToMemory : string -> string -> string;
  Key_Validate : PrivateKey -> option GoError;
  NewPublicKey : PrivateKey -> result PublicKey;
  MarshalAuthorizedKey : PublicKey -> string;
  ParseAuthorizedKey : string -> result PublicKey;
  Key_Marshal : PublicKey -> string;
  ParsePrivateKey : string -> result Signer;
  Signer_PublicKey : Signer -> PublicKey
}.

(** ssh.ServerConfig: whether clients need no key, the key (in wire format) that the
    callback accepts, and the host keys. *)
Record ServerConfig `{SshKeys} := mkServerConfig {
  NoClientAuth : bool;
  PublicKeyCallback : option string;
  HostKeys : list Signer
}.
Arguments mkServerConfig {_} NoClientAuth PublicKeyCallback HostKeys.

Class SecureEnv (W : Type) `{SshKeys} := {
  GenerateKey : Z -> M W (result PrivateKey);
  (** secrets of a namespace: name and data *)
  Secrets_Get : string -> string -> M W (result (gmap string string));
  Secrets_Create : string -> string -> gmap string string -> M W (option GoError);
  Secrets_Delete : string -> string -> M W (option GoError);
  (** the key broker: the key of the client, and a signed POST whose answer is the
      status code and the body *)
  EdKey : Type;
  ParseEdPrivateKeyFromPEM : string -> result EdKey;
  SignToken : option EdKey -> M W (result string);
  http_NewRequest : string -> option GoError;
  http_Post : string -> string -> string -> M W (result (Z * result string));
  http_Get : string -> M W (result (Z * result string));
  (** connections *)
  NConn : Type;
  SshConn : Type;
  DialTimeout : string -> M W (result NConn);
  NConn_Close : NConn -> M W unit;
  NewClientConn : NConn -> string -> (PublicKey -> option GoError) -> Signer -> M W (result SshConn);
  conn_HostKey : SshConn -> PublicKey;
  Accept : M W (result NConn);
  NewServerConn : NConn -> ServerConfig -> M W (result SshConn);
  (** the key a client logged in with, if any *)
  conn_ClientKey : SshConn -> option PublicKey;
  SendRequest : SshConn -> string -> string -> M W Answer;
  (** an interleaving of the owner's calls with what arrives on the connection, up
      to the end of the peer *)
  schedule : SshConn -> list peer_op -> M W (list peer_op);
  (** whether the context of a retry is still alive *)
  retry_alive : M W bool;
  os_ReadFile : string -> M W (result string);
  os_Stat : string -> M W (option GoError);
  os_Create : string -> M W (option GoError)
}.

Section Secure.

Context {W : Type} `{SshKeys} `{!SecureEnv W} `{!ListenEnv W}.

(** ** sshutil *)

Definition RsaPrivateKeyPEM (k : PrivateKey) : string :=
  pem_EncodeToMemory "RSA PRIVATE KEY" (MarshalPKCS1PrivateKey k).

(** ** kubemgr *)

(** A key that is missing reads as no bytes. *)
Definition ReadSecret (secretName : string) : M W (result (string * string)) :=
  let* r := Secrets_Get cocoNamespace secretName in
  mret match r with
       | Err e => Err e
       | Ok data => Ok (default EmptyString (data !! "privateKey"%string), default EmptyString (data !! "publicKey"%string))
       end.

Definition DeleteSecret (secretName : string) : M W unit :=
  let* _e := Secrets_Delete cocoNamespace secretName in mret tt.

Definition CreateSecret (secretName : string) : M W (result (string * string)) :=
  let* g := GenerateKey 4096 in
  match g with
  | Err e => mret (Err (Errorf "CreateSecret rsa.GenerateKey err: %w" [e]))
  | Ok clientPrivateKey =>
      match Key_Validate clientPrivateKey with
      | Some e => mret (Err (Errorf "CreateSecret clientPrivateKey.Validate err: %w" [e]))
      | None =>
          match NewPublicKey clientPrivateKey with
          | Err e => mret (Err (Errorf "CreateSecret ssh.NewPublicKey err: %w" [e]))
          | Ok clientPublicKey =>
              let publicKey := MarshalAuthorizedKey clientPublicKey in
              let privateKey := RsaPrivateKeyPEM clientPrivateKey in
              let* e := Secrets_Create cocoNamespace secretName
                          {["privateKey"%string := privateKey; "publicKey"%string := publicKey]} in
              mret match e with
                   | Some err => Err (Errorf "CreateSecret secrets.Create err: %w" [err])
                   | None => Ok (privateKey, publicKey)
                   end
          end
      end
  end.

(** ** The client of the key broker *)

Record KbsClient := mkKbsClient { kc_secretKey : option EdKey; kc_url : string }.

Definition InitKbsClient (address : string) : KbsClient := mkKbsClient None ("http://" +:+ address).

Definition SetPemSecret (keyBytes : string) (kc : KbsClient) : result KbsClient :=
  match ParseEdPrivateKeyFromPEM keyBytes with
  | Err e => Err (Errorf "SetPemSecret unable to parse as private key: %w" [e])
  | Ok key => Ok (mkKbsClient (Some key) (kc_url kc))
  end.

Definition resource_url (kc : KbsClient) (path : string) : string :=
  kc_url kc +:+ "/kbs/v0/resource/" +:+ path.

Definition PostResource (kc : KbsClient) (path data : string) : M W (option GoError) :=
  match http_NewRequest (resource_url kc path) with
  | Some e => mret (Some (Errorf "KbsClient failed to create a Post request - %w" [e]))
  | None =>
  let* t := SignToken (kc_secretKey kc) in
  match t with
  | Err e => mret (Some (Errorf "KbsClient: %w" [Errorf "failed to sign token using the provided private key: %w" [e]]))
  | Ok token =>
      let* r := http_Post (resource_url kc path) ("Bearer " +:+ token) data in
      mret match r with
           | Err e => Some (Errorf "KbsClient failed to send set-resource request to Trustee - %w" [e])
           | Ok (status, body) =>
               if status =? 200 then None
               else match body with
                    | Err e => Some (Errorf "KbsClient while reading the response bytes - %w" [e])
                    | Ok _ => Some (Errorf "KbsClient failed to set secret at Trustee: %s %s" [])
                    end
           end
  end
  end.

(** ** The client on the worker node *)

Record SshClient := mkSshClient {
  sc_kc : option KbsClient;
  sc_wnSigner : Signer;
  sc_inboundStrings : list string;
  sc_outboundStrings : list string;
  sc_sshport : string;
  sc_wnPublicKey : string
}.

(** The secret of that name, created when it cannot be read. *)
Definition read_or_create (secretName : string) : M W (result (string * string * bool)) :=
  let* r := ReadSecret secretName in
  match r with
  | Ok (priv, pub) => mret (Ok (priv, pub, true))
  | Err _ =>
      let* c := CreateSecret secretName in
      mret match c with Err e => Err e | Ok (priv, pub) => Ok (priv, pub, false) end
  end.

(** The client of the key broker, after the worker node's key was posted to it. *)
Definition init_kbs (kbsAddress wnPublicKey : string) : M W (result KbsClient) :=
  let* r := ReadSecret KBS_CLIENT_SECRET in
  match r with
  | Err e => mret (Err (Errorf "failed to read KBS client secret: %w" [e]))
  | Ok (kbscPrivateKey, _) =>
      match SetPemSecret kbscPrivateKey (InitKbsClient kbsAddress) with
      | Err e => mret (Err (Errorf "KbsClient - %v" []))
      | Ok kc =>
          let* p := PostResource kc "default/sshclient/publicKey" wnPublicKey in
          mret match p with
               | Some e => Err (Errorf "failed to PostResource WN Secret: %v" [])
               | None => Ok kc
               end
      end
  end.

Definition InitSshClient (inbound_strings outbound_strings : list string) (secureCommsTrustee : bool)
    (kbsAddress sshport : string) : M W (result SshClient) :=
  let* r := read_or_create ADAPTOR_SSH_SECRET in
  match r with
  | Err e => mret (Err (Errorf "failed to auto create WN secret: %w" [e]))
  | Ok (wnPrivateKey, wnPublicKey, _) =>
      if String.eqb wnPrivateKey "" then mret (Err (Errorf "missing keys for PeerPod" []))
      else
        match ParsePrivateKey wnPrivateKey with
        | Err e => mret (Err (Errorf "unable to parse private key: %v" []))
        | Ok signer =>
            let* k := if secureCommsTrustee
                      then let* k := init_kbs kbsAddress wnPublicKey in mret (result_map Some k)
                      else mret (Ok None) in
            mret match k with
                 | Err e => Err e
                 | Ok kc => Ok (mkSshClient kc signer inbound_strings outbound_strings sshport wnPublicKey)
                 end
        end
  end.

Record SshClientInstance := mkInstance {
  ci_sid : string;
  ci_ppPublicKey : string;
  ci_ppAddr : list string;
  ci_client : SshClient;
  ci_kubernetesPhase : bool;
  ci_inbounds : list (Inbound Listener);
  ci_outbounds : list Outbound;
  ci_inboundPorts : gmap string string
}.

Definition PpSecretName (sid : string) : string := "pp-" +:+ sid.
Definition sidSecretPath (sid : string) : string := "default/pp-" +:+ sid +:+ "/privateKey".

Definition post_pp_secret (kc : option KbsClient) (sid ppPrivateKey : string) : M W (option GoError) :=
  match kc with
  | None => mret None
  | Some kc => PostResource kc (sidSecretPath sid) ppPrivateKey
  end.

(** The host key that the Kubernetes phase will demand; none when the secret has none. *)
Definition pp_host_key (ppPublicKey : string) : result string :=
  if String.eqb ppPublicKey "" then Ok EmptyString else result_map Key_Marshal (ParseAuthorizedKey ppPublicKey).

(** The sockets and addresses of the tags; an illegal tag ends the process. *)
Definition add_all_tags (c : SshClient) (sid hostKey : string) (kubernetesPhase : bool)
    : M W (outcome SshClientInstance) :=
  let* i := ib_AddTags (sc_inboundStrings c) ∅ [] in
  mret match i with
       | Panic => Panic
       | Return (Some _, _, _) => Panic
       | Return (None, ports, inbounds) =>
           match ob_AddTags (sc_outboundStrings c) [] with
           | (Some _, _) => Panic
           | (None, outbounds) =>
               Return (mkInstance sid hostKey [] c kubernetesPhase inbounds outbounds ports)
           end
       end.

(** The instance and the private key of the pod VM; no instance when a step fails. *)
Definition InitPP (c : SshClient) (sid : string) : M W (outcome (option SshClientInstance * string)) :=
  let* r := read_or_create (PpSecretName sid) in
  match r with
  | Err _ => mret (Return (None, EmptyString))
  | Ok (ppPrivateKey, ppPublicKey, kubernetesPhase) =>
      let* p := post_pp_secret (sc_kc c) sid ppPrivateKey in
      match p with
      | Some _ => mret (Return (None, ppPrivateKey))
      | None =>
          match pp_host_key ppPublicKey with
          | Err _ => mret (Return (None, ppPrivateKey))
          | Ok hostKey =>
              let* i := add_all_tags c sid hostKey kubernetesPhase in
              mret match i with
                   | Panic => Panic
                   | Return ci => Return (Some ci, ppPrivateKey)
                   end
          end
      end
  end.

Definition GetPort (ci : SshClientInstance) (name : string) : string :=
  default EmptyString (ci_inboundPorts ci !! name).

(** [HostKeyCallback]: without a key nothing is checked. *)
Definition host_key_callback (publicKey ppPublicKey : string) (key : PublicKey) : option GoError :=
  if String.eqb publicKey "" then None
  else if String.eqb (Key_Marshal key) ppPublicKey then None
  else Some (Errorf "%s phase: ssh host key mismatch" []).

(** One round over the addresses of the pod VM: the first SSH connection decides,
    also when the peer does not agree on the phase. *)
Fixpoint dial_round (ci : SshClientInstance) (phase publicKey : string) (addrs : list string)
    : M W (option (option (SshPeer * SshConn))) :=
  match addrs with
  | [] => mret None
  | a :: rest =>
      let* d := DialTimeout a in
      match d with
      | Err _ => dial_round ci phase publicKey rest
      | Ok conn =>
          let* s := NewClientConn conn a (host_key_callback publicKey (ci_ppPublicKey ci))
                      (sc_wnSigner (ci_client ci)) in
          match s with
          | Err _ => let* _c := NConn_Close conn in dial_round ci phase publicKey rest
          | Ok netConn =>
              let* a := SendRequest netConn PHASE phase in
              mret (Some ((fun p => (p, netConn)) <$> NewSshPeer phase (ci_sid ci) a))
          end
      end
  end.

(** retry.Do with its number of attempts. *)
Fixpoint dial_attempts (ci : SshClientInstance) (phase publicKey : string) (attempts : nat)
    : M W (option (SshPeer * SshConn)) :=
  match attempts with
  | O => mret None
  | S n =>
      let* alive := retry_alive in
      if (alive : bool) then
        let* r := dial_round ci phase publicKey (ci_ppAddr ci) in
        match r with
        | Some peer => mret peer
        | None => dial_attempts ci phase publicKey n
        end
      else mret None
  end.

Definition StartSshClient (ci : SshClientInstance) (phase publicKey : string) : M W (option (SshPeer * SshConn)) :=
  dial_attempts ci phase publicKey 100.

(** The life of a peer, up to [Wait]. *)
Definition serve_peer (ci : SshClientInstance) (peer : SshPeer) (conn : SshConn) : M W (outcome peer_conf) :=
  let* os := schedule conn (AddTags (ci_inbounds ci) (ci_outbounds ci) ++ [OReady]) in
  mret (peer_run os (peer_start peer)).

Definition StartKubernetes (ci : SshClientInstance) : M W (outcome (option GoError)) :=
  let* p := StartSshClient ci KUBERNETES (ci_ppPublicKey ci) in
  match p with
  | None => mret (Return (Some (Errorf "kubernetes phase: failed StartSshClient" [])))
  | Some (peer, conn) =>
      let* c := serve_peer ci peer conn in
      mret match c with Panic => Panic | Return _ => Return None end
  end.

Definition StartAttestation (ci : SshClientInstance) : M W (outcome (option GoError)) :=
  let* p := StartSshClient ci ATTESTATION EmptyString in
  match p with
  | None => mret (Return (Some (Errorf "attestation phase: failed StartSshClient" [])))
  | Some (peer, conn) =>
      let* c := serve_peer ci peer conn in
      mret match c with
           | Panic => Panic
           | Return c => Return (if pr_upgrade (c_peer c) then None
                                 else Some (Errorf "attestation phase closed without being upgraded" []))
           end
  end.

Definition with_addrs (ci : SshClientInstance) (addrs : list string) : SshClientInstance :=
  mkInstance (ci_sid ci) (ci_ppPublicKey ci) addrs (ci_client ci) (ci_kubernetesPhase ci)
    (ci_inbounds ci) (ci_outbounds ci) (ci_inboundPorts ci).

Definition with_phase (ci : SshClientInstance) (k : bool) : SshClientInstance :=
  mkInstance (ci_sid ci) (ci_ppPublicKey ci) (ci_ppAddr ci) (ci_client ci) k
    (ci_inbounds ci) (ci_outbounds ci) (ci_inboundPorts ci).

(** Up to the start of the goroutine of the Kubernetes phase. *)
Definition ci_Start (ipAddr : list string) (ci : SshClientInstance)
    : M W (outcome (option GoError * SshClientInstance)) :=
  let ci := with_addrs ci (map (fun ip => ip +:+ ":" +:+ sc_sshport (ci_client ci)) ipAddr) in
  if ci_kubernetesPhase ci then mret (Return (None, ci))
  else
    let* a := StartAttestation ci in
    mret match a with
         | Panic => Panic
         | Return (Some _) => Return (Some (Errorf "attestation phase failed: %v" []), ci)
         | Return None => Return (None, with_phase ci true)
         end.

(** The goroutine: restarts of the Kubernetes phase, as often as the context lets it. *)
Fixpoint kubernetes_loop (restarts : nat) (ci : SshClientInstance) : M W (outcome unit) :=
  match restarts with
  | O => mret (Return tt)
  | S n =>
      let* r := StartKubernetes ci in
      match r with
      | Panic => mret Panic
      | Return _ => kubernetes_loop n ci
      end
  end.

Definition DisconnectPP (ci : SshClientInstance) (sid : string) : M W (list (Inbound Listener)) :=
  let* l := DelAll (ci_inbounds ci) in
  let* _d := DeleteSecret (PpSecretName sid) in
  mret l.

(** ** The secrets of the pod VM *)

(** Nil is a key that is still to be obtained. *)
Notation PpSecrets := (gmap string (option string)).

Definition AddKey (key : string) (sec : PpSecrets) : PpSecrets :=
  match sec !! key with Some _ => sec | None => <[key := None]> sec end.

Definition GetKey (key : string) (sec : PpSecrets) : option string :=
  match sec !! key with Some v => v | None => None end.

Definition SetKey (key keydata : string) (sec : PpSecrets) : PpSecrets := <[key := Some keydata]> sec.

(** The loop for one key: a valid key, or [None] when [tries] calls gave none. *)
Fixpoint obtain (getSecret : string -> M W (result string)) (tries : nat) (key : string) : M W (option string) :=
  match tries with
  | O => mret None
  | S n =>
      let* r := getSecret key in
      match r with
      | Ok keydata => if nonempty keydata then mret (Some keydata) else obtain getSecret n key
      | Err _ => obtain getSecret n key
      end
  end.

(** The keys in the order of the map; [None]: it does not return within the tries. *)
Fixpoint obtain_all (getSecret : string -> M W (result string)) (tries : nat) (keys : list (string * option string))
    (sec : PpSecrets) : M W (option PpSecrets) :=
  match keys with
  | [] => mret (Some sec)
  | (key, Some _) :: rest => obtain_all getSecret tries rest sec
  | (key, None) :: rest =>
      let* r := obtain getSecret tries key in
      match r with
      | None => mret None
      | Some keydata => obtain_all getSecret tries rest (<[key := Some keydata]> sec)
      end
  end.

Definition secrets_Go `{GoMapOrder} (getSecret : string -> M W (result string)) (tries : nat) (sec : PpSecrets)
    : M W (option PpSecrets) :=
  obtain_all getSecret tries (map_order sec) sec.

(** *** The client of the data hub *)

Definition api_GetKey (servicePort : Z) (key : string) : M W (result string) :=
  let* r := http_Get ("http://127.0.0.1:" +:+ FormatInt servicePort +:+ "/cdh/resource/default/" +:+ key) in
  mret match r with
       | Err e => Err (Errorf "getKey %s client.Get err: %w" [e])
       | Ok (_, Err e) => Err (Errorf "getKey %s io.ReadAll err - %w" [e])
       | Ok (status, Ok data) =>
           if status =? 200 then Ok data
           else Err (Errorf "getKey %s client.Get received error code of : %d - %s" [])
       end.

(** ** The server in the pod VM *)

Definition UNPROVEN_WN_PUBLIC_KEY_PATH : string := "/run/unprovenWnPublicKey".
Definition SINGLETON_PATH : string := "/run/sshSingleton".
Definition WN_PUBLIC_KEY : string := "sshclient/publicKey".

(** A second run in one boot ends the process. *)
Definition Singleton : M W (outcome unit) :=
  let* s := os_Stat SINGLETON_PATH in
  match s with
  | Some e =>
      if errors_Is "os.ErrNotExist" e then
        let* c := os_Create SINGLETON_PATH in
        mret match c with Some _ => Panic | None => Return tt end
      else mret Panic
  | None => mret Panic
  end.

Definition getAttestationPhaseKeys : M W (outcome (string * option string)) :=
  let* f := os_ReadFile UNPROVEN_WN_PUBLIC_KEY_PATH in
  let tePublicKeyBytes := match f with Ok b => Some b | Err _ => None end in
  let* g := GenerateKey 3072 in
  mret match g with
       | Err _ => Panic
       | Ok k => match Key_Validate k with
                 | Some _ => Panic
                 | None => Return (RsaPrivateKeyPEM k, tePublicKeyBytes)
                 end
       end.

Definition setConfigHostKey (ppPrivateKeyBytes : string) (config : ServerConfig) : result ServerConfig :=
  match ParsePrivateKey ppPrivateKeyBytes with
  | Err e => Err (Errorf "unable to parse private key: %w" [e])
  | Ok s => Ok (mkServerConfig (NoClientAuth config) (PublicKeyCallback config) (HostKeys config ++ [s]))
  end.

Definition setPublicKey (tePublicKeyBytes : string) (config : ServerConfig) : result ServerConfig :=
  match ParseAuthorizedKey tePublicKeyBytes with
  | Err e => Err (Errorf "unable to parse public key: %w" [e])
  | Ok k => Ok (mkServerConfig (NoClientAuth config) (Some (Key_Marshal k)) (HostKeys config))
  end.

Definition empty_config : ServerConfig := mkServerConfig false None [].

Definition initAttestationPhaseSshConfig : M W (outcome (result ServerConfig)) :=
  let* k := getAttestationPhaseKeys in
  mret match k with
       | Panic => Panic
       | Return (ppPrivateKeyBytes, tePublicKeyBytes) =>
           Return match (match tePublicKeyBytes with
                         | Some te => setPublicKey te empty_config
                         | None => Ok (mkServerConfig true None [])
                         end) with
                  | Err e => Err e
                  | Ok config => setConfigHostKey ppPrivateKeyBytes config
                  end
       end.

Definition initKubernetesPhaseSshConfig (sec : PpSecrets) : result ServerConfig :=
  match GetKey PP_PRIVATE_KEY sec, GetKey WN_PUBLIC_KEY sec with
  | Some ppPrivateKeyBytes, Some wnPublicKeyBytes =>
      if (nonempty ppPrivateKeyBytes && nonempty wnPublicKeyBytes)%bool then
        match setPublicKey wnPublicKeyBytes empty_config with
        | Err e => Err e
        | Ok config => setConfigHostKey ppPrivateKeyBytes config
        end
      else Err (Errorf "kubernetes phase: missing SSH server key" [])
  | _, _ => Err (Errorf "kubernetes phase: missing SSH server key" [])
  end.

(** Handshake and phase; a peer that does not agree is an error here. *)
Definition kubernetesSShService (nConn : NConn) (config : ServerConfig) : M W (result (SshPeer * SshConn)) :=
  let* s := NewServerConn nConn config in
  match s with
  | Err e => mret (Err e)
  | Ok conn =>
      let* a := SendRequest conn PHASE KUBERNETES in
      mret match NewSshPeer KUBERNETES EmptyString a with
           | None => Err (Errorf "failed to connect to an ssh peer" [])
           | Some p => Ok (p, conn)
           end
  end.

(** ... and no peer without an error here. *)
Definition attestationSShService (nConn : NConn) : M W (outcome (result (option (SshPeer * SshConn)))) :=
  let* c := initAttestationPhaseSshConfig in
  match c with
  | Panic | Return (Err _) => mret Panic
  | Return (Ok config) =>
      let* s := NewServerConn nConn config in
      match s with
      | Err e => mret (Return (Err (Errorf "failed to handshake: %v" [])))
      | Ok conn =>
          let* a := SendRequest conn PHASE ATTESTATION in
          mret (Return (Ok ((fun p => (p, conn)) <$> NewSshPeer ATTESTATION EmptyString a)))
      end
  end.

Record SshServer := mkServer { sv_inbounds : list (Inbound Listener); sv_outbounds : list Outbound }.

Definition NewSshServer (inbound_strings outbounds_strings : list string) : M W (outcome SshServer) :=
  let* i := ib_AddTags inbound_strings ∅ [] in
  mret match i with
       | Panic | Return (Some _, _, _) => Panic
       | Return (None, _, inbounds) =>
           match ob_AddTags outbounds_strings [] with
           | (Some _, _) => Panic
           | (None, outbounds) => Return (mkServer inbounds outbounds)
           end
       end.

(** The accept loops run while the context is alive, for the given number of
    connections; a failed [Accept] ends the process. *)
Fixpoint accept_attestation (alive : nat) : M W (outcome (option (SshPeer * SshConn))) :=
  match alive with
  | O => mret (Return None)
  | S n =>
      let* a := Accept in
      match a with
      | Err _ => mret Panic
      | Ok nConn =>
          let* r := attestationSShService nConn in
          match r with
          | Panic => mret Panic
          | Return (Ok (Some p)) => mret (Return (Some p))
          | Return _ => accept_attestation n
          end
      end
  end.

Fixpoint accept_kubernetes (alive : nat) (config : ServerConfig) : M W (outcome (option (SshPeer * SshConn))) :=
  match alive with
  | O => mret (Return None)
  | S n =>
      let* a := Accept in
      match a with
      | Err _ => mret Panic
      | Ok nConn =>
          let* r := kubernetesSShService nConn config in
          match r with
          | Ok p => mret (Return (Some p))
          | Err _ => accept_kubernetes n config
          end
      end
  end.

(** The keys are obtained and the configuration is made from them, once: [Go] only
    returns with all keys, and a configuration that they do not make is tried again
    for ever with the same keys ([None]). *)
Definition obtain_config `{GoMapOrder} (getSecret : string -> M W (result string)) (tries : nat) (sec : PpSecrets)
    : M W (option ServerConfig) :=
  let* g := secrets_Go getSecret tries sec in
  mret match g with
       | None => None
       | Some sec' => match initKubernetesPhaseSshConfig sec' with Ok c => Some c | Err _ => None end
       end.

(** The attestation phase up to the configuration of the next phase: the peer serves
    tunnels while the keys are obtained, and is then told to upgrade; the
    configuration is returned whatever it answers.  When the context ends before a
    client came, the nil peer is used. *)
Definition attestationPhase `{GoMapOrder} (sv : SshServer) (alive tries : nat)
    (getSecret : string -> M W (result string)) (sec : PpSecrets)
    : M W (outcome (option (ServerConfig * SshPeer))) :=
  let* p := accept_attestation alive in
  match p with
  | Panic | Return None => mret Panic
  | Return (Some (peer, conn)) =>
      let* os := schedule conn (AddTags (sv_inbounds sv) (sv_outbounds sv) ++ [OReady]) in
      match peer_run os (peer_start peer) with
      | Panic => mret Panic
      | Return c =>
          let* g := obtain_config getSecret tries sec in
          match g with
          | None => mret (Return None)
          | Some config =>
              let* a := SendRequest conn UPGRADE EmptyString in
              mret (Return (Some (config, fst (peer_Upgrade a (c_peer c)))))
          end
      end
  end.

Definition kubernetesPhase (sv : SshServer) (alive : nat) (config : ServerConfig) : M W (outcome (option peer_conf)) :=
  let* p := accept_kubernetes alive config in
  match p with
  | Panic => mret Panic
  | Return None => mret (Return None)
  | Return (Some (peer, conn)) =>
      let* os := schedule conn (AddTags (sv_inbounds sv) (sv_outbounds sv) ++ [OReady]) in
      mret match peer_run os (peer_start peer) with Panic => Panic | Return c => Return (Some c) end
  end.

(** Sessions of the Kubernetes phase, one after the other while the context lives;
    each ends with its peer. *)
Fixpoint kubernetes_sessions (sessions alive : nat) (sv : SshServer) (config : ServerConfig) : M W (outcome unit) :=
  match sessions with
  | O => mret (Return tt)
  | S n =>
      let* r := kubernetesPhase sv alive config in
      match r with
      | Panic => mret Panic
      | Return _ => kubernetes_sessions n alive sv config
      end
  end.

(** The goroutine of [Start]; an attestation phase without a result ends the
    process. *)
Definition pp_serve `{GoMapOrder} (sv : SshServer) (alive tries sessions : nat)
    (getSecret : string -> M W (result string)) (sec : PpSecrets) : M W (outcome unit) :=
  let* a := attestationPhase sv alive tries getSecret sec in
  match a with
  | Panic | Return None => mret Panic
  | Return (Some (config, _)) => kubernetes_sessions sessions alive sv config
  end.

End Secure.

Notation PpSecrets := (gmap string (option string)).
