(* ===== verification/SecureCommsProps.v ===== *)
(** * Theorems of the secure communication

    - Keys: the two ends that got their keys from the worker node accept each other,
      and in the Kubernetes phase they accept nobody else; a stored secret without a
      public key switches the check of the host off.
    - Phases: the Kubernetes phase follows an upgrade that the pod VM asked for, or a
      secret that was already there.
    - Secrets: a finished retrieval has every key; the path under which the pod VM
      asks for its key is the one under which the worker node posted it. *)

From Stdlib Require Import ZArith Ascii String Lia.
From stdpp Require Import base gmap strings list.
From S2P Require Import Prelude NetAddr SshProxy SshProxyProps SecureComms.

Open Scope Z_scope.
Open Scope go_scope.

(** What the code relies on: keys survive their encodings; a client connection exists
    only when the callback accepted the host key; a server connection exists only
    for a client whose key the callback accepted, or without a key when none is
    demanded. *)
Class SecureLaws (W : Type) `{SshKeys} `{!SecureEnv W} := {
  ParsePrivateKey_PEM : forall k pk, NewPublicKey k = Ok pk ->
    exists s, ParsePrivateKey (RsaPrivateKeyPEM k) = Ok s /\ Signer_PublicKey s = pk;
  ParseAuthorizedKey_Marshal : forall pk, ParseAuthorizedKey (MarshalAuthorizedKey pk) = Ok pk;
  PEM_nonempty : forall k, RsaPrivateKeyPEM k <> "";
  Authorized_nonempty : forall pk, MarshalAuthorizedKey pk <> "";
  Marshal_nonempty : forall pk, Key_Marshal pk <> "";
  NewClientConn_law : forall c a cb s w conn w',
    NewClientConn c a cb s w = (Ok conn, w') -> cb (conn_HostKey conn) = None;
  NewServerConn_law : forall c cfg w conn w',
    NewServerConn c cfg w = (Ok conn, w') ->
    match conn_ClientKey conn with
    | Some k => PublicKeyCallback cfg = Some (Key_Marshal k)
    | None => NoClientAuth cfg = true
    end
}.

Section Props.

Context {W : Type} `{SshKeys} `{!SecureEnv W} `{!SecureLaws W} `{!ListenEnv W}.

(** ** Keys *)

(** A private and a public key, as a secret holds them, that belong together. *)
Definition key_pair (priv pub : string) : Prop :=
  exists k pk, NewPublicKey k = Ok pk /\ priv = RsaPrivateKeyPEM k /\ pub = MarshalAuthorizedKey pk.

Lemma CreateSecret_pair name w priv pub w' :
  CreateSecret name w = (Ok (priv, pub), w') -> key_pair priv pub.
Proof.
  unfold CreateSecret, mbind. destruct (GenerateKey 4096 w) as [[k|e] w1]; [|done].
  destruct (Key_Validate k); [done|]. destruct (NewPublicKey k) as [pk|e] eqn:Ek; [|done].
  destruct (Secrets_Create _ _ _ w1) as [[e|] w2]; [done|]. intros [= <- <- <-]. by exists k, pk.
Qed.

(** The secret of that name, when there is one, was made by [CreateSecret]. *)
Definition secret_well_made (name : string) : Prop := forall w priv pub w',
  ReadSecret name w = (Ok (priv, pub), w') -> key_pair priv pub.

Lemma read_or_create_pair name w priv pub r w' :
  secret_well_made name -> read_or_create name w = (Ok (priv, pub, r), w') -> key_pair priv pub.
Proof.
  intros Hs. unfold read_or_create, mbind. destruct (ReadSecret name w) as [[[p q]|e] w1] eqn:E.
  - intros [= <- <- <- <-]. by eapply Hs.
  - destruct (CreateSecret name w1) as [[[p q]|e'] w2] eqn:Ec; [|done]. intros [= <- <- <- <-].
    by eapply CreateSecret_pair.
Qed.

(** What a pair gives to the two ends. *)
Lemma key_pair_spec priv pub : key_pair priv pub ->
  exists s, ParsePrivateKey priv = Ok s /\ ParseAuthorizedKey pub = Ok (Signer_PublicKey s) /\
    pp_host_key pub = Ok (Key_Marshal (Signer_PublicKey s)) /\ nonempty priv = true /\ nonempty pub = true.
Proof.
  intros (k & pk & Ek & -> & ->). destruct (ParsePrivateKey_PEM k pk Ek) as (s & Es & <-). exists s.
  pose proof (proj2 (String.eqb_neq _ _) (PEM_nonempty k)) as N1.
  pose proof (proj2 (String.eqb_neq _ _) (Authorized_nonempty (Signer_PublicKey s))) as N2.
  unfold pp_host_key, nonempty. rewrite N1, N2, ParseAuthorizedKey_Marshal. done.
Qed.

Lemma InitPP_spec c sid w ci priv w' :
  InitPP c sid w = (Return (Some ci, priv), w') ->
  exists pub r w1, read_or_create (PpSecretName sid) w = (Ok (priv, pub, r), w1) /\
    pp_host_key pub = Ok (ci_ppPublicKey ci) /\ ci_kubernetesPhase ci = r /\ ci_client ci = c /\ ci_sid ci = sid.
Proof.
  unfold InitPP, mbind. destruct (read_or_create _ w) as [[[[p q] r]|e] w1]; [|done].
  destruct (post_pp_secret _ _ _ w1) as [[e|] w2]; [done|].
  destruct (pp_host_key q) as [h|e] eqn:Eh; [|done]. unfold add_all_tags, mbind.
  destruct (ib_AddTags _ _ _ w2) as [[[[[e|] ports] ins]|] w3]; [done| |done].
  destruct (ob_AddTags _ _) as [[e|] outs]; [done|]. intros [= <- <- <-].
  exists q, r, w1. by split_and!.
Qed.

Lemma InitSshClient_spec ins outs trustee kbs port w c w' :
  InitSshClient ins outs trustee kbs port w = (Ok c, w') ->
  exists priv r w1, read_or_create ADAPTOR_SSH_SECRET w = (Ok (priv, sc_wnPublicKey c, r), w1) /\
    ParsePrivateKey priv = Ok (sc_wnSigner c).
Proof.
  unfold InitSshClient, mbind. destruct (read_or_create _ w) as [[[[p q] r]|e] w1]; [|done].
  destruct (String.eqb p ""); [done|]. destruct (ParsePrivateKey p) as [s|e] eqn:Ep; [|done].
  set (k := if trustee then _ else _). destruct (k w1) as [[kc|e] w2]; [|done].
  intros [= <- <-]. by exists p, r, w1.
Qed.

(** What the pod VM makes of the keys that reach it. *)
Lemma initKubernetes_spec sec cfg : initKubernetesPhaseSshConfig sec = Ok cfg ->
  exists pp wn k s, GetKey PP_PRIVATE_KEY sec = Some pp /\ GetKey WN_PUBLIC_KEY sec = Some wn /\
    ParseAuthorizedKey wn = Ok k /\ ParsePrivateKey pp = Ok s /\
    cfg = mkServerConfig false (Some (Key_Marshal k)) [s].
Proof.
  unfold initKubernetesPhaseSshConfig. destruct (GetKey PP_PRIVATE_KEY sec) as [pp|]; [|done].
  destruct (GetKey WN_PUBLIC_KEY sec) as [wn|]; [|done]. destruct (_ && _)%bool; [|done].
  unfold setPublicKey, setConfigHostKey. destruct (ParseAuthorizedKey wn) as [k|] eqn:Ek; [|done].
  destruct (ParsePrivateKey pp) as [s|] eqn:Es; [|done]. intros [= <-]. by exists pp, wn, k, s.
Qed.

(** The keys fit: when the pod VM got its private key as the worker node made it and
    the worker node's public key, it can make the configuration of the Kubernetes
    phase; its host key passes the check of the worker node, and the worker node's
    key is the one that the pod VM accepts, while a client without a key is
    refused. *)
Theorem keys_fit ins outs trustee kbs port w c w1 sid w2 ci priv w3 sec :
  secret_well_made ADAPTOR_SSH_SECRET -> secret_well_made (PpSecretName sid) ->
  InitSshClient ins outs trustee kbs port w = (Ok c, w1) ->
  InitPP c sid w2 = (Return (Some ci, priv), w3) ->
  GetKey PP_PRIVATE_KEY sec = Some priv -> GetKey WN_PUBLIC_KEY sec = Some (sc_wnPublicKey c) ->
  exists s, initKubernetesPhaseSshConfig sec =
      Ok (mkServerConfig false (Some (Key_Marshal (Signer_PublicKey (sc_wnSigner c)))) [s]) /\
    host_key_callback (ci_ppPublicKey ci) (ci_ppPublicKey ci) (Signer_PublicKey s) = None.
Proof.
  intros Hs1 Hs2 (wnPriv & r1 & w4 & E1 & Ep)%InitSshClient_spec (pub & r2 & w5 & E2 & Eh & _)%InitPP_spec Hpp Hwn.
  destruct (key_pair_spec wnPriv (sc_wnPublicKey c)) as (s1 & P1 & P2 & _ & _ & N2); [exact (read_or_create_pair _ _ _ _ _ _ Hs1 E1)|].
  destruct (key_pair_spec priv pub) as (s2 & Q1 & _ & Q3 & N1 & _); [exact (read_or_create_pair _ _ _ _ _ _ Hs2 E2)|].
  exists s2. unfold initKubernetesPhaseSshConfig. rewrite Hpp, Hwn, N1, N2. cbn [andb].
  unfold setPublicKey, setConfigHostKey. rewrite P2, Q1. split.
  - rewrite Ep in P1. by simplify_eq.
  - rewrite Eh in Q3. simplify_eq. rewrite Q3. unfold host_key_callback.
    rewrite (proj2 (String.eqb_neq _ _) (Marshal_nonempty _)). by rewrite String.eqb_refl.
Qed.

(** *** Who is at the other end *)

Lemma dial_round_spec ci phase key addrs w peer conn w' :
  dial_round ci phase key addrs w = (Some (Some (peer, conn)), w') ->
  peer = new_peer phase (ci_sid ci) /\ host_key_callback key (ci_ppPublicKey ci) (conn_HostKey conn) = None.
Proof.
  revert w. induction addrs as [|a addrs IH]; intros w; cbn [dial_round]; unfold mbind; [done|].
  destruct (DialTimeout a w) as [[nc|e] w1]; [|apply IH].
  destruct (NewClientConn nc a _ _ w1) as [[sc|e] w2] eqn:En.
  - destruct (SendRequest sc PHASE phase w2) as [an w3]. unfold NewSshPeer, mret.
    destruct (phase_verified phase an); cbn; [|done]. intros [= <- <- <-].
    split; [done|]. by eapply NewClientConn_law.
  - destruct (NConn_Close nc w2) as [[] w3]. apply IH.
Qed.

Lemma StartSshClient_spec ci phase key w peer conn w' :
  StartSshClient ci phase key w = (Some (peer, conn), w') ->
  peer = new_peer phase (ci_sid ci) /\ host_key_callback key (ci_ppPublicKey ci) (conn_HostKey conn) = None.
Proof.
  unfold StartSshClient. generalize 100%nat. intros n. revert w.
  induction n as [|n IH]; intros w; cbn [dial_attempts]; unfold mbind; [done|].
  destruct (retry_alive w) as [[] w1]; [|done].
  destruct (dial_round ci phase key (ci_ppAddr ci) w1) as [[r|] w2] eqn:E; [|apply IH].
  intros [= -> ->]. by eapply dial_round_spec.
Qed.

Lemma ci_Start_fields ips ci w ci' w' : ci_Start ips ci w = (Return (None, ci'), w') ->
  ci_ppPublicKey ci' = ci_ppPublicKey ci /\ ci_sid ci' = ci_sid ci.
Proof.
  unfold ci_Start. cbn [ci_kubernetesPhase with_addrs]. destruct (ci_kubernetesPhase ci); [by intros [= <- _]|]. unfold mbind.
  destruct (StartAttestation _ w) as [[[e|]|] w1]; [done| |done]. by intros [= <- _].
Qed.

(** A Kubernetes phase that was not refused served a peer on a connection whose host key
    passed the check. *)
Lemma StartKubernetes_spec ci w r w' : StartKubernetes ci w = (r, w') ->
  (exists e, r = Return (Some e)) \/
  exists conn w1 o, serve_peer ci (new_peer KUBERNETES (ci_sid ci)) conn w1 = (o, w') /\
    r = match o with Panic => Panic | Return _ => Return None end /\
    host_key_callback (ci_ppPublicKey ci) (ci_ppPublicKey ci) (conn_HostKey conn) = None.
Proof.
  unfold StartKubernetes, mbind. destruct (StartSshClient ci KUBERNETES (ci_ppPublicKey ci) w) as [[[peer conn]|] w1] eqn:E.
  - apply StartSshClient_spec in E as [-> Hc]. destruct (serve_peer _ _ _ w1) as [o w2] eqn:Es. intros [= <- <-].
    right. by exists conn, w1, o.
  - intros [= <- _]. left. by eexists.
Qed.

Lemma host_key_matches pub key : pub <> ""%string -> host_key_callback pub pub key = None -> Key_Marshal key = pub.
Proof.
  intros Hp. unfold host_key_callback. rewrite (proj2 (String.eqb_neq _ _) Hp). by destruct (String.eqb_spec (Key_Marshal key) pub).
Qed.

(** The configuration of the pod VM's Kubernetes phase comes from the secrets it obtained. *)
Lemma attestationPhase_config `{GoMapOrder} sv alive tries getSecret sec w cfg peer w' :
  attestationPhase sv alive tries getSecret sec w = (Return (Some (cfg, peer)), w') ->
  exists sec' w1 w2, secrets_Go getSecret tries sec w1 = (Some sec', w2) /\ initKubernetesPhaseSshConfig sec' = Ok cfg.
Proof.
  unfold attestationPhase, obtain_config, mbind. destruct (accept_attestation alive w) as [[[[p c]|]|] w1]; [|done..].
  destruct (schedule c _ w1) as [os w2]. destruct (peer_run os _) as [pc|]; [|done].
  destruct (secrets_Go getSecret tries sec w2) as [[sec'|] w3] eqn:E; [|done].
  unfold mret at 1. destruct (initKubernetesPhaseSshConfig sec') as [cfg'|] eqn:Ec; [|done].
  destruct (SendRequest c UPGRADE "" w3) as [a w4]. intros [= <- _ _]. by exists sec', w2, w3.
Qed.

Lemma accept_kubernetes_client alive cfg w peer conn w' :
  accept_kubernetes alive cfg w = (Return (Some (peer, conn)), w') ->
  match conn_ClientKey conn with
  | Some k => PublicKeyCallback cfg = Some (Key_Marshal k)
  | None => NoClientAuth cfg = true
  end.
Proof.
  revert w. induction alive as [|n IH]; intros w; cbn [accept_kubernetes]; [done|]. unfold mbind.
  destruct (Accept w) as [[nc|e] w1]; [|done]. destruct (kubernetesSShService nc cfg w1) as [[p|e] w2] eqn:E; [|apply IH].
  intros [= -> _]. unfold kubernetesSShService, mbind in E. destruct (NewServerConn nc cfg w1) as [[sc|e] w3] eqn:En; [|done].
  apply NewServerConn_law in En. destruct (SendRequest sc _ _ w3) as [a w4]. unfold NewSshPeer, mret in E.
  destruct (phase_verified KUBERNETES a); [|done]. by injection E as _ <- _.
Qed.

(** C25: In the Kubernetes phase both ends know who they talk to.  On the worker node, a
    Kubernetes phase of the instance that [InitPP] made and [Start] started either fails or
    serves a peer on a connection whose host proved the public key of the sandbox's
    secret, when that has one; and when the sandbox's secret, if there was one before, was
    made by [CreateSecret], this is the host with the private key that [InitPP] gave out.
    In the pod VM, a client of the Kubernetes phase after an attestation phase has logged
    in with the worker node's public key as it is among the secrets obtained, and never
    without a key. *)
Theorem kubernetes_phase_authenticated `{GoMapOrder} :
  (forall c sid w ci priv w1 ips w2 ci' w3 w4 r w5,
     InitPP c sid w = (Return (Some ci, priv), w1) -> ci_Start ips ci w2 = (Return (None, ci'), w3) ->
     StartKubernetes ci' w4 = (r, w5) ->
     (exists e, r = Return (Some e)) \/
     exists conn w6 o, serve_peer ci' (new_peer KUBERNETES sid) conn w6 = (o, w5) /\
       r = match o with Panic => Panic | Return _ => Return None end /\
       (ci_ppPublicKey ci <> ""%string -> Key_Marshal (conn_HostKey conn) = ci_ppPublicKey ci) /\
       (secret_well_made (PpSecretName sid) ->
        exists s, ParsePrivateKey priv = Ok s /\ Key_Marshal (conn_HostKey conn) = Key_Marshal (Signer_PublicKey s))) /\
  (forall sv alive tries getSecret sec w cfg p w1 alive' w2 peer conn w3,
     attestationPhase sv alive tries getSecret sec w = (Return (Some (cfg, p)), w1) ->
     accept_kubernetes alive' cfg w2 = (Return (Some (peer, conn)), w3) ->
     exists sec' w4 w5 wn k k', secrets_Go getSecret tries sec w4 = (Some sec', w5) /\
       GetKey WN_PUBLIC_KEY sec' = Some wn /\ ParseAuthorizedKey wn = Ok k /\
       conn_ClientKey conn = Some k' /\ Key_Marshal k' = Key_Marshal k).
Proof.
  split.
  - intros c sid w ci priv w1 ips w2 ci' w3 w4 r w5 (pub & rd & w6 & E & Eh & _ & _ & Esid)%InitPP_spec [Ep Es]%ci_Start_fields Ek.
    rewrite Esid in Es. apply StartKubernetes_spec in Ek as [|(conn & w7 & o & Eo & -> & Hc)]; [by left|right].
    rewrite Es in Eo. rewrite Ep in Hc. exists conn, w7, o. split_and!; [done|done|intros Hne; by apply host_key_matches|].
    intros Hw. destruct (key_pair_spec priv pub) as (s & Ps & _ & Q & _); [by eapply read_or_create_pair|].
    exists s. split; [done|]. rewrite Eh in Q. injection Q as Q. rewrite Q in Hc. apply host_key_matches; [apply Marshal_nonempty|done].
  - intros sv alive tries getSecret sec w cfg p w1 alive' w2 peer conn w3
      (sec' & w4 & w5 & Hsec & (pp & wn & k & s & _ & Hwn & Hk & _ & ->)%initKubernetes_spec)%attestationPhase_config
      Hc%accept_kubernetes_client.
    cbn in Hc. destruct (conn_ClientKey conn) as [k'|]; [|done]. exists sec', w4, w5, wn, k, k'. split_and!; [done..|]. congruence.
Qed.

(** A secret of the sandbox that is there but has no public key: the instance goes
    straight to the Kubernetes phase, in which the worker node then accepts every
    host key. *)
Theorem host_key_unchecked c sid w priv w1 ci p w2 key :
  ReadSecret (PpSecretName sid) w = (Ok (priv, ""), w1) ->
  InitPP c sid w = (Return (Some ci, p), w2) ->
  ci_kubernetesPhase ci = true /\ host_key_callback (ci_ppPublicKey ci) (ci_ppPublicKey ci) key = None.
Proof.
  intros Hr (pub & r & w4 & E & Eh & Hk & _)%InitPP_spec. unfold read_or_create, mbind in E. rewrite Hr in E.
  injection E as <- <- <- <-. cbn in Eh. injection Eh as Eh. rewrite <- Eh. by split.
Qed.

(** ** Phases *)

Lemma StartAttestation_upgraded ci w w' :
  StartAttestation ci w = (Return None, w') ->
  exists conn os w1 w2 payload, schedule conn (AddTags (ci_inbounds ci) (ci_outbounds ci) ++ [OReady]) w1 = (os, w2) /\
    OReq (Some (mkRequest UPGRADE true payload)) ∈ os.
Proof.
  unfold StartAttestation, mbind. destruct (StartSshClient ci ATTESTATION "" w) as [[[peer conn]|] w1] eqn:E; [|done].
  apply StartSshClient_spec in E as [-> _]. unfold serve_peer, mbind.
  destruct (schedule conn _ w1) as [os w2] eqn:Es. unfold mret.
  destruct (peer_run os _) as [c|] eqn:Er; [|done].
  apply (peer_run_inv ATTESTATION [] os _ _ (new_peer_inv ATTESTATION (ci_sid ci))) in Er.
  destruct (pr_upgrade (c_peer c)) eqn:Eu; [|done]. intros _.
  destruct (inv_upgrade _ _ _ Er Eu) as (_ & payload & Hin). by exists conn, os, w1, w2, payload.
Qed.

(** The worker node enters the Kubernetes phase of a sandbox only in two ways: the
    pod VM asked for the upgrade over the connection of the attestation phase, or
    the secret of the sandbox was already there when it was initialised; the host
    key it will demand does not change. *)
Theorem upgrade_needed addrs ci w ci' w' :
  ci_Start addrs ci w = (Return (None, ci'), w') ->
  ci_kubernetesPhase ci' = true /\ ci_ppPublicKey ci' = ci_ppPublicKey ci /\
  (ci_kubernetesPhase ci = true \/
   exists conn os w1 w2 payload,
     schedule conn (AddTags (ci_inbounds ci) (ci_outbounds ci) ++ [OReady]) w1 = (os, w2) /\
     OReq (Some (mkRequest UPGRADE true payload)) ∈ os).
Proof.
  unfold ci_Start. cbn [ci_kubernetesPhase with_addrs]. destruct (ci_kubernetesPhase ci) eqn:Ek.
  { intros [= <- <-]. cbn. auto. }
  unfold mbind, mret. destruct (StartAttestation _ w) as [[[e|]|] w1] eqn:E; [done| |done].
  intros [= <- <-]. cbn. split_and!; [done..|]. right. by apply StartAttestation_upgraded in E.
Qed.

(** ** Secrets *)

Lemma obtain_nonempty getSecret tries key (w : W) v w' :
  obtain getSecret tries key w = (Some v, w') -> v <> "".
Proof.
  revert w. induction tries as [|n IH]; intros w; cbn [obtain]; unfold mbind; [done|].
  destruct (getSecret key w) as [[d|e] w1]; [|apply IH]. unfold nonempty.
  destruct (String.eqb_spec d ""); cbn; [apply IH|]. by intros [= <- _].
Qed.

Lemma obtain_all_spec getSecret tries keys sec (w : W) sec' w' :
  NoDup keys.*1 -> obtain_all getSecret tries keys sec w = (Some sec', w') -> forall k,
  ((k, None) ∈ keys -> exists v, sec' !! k = Some (Some v) /\ v <> "") /\
  ((k, None) ∉ keys -> sec' !! k = sec !! k).
Proof.
  revert sec w. induction keys as [|[key [v|]] keys IH]; intros sec w Hnd; cbn [obtain_all].
  - intros [= <- _] k. split; [by intros ?%elem_of_nil|done].
  - cbn in Hnd. apply NoDup_cons in Hnd as [_ Hnd]. intros E k. destruct (IH _ _ Hnd E k) as [H1 H2].
    split; intros Hk; [apply H1|apply H2]; set_solver.
  - cbn in Hnd. apply NoDup_cons in Hnd as [Hn Hnd]. unfold mbind.
    destruct (obtain getSecret tries key w) as [[v|] w1] eqn:Eo; [|done]. intros E k.
    destruct (IH _ _ Hnd E k) as [H1 H2]. split; intros Hk.
    + apply elem_of_cons in Hk as [[= ->]|Hk]; [|auto].
      rewrite H2, lookup_insert_eq; [|intros Hin; apply Hn, list_elem_of_fmap; by exists (key, None)].
      exists v. split; [done|]. by eapply obtain_nonempty.
    + rewrite H2 by set_solver. rewrite lookup_insert_ne; [done|]. intros ->. set_solver.
Qed.

Lemma map_order_keys `{GoMapOrder} {A} (m : gmap string A) : NoDup (map_order m).*1.
Proof. rewrite map_order_perm. apply NoDup_fst_map_to_list. Qed.

(** A retrieval of the secrets that returns has them all: every key that was missing
    has a value that is not empty, and the values that were there are unchanged, in
    whatever order the map is visited. *)
Theorem secrets_obtained `{GoMapOrder} getSecret tries sec (w : W) sec' w' :
  secrets_Go getSecret tries sec w = (Some sec', w') -> forall k,
  match sec !! k with
  | Some None => exists v, sec' !! k = Some (Some v) /\ v <> ""
  | other => sec' !! k = other
  end.
Proof.
  intros E k. destruct (obtain_all_spec _ _ _ _ _ _ _ (map_order_keys sec) E k) as [H1 H2].
  pose proof (elem_of_map_order sec k None) as Hk.
  destruct (sec !! k) as [[v|]|] eqn:El.
  - apply H2. rewrite Hk. done.
  - apply H1. by rewrite Hk.
  - apply H2. rewrite Hk. done.
Qed.

(** The keys of a sandbox are found where they were put: the path that the proxy of
    the worker node makes of the pod VM's request for its private key is the one
    under which [InitPP] posted it, for every sandbox; and the request for the
    worker node's public key passes unchanged to where [InitSshClient] posted it. *)
Theorem key_paths_agree (kc : KbsClient) sid :
  resource_url kc (sidSecretPath sid) =
    kc_url kc +:+ urlModifier sid ("/kbs/v0/resource/default/" +:+ PP_PRIVATE_KEY) /\
  resource_url kc "default/sshclient/publicKey" =
    kc_url kc +:+ urlModifier sid ("/kbs/v0/resource/default/" +:+ WN_PUBLIC_KEY).
Proof.
  split; [|reflexivity]. unfold resource_url, sidSecretPath, urlModifier.
  change (HasSuffix ("/kbs/v0/resource/default/" +:+ PP_PRIVATE_KEY) PP_PRIVATE_KEY) with true.
  cbn iota. f_equal.
  change (Replace1 _ _ _) with ("/kbs/v0/resource/default/" +:+ (("pp-" +:+ sid +:+ "/") +:+ "privateKey")).
  rewrite !string_app_assoc. reflexivity.
Qed.

End Props.
