(* ===== verification/SecureBench.v ===== *)
(** * An executable outside for the secure communication

    Numbers as keys, a cluster whose secrets are key pairs, and a network on which a
    pod VM with a given host key and a worker node with a given key meet.  The
    theorems of the secure communication are applied on it. *)

From Stdlib Require Import ZArith Ascii String Lia.
From stdpp Require Import base gmap strings list.
From S2P Require Import Prelude NetAddr SshProxy SshProxyProps SecureComms SecureCommsProps.

Open Scope Z_scope.
Open Scope go_scope.

Definition bad {A} : result A := Err (Errorf "bad" []).
Definition of_option {A} (o : option A) : result A := match o with Some a => Ok a | None => bad end.

#[export] Instance number_keys : SshKeys := {
  PrivateKey := Z;
  PublicKey := Z;
  Signer := Z;
  MarshalPKCS1PrivateKey := to_text;
  pem_EncodeToMemory := fun type bytes => type +:+ ":" +:+ bytes;
  Key_Validate := fun _ => None;
  NewPublicKey := fun k => Ok (2 * k);
  MarshalAuthorizedKey := fun pk => "ssh-rsa " +:+ to_text pk;
  ParseAuthorizedKey := fun s => of_option (of_text (TrimPrefix s "ssh-rsa "));
  Key_Marshal := fun pk => "wire " +:+ to_text pk;
  ParsePrivateKey := fun s => of_option (of_text (TrimPrefix s "RSA PRIVATE KEY:"));
  Signer_PublicKey := fun s => 2 * s
}.

(** The keys by the name of their secret, the next key, the host key and the key of
    the client that the network shows. *)
Record outside := mkOutside {
  o_secrets : gmap string Z; o_next : Z; o_host : Z; o_client : option Z; o_ports : Z
}.

Record bench_conn := mkBenchConn { b_host : Z; b_client : option Z }.

Definition pair_of (k : Z) : gmap string string :=
  {["privateKey"%string := ("RSA PRIVATE KEY:" +:+ to_text k)%string;
    "publicKey"%string := ("ssh-rsa " +:+ to_text (2 * k))%string]}.

#[export] Instance outside_env : SecureEnv outside := {
  GenerateKey := fun _ w =>
    (Ok (o_next w), mkOutside (o_secrets w) (o_next w + 1) (o_host w) (o_client w) (o_ports w));
  Secrets_Get := fun _ n w =>
    (match o_secrets w !! n with Some k => Ok (pair_of k) | None => Err (APIStatus NotFound) end, w);
  Secrets_Create := fun _ n d w =>
    match ParsePrivateKey (default EmptyString (d !! "privateKey"%string)) with
    | Ok k => (None, mkOutside (<[n := k]> (o_secrets w)) (o_next w) (o_host w) (o_client w) (o_ports w))
    | Err e => (Some e, w)
    end;
  Secrets_Delete := fun _ n w =>
    (None, mkOutside (delete n (o_secrets w)) (o_next w) (o_host w) (o_client w) (o_ports w));
  EdKey := unit;
  ParseEdPrivateKeyFromPEM := fun _ => Ok tt;
  SignToken := fun _ => mret (Ok "token"%string);
  http_NewRequest := fun _ => None;
  http_Post := fun _ _ _ => mret (Ok (200, Ok EmptyString));
  http_Get := fun _ => mret (Ok (404, Ok EmptyString));
  NConn := unit;
  SshConn := bench_conn;
  DialTimeout := fun _ => mret (Ok tt);
  NConn_Close := fun _ => mret tt;
  NewClientConn := fun _ _ cb s w =>
    match cb (o_host w) with
    | None => (Ok (mkBenchConn (o_host w) (Some (Signer_PublicKey s))), w)
    | Some e => (Err e, w)
    end;
  conn_HostKey := b_host;
  Accept := mret (Ok tt);
  NewServerConn := fun _ cfg w =>
    match o_client w with
    | Some k => if bool_decide (PublicKeyCallback cfg = Some (Key_Marshal k))
                then (Ok (mkBenchConn 0 (Some k)), w) else (bad, w)
    | None => if NoClientAuth cfg then (Ok (mkBenchConn 0 None), w) else (bad, w)
    end;
  conn_ClientKey := b_client;
  SendRequest := fun _ _ payload => mret (mkAnswer true payload None);
  schedule := fun _ os => mret (os ++ [OReq (Some (mkRequest UPGRADE true "")); ODone]);
  retry_alive := mret true;
  os_ReadFile := fun _ => mret bad;
  os_Stat := fun _ => mret (Some (Sentinel "os.ErrNotExist"));
  os_Create := fun _ => mret None
}.

#[export] Instance outside_listen : ListenEnv outside := {
  Listener := Z;
  NS := unit;
  ListenTCP := fun p w =>
    if p =? 0 then (Ok (o_ports w), mkOutside (o_secrets w) (o_next w) (o_host w) (o_client w) (o_ports w + 1))
    else (Ok p, w);
  Listener_Port := fun p => Ok (FormatInt p);
  Listener_Close := fun _ => mret tt;
  ns_Open := fun _ => mret (Ok tt);
  ns_Run := fun _ m => m;
  ns_Close := fun _ => mret tt
}.

#[export, program] Instance outside_laws : SecureLaws outside.
Next Obligation.
  intros k pk [= <-]. exists k. split; [|done]. cbn [ParsePrivateKey number_keys].
  unfold RsaPrivateKeyPEM. cbn [pem_EncodeToMemory MarshalPKCS1PrivateKey number_keys].
  change ("RSA PRIVATE KEY" +:+ ":" +:+ to_text k) with ("RSA PRIVATE KEY:" +:+ to_text k).
  by rewrite TrimPrefix_app, of_to_text.
Qed.
Next Obligation.
  intros pk. cbn [ParseAuthorizedKey MarshalAuthorizedKey number_keys]. by rewrite TrimPrefix_app, of_to_text.
Qed.
Next Obligation. done. Qed.
Next Obligation. done. Qed.
Next Obligation. done. Qed.
Next Obligation. intros c a cb s w conn w'. cbn. destruct (cb (o_host w)) eqn:E; [done|]. by intros [= <- _]. Qed.
Next Obligation.
  intros c cfg w conn w'. cbn. destruct (o_client w) as [k|].
  - destruct (bool_decide _) eqn:E; [|done]. intros [= <- _]. cbn. by apply bool_decide_eq_true in E.
  - destruct (NoClientAuth cfg) eqn:E; [|done]. by intros [= <- _].
Qed.

Lemma outside_well_made name : secret_well_made (W := outside) name.
Proof.
  intros w priv pub w'. unfold ReadSecret, mbind, mret. cbn [Secrets_Get outside_env].
  destruct (o_secrets w !! name) as [k|]; [|done]. unfold pair_of. intros [= <- <- _].
  exists k, (2 * k). split_and!; [done| |].
  - rewrite lookup_insert_eq. done.
  - rewrite lookup_insert_ne by done. by rewrite lookup_singleton_eq.
Qed.

(** A worker node that serves the agent and lets the pod VM reach the key broker, and
    a sandbox on it. *)
Definition bare : outside := mkOutside ∅ 10 0 None 4000.
Definition wn_ins : list string := ["BOTH_PHASES:KATAAGENT:0"]%string.
Definition wn_outs : list string := ["ATTESTATION_PHASE:KBS:10.0.0.5:8080"]%string.

Definition kbs_client : KbsClient := mkKbsClient (W := outside) None "http://10.0.0.5:8080".
Definition wn_client : SshClient :=
  mkSshClient (W := outside) None 10 wn_ins wn_outs SSHPORT ("ssh-rsa " +:+ to_text 20).
Definition wn_made : outside := mkOutside {["sshclient"%string := 10]} 11 0 None 4000.
Definition sandbox_key : string := "RSA PRIVATE KEY:" +:+ to_text 11.
Definition bench_sandbox : SshClientInstance :=
  mkInstance "s1" ("wire " +:+ to_text 22) [] wn_client false
    [mkInbound "KATAAGENT" 4000 BOTH_PHASES] [mkOutbound "KBS" "10.0.0.5:8080" ATTESTATION_PHASE]
    {["KATAAGENT"%string := "4000"%string]}.
Definition sandbox_made : outside := mkOutside (<["pp-s1"%string := 11]> {["sshclient"%string := 10]}) 12 0 None 4001.
Definition delivered : PpSecrets :=
  {[PP_PRIVATE_KEY := Some sandbox_key; WN_PUBLIC_KEY := Some ("ssh-rsa " +:+ to_text 20)]}.

Lemma bench_InitSshClient : InitSshClient wn_ins wn_outs false "" SSHPORT bare = (Ok wn_client, wn_made).
Proof. vm_cast_no_check (eq_refl (Ok wn_client : result SshClient, wn_made)). Qed.

Lemma bench_InitPP : InitPP wn_client "s1" wn_made = (Return (Some bench_sandbox, sandbox_key), sandbox_made).
Proof. vm_cast_no_check (eq_refl (Return (Some bench_sandbox, sandbox_key), sandbox_made)). Qed.

Lemma keys_fit_witness :
  exists s, initKubernetesPhaseSshConfig delivered =
      Ok (mkServerConfig false (Some (Key_Marshal (Signer_PublicKey (sc_wnSigner wn_client)))) [s]) /\
    host_key_callback (ci_ppPublicKey bench_sandbox) (ci_ppPublicKey bench_sandbox) (Signer_PublicKey s) = None.
Proof.
  apply (keys_fit wn_ins wn_outs false "" SSHPORT bare wn_client wn_made "s1" wn_made bench_sandbox sandbox_key sandbox_made
           delivered (outside_well_made _) (outside_well_made _) bench_InitSshClient bench_InitPP); vm_compute; reflexivity.
Defined.

(** The pod VM shows its host key, and a client shows the worker node's key. *)
Definition meeting : outside := mkOutside ∅ 12 22 (Some 20) 4001.

Definition started_sandbox : SshClientInstance := with_phase (with_addrs bench_sandbox ["10.1.1.1:2222"%string]) true.

Lemma bench_Start : ci_Start ["10.1.1.1"%string] bench_sandbox meeting = (Return (None, started_sandbox), meeting).
Proof. vm_cast_no_check (eq_refl (Return (@None GoError, started_sandbox), meeting)). Qed.

Lemma kubernetes_phase_authenticated_witness :
  (exists conn w6 o, serve_peer started_sandbox (new_peer KUBERNETES "s1") conn w6 = (o, (StartKubernetes started_sandbox meeting).2) /\
     exists s, ParsePrivateKey sandbox_key = Ok s /\ Key_Marshal (conn_HostKey conn) = Key_Marshal (Signer_PublicKey s)) /\
  (exists e, (StartKubernetes started_sandbox bare).1 = Return (Some e)).
Proof.
  destruct (kubernetes_phase_authenticated (W := outside)) as [Hw _]. split; [|eexists; vm_compute; reflexivity].
  destruct (StartKubernetes started_sandbox meeting) as [r w] eqn:E. cbn [snd].
  destruct (Hw wn_client "s1"%string wn_made bench_sandbox sandbox_key sandbox_made _ _ _ _ _ _ _ bench_InitPP bench_Start E)
    as [[e He]|(conn & w6 & o & Eo & _ & _ & Hk)].
  - exfalso. assert (Hn : (StartKubernetes started_sandbox meeting).1 = Return None) by (vm_compute; reflexivity).
    rewrite E in Hn. cbn in Hn. congruence.
  - exists conn, w6, o. split; [exact Eo|]. exact (Hk (outside_well_made _)).
Defined.

Lemma upgrade_needed_witness :
  exists ci w, ci_Start ["10.1.1.1"%string] bench_sandbox meeting = (Return (None, ci), w) /\ ci_kubernetesPhase ci = true.
Proof. eexists _, _. split; [exact bench_Start|]. exact (proj1 (upgrade_needed _ _ _ _ _ bench_Start)). Defined.

Definition answers (key : string) : M outside (result string) := mret (Ok ("key of " +:+ key)).

Lemma secrets_obtained_witness :
  match secrets_Go answers 1 (AddKey PP_PRIVATE_KEY (AddKey WN_PUBLIC_KEY ∅)) bare with
  | (Some sec, _) => exists v, sec !! PP_PRIVATE_KEY = Some (Some v) /\ v <> ""
  | (None, _) => False
  end.
Proof.
  assert (Hr : match secrets_Go answers 1 (AddKey PP_PRIVATE_KEY (AddKey WN_PUBLIC_KEY ∅)) bare with
               | (Some _, _) => true | (None, _) => false end = true) by (vm_compute; reflexivity).
  destruct (secrets_Go answers 1 _ bare) as [[sec|] w] eqn:E; [|discriminate Hr].
  exact (secrets_obtained _ _ _ _ _ _ E PP_PRIVATE_KEY).
Defined.
