(* ===== verification/ProviderKit.v ===== *)
(** * Programs over a cloud SDK

    The providers of src/cloud-providers call the SDK of a cloud, return errors and
    dereference pointers that the SDK fills.  [G] is the monad of such programs:
    state passing, errors and panics; the calls that create or destroy something
    are recorded.  [wp] is the weakest precondition over what a program returns and
    records; its rules and the tactic [wp_run] prove the theorems of the
    providers. *)

From Stdlib Require Import ZArith Ascii String Lia.
From stdpp Require Import base gmap strings list.
From S2P Require Import Prelude.

Open Scope Z_scope.
Open Scope go_scope.

(** ** The monad *)

(** The SDK and the record of the calls. *)
Record sdk (W E : Type) := mkSdk { sdk_world : W; sdk_calls : list E }.
Arguments mkSdk {W E} sdk_world sdk_calls.
Arguments sdk_world {W E} s.
Arguments sdk_calls {W E} s.

Definition G (W E A : Type) : Type := M (sdk W E) (outcome (result A)).

Definition gret {W E A} (a : A) : G W E A := mret (Return (Ok a)).
Definition gfail {W E A} (e : GoError) : G W E A := mret (Return (Err e)).
Definition gpanic {W E A} : G W E A := mret Panic.

Definition gbind {W E A B} (m : G W E A) (k : A -> G W E B) : G W E B :=
  mbind m (fun r => match r with
                    | Panic => gpanic
                    | Return (Err e) => gfail e
                    | Return (Ok a) => k a
                    end).

(** The result or the error as a value, for the code that goes on after an error. *)
Definition gcatch {W E A} (m : G W E A) : G W E (result A) :=
  mbind m (fun r => match r with Panic => gpanic | Return r => gret r end).

(** An error wrapped by the caller. *)
Definition gwrap {W E A} (wrap : GoError -> GoError) (m : G W E A) : G W E A :=
  mbind m (fun r => match r with Return (Err e) => gfail (wrap e) | r => mret r end).

(** A call of the SDK with the record of what it did. *)
Definition gcall {W E A} (ev : A -> list E) (m : M W A) : M (sdk W E) A := fun s =>
  let '(a, w) := m (sdk_world s) in (a, mkSdk w (sdk_calls s ++ ev a)).

Definition ask {W E A} (m : M W (result A)) : G W E A :=
  mbind (gcall (fun _ => []) m) (fun r => mret (Return r)).

(** A call that changes the cloud: what is recorded depends on its answer. *)
Definition act {W E A} (ev : result A -> E) (m : M W (result A)) : G W E A :=
  mbind (gcall (fun r => [ev r]) m) (fun r => mret (Return r)).

Definition act_err {W E} (ev : option GoError -> E) (m : M W (option GoError)) : G W E unit :=
  mbind (gcall (fun r => [ev r]) m)
    (fun r => mret (Return (match r with None => Ok tt | Some e => Err e end))).

Definition ask_err {W E} (m : M W (option GoError)) : G W E unit :=
  mbind (gcall (fun _ => []) m)
    (fun r => mret (Return (match r with None => Ok tt | Some e => Err e end))).

(** [*p] and [l[0]] *)
Definition deref {W E A} (p : option A) : G W E A := match p with Some a => gret a | None => gpanic end.
Definition first {W E A} (l : list A) : G W E A := match l with a :: _ => gret a | [] => gpanic end.
Definition of_result {W E A} (r : result A) : G W E A := mret (Return r).
Definition of_outcome {W E A} (r : outcome A) : G W E A :=
  match r with Panic => gpanic | Return a => gret a end.

Notation "'do' x := m 'in' k" := (gbind m (fun x => k))
  (at level 200, x name, m at level 100, k at level 200,
   format "'[v' 'do'  x  :=  m  'in' '/' k ']'") : go_scope.
Notation "'do' x := m 'orelse' f 'in' k" := (gbind (gwrap f m) (fun x => k))
  (at level 200, x name, m at level 100, f at level 100, k at level 200) : go_scope.

(** One run of a bind. *)
Lemma gbind_run {W E A B} (m : G W E A) (k : A -> G W E B) s :
  gbind m k s = match m s with
                | (Return (Ok a), s') => k a s'
                | (Return (Err e), s') => (Return (Err e), s')
                | (Panic, s') => (Panic, s')
                end.
Proof. unfold gbind, mbind. by destruct (m s) as [[[a|e]|] s']. Qed.

(** ** Weakest preconditions *)

Definition wp {W E A} (m : G W E A) (Q : outcome (result A) -> list E -> Prop) : Prop := forall s,
  exists l, sdk_calls (m s).2 = sdk_calls s ++ l /\ Q (m s).1 l.

Lemma wp_mono {W E A} (m : G W E A) (Q R : outcome (result A) -> list E -> Prop) :
  wp m Q -> (forall r l, Q r l -> R r l) -> wp m R.
Proof. intros Hm HQ s. destruct (Hm s) as (l & ? & ?). eauto. Qed.

Lemma wp_mret {W E A} (r : outcome (result A)) (Q : _ -> list E -> Prop) : Q r [] -> wp (W := W) (mret r) Q.
Proof. intros HQ s. exists []. cbn. by rewrite app_nil_r. Qed.

Lemma wp_gret {W E A} (a : A) (Q : _ -> list E -> Prop) : Q (Return (Ok a)) [] -> wp (W := W) (gret a) Q.
Proof. apply wp_mret. Qed.

Lemma wp_gfail {W E A} e (Q : outcome (result A) -> list E -> Prop) : Q (Return (Err e)) [] -> wp (W := W) (gfail e) Q.
Proof. apply wp_mret. Qed.

Lemma wp_gpanic {W E A} (Q : outcome (result A) -> list E -> Prop) : Q Panic [] -> wp (W := W) gpanic Q.
Proof. apply wp_mret. Qed.

(** The rule for any continuation of a result. *)
Lemma wp_mbind {W E A B} (m : G W E A) (k : outcome (result A) -> G W E B) Q :
  wp m (fun r l1 => wp (k r) (fun r2 l2 => Q r2 (l1 ++ l2))) -> wp (mbind m k) Q.
Proof.
  intros Hm s. destruct (Hm s) as (l1 & E1 & H1). unfold mbind. destruct (m s) as [r s1]. cbn [fst snd] in *.
  destruct (H1 s1) as (l2 & E2 & H2). exists (l1 ++ l2). split; [|done]. by rewrite E2, E1, app_assoc.
Qed.

Lemma wp_gbind {W E A B} (m : G W E A) (k : A -> G W E B) Q :
  wp m (fun r l1 => match r with
                    | Panic => Q Panic l1
                    | Return (Err e) => Q (Return (Err e)) l1
                    | Return (Ok a) => wp (k a) (fun r2 l2 => Q r2 (l1 ++ l2))
                    end) -> wp (gbind m k) Q.
Proof.
  intros Hm. apply wp_mbind. eapply wp_mono; [exact Hm|]. intros [[a|e]|] l HQ; [done| |];
    apply wp_mret; by rewrite app_nil_r.
Qed.

Lemma wp_gcatch {W E A} (m : G W E A) Q :
  wp m (fun r l => match r with Panic => Q Panic l | Return r => Q (Return (Ok r)) l end) -> wp (gcatch m) Q.
Proof.
  intros Hm. apply wp_mbind. eapply wp_mono; [exact Hm|].
  intros [r|] l HQ; apply wp_mret; by rewrite app_nil_r.
Qed.

Lemma wp_gwrap {W E A} f (m : G W E A) Q :
  wp m (fun r l => match r with Return (Err e) => Q (Return (Err (f e))) l | r => Q r l end) -> wp (gwrap f m) Q.
Proof.
  intros Hm. apply wp_mbind. eapply wp_mono; [exact Hm|].
  intros [[a|e]|] l HQ; apply wp_mret; by rewrite app_nil_r.
Qed.

Lemma wp_ask {W E A} (m : M W (result A)) (Q : _ -> list E -> Prop) :
  (forall r, Q (Return r) []) -> wp (ask m) Q.
Proof.
  intros HQ s. unfold ask, gcall, mbind. destruct (m (sdk_world s)) as [r w]. exists []. cbn.
  by rewrite app_nil_r.
Qed.

Lemma wp_ask_err {W E} (m : M W (option GoError)) (Q : _ -> list E -> Prop) :
  Q (Return (Ok tt)) [] -> (forall e, Q (Return (Err e)) []) -> wp (ask_err m) Q.
Proof.
  intros HQ He s. unfold ask_err, gcall, mbind. destruct (m (sdk_world s)) as [[e|] w]; exists []; cbn;
    rewrite app_nil_r; auto.
Qed.

(** With what the call did. *)
Lemma wp_ask_err_run {W E} (m : M W (option GoError)) (Q : _ -> list E -> Prop) :
  (forall w w', m w = (None, w') -> Q (Return (Ok tt)) []) ->
  (forall w w' e, m w = (Some e, w') -> Q (Return (Err e)) []) -> wp (ask_err m) Q.
Proof.
  intros HQ He s. unfold ask_err, gcall, mbind. destruct (m (sdk_world s)) as [[e|] w] eqn:E'; exists []; cbn;
    rewrite app_nil_r; eauto.
Qed.

Lemma wp_ask_run {W E A} (m : M W (result A)) (Q : _ -> list E -> Prop) :
  (forall w w' r, m w = (r, w') -> Q (Return r) []) -> wp (ask m) Q.
Proof.
  intros HQ s. unfold ask, gcall, mbind. destruct (m (sdk_world s)) as [r w] eqn:E'. exists []. cbn.
  rewrite app_nil_r. eauto.
Qed.

Lemma wp_act {W E A} (ev : result A -> E) (m : M W (result A)) Q :
  (forall r, Q (Return r) [ev r]) -> wp (act ev m) Q.
Proof.
  intros HQ s. unfold act, gcall, mbind. destruct (m (sdk_world s)) as [r w]. exists [ev r]. by cbn.
Qed.

(** With what the call did. *)
Lemma wp_act_run {W E A} (ev : result A -> E) (m : M W (result A)) Q :
  (forall w w' r, m w = (r, w') -> Q (Return r) [ev r]) -> wp (act ev m) Q.
Proof.
  intros HQ s. unfold act, gcall, mbind. destruct (m (sdk_world s)) as [r w] eqn:E'. exists [ev r]. cbn. eauto.
Qed.

Lemma wp_act_err {W E} (ev : option GoError -> E) (m : M W (option GoError)) Q :
  Q (Return (Ok tt)) [ev None] -> (forall e, Q (Return (Err e)) [ev (Some e)]) -> wp (act_err ev m) Q.
Proof.
  intros HQ He s. unfold act_err, gcall, mbind. destruct (m (sdk_world s)) as [[e|] w]; eexists; cbn; eauto.
Qed.

Lemma wp_deref {W E A} (p : option A) (Q : _ -> list E -> Prop) :
  (forall a, p = Some a -> Q (Return (Ok a)) []) -> Q Panic [] -> wp (W := W) (deref p) Q.
Proof. intros Ha Hp. destruct p; [by apply wp_gret; auto|by apply wp_gpanic]. Qed.

Lemma wp_first {W E A} (l : list A) (Q : _ -> list E -> Prop) :
  (forall a r, l = a :: r -> Q (Return (Ok a)) []) -> Q Panic [] -> wp (W := W) (first l) Q.
Proof. intros Ha Hp. destruct l; [by apply wp_gpanic|eapply wp_gret; eauto]. Qed.

Lemma wp_of_result {W E A} (r : result A) (Q : _ -> list E -> Prop) :
  (forall a, r = Ok a -> Q (Return (Ok a)) []) -> (forall e, r = Err e -> Q (Return (Err e)) []) ->
  wp (W := W) (of_result r) Q.
Proof. intros Ha He. apply wp_mret. destruct r; auto. Qed.

Lemma wp_of_outcome {W E A} (r : outcome A) (Q : _ -> list E -> Prop) :
  (forall a, r = Return a -> Q (Return (Ok a)) []) -> Q Panic [] -> wp (W := W) (of_outcome r) Q.
Proof. intros Ha Hp. destruct r; [by apply wp_gret; auto|by apply wp_gpanic]. Qed.

(** Reading a result off a proved precondition. *)
Lemma wp_elim {W E A} (m : G W E A) Q s r s' :
  wp m Q -> m s = (r, s') -> exists l, sdk_calls s' = sdk_calls s ++ l /\ Q r l.
Proof. intros Hm Em. destruct (Hm s) as (l & H1 & H2). rewrite Em in H1, H2. eauto. Qed.

(** One rule at the head of the program; programs that are not taken apart (calls of
    functions with their own lemma) stay. *)
Ltac wp_step :=
  cbv beta;
  lazymatch goal with
  | |- wp (gret _) _ => apply wp_gret
  | |- wp (gfail _) _ => apply wp_gfail
  | |- wp gpanic _ => apply wp_gpanic
  | |- wp (gbind _ _) _ => apply wp_gbind
  | |- wp (gcatch _) _ => apply wp_gcatch
  | |- wp (gwrap _ _) _ => apply wp_gwrap
  | |- wp (ask _) _ => apply wp_ask; intros [?|?]
  | |- wp (ask_err _) _ => apply wp_ask_err; [|intros ?]
  | |- wp (act _ _) _ => apply wp_act; intros [?|?]
  | |- wp (act_err _ _) _ => apply wp_act_err; [|intros ?]
  | |- wp (deref _) _ => apply wp_deref; [intros ? ?|]
  | |- wp (first _) _ => apply wp_first; [intros ? ? ?|]
  | |- wp (of_result _) _ => apply wp_of_result; intros ? ?
  | |- wp (of_outcome _) _ => apply wp_of_outcome; [intros ? ?|]
  | |- wp (if ?b then _ else _) _ => destruct b eqn:?
  | |- wp (match ?x with _ => _ end) _ => destruct x eqn:?
  end; cbn [app].
Ltac wp_run := repeat wp_step.

(** ** Providers with fields

    A provider object that its methods change is a component [F] of the world.  [wpf]
    is the precondition that also speaks of these fields before and after. *)

Definition lift {W F A} (m : M W A) : M (W * F) A := fun d => let '(a, w) := m (fst d) in (a, (w, snd d)).

Definition get_fields {W F E} : G (W * F) E F := ask (fun d => (Ok (snd d), d)).
Definition put_fields {W F E} (f : F) : G (W * F) E unit := ask (fun d => (Ok tt, (fst d, f))).

Definition wpf {W F E A} (m : G (W * F) E A) (f : F) (Q : outcome (result A) -> F -> list E -> Prop) : Prop :=
  forall w l, exists l', sdk_calls (m (mkSdk (w, f) l)).2 = l ++ l' /\
    Q (m (mkSdk (w, f) l)).1 (snd (sdk_world (m (mkSdk (w, f) l)).2)) l'.

Section Fields.

Context {W F E : Type}.
Implicit Type (f : F).

Lemma wpf_mono {A} (m : G (W * F) E A) f (Q R : _ -> _ -> _ -> Prop) :
  wpf m f Q -> (forall r f' l, Q r f' l -> R r f' l) -> wpf m f R.
Proof. intros Hm HQ w l. destruct (Hm w l) as (l' & ? & ?). eauto. Qed.

Lemma wpf_mret {A} (r : outcome (result A)) f (Q : _ -> _ -> _ -> Prop) : Q r f [] -> wpf (W := W) (E := E) (mret r) f Q.
Proof. intros HQ w l. exists []. cbn. by rewrite app_nil_r. Qed.

Lemma wpf_mbind {A B} (m : G (W * F) E A) (k : outcome (result A) -> G (W * F) E B) f Q :
  wpf m f (fun r f1 l1 => wpf (k r) f1 (fun r2 f2 l2 => Q r2 f2 (l1 ++ l2))) -> wpf (mbind m k) f Q.
Proof.
  intros Hm w l. destruct (Hm w l) as (l1 & E1 & H1). unfold mbind.
  destruct (m (mkSdk (w, f) l)) as [r [[w1 f1] c1]]. cbn [fst snd sdk_calls sdk_world] in *.
  destruct (H1 w1 c1) as (l2 & E2 & H2). exists (l1 ++ l2). split; [|done]. by rewrite E2, E1, app_assoc.
Qed.

Lemma wpf_gbind {A B} (m : G (W * F) E A) (k : A -> G (W * F) E B) f Q :
  wpf m f (fun r f1 l1 => match r with
                          | Panic => Q Panic f1 l1
                          | Return (Err e) => Q (Return (Err e)) f1 l1
                          | Return (Ok a) => wpf (k a) f1 (fun r2 f2 l2 => Q r2 f2 (l1 ++ l2))
                          end) -> wpf (gbind m k) f Q.
Proof.
  intros Hm. apply wpf_mbind. eapply wpf_mono; [exact Hm|].
  intros [[a|e]|] f1 l HQ; [done| |]; apply wpf_mret; by rewrite app_nil_r.
Qed.

Lemma wpf_gcatch {A} (m : G (W * F) E A) f Q :
  wpf m f (fun r f1 l => match r with Panic => Q Panic f1 l | Return r => Q (Return (Ok r)) f1 l end) ->
  wpf (gcatch m) f Q.
Proof.
  intros Hm. apply wpf_mbind. eapply wpf_mono; [exact Hm|].
  intros [r|] f1 l HQ; apply wpf_mret; by rewrite app_nil_r.
Qed.

Lemma wpf_gwrap {A} g (m : G (W * F) E A) f Q :
  wpf m f (fun r f1 l => match r with Return (Err e) => Q (Return (Err (g e))) f1 l | r => Q r f1 l end) ->
  wpf (gwrap g m) f Q.
Proof.
  intros Hm. apply wpf_mbind. eapply wpf_mono; [exact Hm|].
  intros [[a|e]|] f1 l HQ; apply wpf_mret; by rewrite app_nil_r.
Qed.

Lemma wpf_ask {A} (m : M W (result A)) f (Q : _ -> _ -> list E -> Prop) :
  (forall r, Q (Return r) f []) -> wpf (ask (lift m)) f Q.
Proof.
  intros HQ w l. unfold ask, gcall, mbind, lift. cbn. destruct (m w) as [r w']. exists []. cbn. by rewrite app_nil_r.
Qed.

Lemma wpf_ask_run {A} (m : M W (result A)) f (Q : _ -> _ -> list E -> Prop) :
  (forall w w' r, m w = (r, w') -> Q (Return r) f []) -> wpf (ask (lift m)) f Q.
Proof.
  intros HQ w l. unfold ask, gcall, mbind, lift. cbn. destruct (m w) as [r w'] eqn:E'. exists []. cbn.
  rewrite app_nil_r. eauto.
Qed.

Lemma wpf_ask_err (m : M W (option GoError)) f (Q : _ -> _ -> list E -> Prop) :
  Q (Return (Ok tt)) f [] -> (forall e, Q (Return (Err e)) f []) -> wpf (ask_err (lift m)) f Q.
Proof.
  intros HQ He w l. unfold ask_err, gcall, mbind, lift. cbn. destruct (m w) as [[e|] w']; exists []; cbn;
    rewrite app_nil_r; auto.
Qed.

Lemma wpf_act {A} (ev : result A -> E) (m : M W (result A)) f (Q : _ -> _ -> list E -> Prop) :
  (forall r, Q (Return r) f [ev r]) -> wpf (act ev (lift m)) f Q.
Proof.
  intros HQ w l. unfold act, gcall, mbind, lift. cbn. destruct (m w) as [r w']. exists [ev r]. by cbn.
Qed.

Lemma wpf_act_err (ev : option GoError -> E) (m : M W (option GoError)) f (Q : _ -> _ -> list E -> Prop) :
  Q (Return (Ok tt)) f [ev None] -> (forall e, Q (Return (Err e)) f [ev (Some e)]) -> wpf (act_err ev (lift m)) f Q.
Proof.
  intros HQ He w l. unfold act_err, gcall, mbind, lift. cbn. destruct (m w) as [[e|] w']; eexists; cbn; eauto.
Qed.

Lemma wpf_get f (Q : _ -> _ -> list E -> Prop) : Q (Return (Ok f)) f [] -> wpf (W := W) get_fields f Q.
Proof. intros HQ w l. exists []. cbn. by rewrite !app_nil_r. Qed.

Lemma wpf_set f f' (Q : _ -> _ -> list E -> Prop) : Q (Return (Ok tt)) f' [] -> wpf (W := W) (put_fields f') f Q.
Proof. intros HQ w l. exists []. cbn. by rewrite !app_nil_r. Qed.

Lemma wpf_deref {A} (p : option A) f (Q : _ -> _ -> list E -> Prop) :
  (forall a, p = Some a -> Q (Return (Ok a)) f []) -> Q Panic f [] -> wpf (W := W) (deref p) f Q.
Proof. intros Ha Hp. destruct p; apply wpf_mret; auto. Qed.

Lemma wpf_first {A} (x : list A) f (Q : _ -> _ -> list E -> Prop) :
  (forall a r, x = a :: r -> Q (Return (Ok a)) f []) -> Q Panic f [] -> wpf (W := W) (first x) f Q.
Proof. intros Ha Hp. destruct x; apply wpf_mret; eauto. Qed.

Lemma wpf_of_result {A} (r : result A) f (Q : _ -> _ -> list E -> Prop) :
  (forall a, r = Ok a -> Q (Return (Ok a)) f []) -> (forall e, r = Err e -> Q (Return (Err e)) f []) ->
  wpf (W := W) (of_result r) f Q.
Proof. intros Ha He. apply wpf_mret. destruct r; auto. Qed.

Lemma wpf_of_outcome {A} (r : outcome A) f (Q : _ -> _ -> list E -> Prop) :
  (forall a, r = Return a -> Q (Return (Ok a)) f []) -> Q Panic f [] -> wpf (W := W) (of_outcome r) f Q.
Proof. intros Ha Hp. destruct r; apply wpf_mret; auto. Qed.

(** A program that records nothing and leaves the fields as they are. *)
Definition quiet {A} (m : G (W * F) E A) (R : A -> Prop) : Prop := forall f,
  wpf m f (fun r f' l => f' = f /\ l = [] /\ match r with Return (Ok a) => R a | _ => True end).

Lemma wpf_quiet {A} (m : G (W * F) E A) (R : A -> Prop) f (Q : _ -> _ -> list E -> Prop) :
  quiet m R -> (forall a, R a -> Q (Return (Ok a)) f []) -> (forall e, Q (Return (Err e)) f []) -> Q Panic f [] -> wpf m f Q.
Proof.
  intros Hm Ha He Hp. eapply wpf_mono; [apply Hm|]. intros [[a|e]|] f' l (-> & -> & HR); auto.
Qed.

Lemma wpf_elim {A} (m : G (W * F) E A) f Q w l r s' :
  wpf m f Q -> m (mkSdk (w, f) l) = (r, s') ->
  exists l' w' f', s' = mkSdk (w', f') (l ++ l') /\ Q r f' l'.
Proof.
  intros Hm Em. destruct (Hm w l) as (l' & H1 & H2). rewrite Em in H1, H2.
  destruct s' as [[w' f'] c]. cbn in *. subst. eauto.
Qed.

End Fields.

Ltac wpf_step :=
  cbv beta;
  lazymatch goal with
  | |- wpf (gret _) _ _ => apply wpf_mret
  | |- wpf (gfail _) _ _ => apply wpf_mret
  | |- wpf gpanic _ _ => apply wpf_mret
  | |- wpf (gbind _ _) _ _ => apply wpf_gbind
  | |- wpf (gcatch _) _ _ => apply wpf_gcatch
  | |- wpf (gwrap _ _) _ _ => apply wpf_gwrap
  | |- wpf (ask (lift _)) _ _ => apply wpf_ask; intros [?|?]
  | |- wpf (ask_err (lift _)) _ _ => apply wpf_ask_err; [|intros ?]
  | |- wpf (act _ (lift _)) _ _ => apply wpf_act; intros [?|?]
  | |- wpf (act_err _ (lift _)) _ _ => apply wpf_act_err; [|intros ?]
  | |- wpf get_fields _ _ => apply wpf_get
  | |- wpf (put_fields _) _ _ => apply wpf_set
  | |- wpf (deref _) _ _ => apply wpf_deref; [intros ? ?|]
  | |- wpf (first _) _ _ => apply wpf_first; [intros ? ? ?|]
  | |- wpf (of_result _) _ _ => apply wpf_of_result; intros ? ?
  | |- wpf (of_outcome _) _ _ => apply wpf_of_outcome; [intros ? ?|]
  | |- wpf (if ?b then _ else _) _ _ => destruct b eqn:?
  | |- wpf (match ?x with _ => _ end) _ _ => destruct x eqn:?
  end; cbn [app].
Ltac wpf_run := repeat wpf_step.
