(* ===== verification/Aws.v ===== *)
(** * The AWS provider

    Models src/cloud-providers/aws (provider.go, imds.go, types.go) over the client
    of EC2, which is the class [EC2]; pointers of its answers are options.  The
    calls that create or destroy something are recorded with their outcome. *)

From Stdlib Require Import ZArith Ascii String Lia.
From stdpp Require Import base gmap strings list.
From S2P Require Import Prelude InstanceTypes NetAddr Initdata ProviderKit.

Open Scope Z_scope.
Open Scope go_scope.

Definition maxInstanceNameLen : Z := 63.
Definition maxInt32 : Z := 2 ^ 31 - 1.

(** ** Configuration *)

Record Config := mkConfig {
  Region : string;
  LaunchTemplateName : string;
  ImageId : string;
  cfg_InstanceType : string;
  KeyName : string;
  SubnetId : string;
  SecurityGroupIds : list string;
  UseLaunchTemplate : bool;
  InstanceTypes : list string;
  InstanceTypeSpecList : list InstanceTypeSpec;
  Tags : gmap string string;
  UsePublicIP : bool;
  RootVolumeSize : Z;
  RootDeviceName : string;
  DisableCVM : bool
}.

(** The flags that hold lists. *)
Definition securityGroupIds_Set (value : string) (i : list string) : list string := i ++ split_on "," value.
Definition instanceTypes_Set (value : string) (i : list string) : list string :=
  if String.eqb value "" then [] else i ++ split_on "," value.

(** ** The client *)

Record RunInstancesInput := mkRun {
  ri_MinCount : Z;
  ri_MaxCount : Z;
  ri_LaunchTemplate : option string;
  ri_ImageId : option string;
  ri_InstanceType : string;
  ri_SecurityGroupIds : list string;
  ri_SubnetId : option string;
  ri_KeyName : option string;
  (** the interface with a public address: subnet and groups *)
  ri_NetworkInterfaces : option (string * list string);
  ri_AmdSevSnp : bool;
  ri_BlockDevice : option (string * Z);
  ri_UserData : string;
  ri_Tags : list (string * string)
}.

Record ec2Instance := mkEc2Instance { i_InstanceId : option string; i_PrivateIps : list (option string) }.

(** DefaultVCpus, SizeInMiB and the counts of the GPUs *)
Record typeInfo := mkTypeInfo { ti_VCpus : option Z; ti_Memory : option Z; ti_Gpus : option (list (option Z)) }.

Record image := mkImage { im_RootDeviceName : option string; im_EbsSizes : list (option (option Z)) }.

Record address := mkAddress {
  ad_InstanceId : option string; ad_AssociationId : string; ad_AllocationId : string; ad_PublicIp : option string
}.

Class EC2 (W : Type) := {
  RunInstances : RunInstancesInput -> M W (result (list ec2Instance));
  TerminateInstances : string -> M W (option GoError);
  DescribeInstanceTypes : string -> M W (result (list typeInfo));
  (** reservations, instances, interfaces, associations, address *)
  DescribeInstances : string -> M W (result (list (list (list (option (option string))))));
  DescribeImages : string -> M W (result (option (list image)));
  InstanceRunning_Wait : string -> M W (option GoError);
  CreateNetworkInterface : string -> list string -> string -> M W (result (option string));
  AttachNetworkInterface : string -> option string -> M W (result (option string));
  DeleteNetworkInterface : option string -> M W (option GoError);
  ModifyNetworkInterfaceAttribute : string -> option string -> M W (option GoError);
  (** allocation id and address *)
  AllocateAddress : string -> M W (result (option string * option string));
  AssociateAddress : option string -> option string -> M W (option GoError);
  ReleaseAddress : option string -> M W (option GoError);
  DescribeAddresses : string -> M W (result (list address));
  DisassociateAddress : string -> M W (option GoError);
  (** the metadata service *)
  imds_get : string -> M W (result string);
  Sscanf_key : string -> option string
}.

Inductive ec2_call :=
| Ran (input : RunInstancesInput) (r : result (list ec2Instance))
| Terminated (id : string) (e : option GoError)
| CreatedNIC (r : result (option string))
| AttachedNIC (id : string) (r : result (option string))
| DeletedNIC (nic : option string) (e : option GoError)
| ModifiedNIC (nic : option string) (e : option GoError)
| Allocated (r : result (option string * option string))
| Associated (e : option GoError)
| Disassociated (association : string) (e : option GoError)
| Released (allocation : option string) (e : option GoError).

Section Provider.

Context {W : Type} `{EC2 W} `{NetIP} `{GoMapOrder}.

Notation P A := (G W ec2_call A).

(** ** Addresses *)

Definition errNotReady : GoError := Sentinel "address not ready".

Definition not_ready (addr : option string) : bool :=
  match addr with
  | None => true
  | Some a => (String.eqb a "" || String.eqb a "0.0.0.0")%bool
  end.

(** The identifier of the instance is dereferenced by the log line of each address. *)
Fixpoint getIPs (id : option string) (nics : list (option string)) : P (list Addr) :=
  match nics with
  | [] => gret []
  | nic :: rest =>
      if not_ready nic then gfail errNotReady
      else
        match ParseAddr (default EmptyString nic) with
        | None => gfail (Errorf "failed to parse pod node IP %q: %w" [])
        | Some ip =>
            do i := deref id in
            do ips := getIPs id rest in
            gret (ip :: ips)
        end
  end.

Definition getPublicIP (instanceID : string) : P Addr :=
  do w := ask_err (InstanceRunning_Wait instanceID) in
  do rs := ask (DescribeInstances instanceID) in
  do reservation := first rs in
  do instance := first reservation in
  do interface := first instance in
  do publicIP := deref interface in
  match publicIP with
  | None => gfail (Sentinel "public IP address is nil")
  | Some a =>
      if String.eqb a "" then gfail (Sentinel "public IP address is empty")
      else match ParseAddr a with
           | Some ip => gret ip
           | None => gfail (Errorf "ParseAddr" [])
           end
  end.

(** ** The second interface and its address *)

(** The interface is deleted again only when it could not be attached. *)
Definition createAddonNICforInstance (cfg : Config) (instanceID : string) : P (option string) :=
  do nic := act CreatedNIC (CreateNetworkInterface (SubnetId cfg) (SecurityGroupIds cfg) ("nic-" +:+ instanceID))
    orelse (fun _ => Errorf "failed to create a network interface: %v" []) in
  do w := ask_err (InstanceRunning_Wait instanceID) in
  do attached := gcatch (act (AttachedNIC instanceID) (AttachNetworkInterface instanceID nic)) in
  match attached with
  | Err _ =>
      do d := gcatch (act_err (DeletedNIC nic) (DeleteNetworkInterface nic)) in
      gfail (Errorf "failed to attach a network interface: %v" [])
  | Ok None => gfail (Errorf "AttachmentId is nil" [])
  | Ok (Some attachment) =>
      do m := act_err (ModifiedNIC nic) (ModifyNetworkInterfaceAttribute attachment nic)
        orelse (fun _ => Errorf "failed to modify the network interface attribute: %v" []) in
      do n := deref nic in
      gret nic
  end.

Definition createElasticIPforInstance (instanceID : string) (nIfaceId : option string) : P unit :=
  do eip := act Allocated (AllocateAddress ("eip-" +:+ instanceID))
    orelse (fun _ => Errorf "failed to allocate an Elastic IP address: %v" []) in
  do w := ask_err (InstanceRunning_Wait instanceID) in
  do a := gcatch (act_err Associated (AssociateAddress (fst eip) nIfaceId)) in
  match a with
  | Err _ =>
      do r := gcatch (act_err (Released (fst eip)) (ReleaseAddress (fst eip))) in
      gfail (Errorf "failed to associate an Elastic IP address with the instance: %v" [])
  | Ok _ =>
      do publicIp := deref (snd eip) in
      gret tt
  end.

Definition of_instance (instanceID : string) (addr : address) : bool :=
  match ad_InstanceId addr with Some i => String.eqb i instanceID | None => false end.

Fixpoint release_all (instanceID : string) (addrs : list address) : P unit :=
  match addrs with
  | [] => gret tt
  | addr :: rest =>
      if of_instance instanceID addr then
        do d := act_err (Disassociated (ad_AssociationId addr)) (DisassociateAddress (ad_AssociationId addr))
          orelse (fun _ => Errorf "failed to disassociate the Elastic IP address: %v" []) in
        do r := act_err (Released (Some (ad_AllocationId addr))) (ReleaseAddress (Some (ad_AllocationId addr)))
          orelse (fun _ => Errorf "failed to release the Elastic IP address: %v" []) in
        do p := deref (ad_PublicIp addr) in
        release_all instanceID rest
      else release_all instanceID rest
  end.

Definition deleteElasticIPforInstance (instanceID : string) : P unit :=
  do addrs := ask (DescribeAddresses instanceID)
    orelse (fun _ => Errorf "failed to describe the Elastic IP addresses: %v for instance: %s" []) in
  release_all instanceID addrs.

(** ** Instances *)

Definition selectInstanceType (cfg : Config) (spec : InstanceTypeSpec) : result string :=
  SelectInstanceTypeToUse spec (InstanceTypeSpecList cfg) (InstanceTypes cfg) (cfg_InstanceType cfg).

Definition instance_tags (cfg : Config) (instanceName : string) : list (string * string) :=
  ("Name"%string, instanceName) :: map_order (Tags cfg).

(** The request for a launch template, and the one spelt out. *)
Definition template_input (cfg : Config) (userData : string) (tags : list (string * string)) : RunInstancesInput :=
  mkRun 1 1 (Some (LaunchTemplateName cfg)) None "" [] None None None false None userData tags.

Definition plain_input (cfg : Config) (spec : InstanceTypeSpec) (instanceType userData : string)
    (tags : list (string * string)) : RunInstancesInput :=
  let imageId := if nonempty (Image spec) then Image spec else ImageId cfg in
  let public := UsePublicIP cfg in
  mkRun 1 1 None (Some imageId) instanceType
    (if public then [] else SecurityGroupIds cfg)
    (if public then None else Some (SubnetId cfg))
    (if nonempty (KeyName cfg) then Some (KeyName cfg) else None)
    (if public then Some (SubnetId cfg, SecurityGroupIds cfg) else None)
    (negb (DisableCVM cfg)) None userData tags.

(** [int32(x)] *)
Definition to_int32 (z : Z) : Z := (z + 2 ^ 31) mod 2 ^ 32 - 2 ^ 31.

Definition with_volume (cfg : Config) (i : RunInstancesInput) : RunInstancesInput :=
  if 0 <? RootVolumeSize cfg
  then mkRun (ri_MinCount i) (ri_MaxCount i) (ri_LaunchTemplate i) (ri_ImageId i) (ri_InstanceType i) (ri_SecurityGroupIds i) (ri_SubnetId i)
         (ri_KeyName i) (ri_NetworkInterfaces i) (ri_AmdSevSnp i)
         (Some (RootDeviceName cfg, to_int32 (RootVolumeSize cfg))) (ri_UserData i) (ri_Tags i)
  else i.

Definition run_input (cfg : Config) (spec : InstanceTypeSpec) (instanceType userData : string)
    (tags : list (string * string)) : RunInstancesInput :=
  with_volume cfg
    (if UseLaunchTemplate cfg then template_input cfg userData tags
     else plain_input cfg spec instanceType userData tags).

(** [ips[0] = a] *)
Definition set_first (ips : list Addr) (a : Addr) : P (list Addr) :=
  match ips with [] => gpanic | _ :: rest => gret (a :: rest) end.

(** The public address replaces the first one. *)
Definition public_addresses (cfg : Config) (instanceID : string) (ips : list Addr) : P (list Addr) :=
  if UsePublicIP cfg then do a := getPublicIP instanceID in set_first ips a else gret ips.

Definition addon_nic (cfg : Config) (spec : InstanceTypeSpec) (instanceID : string) : P unit :=
  if MultiNic spec then
    do nic := createAddonNICforInstance cfg instanceID in
    if UsePublicIP cfg then createElasticIPforInstance instanceID nic else gret tt
  else gret tt.

Definition CreateInstance (lower : Z -> Z) (cfg : Config) (podName sandboxID : string) (cloudConfig : result string)
    (spec : InstanceTypeSpec) : P (Instance Addr) :=
  do instanceName := of_outcome (GenerateInstanceName lower podName sandboxID maxInstanceNameLen) in
  do cloudConfigData := of_result cloudConfig in
  do instanceType := of_result (selectInstanceType cfg spec) in
  let input := run_input cfg spec instanceType (EncodeToString cloudConfigData) (instance_tags cfg instanceName) in
  do out := act (Ran input) (RunInstances input) orelse (fun e => Errorf "creating instance %s (%v): %w" [e]) in
  do instance := first out in
  do instanceID := deref (i_InstanceId instance) in
  do ips := getIPs (i_InstanceId instance) (i_PrivateIps instance) in
  do ips := public_addresses cfg instanceID ips in
  do n := addon_nic cfg spec instanceID in
  gret (mkInstance instanceID instanceName ips).

Definition DeleteInstance (instanceID : string) : P unit :=
  do e := gcatch (deleteElasticIPforInstance instanceID) in
  act_err (Terminated instanceID) (TerminateInstances instanceID).

Definition ConfigVerifier (cfg : Config) : option GoError :=
  if String.eqb (ImageId cfg) "" then Some (Sentinel "ImageId is empty") else None.

(** ** Construction *)

Definition gpu_sum (l : list (option Z)) : option Z :=
  foldr (fun g acc => match g, acc with Some g, Some a => Some (g + a) | _, _ => None end) (Some 0) l.

Definition getInstanceTypeInformation (instanceType : string) : P (Z * Z * Z) :=
  do l := ask (DescribeInstanceTypes instanceType) in
  match l with
  | [] => gfail (Sentinel "instance type not found")
  | info :: _ =>
      do vcpu := deref (ti_VCpus info) in
      do memory := deref (ti_Memory info) in
      do gpus := deref (match ti_Gpus info with None => Some 0 | Some l => gpu_sum l end) in
      gret (vcpu, memory, gpus)
  end.

Fixpoint describe_types (ts : list string) : P (list InstanceTypeSpec) :=
  match ts with
  | [] => gret []
  | t :: rest =>
      do i := getInstanceTypeInformation t in
      do l := describe_types rest in
      let '(vcpus, memory, gpus) := i in
      gret (mkSpec t vcpus memory "" gpus "" false :: l)
  end.

Definition updateInstanceTypeSpecList `{SortSlice} (cfg : Config) : P Config :=
  let instanceTypes := match InstanceTypes cfg with [] => [cfg_InstanceType cfg] | l => l end in
  do l := describe_types instanceTypes in
  gret (mkConfig (Region cfg) (LaunchTemplateName cfg) (ImageId cfg) (cfg_InstanceType cfg) (KeyName cfg)
          (SubnetId cfg) (SecurityGroupIds cfg) (UseLaunchTemplate cfg) (InstanceTypes cfg)
          (SortInstanceTypesOnResources l) (Tags cfg) (UsePublicIP cfg) (RootVolumeSize cfg)
          (RootDeviceName cfg) (DisableCVM cfg)).

Definition getDeviceNameAndSize (imageID : string) : P (string * Z) :=
  do out := ask (DescribeImages imageID) in
  match out with
  | None | Some [] => gfail (Sentinel "unable to get image details")
  | Some (im :: _) =>
      match im_RootDeviceName im with
      | None => gfail (Sentinel "empty device name")
      | Some name =>
          if String.eqb name "" then gfail (Sentinel "empty device name")
          else
            do mapping := first (im_EbsSizes im) in
            do size := deref mapping in
            gret (name, default 0 size)
      end
  end.

(** The size of the root volume: at least that of the image, at most 2^31-1. *)
Definition volume_size (configured device : Z) : Z :=
  let size := if configured <? device then device else configured in
  if maxInt32 <? size then maxInt32 else size.

Definition with_root (cfg : Config) (name : string) (size : Z) : Config :=
  mkConfig (Region cfg) (LaunchTemplateName cfg) (ImageId cfg) (cfg_InstanceType cfg) (KeyName cfg)
    (SubnetId cfg) (SecurityGroupIds cfg) (UseLaunchTemplate cfg) (InstanceTypes cfg)
    (InstanceTypeSpecList cfg) (Tags cfg) (UsePublicIP cfg) size name (DisableCVM cfg).

(** [NewProvider] from the client on. *)
Definition NewProvider `{SortSlice} (cfg : Config) : P Config :=
  do cfg := (if 0 <? RootVolumeSize cfg then
               do d := getDeviceNameAndSize (ImageId cfg) in
               gret (with_root cfg (fst d) (volume_size (RootVolumeSize cfg) (snd d)))
             else gret cfg) in
  updateInstanceTypeSpecList cfg.

(** *** Missing configuration, from the metadata service *)

Definition set_fields (cfg : Config) (region key subnet : string) (groups : list string) : Config :=
  mkConfig region (LaunchTemplateName cfg) (ImageId cfg) (cfg_InstanceType cfg) key
    subnet groups (UseLaunchTemplate cfg) (InstanceTypes cfg)
    (InstanceTypeSpecList cfg) (Tags cfg) (UsePublicIP cfg) (RootVolumeSize cfg) (RootDeviceName cfg) (DisableCVM cfg).

(** [strings.Fields] *)
Definition Fields (s : string) : list string :=
  List.filter nonempty (split_on " " (String.string_of_list_ascii
    (map (fun c => if is_space c then " "%char else c) (String.list_ascii_of_string s)))).

(** What is missing is asked for in order; the first error ends it, but an error for
    the key does not count.  The configuration keeps what was found before. *)
Definition retrieveMissingConfig (cfg : Config) : M W (option GoError * Config) :=
  let* m := imds_get "mac" in
  let mac := match m with Ok mac => mac | Err _ => EmptyString end in
  let* s := if String.eqb (SubnetId cfg) "" then imds_get ("network/interfaces/macs/" +:+ mac +:+ "/subnet-id")
            else mret (Ok (SubnetId cfg)) in
  match s with
  | Err e => mret (Some e, cfg)
  | Ok subnet =>
      let cfg := set_fields cfg (Region cfg) (KeyName cfg) subnet (SecurityGroupIds cfg) in
      let* r := if String.eqb (Region cfg) "" then imds_get "placement/region" else mret (Ok (Region cfg)) in
      match r with
      | Err e => mret (Some e, cfg)
      | Ok region =>
          let cfg := set_fields cfg region (KeyName cfg) (SubnetId cfg) (SecurityGroupIds cfg) in
          let* k := if String.eqb (KeyName cfg) "" then
                      let* k := imds_get "public-keys" in
                      mret (default EmptyString (Sscanf_key (match k with Ok raw => raw | Err _ => EmptyString end)))
                    else mret (KeyName cfg) in
          let cfg := set_fields cfg (Region cfg) k (SubnetId cfg) (SecurityGroupIds cfg) in
          match SecurityGroupIds cfg with
          | _ :: _ => mret (None, cfg)
          | [] =>
              let* g := imds_get ("network/interfaces/macs/" +:+ mac +:+ "/security-group-ids") in
              mret match g with
                   | Err e => (Some e, cfg)
                   | Ok ids => (None, set_fields cfg (Region cfg) (KeyName cfg) (SubnetId cfg) (Fields ids))
                   end
          end
      end
  end.

End Provider.
