(* ===== verification/AwsProps.v ===== *)
(** * Theorems of the AWS provider

    - A launch asks for exactly one instance, confidential unless configured
      otherwise, with the cloud-config as user data and an allowed type.
    - A failure after the launch leaves the instance running.
    - Deletion always reaches the termination of exactly that instance.
    - The size of the root volume fits the 32 bits of the SDK. *)

From Stdlib Require Import ZArith Ascii String Lia.
From stdpp Require Import base gmap strings list sorting.
From S2P Require Import Prelude InstanceTypes NetAddr Initdata ProviderKit Aws.

Open Scope Z_scope.
Open Scope go_scope.

Section Props.

Context {W : Type} `{EC2 W} `{NetIP} `{GoMapOrder}.

Definition is_run (c : ec2_call) : bool := match c with Ran _ _ => true | _ => false end.
Definition is_terminate (c : ec2_call) : bool := match c with Terminated _ _ => true | _ => false end.

(** Neither launches nor terminates. *)
Definition side_calls (l : list ec2_call) : Prop :=
  Forall (fun c => is_run c = false /\ is_terminate c = false) l.

Ltac side := by repeat constructor.

Lemma side_app l1 l2 : side_calls l1 -> side_calls l2 -> side_calls (l1 ++ l2).
Proof. intros. by apply Forall_app. Qed.

Lemma getIPs_quiet id nics : wp (W := W) (getIPs id nics) (fun _ l => l = []).
Proof.
  induction nics as [|nic nics IH]; cbn [getIPs]; wp_run; try done.
  eapply wp_mono; [exact IH|]. intros [[ips|e]|] l ->; [|done..]. by wp_run.
Qed.

Lemma getPublicIP_quiet id : wp (W := W) (getPublicIP id) (fun _ l => l = []).
Proof. unfold getPublicIP. wp_run; done. Qed.

Lemma addresses_quiet cfg id ips : wp (W := W) (public_addresses cfg id ips) (fun _ l => l = []).
Proof.
  unfold public_addresses. wp_run; [|done]. eapply wp_mono; [apply getPublicIP_quiet|].
  intros [[a|e]|] l ->; [|done..]. unfold set_first. by wp_run.
Qed.

Lemma addon_side cfg spec id : wp (W := W) (addon_nic cfg spec id) (fun _ l => side_calls l).
Proof.
  unfold addon_nic, createAddonNICforInstance, createElasticIPforInstance. wp_run; side.
Qed.

(** What an instance that was asked for looks like. *)
Definition launches (cfg : Config) (spec : InstanceTypeSpec) (data instanceType name : string)
    (input : RunInstancesInput) : Prop :=
  input = run_input cfg spec instanceType (EncodeToString data) (instance_tags cfg name) /\
  selectInstanceType cfg spec = Ok instanceType.

Ltac launched :=
  split; [first [done|side]|]; split;
  [eexists _, _, _; split_and!; [eassumption|eassumption|split; [reflexivity|eassumption]|naive_solver]|split; [naive_solver|by eauto]].

Lemma CreateInstance_wp lower cfg podName sandboxID cc spec :
  wp (W := W) (CreateInstance lower cfg podName sandboxID cc spec) (fun r l =>
    match l with
    | [] => ~ exists i, r = Return (Ok i)
    | Ran input out :: rest =>
        side_calls rest /\
        (exists name data t, GenerateInstanceName lower podName sandboxID maxInstanceNameLen = Return name /\
           cc = Ok data /\ launches cfg spec data t name input /\
           forall i, r = Return (Ok i) -> Name i = name) /\
        (forall i, r = Return (Ok i) -> exists inst more, out = Ok (inst :: more) /\ i_InstanceId inst = Some (ID i)) /\
        (exists w w', RunInstances input w = (out, w'))
    | _ :: _ => False
    end).
Proof.
  unfold CreateInstance.
  repeat lazymatch goal with |- wp (act (Ran _) _) _ => apply wp_act_run; intros ? ? [?|?] ?; cbn [app] | _ => wp_step end;
    try (by intros [? [=]]).
  - eapply wp_mono; [apply getIPs_quiet|]. intros [[ips|e]|] l ->; cbn [app]; wp_run; [|launched..].
    eapply wp_mono; [apply addresses_quiet|]. intros [[ips2|e]|] l ->; cbn [app]; wp_run; [|launched..].
    eapply wp_mono; [apply addon_side|]. intros [[[]|e]|] l Hl; cbn [app]; wp_run; rewrite ?app_nil_r; launched.
  - launched.
  - launched.
  - launched.
Qed.

Lemma run_input_fields cfg spec t data tags :
  let i := run_input cfg spec t data tags in
  ri_MinCount i = 1 /\ ri_MaxCount i = 1 /\ ri_UserData i = data /\ ri_Tags i = tags /\
  (UseLaunchTemplate cfg = false ->
     ri_AmdSevSnp i = negb (DisableCVM cfg) /\ ri_InstanceType i = t /\
     ri_ImageId i = Some (if nonempty (Image spec) then Image spec else ImageId cfg)).
Proof.
  unfold run_input, with_volume. destruct (UseLaunchTemplate cfg), (0 <? RootVolumeSize cfg); by cbn.
Qed.

(** The instances that a sequence of calls has started. *)
Definition instances_of (c : ec2_call) : list ec2Instance := match c with Ran _ (Ok l) => l | _ => [] end.
Definition instances_started (l : list ec2_call) : list ec2Instance := concat (map instances_of l).

Lemma side_starts_none l : side_calls l -> instances_started l = [].
Proof. unfold instances_started. induction 1 as [|c l [Hc _] _ IH]; [done|]. cbn. rewrite IH. by destruct c. Qed.

(** C30: A launch, on a service that does not start more instances than the maximum of the
    request: at most one request per call, for exactly one instance, and at most one
    instance is started; its user data is the cloud-config; unless a launch template is
    used, the instance is a confidential one exactly when that is not disabled, its image
    is that of the pod or else the configured one, and its type is the default or one of
    the configured types; and what is returned on success is the instance that was
    started. *)
Theorem aws_launch lower cfg podName sandboxID cc spec (s : sdk W ec2_call) r s' :
  (forall input w out w', RunInstances input w = (Ok out, w') -> (length out <= Z.to_nat (ri_MaxCount input))%nat) ->
  CreateInstance lower cfg podName sandboxID cc spec s = (r, s') ->
  exists l, sdk_calls s' = sdk_calls s ++ l /\ (length (List.filter is_run l) <= 1)%nat /\ (length (instances_started l) <= 1)%nat /\
    (forall input out, Ran input out ∈ l ->
       ri_MinCount input = 1 /\ ri_MaxCount input = 1 /\
       (exists data, cc = Ok data /\ DecodeString (ri_UserData input) = Ok data) /\
       (UseLaunchTemplate cfg = false ->
          ri_AmdSevSnp input = negb (DisableCVM cfg) /\
          ri_ImageId input = Some (if nonempty (Image spec) then Image spec else ImageId cfg) /\
          (ri_InstanceType input = cfg_InstanceType cfg \/ ri_InstanceType input ∈ InstanceTypes cfg))) /\
    (forall i, r = Return (Ok i) -> exists input inst,
       Ran input (Ok [inst]) ∈ l /\ instances_started l = [inst] /\ i_InstanceId inst = Some (ID i)).
Proof.
  intros Hcount E. destruct (wp_elim _ _ _ _ _ (CreateInstance_wp lower cfg podName sandboxID cc spec) E) as (l & El & Hl).
  exists l. split; [done|]. destruct l as [|[input out| | | | | | | | |] rest]; try done.
  { split; [cbn; lia|]. split; [cbn; lia|]. split; [by intros ? ? ?%elem_of_nil|]. intros i ->. destruct Hl. by exists i. }
  destruct Hl as (Hs & (name & data & t & _ & Hcc & [-> Ht] & _) & Hi & w & w' & Hrun).
  destruct (run_input_fields cfg spec t (EncodeToString data) (instance_tags cfg name)) as (Hmin & Hmax & Hu & _ & Hf).
  set (input := run_input _ _ _ _ _) in *.
  assert (Hrest : List.filter is_run rest = []).
  { clear -Hs. induction Hs as [|c l [Hc _] _ IH]; [done|]. cbn. by rewrite Hc. }
  assert (Hst : instances_started (Ran input out :: rest) = instances_of (Ran input out)).
  { unfold instances_started. cbn [map concat]. fold (instances_started rest). by rewrite (side_starts_none rest Hs), app_nil_r. }
  assert (Hone : (length (instances_of (Ran input out)) <= 1)%nat).
  { destruct out as [out|]; cbn; [|lia]. specialize (Hcount _ _ _ _ Hrun). rewrite Hmax in Hcount. lia. }
  split_and!.
  - cbn [List.filter is_run length]. rewrite Hrest. cbn. lia.
  - by rewrite Hst.
  - intros input' out' [[= -> ->]|Hin]%elem_of_cons.
    2:{ unfold side_calls in Hs. rewrite Forall_forall in Hs. by destruct (Hs _ Hin). }
    split_and!; [done..|exists data; by rewrite Hu, DecodeString_Encode|]. intros Hlt. destruct (Hf Hlt) as (-> & -> & ->).
    split_and!; [done..|]. by apply (selected_allowed spec (InstanceTypeSpecList cfg)).
  - intros i Hr. destruct (Hi i Hr) as (inst & more & -> & Hid). cbn in Hone. destruct more; [|cbn in Hone; lia].
    exists input, inst. split_and!; [by left|exact Hst|done].
Qed.

(** A launch whose first interface has no address yet: the call fails and the instance
    keeps running, although the caller gets no identifier with which to delete
    it. *)
Theorem aws_launch_leaks lower cfg podName sandboxID data spec (s : sdk W ec2_call) name t id nics more w :
  let input := run_input cfg spec t (EncodeToString data) (instance_tags cfg name) in
  GenerateInstanceName lower podName sandboxID maxInstanceNameLen = Return name ->
  selectInstanceType cfg spec = Ok t ->
  RunInstances input (sdk_world s) = (Ok (mkEc2Instance (Some id) (None :: nics) :: more), w) ->
  CreateInstance lower cfg podName sandboxID (Ok data) spec s =
    (Return (Err errNotReady),
     mkSdk w (sdk_calls s ++ [Ran input (Ok (mkEc2Instance (Some id) (None :: nics) :: more))])).
Proof.
  intros input Hn Ht Hr. unfold CreateInstance. rewrite Hn, Ht. fold input.
  cbn [of_outcome]. unfold gbind at 1 2 3, gret, of_result, mret, mbind at 1 2 3.
  unfold gbind at 1, gwrap, act, gcall, mbind. fold input. by rewrite Hr.
Qed.

(** ** Deletion *)

Lemma release_all_side id addrs : wp (W := W) (release_all id addrs) (fun _ l => side_calls l).
Proof.
  induction addrs as [|a addrs IH]; cbn [release_all]; wp_run; try side; try exact IH.
  eapply wp_mono; [exact IH|]. intros r l Hl. by repeat constructor.
Qed.

Lemma DeleteInstance_wp id :
  wp (W := W) (DeleteInstance id) (fun r l =>
    match r with
    | Panic => side_calls l
    | Return r => exists l1, side_calls l1 /\
        l = l1 ++ [Terminated id (match r with Ok _ => None | Err e => Some e end)]
    end).
Proof.
  unfold DeleteInstance, deleteElasticIPforInstance. wp_run.
  - eapply wp_mono; [apply release_all_side|]. intros [r0|] l Hl; [|done]. wp_run; by exists l.
  - exists []. by split; [constructor|].
  - exists []. by split; [constructor|].
Qed.

(** Deletion: whatever the addresses of the instance are and whether or not they can
    be released, exactly that instance is terminated, as the last call, and its
    error is what is returned (a nil address in the answer panics before). *)
Theorem aws_delete id (s : sdk W ec2_call) r s' :
  DeleteInstance id s = (r, s') ->
  exists l, sdk_calls s' = sdk_calls s ++ l /\
    match r with
    | Panic => side_calls l
    | Return r => exists l1, side_calls l1 /\
        l = l1 ++ [Terminated id (match r with Ok _ => None | Err e => Some e end)]
    end.
Proof.
  intros E. exact (wp_elim _ _ _ _ _ (DeleteInstance_wp id) E).
Qed.

(** ** Sizes *)

Lemma volume_size_bounds c d : 0 < c ->
  0 < volume_size c d <= maxInt32 /\ (d <= maxInt32 -> d <= volume_size c d) /\
  (c <= maxInt32 -> c <= volume_size c d).
Proof.
  intros Hc. unfold volume_size. change maxInt32 with 2147483647.
  destruct (Z.ltb_spec c d); [destruct (Z.ltb_spec 2147483647 d)|destruct (Z.ltb_spec 2147483647 c)]; lia.
Qed.

Lemma volume_size_max c d : volume_size c d = Z.min (Z.max d c) maxInt32.
Proof.
  unfold volume_size. change maxInt32 with 2147483647.
  destruct (Z.ltb_spec c d); [destruct (Z.ltb_spec 2147483647 d)|destruct (Z.ltb_spec 2147483647 c)]; lia.
Qed.

Lemma to_int32_id z : 0 <= z <= maxInt32 -> to_int32 z = z.
Proof. unfold to_int32, maxInt32. intros Hz. rewrite Z.mod_small; lia. Qed.

Lemma describe_types_wp ts :
  wp (W := W) (describe_types ts) (fun r _ => forall specs, r = Return (Ok specs) -> map InstanceType specs = ts).
Proof.
  induction ts as [|t ts IH]; cbn [describe_types]; unfold getInstanceTypeInformation; wp_run; try done.
  { intros specs [= <-]. done. }
  eapply wp_mono; [exact IH|]. intros [[specs|e]|] calls Hl; [|done..]. wp_run.
  intros specs' [= <-]. cbn. by rewrite (Hl specs).
Qed.

(** What the rest of the code reads of a provider. *)
Lemma update_wp `{SortSlice} cfg :
  wp (W := W) (updateInstanceTypeSpecList cfg) (fun r _ => forall cfg', r = Return (Ok cfg') ->
    RootVolumeSize cfg' = RootVolumeSize cfg /\ RootDeviceName cfg' = RootDeviceName cfg /\
    StronglySorted (fun x y => lessResources y x = false) (InstanceTypeSpecList cfg') /\
    map InstanceType (InstanceTypeSpecList cfg') ≡ₚ
      match InstanceTypes cfg with [] => [cfg_InstanceType cfg] | l => l end).
Proof.
  unfold updateInstanceTypeSpecList. apply wp_gbind. eapply wp_mono; [apply describe_types_wp|].
  intros [[specs|e]|] l Hl; [|done..]. wp_run. intros cfg' [= <-]. cbn.
  split_and!; [done|done|apply sort_Slice_sorted, lessResources_order|].
  rewrite <- (Hl specs) by done. apply Permutation_map. apply sort_Slice_perm.
Qed.

Lemma getDeviceNameAndSize_run id (s : sdk W ec2_call) name size s' :
  getDeviceNameAndSize id s = (Return (Ok (name, size)), s') ->
  exists im more sz rest w, DescribeImages id (sdk_world s) = (Ok (Some (im :: more)), w) /\
    im_RootDeviceName im = Some name /\ im_EbsSizes im = Some sz :: rest /\ size = default 0 sz.
Proof.
  unfold getDeviceNameAndSize. rewrite gbind_run. unfold ask, gcall, mbind.
  destruct (DescribeImages id (sdk_world s)) as [[[[|im more]|]|e] w] eqn:Ed; try done. cbn.
  destruct (im_RootDeviceName im) as [n|] eqn:En; [|done]. destruct (String.eqb n ""); [done|].
  rewrite gbind_run. destruct (im_EbsSizes im) as [|[sz|] rest] eqn:Es; try done. cbn. intros [= -> <- _].
  by exists im, more, sz, rest, w.
Qed.

(** C34: The provider that [NewProvider] makes, when a size of the root volume is configured:
    the size and the device are set from the image the service describes: the size is at
    least that of the image and at least the configured one, or the largest number of 32
    bits, which it never exceeds, so that every launch asks for exactly that size on exactly
    that device; without a configured size none is set; and the list of instance types is
    sorted and has one entry per configured type (or the default). *)
Theorem aws_root_volume `{SortSlice} cfg (s : sdk W ec2_call) cfg' s' :
  NewProvider cfg s = (Return (Ok cfg'), s') ->
  (0 < RootVolumeSize cfg <-> 0 < RootVolumeSize cfg') /\
  (0 < RootVolumeSize cfg -> RootVolumeSize cfg' <= maxInt32 /\
     (exists im more size rest w, DescribeImages (ImageId cfg) (sdk_world s) = (Ok (Some (im :: more)), w) /\
        im_RootDeviceName im = Some (RootDeviceName cfg') /\ im_EbsSizes im = Some size :: rest /\
        Z.min (Z.max (default 0 size) (RootVolumeSize cfg)) maxInt32 = RootVolumeSize cfg') /\
     forall spec t data tags,
     ri_BlockDevice (run_input cfg' spec t data tags) = Some (RootDeviceName cfg', RootVolumeSize cfg')) /\
  StronglySorted (fun x y => lessResources y x = false) (InstanceTypeSpecList cfg') /\
  map InstanceType (InstanceTypeSpecList cfg') ≡ₚ
    match InstanceTypes cfg with [] => [cfg_InstanceType cfg] | l => l end.
Proof.
  unfold NewProvider. rewrite gbind_run. intros E. destruct (Z.ltb_spec 0 (RootVolumeSize cfg)) as [Hc|Hc].
  2:{ destruct (wp_elim _ _ _ _ _ (update_wp cfg) E) as (l & _ & Hl). destruct (Hl cfg' eq_refl) as (-> & _ & Hs & Hp).
      split_and!; [lia|lia|done|done]. }
  rewrite gbind_run in E. destruct (getDeviceNameAndSize _ s) as [[[[name size]|e]|] s1] eqn:Ed; try done. cbn in E.
  destruct (getDeviceNameAndSize_run _ _ _ _ _ Ed) as (im & more & sz & rest & w & Hd & Hn & Hz & ->).
  destruct (wp_elim _ _ _ _ _ (update_wp _) E) as (l & _ & Hl). destruct (Hl cfg' eq_refl) as (Hv & Hdev & Hs & Hp).
  cbn in Hv, Hdev, Hs, Hp. destruct (volume_size_bounds (RootVolumeSize cfg) (default 0 sz) Hc) as (Hb & _). rewrite Hv, Hdev.
  split_and!; [lia| |done|done]. intros _. split_and!; [lia| |].
  - exists im, more, sz, rest, w. split_and!; [done..|]. symmetry. apply volume_size_max.
  - intros. unfold run_input, with_volume. rewrite Hv, Hdev, (proj2 (Z.ltb_lt 0 _)) by lia. cbn. by rewrite to_int32_id by lia.
Qed.

End Props.

(** ** A small EC2 *)

(** The private address that a new instance shows. *)
Record mini_ec2 := mkMini { m_ip : option string }.

Definition fine : M mini_ec2 (option GoError) := mret None.

#[export] Instance mini : EC2 mini_ec2 := {
  RunInstances := fun input w => (Ok (take (Z.to_nat (ri_MaxCount input)) [mkEc2Instance (Some "i-1"%string) [m_ip w]]), w);
  TerminateInstances := fun _ => fine;
  DescribeInstanceTypes := fun _ => mret (Ok [mkTypeInfo (Some 2) (Some 8192) None]);
  DescribeInstances := fun _ => mret (Ok [[[Some (Some "3.3.3.3"%string)]]]);
  DescribeImages := fun _ => mret (Ok (Some [mkImage (Some "/dev/sda1"%string) [Some (Some 8)]]));
  InstanceRunning_Wait := fun _ => fine;
  CreateNetworkInterface := fun _ _ _ => mret (Ok (Some "eni-1"%string));
  AttachNetworkInterface := fun _ _ => mret (Ok (Some "att-1"%string));
  DeleteNetworkInterface := fun _ => fine;
  ModifyNetworkInterfaceAttribute := fun _ _ => fine;
  AllocateAddress := fun _ => mret (Ok (Some "eipalloc-1"%string, Some "4.4.4.4"%string));
  AssociateAddress := fun _ _ => fine;
  ReleaseAddress := fun _ => fine;
  DescribeAddresses := fun i => mret (Ok [mkAddress (Some i) "assoc" "alloc" (Some "4.4.4.4"%string)]);
  DisassociateAddress := fun _ => fine;
  imds_get := fun _ => mret (Err (Errorf "no metadata" []));
  Sscanf_key := fun _ => None
}.

Definition mini_cfg : Config :=
  mkConfig "eu" "kata" "ami-1" "m6a.large" "" "subnet-1" ["sg-1"%string] false [] [] ∅ false 30 "" false.
Definition mini_spec : InstanceTypeSpec := mkSpec "" 0 0 "" 0 "" false.
Definition started (ip : option string) : sdk mini_ec2 ec2_call := mkSdk (mkMini ip) [].
Definition mini_create (ip : option string) :=
  CreateInstance (fun z => z) mini_cfg "pod" "sandbox1" (Ok "#cloud-config"%string) mini_spec (started ip).

Lemma mini_counts (input : RunInstancesInput) (w : mini_ec2) out w' :
  RunInstances input w = (Ok out, w') -> (length out <= Z.to_nat (ri_MaxCount input))%nat.
Proof. cbn. intros [= <- _]. rewrite length_take. cbn [length]. lia. Qed.

Lemma aws_launch_witness :
  match mini_create (Some "10.0.0.7"%string) with
  | (Return (Ok i), s') => ID i = "i-1"%string /\ exists l, sdk_calls s' = l /\ (length (instances_started l) <= 1)%nat
  | _ => False
  end.
Proof.
  assert (Hr : match mini_create (Some "10.0.0.7"%string) with
               | (Return (Ok i), _) => String.eqb (ID i) "i-1" | _ => false end = true) by (vm_compute; reflexivity).
  destruct (mini_create (Some "10.0.0.7"%string)) as [[[i|e]|] s'] eqn:E; [|discriminate Hr..].
  split; [exact (proj1 (String.eqb_eq _ _) Hr)|].
  destruct (aws_launch (fun z => z) mini_cfg "pod" "sandbox1" (Ok "#cloud-config"%string) mini_spec
              (started (Some "10.0.0.7"%string)) (Return (Ok i)) s' mini_counts E) as (l & El & _ & Hl & _).
  exists l. split; [exact El|exact Hl].
Defined.

Lemma aws_launch_leaks_witness :
  exists input, mini_create None =
    (Return (Err errNotReady), mkSdk (mkMini None) [Ran input (Ok [mkEc2Instance (Some "i-1"%string) [None]])]).
Proof.
  eexists. apply (aws_launch_leaks (fun z => z) mini_cfg "pod" "sandbox1" "#cloud-config" mini_spec (started None)
                    "podvm-pod-sandbox1" "m6a.large" "i-1" [] [] (mkMini None)); reflexivity.
Defined.

Lemma aws_delete_witness :
  exists s' l1, DeleteInstance "i-1" (started None) = (Return (Ok tt), s') /\
    sdk_calls s' = l1 ++ [Terminated "i-1" None] /\ side_calls l1.
Proof.
  destruct (DeleteInstance "i-1" (started None)) as [r s'] eqn:E.
  destruct (aws_delete "i-1" (started None) r s' E) as (l & El & Hl).
  assert (Er : (DeleteInstance "i-1" (started None)).1 = Return (Ok tt)) by reflexivity.
  rewrite E in Er. cbn [fst] in Er. subst r. destruct Hl as (l1 & Hs & Hl).
  exists s', l1. split; [reflexivity|]. split; [rewrite El; exact Hl|exact Hs].
Defined.

Lemma aws_root_volume_witness :
  match NewProvider mini_cfg (started None) with
  | (Return (Ok cfg'), _) => RootVolumeSize cfg' <= maxInt32 /\ RootVolumeSize cfg' = 30
  | _ => False
  end.
Proof.
  assert (Hr : match NewProvider mini_cfg (started None) with
               | (Return (Ok cfg'), _) => RootVolumeSize cfg' =? 30 | _ => false end = true) by (vm_compute; reflexivity).
  destruct (NewProvider mini_cfg (started None)) as [[[cfg'|e]|] s'] eqn:E; [|discriminate Hr..].
  split; [|exact (proj1 (Z.eqb_eq _ _) Hr)].
  exact (proj1 (proj1 (proj2 (aws_root_volume mini_cfg (started None) cfg' s' E)) eq_refl)).
Defined.
