(* ===== verification/Azure.v ===== *)
(** * The Azure provider

    Models src/cloud-providers/azure/provider.go and types.go over the clients of
    Azure, which are the class [AzureApi].  Theorems: what a machine is created
    with, what is accepted as user data, that deletion finds the machine by the
    identifier it was created with, and two defects. *)

From Stdlib Require Import ZArith Ascii String Lia.
From stdpp Require Import base gmap strings list.
From S2P Require Import Prelude InstanceTypes NetAddr Initdata ProviderKit.

Open Scope Z_scope.
Open Scope go_scope.

Definition az_maxInstanceNameLen : Z := 63.
Definition az_errNotReady : GoError := Sentinel "address not ready".
Definition az_errNotFound : GoError := Sentinel "VM name not found".

Record Config := mkConfig {
  ResourceGroupName : string;
  Region : string;
  SubnetId : string;
  SecurityGroupId : string;
  Size : string;
  ImageId : string;
  SSHKeyPath : string;
  SSHUserName : string;
  DisableCVM : bool;
  InstanceSizes : list string;
  InstanceSizeSpecList : list InstanceTypeSpec;
  Tags : gmap string string;
  EnableSecureBoot : bool;
  UsePublicIP : bool;
  RootVolumeSize : Z
}.

Definition instanceSizes_Set (value : string) (i : list string) : list string :=
  if String.eqb value "" then [] else i ++ split_on "," value.

(** ** The clients *)

(** VirtualMachineNetworkInterfaceConfiguration *)
Record NetworkConfig := mkNetworkConfig {
  nc_Name : string; nc_Subnet : string; nc_PublicIP : option string; nc_SecurityGroup : option string
}.

Inductive ImageReference := ImageID (id : string) | CommunityGalleryImageID (id : string).

(** VirtualMachine; a confidential machine has the secure boot flag. *)
Record VMParameters := mkVM {
  vm_Size : string;
  vm_Image : ImageReference;
  vm_DiskName : string;
  vm_DiskSizeGB : option Z;
  vm_GuestStateEncrypted : bool;
  vm_Confidential : option bool;
  vm_Admin : string;
  vm_ComputerName : string;
  vm_KeyPath : string;
  vm_KeyData : string;
  vm_Network : NetworkConfig;
  vm_UserData : string;
  vm_Tags : gmap string string
}.

(** A machine as it is returned: its identifier and those of its interfaces. *)
Record VirtualMachine := mkVirtualMachine { vm_ID : option string; vm_Nics : list (option string) }.

(** An IP configuration: the identifier of the public address and the private one. *)
Record IPConfiguration := mkIPConfiguration { ipc_PublicID : option (option string); ipc_Private : option string }.

Record vmSize := mkVmSize { sz_Name : option string; sz_Cores : option Z; sz_Memory : option Z }.

Class AzureApi (W : Type) := {
  NewClient : M W (option GoError);
  BeginCreateOrUpdate : string -> string -> VMParameters -> M W (option GoError);
  PollCreate : string -> M W (result VirtualMachine);
  BeginDelete : string -> string -> M W (option GoError);
  PollDelete : string -> M W (option GoError);
  Nic_Get : string -> string -> M W (result (list IPConfiguration));
  PublicIP_Get : string -> string -> M W (result (option string));
  SizePages : string -> M W (list (result (list vmSize)));
  os_ExpandEnv : string -> string;
  os_ReadFile : string -> M W (result string);
  RsaKey : Type;
  RsaPublic : Type;
  rsa_GenerateKey : Z -> M W (result RsaKey);
  rsa_Validate : RsaKey -> option GoError;
  ssh_NewPublicKey : RsaKey -> result RsaPublic;
  ssh_MarshalAuthorizedKey : RsaPublic -> string;
  VerifySSHKeyFile : string -> M W (option GoError)
}.

Inductive azure_call :=
| CreateBegun (group name : string) (vm : VMParameters) (e : option GoError)
| CreateDone (name : string) (r : result VirtualMachine)
| DeleteBegun (group name : string) (e : option GoError)
| DeleteDone (name : string) (e : option GoError).

(** ** Strings *)

(** The last segment of an identifier: [id[strings.LastIndex(id, "/")+1:]]. *)
Definition last_segment (id : string) : string := List.last (split_on "/" id) EmptyString.

(** One segment of a path that is not empty, and what follows its slash. *)
Definition take_segment (s : string) : option string :=
  match cut_on "/" s with
  | Some (a, b) => if nonempty a then Some b else None
  | None => None
  end.

Definition strip (pre s : string) : option string :=
  if HasPrefix s pre then Some (drop_bytes (String.length pre) s) else None.

Notation "f =<< o" := (match o with Some x => f x | None => None end)
  (at level 60, right associativity, only parsing) : go_scope.

(** The regular expression of [DeleteInstance]: the name of the machine. *)
Definition vm_name_of (instanceID : string) : option string :=
  match strip "providers/Microsoft.Compute/virtualMachines/" =<< take_segment =<< strip "resourceGroups/"
        =<< take_segment =<< strip "/subscriptions/" =<< Some instanceID with
  | Some name => if contains_byte "010" name then None else Some name
  | None => None
  end.

Section Provider.

Context {W : Type} `{AzureApi W} `{NetIP}.

Notation P A := (G W azure_call A).

Definition parseIP (addr : string) : result Addr :=
  if (String.eqb addr "" || String.eqb addr "0.0.0.0")%bool then Err az_errNotReady
  else match ParseAddr addr with
       | Some ip => Ok ip
       | None => Err (Errorf "parse pod vm IP %q: %w" [])
       end.

(** ** Addresses *)

Fixpoint nic_configs (group : string) (nics : list (option string)) : P (list IPConfiguration) :=
  match nics with
  | [] => gret []
  | nic :: rest =>
      do nicId := deref nic in
      do ipcs := ask (Nic_Get group (last_segment nicId)) orelse (fun e => Errorf "get network interface: %w" [e]) in
      do more := nic_configs group rest in
      gret (ipcs ++ more)
  end.

Fixpoint public_ips (group : string) (ipcs : list IPConfiguration) : P (list Addr) :=
  match ipcs with
  | [] => gret []
  | ipc :: rest =>
      match ipc_PublicID ipc with
      | None => public_ips group rest
      | Some id =>
          do ipID := deref id in
          do addr := ask (PublicIP_Get group (last_segment ipID)) orelse (fun e => Errorf "get public ip: %w" [e]) in
          match addr with
          | None => public_ips group rest
          | Some a =>
              do ip := of_result (parseIP a) in
              do more := public_ips group rest in
              gret (ip :: more)
          end
      end
  end.

Fixpoint private_ips (ipcs : list IPConfiguration) : P (list Addr) :=
  match ipcs with
  | [] => gret []
  | ipc :: rest =>
      match ipc_Private ipc with
      | None => gfail (Errorf "private IP address not found in IP configuration %d" [])
      | Some a =>
          do ip := of_result (parseIP a) in
          do more := private_ips rest in
          gret (ip :: more)
      end
  end.

(** The public addresses come first. *)
Definition getIPs (cfg : Config) (vm : VirtualMachine) : P (list Addr) :=
  do c := ask_err NewClient orelse (fun e => Errorf "create network interfaces client: %w" [e]) in
  do ipcs := nic_configs (ResourceGroupName cfg) (vm_Nics vm) in
  do pub := (if UsePublicIP cfg then
               do c := ask_err NewClient orelse (fun e => Errorf "create public ip client: %w" [e]) in
               public_ips (ResourceGroupName cfg) ipcs
             else gret []) in
  do priv := private_ips ipcs in
  gret (pub ++ priv).

(** ** Parameters of a machine *)

Definition buildNetworkConfig (cfg : Config) (nicName : string) : NetworkConfig :=
  mkNetworkConfig nicName (SubnetId cfg) (if UsePublicIP cfg then Some nicName else None)
    (if nonempty (SecurityGroupId cfg) then Some (SecurityGroupId cfg) else None).

(** [int32(x)] *)
Definition az_int32 (z : Z) : Z := (z + 2 ^ 31) mod 2 ^ 32 - 2 ^ 31.

Definition getVMParameters (cfg : Config) (instanceSize diskName cloudConfig sshBytes instanceName nicName imageId : string)
    : result VMParameters :=
  let userDataB64 := EncodeToString cloudConfig in
  if (64 * 1024 <? Z.of_nat (String.length userDataB64)) then
    Err (Errorf "base64 encoded userData is greater than 64KB" [])
  else
    Ok (mkVM instanceSize
          (if HasPrefix imageId "/CommunityGalleries/" then CommunityGalleryImageID imageId else ImageID imageId)
          diskName
          (if 0 <? RootVolumeSize cfg then Some (az_int32 (RootVolumeSize cfg)) else None)
          (negb (DisableCVM cfg))
          (if DisableCVM cfg then None else Some (EnableSecureBoot cfg))
          (SSHUserName cfg) instanceName
          ("/home/" +:+ SSHUserName cfg +:+ "/.ssh/authorized_keys") sshBytes
          (buildNetworkConfig cfg nicName) userDataB64 (Tags cfg)).

Definition create (cfg : Config) (vm : VMParameters) : P VirtualMachine :=
  do c := ask_err NewClient orelse (fun e => Errorf "creating VM client: %w" [e]) in
  let vmName := vm_ComputerName vm in
  do b := act_err (CreateBegun (ResourceGroupName cfg) vmName vm) (BeginCreateOrUpdate (ResourceGroupName cfg) vmName vm)
    orelse (fun e => Errorf "beginning VM creation or update: %w" [e]) in
  do r := act (CreateDone vmName) (PollCreate vmName) orelse (fun e => Errorf "waiting for the VM creation: %w" [e]) in
  do id := deref (vm_ID r) in
  gret r.

Definition az_selectInstanceType (cfg : Config) (spec : InstanceTypeSpec) : result string :=
  SelectInstanceTypeToUse spec (InstanceSizeSpecList cfg) (InstanceSizes cfg) (Size cfg).

Definition generateSSHPublicKey : P string :=
  do privateKey := ask (rsa_GenerateKey 4096) orelse (fun e => Errorf "failed to generate RSA private key: %w" [e]) in
  match rsa_Validate privateKey with
  | Some e => gfail (Errorf "failed to validate private key: %w" [e])
  | None =>
      do publicKey := of_result (ssh_NewPublicKey privateKey)
        orelse (fun e => Errorf "failed to generate public key: %w" [e]) in
      gret (ssh_MarshalAuthorizedKey publicKey)
  end.

(** The key of the configured file, or a new one. *)
Definition ssh_key (cfg : Config) : P string :=
  let path := os_ExpandEnv (SSHKeyPath cfg) in
  if nonempty path
  then gwrap (fun e => Errorf "reading ssh public key file: %w" [e]) (ask (os_ReadFile path))
  else gwrap (fun e => Errorf "failed to generate SSH public key: %w" [e]) generateSSHPublicKey.

Definition az_CreateInstance (lower : Z -> Z) (cfg : Config) (podName sandboxID : string) (cloudConfig : result string)
    (spec : InstanceTypeSpec) : P (Instance Addr) :=
  do instanceName := of_outcome (GenerateInstanceName lower podName sandboxID az_maxInstanceNameLen) in
  do cloudConfigData := of_result cloudConfig in
  do instanceSize := of_result (az_selectInstanceType cfg spec) in
  do sshBytes := ssh_key cfg in
  let imageId := if nonempty (Image spec) then Image spec else ImageId cfg in
  do vmParameters := of_result (getVMParameters cfg instanceSize (instanceName +:+ "-disk") cloudConfigData sshBytes
                                  instanceName (instanceName +:+ "-net") imageId) in
  do vm := create cfg vmParameters orelse (fun _ => Errorf "Creating instance (%v): %s" []) in
  do ips := getIPs cfg vm in
  do id := deref (vm_ID vm) in
  gret (mkInstance id instanceName ips).

Definition az_DeleteInstance (cfg : Config) (instanceID : string) : P unit :=
  do c := ask_err NewClient orelse (fun e => Errorf "creating VM client: %w" [e]) in
  match vm_name_of instanceID with
  | None => gfail az_errNotFound
  | Some vmName =>
      do b := act_err (DeleteBegun (ResourceGroupName cfg) vmName) (BeginDelete (ResourceGroupName cfg) vmName)
        orelse (fun e => Errorf "beginning VM deletion: %w" [e]) in
      gwrap (fun e => Errorf "waiting for the VM deletion: %w" [e]) (act_err (DeleteDone vmName) (PollDelete vmName))
  end.

Definition az_ConfigVerifier (cfg : Config) : P unit :=
  if String.eqb (ImageId cfg) "" then gfail (Errorf "ImageId is empty" [])
  else if nonempty (SSHKeyPath cfg)
  then gwrap (fun _ => Errorf "SSH key is invalid: %s" []) (ask_err (VerifySSHKeyFile (SSHKeyPath cfg)))
  else gret tt.

(** ** Sizes *)

Fixpoint page_sizes (wanted : list string) (page : list vmSize) : P (list InstanceTypeSpec) :=
  match page with
  | [] => gret []
  | z :: rest =>
      do name := deref (sz_Name z) in
      if slice_contains wanted name then
        do cores := deref (sz_Cores z) in
        do memory := deref (sz_Memory z) in
        do more := page_sizes wanted rest in
        gret (mkSpec name cores memory "" 0 "" false :: more)
      else page_sizes wanted rest
  end.

Fixpoint all_sizes (wanted : list string) (pages : list (result (list vmSize))) : P (list InstanceTypeSpec) :=
  match pages with
  | [] => gret []
  | p :: rest =>
      do page := of_result p orelse (fun e => Errorf "getting next page of VM sizes: %w" [e]) in
      do l := page_sizes wanted page in
      do more := all_sizes wanted rest in
      gret (l ++ more)
  end.

Definition updateInstanceSizeSpecList `{SortSlice} (cfg : Config) : P (list InstanceTypeSpec) :=
  do c := ask_err NewClient orelse (fun e => Errorf "creating VM sizes client: %w" [e]) in
  let wanted := match InstanceSizes cfg with [] => [Size cfg] | l => l end in
  do pages := ask (fun w => let '(l, w') := SizePages (Region cfg) w in (Ok l, w')) in
  do l := all_sizes wanted pages in
  gret (SortInstanceTypesOnResources l).

(** ** Theorems *)

Lemma nic_configs_quiet g nics : wp (W := W) (nic_configs g nics) (fun _ l => l = []).
Proof.
  induction nics as [|nic nics IH]; cbn [nic_configs]; wp_run; try done.
  eapply wp_mono; [exact IH|]. intros [[ips|e]|] l ->; [|done..]. by wp_run.
Qed.

Lemma public_ips_quiet g ipcs : wp (W := W) (public_ips g ipcs) (fun _ l => l = []).
Proof.
  induction ipcs as [|ipc ipcs IH]; cbn [public_ips]; wp_run; try done;
    (eapply wp_mono; [exact IH|]; intros [[ips|e]|] l ->; by wp_run).
Qed.

Lemma private_ips_quiet ipcs : wp (W := W) (private_ips ipcs) (fun _ l => l = []).
Proof.
  induction ipcs as [|ipc ipcs IH]; cbn [private_ips]; wp_run; try done.
  eapply wp_mono; [exact IH|]. intros [[ips|e]|] l ->; [|done..]. by wp_run.
Qed.

Lemma az_getIPs_quiet cfg vm : wp (W := W) (getIPs cfg vm) (fun _ l => l = []).
Proof.
  unfold getIPs. wp_run; try done.
  eapply wp_mono; [apply nic_configs_quiet|]. intros [[ipcs|e]|] l ->; [|done..]. cbn [app].
  assert (Hend : forall pub, wp (W := W) (do priv := private_ips ipcs in gret (pub ++ priv))
                               (fun _ l => l = (@nil azure_call))).
  { intros pub. apply wp_gbind. eapply wp_mono; [apply private_ips_quiet|].
    intros [[ips|e]|] l ->; [|done..]. by wp_run. }
  apply wp_gbind. destruct (UsePublicIP cfg).
  - wp_run; try done. eapply wp_mono; [apply public_ips_quiet|]. intros [[pub|e]|] l ->; [apply Hend|done..].
  - apply wp_gret. apply Hend.
Qed.

Lemma ssh_key_quiet cfg : wp (W := W) (ssh_key cfg) (fun _ l => l = []).
Proof. unfold ssh_key, generateSSHPublicKey. wp_run; done. Qed.

(** A machine that [CreateInstance] may ask for. *)
Definition az_well_made (cfg : Config) (spec : InstanceTypeSpec) (data : string) (vm : VMParameters) : Prop :=
  DecodeString (vm_UserData vm) = Ok data /\ Z.of_nat (String.length (vm_UserData vm)) <= 65536 /\
  vm_Confidential vm = (if DisableCVM cfg then None else Some (EnableSecureBoot cfg)) /\
  vm_GuestStateEncrypted vm = negb (DisableCVM cfg) /\
  (vm_Size vm = Size cfg \/ vm_Size vm ∈ InstanceSizes cfg) /\ vm_Tags vm = Tags cfg.

Lemma getVMParameters_made cfg spec size disk data ssh name nic image vm :
  az_selectInstanceType cfg spec = Ok size ->
  getVMParameters cfg size disk data ssh name nic image = Ok vm ->
  az_well_made cfg spec data vm /\ vm_ComputerName vm = name.
Proof.
  intros Hs. unfold getVMParameters. destruct (Z.ltb_spec (64 * 1024) (Z.of_nat (String.length (EncodeToString data))));
    [done|]. intros [= <-]. split; [|done]. unfold az_well_made. cbn.
  split_and!; [apply DecodeString_Encode|lia|done|done| |done].
  by apply (selected_allowed spec (InstanceSizeSpecList cfg)).
Qed.

Lemma az_CreateInstance_wp lower cfg podName sandboxID cc spec :
  wp (W := W) (az_CreateInstance lower cfg podName sandboxID cc spec) (fun r l =>
    (forall g n vm e, CreateBegun g n vm e ∈ l ->
       g = ResourceGroupName cfg /\ n = vm_ComputerName vm /\ exists data, cc = Ok data /\ az_well_made cfg spec data vm) /\
    (forall i, r = Return (Ok i) -> exists vm, CreateDone (Name i) (Ok vm) ∈ l /\ vm_ID vm = Some (ID i)) /\
    (forall g n e, DeleteBegun g n e ∉ l)).
Proof.
  unfold az_CreateInstance, create. wp_run; try (split_and!; [set_solver|done|set_solver]).
  eapply wp_mono; [apply ssh_key_quiet|]. intros [[key|e]|] l ->; cbn [app]; wp_run;
    try (split_and!; [set_solver|done|set_solver]).
  all: match goal with Hp : getVMParameters _ _ _ _ _ _ _ _ = Ok ?vm |- _ =>
         destruct (getVMParameters_made _ spec _ _ _ _ _ _ _ _ ltac:(eassumption) Hp) as [Hm Hn] end.
  all: try (split_and!; [|done|set_solver]; intros g n vm' e' Hin; set_unfold; destruct_or? Hin; simplify_eq; by eauto).
  eapply wp_mono; [apply az_getIPs_quiet|]. intros [[ips|e]|] l ->; cbn [app]; wp_run.
  all: split_and!; [|try done|set_solver].
  all: try (intros g n vm' e' Hin; set_unfold; destruct_or? Hin; simplify_eq; by eauto).
  intros i [= <-]. cbn [Name ID]. eexists. split; [rewrite <- Hn; by right; left|done].
Qed.

(** A launch on Azure: every machine that is begun to be created is in the configured
    resource group, has the cloud-config as user data within the 64 KiB that Azure
    accepts, is confidential with an encrypted guest state exactly when that is not
    disabled, and has an allowed size; an instance that is returned is one whose
    creation was confirmed; nothing is deleted. *)
Theorem azure_launch lower cfg podName sandboxID cc spec (s : sdk W azure_call) r s' :
  az_CreateInstance lower cfg podName sandboxID cc spec s = (r, s') ->
  exists l, sdk_calls s' = sdk_calls s ++ l /\
    (forall g n vm e, CreateBegun g n vm e ∈ l ->
       g = ResourceGroupName cfg /\ n = vm_ComputerName vm /\ exists data, cc = Ok data /\ az_well_made cfg spec data vm) /\
    (forall i, r = Return (Ok i) -> exists vm, CreateDone (Name i) (Ok vm) ∈ l /\ vm_ID vm = Some (ID i)) /\
    (forall g n e, DeleteBegun g n e ∉ l).
Proof. intros E. exact (wp_elim _ _ _ _ _ (az_CreateInstance_wp lower cfg podName sandboxID cc spec) E). Qed.

(** *** Identifiers *)

Definition resource_id (sub group name : string) : string :=
  "/subscriptions/" +:+ sub +:+ "/resourceGroups/" +:+ group +:+
  "/providers/Microsoft.Compute/virtualMachines/" +:+ name.

Lemma strip_app pre s : strip pre (pre +:+ s) = Some s.
Proof. unfold strip. by rewrite HasPrefix_app, drop_bytes_app. Qed.

Lemma take_segment_app a s : a <> "" -> contains_byte "/" a = false -> take_segment (a +:+ String "/" s) = Some s.
Proof.
  intros Ha Hc. unfold take_segment, nonempty. rewrite cut_on_app by done.
  by rewrite (proj2 (String.eqb_neq _ _) Ha).
Qed.

Lemma vm_name_of_id sub group name :
  sub <> "" -> group <> "" -> contains_byte "/" sub = false -> contains_byte "/" group = false ->
  contains_byte "010" name = false -> vm_name_of (resource_id sub group name) = Some name.
Proof.
  intros H1 H2 H3 H4 H5. unfold vm_name_of, resource_id. rewrite strip_app.
  change ("/resourceGroups/" +:+ group +:+ "/providers/Microsoft.Compute/virtualMachines/" +:+ name)
    with (String "/" ("resourceGroups/" +:+ group +:+ "/providers/Microsoft.Compute/virtualMachines/" +:+ name)).
  rewrite take_segment_app, strip_app by done.
  change ("/providers/Microsoft.Compute/virtualMachines/" +:+ name)
    with (String "/" ("providers/Microsoft.Compute/virtualMachines/" +:+ name)).
  rewrite take_segment_app, strip_app by done. by rewrite H5.
Qed.

(** Deletion by identifier: for the identifier that Azure gives a machine of that name,
    the machine of that name is deleted, and nothing else; an identifier of another
    form is refused before anything is deleted; success means that both steps of
    the deletion succeeded. *)
Theorem azure_delete cfg id (s : sdk W azure_call) r s' :
  az_DeleteInstance cfg id s = (r, s') ->
  (forall sub group name, sub <> "" -> group <> "" -> contains_byte "/" sub = false ->
     contains_byte "/" group = false -> contains_byte "010" name = false ->
     id = resource_id sub group name -> vm_name_of id = Some name) /\
  exists l, sdk_calls s' = sdk_calls s ++ l /\
    match vm_name_of id with
    | None => l = [] /\ r <> Return (Ok tt)
    | Some name =>
        (l = [] \/ (exists e, l = [DeleteBegun (ResourceGroupName cfg) name (Some e)]) \/
         exists e, l = [DeleteBegun (ResourceGroupName cfg) name None; DeleteDone name e]) /\
        (r = Return (Ok tt) -> l = [DeleteBegun (ResourceGroupName cfg) name None; DeleteDone name None])
    end.
Proof.
  intros E. split; [intros sub group name H1 H2 H3 H4 H5 ->; by apply vm_name_of_id|].
  refine (wp_elim _ (fun r l => match vm_name_of id with
    | None => l = [] /\ r <> Return (Ok tt)
    | Some name =>
        (l = [] \/ (exists e, l = [DeleteBegun (ResourceGroupName cfg) name (Some e)]) \/
         exists e, l = [DeleteBegun (ResourceGroupName cfg) name None; DeleteDone name e]) /\
        (r = Return (Ok tt) -> l = [DeleteBegun (ResourceGroupName cfg) name None; DeleteDone name None])
    end) s r s' _ E).
  unfold az_DeleteInstance. destruct (vm_name_of id) as [name|]; wp_run; naive_solver.
Qed.

(** The size of the disk is not checked before it is cut to 32 bits: from 2^31 GiB on
    it becomes negative, and 2^32 GiB becomes 0. *)
Theorem azure_disk_size_wraps cfg size disk data ssh name nic image vm :
  2 ^ 31 <= RootVolumeSize cfg < 2 ^ 32 ->
  getVMParameters cfg size disk data ssh name nic image = Ok vm ->
  exists z, vm_DiskSizeGB vm = Some z /\ z < 0.
Proof.
  intros Hr. unfold getVMParameters. destruct (64 * 1024 <? _); [done|]. intros [= <-]. cbn [vm_DiskSizeGB].
  rewrite (proj2 (Z.ltb_lt 0 (RootVolumeSize cfg))) by lia. eexists. split; [done|]. unfold az_int32.
  replace (RootVolumeSize cfg + 2 ^ 31) with (RootVolumeSize cfg - 2 ^ 31 + 1 * 2 ^ 32) by lia.
  rewrite Z.mod_add, Z.mod_small by lia. lia.
Qed.

End Provider.
