(* ===== verification/Gcp.v ===== *)
(** * The Google Cloud provider

    Models src/cloud-providers/gcp/provider.go and types.go over the clients of
    Google Cloud, the class [GcpApi].  Theorems: where the name of an image is
    looked up, what an instance is created with, and what a failure leaves
    behind. *)

From Stdlib Require Import ZArith Ascii String Lia.
From stdpp Require Import base gmap strings list.
From S2P Require Import Prelude InstanceTypes NetAddr Initdata ProviderKit.

Open Scope Z_scope.
Open Scope go_scope.

Definition gcp_maxInstanceNameLen : Z := 63.

Record Config := mkConfig {
  ProjectId : string;
  Zone : string;
  ImageName : string;
  MachineType : string;
  Network : string;
  DiskType : string;
  DisableCVM : bool;
  ConfidentialType : string;
  RootVolumeSize : Z;
  Tags : gmap string string
}.

(** ** The clients *)

(** computepb.Instance as it is inserted. *)
Record InstanceResource := mkResource {
  ir_Name : string;
  ir_DiskSizeGb : Z;
  ir_SourceImage : string;
  ir_DiskType : string;
  ir_UserData : string;
  ir_MachineType : string;
  ir_Network : string;
  (** the type of confidential instance, which is terminated on host maintenance *)
  ir_Confidential : option string
}.

(** An instance as it is read: name, number, the external addresses by interface. *)
Record gcpInstance := mkGcpInstance { gi_Name : string; gi_Id : Z; gi_NatIPs : list (list string) }.

Class GcpApi (W : Type) := {
  NewTagKeysClient : M W (option GoError);
  NewTagValuesClient : M W (option GoError);
  (** the keys of a project and the values of a key, up to the first error of the
      iterator: identifier and short name, and the other way round *)
  ListTagKeys : string -> M W (list (string * string));
  ListTagValues : string -> M W (list (string * string));
  NewImagesClient : M W (option GoError);
  Images_Get : string -> string -> M W (result Z);
  Instances_Insert : string -> string -> InstanceResource -> M W (option GoError);
  Insert_Wait : string -> M W (option GoError);
  Instances_Get : string -> string -> string -> M W (result gcpInstance);
  Instances_Delete : string -> string -> string -> M W (option GoError);
  Delete_Wait : string -> M W (option GoError);
  NewTagBindingsClient : string -> M W (option GoError);
  CreateTagBinding : string -> string -> M W (option GoError);
  TagBinding_Wait : string -> M W (option GoError)
}.

Inductive gcp_call :=
| Inserted (project zone : string) (i : InstanceResource) (e : option GoError)
| InsertDone (e : option GoError)
| Deleted (project zone name : string) (e : option GoError)
| DeleteDone (e : option GoError)
| Bound (parent value : string) (e : option GoError).

(** ** Images *)

Definition hasAnyPrefix (s : string) (prefixes : list string) : bool := existsb (HasPrefix s) prefixes.

(** The loop from the last segment but one down to the first: the segment two before
    "images" is the project. *)
Fixpoint find_project (parts : list string) (i : nat) : option string :=
  if (bool_decide (parts !! i = Some "images"%string) && Nat.leb 2 i)%bool then parts !! (i - 2)%nat
  else match i with O => None | S j => find_project parts j end.

(** Project and name of an image. *)
Definition image_parts (project image : string) : string * string :=
  let parts := split_on "/" image in
  let imageName := List.last parts EmptyString in
  let found := if hasAnyPrefix image ["/projects/"; "projects/"; "https://"]%string
               then if Nat.leb 2 (length parts) then find_project parts (length parts - 2) else None
               else None in
  match found with
  | Some p => if String.eqb p "" then (project, imageName) else (p, imageName)
  | None => (project, imageName)
  end.

Definition source_image (cfg : Config) (spec : InstanceTypeSpec) : string :=
  if nonempty (Image spec) then Image spec
  else if hasAnyPrefix (ImageName cfg) ["projects/"; "/projects"; "https"]%string then ImageName cfg
  else "projects/" +:+ ProjectId cfg +:+ "/global/images/" +:+ ImageName cfg.

Section Provider.

Context {W : Type} `{GcpApi W} `{NetIP} `{GoMapOrder}.

Notation P A := (G W gcp_call A).

Definition getImageSizeGB (cfg : Config) (image : string) : P Z :=
  do c := ask_err NewImagesClient orelse (fun e => Errorf "failed to create compute client: %w" [e]) in
  let '(project, name) := image_parts (ProjectId cfg) image in
  gwrap (fun e => Errorf "Failed to get image for %s: %w" [e]) (ask (Images_Get project name)).

(** ** Tags *)

Fixpoint collect_tags (keys : list (string * string)) : P (gmap string (gmap string string)) :=
  match keys with
  | [] => gret ∅
  | (id, shortName) :: rest =>
      do values := ask (fun w => let '(l, w') := ListTagValues id w in (Ok l, w')) in
      do more := collect_tags rest in
      gret (if bool_decide (is_Some (more !! shortName)) then more
            else <[shortName := list_to_map (rev values)]> more)
  end.

(** Short names to the names of the values; of two equal ones the later counts. *)
Definition ListAllTags (cfg : Config) : P (gmap string (gmap string string)) :=
  do a := ask_err NewTagKeysClient in
  do b := ask_err NewTagValuesClient in
  do keys := ask (fun w => let '(l, w') := ListTagKeys ("projects/" +:+ ProjectId cfg) w in (Ok l, w')) in
  collect_tags keys.

(** The names of the configured tag values; one that the project does not have aborts. *)
Fixpoint tag_values (all : gmap string (gmap string string)) (tags : list (string * string)) : result (list string) :=
  match tags with
  | [] => Ok []
  | (key, value) :: rest =>
      match all !! key ≫= (.!! value) with
      | None => Err (Errorf "Aborting: Tag %s=%s not found" [])
      | Some id => result_map (cons id) (tag_values all rest)
      end
  end.

Fixpoint bind_tags (parent : string) (values : list string) : P unit :=
  match values with
  | [] => gret tt
  | v :: rest =>
      do b := act_err (Bound parent v) (CreateTagBinding parent v)
        orelse (fun _ => Errorf "API call to create tag binding failed for %s: %v" []) in
      do w := ask_err (TagBinding_Wait v)
        orelse (fun _ => Errorf "Long-running operation for tag binding %s failed: %v" []) in
      bind_tags parent rest
  end.

(** ** Instances *)

Fixpoint nat_ips (ips : list string) : result (list Addr) :=
  match ips with
  | [] => Ok []
  | ipStr :: rest =>
      match ParseAddr ipStr with
      | None => Err (Errorf "failed to parse pod node IP %q: %w" [])
      | Some ip => result_map (cons ip) (nat_ips rest)
      end
  end.

Definition gcp_getIPs (i : gcpInstance) : result (list Addr) := nat_ips (concat (gi_NatIPs i)).

(** The size of the disk: that of the image unless more is configured. *)
Definition disk_size (cfg : Config) (imageSizeGB : Z) : Z :=
  if ((0 <? RootVolumeSize cfg) && (imageSizeGB <? RootVolumeSize cfg))%bool then RootVolumeSize cfg else imageSizeGB.

(** A confidential instance needs its type. *)
Definition instance_resource (cfg : Config) (instanceName image userData : string) (size : Z) : result InstanceResource :=
  let make conf :=
    mkResource instanceName size image ("zones/" +:+ Zone cfg +:+ "/diskTypes/" +:+ DiskType cfg)
      (EncodeToString userData) ("zones/" +:+ Zone cfg +:+ "/machineTypes/" +:+ MachineType cfg) (Network cfg) conf in
  if DisableCVM cfg then Ok (make None)
  else if String.eqb (ConfidentialType cfg) "" then
    Err (Errorf "ConfidentialType must be set when using Confidential VM." [])
  else Ok (make (Some (ConfidentialType cfg))).

Definition insert (cfg : Config) (r : InstanceResource) : P unit :=
  do i := act_err (Inserted (ProjectId cfg) (Zone cfg) r) (Instances_Insert (ProjectId cfg) (Zone cfg) r)
    orelse (fun _ => Errorf "Instances.Insert error: %s. req: %v" []) in
  gwrap (fun _ => Errorf "waiting for Instances.Insert error: %s. req: %v" [])
    (act_err InsertDone (Insert_Wait (ir_Name r))).

(** From the created instance on. *)
Definition bind_and_read (cfg : Config) (instanceName : string) (values : list string) : P (Instance Addr) :=
  do instance := ask (Instances_Get (ProjectId cfg) (Zone cfg) instanceName)
    orelse (fun e => Errorf "unable to get instance: %w, req: %v" [e]) in
  do c := ask_err (NewTagBindingsClient (Zone cfg)) orelse (fun e => Errorf "failed to create bind client: %w" [e]) in
  let parent := "//compute.googleapis.com/projects/" +:+ ProjectId cfg +:+ "/zones/" +:+ Zone cfg +:+
                "/instances/" +:+ FormatInt (gi_Id instance) in
  do b := bind_tags parent values in
  do ips := of_result (gcp_getIPs instance) in
  gret (mkInstance (gi_Name instance) (gi_Name instance) ips).

Definition gcp_CreateInstance (lower : Z -> Z) (cfg : Config) (podName sandboxID : string) (cloudConfig : result string)
    (spec : InstanceTypeSpec) : P (Instance Addr) :=
  do instanceName := of_outcome (GenerateInstanceName lower podName sandboxID gcp_maxInstanceNameLen) in
  do userData := of_result cloudConfig in
  do allTags := ListAllTags cfg orelse (fun e => Errorf "Aborting: Failed to list tags: %w" [e]) in
  do values := of_result (tag_values allTags (map_order (Tags cfg))) in
  let srcImage := source_image cfg spec in
  do imageSize := getImageSizeGB cfg srcImage orelse (fun e => Errorf "Failed to get image size: %w" [e]) in
  do resource := of_result (instance_resource cfg instanceName srcImage userData (disk_size cfg imageSize)) in
  do i := insert cfg resource in
  bind_and_read cfg instanceName values.

Definition gcp_DeleteInstance (cfg : Config) (instanceID : string) : P unit :=
  do d := act_err (Deleted (ProjectId cfg) (Zone cfg) instanceID) (Instances_Delete (ProjectId cfg) (Zone cfg) instanceID)
    orelse (fun e => Errorf "Instances.Delete error: %w, req: %v" [e]) in
  gwrap (fun _ => Errorf "waiting for Instances.Delete error: %s. req: %v" []) (act_err DeleteDone (Delete_Wait instanceID)).

(** ** Theorems *)

(** Nothing is deleted, and what is inserted is made from the configuration. *)
Definition gcp_calls (cfg : Config) (spec : InstanceTypeSpec) (data : string) (l : list gcp_call) : Prop :=
  (forall p z n e, Deleted p z n e ∉ l) /\
  forall p z i e, Inserted p z i e ∈ l ->
    p = ProjectId cfg /\ z = Zone cfg /\ DecodeString (ir_UserData i) = Ok data /\
    ir_SourceImage i = source_image cfg spec /\ RootVolumeSize cfg <= Z.max 0 (ir_DiskSizeGb i) /\
    (if DisableCVM cfg then ir_Confidential i = None
     else ir_Confidential i = Some (ConfidentialType cfg) /\ ConfidentialType cfg <> "").

Lemma gcp_calls_app cfg spec data l1 l2 :
  gcp_calls cfg spec data l1 -> gcp_calls cfg spec data l2 -> gcp_calls cfg spec data (l1 ++ l2).
Proof. unfold gcp_calls. intros [Ha Hb] [Hc Hd]. split; intros; set_unfold; naive_solver. Qed.

Lemma gcp_calls_nil cfg spec data : gcp_calls cfg spec data [].
Proof. split; set_solver. Qed.

Lemma bind_tags_wp cfg spec data parent values : wp (W := W) (bind_tags parent values) (fun _ l => gcp_calls cfg spec data l).
Proof.
  assert (Hb : forall v e, gcp_calls cfg spec data [Bound parent v e]) by (intros; split; intros; set_unfold; naive_solver).
  induction values as [|v vs IH]; cbn [bind_tags]; wp_run; auto using gcp_calls_nil.
  eapply wp_mono; [exact IH|]. intros r l Hl. by apply (gcp_calls_app _ _ _ [_]).
Qed.

Lemma bind_and_read_wp cfg spec data name values :
  wp (W := W) (bind_and_read cfg name values) (fun _ l => gcp_calls cfg spec data l).
Proof.
  unfold bind_and_read. wp_run; auto using gcp_calls_nil.
  eapply wp_mono; [apply (bind_tags_wp cfg spec data)|]. intros [[u|e]|] l Hl; [|done..].
  wp_run; by rewrite app_nil_r.
Qed.

Lemma collect_tags_quiet keys : wp (W := W) (collect_tags keys) (fun _ l => l = []).
Proof.
  induction keys as [|[id n] keys IH]; cbn [collect_tags]; wp_run; try done.
  eapply wp_mono; [exact IH|]. intros [[m|e]|] l ->; [|done..]. by wp_run.
Qed.

Lemma ListAllTags_quiet cfg : wp (W := W) (ListAllTags cfg) (fun _ l => l = []).
Proof. unfold ListAllTags. wp_run; try done. apply collect_tags_quiet. Qed.

Lemma insert_wp cfg spec data r :
  gcp_calls cfg spec data [Inserted (ProjectId cfg) (Zone cfg) r None] ->
  wp (W := W) (insert cfg r) (fun _ l => gcp_calls cfg spec data l).
Proof.
  intros [_ Hr]. unfold insert. wp_run; (split; [set_solver|]); intros p z i err Hin; set_unfold;
    destruct_or? Hin; simplify_eq; apply (Hr _ _ _ None); by left.
Qed.

Lemma resource_calls cfg spec data name size r :
  instance_resource cfg name (source_image cfg spec) data (disk_size cfg size) = Ok r ->
  gcp_calls cfg spec data [Inserted (ProjectId cfg) (Zone cfg) r None].
Proof.
  intros E. split; [set_solver|]. intros p z i e Hin. set_unfold. destruct Hin as [[= -> -> -> ->]|[]].
  assert (Hd : RootVolumeSize cfg <= Z.max 0 (disk_size cfg size)).
  { unfold disk_size. destruct (0 <? RootVolumeSize cfg) eqn:E1, (size <? RootVolumeSize cfg) eqn:E2;
      bool_to_prop; cbn; lia. }
  unfold instance_resource in E. destruct (DisableCVM cfg).
  - injection E as <-. cbn. split_and!; try done. apply DecodeString_Encode.
  - destruct (String.eqb_spec (ConfidentialType cfg) ""); [done|]. injection E as <-. cbn.
    split_and!; try done. apply DecodeString_Encode.
Qed.

Lemma gcp_CreateInstance_wp lower cfg podName sandboxID cc spec :
  wp (W := W) (gcp_CreateInstance lower cfg podName sandboxID cc spec) (fun r l =>
    match cc with Ok data => gcp_calls cfg spec data l | Err _ => l = [] end).
Proof.
  unfold gcp_CreateInstance, getImageSizeGB. wp_run; try (by destruct cc; auto using gcp_calls_nil).
  eapply wp_mono; [apply ListAllTags_quiet|]. subst cc. intros [[tags|e]|] l ->; cbn [app]; auto using gcp_calls_nil.
  wp_run; auto using gcp_calls_nil.
  eapply wp_mono; [apply (insert_wp cfg spec); by eapply resource_calls|].
  intros [[u|e]|] l Hl; cbn [app]; [|done..].
  eapply wp_mono; [apply bind_and_read_wp|]. intros r2 l2 Hl2.
  eapply gcp_calls_app; [exact Hl|exact Hl2].
Qed.

(** A launch on Google Cloud: whatever is inserted is in the configured project and
    zone, carries the cloud-config as user data, boots the image of the pod or the
    configured one from a disk that is not smaller than configured, and is
    confidential, of the configured type, exactly when that is not disabled; and
    nothing is ever deleted, so that an instance whose creation was confirmed stays
    when a later step (reading it, binding its tags, reading its addresses) makes
    the call fail. *)
Theorem gcp_launch lower cfg podName sandboxID cc spec (s : sdk W gcp_call) r s' :
  gcp_CreateInstance lower cfg podName sandboxID cc spec s = (r, s') ->
  exists l, sdk_calls s' = sdk_calls s ++ l /\
    match cc with Ok data => gcp_calls cfg spec data l | Err _ => l = [] end.
Proof. intros E. exact (wp_elim _ _ _ _ _ (gcp_CreateInstance_wp lower cfg podName sandboxID cc spec) E). Qed.

End Provider.

(** *** Images *)

Lemma split_on_slash s t : contains_byte "/" s = false -> split_on "/" (s +:+ "/" +:+ t) = s :: split_on "/" t.
Proof. apply split_on_app. Qed.

Lemma image_parts_path project pre front P I :
  split_on "/" (pre +:+ P +:+ "/global/images/" +:+ I) = front ++ [P; "global"; "images"; I]%string ->
  hasAnyPrefix (pre +:+ P +:+ "/global/images/" +:+ I) ["/projects/"; "projects/"; "https://"]%string = true ->
  P <> "" -> image_parts project (pre +:+ P +:+ "/global/images/" +:+ I) = (P, I).
Proof.
  intros Hs Hp HP. unfold image_parts. rewrite Hp, Hs. rewrite length_app. cbn [length].
  replace (Nat.leb 2 (length front + 4)) with true by (symmetry; apply Nat.leb_le; lia).
  replace (length front + 4 - 2)%nat with (S (S (length front))) by lia.
  assert (Hi : (front ++ [P; "global"; "images"; I]%string) !! S (S (length front)) = Some "images"%string).
  { rewrite lookup_app_r by lia. by replace (S (S (length front)) - length front)%nat with 2%nat by lia. }
  cbn [find_project]. rewrite Hi. rewrite bool_decide_true by done. cbn [andb Nat.leb].
  replace (S (S (length front)) - 2)%nat with (length front) by lia.
  rewrite lookup_app_r, Nat.sub_diag by lia. cbn.
  rewrite (proj2 (String.eqb_neq _ _) HP). f_equal.
  change [P; "global"; "images"; I]%string with ([P; "global"; "images"]%string ++ [I]).
  by rewrite app_assoc, List.last_last.
Qed.

(** The image of an instance is looked up where its name says: in the project of the
    path for the three forms of a full path, and in the configured project for a
    plain name, also when the path was built from it. *)
Theorem gcp_image_lookup project P I :
  P <> "" -> contains_byte "/" P = false -> contains_byte "/" I = false ->
  image_parts project ("projects/" +:+ P +:+ "/global/images/" +:+ I) = (P, I) /\
  image_parts project ("/projects/" +:+ P +:+ "/global/images/" +:+ I) = (P, I) /\
  image_parts project ("https://www.googleapis.com/compute/v1/projects/" +:+ P +:+ "/global/images/" +:+ I) = (P, I) /\
  image_parts project I = (project, I) /\
  (forall cfg spec, Image spec = "" -> ImageName cfg = I -> ProjectId cfg = P ->
     image_parts P (source_image cfg spec) = (P, I)).
Proof.
  intros HP Hp Hi.
  assert (Hs : split_on "/" (P +:+ "/global/images/" +:+ I) = [P; "global"; "images"; I]%string).
  { change ("/global/images/" +:+ I) with (String "/" ("global" +:+ String "/" ("images" +:+ String "/" I))).
    rewrite !split_on_app, split_on_none by done. done. }
  set (tail := P +:+ "/global/images/" +:+ I) in *.
  assert (Hpre : forall project, image_parts project ("projects/" +:+ tail) = (P, I)).
  { intros pr. apply (image_parts_path pr "projects/" ["projects"%string]); [|done|done]. fold tail.
    change ("projects/" +:+ tail) with ("projects" +:+ String "/" tail).
    rewrite split_on_app by done. by rewrite Hs. }
  split_and!.
  - apply Hpre.
  - apply (image_parts_path project "/projects/" [""; "projects"]%string); [|done|done]. fold tail.
    change ("/projects/" +:+ tail) with ("" +:+ String "/" ("projects" +:+ String "/" tail)).
    rewrite !split_on_app by done. by rewrite Hs.
  - apply (image_parts_path project "https://www.googleapis.com/compute/v1/projects/"
             ["https:"; ""; "www.googleapis.com"; "compute"; "v1"; "projects"]%string); [|done|done]. fold tail.
    change ("https://www.googleapis.com/compute/v1/projects/" +:+ tail) with
      ("https:" +:+ String "/" ("" +:+ String "/" ("www.googleapis.com" +:+ String "/" ("compute" +:+ String "/"
        ("v1" +:+ String "/" ("projects" +:+ String "/" tail)))))).
    rewrite !split_on_app by done. by rewrite Hs.
  - unfold image_parts. rewrite split_on_none by done. cbn [length Nat.leb List.last].
    by destruct (hasAnyPrefix I _).
  - intros cfg spec Himg Hname Hproj. unfold source_image. rewrite Himg, Hname, Hproj. cbn [nonempty].
    change (nonempty "") with false. cbn iota.
    destruct (hasAnyPrefix I _); [unfold image_parts; rewrite split_on_none by done; cbn [length Nat.leb List.last];
      by destruct (hasAnyPrefix I _)|].
    apply Hpre.
Qed.
