(* ===== verification/IbmCloud.v ===== *)
(** * The IBM Cloud VPC provider

    Models src/cloud-providers/ibmcloud (provider.go, types.go) over the client of
    the VPC service, the class [VpcApi].  The list of images is compacted in place,
    as the code does it; the wait for addresses is the code's bounded loop. *)

From Stdlib Require Import ZArith Ascii String Lia.
From stdpp Require Import base gmap strings list.
From S2P Require Import Prelude InstanceTypes NetAddr ProviderKit.

Open Scope Z_scope.
Open Scope go_scope.

Definition maxRetries : nat := 10.
Definition ibm_maxInstanceNameLen : Z := 63.
Definition ibm_errNotReady : GoError := Sentinel "address not ready".

(** [err == errNotReady]: the identity of the error, not that of a wrapped one. *)
Definition is_errNotReady (e : GoError) : bool :=
  match e with Sentinel s => String.eqb s "address not ready" | _ => false end.

(** ** Configuration: types.go *)

Record ibm_image := mkIbmImage { img_ID : string; img_Arch : string; img_OS : string }.

Definition toList (value : string) (sep : ascii) : list string :=
  if String.eqb value "" then [] else split_on sep value.

Definition instanceProfiles_Set (value : string) (i : list string) : list string := i ++ toList value ",".
Definition Images_Set (value : string) (i : list ibm_image) : list ibm_image :=
  i ++ map (fun id => mkIbmImage id "" "") (toList value ",").

Definition Images_String (i : list ibm_image) : string :=
  match i with
  | [] => ""
  | [a] => img_ID a
  | a :: rest => foldl (fun b image => b +:+ "," +:+ img_ID image) (img_ID a) rest
  end.

Record Config := mkConfig {
  ApiKey : string;
  IAMProfileID : string;
  VpcServiceURL : string;
  ResourceGroupID : string;
  ProfileName : string;
  ZoneName : string;
  Images : list ibm_image;
  PrimarySubnetID : string;
  PrimarySecurityGroupID : string;
  SecondarySubnetID : string;
  SecondarySecurityGroupID : string;
  KeyID : string;
  VpcID : string;
  InstanceProfiles : list string;
  InstanceProfileSpecList : list InstanceTypeSpec;
  ibm_DisableCVM : bool
}.

(** ** The client *)

(** The identifier of an interface, and the address of its primary IP if it has one. *)
Record nic := mkNic { nic_ID : option string; nic_PrimaryIP : option (option string) }.
Record vpcInstance := mkVpcInstance {
  vi_ID : option string; vi_Primary : option nic; vi_Interfaces : list nic
}.

Record prototype := mkPrototype {
  pr_Name : string;
  pr_Image : string;
  pr_UserData : string;
  pr_Profile : string;
  pr_Zone : string;
  pr_Vpc : string;
  (** subnet and security group of the primary interface *)
  pr_Primary : string * string;
  pr_Tdx : bool;
  pr_SecureBoot : bool;
  pr_Keys : list string;
  pr_ResourceGroup : option string;
  (** subnet and security group of the interfaces that may spoof addresses *)
  pr_Secondary : list (string * string)
}.

Record subnet := mkSubnet { sn_Vpc : option (option string); sn_ResourceGroup : option (option string) }.

Class VpcApi (W : Type) := {
  NewVpcV1 : string -> M W (option GoError);
  NodeLabels : string -> M W (result (gmap string string));
  GetSubnet : string -> M W (result subnet);
  GetVPCDefaultSecurityGroup : option string -> M W (result (option string));
  CreateInstanceWithContext : prototype -> M W (result vpcInstance);
  GetInstanceWithContext : string -> M W (result vpcInstance);
  DeleteInstanceWithContext : string -> M W (option GoError);
  (** vCPUs, memory in GiB and architecture *)
  GetInstanceProfileWithContext : string -> M W (result (option Z * option Z * option string));
  (** architecture and name of the operating system *)
  GetImageWithContext : string -> M W (result (option string * option string))
}.

Inductive vpc_call :=
| Created (p : prototype) (r : result vpcInstance)
| Queried (id : string) (r : result vpcInstance)
| Deleted (id : string) (e : option GoError).

Section Provider.

Context {W : Type} `{VpcApi W} `{NetIP}.

Notation P A := (G W vpc_call A).

(** ** Instances *)

Definition getInstancePrototype (cfg : Config) (instanceName userData instanceProfile imageId : string) : prototype :=
  mkPrototype instanceName imageId userData instanceProfile (ZoneName cfg) (VpcID cfg)
    (PrimarySubnetID cfg, PrimarySecurityGroupID cfg)
    (negb (ibm_DisableCVM cfg)) (negb (ibm_DisableCVM cfg))
    (if nonempty (KeyID cfg) then [KeyID cfg] else [])
    (if nonempty (ResourceGroupID cfg) then Some (ResourceGroupID cfg) else None)
    (if nonempty (SecondarySubnetID cfg) then [(SecondarySubnetID cfg, SecondarySecurityGroupID cfg)] else []).

(** The interfaces that are not the primary one; identifiers are dereferenced. *)
Fixpoint other_nics (primary : option nic) (nics : list nic) : P (list nic) :=
  match nics with
  | [] => gret []
  | n :: rest =>
      do id := deref (nic_ID n) in
      do pr := deref primary in
      do pid := deref (nic_ID pr) in
      do l := other_nics primary rest in
      gret (if String.eqb id pid then l else n :: l)
  end.

Definition address_missing (addr : option string) : bool :=
  match addr with None => true | Some a => (String.eqb a "" || String.eqb a "0.0.0.0")%bool end.

Fixpoint nic_ips (nics : list nic) : result (list Addr) :=
  match nics with
  | [] => Ok []
  | n :: rest =>
      match nic_PrimaryIP n with
      | None => Err ibm_errNotReady
      | Some addr =>
          if address_missing addr then Err ibm_errNotReady
          else match ParseAddr (default EmptyString addr) with
               | None => Err (Errorf "failed to parse pod node IP %q: %w" [])
               | Some ip => result_map (cons ip) (nic_ips rest)
               end
      end
  end.

Definition ibm_getIPs (instance : vpcInstance) (numInterfaces : nat) : P (list Addr) :=
  do others := other_nics (vi_Primary instance) (vi_Interfaces instance) in
  do pr := deref (vi_Primary instance) in
  do ips := of_result (nic_ips (pr :: others)) in
  if (length ips <? numInterfaces)%nat then gfail ibm_errNotReady else gret ips.

Definition selectInstanceProfile (cfg : Config) (spec : InstanceTypeSpec) : result string :=
  SelectInstanceTypeToUse spec (InstanceProfileSpecList cfg) (InstanceProfiles cfg) (ProfileName cfg).

Fixpoint arch_of (profile : string) (l : list InstanceTypeSpec) : string :=
  match l with
  | [] => ""
  | s :: rest => if String.eqb (InstanceType s) profile then Arch s else arch_of profile rest
  end.

Fixpoint image_for (arch : string) (l : list ibm_image) : result string :=
  match l with
  | [] => Err (Errorf "unable to find matching image to use" [])
  | image :: rest =>
      if (nonempty arch && negb (String.eqb (img_Arch image) arch))%bool then image_for arch rest
      else Ok (img_ID image)
  end.

Definition selectImage (cfg : Config) (spec : InstanceTypeSpec) (profile : string) : result string :=
  let specArch := if String.eqb (Arch spec) "" then arch_of profile (InstanceProfileSpecList cfg) else Arch spec in
  image_for specArch (Images cfg).

(** The loop that waits for the addresses: [retries] rounds are left.  The addresses
    that were read last are returned when no round is left, also if that read failed. *)
Fixpoint wait_ips (retries : nat) (instanceID : string) (numInterfaces : nat) (instance : vpcInstance) : P (list Addr) :=
  match retries with
  | O => gret []
  | S retries =>
      do r := gcatch (ibm_getIPs instance numInterfaces) in
      match r with
      | Ok ips => gret ips
      | Err err =>
          if is_errNotReady err then
            do result := act (Queried instanceID) (GetInstanceWithContext instanceID) in
            wait_ips retries instanceID numInterfaces result
          else gfail err
      end
  end.

Definition ibm_CreateInstance (lower : Z -> Z) (cfg : Config) (podName sandboxID : string) (cloudConfig : result string)
    (spec : InstanceTypeSpec) : P (Instance Addr) :=
  do instanceName := of_outcome (GenerateInstanceName lower podName sandboxID ibm_maxInstanceNameLen) in
  do userData := of_result cloudConfig in
  do instanceProfile := of_result (selectInstanceProfile cfg spec) in
  do imageID := of_result (if nonempty (Image spec) then Ok (Image spec) else selectImage cfg spec instanceProfile) in
  let proto := getInstancePrototype cfg instanceName userData instanceProfile imageID in
  do instance := act (Created proto) (CreateInstanceWithContext proto) in
  do instanceID := deref (vi_ID instance) in
  do ips := wait_ips maxRetries instanceID (length (pr_Secondary proto)) instance in
  gret (mkInstance instanceID instanceName ips).

Definition ibm_DeleteInstance (instanceID : string) : P unit :=
  act_err (Deleted instanceID) (DeleteInstanceWithContext instanceID).

Definition ibm_ConfigVerifier (cfg : Config) : option GoError :=
  if String.eqb (Images_String (Images cfg)) "" then Some (Errorf "image-id is empty" []) else None.

(** ** Construction *)

Definition getImageDetails (imageID : string) : P (string * string) :=
  do r := ask (GetImageWithContext imageID) in
  do arch := deref (fst r) in
  do os := deref (snd r) in
  gret (arch, os).

(** The compaction of the list of images: [j] is the index that is read, [i] the one
    that is written, in the same array. *)
Fixpoint compact (n j i : nat) (images : list ibm_image) : P (nat * list ibm_image) :=
  match n with
  | O => gret (i, images)
  | S n =>
      do image := deref (images !! j) in
      do d := gcatch (getImageDetails (img_ID image)) in
      match d with
      | Err _ => compact n (S j) i images
      | Ok (arch, os) => compact n (S j) (S i) (<[i := mkIbmImage (img_ID image) arch os]> images)
      end
  end.

Definition updateImageList (images : list ibm_image) : P (list ibm_image) :=
  do r := compact (length images) 0 0 images in
  let '(i, images) := r in
  if (i =? 0)%nat then gfail (Errorf "no images valid images found" []) else gret (take i images).

(** The memory of a profile is in GiB. *)
Definition getProfileNameInformation (profileName : string) : P (Z * Z * string) :=
  do r := ask (GetInstanceProfileWithContext profileName)
    orelse (fun e => Errorf "instance profile name %s not found, due to %w" [e]) in
  let '(vcpu, memory, arch) := r in
  do vcpu := deref vcpu in
  do memory := deref memory in
  do arch := deref arch in
  gret (vcpu, wrap64 (memory * 1024), arch).

Fixpoint describe_profiles (l : list string) : P (list InstanceTypeSpec) :=
  match l with
  | [] => gret []
  | profileType :: rest =>
      do i := getProfileNameInformation profileType in
      do more := describe_profiles rest in
      let '(vcpus, memory, arch) := i in
      gret (mkSpec profileType vcpus memory arch 0 "" false :: more)
  end.

Definition updateInstanceProfileSpecList `{SortSlice} (cfg : Config) : P (list InstanceTypeSpec) :=
  let profiles := match InstanceProfiles cfg with [] => [ProfileName cfg] | l => l end in
  do l := describe_profiles profiles in
  gret (SortInstanceTypesOnResources l).

(** The VPC, the resource group and the default security group of a subnet. *)
Definition fetchVPCDetails (subnetID : string) : P (string * string * string) :=
  do subnet := ask (GetSubnet subnetID) orelse (fun e => Errorf "VPC error with: %w" [e]) in
  do vpc := deref (sn_Vpc subnet) in
  do sg := ask (GetVPCDefaultSecurityGroup vpc) orelse (fun e => Errorf "VPC error with: %w" [e]) in
  do securityGroupID := deref sg in
  do vpcID := deref vpc in
  do group := deref (sn_ResourceGroup subnet) in
  do resourceGroupID := deref group in
  gret (vpcID, resourceGroupID, securityGroupID).

Definition unless_set (current found : string) : string := if String.eqb current "" then found else current.

Definition with_service_url (url : string) (c : Config) : Config :=
  mkConfig (ApiKey c) (IAMProfileID c) url (ResourceGroupID c) (ProfileName c) (ZoneName c) (Images c)
    (PrimarySubnetID c) (PrimarySecurityGroupID c) (SecondarySubnetID c) (SecondarySecurityGroupID c) (KeyID c)
    (VpcID c) (InstanceProfiles c) (InstanceProfileSpecList c) (ibm_DisableCVM c).

Definition with_zone (zone : string) (c : Config) : Config :=
  mkConfig (ApiKey c) (IAMProfileID c) (VpcServiceURL c) (ResourceGroupID c) (ProfileName c) zone (Images c)
    (PrimarySubnetID c) (PrimarySecurityGroupID c) (SecondarySubnetID c) (SecondarySecurityGroupID c) (KeyID c)
    (VpcID c) (InstanceProfiles c) (InstanceProfileSpecList c) (ibm_DisableCVM c).

Definition with_vpc (subnetID vpcID rgID sgID : string) (c : Config) : Config :=
  mkConfig (ApiKey c) (IAMProfileID c) (VpcServiceURL c) (unless_set (ResourceGroupID c) rgID) (ProfileName c)
    (ZoneName c) (Images c) (unless_set (PrimarySubnetID c) subnetID) (unless_set (PrimarySecurityGroupID c) sgID)
    (SecondarySubnetID c) (SecondarySecurityGroupID c) (KeyID c) (unless_set (VpcID c) vpcID)
    (InstanceProfiles c) (InstanceProfileSpecList c) (ibm_DisableCVM c).

Definition with_lists (specs : list InstanceTypeSpec) (images : list ibm_image) (c : Config) : Config :=
  mkConfig (ApiKey c) (IAMProfileID c) (VpcServiceURL c) (ResourceGroupID c) (ProfileName c) (ZoneName c) images
    (PrimarySubnetID c) (PrimarySecurityGroupID c) (SecondarySubnetID c) (SecondarySecurityGroupID c) (KeyID c)
    (VpcID c) (InstanceProfiles c) specs (ibm_DisableCVM c).

(** The labels of the node; none when its name is not known or they cannot be read. *)
Definition node_labels (nodeName : option string) : P (gmap string string) :=
  match nodeName with
  | None => gret ∅
  | Some name =>
      do r := gcatch (ask (NodeLabels name)) in
      gret (match r with Ok l => l | Err _ => ∅ end)
  end.

Definition service_url (labels : gmap string string) (c : Config) : Config :=
  match String.eqb (VpcServiceURL c) "", labels !! "topology.kubernetes.io/region"%string with
  | true, Some region => with_service_url ("https://" +:+ region +:+ ".iaas.cloud.ibm.com/v1") c
  | _, _ => c
  end.

Definition iks_subnet (labels : gmap string string) : option string :=
  match labels !! "ibm-provider.kubernetes.io/subnet-id"%string with
  | Some s => Some s
  | None => labels !! "ibm-cloud.kubernetes.io/subnet-id"%string
  end.

Definition discover (labels : gmap string string) (c : Config) : P Config :=
  match iks_subnet labels with
  | None => gret c
  | Some subnetID =>
      let c := with_zone (unless_set (ZoneName c) (default EmptyString (labels !! "topology.kubernetes.io/zone"%string))) c in
      do r := gcatch (fetchVPCDetails subnetID) in
      gret (match r with Err _ => c | Ok (vpcID, rgID, sgID) => with_vpc subnetID vpcID rgID sgID c end)
  end.

Definition ibm_NewProvider `{SortSlice} (nodeName : option string) (cfg : Config) : P Config :=
  if (String.eqb (ApiKey cfg) "" && String.eqb (IAMProfileID cfg) "")%bool then
    gfail (Errorf "either an IAM API Key or Profile ID needs to be set" [])
  else
    do labels := node_labels nodeName in
    let cfg := service_url labels cfg in
    do client := ask_err (NewVpcV1 (VpcServiceURL cfg)) in
    do cfg := discover labels cfg in
    do specs := updateInstanceProfileSpecList cfg in
    do images := updateImageList (Images cfg) in
    gret (with_lists specs images cfg).

End Provider.
