(* ===== verification/IbmProps.v ===== *)
(** * Theorems of the IBM Cloud provider

    - The compaction of the images in place is the plain filtering of the list.
    - A launch: what is asked for, how often the instance is read, and when it is
      returned without an address.
    - The secondary interface is not waited for.
    - Values of the configuration win over those of the labels of the node. *)

From Stdlib Require Import ZArith Ascii String Lia.
From stdpp Require Import base gmap strings list.
From S2P Require Import Prelude InstanceTypes NetAddr ProviderKit IbmCloud.

Open Scope Z_scope.
Open Scope go_scope.

Section Props.

Context {W : Type} `{VpcApi W} `{NetIP}.

Notation P A := (G W vpc_call A).

(** ** The list of images *)

(** The images that can be read, with what was read. *)
Fixpoint valid_images (images : list ibm_image) : P (list ibm_image) :=
  match images with
  | [] => gret []
  | image :: rest =>
      do d := gcatch (getImageDetails (img_ID image)) in
      match d with
      | Err _ => valid_images rest
      | Ok (arch, os) =>
          do more := valid_images rest in
          gret (mkIbmImage (img_ID image) arch os :: more)
      end
  end.

Definition filter_images (images : list ibm_image) : P (list ibm_image) :=
  do l := valid_images images in
  match l with [] => gfail (Errorf "no images valid images found" []) | _ => gret l end.

(** The run of [compact] next to that of [valid_images] on what is still to be read. *)
Lemma compact_run n j i images s : (i <= j)%nat -> (j + n = length images)%nat ->
  match valid_images (drop j images) s with
  | (Return (Ok l), s') => exists images', compact n j i images s = (Return (Ok (i + length l, images')%nat), s') /\
                             take (i + length l) images' = take i images ++ l
  | (Return (Err e), s') => compact n j i images s = (Return (Err e), s')
  | (Panic, s') => compact n j i images s = (Panic, s')
  end.
Proof.
  revert j i images s. induction n as [|n IH]; intros j i images s Hij Hn.
  - rewrite drop_ge by lia. cbn. eexists. rewrite Nat.add_0_r, app_nil_r. done.
  - destruct (lookup_lt_is_Some_2 images j) as [image Hj]; [lia|].
    rewrite (drop_S images image j Hj). cbn [compact valid_images]. rewrite Hj.
    rewrite !gbind_run. cbn [deref gret mret]. rewrite gbind_run.
    destruct (gcatch (getImageDetails (img_ID image)) s) as [[[[[arch os]|e]|e]|] s1] eqn:E;
      try done; [|apply IH; lia].
    rewrite gbind_run.
    specialize (IH (S j) (S i) (<[i:=mkIbmImage (img_ID image) arch os]> images) s1).
    rewrite drop_insert_lt in IH by lia. rewrite length_insert in IH.
    destruct (valid_images (drop (S j) images) s1) as [[[l|e]|] s2]; [|apply IH; lia..].
    destruct IH as (images' & E1 & E2); [lia..|]. exists images'. rewrite E1. cbn [length].
    split; [do 3 f_equal; f_equal; lia|].
    replace (i + S (length l))%nat with (S i + length l)%nat by lia. rewrite E2.
    rewrite (take_S_r _ i (mkIbmImage (img_ID image) arch os)) by (apply list_lookup_insert_eq; lia).
    rewrite take_insert_ge by lia. by rewrite <- app_assoc.
Qed.

Lemma updateImageList_run images (s : sdk W vpc_call) : updateImageList images s = filter_images images s.
Proof.
  pose proof (compact_run (length images) 0 0 images s ltac:(lia) ltac:(lia)) as Hc. rewrite drop_0 in Hc.
  unfold updateImageList, filter_images, gbind, mbind.
  destruct (valid_images images s) as [[[l|e]|] s']; [|by rewrite Hc..].
  destruct Hc as (images' & -> & Ht). cbn [Nat.add take app] in Ht |- *. rewrite Ht. by destruct l.
Qed.

(** C33: The compaction of the configured images in place, which writes into the array it
    ranges over, behaves like the plain filtering of the list, with the same calls in
    the same order: exactly the images that can be read remain, in their order, each
    with its architecture and operating system, and having none is an error. *)
Theorem updateImageList_filters images (s : sdk W vpc_call) : updateImageList images s = filter_images images s.
Proof. apply updateImageList_run. Qed.

(** ** Launch *)

Definition is_created (c : vpc_call) : bool := match c with Created _ _ => true | _ => false end.
Definition is_queried (id : string) (c : vpc_call) : bool :=
  match c with Queried i _ => String.eqb i id | _ => false end.

Lemma other_nics_quiet pr nics : wp (W := W) (other_nics pr nics) (fun _ l => l = []).
Proof.
  induction nics as [|n nics IH]; cbn [other_nics]; wp_run; try done.
  eapply wp_mono; [exact IH|]. intros [[x|e]|] l ->; [|done..]. by wp_run.
Qed.

Lemma nic_ips_nonempty n nics ips : nic_ips (n :: nics) = Ok ips -> ips <> [].
Proof.
  cbn [nic_ips]. destruct (nic_PrimaryIP n); [|done]. destruct (address_missing _); [done|].
  destruct (ParseAddr _); [|done]. by destruct (nic_ips nics) as [l|]; intros [= <-].
Qed.

Lemma getIPs_wp instance k :
  wp (W := W) (ibm_getIPs instance k) (fun r l => l = [] /\ match r with Return (Ok ips) => ips <> [] | _ => True end).
Proof.
  unfold ibm_getIPs. wp_run. eapply wp_mono; [apply other_nics_quiet|]. intros [[x|e]|] l ->; [|done..].
  wp_run; split; try done. all: by eapply nic_ips_nonempty.
Qed.

(** Reads of the instance, at most as many as there are rounds; all of them when no
    address was found. *)
Definition waited (retries : nat) (id : string) (r : outcome (result (list Addr))) (l : list vpc_call) : Prop :=
  Forall (fun c => is_queried id c = true) l /\ (length l <= retries)%nat /\
  match r with Return (Ok ips) => ips = [] <-> length l = retries | _ => True end.

Lemma wait_ips_wp retries id k instance :
  wp (W := W) (wait_ips retries id k instance) (waited retries id).
Proof.
  revert instance. induction retries as [|n IH]; intros instance; cbn [wait_ips].
  - wp_run. by repeat constructor.
  - wp_run. eapply wp_mono; [apply getIPs_wp|]. intros [[ips|e]|] l [-> Hips]; cbn [app];
      [|wp_run|by repeat split; cbn; lia || constructor].
    + wp_run. split; [by constructor|]. cbn. split; [lia|]. by destruct ips.
    + eapply wp_mono; [apply IH|]. intros r l (Hq & Hl & Hr). split; [constructor; [cbn; by rewrite String.eqb_refl|done]|].
      cbn [length]. split; [lia|]. destruct r as [[ips|]|]; [|done..]. rewrite Hr. lia.
    + split; [constructor; [cbn; by rewrite String.eqb_refl|constructor]|]. cbn. split; [lia|done].
    + split; [constructor|]. cbn. split; [lia|done].
Qed.

(** What is asked for. *)
Definition ibm_well_made (cfg : Config) (spec : InstanceTypeSpec) (data : string) (p : prototype) : Prop :=
  selectInstanceProfile cfg spec = Ok (pr_Profile p) /\ pr_UserData p = data /\
  (if nonempty (Image spec) then pr_Image p = Image spec else selectImage cfg spec (pr_Profile p) = Ok (pr_Image p)) /\
  pr_Tdx p = negb (ibm_DisableCVM cfg) /\ pr_SecureBoot p = negb (ibm_DisableCVM cfg).

Definition ibm_launched (cfg : Config) (spec : InstanceTypeSpec) (cc : result string)
    (r : outcome (result (Instance Addr))) (l : list vpc_call) : Prop :=
  match l with
  | [] => match r with Return (Ok _) => False | _ => True end
  | Created p (Err e) :: reads => cc = Ok (pr_UserData p) /\ ibm_well_made cfg spec (pr_UserData p) p /\ reads = [] /\ r = Return (Err e)
  | Created p (Ok vi) :: reads =>
      cc = Ok (pr_UserData p) /\ ibm_well_made cfg spec (pr_UserData p) p /\
      (forall id, vi_ID vi = Some id -> Forall (fun c => is_queried id c = true) reads) /\
      (length reads <= maxRetries)%nat /\
      match r with
      | Return (Ok i) => vi_ID vi = Some (ID i) /\ (IPs i = [] <-> length reads = maxRetries)
      | _ => True
      end
  | _ => False
  end.

Lemma ibm_CreateInstance_wp lower cfg podName sandboxID cc spec :
  wp (W := W) (ibm_CreateInstance lower cfg podName sandboxID cc spec) (ibm_launched cfg spec cc).
Proof.
  unfold ibm_CreateInstance. wp_run; try done; unfold ibm_launched;
    assert (Hm : forall name data prof im, selectInstanceProfile cfg spec = Ok prof ->
       (if nonempty (Image spec) then Ok (Image spec) else selectImage cfg spec prof) = Ok im ->
       ibm_well_made cfg spec data (getInstancePrototype cfg name data prof im))
      by (intros; unfold ibm_well_made; cbn; split_and!; try done; by destruct (nonempty (Image spec)); simplify_eq).
  - eapply wp_mono; [apply wait_ips_wp|]. intros [[ips|e]|] l (Hq & Hl & Hr); cbn [app]; wp_run;
      rewrite ?app_nil_r; split_and!; try done; try (by cbn; apply Hm);
      intros id Hid; by simplify_eq.
  - split_and!; [done|by cbn; apply Hm|by constructor|cbn; lia|done].
  - split_and!; try done. by cbn; apply Hm.
Qed.

(** A launch on IBM Cloud asks for one instance at most, of the profile that was
    selected, with the cloud-config as user data, the image of the annotation or one
    of the list that fits the architecture, and confidential with secure boot unless
    that is disabled; the instance is then read at most ten times; an instance that
    is returned is the created one, and it comes without any address, and without an
    error, exactly when all ten reads were used up.  Nothing is deleted on errors. *)
Theorem ibm_launch lower cfg podName sandboxID cc spec (s : sdk W vpc_call) r s' :
  ibm_CreateInstance lower cfg podName sandboxID cc spec s = (r, s') ->
  exists l, sdk_calls s' = sdk_calls s ++ l /\ ibm_launched cfg spec cc r l.
Proof. intros E. exact (wp_elim _ _ _ _ _ (ibm_CreateInstance_wp lower cfg podName sandboxID cc spec) E). Qed.

(** With a secondary subnet the prototype asks for a second interface, but the number
    the addresses are compared with does not count the primary one: an instance that
    shows only its primary interface is taken as ready. *)
Theorem secondary_address_not_awaited cfg name data prof im pr ip a vid (s : sdk W vpc_call) :
  nonempty (SecondarySubnetID cfg) = true -> nic_PrimaryIP pr = Some (Some a) ->
  address_missing (Some a) = false -> ParseAddr a = Some ip ->
  length (pr_Secondary (getInstancePrototype cfg name data prof im)) = 1%nat /\
  ibm_getIPs (mkVpcInstance vid (Some pr) []) (length (pr_Secondary (getInstancePrototype cfg name data prof im))) s
    = (Return (Ok [ip]), s).
Proof.
  intros Hs Hp Ha Hip. cbn [getInstancePrototype pr_Secondary]. rewrite Hs. split; [done|].
  unfold ibm_getIPs. cbn [vi_Primary vi_Interfaces other_nics length]. rewrite !gbind_run. cbn [gret mret].
  rewrite !gbind_run. cbn [deref gret mret]. rewrite gbind_run. cbn [of_result mret nic_ips].
  rewrite Hp, Ha. unfold default. cbn [from_option]. unfold id. by rewrite Hip.
Qed.

(** ** Images and profiles *)

Lemma image_for_spec arch images id : image_for arch images = Ok id ->
  exists im, im ∈ images /\ img_ID im = id /\ (arch = "" \/ img_Arch im = arch).
Proof.
  induction images as [|im images IH]; [done|]. cbn [image_for]. unfold nonempty.
  destruct (String.eqb_spec arch ""), (String.eqb_spec (img_Arch im) arch); cbn [negb andb]; intros E; simplify_eq;
    try (exists im; split_and!; [by left|done|by auto]).
  destruct (IH E) as (im' & Hin & Hrest). exists im'. split; [by right|done].
Qed.

(** ** Construction *)

(** The fields of the configuration that are discovered. *)
Definition discovered (c : Config) : list string :=
  [VpcServiceURL c; ZoneName c; PrimarySubnetID c; VpcID c; ResourceGroupID c; PrimarySecurityGroupID c].

Definition kept_value (v v' : string) : Prop := v <> "" -> v' = v.

#[local] Instance kept_value_trans : Transitive kept_value.
Proof. intros x y z Hxy Hyz Hne. rewrite Hyz; [by apply Hxy|]. by rewrite (Hxy Hne). Qed.

Definition keeps (c c' : Config) : Prop :=
  Forall2 kept_value (discovered c) (discovered c') /\
  ProfileName c' = ProfileName c /\ InstanceProfiles c' = InstanceProfiles c /\ KeyID c' = KeyID c /\
  SecondarySubnetID c' = SecondarySubnetID c /\ SecondarySecurityGroupID c' = SecondarySecurityGroupID c /\
  ibm_DisableCVM c' = ibm_DisableCVM c /\ Images c' = Images c.

Lemma unless_set_keeps v f : v <> "" -> unless_set v f = v.
Proof. unfold unless_set. by destruct (String.eqb_spec v ""). Qed.

(** The six values one by one. *)
Ltac kept_values := repeat (apply List.Forall2_cons; [intros Hne|]); [..|apply List.Forall2_nil].

Lemma keeps_refl c : keeps c c.
Proof. split; [by kept_values|done]. Qed.

Lemma keeps_trans a b c : keeps a b -> keeps b c -> keeps a c.
Proof.
  intros [Ha Ha'] [Hb Hb']. split; [|intuition congruence].
  by etrans.
Qed.

Lemma service_url_keeps labels c : keeps c (service_url labels c).
Proof.
  unfold service_url. destruct (String.eqb_spec (VpcServiceURL c) "") as [E|E];
    [destruct (labels !! _)|]; try apply keeps_refl.
  split; [by kept_values|done].
Qed.

Lemma discover_wp labels c :
  wp (W := W) (discover labels c) (fun r l => l = [] /\ match r with Return (Ok c') => keeps c c' | _ => True end).
Proof.
  unfold discover, fetchVPCDetails. wp_run; (split; [done|]); try exact I; try apply keeps_refl.
  all: split; [kept_values; cbn in *; try done; by apply unless_set_keeps|done].
Qed.

Lemma describe_profiles_wp profiles :
  wp (W := W) (describe_profiles profiles) (fun r l => l = [] /\
    match r with Return (Ok specs) => map InstanceType specs = profiles | _ => True end).
Proof.
  induction profiles as [|t ts IH]; cbn [describe_profiles]; unfold getProfileNameInformation; wp_run; try done.
  eapply wp_mono; [exact IH|]. intros [[specs|err]|] l [-> Hs]; [|done..]. wp_run. split; [done|]. cbn. by rewrite Hs.
Qed.

Lemma valid_images_wp images :
  wp (W := W) (valid_images images) (fun r l => l = [] /\
    match r with Return (Ok kept) => map img_ID kept `sublist_of` map img_ID images | _ => True end).
Proof.
  induction images as [|im images IH]; cbn [valid_images]; unfold getImageDetails; wp_run; try done.
  - eapply wp_mono; [exact IH|]. intros [[kept|err]|] l [-> Hk]; [|done..]. wp_run. split; [done|].
    cbn. by apply sublist_skip.
  - eapply wp_mono; [exact IH|]. intros [[kept|err]|] l [-> Hk]; split; try done. cbn. by apply sublist_cons.
Qed.

Lemma updateImageList_wp images :
  wp (W := W) (updateImageList images) (fun r l => l = [] /\
    match r with Return (Ok kept) => kept <> [] /\ map img_ID kept `sublist_of` map img_ID images | _ => True end).
Proof.
  assert (Hf : wp (W := W) (filter_images images) (fun r l => l = [] /\
    match r with Return (Ok kept) => kept <> [] /\ map img_ID kept `sublist_of` map img_ID images | _ => True end)).
  { unfold filter_images. wp_run. eapply wp_mono; [apply valid_images_wp|].
    intros [[kept|err]|] l [-> Hk]; [|done..]. by wp_run. }
  intros s. rewrite updateImageList_run. apply Hf.
Qed.

Lemma ibm_config_assembled `{SortSlice} cfg c specs kept :
  ApiKey cfg <> "" \/ IAMProfileID cfg <> "" -> keeps cfg c ->
  map InstanceType specs = match InstanceProfiles c with [] => [ProfileName c] | l => l end ->
  kept <> [] /\ map img_ID kept `sublist_of` map img_ID (Images c) ->
  let cfg' := with_lists (SortInstanceTypesOnResources specs) kept c in
  (ApiKey cfg <> "" \/ IAMProfileID cfg <> "") /\
  keeps cfg (with_lists (InstanceProfileSpecList cfg') (Images cfg) cfg') /\
  map InstanceType (InstanceProfileSpecList cfg') ≡ₚ
    match InstanceProfiles cfg with [] => [ProfileName cfg] | l => l end /\
  Images cfg' <> [] /\ map img_ID (Images cfg') `sublist_of` map img_ID (Images cfg).
Proof.
  intros Hk (Hd & E1 & E2 & E3 & E4 & E5 & E6 & E7) Hs [Hn Hi]. cbn. rewrite E1, E2 in Hs. rewrite E7 in Hi.
  split_and!; try done. rewrite <- Hs. apply (Permutation_map InstanceType), sort_Slice_perm.
Qed.

Lemma ibm_NewProvider_wp `{SortSlice} nodeName cfg :
  wp (W := W) (ibm_NewProvider nodeName cfg) (fun r l => l = [] /\
    match r with
    | Return (Ok cfg') =>
        (ApiKey cfg <> "" \/ IAMProfileID cfg <> "") /\
        keeps cfg (with_lists (InstanceProfileSpecList cfg') (Images cfg) cfg') /\
        map InstanceType (InstanceProfileSpecList cfg') ≡ₚ
          match InstanceProfiles cfg with [] => [ProfileName cfg] | l => l end /\
        Images cfg' <> [] /\ map img_ID (Images cfg') `sublist_of` map img_ID (Images cfg)
    | _ => True
    end).
Proof.
  unfold ibm_NewProvider, node_labels. wp_run; try done.
  all: eapply wp_mono; [apply discover_wp|]; intros [[c|err]|] l [-> Hc]; [|done..]; cbn [app].
  all: unfold updateInstanceProfileSpecList; wp_run.
  all: eapply wp_mono; [apply describe_profiles_wp|]; intros [[specs|err]|] l [-> Hs]; [|done..]; cbn [app]; wp_run.
  all: eapply wp_mono; [apply updateImageList_wp|]; intros [[kept|err]|] l [-> Hk]; [|done..]; cbn [app]; wp_run.
  all: split; [done|].
  all: pose proof (keeps_trans _ _ _ (service_url_keeps _ cfg) Hc) as Hk2.
  all: eapply ibm_config_assembled; [by bool_cases; naive_solver| |..]; eassumption || exact Hk.
Qed.

(** The construction of the provider reads the labels of the node, the subnet and the
    profiles, and changes nothing in the cloud; it needs a key or a profile to log in;
    a value that was configured is never replaced by a discovered one; the table of
    profiles has exactly the configured ones, sorted; and the images that remain are
    some of the configured ones, at least one, in their order. *)
Theorem ibm_configuration `{SortSlice} nodeName cfg (s : sdk W vpc_call) cfg' s' :
  ibm_NewProvider nodeName cfg s = (Return (Ok cfg'), s') ->
  sdk_calls s' = sdk_calls s /\ (ApiKey cfg <> "" \/ IAMProfileID cfg <> "") /\
  keeps cfg (with_lists (InstanceProfileSpecList cfg') (Images cfg) cfg') /\
  map InstanceType (InstanceProfileSpecList cfg') ≡ₚ
    match InstanceProfiles cfg with [] => [ProfileName cfg] | l => l end /\
  Images cfg' <> [] /\ map img_ID (Images cfg') `sublist_of` map img_ID (Images cfg).
Proof.
  intros E. destruct (wp_elim _ _ _ _ _ (ibm_NewProvider_wp nodeName cfg) E) as (l & Hl & -> & Hr).
  by rewrite Hl, app_nil_r.
Qed.

(** An image that is selected is one of the list, and of the architecture the pod asks
    for or, if it asks for none, of that of the selected profile when that is known. *)
Theorem ibm_image_fits cfg spec profile imgid :
  selectImage cfg spec profile = Ok imgid ->
  exists im, im ∈ Images cfg /\ img_ID im = imgid /\
    (Arch spec <> "" -> img_Arch im = Arch spec) /\
    (Arch spec = "" -> arch_of profile (InstanceProfileSpecList cfg) = "" \/
                       img_Arch im = arch_of profile (InstanceProfileSpecList cfg)).
Proof.
  unfold selectImage. intros E. destruct (image_for_spec _ _ _ E) as (im & Hin & Hid & Ha).
  exists im. destruct (String.eqb_spec (Arch spec) ""); naive_solver.
Qed.

End Props.

(** ** Witnesses *)

(** A VPC whose instance shows an address only after [v_delay] reads. *)
Record mini_vpc := mkMiniVpc { v_delay : nat }.

Definition mini_nic (delay : nat) : nic :=
  mkNic (Some "nic-0"%string) (match delay with O => Some (Some "10.1.0.4"%string) | _ => None end).
Definition mini_instance (delay : nat) : vpcInstance := mkVpcInstance (Some "vm-1"%string) (Some (mini_nic delay)) [mini_nic delay].

#[export] Instance mini_vpc_api : VpcApi mini_vpc := {
  NewVpcV1 := fun _ => mret None;
  NodeLabels := fun _ => mret (Ok (<["ibm-cloud.kubernetes.io/subnet-id"%string := "sub-1"%string]> ∅));
  GetSubnet := fun _ => mret (Ok (mkSubnet (Some (Some "vpc-1"%string)) (Some (Some "rg-1"%string))));
  GetVPCDefaultSecurityGroup := fun _ => mret (Ok (Some "sg-1"%string));
  CreateInstanceWithContext := fun _ w => (Ok (mini_instance (v_delay w)), w);
  GetInstanceWithContext := fun _ w =>
    let d := Nat.pred (v_delay w) in (Ok (mini_instance d), mkMiniVpc d);
  DeleteInstanceWithContext := fun _ => mret None;
  GetInstanceProfileWithContext := fun _ => mret (Ok (Some 2, Some 8, Some "amd64"%string));
  GetImageWithContext := fun im => mret (if String.eqb im "gone" then Err (Errorf "not found" [])
                                        else Ok (Some "amd64"%string, Some "ubuntu"%string))
}.

Definition mini_ibm : Config :=
  mkConfig "key" "" "" "" "bx2-2x8" "" [mkIbmImage "gone" "" ""; mkIbmImage "img-1" "" ""] "" "" "sub-2" "sg-2" "" "my-vpc"
    [] [] false.
Definition vpc_started (delay : nat) : sdk mini_vpc vpc_call := mkSdk (mkMiniVpc delay) [].
Definition mini_launch (delay : nat) :=
  ibm_CreateInstance (fun z => z) mini_ibm "pod" "sandbox1" (Ok "#cloud-config"%string)
    (mkSpec "bx2-2x8" 0 0 "" 0 "" false) (vpc_started delay).

(** Nothing is ready after ten reads: an instance without an address, and no error. *)
Lemma ibm_launch_witness :
  match mini_launch 11 with
  | (Return (Ok i), s') => ID i = "vm-1"%string /\ IPs i = [] /\ length (sdk_calls s') = 11%nat
  | _ => False
  end.
Proof.
  assert (Hr : match mini_launch 11 with
               | (Return (Ok i), s') => (String.eqb (ID i) "vm-1" && (length (sdk_calls s') =? 11)%nat)%bool
               | _ => false end = true) by (vm_compute; reflexivity).
  destruct (mini_launch 11) as [[[i|e]|] s'] eqn:E; [|discriminate Hr..].
  destruct (ibm_launch (fun z => z) mini_ibm "pod" "sandbox1" (Ok "#cloud-config"%string)
              (mkSpec "bx2-2x8" 0 0 "" 0 "" false) (vpc_started 11) _ s' E) as (l & El & Hl).
  cbn in El. apply andb_prop in Hr as [H1 H2]. apply String.eqb_eq in H1. apply Nat.eqb_eq in H2.
  split; [exact H1|]. split; [|exact H2]. rewrite El in H2.
  clear E El H1. unfold ibm_launched in Hl.
  destruct l as [|[p [vi|err]| |] reads]; [destruct Hl| |destruct Hl as (_ & _ & _ & [=])|destruct Hl|destruct Hl].
  destruct Hl as (_ & _ & _ & _ & _ & Hi). apply Hi. cbn in H2. unfold maxRetries. lia.
Defined.

Lemma ibm_configuration_witness :
  match ibm_NewProvider (Some "node"%string) mini_ibm (vpc_started 0) with
  | (Return (Ok cfg'), _) => VpcID cfg' = "my-vpc"%string /\ PrimarySubnetID cfg' = "sub-1"%string /\
                             map img_ID (Images cfg') `sublist_of` ["gone"; "img-1"]%string
  | _ => False
  end.
Proof.
  assert (Hr : match ibm_NewProvider (Some "node"%string) mini_ibm (vpc_started 0) with
               | (Return (Ok cfg'), _) => (String.eqb (VpcID cfg') "my-vpc" && String.eqb (PrimarySubnetID cfg') "sub-1")%bool
               | _ => false end = true) by (vm_compute; reflexivity).
  destruct (ibm_NewProvider (Some "node"%string) mini_ibm (vpc_started 0)) as [[[cfg'|e]|] s'] eqn:E; [|discriminate Hr..].
  apply andb_prop in Hr as [H1 H2]. apply String.eqb_eq in H1, H2.
  split; [exact H1|]. split; [exact H2|].
  exact (proj2 (proj2 (proj2 (proj2 (proj2 (ibm_configuration (Some "node"%string) mini_ibm (vpc_started 0) cfg' s' E)))))).
Defined.

Lemma secondary_address_not_awaited_witness :
  nonempty (SecondarySubnetID mini_ibm) = true /\
  exists ip, ibm_getIPs (W := mini_vpc) (mkVpcInstance (Some "vm-1"%string) (Some (mini_nic 0)) []) 1 (vpc_started 0)
    = (Return (Ok [ip]), vpc_started 0).
Proof.
  split; [reflexivity|].
  destruct (ParseAddr "10.1.0.4") as [ip|] eqn:E; [|assert (X : match ParseAddr "10.1.0.4" with Some _ => true | None => false end = true)
    by (vm_compute; reflexivity); rewrite E in X; discriminate X].
  exists ip. exact (proj2 (secondary_address_not_awaited mini_ibm "n" "d" "p" "i" (mini_nic 0) ip "10.1.0.4"
    (Some "vm-1"%string) (vpc_started 0) eq_refl eq_refl eq_refl E)).
Defined.

Lemma ibm_image_fits_witness :
  exists im, im ∈ Images mini_ibm /\ img_ID im = "gone"%string.
Proof.
  destruct (ibm_image_fits mini_ibm (mkSpec "" 0 0 "" 0 "" false) "bx2-2x8" "gone" eq_refl) as (im & Hin & Hid & _).
  exists im. split; [exact Hin|exact Hid].
Defined.
