(* ===== verification/Docker.v ===== *)
(** * The Docker provider

    Models src/cloud-providers/docker (provider.go, docker.go) and [WriteUserData] of
    src/cloud-providers/util.go over the client of Docker.  The image of the pod VM
    is a field of the provider that [CreateInstance] writes, so it is part of the
    state the operations share. *)

From Stdlib Require Import ZArith Ascii String Lia.
From stdpp Require Import base gmap strings list.
From S2P Require Import Prelude InstanceTypes NetAddr ProviderKit.

Open Scope Z_scope.
Open Scope go_scope.

Definition docker_maxInstanceNameLen : Z := 63.

(** What [ContainerCreate] is asked for; every container is privileged. *)
Record containerRequest := mkContainer {
  c_Name : string;
  c_Image : string;
  c_Binds : list string;
  c_Privileged : bool;
  c_Network : string
}.

Class DockerApi (W : Type) := {
  MkdirAll : string -> M W (option GoError);
  WriteFile : string -> string -> M W (option GoError);
  ContainerCreate : containerRequest -> M W (result string);
  ContainerStart : string -> M W (option GoError);
  (** the addresses by network; an entry may be nil *)
  ContainerInspect : string -> M W (result (gmap string (option string)));
  ContainerRemove : string -> bool -> M W (option GoError)
}.

Inductive docker_call :=
| WroteFile (path content : string)
| DockerCreated (req : containerRequest) (r : result string)
| DockerStarted (id : string) (e : option GoError)
| DockerRemoved (id : string) (force : bool) (e : option GoError).

(** The fields of the provider that do not change. *)
Record dockerProvider := mkDocker { DataDir : string; NetworkName : string }.

Section Provider.

Context {W : Type} `{DockerApi W} `{NetIP}.

(** The world of Docker and the field [PodVMDockerImage]. *)
Definition shared : Type := W * string.

Notation P A := (G shared docker_call A).

Definition set_image (spec : InstanceTypeSpec) : P unit :=
  if nonempty (Image spec) then put_fields (Image spec) else gret tt.

Definition WriteUserData (instanceName userData dataDir : string) : P string :=
  do d := ask_err (lift (MkdirAll dataDir)) in
  let filePath := filepath_Join [dataDir; instanceName +:+ "-userdata"] in
  do w := act_err (fun _ => WroteFile filePath userData) (lift (WriteFile filePath userData)) in
  gret filePath.

Definition createContainer (instanceName : string) (volumeBinding : list string) (podvmImage networkName : string)
  : P (string * string) :=
  let req := mkContainer instanceName podvmImage volumeBinding true networkName in
  do id := act (DockerCreated req) (lift (ContainerCreate req)) in
  do s := act_err (DockerStarted id) (lift (ContainerStart id)) in
  do networks := ask (lift (ContainerInspect id)) in
  do ip := deref (mjoin (networks !! networkName)) in
  gret (id, ip).

Definition binds (p : dockerProvider) (userdata : string) : list string :=
  [userdata +:+ ":" +:+ "/media/cidata/user-data";
   filepath_Join [DataDir p; "kata-containers"%string] +:+ ":" +:+ "/run/kata-containers";
   "/lib/modules" +:+ ":" +:+ "/lib/modules";
   "/run/xtables.lock" +:+ ":" +:+ "/run/xtables.lock";
   filepath_Join [DataDir p; "image"%string] +:+ ":" +:+ "/image"].

Definition docker_CreateInstance (lower : Z -> Z) (p : dockerProvider) (podName sandboxID : string)
    (cloudConfig : result string) (spec : InstanceTypeSpec) : P (Instance Addr) :=
  do instanceName := of_outcome (GenerateInstanceName lower podName sandboxID docker_maxInstanceNameLen) in
  do userData := of_result cloudConfig in
  do instanceUserdataFile := WriteUserData instanceName userData (DataDir p) in
  do u := set_image spec in
  do image := get_fields in
  do c := createContainer instanceName (binds p instanceUserdataFile) image (NetworkName p) in
  match ParseAddr (snd c) with
  | None => gfail (Errorf "ParseAddr" [])
  | Some ipAddr => gret (mkInstance (fst c) instanceName [ipAddr])
  end.

Definition docker_DeleteInstance (instanceID : string) : P unit :=
  act_err (DockerRemoved instanceID true) (lift (ContainerRemove instanceID true)).

Definition docker_NewProvider (version_ok : option GoError) (p : dockerProvider) : P dockerProvider :=
  do c := of_result (match version_ok with None => Ok tt | Some e => Err e end) in
  do d := ask_err (lift (MkdirAll (DataDir p))) in
  gret p.

(** ** Theorems *)

(** What one creation does to the provider: the image of the annotation stays. *)
Definition image_after (spec : InstanceTypeSpec) (image : string) : string :=
  if nonempty (Image spec) then Image spec else image.

(** A run of [CreateInstance], step by step. *)
Definition docker_launched (p : dockerProvider) (spec : InstanceTypeSpec) (cc : result string) (image : string)
    (r : outcome (result (Instance Addr))) (l : list docker_call) : Prop :=
  match l with
  | [] => match r with Return (Ok _) => False | _ => True end
  | [WroteFile _ data] => cc = Ok data /\ match r with Return (Ok _) => False | _ => True end
  | WroteFile path data :: DockerCreated req created :: rest =>
      cc = Ok data /\ c_Binds req = binds p path /\ path = filepath_Join [DataDir p; c_Name req +:+ "-userdata"] /\
      c_Image req = image_after spec image /\ c_Network req = NetworkName p /\ c_Privileged req = true /\
      match created, rest with
      | Err e, [] => r = Return (Err e)
      | Ok id, [DockerStarted id' None] => id' = id /\ match r with Return (Ok i) => ID i = id /\ Name i = c_Name req /\ length (IPs i) = 1%nat | _ => True end
      | Ok id, [DockerStarted id' (Some e)] => id' = id /\ r = Return (Err e)
      | _, _ => False
      end
  | _ => False
  end.

Lemma createContainer_wpf name vols image net f :
  wpf (W := W) (createContainer name vols image net) f (fun r f' l =>
    let req := mkContainer name image vols true net in f' = f /\
    ((exists e, l = [DockerCreated req (Err e)] /\ r = Return (Err e)) \/
     (exists id e, l = [DockerCreated req (Ok id); DockerStarted id (Some e)] /\ r = Return (Err e)) \/
     (exists id, l = [DockerCreated req (Ok id); DockerStarted id None] /\
        match r with Return (Ok c) => fst c = id | _ => True end))).
Proof. unfold createContainer. wpf_run; (split; [done|]); eauto 10. Qed.

Lemma docker_CreateInstance_wpf lower p podName sandboxID cc spec image :
  wpf (W := W) (docker_CreateInstance lower p podName sandboxID cc spec) image (fun r image' l =>
    docker_launched p spec cc image r l /\
    (match l with _ :: _ :: _ => true | _ => false end = true -> image' = image_after spec image)).
Proof.
  unfold docker_CreateInstance, WriteUserData, set_image. wpf_run; try done.
  all: eapply wpf_mono; [apply createContainer_wpf|]; intros r f' l [-> Hc]; cbn [app].
  all: unfold docker_launched, image_after; rewrite Heqb.
  all: destruct Hc as [(e & -> & ->)|[(cid & e & -> & ->)|(cid & -> & Hr)]]; [done..|].
  all: destruct r as [[[c ip]|e]|]; cbn in Hr; [subst c|done..].
  all: wpf_run; done.
Qed.

Lemma docker_run lower p podName sandboxID cc spec w img l r s' :
  docker_CreateInstance lower p podName sandboxID cc spec (mkSdk (w, img) l) = (r, s') ->
  exists l' w' img', s' = mkSdk (w', img') (l ++ l') /\ docker_launched p spec cc img r l' /\
    (match l' with _ :: _ :: _ => true | _ => false end = true -> img' = image_after spec img).
Proof. apply (wpf_elim _ _ _ _ _ _ _ (docker_CreateInstance_wpf lower p podName sandboxID cc spec img)). Qed.

(** A creation writes the cloud-config to a file named after the instance in the data
    directory and makes one privileged container at most, which sees that file as
    /media/cidata/user-data and is attached to the configured network; an instance
    that is returned is that container with one address; a container that cannot be
    started or has no address is left behind. *)
Theorem docker_launch lower p podName sandboxID cc spec w image l r s' :
  docker_CreateInstance lower p podName sandboxID cc spec (mkSdk (w, image) l) = (r, s') ->
  exists l', sdk_calls s' = l ++ l' /\ docker_launched p spec cc image r l'.
Proof. intros E. destruct (docker_run _ _ _ _ _ _ _ _ _ _ _ E) as (l' & w' & i' & -> & Hl & _). by exists l'. Qed.

(** The only container of a launch has the image of the annotation or of the field. *)
Lemma docker_launched_image p spec cc image r l req created : docker_launched p spec cc image r l ->
  DockerCreated req created ∈ l -> c_Image req = image_after spec image.
Proof.
  unfold docker_launched. intros Hl Hin. destruct l as [|[] [|[] rest]]; try done.
  - by apply not_elem_of_nil in Hin.
  - apply list_elem_of_singleton in Hin. done.
  - destruct Hl as (_ & _ & _ & Himg & _ & _ & Hrest). apply elem_of_cons in Hin as [Hin|Hin]; [done|].
    apply elem_of_cons in Hin as [[= -> ->]|Hin]; [done|].
    destruct r0, rest as [|[? ?|? ?|? [?|]|? ? ?] [|]]; try done; try (by apply not_elem_of_nil in Hin).
    all: by apply list_elem_of_singleton in Hin.
Qed.

(** The image that one pod asks for by its annotation is used for every later pod that
    asks for none, in place of the configured image. *)
Theorem docker_image_sticks lower p pod1 pod2 id1 id2 cc1 cc2 spec1 spec2 w image l i s1 r s2 :
  Image spec1 <> "" -> Image spec2 = "" ->
  docker_CreateInstance lower p pod1 id1 cc1 spec1 (mkSdk (w, image) l) = (Return (Ok i), s1) ->
  docker_CreateInstance lower p pod2 id2 cc2 spec2 s1 = (r, s2) ->
  exists l1 l2, sdk_calls s2 = l ++ l1 ++ l2 /\
    forall req created, DockerCreated req created ∈ l2 -> c_Image req = Image spec1.
Proof.
  intros H1 H2 E1 E2. destruct (docker_run _ _ _ _ _ _ _ _ _ _ _ E1) as (l1 & w1 & i1 & -> & Hl1 & Hi1).
  assert (Hi : i1 = Image spec1).
  { unfold docker_launched in Hl1. destruct l1 as [|[] [|b t]]; try done; [by destruct Hl1|].
    rewrite Hi1 by done. unfold image_after, nonempty. by destruct (String.eqb_spec (Image spec1) ""). }
  destruct (docker_run _ _ _ _ _ _ _ _ _ _ _ E2) as (l2 & w2 & i2 & -> & Hl2 & _).
  exists l1, l2. cbn. rewrite app_assoc. split; [done|]. intros req created Hin.
  assert (Ha : image_after spec2 i1 = Image spec1) by (unfold image_after; by rewrite H2, Hi).
  by rewrite (docker_launched_image _ _ _ _ _ _ _ _ Hl2 Hin).
Qed.

End Provider.

(** ** Witnesses *)

#[export] Instance mini_docker : DockerApi unit := {
  MkdirAll := fun _ => mret None;
  WriteFile := fun _ _ => mret None;
  ContainerCreate := fun req => mret (Ok ("id-" +:+ c_Name req));
  ContainerStart := fun _ => mret None;
  ContainerInspect := fun _ => mret (Ok {[ "bridge"%string := Some "172.17.0.3"%string ]});
  ContainerRemove := fun _ _ => mret None
}.

Definition mini_dp : dockerProvider := mkDocker "/var/lib/docker-podvm" "bridge".
Definition docker_started : sdk (shared (W := unit)) docker_call := mkSdk (tt, "podvm:latest"%string) [].
Definition docker_spec (image : string) : InstanceTypeSpec := mkSpec "" 0 0 "" 0 image false.

Lemma docker_launch_witness :
  exists i s' l', docker_CreateInstance (fun z => z) mini_dp "pod" "sandbox1" (Ok "data"%string) (docker_spec "") docker_started
    = (Return (Ok i), s') /\ sdk_calls s' = l' /\ docker_launched mini_dp (docker_spec "") (Ok "data"%string) "podvm:latest" (Return (Ok i)) l'.
Proof.
  destruct (docker_CreateInstance (fun z => z) mini_dp "pod" "sandbox1" (Ok "data"%string) (docker_spec "") docker_started)
    as [r s'] eqn:E.
  assert (Hr : match docker_CreateInstance (fun z => z) mini_dp "pod" "sandbox1" (Ok "data"%string) (docker_spec "") docker_started with
               | (Return (Ok _), _) => true | _ => false end = true) by (vm_compute; reflexivity).
  rewrite E in Hr. destruct r as [[i|e]|]; try discriminate Hr.
  destruct (docker_launch (fun z => z) mini_dp "pod" "sandbox1" (Ok "data"%string) (docker_spec "") tt "podvm:latest" []
              (Return (Ok i)) s' E) as (l' & Hl & Hd).
  exists i, s', l'. split; [reflexivity|]. split; [exact Hl|exact Hd].
Defined.

Lemma docker_image_sticks_witness :
  exists l1 l2 (s2 : sdk (shared (W := unit)) docker_call), sdk_calls s2 = l1 ++ l2 /\
    forall req created, DockerCreated req created ∈ l2 -> c_Image req = "custom:1"%string.
Proof.
  destruct (docker_CreateInstance (fun z => z) mini_dp "a" "sandbox1" (Ok "data"%string) (docker_spec "custom:1") docker_started)
    as [r1 s1] eqn:E1.
  assert (Hr : match docker_CreateInstance (fun z => z) mini_dp "a" "sandbox1" (Ok "data"%string) (docker_spec "custom:1") docker_started with
               | (Return (Ok _), _) => true | _ => false end = true) by (vm_compute; reflexivity).
  rewrite E1 in Hr. destruct r1 as [[i|e]|]; try discriminate Hr.
  destruct (docker_CreateInstance (fun z => z) mini_dp "b" "sandbox2" (Ok "data"%string) (docker_spec "") s1) as [r2 s2] eqn:E2.
  destruct (docker_image_sticks (fun z => z) mini_dp "a" "b" "sandbox1" "sandbox2" (Ok "data"%string) (Ok "data"%string)
              (docker_spec "custom:1") (docker_spec "") tt "podvm:latest" [] i s1 r2 s2 ltac:(discriminate) eq_refl E1 E2)
    as (l1 & l2 & Hl & Hi).
  exists l1, l2, s2. split; [exact Hl|exact Hi].
Defined.
