(* ===== verification/PowerVs.v ===== *)
(** * The IBM Power VS provider

    Models src/cloud-providers/ibmcloud-powervs/provider.go over the clients of the
    Power VS service, the class [PowerVsApi].  Sizes are float64 numbers of which
    the code uses the conversion from integers.  The two waits run until their
    deadline; the number of attempts that fit is a parameter. *)

From Stdlib Require Import ZArith Ascii String Lia.
From stdpp Require Import base gmap strings list.
From S2P Require Import Prelude InstanceTypes NetAddr Initdata ProviderKit.

Open Scope Z_scope.
Open Scope go_scope.

Definition pvs_maxInstanceNameLen : Z := 47.

(** [float64], with the conversion from [int64]. *)
Class Float64 := { float64 : Type; float_of_int : Z -> float64 }.

(** One network of an instance. *)
Record pvsNetwork := mkPvsNetwork {
  n_Type : string; n_IPAddress : string; n_ExternalIP : string; n_NetworkID : string; n_MacAddress : string
}.

(** A lease: the hardware address and the address. *)
Record lease := mkLease { l_Mac : option string; l_IP : option string }.

Section Data.

Context `{Float64}.

Record PvsConfig := mkPvsConfig {
  pvs_NetworkID : string;
  pvs_ImageId : string;
  pvs_SSHKey : string;
  pvs_Memory : float64;
  pvs_Processors : float64;
  pvs_ProcessorType : string;
  pvs_SystemType : string;
  pvs_UsePublicIP : bool
}.

Record pvsBody := mkBody {
  b_ServerName : string;
  b_ImageID : string;
  b_KeyPairName : string;
  b_NetworkID : string;
  b_Memory : float64;
  b_Processors : float64;
  b_ProcType : string;
  b_SysType : string;
  b_UserData : string
}.

Class PowerVsApi (W : Type) := {
  (** the identifiers of the created instances *)
  pvs_Create : pvsBody -> M W (result (list (option string)));
  (** status and networks *)
  pvs_Get : string -> M W (result (option string * list pvsNetwork));
  pvs_Delete : string -> M W (option GoError);
  (** identifiers of the servers and of their networks *)
  dhcp_GetAll : M W (result (list (option string * option string)));
  dhcp_Get : string -> M W (result (list lease));
  (** the attempts before the deadlines of 150 and of 750 seconds *)
  active_attempts : nat;
  dhcp_attempts : nat
}.

Inductive pvs_call :=
| PvsCreated (b : pvsBody) (r : result (list (option string)))
| PvsDeleted (id : string) (e : option GoError).

End Data.

Section Provider.

Context {W : Type} `{Float64} `{!PowerVsApi W} `{NetIP}.

Notation P A := (G W pvs_call A).

(** [retry.Do] without a limit of attempts, until the context ends. *)
Fixpoint retry_until {A} (attempts : nat) (f : P A) : P A :=
  match attempts with
  | O => gfail (Sentinel "context deadline exceeded")
  | S n =>
      do r := gcatch f in
      match r with Ok a => gret a | Err _ => retry_until n f end
  end.

(** [strconv.Atoi] *)
Definition Atoi (s : string) : result Z :=
  match ParseInt s with Some z => Ok z | None => Err (Errorf "strconv.Atoi: parsing %q" []) end.

(** The shape: the annotations for CPUs and memory, then that for the type, whose form
    is taken for granted, then the configuration. *)
Definition shape (cfg : PvsConfig) (spec : InstanceTypeSpec) : P (string * float64 * float64) :=
  if (negb (VCPUs spec =? 0) && negb (Memory spec =? 0))%bool then
    gret (pvs_SystemType cfg, float_of_int (VCPUs spec), float_of_int (Z.quot (Memory spec) 1024))
  else if nonempty (InstanceType spec) then
    let typeAndSize := split_on "-" (InstanceType spec) in
    do systemType := deref (typeAndSize !! 0%nat) in
    do sizes := deref (typeAndSize !! 1%nat) in
    let size := split_on "x" sizes in
    do c := deref (size !! 0%nat) in
    do f := of_result (Atoi c) in
    do m := deref (size !! 1%nat) in
    do m := of_result (Atoi m) in
    gret (systemType, float_of_int f, float_of_int m)
  else gret (pvs_SystemType cfg, pvs_Processors cfg, pvs_Memory cfg).

Definition check_active (instanceID : string) : P unit :=
  do r := ask (pvs_Get instanceID) orelse (fun _ => Errorf "failed to get the instance: %v" []) in
  do status := deref (fst r) in
  if String.eqb status "ERROR" then gfail (Errorf "instance is in error state" [])
  else if String.eqb status "ACTIVE" then gret tt
  else gfail (Errorf "Instance failed to reach ACTIVE state" []).

(** ** Addresses *)

Fixpoint fixed_ips (cfg : PvsConfig) (networks : list pvsNetwork) : result (list Addr) :=
  match networks with
  | [] => Ok []
  | network :: rest =>
      if String.eqb (n_Type network) "fixed" then
        match ParseAddr (if pvs_UsePublicIP cfg then n_ExternalIP network else n_IPAddress network) with
        | None => Err (Errorf "failed to parse pod node IP %q: %w" [])
        | Some ip => result_map (cons ip) (fixed_ips cfg rest)
        end
      else fixed_ips cfg rest
  end.

(** The last network with the identifier. *)
Definition attached (networkID : string) (networks : list pvsNetwork) : option pvsNetwork :=
  foldl (fun found n => if String.eqb (n_NetworkID n) networkID then Some n else found) None networks.

(** The leases of the first server of the network; identifiers are dereferenced. *)
Fixpoint find_server (networkID : string) (servers : list (option string * option string)) : P (option (list lease)) :=
  match servers with
  | [] => gret None
  | (id, net) :: rest =>
      do n := deref net in
      if String.eqb n networkID then
        do i := deref id in
        do l := ask (dhcp_Get i) orelse (fun _ => Errorf "failed to get DHCP server details: %v" []) in
        gret (Some l)
      else find_server networkID rest
  end.

Fixpoint find_lease (mac : string) (leases : list lease) : P (option string) :=
  match leases with
  | [] => gret None
  | l :: rest =>
      do m := deref (l_Mac l) in
      if String.eqb m mac then gret (l_IP l) else find_lease mac rest
  end.

Definition getIPFromDHCPServer (cfg : PvsConfig) (networks : list pvsNetwork) : P (option string) :=
  match attached (pvs_NetworkID cfg) networks with
  | None => gfail (Errorf "failed to get network attached to instance" [])
  | Some net =>
      do servers := ask dhcp_GetAll orelse (fun _ => Errorf "failed to get the DHCP servers: %v" []) in
      do details := find_server (pvs_NetworkID cfg) servers in
      match details with
      | None => gfail (Errorf "DHCP server associated with network is nil" [])
      | Some leases => find_lease (n_MacAddress net) leases
      end
  end.

Definition leased_ip (cfg : PvsConfig) (networks : list pvsNetwork) : P Addr :=
  do ip := getIPFromDHCPServer cfg networks in
  match ip with
  | None => gfail (Errorf "failed to get IP from DHCP server: %v" [])
  | Some a => match ParseAddr a with
              | None => gfail (Errorf "failed to parse pod node IP %q: %w" [])
              | Some addr => gret addr
              end
  end.

Definition getVMIPs (cfg : PvsConfig) (instanceID : string) : P (list Addr) :=
  do ins := ask (pvs_Get instanceID) orelse (fun _ => Errorf "failed to get the instance: %v" []) in
  do ips := of_result (fixed_ips cfg (snd ins)) in
  match ips with
  | _ :: _ => gret ips
  | [] => do addr := retry_until dhcp_attempts (leased_ip cfg (snd ins)) in gret [addr]
  end.

(** ** Instances *)

Definition pvs_CreateInstance (lower : Z -> Z) (cfg : PvsConfig) (podName sandboxID : string) (cloudConfig : result string)
    (spec : InstanceTypeSpec) : P (Instance Addr) :=
  do instanceName := of_outcome (GenerateInstanceName lower podName sandboxID pvs_maxInstanceNameLen) in
  do userData := of_result cloudConfig in
  let imageId := if nonempty (Image spec) then Image spec else pvs_ImageId cfg in
  do sh := shape cfg spec in
  let '(systemType, processors, memory) := sh in
  let body := mkBody instanceName imageId (pvs_SSHKey cfg) (pvs_NetworkID cfg) memory processors
                (pvs_ProcessorType cfg) systemType (EncodeToString userData) in
  do created := act (PvsCreated body) (pvs_Create body) in
  match created with
  | [] => gfail (Errorf "there are no instances created" [])
  | ins :: _ =>
      do instanceID := deref ins in
      do a := retry_until active_attempts (check_active instanceID) in
      do ips := getVMIPs cfg instanceID orelse (fun _ => Errorf "failed to get IPs for the instance : %v" []) in
      gret (mkInstance instanceID instanceName ips)
  end.

Definition pvs_DeleteInstance (instanceID : string) : P unit :=
  act_err (PvsDeleted instanceID) (pvs_Delete instanceID).

Definition pvs_ConfigVerifier (cfg : PvsConfig) : option GoError :=
  if String.eqb (pvs_ImageId cfg) "" then Some (Errorf "ImageId is empty" []) else None.

(** ** Theorems *)

Lemma retry_until_quiet {A} n (f : P A) (R : A -> Prop) :
  wp f (fun r l => l = [] /\ match r with Return (Ok a) => R a | _ => True end) ->
  wp (retry_until n f) (fun r l => l = [] /\ match r with Return (Ok a) => R a | _ => True end).
Proof.
  intros Hf. induction n as [|n IH]; cbn [retry_until]; wp_run; [done|].
  eapply wp_mono; [exact Hf|]. intros [[a|e]|] l [-> HR]; [by wp_run| |done].
  eapply wp_mono; [exact IH|]. done.
Qed.

(** An address of the answer: a fixed one, or one leased to the hardware address of the
    attached network. *)
Lemma find_server_quiet nid servers : wp (W := W) (find_server nid servers) (fun _ l => l = []).
Proof. induction servers as [|[i n] servers IH]; cbn [find_server]; wp_run; done. Qed.

Lemma find_lease_quiet mac leases : wp (W := W) (find_lease mac leases) (fun _ l => l = []).
Proof. induction leases as [|x leases IH]; cbn [find_lease]; wp_run; done. Qed.

Lemma leased_ip_quiet cfg networks : wp (W := W) (leased_ip cfg networks) (fun r l => l = [] /\ match r with Return (Ok a) => True | _ => True end).
Proof.
  unfold leased_ip, getIPFromDHCPServer. wp_run; try done.
  eapply wp_mono; [apply find_server_quiet|]. intros [[[x|]|e]|] l ->; cbn [app]; try done; wp_run; [|done].
  eapply wp_mono; [apply find_lease_quiet|]. intros [[y|e]|] l ->; cbn [app]; try done. by wp_run.
Qed.

Lemma getVMIPs_wp cfg instanceID :
  wp (W := W) (getVMIPs cfg instanceID) (fun r l => l = [] /\ match r with Return (Ok ips) => ips <> [] | _ => True end).
Proof.
  unfold getVMIPs. wp_run; try done.
  eapply wp_mono; [apply (retry_until_quiet _ _ (fun _ => True)), leased_ip_quiet|].
  intros [[x|e]|] l [-> _]; cbn [app]; try done. by wp_run.
Qed.

Lemma check_active_quiet instanceID :
  wp (W := W) (check_active instanceID) (fun r l => l = [] /\ match r with Return (Ok _) => True | _ => True end).
Proof. unfold check_active. wp_run; done. Qed.

Lemma shape_quiet cfg spec : wp (W := W) (shape cfg spec) (fun _ l => l = []).
Proof. unfold shape. wp_run; done. Qed.

Definition pvs_launched (cfg : PvsConfig) (spec : InstanceTypeSpec) (cc : result string)
    (r : outcome (result (Instance Addr))) (l : list pvs_call) : Prop :=
  match l with
  | [] => match r with Return (Ok _) => False | _ => True end
  | [PvsCreated b created] =>
      (exists data, cc = Ok data /\ DecodeString (b_UserData b) = Ok data) /\
      b_ImageID b = (if nonempty (Image spec) then Image spec else pvs_ImageId cfg) /\
      b_NetworkID b = pvs_NetworkID cfg /\ b_ProcType b = pvs_ProcessorType cfg /\
      match r with
      | Return (Ok i) => exists more, created = Ok (Some (ID i) :: more) /\ Name i = b_ServerName b /\ IPs i <> []
      | _ => True
      end
  | _ => False
  end.

Lemma pvs_CreateInstance_wp lower cfg podName sandboxID cc spec :
  wp (W := W) (pvs_CreateInstance lower cfg podName sandboxID cc spec) (pvs_launched cfg spec cc).
Proof.
  unfold pvs_CreateInstance. wp_run; try done. subst cc.
  eapply wp_mono; [apply shape_quiet|]. intros [[[[st pr] me]|e]|] l ->; cbn [app]; [|done..].
  assert (Hb : forall name r created, match r with Return (Ok i) => exists more, created = Ok (Some (ID i) :: more) /\ Name i = name /\ IPs i <> [] | _ => True end ->
    pvs_launched cfg spec (Ok a0) r [PvsCreated (mkBody name (if nonempty (Image spec) then Image spec else pvs_ImageId cfg) (pvs_SSHKey cfg)
       (pvs_NetworkID cfg) me pr (pvs_ProcessorType cfg) st (EncodeToString a0)) created]).
  { intros name r created Hr. cbn. split_and!; try done. exists a0. split; [done|]. apply DecodeString_Encode. }
  wp_run; try (by apply Hb).
  eapply wp_mono; [apply (retry_until_quiet _ _ (fun _ => True)), check_active_quiet|].
  intros [[x|err]|] lx [-> _]; cbn [app]; [|by apply Hb..]. wp_run.
  eapply wp_mono; [apply getVMIPs_wp|]. intros [[ips|err]|] ly [-> Hips]; cbn [app]; [|by apply Hb..]. wp_run.
  apply Hb. cbn. subst. eauto.
Qed.

(** A launch on Power VS asks for one instance at most, with the cloud-config as user
    data and the image of the annotation or the configured one; an instance that is
    returned is the first of those the call created and has at least one address; an
    error after the creation leaves the instance behind. *)
Theorem pvs_launch lower cfg podName sandboxID cc spec (s : sdk W pvs_call) r s' :
  pvs_CreateInstance lower cfg podName sandboxID cc spec s = (r, s') ->
  exists l, sdk_calls s' = sdk_calls s ++ l /\ pvs_launched cfg spec cc r l.
Proof. intros E. exact (wp_elim _ _ _ _ _ (pvs_CreateInstance_wp lower cfg podName sandboxID cc spec) E). Qed.

Definition shape_name (systemType : string) (cpus memory : Z) : string :=
  systemType +:+ "-" +:+ FormatInt cpus +:+ "x" +:+ FormatInt memory.

(** The shape of an instance: with both annotations for CPUs and memory these decide,
    whatever the annotation for the type says, and memory below 1024 MiB becomes
    none; with one of them missing a type printed as <system>-<cpus>x<memory> is read
    back, and a type without a dash, or a size without an x, panics. *)
Theorem pvs_shape cfg spec (s : sdk W pvs_call) :
  (VCPUs spec <> 0 -> Memory spec <> 0 ->
     shape cfg spec s = (Return (Ok (pvs_SystemType cfg, float_of_int (VCPUs spec),
                                     float_of_int (Z.quot (Memory spec) 1024))), s) /\
     (0 < Memory spec < 1024 -> Z.quot (Memory spec) 1024 = 0)) /\
  (VCPUs spec = 0 \/ Memory spec = 0 ->
     (forall sys c m, contains_byte "-" sys = false -> 0 <= c <= max_int64 -> 0 <= m <= max_int64 ->
        InstanceType spec = shape_name sys c m ->
        shape cfg spec s = (Return (Ok (sys, float_of_int c, float_of_int m)), s)) /\
     (InstanceType spec <> "" -> contains_byte "-" (InstanceType spec) = false -> shape cfg spec s = (Panic, s)) /\
     (InstanceType spec = "" ->
        shape cfg spec s = (Return (Ok (pvs_SystemType cfg, pvs_Processors cfg, pvs_Memory cfg)), s))).
Proof.
  split.
  - intros Hv Hm. unfold shape. rewrite (proj2 (Z.eqb_neq _ _) Hv), (proj2 (Z.eqb_neq _ _) Hm).
    split; [done|]. intros Hs. apply Z.quot_small. lia.
  - intros Hz. unfold shape.
    replace (negb (VCPUs spec =? 0) && negb (Memory spec =? 0))%bool with false
      by (destruct Hz as [E|E]; rewrite E; cbn; rewrite ?andb_false_r; done).
    split_and!.
    + intros sys c m Hs Hc Hm E. rewrite E. unfold shape_name.
      change ("-" +:+ FormatInt c +:+ "x" +:+ FormatInt m) with (String "-" (FormatInt c +:+ String "x" (FormatInt m))).
      replace (nonempty (sys +:+ _)) with true by (by destruct sys).
      assert (Hd : contains_byte "-" (FormatInt c +:+ String "x" (FormatInt m)) = false).
      { apply contains_byte_app. split; [apply FormatInt_no_byte; [lia|done]|].
        apply contains_byte_cons. split; [done|]. apply FormatInt_no_byte; [lia|done]. }
      rewrite split_on_app, (split_on_none "-") by done. cbn [list_lookup lookup].
      rewrite !gbind_run. cbn [deref gret mret]. rewrite !gbind_run. cbn [deref gret mret].
      rewrite split_on_app, (split_on_none "x") by (apply FormatInt_no_byte; [lia|done]).
      rewrite gbind_run. cbn [deref gret mret list_lookup lookup]. unfold Atoi.
      repeat (rewrite gbind_run; cbn [deref gret mret of_result list_lookup lookup]; rewrite ?ParseInt_FormatInt by done).
      done.
    + intros Hne Hd. unfold nonempty. rewrite (proj2 (String.eqb_neq _ _) Hne). cbn [negb].
      rewrite split_on_none by done. cbn [list_lookup lookup]. rewrite !gbind_run. cbn [deref gret mret].
      by rewrite gbind_run.
    + intros ->. done.
Qed.

End Provider.
