(* ===== verification/SshUtil.v ===== *)
(** * SSH clients of the providers

    Models src/cloud-providers/util/ssh.go and [VerifySSHKeyFile] of
    src/cloud-providers/util.go: keys from files, the check of host keys against a
    directory of allowed ones, and the transfer of a file.  The file system, the SSH
    library and SFTP are the class [SshEnv]; [Handshake] states what the SSH library
    promises, that a connection is made only with a host key the callback accepted.
    The transfer implements the interface [Sftp] of the BYOM provider. *)

From Stdlib Require Import ZArith Ascii String Lia.
From stdpp Require Import base gmap strings list.
From S2P Require Import Prelude ProviderTable ByomProvider SshProxy ProviderKit.

Open Scope Z_scope.
Open Scope go_scope.

Definition MaxAllowedHostKeys : nat := 100.
Definition MaxKeyFileSize : Z := 16 * 1024.

Record SSHConfig := mkSSHConfig {
  ssh_PublicKey : string;
  ssh_PrivateKey : string;
  ssh_PublicKeyPath : string;
  ssh_PrivateKeyPath : string;
  ssh_Username : string;
  ssh_HostKeyAllowlistDir : string;
  ssh_EnableSFTP : bool
}.

(** What [filepath.WalkDir] calls its function with, and what reading the entry gives. *)
Record dirEntry := mkEntry {
  de_err : option GoError;
  de_IsDir : bool;
  de_Name : string;
  de_Size : result Z;
  de_Content : result string
}.

Class SshEnv (W : Type) := {
  pubkey : Type;
  signer : Type;
  ParseAuthorizedKey : string -> result pubkey;
  ParsePrivateKey : string -> result signer;
  FingerprintSHA256 : pubkey -> string;
  ssh_ReadFile : string -> M W (result string);
  (** [os.Stat]: whether the error is that the file does not exist *)
  ssh_NotExist : string -> M W bool;
  ssh_WalkDir : string -> M W (list dirEntry);
  (** [os.Stat]: the permission bits *)
  ssh_Perm : string -> M W (result Z)
}.

Section Client.

Context {W : Type} `{SshEnv W}.

(** [ssh.ClientConfig]; the callback is given the key of the host. *)
Record ClientConfig := mkClient {
  cl_User : string;
  cl_Signer : signer;
  cl_HostKeyCallback : pubkey -> option GoError
}.

(** ** Keys *)

Definition ValidateSSHPublicKey (pubKey : string) : option GoError :=
  let pubKey := TrimSpace pubKey in
  if String.eqb pubKey "" then Some (Errorf "public key is empty" [])
  else match ParseAuthorizedKey pubKey with
       | Err e => Some (Errorf "failed to parse SSH public key: %w" [e])
       | Ok _ => None
       end.

Definition ValidateSSHPrivateKey (privKey : string) : option GoError :=
  let privKey := TrimSpace privKey in
  if String.eqb privKey "" then Some (Errorf "private key is empty" [])
  else match ParsePrivateKey privKey with
       | Err e => Some (Errorf "failed to parse SSH private key: %w" [e])
       | Ok _ => None
       end.

Definition ReadAndValidate (validate : string -> option GoError) (what path : string) : M W (result string) :=
  let* data := ssh_ReadFile path in
  mret match data with
       | Err e => Err e
       | Ok data =>
           let key := TrimSpace data in
           match validate key with Some e => Err (Errorf what [e]) | None => Ok key end
       end.

Definition ReadAndValidatePublicKey : string -> M W (result string) :=
  ReadAndValidate ValidateSSHPublicKey "invalid public key: %w".
Definition ReadAndValidatePrivateKey : string -> M W (result string) :=
  ReadAndValidate ValidateSSHPrivateKey "invalid private key: %w".

Definition with_keys (c : SSHConfig) (pub priv : string) : SSHConfig :=
  mkSSHConfig pub priv (ssh_PublicKeyPath c) (ssh_PrivateKeyPath c) (ssh_Username c) (ssh_HostKeyAllowlistDir c)
    (ssh_EnableSFTP c).

(** The configuration is changed in place; the public key stays set when the private one
    cannot be read. *)
Definition loadKeysFromFiles (config : SSHConfig) : M W (option GoError * SSHConfig) :=
  if String.eqb (ssh_PublicKeyPath config) "" then mret (None, config)
  else
    let* pub := ReadAndValidatePublicKey (ssh_PublicKeyPath config) in
    match pub with
    | Err e => mret (Some (Errorf "failed to load public key from %s: %w" [e]), config)
    | Ok pubKey =>
        let config := with_keys config pubKey (ssh_PrivateKey config) in
        if (ssh_EnableSFTP config && nonempty (ssh_PrivateKeyPath config))%bool then
          let* priv := ReadAndValidatePrivateKey (ssh_PrivateKeyPath config) in
          mret match priv with
               | Err e => (Some (Errorf "failed to load private key from %s: %w" [e]), config)
               | Ok privKey => (None, with_keys config pubKey privKey)
               end
        else mret (None, config)
    end.

(** ** Allowed host keys *)

(** The fingerprint an entry contributes: a .pub file that is small enough, can be read
    and holds a key. *)
Definition entry_key (d : dirEntry) : option string :=
  match de_Size d, de_Content d with
  | Ok size, Ok data =>
      if MaxKeyFileSize <? size then None
      else match ParseAuthorizedKey data with Ok k => Some (FingerprintSHA256 k) | Err _ => None end
  | _, _ => None
  end.

Definition is_key_file (d : dirEntry) : bool := (negb (de_IsDir d) && HasSuffix (de_Name d) ".pub")%bool.

(** The walk: the first error ends it, and so does the hundredth key. *)
Fixpoint walk (entries : list dirEntry) (allowedKeys : gset string) (keyCount : nat) : result (gset string) :=
  match entries with
  | [] => Ok allowedKeys
  | d :: rest =>
      match de_err d with
      | Some e => Err e
      | None =>
          if negb (is_key_file d) then walk rest allowedKeys keyCount
          else if (MaxAllowedHostKeys <=? keyCount)%nat then Ok allowedKeys
          else match entry_key d with
               | None => walk rest allowedKeys keyCount
               | Some fingerprint =>
                   if bool_decide (fingerprint ∈ allowedKeys) then walk rest allowedKeys keyCount
                   else walk rest ({[fingerprint]} ∪ allowedKeys) (S keyCount)
               end
      end
  end.

Definition loadAllowedKeys (allowlistDir : string) : M W (result (gset string)) :=
  let* missing := ssh_NotExist allowlistDir in
  if missing then mret (Err (Errorf "allowlist directory does not exist: %s" []))
  else
    let* entries := ssh_WalkDir allowlistDir in
    mret match walk entries ∅ 0 with
         | Err e => Err (Errorf "failed to scan allowlist directory: %w" [e])
         | Ok keys =>
             if bool_decide (keys = ∅) then Err (Errorf "no valid SSH public key files found in allowlist directory: %s" [])
             else Ok keys
         end.

(** The name of the host only appears in messages. *)
Definition allowlist_callback (allowedKeys : gset string) (key : pubkey) : option GoError :=
  if bool_decide (FingerprintSHA256 key ∈ allowedKeys) then None
  else Some (Errorf "SSH host key not in allowlist for %s: %s" []).

Definition createAllowlistCallback (allowlistDir : string) : M W (result (pubkey -> option GoError)) :=
  let* keys := loadAllowedKeys allowlistDir in
  mret (result_map allowlist_callback keys).

Definition createStatelessTOFUCallback (key : pubkey) : option GoError := None.

(** ** The configuration of a client *)

Definition createClientConfig (config : SSHConfig) : M W (result ClientConfig) :=
  match ParsePrivateKey (ssh_PrivateKey config) with
  | Err e => mret (Err (Errorf "failed to parse private key: %w" [e]))
  | Ok signer =>
      if nonempty (ssh_HostKeyAllowlistDir config) then
        let* cb := createAllowlistCallback (ssh_HostKeyAllowlistDir config) in
        mret match cb with
             | Err e => Err (Errorf "failed to create allowlist host key callback: %w" [e])
             | Ok cb => Ok (mkClient (ssh_Username config) signer cb)
             end
      else mret (Ok (mkClient (ssh_Username config) signer createStatelessTOFUCallback))
  end.

(** [CreateSSHClient], with the configuration the caller sees afterwards. *)
Definition CreateSSHClient (config : SSHConfig) : M W (result ClientConfig * SSHConfig) :=
  let* r := loadKeysFromFiles config in
  let '(e, config) := r in
  match e with
  | Some e => mret (Err (Errorf "failed to initialize SSH keys: %w" [e]), config)
  | None =>
      let* c := createClientConfig config in
      mret (c, config)
  end.

Definition VerifySSHKeyFile (path : string) : M W (option GoError) :=
  let* p := ssh_Perm path in
  match p with
  | Err e => mret (Some (Errorf "failed to verify SSH key file: %w" [e]))
  | Ok _ =>
      let* p := ssh_Perm path in
      match p with
      | Err e => mret (Some (Errorf "failed to verify SSH key file: %w" [e]))
      | Ok perm =>
          (* 0600 *)
          if negb (perm =? 384) then mret (Some (Errorf "SSH key file permissions are not 600: %s" []))
          else
            let* c := ssh_ReadFile path in
            mret match c with
                 | Err e => Some (Errorf "failed to read SSH key file: %w" [e])
                 | Ok content => match ParseAuthorizedKey content with
                                 | Err e => Some (Errorf "invalid SSH public key: %w" [e])
                                 | Ok _ => None
                                 end
                 end
      end
  end.

End Client.

(** ** Transfer *)

(** The network: connections, the SSH handshake and SFTP on an established connection. *)
Class SftpEnv (W : Type) `{SshEnv W} := {
  conn : Type;
  DialContext : string -> M W (result conn);
  NewClientConn : conn -> string -> ClientConfig -> M W (option GoError);
  sftp_NewClient : conn -> M W (option GoError);
  sftp_MkdirAll : conn -> string -> M W (option GoError);
  sftp_Create : conn -> string -> M W (option GoError);
  sftp_Write : conn -> string -> string -> M W (option GoError)
}.

(** golang.org/x/crypto/ssh: a handshake succeeds only when the callback accepts the key
    the host proved to have. *)
Class Handshake (W : Type) `{SftpEnv W} := {
  host_key : conn -> pubkey;
  handshake_checked : forall c address cfg w w',
    NewClientConn c address cfg w = (None, w') -> cl_HostKeyCallback cfg (host_key c) = None
}.

Inductive sftp_call `{SftpEnv W} :=
| MadeDir (c : conn) (path : string) (e : option GoError)
| CreatedFile (c : conn) (path : string) (e : option GoError)
| WroteContent (c : conn) (path content : string) (e : option GoError).

Section Transfer.

Context {W : Type} `{SftpEnv W}.

Definition SendFileViaSFTPWithContext (address : string) (sshConfig : ClientConfig) (remotePath content : string)
  : G W sftp_call unit :=
  do c := ask (DialContext address) orelse (fun e => Errorf "failed to connect to %s: %w" [e]) in
  do h := ask_err (NewClientConn c address sshConfig) orelse (fun e => Errorf "failed to create SSH connection: %w" [e]) in
  do s := ask_err (sftp_NewClient c) orelse (fun e => Errorf "failed to create SFTP client: %w" [e]) in
  let remoteDir := filepath_Dir remotePath in
  do d := act_err (MadeDir c remoteDir) (sftp_MkdirAll c remoteDir)
    orelse (fun e => Errorf "failed to create directory %s: %w" [e]) in
  do f := act_err (CreatedFile c remotePath) (sftp_Create c remotePath)
    orelse (fun e => Errorf "failed to create file %s: %w" [e]) in
  gwrap (fun e => Errorf "failed to write content: %w" [e])
    (act_err (WroteContent c remotePath content) (sftp_Write c remotePath content)).

(** The transfer as the BYOM provider sees it, with its client configuration. *)
#[export] Instance ssh_sftp (sshConfig : ClientConfig) : Sftp (sdk W sftp_call) := {
  SendFileViaSFTP := fun address path content s =>
    match SendFileViaSFTPWithContext address sshConfig path content s with
    | (Return (Ok _), s') => (None, s')
    | (Return (Err e), s') => (Some e, s')
    | (Panic, s') => (Some (Errorf "panic" []), s')
    end
}.

End Transfer.

(** ** Theorems *)

Section Props.

Context {W : Type} `{SshEnv W}.

(** A key file of the directory with the fingerprint. *)
Definition listed (entries : list dirEntry) (fingerprint : string) : Prop :=
  exists d, d ∈ entries /\ is_key_file d = true /\ entry_key d = Some fingerprint.

Lemma listed_cons d entries f : listed entries f -> listed (d :: entries) f.
Proof. intros (x & Hin & Hx). exists x. split; [by right|done]. Qed.

(** Soundness, the bound and completeness of the walk, together. *)
Lemma walk_spec entries ks n ks' :
  walk entries ks n = Ok ks' -> size ks = n -> (n <= MaxAllowedHostKeys)%nat ->
  (size ks' <= MaxAllowedHostKeys)%nat /\ ks ⊆ ks' /\
  (forall f, f ∈ ks' -> f ∈ ks \/ listed entries f) /\
  ((length (List.filter is_key_file entries) + n <= MaxAllowedHostKeys)%nat -> forall f, listed entries f -> f ∈ ks').
Proof.
  revert ks n. induction entries as [|d entries IH]; intros ks n; cbn [walk].
  { intros [= <-] Hs Hn. split_and!; try done; [lia|set_solver|]. by intros _ f (x & Hin%elem_of_nil & _). }
  destruct (de_err d); [done|].
  assert (Hskip : walk entries ks n = Ok ks' -> size ks = n -> (n <= MaxAllowedHostKeys)%nat ->
    (is_key_file d = true -> forall f, entry_key d = Some f -> f ∈ ks) ->
    (size ks' <= MaxAllowedHostKeys)%nat /\ ks ⊆ ks' /\ (forall f, f ∈ ks' -> f ∈ ks \/ listed (d :: entries) f) /\
    ((length (List.filter is_key_file (d :: entries)) + n <= MaxAllowedHostKeys)%nat ->
       forall f, listed (d :: entries) f -> f ∈ ks')).
  { intros E Hs Hn Hd. destruct (IH _ _ E Hs Hn) as (H1 & H2 & H3 & H4). split_and!; try done.
    - intros f Hf. destruct (H3 f Hf); [by left|right; by apply listed_cons].
    - intros Hl f (x & [->|Hin]%elem_of_cons & Hk & Hf); [by apply H2, Hd|].
      apply H4; [|by exists x]. cbn [List.filter] in Hl. destruct (is_key_file d); cbn [length] in Hl; lia. }
  destruct (is_key_file d) eqn:Ek; cbn [negb]; [|intros; by apply Hskip].
  destruct (Nat.leb_spec MaxAllowedHostKeys n) as [Hfull|Hroom].
  { intros [= <-] Hs Hn. split_and!; try done; [lia|by left|]. cbn [List.filter]. rewrite Ek. cbn [length]. lia. }
  destruct (entry_key d) as [f|] eqn:Ef; [|intros; apply Hskip; try done; intros _ f Hf; by rewrite Hf in Ef].
  destruct (bool_decide_reflect (f ∈ ks)) as [Hin|Hnew]; [intros; apply Hskip; try done; by intros _ f' [= <-]|].
  intros E Hs Hn. destruct (IH _ _ E) as (H1 & H2 & H3 & H4).
  { rewrite size_union by set_solver. rewrite size_singleton. lia. }
  { lia. }
  split_and!; [done|set_solver| |].
  - intros g Hg. destruct (H3 g Hg) as [[->%elem_of_singleton|?]%elem_of_union|]; [|by left|right; by apply listed_cons].
    right. exists d. split; [by left|done].
  - intros Hl g (x & [->|Hx]%elem_of_cons & Hk & Hg); [simplify_eq; set_solver|].
    apply H4; [|by exists x]. cbn [List.filter] in Hl. rewrite Ek in Hl. cbn [length] in Hl. lia.
Qed.

Lemma loadAllowedKeys_spec dir w keys w' :
  loadAllowedKeys dir w = (Ok keys, w') ->
  exists entries w1, ssh_WalkDir dir w1 = (entries, w') /\ walk entries ∅ 0 = Ok keys /\ keys <> ∅.
Proof.
  unfold loadAllowedKeys, mbind. destruct (ssh_NotExist dir w) as [[|] w1]; [done|].
  destruct (ssh_WalkDir dir w1) as [entries w2] eqn:Ew. destruct (walk entries ∅ 0) as [ks|e] eqn:E; [|done].
  unfold mret. destruct (bool_decide_reflect (ks = ∅)); intros [= <- <-]. by exists entries, w1.
Qed.

Lemma host_keys_spec config w cl w' :
  createClientConfig config w = (Ok cl, w') ->
  match ssh_HostKeyAllowlistDir config with
  | EmptyString => forall key, cl_HostKeyCallback cl key = None
  | dir => exists entries w1 (keys : gset string), ssh_WalkDir dir w1 = (entries, w') /\
      (1 <= size keys <= MaxAllowedHostKeys)%nat /\
      (forall key, cl_HostKeyCallback cl key = None <-> FingerprintSHA256 key ∈ keys) /\
      (forall f, f ∈ keys -> listed entries f) /\
      ((length (List.filter is_key_file entries) <= MaxAllowedHostKeys)%nat ->
         forall f, listed entries f -> f ∈ keys)
  end.
Proof.
  unfold createClientConfig. destruct (ParsePrivateKey _) as [sg|]; [|done].
  destruct (ssh_HostKeyAllowlistDir config) as [|c dir]; cbn [nonempty String.eqb negb]; [by intros [= <- <-]|].
  change (nonempty (String c dir)) with true. cbn iota. unfold createAllowlistCallback, mbind.
  destruct (loadAllowedKeys (String c dir) w) as [[keys|e] w1] eqn:El; [|done]. cbn. intros [= <- <-].
  destruct (loadAllowedKeys_spec _ _ _ _ El) as (entries & w2 & Ew & Ewalk & Hne).
  destruct (walk_spec _ _ _ _ Ewalk size_empty) as (H1 & _ & H3 & H4); [unfold MaxAllowedHostKeys; lia|].
  exists entries, w2, keys. split_and!; try done.
  - assert (size keys <> 0)%nat by (by intros ->%size_empty_inv%leibniz_equiv). lia.
  - intros key. cbn. unfold allowlist_callback. by case_bool_decide.
  - intros f Hf. destruct (H3 f Hf); [set_solver|done].
  - intros Hl. apply H4. lia.
Qed.

(** The host keys a client accepts when a directory of allowed keys is configured: only
    those of the key files of that directory, a hundred at most and at least one, and
    all of them when there are no more than a hundred such files; a directory that is
    missing, cannot be walked or has no key is an error, never a client that accepts
    every key.  Without a directory every key is accepted. *)
Theorem host_keys_allowed config w cl w' :
  createClientConfig config w = (Ok cl, w') ->
  match ssh_HostKeyAllowlistDir config with
  | EmptyString => forall key, cl_HostKeyCallback cl key = None
  | dir => exists entries w1 (keys : gset string), ssh_WalkDir dir w1 = (entries, w') /\
      (1 <= size keys <= MaxAllowedHostKeys)%nat /\
      (forall key, cl_HostKeyCallback cl key = None <-> FingerprintSHA256 key ∈ keys) /\
      (forall f, f ∈ keys -> listed entries f) /\
      ((length (List.filter is_key_file entries) <= MaxAllowedHostKeys)%nat ->
         forall f, listed entries f -> f ∈ keys)
  end.
Proof. apply host_keys_spec. Qed.

End Props.

Section TransferProps.

Context {W : Type} `{Handshake W}.

Definition call_conn (c : sftp_call) : conn :=
  match c with MadeDir c _ _ | CreatedFile c _ _ | WroteContent c _ _ _ => c end.

Lemma SendFile_wp address cfg path content :
  wp (SendFileViaSFTPWithContext address cfg path content) (fun r l => r <> Panic /\
    Forall (fun c => cl_HostKeyCallback cfg (host_key (call_conn c)) = None) l /\
    (r = Return (Ok tt) -> exists c, List.last l (MadeDir c "" None) = WroteContent c path content None)).
Proof.
  unfold SendFileViaSFTPWithContext.
  do 3 wp_step; [|by wp_run; split_and!]. wp_step. wp_step.
  apply wp_ask_err_run; [intros w w' Hh|intros w w' e _; by split_and!]. apply handshake_checked in Hh.
  wp_run; split_and!; try done; try (by repeat constructor). by eexists.
Qed.

(** C29: Nothing is sent to a host whose key is not allowed: with a directory of allowed keys
    every directory, file or content that a transfer makes goes to a host whose key
    has the fingerprint of one of the key files of that directory; and a transfer
    without an error ends with the content written under the path. *)
Theorem transfer_only_to_allowed_hosts config w cl w' address path content (s : sdk W sftp_call) r s' :
  ssh_HostKeyAllowlistDir config <> "" -> createClientConfig config w = (Ok cl, w') ->
  @SendFileViaSFTP _ (ssh_sftp cl) address path content s = (r, s') ->
  exists l entries w1, sdk_calls s' = sdk_calls s ++ l /\
    ssh_WalkDir (ssh_HostKeyAllowlistDir config) w1 = (entries, w') /\
    Forall (fun c => listed entries (FingerprintSHA256 (host_key (call_conn c)))) l /\
    (r = None -> exists c, List.last l (MadeDir c "" None) = WroteContent c path content None).
Proof.
  intros Hd Hc Hs. apply host_keys_spec in Hc. destruct (ssh_HostKeyAllowlistDir config) as [|b dir]; [done|].
  destruct Hc as (entries & w1 & keys & Hw & _ & Hcb & Hl & _). cbn in Hs.
  destruct (SendFileViaSFTPWithContext address cl path content s) as [r2 s2] eqn:E.
  destruct (wp_elim _ _ _ _ _ (SendFile_wp address cl path content) E) as (l & El & Hp & Hcalls & Hok).
  exists l, entries, w1. split_and!; [|done| |].
  - rewrite <- El. by destruct r2 as [[u|e]|]; simplify_eq.
  - eapply Forall_impl; [exact Hcalls|]. cbn. intros c Hx. by apply Hl, Hcb.
  - intros ->. apply Hok. destruct r2 as [[[]|e]|]; simplify_eq; done.
Qed.

End TransferProps.

(** ** Witnesses *)

Definition mini_entries : list dirEntry :=
  [mkEntry None true "keys" (Ok 4096) (Err (Errorf "is a directory" []));
   mkEntry None false "a.pub" (Ok 80) (Ok "keyA"%string);
   mkEntry None false "notes.txt" (Ok 80) (Ok "keyB"%string);
   mkEntry None false "big.pub" (Ok 20000) (Ok "keyC"%string)].

#[export] Instance mini_ssh : SshEnv unit := {
  pubkey := string;
  signer := string;
  ParseAuthorizedKey := fun s => if String.eqb s "" then Err (Errorf "no key" []) else Ok s;
  ParsePrivateKey := fun s => if String.eqb s "" then Err (Errorf "no key" []) else Ok s;
  FingerprintSHA256 := fun k => "SHA256:" +:+ k;
  ssh_ReadFile := fun _ => mret (Ok "key"%string);
  ssh_NotExist := fun _ => mret false;
  ssh_WalkDir := fun _ => mret mini_entries;
  ssh_Perm := fun _ => mret (Ok 384)
}.

(** The host at one address has the allowed key. *)
Definition mini_host_key (address : string) : string := if String.eqb address "10.0.0.1:22" then "keyA" else "other".

#[export] Instance mini_sftp : SftpEnv unit := {
  conn := string;
  DialContext := fun address => mret (Ok address);
  NewClientConn := fun c _ cfg => mret (cl_HostKeyCallback cfg (mini_host_key c));
  sftp_NewClient := fun _ => mret None;
  sftp_MkdirAll := fun _ _ => mret None;
  sftp_Create := fun _ _ => mret None;
  sftp_Write := fun _ _ _ => mret None
}.

#[export, refine] Instance mini_handshake : Handshake unit := { host_key := mini_host_key : conn -> pubkey; handshake_checked := _ }.
Proof. intros c address cfg w w' E. cbn in E. unfold mret in E. congruence. Defined.

Definition mini_ssh_config : SSHConfig := mkSSHConfig "" "private" "" "" "peerpod" "/etc/ssh-allowlist" true.

Lemma host_keys_allowed_witness :
  exists cl, createClientConfig mini_ssh_config tt = (Ok cl, tt) /\
    cl_HostKeyCallback cl ("other"%string : pubkey) <> None /\ cl_HostKeyCallback cl ("keyA"%string : pubkey) = None.
Proof.
  destruct (createClientConfig mini_ssh_config tt) as [[cl|e] []] eqn:E; [|exfalso; vm_compute in E; discriminate E].
  exists cl. split; [reflexivity|].
  destruct (host_keys_allowed mini_ssh_config tt cl tt E) as (entries & w1 & keys & Hw & _ & Hcb & Hl & Ha).
  assert (entries = mini_entries) as -> by (injection Hw as <-; reflexivity).
  split.
  - intros Hn. apply Hcb, Hl in Hn as (d & Hd & Hk & Hf). unfold mini_entries in Hd.
    repeat (apply elem_of_cons in Hd as [->|Hd]; [vm_compute in Hk, Hf; congruence|]). by apply elem_of_nil in Hd.
  - apply Hcb, Ha; [unfold MaxAllowedHostKeys; cbn; lia|]. exists (mkEntry None false "a.pub" (Ok 80) (Ok "keyA"%string)).
    split; [by right; left|]. split; reflexivity.
Defined.

Lemma transfer_only_to_allowed_hosts_witness :
  exists cl s' l, createClientConfig mini_ssh_config tt = (Ok cl, tt) /\
    @SendFileViaSFTP _ (ssh_sftp cl) "10.0.0.1:22" "cidata/user-data" "data" (mkSdk tt []) = (None, s') /\
    sdk_calls s' = l /\ Forall (fun c => listed mini_entries (FingerprintSHA256 (host_key (call_conn c)))) l.
Proof.
  destruct (createClientConfig mini_ssh_config tt) as [[cl|e] []] eqn:E; [|exfalso; vm_compute in E; discriminate E].
  destruct (@SendFileViaSFTP _ (ssh_sftp cl) "10.0.0.1:22" "cidata/user-data" "data" (mkSdk tt [])) as [r s'] eqn:Es.
  destruct (transfer_only_to_allowed_hosts mini_ssh_config tt cl tt "10.0.0.1:22" "cidata/user-data" "data" (mkSdk tt []) r s'
              ltac:(discriminate) E Es) as (l & entries & w1 & El & Hw & Hl & _).
  assert (entries = mini_entries) as -> by (injection Hw as <-; reflexivity).
  exists cl, s', l. split; [reflexivity|].
  assert (Hr : r = None).
  { vm_compute in E. injection E as <-. vm_compute in Es. injection Es as <- _. reflexivity. }
  subst r. split; [exact Es|]. split; [exact El|exact Hl].
Defined.
