(* ===== verification/Alibaba.v ===== *)
(** * The Alibaba Cloud provider

    Models src/cloud-providers/alibabacloud (provider.go, types.go) over the clients of
    ECS and VPC, the class [AliApi].  The provider keeps the elastic addresses of its
    instances in a map and overwrites the image of its configuration; both are the
    fields [ali_fields].  The waits are the code's loop, which counts only the time its
    condition takes: [fuel] bounds the rounds that are followed, and a wait that has
    not ended by then is [still_waiting]. *)

From Stdlib Require Import ZArith Ascii String Lia.
From stdpp Require Import base gmap strings list.
From S2P Require Import Prelude InstanceTypes NetAddr Initdata SshProxy ProviderKit.

Open Scope Z_scope.
Open Scope go_scope.

Definition ali_maxInstanceNameLen : Z := 63.

(** ** Configuration: types.go *)

Record AliConfig := mkAliConfig {
  ali_Region : string;
  ali_InstanceType : string;
  ali_KeyName : string;
  ali_VswitchId : string;
  ali_SecurityGroupIds : list string;
  ali_InstanceTypes : list string;
  ali_InstanceTypeSpecList : list InstanceTypeSpec;
  ali_Tags : gmap string string;
  ali_UsePublicIP : bool;
  ali_SystemDiskSize : Z;
  ali_DisableCVM : bool
}.

Definition ali_securityGroupIds_Set (value : string) (i : list string) : list string := i ++ split_on "," value.
Definition ali_instanceTypes_Set (value : string) (i : list string) : list string :=
  if String.eqb value "" then [] else i ++ split_on "," value.

(** The fields that the operations change: [serviceConfig.ImageId] and [eips]. *)
Record ali_fields := mkFields { ali_ImageId : string; eips : gmap string (option string) }.

(** ** The clients *)

(** An error of the SDK, or any other. *)
Inductive ali_error :=
| SDKError (status : option Z) (code message : option string)
| OtherError.

Record RunRequest := mkRunRequest {
  rr_Region : string;
  rr_ImageId : string;
  rr_InstanceType : string;
  rr_SecurityGroupIds : list string;
  rr_VSwitchId : string;
  rr_UserData : string;
  rr_Tags : list (string * string);
  rr_InstanceName : string;
  rr_KeyPairName : option string;
  (** an address paid by traffic *)
  rr_Internet : bool;
  rr_Tdx : bool;
  rr_SystemDisk : option string
}.

(** [None] where a pointer on the way to the list is nil. *)
Record attributes := mkAttributes {
  at_Private : option (list (option string));
  at_Public : option (list (option string));
  at_Status : option string
}.

Class AliApi (W : Type) := {
  (** the sizes of memory are float32 numbers of GiB *)
  float32 : Type;
  mebibytes : float32 -> Z;
  ecs_RunInstances : RunRequest -> M W (list (option string) + ali_error);
  ecs_DeleteInstance : string -> M W (unit + ali_error);
  ecs_DescribeInstanceTypes : string -> M W (list (option Z * option float32 * option Z) + ali_error);
  ecs_DescribeInstanceAttribute : string -> M W (attributes + ali_error);
  ecs_CreateNetworkInterface : string -> string -> string -> string -> M W (option string + ali_error);
  ecs_AttachNetworkInterface : string -> string -> M W (unit + ali_error);
  ecs_DeleteNetworkInterface : string -> M W (unit + ali_error);
  ecs_DescribeNetworkInterfaceAttribute : string -> M W (option string + ali_error);
  ecs_ModifyNetworkInterfaceAttribute : string -> M W (unit + ali_error);
  (** the VPC of a switch *)
  vpc_DescribeVSwitchAttributes : string -> M W (option string + ali_error);
  (** allocation and address *)
  vpc_AllocateEipAddress : M W (option string * option string + ali_error);
  vpc_ReleaseEipAddress : option string -> M W (unit + ali_error);
  vpc_AssociateEipAddress : option string -> string -> M W (unit + ali_error);
  vpc_UnassociateEipAddress : option string -> M W (unit + ali_error);
  (** the status of each address *)
  vpc_DescribeEipAddresses : option string -> M W (list (option string) + ali_error);
  (** [time.Since(start)] at the two places where it is read, in nanoseconds *)
  since_start : M W Z;
  since_condition : M W Z
}.

Inductive ali_call :=
| AliRan (req : RunRequest) (r : option (list (option string)))
| AliDeleted (id : string) (e : option ali_error)
| AliNicCreated (r : option (option string))
| AliNicAttached (id nic : string) (e : option ali_error)
| AliNicDeleted (nic : string) (e : option ali_error)
| AliNicModified (nic : string) (e : option ali_error)
| EipAllocated (r : option (option string * option string))
| EipAssociated (eip : option string) (nic : string) (e : option ali_error)
| EipUnassociated (eip : option string) (e : option ali_error)
| EipReleased (eip : option string) (e : option ali_error).

Definition as_answer {A} (r : A + ali_error) : option A := match r with inl a => Some a | inr _ => None end.
Definition as_error {A} (r : A + ali_error) : option ali_error := match r with inl _ => None | inr e => Some e end.
Definition sdk_err (text : string) : GoError := Errorf text [].

(** A wait that has not ended within the rounds that are followed.  It is not an error of
    the code, so it passes through the code that wraps or catches errors. *)
Definition still_waiting : GoError := Sentinel "still waiting".
Definition is_waiting (e : GoError) : bool := match e with Sentinel s => String.eqb s "still waiting" | _ => false end.
Definition keep (wrap : GoError -> GoError) (e : GoError) : GoError := if is_waiting e then e else wrap e.

Definition second : Z := 1000000000.
Definition minute : Z := 60 * second.

Section Provider.

Context {W : Type} `{AliApi W} `{NetIP} `{GoMapOrder}.
(** The rounds of a wait that are followed. *)
Context (fuel : nat).

Notation P A := (G (W * ali_fields) ali_call A).

(** A call, with both answers as values. *)
Definition call {A} (m : M W (A + ali_error)) : P (A + ali_error) :=
  ask (lift (fun w => let '(r, w') := m w in (Ok r, w'))).
Definition call_ev {A} (ev : A + ali_error -> ali_call) (m : M W (A + ali_error)) : P (A + ali_error) :=
  act (fun r => match r with Ok r => ev r | Err _ => ev (inr OtherError) end)
    (lift (fun w => let '(r, w') := m w in (Ok r, w'))).

Definition catch {A} (m : P A) : P (result A) :=
  do r := gcatch m in
  match r with
  | Err e => if is_waiting e then gfail e else gret (Err e)
  | Ok a => gret (Ok a)
  end.

Definition or_fail {A} (text : string) (r : A + ali_error) : P A :=
  match r with inl a => gret a | inr _ => gfail (sdk_err text) end.

(** ** The wait *)

(** The rounds of [waitUntilTimeout]; [judgementFunc] gives a value when the condition
    holds.  The second of sleep between two rounds is not counted. *)
Fixpoint wait_rounds {A} (n : nat) (timeout remainingTime : Z) (judgementFunc : P (option A)) : P A :=
  match n with
  | O => gfail still_waiting
  | S n =>
      do t := ask (lift (fun w => let '(z, w') := since_start w in (Ok z, w'))) in
      if timeout <? t then gfail (Sentinel "request timeout")
      else
        do condition := judgementFunc in
        match condition with
        | Some a => gret a
        | None =>
            do t := ask (lift (fun w => let '(z, w') := since_condition w in (Ok z, w'))) in
            let remainingTime := remainingTime - t in
            if remainingTime <? 0 then gfail (Errorf "exceeded max wait time to wait" [])
            else wait_rounds n timeout remainingTime judgementFunc
        end
  end.

Definition waitUntilTimeout {A} (timeout : Z) (judgementFunc : P (option A)) : P A :=
  if timeout <=? 0 then gfail (Errorf "timeout must be greater than zero" [])
  else wait_rounds fuel timeout timeout judgementFunc.

(** ** Addresses *)

(** An error of a description: not found and not ready mean another round.  The error is
    asserted to be one of the SDK, whose fields are dereferenced. *)
Definition describe_error {A} (text : string) (e : ali_error) : P (option A) :=
  match e with
  | OtherError => gpanic
  | SDKError status _ message =>
      do s := deref status in
      if s =? 404 then gret None
      else
        do m := deref message in
        if HasSuffix m "is not ready" then gret None else gfail (sdk_err text)
  end.

Fixpoint parse_ips (addrs : list (option string)) : P (list Addr) :=
  match addrs with
  | [] => gret []
  | addr :: rest =>
      do a := deref addr in
      match ParseAddr a with
      | None => gfail (Errorf "failed to parse pod node IP %s: %w" [])
      | Some ip => do ips := parse_ips rest in gret (ip :: ips)
      end
  end.

Definition private_judgement (instanceId : string) : P (option (list (option string))) :=
  do r := call (ecs_DescribeInstanceAttribute instanceId) in
  match r with
  | inl resp =>
      do l := deref (at_Private resp) in
      gret (match l with [] => None | _ => Some l end)
  | inr e => describe_error "failed to describe instance %s: %v" e
  end.

Definition ali_getIPs (instanceId : string) : P (list Addr) :=
  do privateIPs := waitUntilTimeout (15 * second) (private_judgement instanceId)
    orelse keep (fun _ => sdk_err "failed to wait for instance %s to be ready: %v") in
  parse_ips privateIPs.

Definition public_judgement (instanceID : string) : P (option (option string)) :=
  do r := call (ecs_DescribeInstanceAttribute instanceID) in
  match r with
  | inr _ => gret None
  | inl resp =>
      do l := deref (at_Public resp) in
      gret (match l with [] => None | a :: _ => Some a end)
  end.

Definition ali_getPublicIP (instanceID : string) : P Addr :=
  do addr := waitUntilTimeout (20 * second) (public_judgement instanceID)
    orelse keep (fun _ => sdk_err "failed to get public ip of instance %v: %v") in
  do a := deref addr in
  match ParseAddr a with Some ip => gret ip | None => gfail (Errorf "ParseAddr" []) end.

(** ** The second interface *)

(** Five tries; an answer without an identifier is tried again. *)
Fixpoint create_nic (tries : nat) (region vswitch group name : string) : P string :=
  match tries with
  | O => gfail (sdk_err "failed to create a network interface after 5 tries: %v")
  | S tries =>
      do r := call_ev (fun r => AliNicCreated (as_answer r)) (ecs_CreateNetworkInterface region vswitch group name) in
      do nic := or_fail "failed to create a network interface: %v" r in
      match nic with None => create_nic tries region vswitch group name | Some id => gret id end
  end.

Definition status_judgement (m : M W (option string + ali_error)) (wanted text : string) : P (option unit) :=
  do r := call m in
  do status := or_fail text r in
  do s := deref status in
  gret (if String.eqb s wanted then Some tt else None).

Definition instance_status (instanceID : string) : M W (option string + ali_error) := fun w =>
  let '(r, w') := ecs_DescribeInstanceAttribute instanceID w in
  (match r with inl a => inl (at_Status a) | inr e => inr e end, w').

Definition ali_createAddonNIC (cfg : AliConfig) (instanceID : string) : P string :=
  do group := first (ali_SecurityGroupIds cfg) in
  do nIfaceId := create_nic 5 (ali_Region cfg) (ali_VswitchId cfg) group ("peerpod-nic-" +:+ instanceID) in
  do u := waitUntilTimeout minute (status_judgement (instance_status instanceID) "Running" "failed to get ECS status: %v")
    orelse keep (fun _ => sdk_err "failed to attach NIC to ECS: %v") in
  do a := call_ev (fun r => AliNicAttached instanceID nIfaceId (as_error r)) (ecs_AttachNetworkInterface instanceID nIfaceId) in
  match a with
  | inr _ =>
      do d := call_ev (fun r => AliNicDeleted nIfaceId (as_error r)) (ecs_DeleteNetworkInterface nIfaceId) in
      gfail (sdk_err "failed to attach a network interface: %v")
  | inl _ =>
      do u := waitUntilTimeout minute
        (status_judgement (ecs_DescribeNetworkInterfaceAttribute nIfaceId) "InUse" "failed to get NIC status: %v")
        orelse keep (fun _ => sdk_err "failed to attach NIC to ECS: %v") in
      do m := call_ev (fun r => AliNicModified nIfaceId (as_error r)) (ecs_ModifyNetworkInterfaceAttribute nIfaceId) in
      do u := or_fail "failed to modify the network interface attribute: %v" m in
      gret nIfaceId
  end.

(** ** Elastic addresses *)

(** The first address has the status. *)
Definition eip_judgement (eip : option string) (wanted text : string) : P (option unit) :=
  do r := call (vpc_DescribeEipAddresses eip) in
  do l := or_fail text r in
  match l with
  | [] => gret None
  | s :: _ => do s := deref s in gret (if String.eqb s wanted then Some tt else None)
  end.

Definition eip_gone (eip : option string) : P (option unit) :=
  do r := call (vpc_DescribeEipAddresses eip) in
  do l := or_fail "failed to get EIP status: %v" r in
  gret (match l with [] => Some tt | _ => None end).

Definition createEipInstance : P (option string * option string) :=
  do r := call_ev (fun r => EipAllocated (as_answer r)) vpc_AllocateEipAddress in
  do res := or_fail "failed to allocate EIP: %v" r in
  do u := waitUntilTimeout minute (eip_judgement (fst res) "Available" "failed to get EIP status: %v")
    orelse keep (fun _ => sdk_err "failed to create EIP: %v") in
  do a := deref (snd res) in
  gret res.

Definition bindEipToNic (eipId : option string) (nicId : string) : P unit :=
  do e := deref eipId in
  do r := call_ev (fun r => EipAssociated eipId nicId (as_error r)) (vpc_AssociateEipAddress eipId nicId) in
  do u := or_fail "failed to bind EIP: %v" r in
  gwrap (keep (fun _ => sdk_err "failed to bind EIP %s to NIC %s: %v"))
    (waitUntilTimeout minute (eip_judgement eipId "InUse" "failed to get NIC EIP binding status: %v")).

Definition deleteEipInstance (eipId : option string) : P unit :=
  do e := deref eipId in
  do r := call_ev (fun r => EipUnassociated eipId (as_error r)) (vpc_UnassociateEipAddress eipId) in
  do u := or_fail "failed to unbind EIP: %v" r in
  do u := waitUntilTimeout (30 * second) (eip_judgement eipId "Available" "failed to get EIP status: %v")
    orelse keep (fun _ => sdk_err "failed to unbind EIP: %v") in
  do r := call_ev (fun r => EipReleased eipId (as_error r)) (vpc_ReleaseEipAddress eipId) in
  do u := or_fail "failed to delete EIP: %v" r in
  gwrap (keep (fun _ => sdk_err "failed to delete EIP: %v")) (waitUntilTimeout (30 * second) (eip_gone eipId)).

(** ** Instances *)

Definition ali_selectInstanceType (cfg : AliConfig) (spec : InstanceTypeSpec) : result string :=
  SelectInstanceTypeToUse spec (ali_InstanceTypeSpecList cfg) (ali_InstanceTypes cfg) (ali_InstanceType cfg).

Definition run_request (cfg : AliConfig) (image instanceType userData instanceName : string) : RunRequest :=
  mkRunRequest (ali_Region cfg) image instanceType (ali_SecurityGroupIds cfg) (ali_VswitchId cfg) userData
    (map_order (ali_Tags cfg)) instanceName
    (if nonempty (ali_KeyName cfg) then Some (ali_KeyName cfg) else None)
    (ali_UsePublicIP cfg) (negb (ali_DisableCVM cfg))
    (if 0 <? ali_SystemDiskSize cfg then Some (FormatInt (ali_SystemDiskSize cfg)) else None).

(** [p.serviceConfig.ImageId = spec.Image] *)
Definition choose_image (spec : InstanceTypeSpec) : P string :=
  do f := get_fields in
  if nonempty (Image spec) then do u := put_fields (mkFields (Image spec) (eips f)) in gret (Image spec)
  else gret (ali_ImageId f).

Definition ready_judgement (instanceID : string) : P (option unit) :=
  do r := call (ecs_DescribeInstanceAttribute instanceID) in
  match r with
  | inl _ => gret (Some tt)
  | inr e => describe_error "failed to describe instance %s: %v" e
  end.

Definition external_nic (cfg : AliConfig) (spec : InstanceTypeSpec) (instanceID : string) : P unit :=
  if MultiNic spec then
    do nIfaceId := ali_createAddonNIC cfg instanceID orelse keep (fun e => Errorf "failed to create NIC: %w" [e]) in
    if ali_UsePublicIP cfg then
      do eip := createEipInstance orelse keep (fun e => Errorf "failed to create EIP instance: %w" [e]) in
      do f := get_fields in
      do u := put_fields (mkFields (ali_ImageId f) (<[instanceID := fst eip]> (eips f))) in
      do b := catch (bindEipToNic (fst eip) nIfaceId) in
      match b with
      | Ok _ => gret tt
      | Err e => do x := deref (fst eip) in gfail (Errorf "failed to bind Eip %s to NIC %s: %w" [e])
      end
    else gret tt
  else gret tt.

(** The public address comes first. *)
Definition ali_addresses (cfg : AliConfig) (instanceID : string) : P (list Addr) :=
  do ips := ali_getIPs instanceID in
  if ali_UsePublicIP cfg then do a := ali_getPublicIP instanceID in gret (a :: ips) else gret ips.

Definition ali_CreateInstance (lower : Z -> Z) (cfg : AliConfig) (podName sandboxID : string) (cloudConfig : result string)
    (spec : InstanceTypeSpec) : P (Instance Addr) :=
  do instanceName := of_outcome (GenerateInstanceName lower podName sandboxID ali_maxInstanceNameLen) in
  do cloudConfigData := of_result cloudConfig in
  do instanceType := of_result (ali_selectInstanceType cfg spec) in
  do image := choose_image spec in
  let req := run_request cfg image instanceType (EncodeToString cloudConfigData) instanceName in
  do r := call_ev (fun r => AliRan req (as_answer r)) (ecs_RunInstances req) in
  do ids := or_fail "creating instance (%v) returned error: %s" r in
  do id := first ids in
  do instanceID := deref id in
  do u := waitUntilTimeout minute (ready_judgement instanceID)
    orelse keep (fun _ => sdk_err "failed to wait for instance %s to be ready: %v") in
  do ips := ali_addresses cfg instanceID in
  do n := external_nic cfg spec instanceID in
  gret (mkInstance instanceID instanceName ips).

(** One round of the deletion.  A deletion that the service accepts falls through to the
    last line, which is an error. *)
Definition delete_judgement (instanceID : string) : P (option unit) :=
  do r := call_ev (fun r => AliDeleted instanceID (as_error r)) (ecs_DeleteInstance instanceID) in
  match r with
  | inr OtherError => gpanic
  | inr (SDKError _ code _) =>
      do c := deref code in
      if String.eqb c "IncorrectInstanceStatus" then gret None
      else if String.eqb c "InvalidInstanceId.NotFound" then gret (Some tt)
      else gfail (sdk_err "failed to delete an instance %s: %+v")
  | inl _ => gfail (sdk_err "failed to describe instance %s: %+v")
  end.

Definition release_eip (instanceID : string) : P unit :=
  do f := get_fields in
  match eips f !! instanceID with
  | Some (Some eip) =>
      do e := catch (deleteEipInstance (Some eip)) in
      do f := get_fields in
      put_fields (mkFields (ali_ImageId f) (delete instanceID (eips f)))
  | _ => gret tt
  end.

Definition ali_DeleteInstance (instanceID : string) : P unit :=
  do u := waitUntilTimeout (30 * second) (delete_judgement instanceID)
    orelse keep (fun _ => sdk_err "failed to delete an instance %s") in
  release_eip instanceID.

Definition ali_ConfigVerifier : P unit :=
  do f := get_fields in
  if String.eqb (ali_ImageId f) "" then gfail (Errorf "ImageId is empty" []) else gret tt.

(** ** Construction *)

Definition ali_getInstanceTypeInformation (instanceType : string) : P (Z * Z * Z) :=
  do r := call (ecs_DescribeInstanceTypes instanceType) in
  do l := or_fail "DescribeInstanceTypes" r in
  match l with
  | [] => gfail (Errorf "instance type %s not found" [])
  | (cpus, memory, gpus) :: _ =>
      do vcpu := deref cpus in
      do m := deref memory in
      do g := deref gpus in
      gret (vcpu, mebibytes m, g)
  end.

Fixpoint ali_describe_types (ts : list string) : P (list InstanceTypeSpec) :=
  match ts with
  | [] => gret []
  | t :: rest =>
      do i := ali_getInstanceTypeInformation t in
      do l := ali_describe_types rest in
      let '(vcpus, memory, gpus) := i in
      gret (mkSpec t vcpus memory "" gpus "" false :: l)
  end.

Definition ali_updateInstanceTypeSpecList `{SortSlice} (cfg : AliConfig) : P (list InstanceTypeSpec) :=
  let types := match ali_InstanceTypes cfg with [] => [ali_InstanceType cfg] | l => l end in
  do l := ali_describe_types types in
  gret (SortInstanceTypesOnResources l).

Definition updateVpcId (cfg : AliConfig) : P string :=
  do r := call (vpc_DescribeVSwitchAttributes (ali_VswitchId cfg)) in
  do v := or_fail "failed to describe the vswitch attribute: %v" r in
  deref v.

(** From the clients on: the table of types and the VPC. *)
Definition ali_NewProvider `{SortSlice} (cfg : AliConfig) : P (list InstanceTypeSpec * string) :=
  do specs := ali_updateInstanceTypeSpecList cfg orelse keep (fun _ => sdk_err "failed to update instance type spec list: %v") in
  do vpcId := updateVpcId cfg orelse keep (fun _ => sdk_err "failed to get vpc id: %v") in
  gret (specs, vpcId).

End Provider.
