(* ===== verification/AlibabaProps.v ===== *)
(** * Theorems of the Alibaba Cloud provider

    - A wait ends when its condition takes time, and need not end when it takes none.
    - Deletion reports success only for an instance that is already gone.
    - A launch: what is asked for, the addresses, the elastic address that is kept.
    - Errors that are not of the SDK crash the process. *)

From Stdlib Require Import ZArith Ascii String Lia.
From stdpp Require Import base gmap strings list.
From S2P Require Import Prelude InstanceTypes NetAddr Initdata SshProxy ProviderKit Alibaba.

Open Scope Z_scope.
Open Scope go_scope.

Section Props.

Context {W : Type} `{AliApi W} `{NetIP} `{GoMapOrder}.

Notation P A := (G (W * ali_fields) ali_call A).

(** ** Waits *)

(** The condition does not itself stand for a wait that goes on. *)
Definition decides {A} (m : P A) : Prop := wp m (fun r _ => r <> Return (Err still_waiting)).

Lemma wait_rounds_end {A} n tick timeout remaining (j : P (option A)) :
  0 < tick -> (forall w, tick <= (since_condition w).1) -> decides j ->
  remaining < Z.of_nat n * tick -> 0 <= remaining ->
  decides (wait_rounds n timeout remaining j).
Proof.
  intros Ht Hc Hj. unfold decides. revert remaining. induction n as [|n IH]; intros remaining Hn Hr; [lia|].
  cbn [wait_rounds]. wp_step. apply wp_ask_run. intros [w0 f0] w0' r0. unfold lift. cbn.
  destruct (since_start w0) as [z0 w2]. intros [= <- <-]. wp_step; [by wp_step|].
  wp_step. eapply wp_mono; [exact Hj|]. intros [[[a|]|e]|] l Hr'; [by wp_step| |congruence|done].
  wp_step. apply wp_ask_run. intros [w f] w' r. unfold lift. cbn. specialize (Hc w).
  destruct (since_condition w) as [z w1]. cbn in Hc. intros [= <- <-]. cbn [app].
  destruct (Z.ltb_spec (remaining - z) 0); [by wp_step|]. eapply wp_mono; [apply IH; nia|]. done.
Qed.

(** A wait ends: when every check of its condition takes at least [tick], a wait of
    [timeout] is over after at most timeout/tick + 1 rounds, whatever the condition
    finds. *)
Theorem wait_ends {A} fuel tick timeout (j : P (option A)) (s : sdk (W * ali_fields) ali_call) r s' :
  0 < tick -> (forall w, tick <= (since_condition w).1) -> decides j ->
  timeout < Z.of_nat fuel * tick ->
  waitUntilTimeout fuel timeout j s = (r, s') -> r <> Return (Err still_waiting).
Proof.
  intros Ht Hc Hj Hf E. assert (Hd : decides (waitUntilTimeout fuel timeout j)).
  { unfold waitUntilTimeout. destruct (Z.leb_spec timeout 0); [by apply wp_mret|].
    apply (wait_rounds_end _ tick); auto with lia. }
  by destruct (wp_elim _ _ _ _ _ Hd E) as (_ & _ & Hr).
Qed.

(** The wait counts only what its condition takes, not the second it sleeps between two
    rounds: a condition that takes no time and never holds is checked for ever, for
    every timeout. *)
Theorem wait_forever {A} fuel timeout (w : W) f l :
  0 < timeout -> (forall w, since_start w = (0, w)) -> (forall w, since_condition w = (0, w)) ->
  waitUntilTimeout fuel timeout (gret (@None A) : P (option A)) (mkSdk (w, f) l)
    = (Return (Err still_waiting), mkSdk (w, f) l).
Proof.
  intros Ht Hs Hc. unfold waitUntilTimeout. rewrite (proj2 (Z.leb_gt _ _)) by lia.
  assert (Hrem : forall remaining, 0 <= remaining ->
    wait_rounds fuel timeout remaining (gret (@None A) : P (option A)) (mkSdk (w, f) l)
      = (Return (Err still_waiting), mkSdk (w, f) l)); [|by apply Hrem; lia].
  induction fuel as [|n IH]; intros rem Hr; [done|]. cbn [wait_rounds].
  rewrite gbind_run. unfold ask, gcall, mbind, lift. cbn. rewrite Hs. cbn. rewrite app_nil_r.
  rewrite (proj2 (Z.ltb_ge _ _)) by lia. rewrite gbind_run. cbn. rewrite gbind_run. cbn. rewrite Hc. cbn.
  rewrite app_nil_r, Z.sub_0_r, (proj2 (Z.ltb_ge _ _)) by lia. by apply IH.
Qed.

(** ** Calls *)

Lemma wpf_call {A} (m : M W (A + ali_error)) f (Q : _ -> _ -> list ali_call -> Prop) :
  (forall r, Q (Return (Ok r)) f []) -> wpf (call m) f Q.
Proof.
  intros HQ w l. unfold call, ask, gcall, mbind, lift. cbn. destruct (m w) as [r w']. exists []. cbn.
  by rewrite app_nil_r.
Qed.

Lemma wpf_call_ev {A} ev (m : M W (A + ali_error)) f (Q : _ -> _ -> list ali_call -> Prop) :
  (forall r, Q (Return (Ok r)) f [ev r]) -> wpf (call_ev ev m) f Q.
Proof.
  intros HQ w l. unfold call_ev, act, gcall, mbind, lift. cbn. destruct (m w) as [r w']. exists [ev r]. by cbn.
Qed.

Lemma wpf_clock (m : M W Z) (f : ali_fields) (Q : _ -> _ -> list ali_call -> Prop) :
  (forall z, Q (Return (Ok z)) f []) -> wpf (ask (lift (fun w => let '(z, w') := m w in (Ok z, w')))) f Q.
Proof.
  intros HQ w l. unfold ask, gcall, mbind, lift. cbn. destruct (m w) as [r w']. exists []. cbn. by rewrite app_nil_r.
Qed.

Ltac ali_step :=
  lazymatch goal with
  | |- wpf (call _) _ _ => apply wpf_call; intros [?|?]
  | |- wpf (call_ev _ _) _ _ => apply wpf_call_ev; intros [?|?]
  | |- wpf (ask (lift (fun _ => let '(_, _) := since_start _ in _))) _ _ => apply wpf_clock; intros ?
  | |- wpf (ask (lift (fun _ => let '(_, _) := since_condition _ in _))) _ _ => apply wpf_clock; intros ?
  | |- wpf (or_fail _ _) _ _ => unfold or_fail
  | |- wpf (describe_error _ _) _ _ => unfold describe_error
  | _ => wpf_step
  end; cbn [app].
Ltac ali_run := repeat (cbv beta; ali_step).

Definition found {A} (R : A -> Prop) (o : option A) : Prop := match o with Some a => R a | None => True end.

Lemma wait_quiet {A} fuel t (j : P (option A)) R : quiet j (found R) -> quiet (waitUntilTimeout fuel t j) R.
Proof.
  intros Hj f. unfold waitUntilTimeout. wpf_step; [by wpf_step|]. generalize t at 2. intros rem. revert rem.
  induction fuel as [|n IH]; intros rem; cbn [wait_rounds]; [by wpf_run|].
  ali_run; try done. eapply wpf_mono; [apply Hj|]. intros [[[x|]|err]|] f' l (-> & -> & HR); try done; [by wpf_run|].
  ali_run; [done|apply IH].
Qed.

(** ** Deletion *)

Definition refused (id : string) (c : ali_call) : Prop := exists e, c = AliDeleted id (Some e).

(** The rounds of a deletion. *)
Definition delete_rounds (id : string) (r : outcome (result unit)) (l : list ali_call) : Prop :=
  (Forall (refused id) l /\
     (r = Return (Ok tt) -> exists l' st m, l = l' ++ [AliDeleted id (Some (SDKError st (Some "InvalidInstanceId.NotFound"%string) m))])) \/
  (exists l', l = l' ++ [AliDeleted id None] /\ Forall (refused id) l' /\
     exists e, r = Return (Err e) /\ is_waiting e = false).

Lemma refused_one id e : Forall (refused id) [AliDeleted id (Some e)].
Proof. repeat constructor. by exists e. Qed.

Lemma delete_rounds_app id r e l : delete_rounds id r l -> delete_rounds id r (AliDeleted id (Some e) :: l).
Proof.
  intros [[Hl Hr]|(l' & -> & Hl & Hr)]; [left|right].
  - split; [constructor; [by exists e|done]|]. intros (l' & st & m & ->)%Hr. by exists (AliDeleted id (Some e) :: l'), st, m.
  - exists (AliDeleted id (Some e) :: l'). split_and!; [done|constructor; [by exists e|done]|done].
Qed.

Lemma delete_judgement_wpf id f :
  wpf (W := W) (delete_judgement id) f (fun r f' l => f' = f /\
    match r with
    | Return (Ok None) => exists e, l = [AliDeleted id (Some e)]
    | Return (Ok (Some u)) => delete_rounds id (Return (Ok tt)) l
    | Return (Err e) => delete_rounds id (Return (Err e)) l
    | Panic => delete_rounds id Panic l
    end).
Proof.
  unfold delete_judgement. ali_run; (split; [done|]); try by (left; split; [apply refused_one|]).
  - right. exists []. split_and!; [done|constructor|]. by eexists.
  - by eexists.
  - left. split; [apply refused_one|]. intros _. bool_to_prop. subst. by exists [], status, message.
Qed.

Lemma delete_wait_wpf fuel t id f :
  wpf (W := W) (waitUntilTimeout fuel t (delete_judgement id)) f (fun r f' l => f' = f /\ delete_rounds id r l).
Proof.
  assert (Hnil : forall e, delete_rounds id (Return (Err e)) []) by (intros; left; by split).
  unfold waitUntilTimeout. wpf_step; [wpf_step; by split|]. generalize t at 2. intros rem. revert rem.
  induction fuel as [|n IH]; intros rem; cbn [wait_rounds]; [wpf_run; by split|].
  ali_run; try by split. eapply wpf_mono; [apply delete_judgement_wpf|].
  intros [[[[]|]|err]|] f' l [-> Hl]; [by wpf_run; rewrite app_nil_r| |done..].
  destruct Hl as [e ->]. ali_run; [split; [done|]; left; split; [apply refused_one|done]|].
  eapply wpf_mono; [apply IH|]. intros r2 f2 l2 [-> Hr]. split; [done|]. by apply delete_rounds_app.
Qed.

Definition eip_only (c : ali_call) : Prop :=
  match c with EipUnassociated _ _ | EipReleased _ _ => True | _ => False end.

Lemma eip_judgement_quiet eip wanted text : quiet (W := W) (eip_judgement eip wanted text) (found (fun _ => True)).
Proof. intros f. unfold eip_judgement. ali_run; split_and!; try done; by case_match. Qed.

Lemma eip_gone_quiet eip : quiet (W := W) (eip_gone eip) (found (fun _ => True)).
Proof. intros f. unfold eip_gone. ali_run; split_and!; try done; by case_match. Qed.

Lemma deleteEip_wpf fuel eip f :
  wpf (W := W) (deleteEipInstance fuel eip) f (fun r f' l => f' = f /\ Forall eip_only l).
Proof.
  unfold deleteEipInstance. ali_run; try (split; [done|by repeat constructor]).
  eapply wpf_mono; [apply (wait_quiet fuel _ _ (fun _ => True)), eip_judgement_quiet|].
  intros [[x|err]|] f' l' (-> & -> & _); cbn [app]; [|split; [done|by repeat constructor]..].
  ali_run; try (split; [done|by repeat constructor]).
  eapply wpf_mono; [apply (wait_quiet fuel _ _ (fun _ => True)), eip_gone_quiet|].
  intros [[x2|err]|] f' l' (-> & -> & _); (split; [done|by repeat constructor]).
Qed.

Lemma release_eip_wpf fuel id f :
  wpf (W := W) (release_eip fuel id) f (fun r f' l => Forall eip_only l /\
    (r = Return (Ok tt) -> ali_ImageId f' = ali_ImageId f /\
       eips f' = match eips f !! id with Some (Some _) => delete id (eips f) | _ => eips f end)).
Proof.
  unfold release_eip. wpf_run; try done. unfold catch. wpf_run.
  eapply wpf_mono; [apply deleteEip_wpf|]. intros [[x|err]|] f' l (-> & Hl); ali_run; try done; rewrite ?app_nil_r; done.
Qed.

Lemma refused_accepted id l : Forall (refused id) l -> AliDeleted id None ∉ l.
Proof. intros Hl Hin. rewrite Forall_forall in Hl. by destruct (Hl _ Hin) as [e [=]]. Qed.

Definition deletion (id : string) (f : ali_fields) (r : outcome (result unit)) (f' : ali_fields) (l1 l2 : list ali_call) : Prop :=
  Forall eip_only l2 /\
  (r = Return (Ok tt) ->
     (exists l0 st m, l1 = l0 ++ [AliDeleted id (Some (SDKError st (Some "InvalidInstanceId.NotFound"%string) m))]) /\
     Forall (refused id) l1 /\
     eips f' = match eips f !! id with Some (Some _) => delete id (eips f) | _ => eips f end) /\
  (AliDeleted id None ∈ l1 -> (exists e, r = Return (Err e) /\ is_waiting e = false) /\ l2 = [] /\ f' = f).

Lemma ali_delete_wpf fuel id f :
  wpf (W := W) (ali_DeleteInstance fuel id) f (fun r f' l => exists l1 l2, l = l1 ++ l2 /\ deletion id f r f' l1 l2).
Proof.
  unfold ali_DeleteInstance. wpf_run. eapply wpf_mono; [apply delete_wait_wpf|].
  intros r f' l [-> [[Hl Hok]|(l0 & -> & Hl & e & -> & Hw)]].
  - destruct r as [[[]|e]|].
    + eapply wpf_mono; [apply release_eip_wpf|]. intros r2 f2 l2 [He Hr2]. exists l, l2. split; [done|].
      split; [done|]. split; [|by intros Hin%refused_accepted]. intros E. split_and!; [by apply Hok|done|by apply Hr2].
    + exists l, []. rewrite app_nil_r. unfold deletion. split_and!; [done|constructor|done|by intros Hin%refused_accepted].
    + exists l, []. rewrite app_nil_r. unfold deletion. split_and!; [done|constructor|done|by intros Hin%refused_accepted].
  - exists (l0 ++ [AliDeleted id None]), []. rewrite app_nil_r. unfold deletion. split_and!; [done|constructor|done|]. intros _.
    split_and!; [|done|done]. eexists. split; [done|]. unfold keep. by rewrite Hw.
Qed.

(** C32: Deletion on Alibaba Cloud.  It is reported as done only when the service said that
    the instance does not exist, and never when the service accepted the deletion:
    then the caller gets an error and the elastic address of the instance is not
    released.  Only after the success the entry of that instance, and no other, is
    dropped. *)
Theorem ali_delete fuel id w f l r s' :
  ali_DeleteInstance fuel id (mkSdk (w, f) l) = (r, s') ->
  exists l1 l2 w' f', s' = mkSdk (w', f') (l ++ l1 ++ l2) /\ deletion id f r f' l1 l2.
Proof.
  intros E. destruct (wpf_elim _ _ _ _ _ _ _ (ali_delete_wpf fuel id f) E) as (l' & w' & f' & -> & l1 & l2 & -> & Hd).
  by exists l1, l2, w', f'.
Qed.

(** ** Launch *)

(** Neither launches nor deletes an instance. *)
Definition aside (c : ali_call) : Prop := match c with AliRan _ _ | AliDeleted _ _ => False | _ => True end.

Ltac asides := split_and!; try done; by repeat constructor.

Lemma private_quiet id : quiet (W := W) (private_judgement id) (found (fun l => l <> [])).
Proof. intros f. unfold private_judgement. ali_run; split_and!; try done; by case_match. Qed.

Lemma public_quiet id : quiet (W := W) (public_judgement id) (found (fun _ => True)).
Proof. intros f. unfold public_judgement. ali_run; split_and!; try done; by case_match. Qed.

Lemma ready_quiet id : quiet (W := W) (ready_judgement id) (found (fun _ => True)).
Proof. intros f. unfold ready_judgement. ali_run; by split_and!. Qed.

Lemma status_quiet m wanted text : quiet (W := W) (status_judgement m wanted text) (found (fun _ => True)).
Proof. intros f. unfold status_judgement. ali_run; split_and!; try done; by case_match. Qed.

Lemma parse_ips_quiet addrs : quiet (W := W) (parse_ips addrs) (fun ips => length ips = length addrs).
Proof.
  induction addrs as [|a addrs IH]; intros f; cbn [parse_ips]; [by wpf_run|].
  wpf_run; try by split_and!. eapply wpf_mono; [apply IH|].
  intros [[ips|err]|] f' l (-> & -> & Hips); [|by split_and!..]. wpf_run. split_and!; try done. cbn. by rewrite Hips.
Qed.

Lemma addresses_quiet_ali fuel cfg id : quiet (W := W) (ali_addresses fuel cfg id) (fun ips => ips <> []).
Proof.
  intros f. unfold ali_addresses, ali_getIPs, ali_getPublicIP. ali_run.
  eapply wpf_mono; [apply wait_quiet, private_quiet|]. intros [[ips|err]|] f' l (-> & -> & Hne); [|by split_and!..].
  eapply wpf_mono; [apply parse_ips_quiet|]. intros [[addrs|err]|] f' l (-> & -> & Hlen); [|by split_and!..].
  assert (addrs <> []) by (intros ->; by destruct ips).
  ali_run; [|by split_and!]. eapply wpf_mono; [apply (wait_quiet _ _ _ (fun _ => True)), public_quiet|].
  intros [[x|err]|] f' l (-> & -> & _); [|by split_and!..]. ali_run; by split_and!.
Qed.

Lemma create_nic_wpf tries region vswitch group name f :
  wpf (W := W) (create_nic tries region vswitch group name) f (fun r f' l => f' = f /\ Forall aside l).
Proof.
  induction tries as [|n IH]; cbn [create_nic]; [by wpf_run|]. ali_run; try asides.
  eapply wpf_mono; [apply IH|]. intros r f' l [-> Hl]. split; [done|]. by constructor.
Qed.

Lemma addonNIC_wpf fuel cfg id f :
  wpf (W := W) (ali_createAddonNIC fuel cfg id) f (fun r f' l => f' = f /\ Forall aside l).
Proof.
  unfold ali_createAddonNIC. ali_run; try asides.
  eapply wpf_mono; [apply create_nic_wpf|]. intros [[nic|err]|] f' l1 [-> Hl]; [|done..]. ali_run.
  eapply wpf_mono; [apply (wait_quiet _ _ _ (fun _ => True)), status_quiet|].
  intros [[x|err]|] f' l2 (-> & -> & _); rewrite ?app_nil_r; [|done..].
  ali_run; try (split; [done|]; rewrite ?Forall_app; asides).
  eapply wpf_mono; [apply (wait_quiet _ _ _ (fun _ => True)), status_quiet|].
  intros [[x2|err]|] f' l2 (-> & -> & _); ali_run; (split; [done|]; rewrite ?Forall_app; asides).
Qed.

Lemma createEip_wpf fuel f :
  wpf (W := W) (createEipInstance fuel) f (fun r f' l => f' = f /\ Forall aside l /\
    match r with Return (Ok res) => EipAllocated (Some res) ∈ l | _ => True end).
Proof.
  unfold createEipInstance. ali_run; try asides.
  eapply wpf_mono; [apply (wait_quiet _ _ _ (fun _ => True)), eip_judgement_quiet|].
  intros [[x2|err]|] f' l2 (-> & -> & _); ali_run; split_and!; try done; try (by repeat constructor).
Qed.

Lemma bindEip_wpf fuel eip nic f :
  wpf (W := W) (bindEipToNic fuel eip nic) f (fun r f' l => f' = f /\ Forall aside l).
Proof.
  unfold bindEipToNic. ali_run; try asides.
  eapply wpf_mono; [apply (wait_quiet _ _ _ (fun _ => True)), eip_judgement_quiet|].
  intros [[x2|err]|] f' l2 (-> & -> & _); asides.
Qed.

(** The elastic address that a launch records. *)
Definition eip_kept (cfg : AliConfig) (spec : InstanceTypeSpec) (id : string) (f f' : ali_fields) (l : list ali_call) : Prop :=
  if (MultiNic spec && ali_UsePublicIP cfg)%bool
  then exists eip a, EipAllocated (Some (eip, a)) ∈ l /\ eips f' = <[id := eip]> (eips f)
  else eips f' = eips f.

Lemma external_nic_wpf fuel cfg spec id f :
  wpf (W := W) (external_nic fuel cfg spec id) f (fun r f' l => Forall aside l /\ ali_ImageId f' = ali_ImageId f /\
    (r = Return (Ok tt) -> eip_kept cfg spec id f f' l)).
Proof.
  unfold external_nic, eip_kept. wpf_run; try done.
  eapply wpf_mono; [apply addonNIC_wpf|]. intros [[nic|err]|] f' l [-> Hl]; [|done..]. wpf_run; rewrite ?app_nil_r; try done.
  eapply wpf_mono; [apply createEip_wpf|]. intros [[[eip a]|err]|] f' l2 (-> & Hl2 & Hin);
    [|by split_and!; [apply Forall_app|done|done]..].
  wpf_run. unfold catch. wpf_run. eapply wpf_mono; [apply bindEip_wpf|].
  intros r f' l3 [-> Hl3]. assert (Hall : Forall aside (l ++ l2 ++ l3)) by (by rewrite !Forall_app).
  destruct r as [[[]|err]|]; wpf_run; rewrite ?app_nil_r; try done. split_and!; try done.
  intros _. exists eip, a. split; [set_solver|done].
Qed.

Definition ali_image (spec : InstanceTypeSpec) (f : ali_fields) : string :=
  if nonempty (Image spec) then Image spec else ali_ImageId f.

(** What a launch did. *)
Definition ali_launched (cfg : AliConfig) (spec : InstanceTypeSpec) (cc : result string) (f : ali_fields)
    (r : outcome (result (Instance Addr))) (f' : ali_fields) (l : list ali_call) : Prop :=
  match l with
  | [] => match r with Return (Ok _) => False | _ => True end
  | AliRan req answer :: rest =>
      (exists data, cc = Ok data /\ DecodeString (rr_UserData req) = Ok data) /\
      ali_selectInstanceType cfg spec = Ok (rr_InstanceType req) /\
      rr_ImageId req = ali_image spec f /\ ali_ImageId f' = ali_image spec f /\
      rr_Tdx req = negb (ali_DisableCVM cfg) /\ Forall aside rest /\
      match r with
      | Return (Ok i) => (exists more, answer = Some (Some (ID i) :: more)) /\ Name i = rr_InstanceName req /\
                         IPs i <> [] /\ eip_kept cfg spec (ID i) f f' rest
      | _ => True
      end
  | _ => False
  end.

Lemma ali_CreateInstance_wpf fuel lower cfg podName sandboxID cc spec f :
  wpf (W := W) (ali_CreateInstance fuel lower cfg podName sandboxID cc spec) f (ali_launched cfg spec cc f).
Proof.
  unfold ali_CreateInstance. wpf_step. wpf_step; [intros|done].
  wpf_step. wpf_step; [|done]. wpf_step. wpf_step; [|done]. wpf_step. subst cc.
  assert (Hi : wpf (W := W) (choose_image spec) f (fun r f1 l => r = Return (Ok (ali_image spec f)) /\ l = [] /\
    f1 = mkFields (ali_image spec f) (eips f))).
  { unfold choose_image, ali_image. wpf_run; split_and!; try done. by destruct f. }
  eapply wpf_mono; [exact Hi|]. intros r f1 l (-> & -> & ->). cbn [app].
  match goal with |- context [run_request cfg ?i ?t ?d ?n] => set (req := run_request cfg i t d n) end.
  set (f1 := mkFields (ali_image spec f) (eips f)).
  assert (Hreq : forall r f2 answer rest, ali_ImageId f2 = ali_image spec f -> Forall aside rest ->
    match r with
    | Return (Ok i) => (exists more, answer = Some (Some (ID i) :: more)) /\ Name i = rr_InstanceName req /\
                       IPs i <> [] /\ eip_kept cfg spec (ID i) f f2 rest
    | _ => True end -> ali_launched cfg spec (Ok a0) f r f2 (AliRan req answer :: rest)).
  { intros r f2 answer rest H1' H2' H3'. cbn. split_and!; try done. exists a0. split; [done|apply DecodeString_Encode]. }
  assert (Hname : rr_InstanceName req = a) by done.
  clearbody req. ali_run; try (by apply Hreq).
  eapply wpf_mono; [apply (wait_quiet _ _ _ (fun _ => True)), ready_quiet|].
  intros [[x|err]|] f' l' (-> & -> & _); [|by apply Hreq..].
  wpf_step. eapply wpf_mono; [apply addresses_quiet_ali|].
  intros [[ips|err]|] f' l' (-> & -> & Hips); cbn [app]; [|by apply Hreq..].
  wpf_step. eapply wpf_mono; [apply external_nic_wpf|]. intros rn f' l' (Hl & Himg & Hk).
  destruct rn as [[[]|err]|]; [|by apply Hreq..]. wpf_run. rewrite ?app_nil_r. apply Hreq; [done|done|].
  cbn. subst. split_and!; [by eexists|done|done|by apply Hk].
Qed.

(** A launch on Alibaba Cloud runs one instance at most, of an allowed type, with the
    cloud-config as user data, confidential unless that is disabled, and with the image
    of the annotation, which from then on is the image of the provider; an instance
    that is returned is the first the service answered with, it has an address, and the
    elastic address of its second interface is recorded for the deletion. *)
Theorem ali_launch fuel lower cfg podName sandboxID cc spec w f l r s' :
  ali_CreateInstance fuel lower cfg podName sandboxID cc spec (mkSdk (w, f) l) = (r, s') ->
  exists l' w' f', s' = mkSdk (w', f') (l ++ l') /\ ali_launched cfg spec cc f r f' l'.
Proof. apply (wpf_elim _ _ _ _ _ _ _ (ali_CreateInstance_wpf fuel lower cfg podName sandboxID cc spec f)). Qed.

(** An error of the transport, which is not one of the SDK, makes the deletion panic. *)
Theorem ali_delete_panics fuel id w f l w1 w2 :
  (0 < fuel)%nat -> since_start w = (0, w1) -> ecs_DeleteInstance id w1 = (inr OtherError, w2) ->
  ali_DeleteInstance fuel id (mkSdk (w, f) l) = (Panic, mkSdk (w2, f) (l ++ [AliDeleted id (Some OtherError)])).
Proof.
  intros Hf Hs Hd. destruct fuel as [|n]; [lia|]. unfold ali_DeleteInstance, waitUntilTimeout.
  change (30 * second <=? 0) with false. cbn iota. cbn [wait_rounds].
  rewrite gbind_run. unfold gwrap at 1. unfold mbind at 1. rewrite gbind_run.
  unfold ask at 1, gcall at 1, mbind at 1, lift at 1. cbn [sdk_world sdk_calls fst snd mret]. rewrite Hs.
  cbn [sdk_world sdk_calls fst snd mret]. rewrite app_nil_r. change (30 * second <? 0) with false. cbn iota.
  rewrite gbind_run. unfold delete_judgement at 1. rewrite gbind_run.
  unfold call_ev, act, gcall, mbind, lift. cbn [sdk_world sdk_calls fst snd mret]. by rewrite Hd.
Qed.

End Props.

(** ** Witnesses *)

(** A cloud with a clock of one second per check, in which the instances of a list exist. *)
Record mini_ali := mkMiniAli { ma_instances : list string; ma_reachable : bool }.

#[export] Instance mini_ali_api : AliApi mini_ali := {
  float32 := Z;
  mebibytes := fun z => z * 1024;
  ecs_RunInstances := fun _ w => (inl [Some "i-1"%string], mkMiniAli ("i-1"%string :: ma_instances w) (ma_reachable w));
  ecs_DeleteInstance := fun id w =>
    if negb (ma_reachable w) then (inr OtherError, w)
    else if bool_decide (id ∈ ma_instances w)
    then (inl tt, mkMiniAli (List.filter (fun i => negb (String.eqb i id)) (ma_instances w)) true)
    else (inr (SDKError (Some 404) (Some "InvalidInstanceId.NotFound"%string) None), w);
  ecs_DescribeInstanceTypes := fun _ => mret (inl [(Some 2, Some 8, Some 0)]);
  ecs_DescribeInstanceAttribute := fun _ => mret (inl (mkAttributes (Some [Some "10.2.0.5"%string]) (Some [Some "203.0.113.9"%string]) (Some "Running"%string)));
  ecs_CreateNetworkInterface := fun _ _ _ _ => mret (inl (Some "eni-1"%string));
  ecs_AttachNetworkInterface := fun _ _ => mret (inl tt);
  ecs_DeleteNetworkInterface := fun _ => mret (inl tt);
  ecs_DescribeNetworkInterfaceAttribute := fun _ => mret (inl (Some "InUse"%string));
  ecs_ModifyNetworkInterfaceAttribute := fun _ => mret (inl tt);
  vpc_DescribeVSwitchAttributes := fun _ => mret (inl (Some "vpc-1"%string));
  vpc_AllocateEipAddress := mret (inl (Some "eip-1"%string, Some "203.0.113.10"%string));
  vpc_ReleaseEipAddress := fun _ => mret (inl tt);
  vpc_AssociateEipAddress := fun _ _ => mret (inl tt);
  vpc_UnassociateEipAddress := fun _ => mret (inl tt);
  vpc_DescribeEipAddresses := fun _ => mret (inl [Some "Available"%string]);
  since_start := mret 0;
  since_condition := mret second
}.

Definition ali_cfg : AliConfig := mkAliConfig "cn" "ecs.g8i.large" "" "vsw-1" ["sg-1"%string] [] [] ∅ true 0 false.
Definition ali_start (w : mini_ali) : sdk (mini_ali * ali_fields) ali_call := mkSdk (w, mkFields "img" ∅) [].
Definition ali_spec : InstanceTypeSpec := mkSpec "" 0 0 "" 0 "" false.

Lemma wait_ends_witness :
  exists r s', waitUntilTimeout 40 (30 * second) (gret None : G (mini_ali * ali_fields) ali_call (option unit))
    (ali_start (mkMiniAli [] true)) = (r, s') /\ r <> Return (Err still_waiting).
Proof.
  destruct (waitUntilTimeout 40 (30 * second) (gret None : G (mini_ali * ali_fields) ali_call (option unit))
    (ali_start (mkMiniAli [] true))) as [r s'] eqn:E.
  exists r, s'. split; [reflexivity|].
  apply (wait_ends 40 second (30 * second) (gret None : G (mini_ali * ali_fields) ali_call (option unit))
    (ali_start (mkMiniAli [] true)) r s');
    [reflexivity|intros w; cbn; lia|apply wp_gret; discriminate|reflexivity|exact E].
Defined.

(** The service accepts the deletion, and the caller gets an error. *)
Lemma ali_delete_witness :
  exists e s', ali_DeleteInstance 40 "i-1" (ali_start (mkMiniAli ["i-1"%string] true)) = (Return (Err e), s') /\
    is_waiting e = false /\ ma_instances (fst (sdk_world s')) = [].
Proof.
  destruct (ali_DeleteInstance 40 "i-1" (ali_start (mkMiniAli ["i-1"%string] true))) as [r s'] eqn:E.
  destruct (ali_delete 40 "i-1" (mkMiniAli ["i-1"%string] true) (mkFields "img" ∅) [] r s' E)
    as (l1 & l2 & w' & f' & Hs & He2 & _ & Hacc).
  assert (Hc : sdk_calls s' = [AliDeleted "i-1" None] /\ fst (sdk_world s') = mkMiniAli [] true)
    by (vm_compute in E; injection E as <- <-; split; reflexivity).
  destruct Hc as [Hc Hw]. rewrite Hs in Hc. cbn in Hc.
  assert (Hin : AliDeleted "i-1" None ∈ l1).
  { destruct l1 as [|c l1]; cbn in Hc; [|injection Hc as -> _; by left].
    rewrite Hc in He2. by apply Forall_cons in He2 as [[] _]. }
  destruct (Hacc Hin) as ((e & -> & He) & _). exists e, s'. rewrite Hw. by repeat split.
Defined.
