(* ===== verification/Vsphere.v ===== *)
(** * The vSphere provider

    Models src/cloud-providers/vsphere (provider.go, vsphere.go, types.go) over the client
    of vCenter, the class [VsApi].  References of managed objects are strings. *)

From Stdlib Require Import ZArith Ascii String Lia.
From stdpp Require Import base gmap strings list.
From S2P Require Import Prelude InstanceTypes NetAddr Initdata ProviderKit.

Open Scope Z_scope.
Open Scope go_scope.

Definition vs_maxInstanceNameLen : Z := 63.

Record VsConfig := mkVsConfig {
  VcenterURL : string;
  UserName : string;
  Password : string;
  Thumbprint : string;
  Datacenter : string;
  Cluster : string;
  Datastore : string;
  DRS : string;
  Deployfolder : string;
  Template : string;
  Host : string
}.

(** ** Strings *)

Definition lower_byte (c : ascii) : ascii :=
  let n := nat_of_ascii c in
  if ((65 <=? n)%nat && (n <=? 90)%nat)%bool then ascii_of_nat (n + 32) else c.

Fixpoint lower_bytes (s : string) : string :=
  match s with EmptyString => "" | String c s => String (lower_byte c) (lower_bytes s) end.

Definition is_ascii (s : string) : bool := forallb (fun c => (nat_of_ascii c <? 128)%nat) (String.list_ascii_of_string s).

(** [strings.EqualFold(s, "true")]: no letter of "true" folds with one outside ASCII. *)
Definition is_true_fold (s : string) : bool := String.eqb (lower_bytes s) "true".

(** ** The client *)

(** Where a clone goes: folder, datastore, host and resource pool. *)
Record RelocateSpec := mkRelocate {
  rs_Folder : string; rs_Datastore : option string; rs_Host : option string; rs_Pool : option string
}.

Record CloneSpec := mkClone {
  cs_PowerOn : bool;
  cs_Location : RelocateSpec;
  cs_ExtraConfig : list (string * string)
}.

(** A folder that is missing is told apart from other errors. *)
Inductive find_error := NotFoundError | FindError (e : GoError).

Definition find_err (e : find_error) : GoError :=
  match e with NotFoundError => Errorf "folder not found" [] | FindError e => e end.

(** The first action of a recommendation: a placement or something else. *)
Inductive action := Placement (r : option RelocateSpec) | OtherAction.

Class VsApi (W : Type) := {
  ParseURL : string -> option string;
  vim_NewClient : string -> bool -> M W (option GoError);
  SessionIsActive : M W (bool * option GoError);
  Login : string -> string -> M W (option GoError);
  Logout : M W (option GoError);
  find_Datacenter : string -> M W (result string);
  (** the inventory path of a data center *)
  InventoryPath : string -> string;
  find_VirtualMachine : string -> M W (result string);
  IsTemplate : string -> M W (result bool);
  find_Folder : string -> M W (string + find_error);
  CreateFolder : string -> string -> M W (result string);
  find_Cluster : string -> M W (result string);
  PlaceVm : string -> string -> RelocateSpec -> M W (result (list (list action)));
  find_HostSystem : string -> M W (result string);
  ResourcePool : string -> M W (result string);
  find_Datastore : string -> M W (result string);
  vm_Clone : string -> string -> string -> CloneSpec -> M W (result string);
  (** the result of a task, if it is a reference *)
  WaitForResult : string -> M W (result (option string));
  vm_ObjectName : string -> M W (result string);
  vm_UUID : string -> M W string;
  WaitForIP : string -> M W (result string);
  (** [FindByUuid] answers nil for an unknown machine *)
  FindByUuid : string -> string -> M W (result (option string));
  (** whether it is powered on *)
  PowerState : string -> M W (result bool);
  PowerOff : string -> M W (result string);
  vm_Destroy : string -> M W (result string);
  task_Wait : string -> M W (option GoError);
  (** [strings.ToLower] on strings that are not ASCII *)
  ToLower_unicode : string -> string
}.

Inductive vs_call :=
| FolderCreated (parent name : string) (r : result string)
| Cloned (template folder name : string) (spec : CloneSpec) (r : result string)
| PoweredOff (vm : string) (r : result string)
| Destroyed (vm : string) (r : result string)
| LoggedIn (user : string) (e : option GoError)
| LoggedOut (e : option GoError).

Section Provider.

Context {W : Type} `{VsApi W} `{NetIP}.

Notation P A := (G W vs_call A).

Definition ToLower (s : string) : string := if is_ascii s then lower_bytes s else ToLower_unicode s.

(** An operation that cannot fail. *)
Definition value {A} (m : M W A) : P A := ask (fun w => let '(a, w') := m w in (Ok a, w')).

(** ** Sessions: vsphere.go *)

(** Without a thumbprint the certificate of vCenter is not checked. *)
Definition NewGovmomiClient (cfg : VsConfig) : P unit :=
  match ParseURL (VcenterURL cfg) with
  | None => gfail (Errorf "ParseURL" [])
  | Some url =>
      let insecure := String.eqb (Thumbprint cfg) "" in
      do c := ask_err (vim_NewClient url insecure) in
      act_err (LoggedIn (UserName cfg)) (Login (UserName cfg) (Password cfg))
  end.

Definition DeleteGovmomiClient : P unit := act_err LoggedOut Logout.

(** The error of the URL is dropped; the URL is nil then. *)
Definition CheckSessionWithRestore (cfg : VsConfig) : P unit :=
  do a := value SessionIsActive in
  match a with
  | (true, None) => gret tt
  | _ =>
      do l := gcatch (act_err LoggedOut Logout) in
      do url := deref (ParseURL (VcenterURL cfg)) in
      act_err (LoggedIn (UserName cfg)) (Login (UserName cfg) (Password cfg))
  end.

(** ** Configuration *)

Definition checkConfig (cfg : VsConfig) : option GoError :=
  if String.eqb (DRS cfg) "true" then
    if String.eqb (Cluster cfg) "" then Some (Errorf "Error: A cluster name is required with DRS" []) else None
  else if (String.eqb (Host cfg) "" || String.eqb (Datastore cfg) "")%bool
  then Some (Errorf "Error: A host and datastore name are required" [])
  else None.

Definition vs_NewProvider (cfg : VsConfig) : P unit :=
  match checkConfig cfg with
  | Some e => gfail e
  | None => gwrap (fun _ => Errorf "Error creating vcenter session for cloud provider: %s" []) (NewGovmomiClient cfg)
  end.

(** ** Placement *)

(** The folder of the virtual machines: missing parts of the path are created below the
    folder reached so far. *)
Fixpoint deploy_folder (vmfolder deploy_path : string) (dirs : list string) : P string :=
  match dirs with
  | [] => gret vmfolder
  | dir :: rest =>
      let deploy_path := filepath_Join [deploy_path; dir] in
      do r := value (find_Folder deploy_path) in
      do current_folder :=
        match r with
        | inl f => gret f
        | inr NotFoundError => act (FolderCreated vmfolder dir) (CreateFolder vmfolder dir)
        | inr (FindError e) => gfail e
        end in
      deploy_folder current_folder deploy_path rest
  end.

Definition drs_placement (cfg : VsConfig) (vm vmname folder : string) : P RelocateSpec :=
  do cluster := ask (find_Cluster (Cluster cfg)) in
  do recs := ask (PlaceVm cluster vm (mkRelocate folder None None None)) in
  match recs with
  | [] => gfail (Errorf "Vcenter has no cluster recommendations for cluster %s" [])
  | actions :: _ =>
      do a := first actions in
      match a with
      | OtherAction => gpanic
      | Placement r =>
          do rspec := deref r in
          gret (mkRelocate folder (rs_Datastore rspec) (rs_Host rspec) (rs_Pool rspec))
      end
  end.

Definition host_path (cfg : VsConfig) : string :=
  if nonempty (Cluster cfg) then "/" +:+ Datacenter cfg +:+ "/host/" +:+ Cluster cfg +:+ "/" +:+ Host cfg
  else "/" +:+ Datacenter cfg +:+ "/host/" +:+ Host cfg.

Definition host_placement (cfg : VsConfig) (folder : string) : P RelocateSpec :=
  do host := ask (find_HostSystem (host_path cfg)) in
  do pool := ask (ResourcePool host) in
  do datastore := ask (find_Datastore ("/" +:+ Datacenter cfg +:+ "/datastore/" +:+ Datastore cfg)) in
  gret (mkRelocate folder (Some datastore) (Some host) (Some pool)).

Definition placement (cfg : VsConfig) (vm vmname folder : string) : P RelocateSpec :=
  if is_true_fold (DRS cfg) then drs_placement cfg vm vmname folder else host_placement cfg folder.

Definition clone_spec (location : RelocateSpec) (userData : string) : CloneSpec :=
  mkClone true location
    [("guestinfo.userdata"%string, EncodeToString userData); ("guestinfo.userdata.encoding"%string, "base64"%string)].

(** ** Instances *)

Definition vs_getIPs (vm : string) : P (list Addr) :=
  do ip := ask (WaitForIP vm) in
  match ParseAddr ip with
  | None => gfail (Errorf "failed to parse pod node IP %q: %w" [])
  | Some a => gret [a]
  end.

(** The template must be one. *)
Definition template_vm (cfg : VsConfig) : P string :=
  do vm := ask (find_VirtualMachine (Template cfg)) in
  do template := ask (IsTemplate vm) in
  if template then gret vm else gfail (Errorf "template not valid" []).

Definition vs_CreateInstance (lower : Z -> Z) (cfg : VsConfig) (podName sandboxID : string) (cloudConfig : result string)
    (requirement : InstanceTypeSpec) : P (Instance Addr) :=
  do vmname := of_outcome (GenerateInstanceName lower podName sandboxID vs_maxInstanceNameLen) in
  do s := CheckSessionWithRestore cfg in
  do dc := ask (find_Datacenter (Datacenter cfg)) in
  do vm := template_vm cfg in
  let inventory_path := filepath_Join [InventoryPath dc; "vm"%string] in
  do root := value (find_Folder inventory_path) in
  do vmfolder := match root with inl f => gret f | inr e => gfail (find_err e) end in
  do folder := deploy_folder vmfolder inventory_path (split_on "/" (Deployfolder cfg)) in
  do location := placement cfg vm vmname folder in
  do userData := of_result cloudConfig in
  let spec := clone_spec location userData in
  do task := act (Cloned vm folder vmname spec) (vm_Clone vm folder vmname spec) in
  do info := ask (WaitForResult task) in
  do clone := deref info in
  do name := ask (vm_ObjectName clone) in
  do u := value (vm_UUID clone) in
  do ips := vs_getIPs clone in
  do uuid := value (vm_UUID clone) in
  do u := value (vm_UUID clone) in
  gret (mkInstance uuid vmname ips).

Definition vs_DeleteInstance (cfg : VsConfig) (instanceID : string) : P unit :=
  if String.eqb instanceID "" then gfail (Errorf "DeleteInstance no VM UUID available" [])
  else
    let instanceID := ToLower (TrimSpace instanceID) in
    do s := CheckSessionWithRestore cfg in
    do dc := ask (find_Datacenter (Datacenter cfg)) in
    do ref := ask (FindByUuid dc instanceID) in
    do vm := deref ref in
    do on := ask (PowerState vm) in
    do off := (if on then
                 do task := act (PoweredOff vm) (PowerOff vm) in
                 do w := gcatch (ask_err (task_Wait task)) in gret tt
               else gret tt) in
    do task := act (Destroyed vm) (vm_Destroy vm) in
    do w := gcatch (ask_err (task_Wait task)) in
    gret tt.

Definition vs_Teardown : P unit := DeleteGovmomiClient.

Definition vs_ConfigVerifier (cfg : VsConfig) : option GoError :=
  if String.eqb (Template cfg) "" then Some (Errorf "Template is empty" []) else None.

(** ** Theorems *)

(** The user data among the extra configuration, in base64. *)
Definition carries (extra : list (string * string)) (data : string) : Prop :=
  exists v, ("guestinfo.userdata"%string, v) ∈ extra /\ DecodeString v = Ok data /\
            ("guestinfo.userdata.encoding"%string, "base64"%string) ∈ extra.

Lemma wp_value {A} (m : M W A) (Q : _ -> list vs_call -> Prop) : (forall a, Q (Return (Ok a)) []) -> wp (value m) Q.
Proof.
  intros HQ s. unfold value, ask, gcall, mbind. destruct (m (sdk_world s)) as [a w]. exists []. cbn.
  by rewrite app_nil_r.
Qed.

Ltac vs_run :=
  repeat (cbv beta; lazymatch goal with |- wp (value _) _ => apply wp_value; intros ?; cbn [app] | _ => wp_step end).

(** Sessions and folders only. *)
Definition preparing (c : vs_call) : Prop :=
  match c with FolderCreated _ _ _ | LoggedIn _ _ | LoggedOut _ => True | _ => False end.

Lemma session_wp cfg : wp (W := W) (CheckSessionWithRestore cfg) (fun _ l => Forall preparing l).
Proof. unfold CheckSessionWithRestore. vs_run; by repeat constructor. Qed.

Lemma deploy_folder_wp dirs : forall folder path,
  wp (W := W) (deploy_folder folder path dirs) (fun _ l => Forall preparing l /\ (length l <= length dirs)%nat).
Proof.
  induction dirs as [|d dirs IH]; intros folder path; cbn [deploy_folder length]; vs_run; try (split; [by repeat constructor|cbn; lia]).
  all: eapply wp_mono; [apply IH|]; intros r2 l2 [Hl Hn]; cbn [app length]; (split; [|lia]); done || by constructor.
Qed.

(** A location that comes from the configuration or from the cluster. *)
Definition placed (cfg : VsConfig) (folder : string) (location : RelocateSpec) : Prop :=
  rs_Folder location = folder /\
  (is_true_fold (DRS cfg) = false ->
     exists h p d, location = mkRelocate folder (Some d) (Some h) (Some p)).

Lemma placement_wp cfg vm name folder :
  wp (W := W) (placement cfg vm name folder) (fun r l => l = [] /\
    match r with Return (Ok loc) => placed cfg folder loc | _ => True end).
Proof.
  unfold placement, drs_placement, host_placement, placed. vs_run; split; try done; (split; [done|]); try congruence.
  intros _. by eexists _, _, _.
Qed.

(** What a launch did: sessions and folders, then one clone at most. *)
Definition vs_launched (cfg : VsConfig) (cc : result string) (r : outcome (result (Instance Addr))) (l : list vs_call) : Prop :=
  (Forall preparing l /\ match r with Return (Ok _) => False | _ => True end) \/
  (exists l0 template folder name spec task, l = l0 ++ [Cloned template folder name spec task] /\ Forall preparing l0 /\
     cs_PowerOn spec = true /\ placed cfg folder (cs_Location spec) /\
     (exists data, cc = Ok data /\ carries (cs_ExtraConfig spec) data) /\
     match r with Return (Ok i) => Name i = name /\ length (IPs i) = 1%nat /\ (exists t, task = Ok t) | _ => True end).

(** No clone was asked for. *)
Lemma not_cloned cfg cc (r : outcome (result (Instance Addr))) l :
  Forall preparing l -> match r with Return (Ok _) => False | _ => True end -> vs_launched cfg cc r l.
Proof. by left. Qed.

Lemma vs_CreateInstance_wp lower cfg podName sandboxID cc spec :
  wp (W := W) (vs_CreateInstance lower cfg podName sandboxID cc spec) (vs_launched cfg cc).
Proof.
  unfold vs_CreateInstance. wp_step. wp_step; [|by apply not_cloned].
  wp_step. eapply wp_mono; [apply session_wp|]. intros [[[]|err]|] l1 Hl1; cbn [app]; [|by apply not_cloned..].
  unfold template_vm. vs_run; rewrite ?app_nil_r; try (by apply not_cloned).
  eapply wp_mono; [apply deploy_folder_wp|]. intros rf l2 [Hl2 _].
  assert (Hl : Forall preparing (l1 ++ l2)) by (by apply Forall_app).
  destruct rf as [[folder|err]|]; [|by apply not_cloned..].
  wp_step. eapply wp_mono; [apply placement_wp|]. intros rp l3 [-> Hp].
  destruct rp as [[loc|err]|]; cbn [app]; rewrite ?app_nil_r; [|by apply not_cloned..].
  wp_step. wp_step; cbn [app]; rewrite ?app_nil_r; [|by apply not_cloned]. subst cc.
  wp_step. apply wp_act. intros rt.
  match goal with |- context [Cloned ?v folder ?n (clone_spec loc ?d)] =>
    assert (Hdone : forall r : outcome (result (Instance Addr)),
      match r with Return (Ok i) => Name i = n /\ length (IPs i) = 1%nat /\ (exists t, rt = Ok t) | _ => True end ->
      vs_launched cfg (Ok d) r (l1 ++ l2 ++ [Cloned v folder n (clone_spec loc d) rt]))
  end.
  { intros r Hr. right. eexists (l1 ++ l2), _, folder, _, _, rt. rewrite app_assoc. split_and!; try done.
    eexists. split; [done|]. eexists. split_and!; [by left|apply DecodeString_Encode|by right; left]. }
  destruct rt as [task|err]; [|by apply Hdone].
  unfold vs_getIPs. vs_run; apply Hdone; try done. split_and!; try done. by eexists.
Qed.

(** A launch on vSphere clones the template once at most, after sessions and folders
    only; the clone is powered on, carries the cloud-config as base64, and without DRS
    has a host, a pool and a datastore; an instance that is returned has one address. *)
Theorem vs_launch lower cfg podName sandboxID cc spec s r s' :
  vs_CreateInstance lower cfg podName sandboxID cc spec s = (r, s') ->
  exists l, sdk_calls s' = sdk_calls s ++ l /\ vs_launched cfg cc r l.
Proof. apply (wp_elim _ _ _ _ _ (vs_CreateInstance_wp lower cfg podName sandboxID cc spec)). Qed.

(** The machine that vCenter answers for the UUID. *)
Definition named (id vm : string) : Prop :=
  exists dc w w', FindByUuid dc (ToLower (TrimSpace id)) w = (Ok (Some vm), w').

Definition runs (vm : string) (on : bool) : Prop := exists w w', PowerState vm w = (Ok on, w').

(** What a deletion did: sessions, then the machine of the UUID is powered off if it
    runs, and destroyed. *)
Definition vs_deleted (id : string) (r : outcome (result unit)) (l : list vs_call) : Prop :=
  (Forall preparing l /\ r <> Return (Ok tt)) \/
  exists l0 vm off gone, l = l0 ++ off ++ gone /\ Forall preparing l0 /\ named id vm /\
    ((off = [] /\ runs vm false) \/ (exists t, off = [PoweredOff vm t]) /\ runs vm true) /\
    (gone = [] \/ exists t, gone = [Destroyed vm t]) /\
    (r = Return (Ok tt) <-> exists t, gone = [Destroyed vm (Ok t)]).

Lemma vs_DeleteInstance_wp cfg id : wp (W := W) (vs_DeleteInstance cfg id) (vs_deleted id).
Proof.
  unfold vs_DeleteInstance. wp_step; [by wp_run; left|].
  wp_step. eapply wp_mono; [apply session_wp|]. intros [[[]|err]|] l0 Hl0; cbn [app]; [|by left..].
  wp_step. wp_step; cbn [app]; rewrite ?app_nil_r; [|by left].
  wp_step. apply wp_ask_run. intros w w' [ref|err] Hf; cbn [app]; rewrite ?app_nil_r; [|by left].
  wp_step. wp_step; cbn [app]; rewrite ?app_nil_r; [|by left]. subst ref.
  match type of Hf with context [Some ?v] => rename v into vm; assert (Hn : named id vm) by (by eexists _, _, _) end.
  wp_step. apply wp_ask_run. intros v v' [on|err] Hp; cbn [app]; rewrite ?app_nil_r; [|by left].
  assert (Hr : runs vm on) by (by eexists _, _).
  assert (Hyes : forall off gone (r : outcome (result unit)),
    ((off = [] /\ on = false) \/ (exists t, off = [PoweredOff vm t]) /\ on = true) ->
    (gone = [] \/ exists t, gone = [Destroyed vm t]) -> (r = Return (Ok tt) <-> exists t, gone = [Destroyed vm (Ok t)]) ->
    vs_deleted id r (l0 ++ off ++ gone)).
  { intros off gone r H1' H2' H3'. right. exists l0, vm, off, gone. split_and!; try done.
    destruct H1' as [[-> ->]|[? ->]]; eauto. }
  vs_run; lazymatch goal with
  | |- vs_deleted _ _ (l0 ++ [PoweredOff ?v ?t; Destroyed ?v ?t']) => apply (Hyes [PoweredOff v t] [Destroyed v t'])
  | |- vs_deleted _ _ (l0 ++ [PoweredOff ?v ?t]) => apply (Hyes [PoweredOff v t] [])
  | |- vs_deleted _ _ (l0 ++ [Destroyed ?v ?t]) => apply (Hyes [] [Destroyed v t])
  end; eauto; naive_solver.
Qed.

(** A deletion touches only the machine that vCenter answers for the UUID, powers it off
    exactly when it runs, and succeeds exactly when vCenter accepts its destruction,
    whatever becomes of it then. *)
Theorem vs_delete cfg id s r s' :
  vs_DeleteInstance cfg id s = (r, s') -> exists l, sdk_calls s' = sdk_calls s ++ l /\ vs_deleted id r l.
Proof. apply (wp_elim _ _ _ _ _ (vs_DeleteInstance_wp cfg id)). Qed.

(** What the configuration must name for the placement that a launch takes: the check at
    the start reads DRS with another comparison. *)
Definition placeable (cfg : VsConfig) : bool :=
  if is_true_fold (DRS cfg) then nonempty (Cluster cfg) else (nonempty (Host cfg) && nonempty (Datastore cfg))%bool.

Theorem checkConfig_placeable cfg :
  DRS cfg = "true"%string \/ is_true_fold (DRS cfg) = false -> checkConfig cfg = None <-> placeable cfg = true.
Proof.
  unfold checkConfig, placeable, nonempty. intros [-> | Hf].
  - cbn. by destruct (String.eqb (Cluster cfg) "").
  - rewrite Hf. destruct (String.eqb (DRS cfg) "true") eqn:E; [apply String.eqb_eq in E; by rewrite E in Hf|].
    destruct (String.eqb (Host cfg) ""), (String.eqb (Datastore cfg) ""); cbn; done.
Qed.

End Provider.

(** ** Witnesses *)

(** A vCenter with one data center; the machines with their power state. *)
#[export] Instance mini_vs : VsApi (list (string * bool)) := {
  ParseURL := Some;
  vim_NewClient := fun _ _ => mret None;
  SessionIsActive := mret (true, None);
  Login := fun _ _ => mret None;
  Logout := mret None;
  find_Datacenter := fun _ => mret (Ok "dc"%string);
  InventoryPath := fun dc => "/" +:+ dc;
  find_VirtualMachine := fun _ => mret (Ok "template"%string);
  IsTemplate := fun _ => mret (Ok true);
  find_Folder := fun p => mret (if String.eqb p "/dc/vm" then inl "vm"%string else inr NotFoundError);
  CreateFolder := fun _ n => mret (Ok n);
  find_Cluster := fun _ => mret (Ok "cluster"%string);
  PlaceVm := fun _ _ _ => mret (Ok []);
  find_HostSystem := fun _ => mret (Ok "host"%string);
  ResourcePool := fun _ => mret (Ok "pool"%string);
  find_Datastore := fun _ => mret (Ok "store"%string);
  vm_Clone := fun _ _ n _ w => (Ok n, (n, true) :: w);
  WaitForResult := fun t => mret (Ok (Some t));
  vm_ObjectName := fun v => mret (Ok v);
  vm_UUID := fun v => mret v;
  WaitForIP := fun _ => mret (Ok "10.4.0.9"%string);
  FindByUuid := fun _ id w => (Ok (if existsb (fun m => String.eqb (fst m) id) w then Some id else None), w);
  PowerState := fun v w => (Ok (existsb (fun m => String.eqb (fst m) v && snd m)%bool w), w);
  PowerOff := fun v w => (Ok v, map (fun m => if String.eqb (fst m) v then (v, false) else m) w);
  vm_Destroy := fun v w => (Ok v, List.filter (fun m => negb (String.eqb (fst m) v)) w);
  task_Wait := fun _ => mret None;
  ToLower_unicode := fun s => s
}.

Definition vs_cfg : VsConfig := mkVsConfig "https://vc" "u" "p" "" "dc" "" "store" "" "peerpods/a" "tpl" "h1".

Lemma vs_delete_witness :
  exists s', vs_DeleteInstance vs_cfg " VM-1" (mkSdk [("vm-1"%string, true); ("vm-2"%string, false)] []) = (Return (Ok tt), s') /\
    vs_deleted (W := list (string * bool)) " VM-1" (Return (Ok tt)) (sdk_calls s') /\ sdk_world s' = [("vm-2"%string, false)].
Proof.
  destruct (vs_DeleteInstance vs_cfg " VM-1" (mkSdk [("vm-1"%string, true); ("vm-2"%string, false)] [])) as [r s'] eqn:E.
  destruct (vs_delete vs_cfg " VM-1" _ r s' E) as (l & Hl & Hd). cbn in Hl. subst l.
  vm_compute in E. injection E as <- <-. eexists. split; [reflexivity|]. split; [exact Hd|reflexivity].
Defined.

(** A UUID that vCenter does not know makes the deletion panic. *)
Example vs_delete_unknown :
  (vs_DeleteInstance vs_cfg "vm-9" (mkSdk [("vm-1"%string, true)] [])).1 = Panic.
Proof. reflexivity. Qed.

Lemma checkConfig_placeable_witness : checkConfig vs_cfg = None.
Proof. apply (checkConfig_placeable vs_cfg); [right; reflexivity|reflexivity]. Defined.

(** With another spelling of DRS the check accepts what cannot be placed. *)
Example checkConfig_spelling :
  let cfg := mkVsConfig "https://vc" "u" "p" "" "dc" "" "store" "True" "" "tpl" "h1" in
  checkConfig cfg = None /\ placeable cfg = false.
Proof. split; reflexivity. Qed.

Lemma vs_launch_witness :
  exists i s', vs_CreateInstance (fun c => c) vs_cfg "pod" "0123456789" (Ok "data"%string) (mkSpec "" 0 0 "" 0 "" false)
    (mkSdk [] []) = (Return (Ok i), s') /\ vs_launched vs_cfg (Ok "data"%string) (Return (Ok i)) (sdk_calls s') /\
    length (sdk_calls s') = 3%nat.
Proof.
  destruct (vs_CreateInstance (fun c => c) vs_cfg "pod" "0123456789" (Ok "data"%string) (mkSpec "" 0 0 "" 0 "" false)
    (mkSdk [] [])) as [r s'] eqn:E.
  destruct (vs_launch _ _ _ _ _ _ _ _ _ E) as (l & Hl & Hd). cbn in Hl. subst l.
  vm_compute in E. injection E as <- <-. eexists _, _. split; [reflexivity|]. split; [exact Hd|reflexivity].
Defined.
