(* ===== verification/Libvirt.v ===== *)
(** * The libvirt provider

    Models src/cloud-providers/libvirt (libvirt.go, volume.go, provider.go, types.go,
    image.go, stream.go, cloudinit.go) over the libvirt client, the XML codec and the
    ISO writer, the class [LvApi].  Handles of domains, volumes, pools and streams are
    strings; the name of the base volume is a field of the client that [CreateInstance]
    writes, so it is part of the state the operations share. *)

From Stdlib Require Import ZArith Ascii String Lia.
From stdpp Require Import base gmap strings list.
From S2P Require Import Prelude InstanceTypes NetAddr ProviderKit.

Open Scope Z_scope.
Open Scope go_scope.

(** ** Data: types.go *)

Definition archS390x : string := "s390x".
Definition archAArch64 : string := "aarch64".
Definition typeHardwareVirtualMachine : string := "hvm".
Definition GetDomainIPsRetries : nat := 20.
Definition lv_maxInstanceNameLen : Z := 63.

Inductive LaunchSecurityType := NoLaunchSecurity | S390PV.

Record LvConfig := mkLvConfig {
  lv_URI : string;
  lv_PoolName : string;
  lv_NetworkName : string;
  lv_DisableCVM : bool;
  lv_VolName : string;
  lv_LaunchSecurity : string;
  lv_Firmware : string;
  lv_CPU : Z;
  lv_Memory : Z
}.

Record vmConfig `{NetIP} := mkVm {
  vm_name : string;
  vm_cpu : Z;
  vm_mem : Z;
  vm_rootDiskSize : Z;
  vm_userData : string;
  vm_ips : list Addr;
  vm_instanceId : string;
  vm_launchSecurityType : LaunchSecurityType;
  vm_firmware : string
}.

Arguments mkVm {_}.

(** The capabilities of the host: a machine has a name and a canonical one. *)
Record CapsMachine := mkMachine { m_Name : string; m_Canonical : string }.

Record CapsGuest := mkGuest {
  g_OSType : string;
  g_Arch : string;
  g_Emulator : string;
  g_Machines : list CapsMachine;
  g_Domains : list (list CapsMachine)
}.

(** The parts of [libvirtClient] that do not change. *)
Record libvirtClient := mkLvClient {
  lc_pool : string;
  lc_networkName : string;
  lc_model : string;
  lc_caps : list CapsGuest
}.

Record domainConfig := mkDomainConfig {
  dc_name : string;
  dc_cpu : Z;
  dc_mem : Z;
  dc_networkName : string;
  dc_bootDisk : string;
  dc_cidataDisk : string
}.

(** The description of a domain; an empty string is an attribute left out. *)
Record DomainDisk := mkDisk {
  d_Device : string;
  d_TargetDev : string;
  d_TargetBus : string;
  d_DriverName : string;
  d_DriverType : string;
  d_IOMMU : string;
  d_File : string;
  d_Boot : option Z;
  d_ReadOnly : bool;
  (** controller, bus, target and unit of a drive *)
  d_Address : option (Z * Z * Z * Z)
}.

Record DomainInterface := mkInterface { i_Model : string; i_Network : string; i_IOMMU : string }.

Record Domain := mkDomain {
  dom_Type : string;
  dom_Name : string;
  dom_OSType : string;
  dom_Arch : string;
  dom_Machine : string;
  dom_Firmware : string;
  dom_Loader : option string;
  dom_Memory : Z;
  dom_CurrentMemory : option Z;
  dom_VCPU : Z;
  dom_CPUMode : string;
  dom_OnReboot : string;
  dom_Clock : string;
  dom_Disks : list DomainDisk;
  dom_Emulator : string;
  dom_MemBalloon : option (string * string);
  dom_RNG : list string;
  dom_Controllers : list (string * string);
  dom_Interfaces : list DomainInterface;
  dom_Consoles : list string
}.

Record StorageVolume := mkStorageVolume {
  sv_Name : string;
  sv_Format : string;
  sv_Mode : string;
  sv_Unit : string;
  sv_Capacity : Z;
  (** path and format *)
  sv_BackingStore : option (string * string)
}.

(** ** The client *)

Inductive libvirt_code := ERR_NO_DOMAIN | ERR_NO_SUPPORT | ERR_INVALID_ARG | ERR_OTHER (code : Z).

Definition lv_error : Type := libvirt_code * GoError.

Inductive domain_state := DOMAIN_RUNNING | DOMAIN_PAUSED | DOMAIN_OTHER (state : Z).

Class LvApi (W : Type) := {
  NewConnect : string -> M W (result unit);
  LookupStoragePoolByName : string -> M W (result string);
  (** the model of the node *)
  GetNodeInfo : M W (result string);
  GetCapabilities : M W (result string);
  caps_Unmarshal : string -> result (list CapsGuest);
  LookupDomainByName : string -> M W (string + lv_error);
  LookupDomainById : Z -> M W (string + lv_error);
  Domain_Free : string -> M W (option GoError);
  Domain_Marshal : Domain -> result string;
  DomainDefineXML : string -> M W (result string);
  Domain_Create : string -> M W (option GoError);
  Domain_GetName : string -> M W (result string);
  Domain_GetID : string -> M W (result Z);
  (** the leases of each interface *)
  ListAllInterfaceAddresses : string -> M W (result (list (list string)));
  Domain_GetState : string -> M W (result domain_state);
  Domain_Destroy : string -> M W (option GoError);
  Domain_GetXMLDesc : string -> M W (result string);
  (** the disks of a description, behind the pointers [Devices], [Source] and [File],
      and the error *)
  Domain_Unmarshal : string -> option (list (option (option string))) * option GoError;
  UndefineFlags : string -> M W (option lv_error);
  Undefine : string -> M W (option lv_error);
  LookupStorageVolByName : string -> string -> M W (result string);
  LookupStorageVolByKey : string -> M W (result string);
  LookupStorageVolByPath : string -> M W (result string);
  Volume_Free : string -> M W (option GoError);
  Volume_GetName : string -> M W (result string);
  Volume_GetXMLDesc : string -> M W (result string);
  (** the format of a description, behind the pointers [Target] and [Format] *)
  Volume_Unmarshal : string -> result (option (option string));
  Volume_GetPath : string -> M W (result string);
  Volume_GetKey : string -> M W (result string);
  (** its capacity *)
  Volume_GetInfo : string -> M W (result Z);
  Volume_Delete : string -> M W (option GoError);
  LookupPoolByVolume : string -> M W (result string);
  Volume_Marshal : StorageVolume -> result string;
  StorageVolCreateXML : string -> string -> M W (result string);
  Pool_Refresh : string -> M W (option GoError);
  Pool_Free : string -> M W (option GoError);
  NewStream : M W (result string);
  Volume_Upload : string -> string -> Z -> M W (option GoError);
  Stream_Send : string -> string -> M W (Z * option GoError);
  Stream_Abort : string -> M W (option GoError);
  Stream_Finish : string -> M W (option GoError);
  Stream_Free : string -> M W (option GoError);
  iso_NewWriter : M W (result string);
  iso_AddFile : string -> string -> string -> M W (option GoError);
  iso_WriteTo : string -> string -> M W (result string);
  iso_Cleanup : string -> M W unit;
  (** [time.Now], in nanoseconds, and [time.Sleep] *)
  time_Now : W -> Z;
  time_Sleep : Z -> W -> W
}.

Inductive lv_call :=
| VolumeCreated (pool : string) (def : StorageVolume) (r : result string)
| Uploaded (volume : string) (sent : Z) (e : option GoError)
| StreamAborted (stream : string) (e : option GoError)
| StreamFinished (stream : string) (e : option GoError)
| Defined (domain : Domain) (r : result string)
| Started (domain : string) (e : option GoError)
| Stopped (domain : string) (e : option GoError)
| VolumeDeleted (volume : string) (e : option GoError)
| Undefined (flags : bool) (domain : string) (e : option lv_error).

Section Provider.

Context {W : Type} `{LvApi W} `{NetIP}.

(** libvirt and the field [volName] of the client. *)
Notation P A := (G (W * string) lv_call A).

(** An operation that cannot fail. *)
Definition lv_value {A} (m : M W A) : P A := ask (lift (fun w => let '(a, w') := m w in (Ok a, w'))).

(** A function with a deferred call that reports its error only if there is none yet:
    [freeDomain], [freeVolume] and the closures like them. *)
Definition settle {A} (r : outcome (result A)) (c : outcome (result unit)) : outcome (result A) :=
  match r, c with
  | _, Panic => Panic
  | Return (Ok _), Return (Err e) => Return (Err e)
  | _, _ => r
  end.

Definition deferring {A} (m : P A) (cleanup : P unit) : P A :=
  mbind m (fun r => mbind cleanup (fun c => mret (settle r c))).

Definition freeDomain (domain : string) : P unit := ask_err (lift (Domain_Free domain)).
Definition freeVolume (volume : string) : P unit := ask_err (lift (Volume_Free volume)).

(** ** Volumes: volume.go *)

Definition waitSleepInterval : Z := 1000000000.
Definition waitTimeout : Z := 300 * 1000000000.

Definition still_refreshing : GoError := Errorf "still waiting" [].

(** The rounds of [waitForSuccess]; [still_refreshing] is the answer of a model that ran
    out of rounds. *)
Fixpoint lv_rounds (rounds : nat) (start : Z) (errorMessage : string) (f : P unit) : P unit :=
  match rounds with
  | O => gfail still_refreshing
  | S rounds =>
      do r := gcatch f in
      match r with
      | Ok _ => gret tt
      | Err e =>
          do s := lv_value (fun w => (tt, time_Sleep waitSleepInterval w)) in
          do now := lv_value (fun w => (time_Now w, w)) in
          if waitTimeout <? now - start then gfail (Errorf (errorMessage +:+ ": %s") []) else lv_rounds rounds start errorMessage f
      end
  end.

(** Each round sleeps for a second, so 301 rounds pass the five minutes. *)
Definition waitForSuccess (errorMessage : string) (f : P unit) : P unit :=
  do start := lv_value (fun w => (time_Now w, w)) in
  lv_rounds 301 start errorMessage f.

Definition refresh (pool errorMessage : string) : P unit :=
  waitForSuccess errorMessage (ask_err (lift (Pool_Refresh pool))).

Definition newDefVolume (name : string) : StorageVolume := mkStorageVolume name "qcow2" "644" "bytes" 1 None.

Definition newDefVolumeFromLibvirt (volume : string) : P (option (option string)) :=
  do name := ask (lift (Volume_GetName volume)) orelse (fun _ => Errorf "could not get name for volume: %s" []) in
  do xml := ask (lift (Volume_GetXMLDesc volume)) orelse (fun _ => Errorf "could not get XML description for volume %s: %s" []) in
  gwrap (fun _ => Errorf "could not get a volume definition from XML for %s: %s" []) (of_result (Volume_Unmarshal xml)).

Definition newDefBackingStoreFromLibvirt (baseVolume : string) : P (string * string) :=
  do def := newDefVolumeFromLibvirt baseVolume orelse (fun _ => Errorf "could not get volume: %s" []) in
  do path := ask (lift (Volume_GetPath baseVolume)) orelse (fun _ => Errorf "could not get base image path: %s" []) in
  do target := deref def in
  do format := deref target in
  gret (path, format).

(** By name, then by key. *)
Definition getVolume (c : libvirtClient) (volumeName : string) : P string :=
  do v := gcatch (ask (lift (LookupStorageVolByName (lc_pool c) volumeName))) in
  match v with
  | Ok volume => gret volume
  | Err _ =>
      gwrap (fun _ => Errorf "can't retrieve volume %q: %v" []) (ask (lift (LookupStorageVolByKey volumeName)))
  end.

Definition volumeExists (c : libvirtClient) (volumeName : string) : P bool :=
  do v := gcatch (getVolume c volumeName) in
  match v with
  | Err _ => gret false
  | Ok volume => deferring (gret true) (freeVolume volume)
  end.

Definition lv_createVolume (c : libvirtClient) (volName : string) (volSize : Z) (baseVolName : string) : P unit :=
  do baseVolume := getVolume c baseVolName orelse (fun _ => Errorf "Can't retrieve volume %s" []) in
  deferring
    (do capacity := ask (lift (Volume_GetInfo baseVolume)) orelse (fun _ => Errorf "Can't retrieve volume info %s" []) in
     do backing := newDefBackingStoreFromLibvirt baseVolume orelse (fun _ => Errorf "Could not retrieve backing store %s" []) in
     let new := newDefVolume volName in
     let def := mkStorageVolume (sv_Name new) "qcow2" (sv_Mode new) (sv_Unit new)
                  (if volSize <? capacity then capacity else volSize) (Some backing) in
     do xml := of_result (Volume_Marshal def) orelse (fun _ => Errorf "Error serializing libvirt volume: %s" []) in
     do u := refresh (lc_pool c) "error refreshing pool for volume" orelse (fun _ => Errorf "can't find storage pool '%s'" []) in
     do volume := act (VolumeCreated (lc_pool c) def) (lift (StorageVolCreateXML (lc_pool c) xml))
       orelse (fun _ => Errorf "Error creating libvirt volume: %s" []) in
     deferring
       (do key := ask (lift (Volume_GetKey volume)) orelse (fun _ => Errorf "Error retrieving volume key: %s" []) in gret tt)
       (freeVolume volume))
    (freeVolume baseVolume).

(** [io.Copy] from the bytes in memory, which are written in one piece to the stream. *)
Definition copy_to_stream (volume stream data : string) : P (Z * option GoError) :=
  if String.eqb data "" then gret (0, None)
  else
    do r := act (fun r => match r with Ok (n, e) => Uploaded volume n e | Err e => Uploaded volume 0 (Some e) end)
              (lift (fun w => let '(r, w') := Stream_Send stream data w in (Ok r, w'))) in
    let '(n, e) := r in
    let len := Z.of_nat (String.length data) in
    if len <? n then gpanic
    else gret (n, match e with None => if n =? len then None else Some (Errorf "short write" []) | Some e => Some e end).

(** The closure of [newCopier]: a copy of another size than the one announced aborts the
    stream. *)
Definition newCopier (volume : string) (size : Z) (src : string) : P unit :=
  do stream := ask (lift NewStream) in
  do u := gcatch (ask_err (lift (Volume_Upload volume stream size))) in
  do copied := match u with Err e => gret (0, Some e) | Ok _ => copy_to_stream volume stream src end in
  do fin := gcatch (if (fst copied) mod 2 ^ 64 =? size then act_err (StreamFinished stream) (lift (Stream_Finish stream))
                    else act_err (StreamAborted stream) (lift (Stream_Abort stream))) in
  do free := gcatch (ask_err (lift (Stream_Free stream))) in
  match snd copied, fin, free with
  | Some e, _, _ => gfail e
  | None, Err e, _ => gfail e
  | None, Ok _, Err e => gfail e
  | None, Ok _, Ok _ => gret tt
  end.

(** image.go: bytes in memory; the errors of the first two are always nil, and a length,
    which is an int, fits into the uint64 of [size]. *)
Record inMemoryImage := mkImage { img_data : string }.

Definition newImageFromBytes (source : string) : inMemoryImage := mkImage source.
Definition image_size (i : inMemoryImage) : Z := Z.of_nat (String.length (img_data i)).
Definition importImage {A} (copier : string -> P A) (i : inMemoryImage) : P A := copier (img_data i).

Definition uploadVolume (c : libvirtClient) (def : StorageVolume) (img : inMemoryImage) : P string :=
  do u := refresh (lc_pool c) "Error refreshing pool for volume" orelse (fun _ => Errorf "timeout when calling waitForSuccess: %v" []) in
  do xml := of_result (Volume_Marshal def) orelse (fun _ => Errorf "Error serializing libvirt volume: %s" []) in
  do volume := act (VolumeCreated (lc_pool c) def) (lift (StorageVolCreateXML (lc_pool c) xml))
    orelse (fun _ => Errorf "Error creating libvirt volume for device %s: %s" []) in
  deferring
    (do i := importImage (newCopier volume (sv_Capacity def)) img orelse (fun _ => Errorf "Error while uploading volume %s: %s" []) in
     gwrap (fun _ => Errorf "Error retrieving volume key: %s" []) (ask (lift (Volume_GetKey volume))))
    (freeVolume volume).

Definition ErrVolumeNotFound : GoError := Errorf "Domain not found" [].

Definition deleteVolume (c : libvirtClient) (name : string) : P unit :=
  do exist := volumeExists c name in
  if negb exist then gfail ErrVolumeNotFound
  else
    do volume := getVolume c name orelse (fun _ => Errorf "Can't retrieve volume %s" []) in
    deferring
      (do volPool := ask (lift (LookupPoolByVolume volume)) orelse (fun _ => Errorf "Error retrieving pool for volume: %s" []) in
       deferring
         (do u := refresh volPool "Error refreshing pool for volume" orelse (fun _ => Errorf "timeout when calling waitForSuccess: %v" []) in
          gwrap (fun _ => Errorf "Can't delete volume %s: %s" []) (act_err (VolumeDeleted volume) (lift (Volume_Delete volume))))
         (ask_err (lift (Pool_Free volPool))))
      (freeVolume volume).

Definition deleteVolumeByPath (c : libvirtClient) (path : string) : P unit :=
  do volume := ask (lift (LookupStorageVolByPath path)) in
  deferring
    (do name := ask (lift (Volume_GetName volume)) in deleteVolume c name)
    (freeVolume volume).

(** ** The disk of cloud-init: cloudinit.go *)

Definition createCloudInit (userData metaData : string) : P string :=
  do writer := ask (lift iso_NewWriter) in
  deferring
    (do a := ask_err (lift (iso_AddFile writer userData "user-data")) in
     do b := ask_err (lift (iso_AddFile writer metaData "meta-data")) in
     do c := ask_err (lift (iso_AddFile writer "" "vendor-data")) in
     ask (lift (iso_WriteTo writer "cidata")))
    (lv_value (iso_Cleanup writer)).

Definition createCloudInitISO (v : vmConfig) : P string :=
  createCloudInit (vm_userData v) ("local-hostname: " +:+ vm_name v).

Definition uploadIso (c : libvirtClient) (isoData isoVolName : string) : P string :=
  let new := newDefVolume isoVolName in
  uploadVolume c
    (mkStorageVolume (sv_Name new) "raw" (sv_Mode new) "B" (image_size (newImageFromBytes isoData)) (sv_BackingStore new)) (newImageFromBytes isoData).

(** ** Domains: libvirt.go *)

(** Whether a lookup found the domain; the handle is freed again. *)
Definition domain_exists (lookup : M W (string + lv_error)) : P bool :=
  do d := lv_value lookup in
  match d with
  | inr (ERR_NO_DOMAIN, _) => gret false
  | inr (_, e) => gfail e
  | inl domain => deferring (gret true) (freeDomain domain)
  end.

Definition checkDomainExistsByName (name : string) : P bool := domain_exists (LookupDomainByName name).
Definition checkDomainExistsById (id : Z) : P bool := domain_exists (LookupDomainById id).

Fixpoint getGuestForArchType (caps : list CapsGuest) (arch ostype : string) : result CapsGuest :=
  match caps with
  | [] => Err (Errorf "could not find any guests for architecture type %s/%s" [])
  | guest :: rest =>
      if (String.eqb (g_Arch guest) arch && String.eqb (g_OSType guest) ostype)%bool then Ok guest
      else getGuestForArchType rest arch ostype
  end.

Definition getHostCapabilities : P (list CapsGuest) :=
  do xml := ask (lift GetCapabilities) orelse (fun e => Errorf "unable to get capabilities, cause: %w" [e]) in
  gwrap (fun e => Errorf "unable to unmarshal capabilities, cause: %w" [e]) (of_result (caps_Unmarshal xml)).

Fixpoint lookupMachine (machines : list CapsMachine) (targetmachine : string) : string :=
  match machines with
  | [] => ""
  | machine :: rest =>
      if String.eqb (m_Name machine) targetmachine then
        if nonempty (m_Canonical machine) then m_Canonical machine else m_Name machine
      else lookupMachine rest targetmachine
  end.

(** The first of the domains that has the machine. *)
Fixpoint lookup_domains (domains : list (list CapsMachine)) (targetmachine : string) : string :=
  match domains with
  | [] => ""
  | machines :: rest =>
      let name := lookupMachine machines targetmachine in
      if nonempty name then name else lookup_domains rest targetmachine
  end.

Definition getCanonicalMachineName (caps : list CapsGuest) (arch virttype targetmachine : string) : result string :=
  match getGuestForArchType caps arch virttype with
  | Err e => Err e
  | Ok guest =>
      let name := lookupMachine (g_Machines guest) targetmachine in
      if nonempty name then Ok name
      else
        let name := lookup_domains (g_Domains guest) targetmachine in
        if nonempty name then Ok name else Err (Errorf "cannot find machine type %s for %s/%s in %v" [])
  end.

Definition createDomainXMLs390x (c : libvirtClient) (cfg : domainConfig) (vm : vmConfig) : result Domain :=
  match getGuestForArchType (lc_caps c) archS390x typeHardwareVirtualMachine with
  | Err e => Err e
  | Ok guest =>
      match getCanonicalMachineName (lc_caps c) archS390x typeHardwareVirtualMachine "s390-ccw-virtio" with
      | Err e => Err e
      | Ok canonicalmachine =>
          let bootDisk := mkDisk "disk" "vda" "virtio" "qemu" "qcow2" "on" (dc_bootDisk cfg) (Some 1) false None in
          let cloudInitDisk := mkDisk "disk" "vdb" "virtio" "qemu" "raw" "on" (dc_cidataDisk cfg) None false None in
          Ok (mkDomain "kvm" (dc_name cfg) typeHardwareVirtualMachine archS390x canonicalmachine "" None
                (dc_mem cfg) (Some (dc_mem cfg)) (dc_cpu cfg) "" "" "utc"
                [bootDisk; cloudInitDisk] (g_Emulator guest) (Some ("none"%string, ""%string)) ["/dev/urandom"%string] []
                [mkInterface "virtio" (dc_networkName cfg) "on"] ["sclp"%string])
      end
  end.

(** The second disk moves to the SATA bus when a firmware is set. *)
Definition createDomainXMLx86_64 (c : libvirtClient) (cfg : domainConfig) (vm : vmConfig) : result Domain :=
  let bootDisk := mkDisk "disk" "sda" "sata" "" "qcow2" "" (dc_bootDisk cfg) (Some 1) false (Some (0, 0, 0, 0)) in
  let cdrom dev bus unit := mkDisk "cdrom" dev bus "qemu" "raw" "" (dc_cidataDisk cfg) None true (Some (0, 0, 0, unit)) in
  let efi := nonempty (vm_firmware vm) in
  let domain :=
    mkDomain "kvm" (dc_name cfg) typeHardwareVirtualMachine "x86_64" "" (if efi then "efi"%string else ""%string)
      (if efi then Some (vm_firmware vm) else None)
      (dc_mem cfg) None (dc_cpu cfg) "host-model" "restart" ""
      [bootDisk; if efi then cdrom "sdb"%string "sata"%string 1 else cdrom "hda"%string "ide"%string 0]
      "" None [] [] [mkInterface "virtio" (dc_networkName cfg) ""] ["serial"%string] in
  match vm_launchSecurityType vm with
  | NoLaunchSecurity => Ok domain
  | _ => Err (Errorf "launch Security type is not supported for this domain: %s" [])
  end.

Definition createDomainXMLaarch64 (c : libvirtClient) (cfg : domainConfig) (vm : vmConfig) : result Domain :=
  match getGuestForArchType (lc_caps c) archAArch64 typeHardwareVirtualMachine with
  | Err e => Err e
  | Ok guest =>
      match getCanonicalMachineName (lc_caps c) archAArch64 typeHardwareVirtualMachine "virt" with
      | Err e => Err e
      | Ok canonicalmachine =>
          let bootDisk := mkDisk "disk" "vda" "virtio" "qemu" "qcow2" "on" (dc_bootDisk cfg) (Some 1) false None in
          let cloudInitDisk := mkDisk "cdrom" "sda" "scsi" "qemu" "raw" "" (dc_cidataDisk cfg) None true None in
          Ok (mkDomain "kvm" (dc_name cfg) typeHardwareVirtualMachine archAArch64 canonicalmachine "efi" None
                (dc_mem cfg) None (dc_cpu cfg) "host-passthrough" "" ""
                [bootDisk; cloudInitDisk] (g_Emulator guest) (Some ("virtio"%string, "on"%string)) []
                [("scsi"%string, "virtio-scsi"%string)]
                [mkInterface "virtio" (dc_networkName cfg) "on"] ["serial"%string])
      end
  end.

Definition createDomainXML (c : libvirtClient) (cfg : domainConfig) (vm : vmConfig) : result Domain :=
  if String.eqb (lc_model c) archS390x then createDomainXMLs390x c cfg vm
  else if String.eqb (lc_model c) archAArch64 then createDomainXMLaarch64 c cfg vm
  else createDomainXMLx86_64 c cfg vm.

Fixpoint lv_parse_all (addrs : list string) : result (list Addr) :=
  match addrs with
  | [] => Ok []
  | a :: rest =>
      match ParseAddr a with
      | None => Err (Errorf "Failed to parse address: %s" [])
      | Some addr => match lv_parse_all rest with Err e => Err e | Ok ips => Ok (addr :: ips) end
      end
  end.

(** An error of the listing also asks for the name of the domain, for its message. *)
Definition getDomainIPs (dom : string) : P (list Addr) :=
  do l := gcatch (ask (lift (ListAllInterfaceAddresses dom))) in
  match l with
  | Err _ =>
      do domName := gcatch (ask (lift (Domain_GetName dom))) in
      gfail (Errorf "Failed to get domain %s interfaces: %s" [])
  | Ok domIfList => of_result (lv_parse_all (concat domIfList))
  end.

(** The attempts of [retry.Do]; an error of [getDomainIPs] is not retried. *)
Fixpoint await_ips (attempts : nat) (dom : string) : P unit :=
  match attempts with
  | O => gfail (Errorf "Domain has not IPs assigned yet" [])
  | S attempts =>
      do ips := getDomainIPs dom orelse (fun _ => Errorf "Internal error on getting domain IPs: %s" []) in
      match ips with [] => await_ips attempts dom | _ => gret tt end
  end.

Definition with_id (v : vmConfig) (id : string) : vmConfig :=
  mkVm (vm_name v) (vm_cpu v) (vm_mem v) (vm_rootDiskSize v) (vm_userData v) (vm_ips v) id
    (vm_launchSecurityType v) (vm_firmware v).

Definition with_ips (v : vmConfig) (ips : list Addr) : vmConfig :=
  mkVm (vm_name v) (vm_cpu v) (vm_mem v) (vm_rootDiskSize v) (vm_userData v) ips (vm_instanceId v)
    (vm_launchSecurityType v) (vm_firmware v).

Definition with_disk (v : vmConfig) (size : Z) : vmConfig :=
  mkVm (vm_name v) (vm_cpu v) (vm_mem v) size (vm_userData v) (vm_ips v) (vm_instanceId v)
    (vm_launchSecurityType v) (vm_firmware v).

Definition root_volume (v : vmConfig) : string := vm_name v +:+ "-root.qcow2".
Definition iso_volume (v : vmConfig) : string := vm_name v +:+ "-cloudinit.iso".

(** The two volumes, and the paths of their files. *)
Definition create_volumes (c : libvirtClient) (v : vmConfig) : P (string * string) :=
  do volName := get_fields in
  do r := lv_createVolume c (root_volume v) (vm_rootDiskSize v) volName orelse (fun _ => Errorf "Error in creating volume: %s" []) in
  do cloudInitIso := createCloudInitISO v orelse (fun e => Errorf "error in creating cloud init ISO file, cause: %w" [e]) in
  do isoVolFile := uploadIso c cloudInitIso (iso_volume v) orelse (fun _ => Errorf "Error in uploading iso volume: %s" []) in
  do rootVol := getVolume c (root_volume v) orelse (fun _ => Errorf "Error retrieving volume: %s" []) in
  do rootVolFile := ask (lift (Volume_GetPath rootVol)) orelse (fun _ => Errorf "Error retrieving volume path: %s" []) in
  gret (rootVolFile, isoVolFile).

(** The domain is defined and started. *)
Definition start_domain (c : libvirtClient) (v : vmConfig) (files : string * string) : P string :=
  let cfg := mkDomainConfig (vm_name v) (vm_cpu v) (vm_mem v) (lc_networkName c) (fst files) (snd files) in
  do domCfg := of_result (createDomainXML c cfg v) orelse (fun e => Errorf "error building the libvirt XML, cause: %w" [e]) in
  do domXML := of_result (Domain_Marshal domCfg) orelse (fun _ => Errorf "Failed to create domain xml: %s" []) in
  do dom := act (Defined domCfg) (lift (DomainDefineXML domXML)) orelse (fun _ => Errorf "Failed to define domain: %s" []) in
  do s := act_err (Started dom) (lift (Domain_Create dom)) orelse (fun _ => Errorf "Failed to start VM: %s" []) in
  gret dom.

Definition CreateDomain (c : libvirtClient) (v : vmConfig) : P vmConfig :=
  let v := with_disk v 10 in
  do exist := checkDomainExistsByName (vm_name v) orelse (fun _ => Errorf "Error in checking instance: %s" []) in
  if exist then gret v
  else
    do files := create_volumes c v in
    do dom := start_domain c v files in
    do id := ask (lift (Domain_GetID dom)) orelse (fun _ => Errorf "Failed to get domain ID: %s" []) in
    let v := with_id v (FormatInt id) in
    do w := await_ips GetDomainIPsRetries dom orelse (fun _ => Errorf "Domain (id=%d) IP addresses not found" []) in
    do ips := getDomainIPs dom orelse (fun _ => Errorf "Internal error on getting domain IPs: %s" []) in
    gret (with_ips v ips).

(** The value of [strconv.ParseUint(s, 10, 32)] when its error is dropped: zero for a
    syntax error, the greatest one for a number out of range. *)
Definition MaxUint32 : Z := 2 ^ 32 - 1.

Fixpoint uint32_digits (acc : Z) (s : string) : Z :=
  match s with
  | EmptyString => acc
  | String d s =>
      if is_digit d then
        let n := 10 * acc + digit_value d in
        if MaxUint32 <? n then MaxUint32 else uint32_digits n s
      else 0
  end.

Definition ParseUint32 (s : string) : Z := uint32_digits 0 s.

(** The file of disk [n] of the description; the error of the codec is only logged. *)
Definition disk_file (xml : string) (n : nat) : P string :=
  do disks := deref (fst (Domain_Unmarshal xml)) in
  do disk := deref (disks !! n) in
  do source := deref disk in
  deref source.

(** An undefinition and its answer. *)
Definition undefine (flags : bool) (domain : string) (m : M W (option lv_error)) : P (option lv_error) :=
  act (fun r => Undefined flags domain (match r with Ok o => o | Err _ => None end))
    (lift (fun w => let '(o, w') := m w in (Ok o, w'))).

(** With flags, and without them where they are not supported. *)
Definition undefine_domain (domain : string) : P unit :=
  do r := undefine true domain (UndefineFlags domain) in
  match r with
  | None => gret tt
  | Some (ERR_NO_SUPPORT, _) | Some (ERR_INVALID_ARG, _) =>
      do r := undefine false domain (Undefine domain) in
      match r with None => gret tt | Some (_, e) => gfail e end
  | Some (_, e) => gfail e
  end.

Definition stop_domain (domain : string) (state : domain_state) : P unit :=
  match state with
  | DOMAIN_RUNNING | DOMAIN_PAUSED => act_err (Stopped domain) (lift (Domain_Destroy domain))
  | DOMAIN_OTHER _ => gret tt
  end.

(** The errors of the volumes are only logged. *)
Definition DeleteDomain (c : libvirtClient) (id : string) : P unit :=
  let idUint := ParseUint32 id in
  do exist := checkDomainExistsById idUint in
  if negb exist then gret tt
  else
    do d := lv_value (LookupDomainById idUint) in
    match d with
    | inr (_, e) => gfail e
    | inl domain =>
        deferring
          (do state := ask (lift (Domain_GetState domain)) in
           do s := stop_domain domain state in
           do domainXMLDesc := ask (lift (Domain_GetXMLDesc domain)) in
           do vol1File := disk_file domainXMLDesc 0 in
           do vol2File := disk_file domainXMLDesc 1 in
           do v1 := gcatch (deleteVolumeByPath c vol1File) in
           do v2 := gcatch (deleteVolumeByPath c vol2File) in
           undefine_domain domain)
          (freeDomain domain)
    end.

Definition NewLibvirtClient (cfg : LvConfig) : P libvirtClient :=
  do conn := ask (lift (NewConnect (lv_URI cfg))) in
  do pool := ask (lift (LookupStoragePoolByName (lv_PoolName cfg))) orelse (fun _ => Errorf "can't find storage pool %q: %v" []) in
  do node := ask (lift GetNodeInfo) orelse (fun e => Errorf "error retrieving node info: %w" [e]) in
  do caps := getHostCapabilities in
  do v := put_fields (lv_VolName cfg) in
  gret (mkLvClient pool (lv_NetworkName cfg) node caps).

Definition GetLaunchSecurityType (uri : string) : P LaunchSecurityType :=
  do conn := ask (lift (NewConnect uri)) orelse (fun _ => Errorf "unable to get libvirt connection [%v]" []) in
  do model := ask (lift GetNodeInfo) orelse (fun _ => Errorf "error retrieving node info: %v" []) in
  gret (if String.eqb model archS390x then S390PV else NoLaunchSecurity).

(** ** The provider: provider.go *)

(** A conversion from [int64] to [uint]. *)
Definition to_uint (z : Z) : Z := z mod 2 ^ 64.

Definition launch_security (cfg : LvConfig) : P LaunchSecurityType :=
  if lv_DisableCVM cfg then gret NoLaunchSecurity
  else if nonempty (lv_LaunchSecurity cfg) then
    if String.eqb (lv_LaunchSecurity cfg) "s390-pv" then gret S390PV
    else gfail (Errorf "[%s] is not a known launch security setting" [])
  else GetLaunchSecurityType (lv_URI cfg).

Definition choose_volume (cfg : LvConfig) (spec : InstanceTypeSpec) : P unit :=
  do volName := get_fields in
  if nonempty (Image spec) then put_fields (Image spec)
  else if negb (String.eqb (lv_VolName cfg) volName) then put_fields (lv_VolName cfg)
  else gret tt.

Definition vm_of (cfg : LvConfig) (name userData : string) (spec : InstanceTypeSpec) (l : LaunchSecurityType) : vmConfig :=
  mkVm name (if VCPUs spec =? 0 then lv_CPU cfg else to_uint (VCPUs spec))
    (if Memory spec =? 0 then lv_Memory cfg else to_uint (Memory spec)) 0 userData [] "" l (lv_Firmware cfg).

Definition lv_CreateInstance (lower : Z -> Z) (c : libvirtClient) (cfg : LvConfig) (podName sandboxID : string)
    (cloudConfig : result string) (spec : InstanceTypeSpec) : P (Instance Addr) :=
  do instanceName := of_outcome (GenerateInstanceName lower podName sandboxID lv_maxInstanceNameLen) in
  do userData := of_result cloudConfig in
  do security := launch_security cfg in
  do v := choose_volume cfg spec in
  do result := CreateDomain c (vm_of cfg instanceName userData spec security) in
  gret (mkInstance (vm_instanceId result) instanceName (vm_ips result)).

Definition lv_DeleteInstance (c : libvirtClient) (instanceID : string) : P unit := DeleteDomain c instanceID.

Definition lv_NewProvider (cfg : LvConfig) : P libvirtClient := NewLibvirtClient cfg.

Definition lv_ConfigVerifier (cfg : LvConfig) : option GoError :=
  if String.eqb (lv_VolName cfg) "" then Some (Errorf "VolName is empty" []) else None.

End Provider.
