(* ===== verification/LibvirtProps.v ===== *)
(** * Theorems of the libvirt provider

    - The wait for a pool is over after 301 rounds.
    - A launch: the base volume, the two volumes, the domain and its addresses.
    - Deletion: the volumes of the two disks, then the domain.
    - The description of a domain on every architecture. *)

From Stdlib Require Import ZArith Ascii String Lia.
From stdpp Require Import base gmap strings list.
From S2P Require Import Prelude InstanceTypes NetAddr ProviderKit Libvirt.

Open Scope Z_scope.
Open Scope go_scope.

(** The clock: sleeping takes the time asked for, and nothing turns it back. *)
Class LvClock (W : Type) `{LvApi W} := {
  Sleep_passes : forall d (w : W), time_Now w + d <= time_Now (time_Sleep d w);
  Refresh_passes : forall pool (w : W), time_Now w <= time_Now (Pool_Refresh pool w).2
}.

Section Props.

Context {W : Type} `{LvApi W} `{NetIP}.

Notation P A := (G (W * string) lv_call A).

(** ** Rules *)

Lemma wpf_deferring {A} (m : P A) cleanup f Q :
  wpf m f (fun r f1 l1 => wpf cleanup f1 (fun c f2 l2 => Q (settle r c) f2 (l1 ++ l2))) -> wpf (deferring m cleanup) f Q.
Proof.
  intros Hm. apply wpf_mbind. eapply wpf_mono; [exact Hm|]. intros r f1 l1 Hc. apply wpf_mbind.
  eapply wpf_mono; [exact Hc|]. intros c f2 l2 HQ. apply wpf_mret. by rewrite app_nil_r.
Qed.

Lemma wpf_lv_value {A} (m : M W A) f (Q : _ -> _ -> list lv_call -> Prop) :
  (forall w a w', m w = (a, w') -> Q (Return (Ok a)) f []) -> wpf (lv_value m) f Q.
Proof.
  intros HQ. apply wpf_ask_run. intros w w' r. destruct (m w) as [a w1] eqn:E. intros [= <- <-]. eauto.
Qed.

Ltac lv_step :=
  cbv beta;
  lazymatch goal with
  | |- wpf (lv_value _) _ _ => apply wpf_lv_value; intros ? ? ? ?
  | |- wpf (deferring _ _) _ _ => apply wpf_deferring
  | |- wpf (ask (lift _)) _ _ => apply wpf_ask_run; intros ? ? [?|?] ?
  | |- wpf (freeDomain _) _ _ => unfold freeDomain
  | |- wpf (freeVolume _) _ _ => unfold freeVolume
  | _ => wpf_step
  end; cbn [app settle].
Ltac lv_run := repeat lv_step.

(** ** The wait *)

Lemma rounds_quiet n start msg (g : P unit) : quiet g (fun _ => True) -> quiet (lv_rounds n start msg g) (fun _ => True).
Proof.
  intros Hg. induction n as [|n IH]; intros f; cbn [lv_rounds]; [by lv_run|].
  lv_step. lv_step. apply (wpf_quiet _ _ _ _ Hg); [intros _ _|intros err|]; by lv_run.
Qed.

Lemma refresh_quiet pool msg : quiet (W := W) (refresh pool msg) (fun _ => True).
Proof.
  intros f. unfold refresh, waitForSuccess. lv_run. apply rounds_quiet. intros f'. by lv_run.
Qed.

Section Clock.

Context `{!LvClock W}.

Definition lv_now (s : sdk (W * string) lv_call) : Z := time_Now (fst (sdk_world s)).

Lemma refresh_passes pool s : lv_now s <= lv_now (ask_err (lift (Pool_Refresh pool)) s).2.
Proof.
  destruct s as [[w f] l]. unfold lv_now, ask_err, gcall, mbind, lift. cbn. pose proof (Refresh_passes pool w).
  by destruct (Pool_Refresh pool w) as [[e|] w'].
Qed.

(** One round: success, or a second has passed. *)
Lemma rounds_unfold pool msg start s : exists (o : bool) s1,
  lv_now s <= lv_now s1 /\ (o = false -> lv_now s + waitSleepInterval <= lv_now s1) /\ forall n,
  lv_rounds (S n) start msg (ask_err (lift (Pool_Refresh pool))) s =
    if o then (Return (Ok tt), s1)
    else if waitTimeout <? lv_now s1 - start then (Return (Err (Errorf (msg +:+ ": %s") [])), s1)
    else lv_rounds n start msg (ask_err (lift (Pool_Refresh pool))) s1.
Proof.
  pose proof (refresh_passes pool s) as Hp.
  destruct (ask_err (lift (Pool_Refresh pool)) s) as [[[[]|e]|] s1] eqn:E; cbn in Hp.
  - exists true, s1. split_and!; [done|done|]. intros n. cbn [lv_rounds]. rewrite gbind_run. unfold gcatch, mbind. by rewrite E.
  - destruct s1 as [[w f] l]. exists false, (mkSdk (time_Sleep waitSleepInterval w, f) l).
    pose proof (Sleep_passes waitSleepInterval w) as Hs. unfold lv_now in *. cbn in *.
    split_and!; [unfold waitSleepInterval in *; lia|intros _; lia|].
    intros n. cbn [lv_rounds]. rewrite gbind_run. unfold gcatch, mbind. rewrite E. cbn.
    unfold gbind, lv_value, ask, gcall, mbind, lift. cbn. rewrite !app_nil_r. by destruct (waitTimeout <? _).
  - exfalso. revert E. unfold ask_err, gcall, mbind, lift. destruct (Pool_Refresh pool (fst (sdk_world s))) as [[e|] w']; done.
Qed.

Lemma rounds_enough pool msg start n : forall s m,
  (n <= m)%nat -> lv_now s - start <= waitTimeout ->
  waitTimeout < Z.of_nat n * waitSleepInterval + (lv_now s - start) ->
  lv_rounds m start msg (ask_err (lift (Pool_Refresh pool))) s =
    lv_rounds n start msg (ask_err (lift (Pool_Refresh pool))) s /\
  (forall e s', lv_rounds n start msg (ask_err (lift (Pool_Refresh pool))) s = (Return (Err e), s') ->
     waitTimeout < lv_now s' - start).
Proof.
  induction n as [|n IH]; intros s m Hm Ht Hn; [lia|]. destruct m as [|m]; [lia|].
  destruct (rounds_unfold pool msg start s) as (o & s1 & Hge & Hs1 & Hu). rewrite !Hu. destruct o; [by split|].
  destruct (Z.ltb_spec waitTimeout (lv_now s1 - start)); [split; [done|]; by intros e s' [= _ <-]|].
  apply IH; [lia|lia|]. specialize (Hs1 eq_refl). lia.
Qed.

Lemma refresh_start pool msg s :
  refresh pool msg s = lv_rounds 301 (lv_now s) msg (ask_err (lift (Pool_Refresh pool))) s.
Proof.
  destruct s as [[w f] l]. unfold refresh, waitForSuccess, gbind at 1, lv_value at 1, ask at 1, gcall at 1, mbind, lift at 1.
  cbn -[lv_rounds]. by rewrite app_nil_r.
Qed.

(** The wait for a pool ends: whatever libvirt answers, 301 rounds are enough, and it
    gives up only when five minutes have passed. *)
Theorem refresh_bounded pool msg n s :
  (301 <= n)%nat ->
  lv_rounds n (lv_now s) msg (ask_err (lift (Pool_Refresh pool))) s = refresh pool msg s /\
  (forall e s', refresh pool msg s = (Return (Err e), s') -> waitTimeout < lv_now s' - lv_now s).
Proof.
  intros Hn. rewrite refresh_start. apply rounds_enough; [done|rewrite Z.sub_diag; done|].
  rewrite Z.sub_diag. reflexivity.
Qed.

End Clock.

Definition failed {A} (r : outcome (result A)) : Prop := match r with Return (Ok _) => False | _ => True end.

(** ** Volumes *)

(** libvirt answered [v] for the name or the key. *)
Definition looked_up (c : libvirtClient) (name v : string) : Prop :=
  exists w w', LookupStorageVolByName (lc_pool c) name w = (Ok v, w') \/ LookupStorageVolByKey name w = (Ok v, w').

Lemma getVolume_quiet c name : quiet (W := W) (getVolume c name) (looked_up c name).
Proof. intros f. unfold getVolume, looked_up. lv_run; split_and!; try done; eauto. Qed.

Definition path_of (v path : string) : Prop := exists w w', Volume_GetPath v w = (Ok path, w').

Lemma backing_quiet v : quiet (W := W) (newDefBackingStoreFromLibvirt v) (fun b => path_of v (fst b)).
Proof.
  intros f. unfold newDefBackingStoreFromLibvirt, newDefVolumeFromLibvirt, path_of. lv_run; split_and!; try done; eauto.
Qed.

(** The path of the base volume of that name. *)
Definition backs (c : libvirtClient) (base path : string) : Prop := exists v, looked_up c base v /\ path_of v path.

Definition root_def (name : string) (size capacity : Z) (backing : string * string) : StorageVolume :=
  mkStorageVolume name "qcow2" "644" "bytes" (Z.max size capacity) (Some backing).

Lemma createVolume_wpf c name size base f :
  wpf (W := W) (lv_createVolume c name size base) f (fun r f' l => f' = f /\
    ((l = [] /\ r <> Return (Ok tt)) \/
     exists cap b answer, l = [VolumeCreated (lc_pool c) (root_def name size cap b) answer] /\ backs c base (fst b) /\
       (r = Return (Ok tt) -> exists v, answer = Ok v))).
Proof.
  unfold lv_createVolume. lv_step. lv_step. apply (wpf_quiet _ _ _ _ (getVolume_quiet c base)); [intros v Hv|by auto|by auto].
  lv_step. lv_step. lv_step. lv_step; lv_run; try (by auto).
  apply (wpf_quiet _ _ _ _ (backing_quiet v)); [intros b Hb|intros err|]; lv_run; try (by auto).
  assert (Hmax : (if size <? a then a else size) = Z.max size a) by (destruct (Z.ltb_spec size a); lia).
  apply (wpf_quiet _ _ _ _ (refresh_quiet _ _)); [intros _ _|intros err|]; lv_run; try (by auto).
  all: split; [done|]; right; eexists a, b, _; unfold root_def; rewrite <- Hmax; split_and!; [done|by exists v|]; by eauto.
Qed.

(** ** The upload *)

(** What a copy records. *)
Definition upload_call (x : lv_call) : Prop :=
  match x with Uploaded _ _ _ | StreamAborted _ _ | StreamFinished _ _ => True | _ => False end.

Definition whole (volume data : string) (l : list lv_call) : Prop :=
  exists stream, l = [Uploaded volume (Z.of_nat (String.length data)) None; StreamFinished stream None].

Lemma copy_wpf volume stream data f :
  wpf (W := W) (copy_to_stream volume stream data) f (fun r f' l => f' = f /\ Forall upload_call l /\
    match r with
    | Return (Ok (n, None)) => n = Z.of_nat (String.length data) /\
                               (n = 0 \/ l = [Uploaded volume n None])
    | _ => True
    end).
Proof.
  unfold copy_to_stream. lv_run; split_and!; try (by repeat constructor).
  - apply String.eqb_eq in Heqb. subst. by cbn.
  - repeat case_match; try done. split; [by apply Z.eqb_eq|by right].
Qed.

Lemma copier_wpf volume size data f :
  wpf (W := W) (newCopier volume size data) f (fun r f' l => f' = f /\ Forall upload_call l /\
    (r = Return (Ok tt) -> size = Z.of_nat (String.length data) -> 0 < size < 2 ^ 64 -> whole volume data l)).
Proof.
  unfold newCopier. lv_step. lv_step; [|by split_and!]. lv_step. lv_step. lv_step.
  - lv_step. eapply wpf_mono; [apply copy_wpf|]. intros [[[n e]|err]|] f' l (-> & Hl & Hn); [|by split_and!..].
    lv_run; rewrite ?app_nil_r; cbn [fst snd] in *; split_and!; try (apply Forall_app; split; by repeat constructor); try done;
      try (by apply Forall_app; split; repeat constructor).
    all: subst e; destruct Hn as [-> [Hz| ->]]; intros _ Hs Hb; try lia.
    + by exists a.
    + rewrite Z.mod_small in Heqb by lia. apply Z.eqb_neq in Heqb. lia.
  - lv_run; cbn [fst snd] in *; split_and!; try (by repeat constructor); done.
Qed.

Definition iso_def (name data : string) : StorageVolume :=
  mkStorageVolume name "raw" "644" "B" (Z.of_nat (String.length data)) None.

Definition volume_key (v key : string) : Prop := exists w w', Volume_GetKey v w = (Ok key, w').

(** A volume was created and a copy began, or not; the answer is the key of the volume. *)
Definition uploaded (c : libvirtClient) (name data : string) (r : outcome (result string)) (l : list lv_call) : Prop :=
  (l = [] /\ failed r) \/
  exists answer up, l = VolumeCreated (lc_pool c) (iso_def name data) answer :: up /\ Forall upload_call up /\
    match r with
    | Return (Ok key) => exists v, answer = Ok v /\ volume_key v key /\ (0 < Z.of_nat (String.length data) < 2 ^ 64 -> whole v data up)
    | _ => True
    end.

Lemma uploadIso_wpf c data name f :
  wpf (W := W) (uploadIso c data name) f (fun r f' l => f' = f /\ uploaded c name data r l).
Proof.
  unfold uploadIso, uploadVolume. lv_step. lv_step.
  apply (wpf_quiet _ _ _ _ (refresh_quiet _ _)); [intros _ _|intros err|]; lv_run; try (by split; [|left]).
  - eapply wpf_mono; [apply copier_wpf|]. intros rc f' l (-> & Hl & Hw).
    destruct rc as [[[]|err]|]; lv_run; rewrite ?app_nil_r; (split; [done|]); right; eexists _, l; split_and!; try done;
      eexists; split_and!; [done|by eexists _, _|]; intros; by apply Hw.
  - split; [done|]. right. by eexists _, [].
Qed.

(** ** Domains *)

(** The bytes are what one writer wrote after it was given the user data, the metadata and
    an empty file under their names, in this order and with nothing in between. *)
Definition iso_image (userData metaData data : string) : Prop := exists writer w0 w1 w2 w3 w4 w5,
  iso_NewWriter w0 = (Ok writer, w1) /\
  iso_AddFile writer userData "user-data" w1 = (None, w2) /\
  iso_AddFile writer metaData "meta-data" w2 = (None, w3) /\
  iso_AddFile writer "" "vendor-data" w3 = (None, w4) /\
  iso_WriteTo writer "cidata" w4 = (Ok data, w5).

(** The image with the cloud configuration of the VM and its host name. *)
Definition iso_of (v : vmConfig) (data : string) : Prop :=
  iso_image (vm_userData v) ("local-hostname: " +:+ vm_name v) data.

Lemma iso_quiet v : quiet (W := W) (createCloudInitISO v) (iso_of v).
Proof.
  intros f w l. unfold createCloudInitISO, createCloudInit, iso_of, iso_image.
  unfold deferring, gbind, ask_err, lv_value, ask, gcall, lift, mbind, mret. cbn.
  destruct (iso_NewWriter w) as [[writer|e] w1] eqn:E1; cbn; [|by exists []; rewrite ?app_nil_r].
  destruct (iso_AddFile writer (vm_userData v) "user-data" w1) as [[e|] w2] eqn:E2; cbn.
  { destruct (iso_Cleanup writer w2) as [[] w']. exists []. by rewrite ?app_nil_r. }
  destruct (iso_AddFile writer _ "meta-data" w2) as [[e|] w3] eqn:E3; cbn.
  { destruct (iso_Cleanup writer w3) as [[] w']. exists []. by rewrite ?app_nil_r. }
  destruct (iso_AddFile writer "" "vendor-data" w3) as [[e|] w4] eqn:E4; cbn.
  { destruct (iso_Cleanup writer w4) as [[] w']. exists []. by rewrite ?app_nil_r. }
  destruct (iso_WriteTo writer "cidata" w4) as [[data|e] w5] eqn:E5; cbn;
    destruct (iso_Cleanup writer w5) as [[] w']; exists []; rewrite ?app_nil_r; [|done].
  split_and!; [done..|]. by exists writer, w, w1, w2, w3, w4, w5.
Qed.

Lemma ips_quiet dom : quiet (W := W) (getDomainIPs dom) (fun _ => True).
Proof. intros f. unfold getDomainIPs. by lv_run. Qed.

Lemma await_quiet n dom : quiet (W := W) (await_ips n dom) (fun _ => True).
Proof.
  induction n as [|n IH]; intros f; cbn [await_ips]; [by lv_run|]. lv_step. lv_step.
  apply (wpf_quiet _ _ _ _ (ips_quiet dom)); [intros ips _|by auto|by auto]. lv_run; [apply IH|done].
Qed.

Lemma exists_quiet lookup :
  quiet (W := W) (domain_exists lookup)
    (fun b => if b then exists d w w', lookup w = (inl d, w') else exists e w w', lookup w = (inr (ERR_NO_DOMAIN, e), w')).
Proof. intros f. unfold domain_exists. lv_run; subst; split_and!; try done; eauto. Qed.

(** The part of a launch that makes the volumes: the root volume on the base volume, then
    the disk of cloud-init. *)
Definition with_volumes (c : libvirtClient) (base : string) (v : vmConfig) (r : outcome (result (string * string)))
    (l : list lv_call) : Prop :=
  (l = [] /\ failed r) \/
  exists cap b answer rest, l = VolumeCreated (lc_pool c) (root_def (root_volume v) (vm_rootDiskSize v) cap b) answer :: rest /\
    backs c base (fst b) /\
    ((rest = [] /\ failed r) \/
     (exists root, answer = Ok root) /\ exists data r2, uploaded c (iso_volume v) data r2 rest /\
       iso_of v data /\
       match r with
       | Return (Ok (file1, file2)) => r2 = Return (Ok file2) /\ backs c (root_volume v) file1
       | _ => True
       end).

Lemma create_volumes_wpf c v base :
  wpf (W := W) (create_volumes c v) base (fun r f' l => f' = base /\ with_volumes c base v r l).
Proof.
  unfold create_volumes. lv_run. eapply wpf_mono; [apply createVolume_wpf|]. intros r f' l (-> & Hl).
  destruct Hl as [[-> Hr]|(cap & b & answer & -> & Hb & Hr)].
  { destruct r as [[[]|err]|]; [done|..]; (split; [done|]); by left. }
  assert (Hend : forall rest (r' : outcome (result (string * string))),
    (rest = [] /\ failed r') \/ ((exists root, answer = Ok root) /\ exists data r2, uploaded c (iso_volume v) data r2 rest /\
       iso_of v data /\
       match r' with
       | Return (Ok (file1, file2)) => r2 = Return (Ok file2) /\ backs c (root_volume v) file1
       | _ => True
       end) ->
    base = base /\ with_volumes c base v r' (VolumeCreated (lc_pool c) (root_def (root_volume v) (vm_rootDiskSize v) cap b) answer :: rest)).
  { intros rest r' Hx. split; [done|]. right. by eexists cap, b, answer, rest. }
  destruct r as [[[]|err]|]; [|by apply Hend; left..]. destruct (Hr eq_refl) as [root ->].
  lv_step. lv_step. apply (wpf_quiet _ _ _ _ (iso_quiet v)); [intros data Hiso|by intros; apply Hend; left|by apply Hend; left].
  lv_step. lv_step. eapply wpf_mono; [apply uploadIso_wpf|]. intros r2 f' l (-> & Hu). cbn [app].
  destruct r2 as [[key|err]|]; [|apply Hend; right; split; eauto 6..].
  lv_step. lv_step. apply (wpf_quiet _ _ _ _ (getVolume_quiet c _)); [intros rv Hrv|intros err|]; lv_run; rewrite ?app_nil_r;
    apply Hend; right; (split; [by eauto|]); eexists data, _; (split_and!; [done..|]); try done.
  exists rv. split; [done|]. by eexists _, _.
Qed.

(** On every architecture a domain has exactly two disks, the root volume to boot from
    and then the disk of cloud-init, and one interface on the network of the
    configuration; so the first two disks of its description are the volumes that the
    launch made, which is what a deletion relies on. *)
Theorem createDomainXML_disks c cfg vm d :
  createDomainXML c cfg vm = Ok d ->
  map d_File (dom_Disks d) = [dc_bootDisk cfg; dc_cidataDisk cfg] /\
  map d_Boot (dom_Disks d) = [Some 1; None] /\
  dom_Name d = dc_name cfg /\ dom_Memory d = dc_mem cfg /\ dom_VCPU d = dc_cpu cfg /\
  map i_Network (dom_Interfaces d) = [dc_networkName cfg] /\
  NoDup (map d_TargetDev (dom_Disks d)) /\
  (lc_model c <> archS390x -> lc_model c <> archAArch64 -> vm_launchSecurityType vm = NoLaunchSecurity).
Proof.
  unfold createDomainXML. destruct (String.eqb_spec (lc_model c) archS390x) as [Es|Es]; [|
    destruct (String.eqb_spec (lc_model c) archAArch64) as [Ea|Ea]];
    unfold createDomainXMLs390x, createDomainXMLaarch64, createDomainXMLx86_64; intros E;
    repeat case_match; simplify_eq; split_and!; try done; apply (bool_decide_unpack _); by vm_compute.
Qed.

(** The part that defines the domain and starts it. *)
Definition with_domain (c : libvirtClient) (v : vmConfig) (files : string * string) (r : outcome (result string)) (l : list lv_call) : Prop :=
  (l = [] /\ failed r) \/
  exists d, createDomainXML c (mkDomainConfig (vm_name v) (vm_cpu v) (vm_mem v) (lc_networkName c) (fst files) (snd files)) v = Ok d /\
    ((exists e, l = [Defined d (Err e)] /\ failed r) \/
     exists h e, l = [Defined d (Ok h); Started h e] /\ match e with None => r = Return (Ok h) | Some _ => failed r end).

Lemma start_domain_wpf c v files f :
  wpf (W := W) (start_domain c v files) f (fun r f' l => f' = f /\ with_domain c v files r l).
Proof.
  unfold start_domain, with_domain. lv_run; (split; [done|]); try (by left); right; eexists; (split; [done|]);
    first [by left; eexists|by right; eexists _, _].
Qed.

(** What a domain that was made looks like. *)
Definition lv_created (c : libvirtClient) (base : string) (v : vmConfig) (r : outcome (result vmConfig)) (l : list lv_call) : Prop :=
  (l = [] /\ match r with
             | Return (Ok v') => v' = v /\ exists d w w', LookupDomainByName (vm_name v) w = (inl d, w')
             | _ => True
             end) \/
  exists rv l1 l2, l = l1 ++ l2 /\ with_volumes c base v rv l1 /\
    match rv with
    | Return (Ok files) => exists rd, with_domain c v files rd l2 /\
        match r with
        | Return (Ok v') => exists h id ips, rd = Return (Ok h) /\ v' = with_ips (with_id v (FormatInt id)) ips /\
                              (exists w w', Domain_GetID h w = (Ok id, w'))
        | _ => True
        end
    | _ => l2 = [] /\ failed r
    end.

Lemma CreateDomain_wpf c v base :
  wpf (W := W) (CreateDomain c v) base (fun r f' l => f' = base /\ lv_created c base (with_disk v 10) r l).
Proof.
  unfold CreateDomain, checkDomainExistsByName. set (v' := with_disk v 10). lv_step. lv_step.
  apply (wpf_quiet _ _ _ _ (exists_quiet _)); [intros found Hf|by intros; split; [|left]|by split; [|left]].
  lv_step; [lv_run; by split; [|left]|].
  lv_step. eapply wpf_mono; [apply create_volumes_wpf|]. intros rv f' l1 [-> Hv].
  assert (Hfail : failed rv -> forall r : outcome (result vmConfig), failed r -> base = base /\ lv_created c base v' r l1).
  { intros Hrv r Hr. split; [done|]. right. exists rv, l1, []. rewrite app_nil_r. split_and!; try done. by destruct rv as [[]|]. }
  destruct rv as [[files|err]|]; [|by apply Hfail..]. clear Hfail.
  lv_step. eapply wpf_mono; [apply start_domain_wpf|]. intros rd f' l2 [-> Hd].
  assert (Hend : forall r : outcome (result vmConfig),
    match r with
    | Return (Ok v2) => exists h id ips, rd = Return (Ok h) /\ v2 = with_ips (with_id v' (FormatInt id)) ips /\
                          (exists w w', Domain_GetID h w = (Ok id, w'))
    | _ => True end -> base = base /\ lv_created c base v' r (l1 ++ l2)).
  { intros r Hr. split; [done|]. right. by exists (Return (Ok files)), l1, l2; split_and!; [..|by exists rd]. }
  destruct rd as [[h|err]|]; [|by apply Hend..].
  lv_step. lv_step. lv_step; rewrite ?app_nil_r; [|by apply Hend].
  lv_step. lv_step. apply (wpf_quiet _ _ _ _ (await_quiet _ _)); [intros _ _|intros err|]; cbn [app]; rewrite ?app_nil_r; try (by apply Hend).
  lv_step. lv_step. apply (wpf_quiet _ _ _ _ (ips_quiet _)); [intros ips _|intros err|]; lv_run; rewrite ?app_nil_r; try (by apply Hend).
  apply Hend. eexists _, _, ips. split_and!; eauto.
Qed.

(** ** The launch *)

(** The base volume of a launch does not depend on earlier ones. *)
Definition chosen (cfg : LvConfig) (spec : InstanceTypeSpec) : string :=
  if nonempty (Image spec) then Image spec else lv_VolName cfg.

Lemma choose_wpf cfg spec f :
  wpf (W := W) (choose_volume cfg spec) f (fun r f' l => r = Return (Ok tt) /\ f' = chosen cfg spec /\ l = []).
Proof.
  unfold choose_volume, chosen. lv_run; split_and!; try done. apply negb_false_iff, String.eqb_eq in Heqb0. done.
Qed.

(** Nothing is stopped, deleted or undefined. *)
Definition makes (x : lv_call) : Prop :=
  match x with Stopped _ _ | VolumeDeleted _ _ | Undefined _ _ _ => False | _ => True end.

Lemma uploads_make l : Forall upload_call l -> Forall makes l.
Proof. intros Hl. eapply Forall_impl; [exact Hl|]. by intros []. Qed.

Lemma volumes_make c base v r l : with_volumes c base v r l -> Forall makes l.
Proof.
  intros [[-> _]|(cap & b & ans & rest & -> & _ & [[-> _]|(_ & data & r2 & Hu & _)])]; [by repeat constructor..|].
  constructor; [done|]. destruct Hu as [[-> _]|(a2 & up & -> & Hup & _)]; [done|]. constructor; [done|by apply uploads_make].
Qed.

Lemma created_makes c base v r l : lv_created c base v r l -> Forall makes l.
Proof.
  intros [[-> _]|(rv & l1 & l2 & -> & Hv & Hd)]; [done|]. apply Forall_app. split; [by eapply volumes_make|].
  destruct rv as [[files|e]|]; [|by destruct Hd as [-> _]..].
  destruct Hd as (rd & [[-> _]|(d & _ & [(e & -> & _)|(h & e & -> & _)])] & _); by repeat constructor.
Qed.

(** A domain that was there, or the whole record of one that was made. *)
Definition launched_domain (c : libvirtClient) (base : string) (v : vmConfig) (id : string) (ips : list Addr) (l : list lv_call) : Prop :=
  (l = [] /\ id = ""%string /\ ips = [] /\ exists d w w', LookupDomainByName (vm_name v) w = (inl d, w')) \/
  exists cap b root data iso up rootfile isofile d h n,
    l = VolumeCreated (lc_pool c) (root_def (root_volume v) (vm_rootDiskSize v) cap b) (Ok root) ::
        VolumeCreated (lc_pool c) (iso_def (iso_volume v) data) (Ok iso) :: up ++ [Defined d (Ok h); Started h None] /\
    backs c base (fst b) /\ Forall upload_call up /\
    iso_of v data /\ (0 < Z.of_nat (String.length data) < 2 ^ 64 -> whole iso data up) /\
    backs c (root_volume v) rootfile /\ volume_key iso isofile /\
    map d_File (dom_Disks d) = [rootfile; isofile] /\ map d_Boot (dom_Disks d) = [Some 1; None] /\
    dom_Name d = vm_name v /\ dom_VCPU d = vm_cpu v /\ dom_Memory d = vm_mem v /\
    map i_Network (dom_Interfaces d) = [lc_networkName c] /\
    createDomainXML c (mkDomainConfig (vm_name v) (vm_cpu v) (vm_mem v) (lc_networkName c) rootfile isofile) v = Ok d /\
    id = FormatInt n /\ (exists w w', Domain_GetID h w = (Ok n, w')).

Lemma created_launched c base v v' l :
  vm_instanceId v = ""%string -> vm_ips v = [] ->
  lv_created c base v (Return (Ok v')) l -> launched_domain c base v (vm_instanceId v') (vm_ips v') l.
Proof.
  intros Hid Hips [[-> [-> Hd]]|(rv & l1 & l2 & -> & Hv & Hd)]; [by left|]. right.
  destruct rv as [[[rootfile isofile]|e]|]; [|by destruct Hd as [_ []]..].
  destruct Hd as (rd & Hrd & h & n & ips & -> & -> & Hn).
  destruct Hrd as [[_ []]|(d & Hd & [(e & _ & [])|(h' & e & -> & He)])]. destruct e as [e|]; [done|]. injection He as <-.
  destruct Hv as [[_ []]|(cap & b & ans & rest & -> & Hb & [[_ []]|([root ->] & data & r2 & Hu & Hiso & -> & Hroot)])].
  destruct Hu as [[_ []]|(ans & up & -> & Hup & iso & -> & Hk & Hw)].
  pose proof (createDomainXML_disks _ _ _ _ Hd) as (Hfiles & Hboot & Hname & Hmem & Hcpu & Hnet & _).
  exists cap, b, root, data, iso, up, rootfile, isofile, d, h, n. by split_and!.
Qed.

Definition lv_launched (c : libvirtClient) (cfg : LvConfig) (spec : InstanceTypeSpec) (cc : result string) (f : string)
    (r : outcome (result (Instance Addr))) (f' : string) (l : list lv_call) : Prop :=
  Forall makes l /\ (l <> [] -> f' = chosen cfg spec) /\
  match r with
  | Return (Ok i) => f' = chosen cfg spec /\ exists data security,
      cc = Ok data /\ (lv_DisableCVM cfg = true -> security = NoLaunchSecurity) /\
      launched_domain c (chosen cfg spec) (with_disk (vm_of cfg (Name i) data spec security) 10) (ID i) (IPs i) l
  | _ => True
  end.

Lemma security_quiet cfg :
  quiet (W := W) (launch_security cfg) (fun t => lv_DisableCVM cfg = true -> t = NoLaunchSecurity).
Proof. intros f. unfold launch_security, GetLaunchSecurityType. lv_run; by split_and!. Qed.

Lemma lv_CreateInstance_wpf lower c cfg podName sandboxID cc spec f :
  wpf (W := W) (lv_CreateInstance lower c cfg podName sandboxID cc spec) f (lv_launched c cfg spec cc f).
Proof.
  assert (Hno : forall r f', failed r -> lv_launched c cfg spec cc f r f' []).
  { intros r f' Hr. split_and!; [done|done|]. by destruct r as [[]|]. }
  unfold lv_CreateInstance. lv_step. lv_step; [|by apply Hno]. lv_step. lv_step; [|by apply Hno].
  lv_step. apply (wpf_quiet _ _ _ _ (security_quiet cfg)); [intros sec Hsec|by intros; apply Hno|by apply Hno].
  lv_step. eapply wpf_mono; [apply choose_wpf|]. intros r f' l (-> & -> & ->).
  lv_step. eapply wpf_mono; [apply CreateDomain_wpf|]. intros r f' l [-> Hc]. cbn [app].
  pose proof (created_makes _ _ _ _ _ Hc) as Hm.
  destruct r as [[v'|err]|]; [|by split_and!..]. lv_run. rewrite app_nil_r. split_and!; try done.
  eexists _, sec. split_and!; [done|done|]. by apply created_launched in Hc.
Qed.

(** C31: A launch on libvirt that no other launch overlaps never stops, deletes or undefines
    anything, also not after an error; its base volume is that of the annotation or else
    the configured one, whatever was launched before; and an instance it returns is
    either a domain of that name that was already there, then without an id and
    addresses, or a new one: the root volume created on the base volume, an ISO image
    with the cloud configuration and the host name of this VM written to the second
    volume as a whole (when it is not empty), the domain defined with exactly these two
    disks, the file of the root volume to boot from and the one of the image second, with
    the CPUs, the memory and the network of the request, then started; the id is the one
    libvirt gives for this domain. *)
Theorem lv_launch lower c cfg podName sandboxID cc spec w f l r s' :
  lv_CreateInstance lower c cfg podName sandboxID cc spec (mkSdk (w, f) l) = (r, s') ->
  exists l' w' f', s' = mkSdk (w', f') (l ++ l') /\ lv_launched c cfg spec cc f r f' l'.
Proof. apply (wpf_elim _ _ _ _ _ _ _ (lv_CreateInstance_wpf lower c cfg podName sandboxID cc spec f)). Qed.

(** Two launches at the same time: the base volume is a field that both write before they
    use it, so a launch whose choice is followed by that of another is built on the
    volume of the other. *)
Theorem lv_volume_race c cfg spec1 spec2 v1 w f l r s' :
  (do a := choose_volume cfg spec1 in
   do b := choose_volume cfg spec2 in
   CreateDomain c v1) (mkSdk (w, f) l) = (r, s') ->
  exists l' w', s' = mkSdk (w', chosen cfg spec2) (l ++ l') /\ lv_created c (chosen cfg spec2) (with_disk v1 10) r l'.
Proof.
  intros E.
  assert (Hw : wpf (W := W) (do a := choose_volume cfg spec1 in do b := choose_volume cfg spec2 in CreateDomain c v1) f
    (fun r f' l => f' = chosen cfg spec2 /\ lv_created c (chosen cfg spec2) (with_disk v1 10) r l)).
  { lv_step. eapply wpf_mono; [apply choose_wpf|]. intros r1 f1 l1 (-> & -> & ->).
    lv_step. eapply wpf_mono; [apply choose_wpf|]. intros r2 f2 l2 (-> & -> & ->). apply CreateDomain_wpf. }
  destruct (wpf_elim _ _ _ _ _ _ _ Hw E) as (l' & w' & f' & -> & -> & Hc). eauto.
Qed.

(** ** The deletion *)

(** The volume that libvirt names for a path. *)
Definition at_path (c : libvirtClient) (path v : string) : Prop :=
  exists v0 name w1 w1' w2 w2', LookupStorageVolByPath path w1 = (Ok v0, w1') /\ Volume_GetName v0 w2 = (Ok name, w2') /\
    looked_up c name v.

(** One volume at most is deleted, and a success means that it was. *)
Definition volume_removed (c : libvirtClient) (path : string) (r : outcome (result unit)) (l : list lv_call) : Prop :=
  (l = [] /\ failed r) \/ exists v e, l = [VolumeDeleted v e] /\ at_path c path v /\ (r = Return (Ok tt) -> e = None).

Lemma volumeExists_quiet c name : quiet (W := W) (volumeExists c name) (fun _ => True).
Proof.
  intros f. unfold volumeExists. lv_step. lv_step. apply (wpf_quiet _ _ _ _ (getVolume_quiet c name)); [intros v Hv|intros err|]; by lv_run.
Qed.

Lemma deleteVolume_wpf c name f :
  wpf (W := W) (deleteVolume c name) f (fun r f' l => f' = f /\ ((l = [] /\ failed r) \/
    exists v e, l = [VolumeDeleted v e] /\ looked_up c name v /\ (r = Return (Ok tt) -> e = None))).
Proof.
  unfold deleteVolume. lv_step. apply (wpf_quiet _ _ _ _ (volumeExists_quiet c name)); [intros b _|by intros; split; [|left]|by split; [|left]].
  lv_step; [lv_run; by split; [|left]|]. lv_step. lv_step.
  apply (wpf_quiet _ _ _ _ (getVolume_quiet c name)); [intros v Hv|by intros; split; [|left]|by split; [|left]].
  lv_step. lv_step. lv_step. lv_step; lv_run; try (by split; [|left]).
  apply (wpf_quiet _ _ _ _ (refresh_quiet _ _)); [intros _ _|intros err|]; lv_run; try (by split; [|left]).
  all: split; [done|]; right; eexists v, _; by split_and!.
Qed.

Lemma deleteVolumeByPath_wpf c path f :
  wpf (W := W) (deleteVolumeByPath c path) f (fun r f' l => f' = f /\ volume_removed c path r l).
Proof.
  unfold deleteVolumeByPath. lv_step. lv_step; [|by split; [|left]]. lv_step. lv_step.
  lv_step; [|lv_run; by split; [|left]].
  eapply wpf_mono; [apply deleteVolume_wpf|]. intros r f' l (-> & Hl). lv_run; rewrite app_nil_r; (split; [done|]).
  all: destruct Hl as [[-> Hr]|(v & e' & -> & Hv & Hr)]; [left; split; [done|by destruct r as [[[]|]|]]|].
  all: right; exists v, e'; split_and!; [done|by eexists _, _, _, _, _, _|]; destruct r as [[[]|]|]; naive_solver.
Qed.

Definition described (h xml : string) : Prop := exists w w', Domain_GetXMLDesc h w = (Ok xml, w').

(** The file of a disk of the description. *)
Definition names_disk (xml : string) (n : nat) (file : string) : Prop :=
  exists disks, fst (Domain_Unmarshal xml) = Some disks /\ disks !! n = Some (Some (Some file)).

Lemma disk_quiet xml n : quiet (W := W) (disk_file xml n) (names_disk xml n).
Proof.
  intros f. unfold disk_file, names_disk. lv_run; try done. split_and!; try done. eexists. split; [done|]. by subst.
Qed.

(** An undefinition, repeated without flags where they are not supported. *)
Definition undefined (h : string) (r : outcome (result unit)) (l : list lv_call) : Prop :=
  (exists e, l = [Undefined true h e] /\ (r = Return (Ok tt) <-> e = None)) \/
  (exists code e e', l = [Undefined true h (Some (code, e)); Undefined false h e'] /\
     (code = ERR_NO_SUPPORT \/ code = ERR_INVALID_ARG) /\ (r = Return (Ok tt) <-> e' = None)).

Lemma undefine_wpf h f :
  wpf (W := W) (undefine_domain h) f (fun r f' l => f' = f /\ undefined h r l).
Proof.
  assert (Hact : forall fl m (Q : outcome (result (option lv_error)) -> string -> list lv_call -> Prop),
    (forall o, Q (Return (Ok o)) f [Undefined fl h o]) -> wpf (W := W) (undefine fl h m) f Q).
  { intros fl m Q HQ w l. unfold undefine, act, gcall, mbind, lift. cbn. destruct (m w) as [o w']. eexists. by cbn. }
  unfold undefine_domain, undefined. lv_step. apply Hact. intros o. destruct o as [[code e]|]; cbn [app]; [|lv_run; naive_solver].
  destruct code; lv_run; try (split; [done|]; left; by naive_solver).
  all: apply Hact; intros [[code' e']|]; lv_run; (split; [done|]); right; eexists _, _, _; (split; [done|]); naive_solver.
Qed.

(** A call that concerns the domain or one of its first two disks. *)
Definition concerns (c : libvirtClient) (h : string) (x : lv_call) : Prop :=
  match x with
  | Stopped d _ | Undefined _ d _ => d = h
  | VolumeDeleted v _ => exists xml n file, described h xml /\ (n < 2)%nat /\ names_disk xml n file /\ at_path c file v
  | _ => False
  end.

(** The whole deletion: the domain is stopped if it runs or is paused, the volumes of its
    disks are deleted as far as possible, and it is undefined. *)
Definition removed (c : libvirtClient) (h : string) (l : list lv_call) : Prop :=
  exists stop l1 l2 undef xml root iso r1 r2, l = stop ++ l1 ++ l2 ++ undef /\
    (stop = [] \/ stop = [Stopped h None]) /\
    described h xml /\ names_disk xml 0 root /\ names_disk xml 1 iso /\
    volume_removed c root (Return r1) l1 /\ volume_removed c iso (Return r2) l2 /\ undefined h (Return (Ok tt)) undef.

Definition lv_deleted (c : libvirtClient) (id : string) (r : outcome (result unit)) (l : list lv_call) : Prop :=
  (l = [] /\ (r = Return (Ok tt) -> exists e w w', LookupDomainById (ParseUint32 id) w = (inr (ERR_NO_DOMAIN, e), w'))) \/
  exists h w w', LookupDomainById (ParseUint32 id) w = (inl h, w') /\ Forall (concerns c h) l /\
    (r = Return (Ok tt) -> removed c h l).

Lemma volume_concerns c h xml n path r l :
  described h xml -> (n < 2)%nat -> names_disk xml n path -> volume_removed c path r l -> Forall (concerns c h) l.
Proof.
  intros Hd Hn Hp [[-> _]|(v & e & -> & Hv & _)]; [done|]. constructor; [|done]. by exists xml, n, path.
Qed.

Lemma undefined_concerns c h r l : undefined h r l -> Forall (concerns c h) l.
Proof. intros [(e & -> & _)|(code & e & e' & -> & _)]; by repeat constructor. Qed.

Lemma stop_wpf h state f :
  wpf (W := W) (stop_domain h state) f (fun r f' l => f' = f /\ (forall c, Forall (concerns c h) l) /\
    (r = Return (Ok tt) -> l = [] \/ l = [Stopped h None])).
Proof. unfold stop_domain. lv_run; split_and!; try done; try (by repeat constructor); auto. Qed.

Lemma DeleteDomain_wpf c id f :
  wpf (W := W) (DeleteDomain c id) f (fun r f' l => f' = f /\ lv_deleted c id r l).
Proof.
  unfold DeleteDomain, checkDomainExistsById. lv_step.
  apply (wpf_quiet _ _ _ _ (exists_quiet _)); [intros b Hb|by intros; split; [|left]|by split; [|left]].
  lv_step; [lv_run; split; [done|]; left; split; [done|]; intros _; by destruct b|].
  lv_step. lv_step. lv_step; [|lv_run; by split; [|left]]. subst. rename s into h.
  assert (Hdone : forall r l, Forall (concerns c h) l -> (r = Return (Ok tt) -> removed c h l) -> f = f /\ lv_deleted c id r l).
  { intros r l Hl Hr. split; [done|]. right. by eexists h, _, _. }
  lv_step. eapply wpf_mono with (Q := fun r f' l => f' = f /\ Forall (concerns c h) l /\ (r = Return (Ok tt) -> removed c h l)).
  2:{ intros r f' l (-> & Hl & Hr). lv_run; rewrite app_nil_r; apply Hdone; try done; destruct r as [[[]|]|]; naive_solver. }
  clear Hdone. lv_step. lv_step; [|done]. lv_step. eapply wpf_mono; [apply stop_wpf|]. intros rs f' ls (-> & Hls & Hs).
  destruct rs as [[[]|err]|]; [|by split_and!..]. specialize (Hs eq_refl). specialize (Hls c).
  lv_step. lv_step; cbn [app]; rewrite ?app_nil_r; [|by split_and!].
  rename a into state, a0 into xml. assert (Hx : described h xml) by (by eexists _, _).
  lv_step. apply (wpf_quiet _ _ _ _ (disk_quiet xml 0)); [intros root Hroot|by intros; rewrite app_nil_r|by rewrite app_nil_r].
  lv_step. apply (wpf_quiet _ _ _ _ (disk_quiet xml 1)); [intros iso Hiso|by intros; rewrite app_nil_r|by rewrite app_nil_r].
  lv_step. lv_step. eapply wpf_mono; [apply deleteVolumeByPath_wpf|]. intros r1 f' l1 [-> H1'].
  assert (Hl1 : Forall (concerns c h) l1) by (eapply (volume_concerns _ _ _ 0); eauto).
  destruct r1 as [r1|]; cbn [app]; [|by split_and!; [|apply Forall_app|]].
  lv_step. lv_step. eapply wpf_mono; [apply deleteVolumeByPath_wpf|]. intros r2 f' l2 [-> H2'].
  assert (Hl2 : Forall (concerns c h) l2) by (eapply (volume_concerns _ _ _ 1); eauto).
  destruct r2 as [r2|]; cbn [app]; [|by split_and!; [|rewrite !Forall_app|]].
  eapply wpf_mono; [apply undefine_wpf|]. intros ru f' lu [-> Hu]. cbn [app].
  split_and!; [done|rewrite !Forall_app; split_and!; eauto using undefined_concerns|].
  intros ->. by exists ls, l1, l2, lu, xml, root, iso, r1, r2.
Qed.

(** A deletion on libvirt touches nothing but the domain that libvirt answers for the id
    and the volumes of its first two disks; it succeeds only when libvirt knows no such
    domain, or when the domain was stopped if it ran, the deletion of both volumes tried
    and the domain undefined. *)
Theorem lv_delete c id w f l r s' :
  lv_DeleteInstance c id (mkSdk (w, f) l) = (r, s') ->
  exists l' w', s' = mkSdk (w', f) (l ++ l') /\ lv_deleted c id r l'.
Proof.
  intros E. destruct (wpf_elim _ _ _ _ _ _ _ (DeleteDomain_wpf c id f) E) as (l' & w' & f' & -> & -> & Hd). eauto.
Qed.

(** ** The description of a domain *)

Lemma digit_nonneg d : is_digit d = true -> 0 <= digit_value d.
Proof. unfold is_digit, digit_value. intros Hd. apply andb_true_iff in Hd as [Hd _]. apply Nat.leb_le in Hd. lia. Qed.

Lemma parse_digits_ge s : forall acc z, 0 <= acc -> parse_digits acc s = Some z -> acc <= z.
Proof.
  induction s as [|d s IH]; intros acc z Ha; cbn [parse_digits]; [by intros [= ->]|].
  destruct (is_digit d) eqn:Ed; [|done]. intros E. apply digit_nonneg in Ed. apply IH in E; lia.
Qed.

Lemma uint32_parses s : forall acc z, 0 <= acc -> parse_digits acc s = Some z -> z <= MaxUint32 -> uint32_digits acc s = z.
Proof.
  induction s as [|d s IH]; intros acc z Ha; cbn [parse_digits uint32_digits]; [by intros [= ->]|].
  destruct (is_digit d) eqn:Ed; [|done]. intros E Hz. apply digit_nonneg in Ed.
  assert (Hn : 0 <= 10 * acc + digit_value d) by lia. pose proof (parse_digits_ge _ _ _ Hn E). rewrite (proj2 (Z.ltb_ge _ _)) by lia. apply IH; [lia|done|done].
Qed.

(** The id that a launch returns is read back by a deletion. *)
Theorem ParseUint32_FormatInt n : 0 <= n <= MaxUint32 -> ParseUint32 (FormatInt n) = n.
Proof.
  intros Hn. apply uint32_parses; [lia| |lia]. apply parse_uint_digits, parse_uint_FormatInt. lia.
Qed.

End Props.

(** ** Witnesses *)

(** A host with volumes and domains by name, in which a domain that runs has the id 7, and
    a clock. *)
Record mini_lv := mkMiniLv { ml_volumes : list string; ml_domains : list (string * bool); ml_time : Z }.

Definition ml_find (w : mini_lv) (p : string * bool -> bool) : string + lv_error :=
  match List.find p (ml_domains w) with Some d => inl (fst d) | None => inr (ERR_NO_DOMAIN, Errorf "no domain" []) end.

Definition ml_volume (w : mini_lv) (name : string) : result string :=
  if bool_decide (name ∈ ml_volumes w) then Ok name else Err (Errorf "no volume" []).

Definition ml_without {A} (name : A -> string) (x : string) (l : list A) : list A :=
  List.filter (fun a => negb (String.eqb (name a) x)) l.

#[export] Instance mini_lv_api : LvApi mini_lv := {
  NewConnect := fun _ => mret (Ok tt);
  LookupStoragePoolByName := fun n => mret (Ok n);
  GetNodeInfo := mret (Ok "x86_64"%string);
  GetCapabilities := mret (Ok ""%string);
  caps_Unmarshal := fun _ => Ok [];
  LookupDomainByName := fun n w => (ml_find w (fun d => String.eqb (default ""%string (head (split_on "|" (fst d)))) n), w);
  LookupDomainById := fun id w => (ml_find w (fun d => (snd d && (id =? 7))%bool), w);
  Domain_Free := fun _ => mret None;
  Domain_Marshal := fun d => Ok (dom_Name d +:+ "|" +:+ String.concat "|" (map d_File (dom_Disks d)));
  DomainDefineXML := fun xml w => (Ok xml, mkMiniLv (ml_volumes w) ((xml, false) :: ml_domains w) (ml_time w));
  Domain_Create := fun d w => (None, mkMiniLv (ml_volumes w) ((d, true) :: ml_without fst d (ml_domains w)) (ml_time w));
  Domain_GetName := fun d => mret (Ok d);
  Domain_GetID := fun _ => mret (Ok 7);
  ListAllInterfaceAddresses := fun _ => mret (Ok [["192.168.122.5"%string]]);
  Domain_GetState := fun _ => mret (Ok DOMAIN_RUNNING);
  Domain_Destroy := fun d w => (None, mkMiniLv (ml_volumes w) ((d, false) :: ml_without fst d (ml_domains w)) (ml_time w));
  Domain_GetXMLDesc := fun d => mret (Ok d);
  Domain_Unmarshal := fun xml => (Some (map (fun f => Some (Some f)) (drop 1 (split_on "|" xml))), None);
  UndefineFlags := fun _ => mret (Some (ERR_NO_SUPPORT, Errorf "flags" []));
  Undefine := fun d w => (None, mkMiniLv (ml_volumes w) (ml_without fst d (ml_domains w)) (ml_time w));
  LookupStorageVolByName := fun _ n w => (ml_volume w n, w);
  LookupStorageVolByKey := fun k w => (ml_volume w k, w);
  LookupStorageVolByPath := fun p w => (ml_volume w p, w);
  Volume_Free := fun _ => mret None;
  Volume_GetName := fun v => mret (Ok v);
  Volume_GetXMLDesc := fun v => mret (Ok v);
  Volume_Unmarshal := fun _ => Ok (Some (Some "qcow2"%string));
  Volume_GetPath := fun v => mret (Ok v);
  Volume_GetKey := fun v => mret (Ok v);
  Volume_GetInfo := fun _ => mret (Ok 6442450944);
  Volume_Delete := fun v w => (None, mkMiniLv (ml_without (fun x => x) v (ml_volumes w)) (ml_domains w) (ml_time w));
  LookupPoolByVolume := fun _ => mret (Ok "default"%string);
  Volume_Marshal := fun def => Ok (sv_Name def);
  StorageVolCreateXML := fun _ xml w => (Ok xml, mkMiniLv (xml :: ml_volumes w) (ml_domains w) (ml_time w));
  Pool_Refresh := fun _ => mret None;
  Pool_Free := fun _ => mret None;
  NewStream := mret (Ok "stream"%string);
  Volume_Upload := fun _ _ _ => mret None;
  Stream_Send := fun _ data => mret (Z.of_nat (String.length data), None);
  Stream_Abort := fun _ => mret None;
  Stream_Finish := fun _ => mret None;
  Stream_Free := fun _ => mret None;
  iso_NewWriter := mret (Ok "iso"%string);
  iso_AddFile := fun _ _ _ => mret None;
  iso_WriteTo := fun _ n => mret (Ok n);
  iso_Cleanup := fun _ => mret tt;
  time_Now := ml_time;
  time_Sleep := fun d w => mkMiniLv (ml_volumes w) (ml_domains w) (ml_time w + d)
}.

#[export] Instance mini_lv_clock : LvClock mini_lv.
Proof. split; intros; [apply Z.le_refl|apply Z.le_refl]. Qed.

Definition lv_cfg : LvConfig := mkLvConfig "qemu:///system" "default" "net0" true "base" "" "" 2 4096.
Definition lv_client : libvirtClient := mkLvClient "default" "net0" "x86_64" [].
Definition lv_start : sdk (mini_lv * string) lv_call := mkSdk (mkMiniLv ["base"%string] [] 0, "other"%string) [].
Definition lv_spec : InstanceTypeSpec := mkSpec "" 0 0 "" 0 "" false.

Definition lv_run_create := lv_CreateInstance (fun c => c) lv_client lv_cfg "pod" "0123456789" (Ok "data"%string) lv_spec lv_start.

(** A launch from a client that was last used with another volume. *)
Lemma lv_launch_witness :
  exists i s', lv_run_create = (Return (Ok i), s') /\ snd (sdk_world s') = "base"%string /\ ID i = "7"%string /\
    lv_launched (W := mini_lv) lv_client lv_cfg lv_spec (Ok "data"%string) "other" (Return (Ok i)) "base" (sdk_calls s').
Proof.
  unfold lv_run_create. destruct (lv_CreateInstance (fun c => c) lv_client lv_cfg "pod" "0123456789" (Ok "data"%string) lv_spec lv_start) as [r s'] eqn:E.
  destruct (lv_launch _ _ _ _ _ _ _ _ _ _ _ _ E) as (l' & w' & f' & -> & Hl).
  vm_compute in E. injection E as <- <- <- <-. eexists _, _. split; [reflexivity|].
  split; [reflexivity|]. split; [reflexivity|]. exact Hl.
Defined.

(** The deletion of what was launched leaves what there was before. *)
Lemma lv_delete_witness :
  exists s', lv_DeleteInstance lv_client "7" lv_run_create.2 = (Return (Ok tt), s') /\
    fst (sdk_world s') = fst (sdk_world lv_start) /\
    exists l, sdk_calls s' = sdk_calls lv_run_create.2 ++ l /\ lv_deleted (W := mini_lv) lv_client "7" (Return (Ok tt)) l.
Proof.
  destruct (lv_run_create.2) as [[w f] l] eqn:E0.
  destruct (lv_DeleteInstance lv_client "7" (mkSdk (w, f) l)) as [r s'] eqn:E.
  destruct (lv_delete lv_client "7" w f l r s' E) as (l' & w' & -> & Hl).
  vm_compute in E0. injection E0 as <- <- <-. vm_compute in E. injection E as <- <- _.
  eexists. split; [reflexivity|]. split; [reflexivity|]. exists l'. split; [reflexivity|exact Hl].
Defined.

Lemma refresh_bounded_witness :
  lv_rounds 400 (lv_now lv_start) "m" (ask_err (lift (Pool_Refresh "default"))) lv_start = refresh "default" "m" lv_start.
Proof. apply (refresh_bounded "default" "m" 400 lv_start). lia. Defined.

Lemma createDomainXML_disks_witness :
  exists d, createDomainXML lv_client (mkDomainConfig "n" 2 4096 "net0" "root" "iso")
    (vm_of lv_cfg "n" "data" lv_spec NoLaunchSecurity) = Ok d /\ map d_File (dom_Disks d) = ["root"%string; "iso"%string].
Proof.
  eexists. split; [reflexivity|].
  apply (createDomainXML_disks lv_client (mkDomainConfig "n" 2 4096 "net0" "root" "iso")
    (vm_of lv_cfg "n" "data" lv_spec NoLaunchSecurity)). reflexivity.
Defined.

Lemma ParseUint32_FormatInt_witness : ParseUint32 (FormatInt 42) = 42.
Proof. apply ParseUint32_FormatInt. unfold MaxUint32. lia. Defined.

(** A domain of that name that is there is returned without an id; a deletion without one
    asks for the domain 0. *)
Example lv_existing :
  exists i, (lv_CreateInstance (fun c => c) lv_client lv_cfg "pod" "0123456789" (Ok "data"%string) lv_spec lv_run_create.2).1
    = Return (Ok i) /\ ID i = ""%string /\ IPs i = [] /\ ParseUint32 (ID i) = 0.
Proof. eexists. split; [vm_compute; reflexivity|]. by split_and!. Qed.
