(* ===== verification/Starter.v ===== *)
(** * The starter of the services

    Models src/cloud-api-adaptor/cmd/starter.go.  [Start] runs every service in a
    goroutine, waits for the cancellation of its context and then collects the errors of
    the services in their order; two more goroutines handle signals and tell systemd.
    The goroutines are a transition system: an [event] is what one of them does next,
    [step] is its effect, and a run is any sequence of events. *)

From Stdlib Require Import ZArith String Lia.
From stdpp Require Import base strings list option.
From S2P Require Import Prelude.

(** ** State *)

(** The goroutine of a service: in [service.Start]; returned with an error, before and
    after [cancel()]; its channel closed, after the error was received or without one. *)
Inductive phase :=
| Running
| Failed (e : GoError)
| Sending (e : GoError)
| Closed (received : option GoError).

Inductive ctx_err := Canceled | DeadlineExceeded.

Definition ctx_error (e : ctx_err) : GoError :=
  match e with Canceled => Sentinel "context canceled"%string | DeadlineExceeded => Sentinel "context deadline exceeded"%string end.

(** The goroutine that called [Start]. *)
Inductive main_phase :=
| Waiting
| Collecting (k : nat)
| Returned (err : option GoError)
| Exited (code : Z).

(** The goroutine that talks to systemd. *)
Inductive notify_phase := NoSocket | AwaitReady (k : nat) | AwaitDone | NotifyEnded.

Inductive notification := SdNotifyReady | SdNotifyStopping.

Record starter := mkStarter {
  services : list (phase * bool);
  ctx : option ctx_err;
  signals : nat;
  main : main_phase;
  notifier : notify_phase;
  sent : list notification
}.

(** [Start] after its loop: every service was started, none is ready. *)
Definition Start (n : nat) (notify_socket : bool) : starter :=
  mkStarter (replicate n (Running, false)) None 0 Waiting (if notify_socket then AwaitReady 0 else NoSocket) [].

(** [cancel()]: the first reason stays. *)
Definition cancel (c : option ctx_err) : option ctx_err :=
  match c with None => Some Canceled | Some e => Some e end.

Definition set_phase (s : starter) (k : nat) (p : phase * bool) : list (phase * bool) := <[k := p]> (services s).

(** ** Steps *)

Inductive event :=
(** services, signals and the context of the caller *)
| ServiceReturns (k : nat) (err : option GoError)
| ServiceReady (k : nat)
| ParentDone (e : ctx_err)
| Signal
(** the goroutines of [Start] *)
| ServiceCancels (k : nat)
(** [saw_done] tells which case of its [select] the notifier took *)
| NotifierMoves (saw_done : bool)
| MainMoves.

Definition errCollected (e : GoError) : GoError := Errorf "error running a service %T: %w"%string [e].
Definition errUnexpected (e : ctx_err) : GoError := Errorf "context unexpectedly canceled: %w"%string [ctx_error e].

(** The first signal cancels, the second one exits. *)
Definition signal_step (s : starter) : option starter :=
  match signals s with
  | O => Some (mkStarter (services s) (cancel (ctx s)) 1 (main s) (notifier s) (sent s))
  | S O => Some (mkStarter (services s) (ctx s) 2 (Exited 1) (notifier s) (sent s))
  | _ => None
  end.

Definition notifier_step (saw_done : bool) (s : starter) : option starter :=
  let to n l := Some (mkStarter (services s) (ctx s) (signals s) (main s) n l) in
  match notifier s with
  | AwaitReady k =>
      match services s !! k : option (phase * bool) with
      | None => to AwaitDone (sent s ++ [SdNotifyReady])
      | Some (_, ready) =>
          if saw_done then match ctx s with Some _ => to NotifyEnded (sent s) | None => None end
          else if ready then to (AwaitReady (S k)) (sent s) else None
      end
  | AwaitDone =>
      match ctx s with Some _ => to NotifyEnded (sent s ++ [SdNotifyStopping]) | None => None end
  | _ => None
  end.

Definition main_step (s : starter) : option starter :=
  let to m := Some (mkStarter (services s) (ctx s) (signals s) m (notifier s) (sent s)) in
  match main s with
  | Waiting =>
      match ctx s with
      | None => None
      | Some Canceled => to (Collecting 0)
      | Some e => to (Returned (Some (errUnexpected e)))
      end
  | Collecting k =>
      match services s !! k : option (phase * bool) with
      | None => to (Returned None)
      | Some (Sending e, b) =>
          Some (mkStarter (set_phase s k (Closed (Some e), b)) (ctx s) (signals s) (Returned (Some (errCollected e))) (notifier s) (sent s))
      | Some (Closed _, _) => to (Collecting (S k))
      | Some _ => None
      end
  | _ => None
  end.

Definition step_event (e : event) (s : starter) : option starter :=
  match e with
  | ServiceReturns k err =>
      match services s !! k : option (phase * bool) with
      | Some (Running, b) =>
          Some (mkStarter (set_phase s k (match err with None => Closed None | Some e => Failed e end, b))
                  (ctx s) (signals s) (main s) (notifier s) (sent s))
      | _ => None
      end
  | ServiceReady k =>
      match services s !! k : option (phase * bool) with
      | Some (p, _) => Some (mkStarter (set_phase s k (p, true)) (ctx s) (signals s) (main s) (notifier s) (sent s))
      | None => None
      end
  | ParentDone e =>
      match ctx s with
      | None => Some (mkStarter (services s) (Some e) (signals s) (main s) (notifier s) (sent s))
      | Some _ => None
      end
  | Signal => signal_step s
  | ServiceCancels k =>
      match services s !! k : option (phase * bool) with
      | Some (Failed e, b) =>
          Some (mkStarter (set_phase s k (Sending e, b)) (cancel (ctx s)) (signals s) (main s) (notifier s) (sent s))
      | _ => None
      end
  | NotifierMoves saw_done => notifier_step saw_done s
  | MainMoves => main_step s
  end.

(** Nothing runs after the process has exited. *)
Definition step (e : event) (s : starter) : option starter :=
  match main s with Exited _ => None | _ => step_event e s end.

Fixpoint run_events (es : list event) (s : starter) : option starter :=
  match es with [] => Some s | e :: es => match step e s with Some s' => run_events es s' | None => None end end.

Definition reachable (n : nat) (socket : bool) (s : starter) : Prop := exists es, run_events es (Start n socket) = Some s.

(** ** Invariants *)

(** What holds of the services before [k]. *)
Definition below (k : nat) (Q : phase * bool -> Prop) (l : list (phase * bool)) : Prop :=
  forall j p, (j < k)%nat -> l !! j = Some p -> Q p.

Definition ended_well (p : phase * bool) : Prop := fst p = Closed None.
Definition is_ready (p : phase * bool) : Prop := snd p = true.
Definition told (p : phase * bool) : Prop := match fst p with Sending _ | Closed (Some _) => True | _ => False end.

(** Where the caller of [Start] is: it collects only after the cancellation, has found the
    services before [k] ended without an error, and returns the error of the first one
    that failed. *)
Definition main_ok (s : starter) : Prop :=
  match main s with
  | Waiting => True
  | Collecting k => ctx s = Some Canceled /\ below k ended_well (services s)
  | Returned None => ctx s = Some Canceled /\ below (length (services s)) ended_well (services s)
  | Returned (Some err) =>
      (exists e, ctx s = Some e /\ e <> Canceled /\ err = errUnexpected e) \/
      (exists k e b, services s !! k = Some (Closed (Some e), b) /\ err = errCollected e /\
         below k ended_well (services s) /\ ctx s = Some Canceled)
  | Exited _ => signals s = 2%nat
  end.

(** An error is received only by the caller, which then returns. *)
Definition received_ok (s : starter) : Prop := forall k e b,
  services s !! k = Some (Closed (Some e), b) -> match main s with Waiting | Collecting _ => False | _ => True end.

Definition notify_ok (s : starter) : Prop :=
  match notifier s with
  | NoSocket => sent s = []
  | AwaitReady k => sent s = [] /\ below k is_ready (services s)
  | AwaitDone => sent s = [SdNotifyReady] /\ below (length (services s)) is_ready (services s)
  | NotifyEnded => ctx s <> None /\
      (sent s = [] \/ sent s = [SdNotifyReady; SdNotifyStopping] /\ below (length (services s)) is_ready (services s))
  end.

Record inv (s : starter) : Prop := mkInv {
  inv_main : main_ok s;
  inv_received : received_ok s;
  inv_told : forall k p, services s !! k = Some p -> told p -> ctx s <> None;
  inv_notify : notify_ok s
}.

Lemma below_insert k (Q : phase * bool -> Prop) l i q p :
  l !! i = Some q -> (Q q -> Q p) -> below k Q l -> below k Q (<[i := p]> l).
Proof.
  intros Hi Hq Hb j x Hj Hx. destruct (decide (i = j)) as [->|Hn].
  - rewrite list_lookup_insert_eq in Hx by (by eapply lookup_lt_Some). injection Hx as <-. eauto.
  - rewrite list_lookup_insert_ne in Hx by done. eauto.
Qed.

Lemma below_extend k (Q : phase * bool -> Prop) l p : l !! k = Some p -> Q p -> below k Q l -> below (S k) Q l.
Proof.
  intros Hk Hp Hb j x Hj Hx. destruct (decide (j = k)) as [->|]; [congruence|]. apply (Hb j); [lia|done].
Qed.

Lemma below_all k (Q : phase * bool -> Prop) l : l !! k = None -> below k Q l -> below (length l) Q l.
Proof. intros Hk Hb j x Hj. apply Hb. apply lookup_ge_None in Hk. lia. Qed.

(** A change of one service that keeps what was known of it. *)
Definition kept (q p : phase * bool) : Prop :=
  (ended_well q -> ended_well p) /\ (is_ready q -> is_ready p) /\
  (forall e, fst p = Closed (Some e) <-> fst q = Closed (Some e)).

Lemma lookup_kept (l : list (phase * bool)) (i : nat) q p k x : l !! i = Some q -> <[i := p]> l !! k = Some x ->
  (k = i /\ x = p) \/ (k <> i /\ l !! k = Some x).
Proof.
  intros Hi Hx. destruct (decide (i = k)) as [->|Hn].
  - rewrite list_lookup_insert_eq in Hx by (by eapply lookup_lt_Some). left. by injection Hx.
  - rewrite list_lookup_insert_ne in Hx by done. auto.
Qed.

Lemma inv_kept s i q p c :
  inv s -> services s !! i = Some q -> kept q p -> (ctx s <> None -> c = ctx s) ->
  (told p -> told q \/ c <> None) ->
  inv (mkStarter (<[i := p]> (services s)) c (signals s) (main s) (notifier s) (sent s)).
Proof.
  intros [Hm Hr Ht Hn] Hi (Hw & Hy & He) Hc Htold. split.
  - unfold main_ok in *. cbn. destruct (main s) as [|k|[err|]|code]; [done| | | |done].
    + destruct Hm as [Hx Hb]. rewrite Hc by congruence. eauto using below_insert.
    + destruct Hm as [(e & Hx & Hne & ->)|(k & e & b & Hk & -> & Hb & Hx)].
      * left. exists e. rewrite Hc by congruence. done.
      * right. destruct (decide (i = k)) as [->|Hne].
        -- exists k, e, (snd p). assert (q = (Closed (Some e), b)) as -> by congruence.
           rewrite list_lookup_insert_eq by (by eapply lookup_lt_Some).
           destruct (He e) as [_ Hp]. specialize (Hp eq_refl). destruct p as [p b']. cbn in *. subst p.
           split_and!; [done|done| |rewrite Hc; congruence]. by eapply below_insert.
        -- exists k, e, b. rewrite list_lookup_insert_ne by done. split_and!; [done|done| |rewrite Hc; congruence].
           by eapply below_insert.
    + rewrite length_insert. destruct Hm as [Hx Hb]. rewrite Hc by congruence. eauto using below_insert.
  - intros k e b Hk. cbn. destruct (lookup_kept _ _ _ _ _ _ Hi Hk) as [[-> <-]|[_ Hk']]; [|by eapply Hr].
    destruct q as [q bq]. assert (q = Closed (Some e)) as -> by (by apply (He e)). by eapply Hr.
  - intros k x Hk Hx. cbn in *. destruct (lookup_kept _ _ _ _ _ _ Hi Hk) as [[-> ->]|[_ Hk']].
    + destruct (Htold Hx) as [Hq|]; [|done]. specialize (Ht _ _ Hi Hq). by rewrite Hc.
    + specialize (Ht _ _ Hk' Hx). by rewrite Hc.
  - unfold notify_ok in *. cbn. destruct (notifier s) as [|k| |]; rewrite ?length_insert; [done|..].
    + destruct Hn as [? Hb]. eauto using below_insert.
    + destruct Hn as [? Hb]. eauto using below_insert.
    + destruct Hn as [Hx Hb]. rewrite Hc by done. split; [done|]. destruct Hb as [?|[? Hb]]; [by left|right]. eauto using below_insert.
Qed.

(** The context ends: no one can have noticed before. *)
Lemma inv_ctx s c m n : inv s -> ctx s = None -> c <> None ->
  match main s with Exited _ => n = 2%nat | _ => True end -> m = main s ->
  inv (mkStarter (services s) c n m (notifier s) (sent s)).
Proof.
  intros [Hm Hr Ht Hn] Hc Hne Hx ->. split; cbn; [| |done|].
  - unfold main_ok in *. cbn. destruct (main s) as [|k|[err|]|code]; [done| | | |done].
    + destruct Hm; congruence.
    + destruct Hm as [(e & ? & _)|(k & e & b & _ & _ & _ & ?)]; congruence.
    + destruct Hm; congruence.
  - done.
  - unfold notify_ok in *. cbn. destruct (notifier s); try done. destruct Hn; congruence.
Qed.

(** Nothing of the services or the notifier changes, and the context stays. *)
Lemma inv_signal s s' : inv s -> (forall code, main s <> Exited code) -> signal_step s = Some s' -> inv s'.
Proof.
  intros Hi Hmain. unfold signal_step. destruct (signals s) as [|[|n]]; intros [= <-].
  - destruct (ctx s) as [c|] eqn:Ec; cbn.
    + destruct Hi as [Hm Hr Ht Hn]. rewrite <- Ec. split; cbn; try done. unfold main_ok in *. cbn.
      by destruct (main s) as [| | |code]; [..|by destruct (Hmain code)].
    + apply inv_ctx; try done. by destruct (main s) as [| | |code]; [..|by destruct (Hmain code)].
  - destruct Hi as [Hm Hr Ht Hn]. by split.
Qed.

Lemma inv_notifier s s' b : inv s -> notifier_step b s = Some s' -> inv s'.
Proof.
  intros [Hm Hr Ht Hn]. unfold notifier_step, notify_ok in *. destruct (notifier s) as [|k| |]; try done.
  - destruct Hn as [Hs Hb]. destruct (services s !! k) as [[p ready]|] eqn:Ek.
    + destruct b; [destruct (ctx s) eqn:Ec; [|done]|destruct ready; [|done]]; intros [= <-];
        (split; cbn; try done); try (by rewrite <- Ec).
      * split; [done|by left].
      * split; [done|]. by eapply below_extend.
    + intros [= <-]. split; cbn; try done. rewrite Hs. split; [done|]. by eapply below_all.
  - destruct Hn as [Hs Hb]. destruct (ctx s) eqn:Ec; [|done]. intros [= <-].
    split; cbn; try done; try (by rewrite <- Ec). rewrite Hs. split; [done|by right].
Qed.

Lemma notify_insert s k q p c sg m : services s !! k = Some q -> (is_ready q -> is_ready p) -> c = ctx s -> notify_ok s ->
  notify_ok (mkStarter (<[k := p]> (services s)) c sg m (notifier s) (sent s)).
Proof.
  intros Hk Hp -> Hn. unfold notify_ok in *. cbn. rewrite length_insert.
  destruct (notifier s); [done|..].
  - destruct Hn. eauto using below_insert.
  - destruct Hn. eauto using below_insert.
  - destruct Hn as [? [?|[? Hb]]]; split; auto. right. eauto using below_insert.
Qed.

Lemma inv_main_step s s' : inv s -> main_step s = Some s' -> inv s'.
Proof.
  intros [Hm Hr Ht Hn]. unfold main_step, set_phase, main_ok, received_ok in *. destruct (main s) as [|k|err|code] eqn:Em; try done.
  - destruct (ctx s) as [c|] eqn:Ec; [|done]. destruct c; intros [= <-]; (split; [unfold main_ok; cbn|done|cbn; intros; done|]);
      try (unfold notify_ok in *; cbn; by rewrite Ec in Hn).
    + split; [done|]. intros j x Hj. lia.
    + left. by exists DeadlineExceeded.
  - destruct Hm as [Hc Hb]. destruct (services s !! k) as [[[|e|e|r] b]|] eqn:Ek; try done; intros [= <-].
    + split; cbn; [|done|by rewrite Hc|by eapply notify_insert].
      right. exists k, e, b. rewrite list_lookup_insert_eq by (by eapply lookup_lt_Some). split_and!; try done.
      by eapply below_insert.
    + split; cbn; [|done|done|done]. split; [done|]. eapply below_extend; [done| |done].
      destruct r as [e|]; [|done]. by destruct (Hr _ _ _ Ek).
    + split; cbn; [|done|done|done]. split; [done|]. by eapply below_all.
Qed.

Lemma inv_step e s s' : inv s -> step e s = Some s' -> inv s'.
Proof.
  intros Hi Hs. assert (Hmain : (forall code, main s <> Exited code) /\ step_event e s = Some s').
  { unfold step in Hs. destruct (main s); try done; by split. }
  clear Hs. destruct Hmain as [Hmain Hs]. destruct e as [k err|k|c| |k|b|]; cbn [step_event] in Hs.
  - destruct (services s !! k) as [[[] b]|] eqn:Ek; try done. injection Hs as <-.
    apply (inv_kept s k (Running, b)); try done; [|by destruct err].
    split_and!; [done|done|]. intros e. by destruct err.
  - destruct (services s !! k) as [[p b]|] eqn:Ek; [|done]. injection Hs as <-.
    apply (inv_kept s k (p, b)); try done. by left.
  - destruct (ctx s) eqn:Ec; [done|]. injection Hs as <-. apply inv_ctx; try done. by destruct (main s) as [| | |code]; [..|destruct (Hmain code)].
  - by eapply inv_signal.
  - destruct (services s !! k) as [[[|e| |] b]|] eqn:Ek; try done. injection Hs as <-.
    apply (inv_kept s k (Failed e, b)); try done; [by destruct (ctx s)|by right; destruct (ctx s)].
  - by eapply inv_notifier.
  - by eapply inv_main_step.
Qed.

Lemma inv_init n socket : inv (Start n socket).
Proof.
  split; [done| | |].
  - intros k e b Hk. apply lookup_replicate in Hk as [? _]. done.
  - intros k p Hk. cbn in Hk. apply lookup_replicate in Hk as [-> _]. done.
  - unfold notify_ok, Start. cbn. destruct socket; [|done]. split; [done|]. intros j x Hj. lia.
Qed.

Lemma inv_run es : forall s s', inv s -> run_events es s = Some s' -> inv s'.
Proof.
  induction es as [|e es IH]; intros s s' Hi; cbn; [by intros [= <-]|].
  destruct (step e s) as [s1|] eqn:E; [|done]. intros Hr. eapply IH; [|done]. by eapply inv_step.
Qed.

Lemma reachable_inv n socket s : reachable n socket s -> inv s.
Proof. intros [es Hr]. eapply inv_run; [apply inv_init|done]. Qed.

(** ** Theorems *)

(** C22: [Start] returns without an error only after the cancellation and when every service
    ended without one.  When it returns an error, this is that of the context, if the
    context ended with anything but a cancellation, or else that of the service that
    comes first in the list among those that failed, all services before it having ended
    without one.  Before the context ends it does not return. *)
Theorem starter_verdict n socket s : reachable n socket s ->
  (main s = Returned None -> ctx s = Some Canceled /\ Forall ended_well (services s)) /\
  (forall err, main s = Returned (Some err) ->
     (exists e, ctx s = Some e /\ e <> Canceled /\ err = errUnexpected e) \/
     exists k e b, services s !! k = Some (Closed (Some e), b) /\ err = errCollected e /\ below k ended_well (services s)) /\
  (ctx s = None -> match main s with Waiting | Exited _ => True | _ => False end).
Proof.
  intros Hr. destruct (reachable_inv _ _ _ Hr) as [Hm _ _ _]. unfold main_ok in Hm. split_and!.
  - intros E. rewrite E in Hm. destruct Hm as [? Hb]. split; [done|]. apply Forall_lookup. intros i p Hi.
    eapply Hb; [|done]. by eapply lookup_lt_Some.
  - intros err E. rewrite E in Hm. destruct Hm as [?|(k & e & b & ? & ? & ? & _)]; [by left|right]. by exists k, e, b.
  - intros Ec. destruct (main s) as [|k|[err|]|]; try done; rewrite Ec in Hm; naive_solver.
Qed.

(** systemd is told that the services are ready only when all of them are, and that they
    stop only after that and after the cancellation. *)
Theorem starter_notifies n socket s : reachable n socket s ->
  (sent s = [] \/ sent s = [SdNotifyReady] \/ (sent s = [SdNotifyReady; SdNotifyStopping] /\ ctx s <> None)) /\
  (sent s <> [] -> Forall is_ready (services s)).
Proof.
  intros Hr. destruct (reachable_inv _ _ _ Hr) as [_ _ _ Hn]. unfold notify_ok in Hn.
  assert (Hall : below (length (services s)) is_ready (services s) -> Forall is_ready (services s)).
  { intros Hb. apply Forall_lookup. intros i p Hi. eapply Hb; [|done]. by eapply lookup_lt_Some. }
  destruct (notifier s); naive_solver.
Qed.

(** ** Progress *)

(** What the starter itself does on the way to the return. *)
Definition internal (e : event) : Prop := match e with ServiceCancels _ | MainMoves => True | _ => False end.

(** The services heard of the cancellation and returned. *)
Definition winding_down (s : starter) : Prop :=
  ctx s = Some Canceled /\ Forall (fun p => fst p <> Running) (services s) /\
  match main s with Exited _ => False | _ => True end.

Definition weight (p : phase * bool) : nat := match fst p with Failed _ => 1 | _ => 0 end.

Fixpoint weights (l : list (phase * bool)) : nat := match l with [] => 0 | p :: l => weight p + weights l end.

Definition remaining (s : starter) : nat :=
  weights (services s) +
  match main s with
  | Waiting => S (S (length (services s)))
  | Collecting k => S (length (services s) - k)
  | _ => 0
  end.

Lemma weights_insert l : forall (k : nat) p q, l !! k = Some q -> (weights (<[k := p]> l) + weight q = weights l + weight p)%nat.
Proof.
  induction l as [|x l IH]; intros [|k] p q E; try done.
  - injection E as ->. cbn [weights]. change (<[0%nat := p]> (q :: l)) with (p :: l). cbn [weights]. lia.
  - specialize (IH k p q E). change (<[S k := p]> (x :: l)) with (x :: <[k := p]> l). cbn [weights]. lia.
Qed.

Lemma weights_le l : (weights l <= length l)%nat.
Proof. induction l as [|[[] b] l IH]; cbn; lia. Qed.

Lemma internal_decreases e s s' : internal e -> winding_down s -> step e s = Some s' ->
  winding_down s' /\ (remaining s' < remaining s)%nat.
Proof.
  intros He (Hc & Hs & Hm) E. unfold step in E. unfold remaining, winding_down.
  assert (Hev : step_event e s = Some s') by (by destruct (main s)). clear E.
  assert (Hput : forall k p, fst p <> Running -> Forall (fun p => fst p <> Running) (<[k := p]> (services s))).
  { intros k p Hp. by apply Forall_insert. }
  destruct e as [| | | |k| |]; try done; cbn [step_event] in Hev.
  - destruct (services s !! k) as [[[|e| |] b]|] eqn:Ek; try done. injection Hev as <-. cbn. rewrite Hc. unfold set_phase.
    pose proof (weights_insert _ _ (Sending e, b) _ Ek) as Hw. cbn [weight fst] in Hw. rewrite length_insert.
    split_and!; [done|by apply Hput|done|lia].
  - unfold main_step, set_phase in Hev. destruct (main s) as [|k| |]; try done.
    + rewrite Hc in Hev. injection Hev as <-. cbn. split_and!; [done|done|done|lia].
    + destruct (services s !! k) as [[[|e|e|r] b]|] eqn:Ek; try done; injection Hev as <-; cbn.
      * pose proof (weights_insert _ _ (Closed (Some e), b) _ Ek) as Hw. cbn [weight fst] in Hw.
        split_and!; [done|by apply Hput|done|lia].
      * apply lookup_lt_Some in Ek. split_and!; [done|done|done|lia].
      * split_and!; [done|done|done|lia].
Qed.

Lemma internal_enabled s : winding_down s -> match main s with Returned _ => False | _ => True end ->
  exists e s', internal e /\ step e s = Some s'.
Proof.
  intros (Hc & Hs & Hm) Hr. destruct (main s) as [|k| |] eqn:Em; try done.
  - exists MainMoves. unfold step. rewrite Em. cbn. unfold main_step. rewrite Em, Hc. eauto.
  - destruct (services s !! k) as [[p b]|] eqn:Ek.
    + rewrite Forall_lookup in Hs. pose proof (Hs _ _ Ek) as Hp. destruct p as [|e|e|r]; [done|..].
      * exists (ServiceCancels k). unfold step. rewrite Em. cbn. rewrite Ek. eauto.
      * exists MainMoves. unfold step. rewrite Em. cbn. unfold main_step. rewrite Em, Ek. eauto.
      * exists MainMoves. unfold step. rewrite Em. cbn. unfold main_step. rewrite Em, Ek. eauto.
    + exists MainMoves. unfold step. rewrite Em. cbn. unfold main_step. rewrite Em, Ek. eauto.
Qed.

(** Once the context is cancelled and the services have returned, [Start] returns: it
    takes at most 2n + 2 steps of its goroutines, in any order, and it does not get
    stuck before. *)
Theorem starter_returns es : forall s s', winding_down s -> Forall internal es -> run_events es s = Some s' ->
  (length es <= 2 * length (services s) + 2)%nat /\
  ((forall e, internal e -> step e s' = None) -> exists r, main s' = Returned r).
Proof.
  intros s s' Hw He Hr.
  assert (Hgo : winding_down s' /\ (length es + remaining s' <= remaining s)%nat).
  { revert s Hw He Hr. induction es as [|e es IH]; intros s Hw He Hr; cbn in Hr; [injection Hr as <-; by split|].
    inversion_clear He as [|? ? Hint Hes]. destruct (step e s) as [s1|] eqn:E; [|done].
    destruct (internal_decreases _ _ _ Hint Hw E) as [Hw1 Hd]. destruct (IH s1 Hw1 Hes Hr) as [? ?]. split; [done|cbn; lia]. }
  destruct Hgo as [Hw' Hlen]. split.
  - pose proof (weights_le (services s)). unfold remaining in Hlen. destruct (main s); lia.
  - intros Hstuck. destruct (main s') as [| |r|] eqn:Em; [..|by exists r|by destruct Hw' as (_ & _ & Hx); rewrite Em in Hx].
    all: destruct (internal_enabled s' Hw') as (e & s1 & He1 & E); [by rewrite Em|]; by rewrite (Hstuck e He1) in E.
Qed.

(** A service that ends without an error, before it is told to, does not end [Start]: when
    all of them do, [Start] waits for a signal. *)
Theorem starter_waits n socket s : reachable n socket s -> ctx s = None -> Forall ended_well (services s) ->
  forall e s', internal e -> step e s <> Some s'.
Proof.
  intros Hr Hc He e s' Hi. destruct (reachable_inv _ _ _ Hr) as [Hm _ _ _]. unfold main_ok, step in *.
  destruct (main s) as [|k|[err|]|] eqn:Em; try done; [|naive_solver..].
  destruct e as [| | | |k| |]; try done; cbn [step_event]; [|unfold main_step; by rewrite Em, Hc].
  destruct (services s !! k) as [[p b]|] eqn:Ek; [|done]. rewrite Forall_lookup in He. specialize (He _ _ Ek).
  unfold ended_well in He. cbn in He. by rewrite He.
Qed.

(** ** Witnesses *)

Definition boom : GoError := Sentinel "boom"%string.

(** Of three services the second one fails; the first one ends when it is told to; the
    third one never does, and [Start] returns nevertheless. *)
Definition failing_run : list event :=
  [ServiceReady 0; ServiceReturns 1 (Some boom); ServiceCancels 1; MainMoves; ServiceReturns 0 None; MainMoves; MainMoves].

Definition failed_state : starter :=
  mkStarter [(Closed None, true); (Closed (Some boom), false); (Running, false)] (Some Canceled) 0 (Returned (Some (errCollected boom)))
    (AwaitReady 0) [].

Lemma starter_verdict_witness : run_events failing_run (Start 3 true) = Some failed_state /\
  exists k e b, services failed_state !! k = Some (Closed (Some e), b) /\ errCollected boom = errCollected e.
Proof.
  assert (R : run_events failing_run (Start 3 true) = Some failed_state) by (vm_compute; reflexivity).
  split; [exact R|].
  destruct (starter_verdict 3 true failed_state (ex_intro _ failing_run R)) as (_ & He & _).
  destruct (He (errCollected boom)) as [(e & Hc & Hne & _)|(k & e & b & Hk & Eb & _)]; [reflexivity| |].
  - exfalso. apply Hne. by injection Hc.
  - exists k, e, b. split; [exact Hk|exact Eb].
Defined.

Lemma starter_notifies_witness :
  exists s, run_events [ServiceReady 0; NotifierMoves false; NotifierMoves false; Signal; NotifierMoves true] (Start 1 true) = Some s /\
    sent s = [SdNotifyReady; SdNotifyStopping] /\ Forall is_ready (services s).
Proof.
  eexists. split; [reflexivity|]. split; [reflexivity|].
  apply (starter_notifies 1 true); [|done]. exists [ServiceReady 0; NotifierMoves false; NotifierMoves false; Signal; NotifierMoves true].
  reflexivity.
Defined.

Definition signalled : starter := mkStarter [(Closed None, true); (Failed boom, false)] (Some Canceled) 1 Waiting NoSocket [].

Lemma starter_returns_witness :
  exists s', run_events [MainMoves; MainMoves; ServiceCancels 1; MainMoves] signalled = Some s' /\
    (4 <= 2 * 2 + 2)%nat /\ exists r, main s' = Returned r.
Proof.
  eexists. split; [reflexivity|].
  edestruct (starter_returns [MainMoves; MainMoves; ServiceCancels 1; MainMoves] signalled) as [Hl Hs];
    [|by repeat constructor|reflexivity|].
  - split_and!; [done| |done]. repeat constructor; discriminate.
  - split; [exact Hl|]. apply Hs. intros e He. destruct e as [| | | |k| |]; try done. by destruct k as [|[|k]].
Defined.

Lemma starter_waits_witness :
  exists s, run_events [ServiceReturns 0 None; ServiceReturns 1 None] (Start 2 false) = Some s /\
    (forall e s', internal e -> step e s <> Some s').
Proof.
  eexists. split; [reflexivity|]. apply (starter_waits 2 false); [|reflexivity|by repeat constructor].
  exists [ServiceReturns 0 None; ServiceReturns 1 None]. reflexivity.
Defined.
