(* ===== verification/Flags.v ===== *)
(** * Command-line flags

    The package flag of the standard library as the programs use it, and
    src/cloud-api-adaptor/cmd/parse.go.  The variables that flags are bound to are the
    entries of a map, the [config]; a flag is declared with its variable, its kind and its
    default. *)

From Stdlib Require Import ZArith Ascii String Lia.
From stdpp Require Import base gmap strings list.
From S2P Require Import Prelude InstanceTypes.

Open Scope Z_scope.

(** ** Numbers *)

(** [strconv.ParseFloat] with its value also for errors, and [time.ParseDuration]. *)
Class FlagNumbers := {
  Float : Type;
  ParseFloat : string -> Float * option GoError;
  ParseDuration : string -> option Z
}.

Definition lower_ascii (c : ascii) : ascii :=
  let n := nat_of_ascii c in if ((65 <=? n)%nat && (n <=? 90)%nat)%bool then ascii_of_nat (n + 32) else c.

(** The value of a digit in the bases up to 16. *)
Definition digit_of (c : ascii) : option Z :=
  let n := Z.of_nat (nat_of_ascii (lower_ascii c)) in
  if ((48 <=? n) && (n <=? 57))%bool then Some (n - 48)
  else if ((97 <=? n) && (n <=? 122))%bool then Some (n - 87)
  else None.

(** The prefix of base 0: base and digits. *)
Definition base_prefix (s : string) : Z * string :=
  match s with
  | String z rest =>
      if Ascii.eqb z "0" then
        match rest with
        | String b (String _ _ as digits) =>
            let l := lower_ascii b in
            if Ascii.eqb l "b" then (2, digits)
            else if Ascii.eqb l "o" then (8, digits)
            else if Ascii.eqb l "x" then (16, digits)
            else (8, rest)
        | _ => (8, rest)
        end
      else (10, s)
  | EmptyString => (10, s)
  end.

(** The digits of a number, without its underscores; [None] is a syntax or range error. *)
Fixpoint digits_base (base acc limit : Z) (s : string) : option Z :=
  match s with
  | EmptyString => Some acc
  | String c s =>
      if Ascii.eqb c "_" then digits_base base acc limit s
      else match digit_of c with
           | None => None
           | Some d =>
               if base <=? d then None
               else let n := acc * base + d in if limit <? n then None else digits_base base n limit s
           end
  end.

(** [underscoreOK]: an underscore stands between digits, or after the prefix.  [last] is
    [Some true] after a digit, [Some false] after an underscore. *)
Fixpoint underscores (hex : bool) (last : option bool) (s : string) : bool :=
  match s with
  | EmptyString => match last with Some false => false | _ => true end
  | String c s =>
      let l := lower_ascii c in
      if (is_digit c || (hex && match digit_of l with Some d => (10 <=? d) && (d <? 16) | None => false end))%bool
      then underscores hex (Some true) s
      else if Ascii.eqb c "_" then match last with Some true => underscores hex (Some false) s | _ => false end
      else match last with Some false => false | _ => underscores hex None s end
  end.

Definition underscoreOK (s : string) : bool :=
  match s with
  | String z (String b rest) =>
      let l := lower_ascii b in
      if (Ascii.eqb z "0" && (Ascii.eqb l "b" || Ascii.eqb l "o" || Ascii.eqb l "x"))%bool
      then underscores (Ascii.eqb l "x") (Some true) rest
      else underscores false None s
  | _ => underscores false None s
  end.

(** [strconv.ParseUint(s, 0, 64)] *)
Definition ParseUint0 (s : string) : option Z :=
  if String.eqb s "" then None
  else
    let '(base, digits) := base_prefix s in
    match digits_base base 0 (2 ^ 64 - 1) digits with
    | Some n => if (negb (contains_byte "_" s) || underscoreOK s)%bool then Some n else None
    | None => None
    end.

(** [strconv.ParseInt(s, 0, 64)] *)
Definition ParseInt0 (s : string) : option Z :=
  let '(neg, digits) :=
    match s with
    | String c rest => if Ascii.eqb c "-" then (true, rest) else if Ascii.eqb c "+" then (false, rest) else (false, s)
    | EmptyString => (false, s)
    end in
  match ParseUint0 digits with
  | None => None
  | Some n => if (neg : bool) then if n <=? 2 ^ 63 then Some (- n) else None else if n <? 2 ^ 63 then Some n else None
  end.

(** [strconv.ParseBool] *)
Definition ParseBool (s : string) : option bool :=
  if bool_decide (s ∈ ["1"; "t"; "T"; "true"; "TRUE"; "True"]%string) then Some true
  else if bool_decide (s ∈ ["0"; "f"; "F"; "false"; "FALSE"; "False"]%string) then Some false
  else None.

Example ParseInt0_examples :
  ParseInt0 "-0x1F" = Some (-31) /\ ParseInt0 "1_000" = Some 1000 /\ ParseInt0 "1__0" = None /\
  ParseInt0 "017" = Some 15 /\ ParseInt0 "0" = Some 0 /\ ParseInt0 "0x_1" = Some 1 /\ ParseInt0 "09" = None /\
  ParseInt0 "9223372036854775808" = None.
Proof. vm_compute. by repeat split. Qed.

(** A program goes on, or it exits. *)
Inductive command (A : Type) := Continue (a : A) | Exits (code : Z).
Arguments Continue {A} a.
Arguments Exits {A} code.

Section Flags.

Context `{FlagNumbers}.

(** ** Flags *)

(** The variables. *)
Inductive fval :=
| VStr (s : string)
| VBool (b : bool)
| VInt (z : Z)
| VFloat (f : Float)
| VStrs (l : list string)
| VMap (m : option (gmap string string)).

Notation config := (gmap string fval).

(** The method [Set] of a flag declared with [flags.Var], given the variables. *)
Definition setter : Type := string -> config -> result fval.

Inductive kind :=
| KString (default : string)
| KBool (default : bool)
| KInt (default : Z)
| KUint (default : Z)
| KFloat (default : Float)
| KDuration (default : Z)
| KVar (set : setter).

Record flag := mkFlag { fl_name : string; fl_var : string; fl_kind : kind }.

(** [StringVar] and the like set the variable to the default; [Var] leaves it. *)
Definition default_of (k : kind) : option fval :=
  match k with
  | KString d => Some (VStr d)
  | KBool b => Some (VBool b)
  | KInt z | KUint z | KDuration z => Some (VInt z)
  | KFloat f => Some (VFloat f)
  | KVar _ => None
  end.

Definition declare_one (f : flag) (c : config) : config :=
  match default_of (fl_kind f) with Some v => <[fl_var f := v]> c | None => c end.

(** The declaration of a name that is declared panics. *)
Fixpoint declare (seen : list string) (fs : list flag) (c : config) : outcome config :=
  match fs with
  | [] => Return c
  | f :: fs =>
      if bool_decide (fl_name f ∈ seen) then Panic
      else declare (fl_name f :: seen) fs (declare_one f c)
  end.

Fixpoint find_flag (fs : list flag) (name : string) : option flag :=
  match fs with
  | [] => None
  | f :: fs => if String.eqb (fl_name f) name then Some f else find_flag fs name
  end.

Definition set_flag (k : kind) (value : string) (c : config) : result fval :=
  let parsed o := match o with Some v => Ok v | None => Err (Sentinel "parse error") end in
  match k with
  | KString _ => Ok (VStr value)
  | KBool _ => parsed (VBool <$> ParseBool value)
  | KInt _ => parsed (VInt <$> ParseInt0 value)
  | KUint _ => parsed (VInt <$> ParseUint0 value)
  | KFloat _ => match ParseFloat value with (f, None) => Ok (VFloat f) | (_, Some e) => Err e end
  | KDuration _ => parsed (VInt <$> ParseDuration value)
  | KVar set => set value c
  end.

Definition is_bool (k : kind) : bool := match k with KBool _ => true | _ => false end.

(** ** Parsing *)

Definition ErrHelp : GoError := Sentinel "flag: help requested".
Definition flag_error (text : string) : GoError := Errorf text [].

Inductive one := Flag (name : string) (value : option string) | Stop (rest : list string) | Bad.

(** The name and the value after an equals sign, which cannot come first. *)
Definition split_flag (name : string) : string * option string :=
  match name with
  | EmptyString => (name, None)
  | String c rest =>
      match cut_on "=" rest with
      | Some (before, after) => (String c before, Some after)
      | None => (name, None)
      end
  end.

Definition flag_of (name : string) : one :=
  match name with
  | EmptyString => Bad
  | String c _ =>
      if (Ascii.eqb c "-" || Ascii.eqb c "=")%bool then Bad
      else let '(n, v) := split_flag name in Flag n v
  end.

(** The form of an argument. *)
Definition classify (arg : string) (rest : list string) : one :=
  match arg with
  | String m (String c tail as name) =>
      if negb (Ascii.eqb m "-") then Stop (arg :: rest)
      else if Ascii.eqb c "-" then
        match tail with EmptyString => Stop rest | _ => flag_of tail end
      else flag_of name
  | _ => Stop (arg :: rest)
  end.

Definition assign (f : flag) (value : string) (c : config) : result config :=
  match set_flag (fl_kind f) value c with
  | Ok v => Ok (<[fl_var f := v]> c)
  | Err e => Err (Errorf "invalid value %q for flag -%s: %v" [])
  end.

(** [FlagSet.Parse]: the variables and the arguments that are left. *)
Fixpoint flagset_Parse (fs : list flag) (args : list string) (c : config) : result (config * list string) :=
  match args with
  | [] => Ok (c, [])
  | arg :: rest =>
      match classify arg rest with
      | Stop more => Ok (c, more)
      | Bad => Err (flag_error "bad flag syntax: %s")
      | Flag name value =>
          match find_flag fs name with
          | None =>
              if (String.eqb name "help" || String.eqb name "h")%bool then Err ErrHelp
              else Err (flag_error "flag provided but not defined: -%s")
          | Some f =>
              match value with
              | Some v => match assign f v c with Ok c => flagset_Parse fs rest c | Err e => Err e end
              | None =>
                  if is_bool (fl_kind f) then
                    match assign f "true" c with Ok c => flagset_Parse fs rest c | Err e => Err e end
                  else
                    match rest with
                    | [] => Err (flag_error "flag needs an argument: -%s")
                    | v :: rest => match assign f v c with Ok c => flagset_Parse fs rest c | Err e => Err e end
                    end
              end
          end
      end
  end.

(** ** parse.go *)

(** [args] has the name of the program first; without options the usage is shown. *)
Definition Parse (args : list string) (fs : list flag) (c : config) : outcome (command config) :=
  match declare [] fs c with
  | Panic => Panic
  | Return c =>
      match args with
      | [_] => Return (Exits 1)
      | [] => Panic
      | _ :: args =>
          match flagset_Parse fs args c with
          | Ok (c, _) => Return (Continue c)
          | Err e => Return (Exits (if errors_Is "flag: help requested" e then 0 else 1))
          end
      end
  end.

(** ** Theorems *)

(** A name that a flag can have on the command line. *)
Definition plain_name (name : string) : Prop :=
  contains_byte "=" name = false /\ match name with EmptyString => False | String c _ => c <> "-"%char end.

(** Options in the form -name=value. *)
Definition option_arg (nv : string * string) : string := "-" +:+ fst nv +:+ "=" +:+ snd nv.

(** The variables after the assignments in their order, if every flag accepts its value. *)
Fixpoint assign_all (fs : list flag) (l : list (string * string)) (c : config) : result config :=
  match l with
  | [] => Ok c
  | (n, v) :: l =>
      match find_flag fs n with
      | None => Err (flag_error "flag provided but not defined: -%s")
      | Some f => match assign f v c with Ok c => assign_all fs l c | Err e => Err e end
      end
  end.

Lemma classify_option nv rest : plain_name (fst nv) ->
  classify (option_arg nv) rest = Flag (fst nv) (Some (snd nv)).
Proof.
  destruct nv as [[|d n] v]; intros [He Hn]; [done|]. cbn [fst snd] in *. unfold option_arg. cbn [fst snd].
  apply contains_byte_cons in He as [Hd Hno].
  replace ("-" +:+ String d n +:+ "=" +:+ v)%string with (String "-" (String d (n +:+ String "=" v)))
    by (rewrite !string_app_cons; by rewrite !string_app_nil).
  unfold classify. cbn [Ascii.eqb negb]. change (Ascii.eqb "-" "-") with true. cbn [negb].
  rewrite (proj2 (Ascii.eqb_neq _ _) Hn). unfold flag_of. rewrite (proj2 (Ascii.eqb_neq _ _) Hn), (proj2 (Ascii.eqb_neq _ _) Hd).
  cbn [orb split_flag]. by rewrite cut_on_app.
Qed.

(** Options of the form -name=value are assigned in their order, so that the last one
    for a flag counts, and leave no argument. *)
Theorem parse_options fs l : forall c,
  Forall (fun nv => plain_name (fst nv) /\ is_Some (find_flag fs (fst nv))) l ->
  flagset_Parse fs (map option_arg l) c = match assign_all fs l c with Ok c => Ok (c, []) | Err e => Err e end.
Proof.
  induction l as [|[n v] l IH]; intros c Hl; [done|]. inversion_clear Hl as [|? ? [Hp [f Hf]] Hl']. cbn [fst] in *.
  cbn [map flagset_Parse assign_all]. rewrite classify_option by done. cbn [fst snd]. rewrite Hf.
  destruct (assign f v c) as [c'|e]; [by apply IH|done].
Qed.

(** The variables of flags with different names. *)
Lemma declare_distinct fs : forall seen c, NoDup (map fl_name fs) -> (forall f, f ∈ fs -> fl_name f ∉ seen) ->
  declare seen fs c = Return (fold_left (fun c f => declare_one f c) fs c).
Proof.
  induction fs as [|f fs IH]; intros seen c Hn Hs; [done|]. cbn [declare fold_left map] in *. apply NoDup_cons in Hn as [Hf Hn].
  rewrite bool_decide_eq_false_2 by (apply Hs; by left). apply IH; [done|]. intros g Hg Hin.
  apply elem_of_cons in Hin as [E|Hin]; [|by apply (Hs g); [right|]]. apply Hf. rewrite <- E. by apply list_elem_of_In, in_map, list_elem_of_In.
Qed.

End Flags.

Notation config := (gmap string fval).
