(* ===== verification/Managers.v ===== *)
(** * The configuration of the providers

    Models the managers of src/cloud-providers (manager.go of every provider): [ParseCmd]
    declares the flags of a provider, [LoadEnv] then fills in from the environment.  A
    manager is the table of its flags and the list of its rules for the environment, in
    the order of the code; a variable has the name of its field. *)

From Stdlib Require Import ZArith Ascii String Lia.
From stdpp Require Import base gmap strings list.
From S2P Require Import Prelude InstanceTypes NetAddr ByomPool Aws Azure IbmCloud Alibaba Libvirt Flags.

Open Scope Z_scope.

Section Managers.

Context `{FlagNumbers} `{NetIP}.

(** ** Variables *)

Definition get_str (c : config) (v : string) : string := match c !! v with Some (VStr s) => s | _ => ""%string end.
Definition get_strs (c : config) (v : string) : list string := match c !! v with Some (VStrs l) => l | _ => [] end.
Definition get_map (c : config) (v : string) : option (gmap string string) := match c !! v with Some (VMap m) => m | _ => None end.
Definition get_int (c : config) (v : string) : Z := match c !! v with Some (VInt z) => z | _ => 0 end.

(** Flags of lists and maps, whose methods [Set] add to the variable. *)
Definition list_flag (name var : string) (set : string -> list string -> list string) : flag :=
  mkFlag name var (KVar (fun value c => Ok (VStrs (set value (get_strs c var))))).

Definition tags_flag : flag := mkFlag "tags" "Tags" (KVar (fun value c =>
  match KeyValueFlag_Set (get_map c "Tags") value with
  | (Ok _, m) => Ok (VMap (Some m))
  | (Err e, _) => Err e
  end)).

(** Images are kept as their identifiers. *)
Definition images_Set (value : string) (i : list string) : list string := i ++ toList value ",".

(** The ranges are limited by the variable [maxRangeIPs] as it is at that time. *)
Definition pool_flag : flag := mkFlag "vm-pool-ips" "VMPoolIPs" (KVar (fun value c =>
  match vmPoolIPs_Set (get_int c "maxRangeIPs") value with Ok ips => Ok (VStrs ips) | Err e => Err e end)).

(** ** Rules for the environment *)

Inductive env_rule :=
(** [provider.DefaultToEnv(&cfg.var, env, fallback)] *)
| EnvString (var env fallback : string)
(** other code that writes one variable *)
| EnvOther (var : string) (value : (string -> string) -> config -> option fval).

Definition rule_var (r : env_rule) : string := match r with EnvString v _ _ | EnvOther v _ => v end.

Definition apply_rule (getenv : string -> string) (c : config) (r : env_rule) : config :=
  match r with
  | EnvString v env fallback => <[v := VStr (DefaultToEnv getenv (get_str c v) env fallback)]> c
  | EnvOther v value => match value getenv c with Some x => <[v := x]> c | None => c end
  end.

Record manager := mkManager { mg_flags : list flag; mg_env : list env_rule }.

Definition mg_LoadEnv (m : manager) (getenv : string -> string) (c : config) : config :=
  fold_left (apply_rule getenv) (mg_env m) c.

Definition str (name var default : string) : flag := mkFlag name var (KString default).
Definition boolean (name var : string) : flag := mkFlag name var (KBool false).

(** ** The providers *)

Definition aws_manager : manager := mkManager
  [str "aws-access-key-id" "AccessKeyId" ""; str "aws-secret-key" "SecretKey" ""; str "aws-session-token" "SessionToken" "";
   str "aws-region" "Region" ""; str "aws-profile" "LoginProfile" ""; str "aws-lt-name" "LaunchTemplateName" "kata";
   boolean "use-lt" "UseLaunchTemplate"; str "imageid" "ImageId" ""; str "instance-type" "InstanceType" "m6a.large";
   list_flag "securitygroupids" "SecurityGroupIds" Aws.securityGroupIds_Set;
   str "keyname" "KeyName" ""; str "subnetid" "SubnetId" "";
   list_flag "instance-types" "InstanceTypes" Aws.instanceTypes_Set;
   tags_flag; boolean "use-public-ip" "UsePublicIP";
   mkFlag "root-volume-size" "RootVolumeSize" (KInt 30); boolean "disable-cvm" "DisableCVM"]
  [EnvString "AccessKeyId" "AWS_ACCESS_KEY_ID" ""; EnvString "SecretKey" "AWS_SECRET_ACCESS_KEY" "";
   EnvString "SessionToken" "AWS_SESSION_TOKEN" ""; EnvString "InstanceType" "PODVM_INSTANCE_TYPE" "m6a.large"].

Definition azure_manager : manager := mkManager
  [str "clientid" "ClientId" ""; str "secret" "ClientSecret" ""; str "tenantid" "TenantId" "";
   str "resourcegroup" "ResourceGroupName" ""; str "zone" "Zone" ""; str "region" "Region" ""; str "subnetid" "SubnetId" "";
   str "securitygroupid" "SecurityGroupId" ""; str "instance-size" "Size" "Standard_DC2as_v5"; str "imageid" "ImageId" "";
   str "subscriptionid" "SubscriptionId" ""; str "ssh-key-path" "SSHKeyPath" ""; str "ssh-username" "SSHUserName" "peerpod";
   boolean "disable-cvm" "DisableCVM"; list_flag "instance-sizes" "InstanceSizes" instanceSizes_Set;
   tags_flag; boolean "enable-secure-boot" "EnableSecureBoot"; boolean "use-public-ip" "UsePublicIP";
   mkFlag "root-volume-size" "RootVolumeSize" (KInt 0)]
  [EnvString "ClientId" "AZURE_CLIENT_ID" ""; EnvString "ClientSecret" "AZURE_CLIENT_SECRET" "";
   EnvString "TenantId" "AZURE_TENANT_ID" ""; EnvString "SubscriptionId" "AZURE_SUBSCRIPTION_ID" "";
   EnvString "Region" "AZURE_REGION" ""; EnvString "ResourceGroupName" "AZURE_RESOURCE_GROUP" "";
   EnvString "Size" "AZURE_INSTANCE_SIZE" "Standard_DC2as_v5"].

Definition gcp_manager : manager := mkManager
  [str "gcp-credentials" "GcpCredentials" ""; str "gcp-project-id" "ProjectId" ""; str "zone" "Zone" "";
   str "image-name" "ImageName" ""; str "machine-type" "MachineType" "e2-medium"; str "network" "Network" "";
   str "disk-type" "DiskType" "pd-standard"; boolean "disable-cvm" "DisableCVM"; str "confidential-type" "ConfidentialType" "";
   mkFlag "root-volume-size" "RootVolumeSize" (KInt 10); tags_flag]
  [EnvString "GcpCredentials" "GCP_CREDENTIALS" ""].

Definition tls_verify : env_rule := EnvOther "DockerTLSVerify" (fun getenv _ =>
  let v := getenv "DOCKER_TLS_VERIFY"%string in Some (VBool (String.eqb v "1" || String.eqb v "true"))).

Definition docker_manager : manager := mkManager
  [str "docker-host" "DockerHost" "unix:///var/run/docker.sock"; str "docker-api-version" "DockerAPIVersion" "1.40";
   str "docker-cert-path" "DockerCertPath" ""; boolean "docker-tls-verify" "DockerTLSVerify";
   str "data-dir" "DataDir" "/var/lib/docker/peerpods";
   str "podvm-docker-image" "PodVMDockerImage" "quay.io/confidential-containers/podvm-docker-image";
   str "docker-network-name" "NetworkName" "bridge"]
  [EnvString "DockerHost" "DOCKER_HOST" "unix:///var/run/docker.sock"; EnvString "DockerAPIVersion" "DOCKER_API_VERSION" "1.44";
   EnvString "DockerCertPath" "DOCKER_CERT_PATH" ""; tls_verify].

(** A number from the environment; the error of the conversion is dropped. *)
Definition env_float (var env : string) : env_rule := EnvOther var (fun getenv _ =>
  if nonempty (getenv env) then Some (VFloat (fst (ParseFloat (getenv env)))) else None).

Definition powervs_manager (two half : Float) : manager := mkManager
  [str "api-key" "ApiKey" ""; str "zone" "Zone" ""; str "service-instance-id" "ServiceInstanceID" ""; str "network-id" "NetworkID" "";
   str "image-id" "ImageId" ""; str "ssh-key" "SSHKey" ""; mkFlag "memory" "Memory" (KFloat two);
   mkFlag "cpu" "Processors" (KFloat half); str "proc-type" "ProcessorType" "shared"; str "sys-type" "SystemType" "s922";
   boolean "use-public-ip" "UsePublicIP"]
  [EnvString "ApiKey" "IBMCLOUD_API_KEY" ""; EnvString "Zone" "POWERVS_ZONE" "";
   EnvString "ServiceInstanceID" "POWERVS_SERVICE_INSTANCE_ID" ""; EnvString "NetworkID" "POWERVS_NETWORK_ID" "";
   EnvString "ImageId" "POWERVS_IMAGE_ID" ""; EnvString "SSHKey" "POWERVS_SSH_KEY_NAME" "";
   EnvString "ProcessorType" "POWERVS_PROCESSOR_TYPE" ""; EnvString "SystemType" "POWERVS_SYSTEM_TYPE" "";
   env_float "Memory" "POWERVS_MEMORY"; env_float "Processors" "POWERVS_PROCESSORS"].

Definition env_append (var env : string) (set : string -> list string -> list string) : env_rule :=
  EnvOther var (fun getenv c => if nonempty (getenv env) then Some (VStrs (set (getenv env) (get_strs c var))) else None).

Definition ibmcloud_manager : manager := mkManager
  [str "api-key" "ApiKey" ""; str "iam-profile-id" "IAMProfileID" "";
   str "cr-token-filename" "CRTokenFileName" "/var/run/secrets/tokens/vault-token";
   str "iam-service-url" "IamServiceURL" "https://iam.cloud.ibm.com/identity/token";
   str "vpc-service-url" "VpcServiceURL" "https://jp-tok.iaas.cloud.ibm.com/v1"; str "resource-group-id" "ResourceGroupID" "";
   str "profile-name" "ProfileName" ""; list_flag "profile-list" "InstanceProfiles" instanceProfiles_Set;
   str "zone-name" "ZoneName" ""; list_flag "image-id" "Images" images_Set;
   str "primary-subnet-id" "PrimarySubnetID" ""; str "primary-security-group-id" "PrimarySecurityGroupID" "";
   str "secondary-subnet-id" "SecondarySubnetID" ""; str "secondary-security-group-id" "SecondarySecurityGroupID" "";
   str "key-id" "KeyID" ""; str "vpc-id" "VpcID" ""; boolean "disable-cvm" "DisableCVM"]
  [EnvString "ApiKey" "IBMCLOUD_API_KEY" ""; EnvString "IAMProfileID" "IBMCLOUD_IAM_PROFILE_ID" "";
   EnvString "IamServiceURL" "IBMCLOUD_IAM_ENDPOINT" ""; EnvString "VpcServiceURL" "IBMCLOUD_VPC_ENDPOINT" "";
   EnvString "ResourceGroupID" "IBMCLOUD_RESOURCE_GROUP_ID" ""; EnvString "ProfileName" "IBMCLOUD_PODVM_INSTANCE_PROFILE_NAME" "";
   EnvString "ZoneName" "IBMCLOUD_ZONE" ""; EnvString "PrimarySubnetID" "IBMCLOUD_VPC_SUBNET_ID" "";
   EnvString "PrimarySecurityGroupID" "IBMCLOUD_VPC_SG_ID" ""; EnvString "KeyID" "IBMCLOUD_SSH_KEY_ID" "";
   EnvString "VpcID" "IBMCLOUD_VPC_ID" "";
   env_append "InstanceProfiles" "IBMCLOUD_PODVM_INSTANCE_PROFILE_LIST" instanceProfiles_Set;
   env_append "Images" "IBMCLOUD_PODVM_IMAGE_ID" images_Set].

(** The variable is local, so it is empty before the environment is read. *)
Definition env_size (var env fallback : string) : env_rule := EnvOther var (fun getenv _ =>
  let text := DefaultToEnv getenv "" env fallback in
  if nonempty text then Some (VInt (ParseUint32 text)) else None).

Definition libvirt_manager : manager := mkManager
  [str "uri" "URI" "qemu:///system"; str "pool-name" "PoolName" "default"; str "network-name" "NetworkName" "default";
   str "data-dir" "DataDir" "/var/lib/libvirt/images"; boolean "disable-cvm" "DisableCVM"; str "launch-security" "LaunchSecurity" "";
   str "firmware" "Firmware" ""; mkFlag "cpu" "CPU" (KUint 2); mkFlag "memory" "Memory" (KUint 8192)]
  [EnvString "URI" "LIBVIRT_URI" "qemu:///system"; EnvString "PoolName" "LIBVIRT_POOL" "default";
   EnvString "NetworkName" "LIBVIRT_NET" "default"; EnvString "VolName" "LIBVIRT_VOL_NAME" "podvm-base.qcow2";
   EnvString "LaunchSecurity" "LIBVIRT_LAUNCH_SECURITY" ""; EnvString "Firmware" "LIBVIRT_EFI_FIRMWARE" "";
   env_size "Memory" "LIBVIRT_MEMORY" "8192"; env_size "CPU" "LIBVIRT_CPU" "2"].

Definition vsphere_manager : manager := mkManager
  [str "vcenter-url" "VcenterURL" ""; str "user-name" "UserName" ""; str "password" "Password" ""; str "thumbprint" "Thumbprint" "";
   str "template" "Template" "podvm-template"; str "data-center" "Datacenter" ""; str "data-store" "Datastore" "";
   str "deploy-folder" "Deployfolder" ""; str "cluster" "Cluster" ""; str "drs" "DRS" "false"; str "host" "Host" ""]
  [EnvString "UserName" "GOVC_USERNAME" ""; EnvString "Password" "GOVC_PASSWORD" ""; EnvString "Thumbprint" "GOVC_THUMBPRINT" ""].

Definition env_groups : env_rule := EnvOther "SecurityGroupIds" (fun getenv c =>
  match get_strs c "SecurityGroupIds" with
  | [] => let v := getenv "SECURITY_GROUP_IDS"%string in
          Some (VStrs (if String.eqb v "" then ["cn-beijing"%string] else split_on "," v))
  | _ => None
  end).

(** One pair of the tags; what is not one is skipped. *)
Definition env_tag (m : gmap string string) (p : string) : gmap string string :=
  match cut_on "=" (TrimSpace p) with
  | Some (k, v) => if String.eqb (TrimSpace k) "" then m else <[TrimSpace k := TrimSpace v]> m
  | None => m
  end.

Definition env_tags : env_rule := EnvOther "Tags" (fun getenv c =>
  if bool_decide (default ∅ (get_map c "Tags") = ∅) then
    let v := getenv "TAGS"%string in
    Some (VMap (Some (if String.eqb v "" then ∅ else fold_left env_tag (split_on "," v) ∅)))
  else None).

Definition alibaba_manager : manager := mkManager
  [str "alibabacloud-access-key-id" "AccessKeyId" ""; str "alibabacloud-secret-access-key" "SecretKey" ""; str "region" "Region" "";
   str "imageid" "ImageId" ""; str "instance-type" "InstanceType" "ecs.g8i.xlarge";
   list_flag "security-group-ids" "SecurityGroupIds" ali_securityGroupIds_Set; str "keyname" "KeyName" "";
   str "vpc-id" "VpcId" ""; str "vswitch-id" "VswitchId" ""; tags_flag;
   boolean "use-public-ip" "UsePublicIP"; mkFlag "system-disk-size" "SystemDiskSize" (KInt 40); boolean "disable-cvm" "DisableCVM"]
  [EnvString "AccessKeyId" "ALIBABACLOUD_ACCESS_KEY_ID" ""; EnvString "SecretKey" "ALIBABACLOUD_ACCESS_KEY_SECRET" "";
   EnvString "Region" "REGION" "cn-beijing"; EnvString "ImageId" "IMAGEID" "";
   EnvString "InstanceType" "PODVM_INSTANCE_TYPE" "ecs.g8i.xlarge"; EnvString "VswitchId" "VSWITCH_ID" "";
   env_groups; env_tags; EnvString "KeyName" "KEYNAME" ""].

Definition env_pool : env_rule := EnvOther "VMPoolIPs" (fun getenv c =>
  let v := getenv "VM_POOL_IPS"%string in
  if nonempty v then match vmPoolIPs_Set (get_int c "maxRangeIPs") v with Ok ips => Some (VStrs ips) | Err _ => None end else None).

Definition byom_manager : manager := mkManager
  [pool_flag; mkFlag "max-range-ips" "maxRangeIPs" (KInt 100);
   str "ssh-username" "SSHUserName" "peerpod"; str "ssh-pub-key" "SSHPubKeyPath" "/root/.ssh/id_rsa.pub";
   str "ssh-priv-key" "SSHPrivKeyPath" "/root/.ssh/id_rsa"; mkFlag "ssh-timeout" "SSHTimeout" (KInt 30);
   str "ssh-host-key-allowlist-dir" "SSHHostKeyAllowlistDir" ""; str "pool-namespace" "PoolNamespace" "";
   str "pool-configmap-name" "PoolConfigMapName" "byom-ip-pool-state"]
  [env_pool; EnvString "SSHUserName" "SSH_USERNAME" "peerpod"; EnvString "SSHPubKeyPath" "SSH_PUB_KEY_PATH" "/root/.ssh/id_rsa.pub";
   EnvString "SSHPrivKeyPath" "SSH_PRIV_KEY_PATH" "/root/.ssh/id_rsa"; EnvString "PoolNamespace" "POOL_NAMESPACE" "";
   EnvString "PoolConfigMapName" "POOL_CONFIGMAP_NAME" "byom-ip-pool-state"].

(** The managers by the names they register with [AddCloudProvider]; [two] and [half] are
    the default sizes of Power VS. *)
Definition managers (two half : Float) : list (string * manager) :=
  [("alibabacloud"%string, alibaba_manager); ("aws"%string, aws_manager); ("azure"%string, azure_manager); ("byom"%string, byom_manager);
   ("docker"%string, docker_manager); ("gcp"%string, gcp_manager); ("ibmcloud"%string, ibmcloud_manager);
   ("ibmcloud-powervs"%string, powervs_manager two half); ("libvirt"%string, libvirt_manager); ("vsphere"%string, vsphere_manager)].

(** ** Theorems *)

Lemma fold_rules_other getenv v rules : forall c, v ∉ map rule_var rules -> fold_left (apply_rule getenv) rules c !! v = c !! v.
Proof.
  induction rules as [|r rules IH]; intros c Hv; [done|]. cbn [map fold_left] in *. apply not_elem_of_cons in Hv as [Hne Hv].
  rewrite IH by done. destruct r as [x e d|x value]; cbn in *; [by apply lookup_insert_ne|].
  destruct (value getenv c); [by apply lookup_insert_ne|done].
Qed.

(** A variable is written by one rule. *)
Lemma fold_rules_at getenv r rules c : NoDup (map rule_var rules) -> r ∈ rules -> exists c0,
  c0 !! rule_var r = c !! rule_var r /\
  fold_left (apply_rule getenv) rules c !! rule_var r = apply_rule getenv c0 r !! rule_var r.
Proof.
  intros Hn Hr. apply list_elem_of_split in Hr as (pre & post & ->). rewrite map_app in Hn. cbn in Hn.
  apply NoDup_app in Hn as (_ & Hpre & Hn). apply NoDup_cons in Hn as [Hpost _].
  exists (fold_left (apply_rule getenv) pre c). rewrite fold_left_app. cbn [fold_left]. split.
  - apply fold_rules_other. intros Hin. apply (Hpre _ Hin). by left.
  - by apply fold_rules_other.
Qed.

Lemma managers_written_once two half name m : (name, m) ∈ managers two half -> NoDup (map rule_var (mg_env m)).
Proof.
  intros Hin. repeat (apply elem_of_cons in Hin as [[= -> ->]|Hin]; [apply (bool_decide_unpack _); by vm_compute|]).
  by apply not_elem_of_nil in Hin.
Qed.

(** In every manager a flag that is set counts first, then the environment, then the
    default of the code; so a variable whose flag has a default never takes its value
    from the environment. *)
Theorem LoadEnv_precedence two half name m getenv c v env fallback :
  (name, m) ∈ managers two half -> EnvString v env fallback ∈ mg_env m ->
  get_str (mg_LoadEnv m getenv c) v =
    if nonempty (get_str c v) then get_str c v else if nonempty (getenv env) then getenv env else fallback.
Proof.
  intros Hm Hr. apply managers_written_once in Hm.
  destruct (fold_rules_at getenv _ _ c Hm Hr) as (c0 & Hc0 & HE). cbn [rule_var] in *.
  unfold mg_LoadEnv, get_str at 1. rewrite HE. cbn [apply_rule]. rewrite lookup_insert_eq.
  assert (Eq : get_str c0 v = get_str c v) by (unfold get_str; by rewrite Hc0). rewrite Eq.
  unfold DefaultToEnv, nonempty. destruct (String.eqb_spec (get_str c v) "") as [->|]; cbn [negb]; [|done].
  destruct (String.eqb_spec (getenv env) "") as [Ee|]; cbn [negb]; [|done]. done.
Qed.

(** The rules whose variable has a flag with a default. *)
Definition shadowed (m : manager) : list (string * string) :=
  omap (fun r => match r with
                 | EnvString v env _ =>
                     match List.find (fun f => String.eqb (fl_var f) v) (mg_flags m) with
                     | Some (mkFlag _ _ (KString d)) => if nonempty d then Some (v, env) else None
                     | _ => None
                     end
                 | _ => None
                 end) (mg_env m).

(** The variables of the environment that are not read after flags were declared. *)
Example shadowed_variables :
  map (fun m => map snd (shadowed m)) [alibaba_manager; aws_manager; azure_manager; docker_manager; ibmcloud_manager; libvirt_manager] =
  [["PODVM_INSTANCE_TYPE"]; ["PODVM_INSTANCE_TYPE"]; ["AZURE_INSTANCE_SIZE"]; ["DOCKER_HOST"; "DOCKER_API_VERSION"];
   ["IBMCLOUD_IAM_ENDPOINT"; "IBMCLOUD_VPC_ENDPOINT"]; ["LIBVIRT_URI"; "LIBVIRT_POOL"; "LIBVIRT_NET"]]%string.
Proof. reflexivity. Qed.

(** The sizes of libvirt come from the environment or the default, whatever the flags
    -memory and -cpu say. *)
Theorem libvirt_size_flags_ignored getenv c :
  mg_LoadEnv libvirt_manager getenv c !! "Memory"%string =
    Some (VInt (ParseUint32 (if nonempty (getenv "LIBVIRT_MEMORY"%string) then getenv "LIBVIRT_MEMORY"%string else "8192"))) /\
  mg_LoadEnv libvirt_manager getenv c !! "CPU"%string =
    Some (VInt (ParseUint32 (if nonempty (getenv "LIBVIRT_CPU"%string) then getenv "LIBVIRT_CPU"%string else "2"))).
Proof.
  assert (Hn : NoDup (map rule_var (mg_env libvirt_manager))) by (apply (bool_decide_unpack _); by vm_compute).
  assert (Hsize : forall var env fb, fb <> ""%string -> env_size var env fb ∈ mg_env libvirt_manager ->
    mg_LoadEnv libvirt_manager getenv c !! var = Some (VInt (ParseUint32 (if nonempty (getenv env) then getenv env else fb)))).
  { intros var env fb Hfb Hr. destruct (fold_rules_at getenv _ _ c Hn Hr) as (c0 & _ & HE). unfold mg_LoadEnv.
    change var with (rule_var (env_size var env fb)) at 1. rewrite HE. cbn.
    unfold DefaultToEnv, nonempty. destruct (String.eqb_spec (getenv env) "") as [Ee|Ee]; cbn.
    - rewrite (proj2 (String.eqb_neq _ _) Hfb). cbn. by rewrite lookup_insert_eq.
    - rewrite (proj2 (String.eqb_neq _ _) Ee). cbn. by rewrite lookup_insert_eq. }
  split; apply Hsize; try done; cbn; repeat first [by left|right].
Qed.

End Managers.

(** ** Witnesses *)

(** Numbers as their text. *)
#[export] Instance text_numbers : FlagNumbers := {
  Float := string;
  ParseFloat := fun s => (s, None);
  ParseDuration := fun s => match ParseInt s with Some z => Some z | None => None end
}.

Definition aws_env (v : string) : string := if String.eqb v "AWS_ACCESS_KEY_ID" then "key" else if String.eqb v "PODVM_INSTANCE_TYPE" then "t3.large" else "".

Definition aws_declared : config := match declare [] (mg_flags aws_manager) ∅ with Return c => c | Panic => ∅ end.

(** The declared default of the instance type hides the environment. *)
Lemma LoadEnv_precedence_witness :
  get_str (mg_LoadEnv aws_manager aws_env aws_declared) "AccessKeyId" = "key"%string /\
  get_str (mg_LoadEnv aws_manager aws_env aws_declared) "InstanceType" = "m6a.large"%string.
Proof.
  rewrite (@LoadEnv_precedence text_numbers _ (""%string) (""%string) "aws" aws_manager aws_env aws_declared "AccessKeyId" "AWS_ACCESS_KEY_ID" "");
    [|by right; left|by left].
  rewrite (@LoadEnv_precedence text_numbers _ (""%string) (""%string) "aws" aws_manager aws_env aws_declared "InstanceType" "PODVM_INSTANCE_TYPE" "m6a.large");
    [|by right; left|by right; right; right; left].
  split; vm_compute; reflexivity.
Defined.
