(* ===== verification/Commands.v ===== *)
(** * The programs

    Models [Setup] of src/cloud-api-adaptor/cmd/cloud-api-adaptor/main.go and of
    cmd/agent-protocol-forwarder/main.go: the flags, the checks and exits before the
    services start, and the configuration the services get. *)

From Stdlib Require Import ZArith Ascii String Lia.
From stdpp Require Import base gmap strings list.
From S2P Require Import Prelude InstanceTypes NetAddr Tls Forwarder Vxlan SshProxy SecureComms PodNetwork Flags Managers.

Open Scope Z_scope.

(** ** Addresses: [net.SplitHostPort] *)

(** At the last separator. *)
Fixpoint cut_last (sep : ascii) (s : string) : option (string * string) :=
  match s with
  | EmptyString => None
  | String c s' =>
      match cut_last sep s' with
      | Some (a, b) => Some (String c a, b)
      | None => if Ascii.eqb c sep then Some (EmptyString, s') else None
      end
  end.

Definition SplitHostPort (hostport : string) : result (string * string) :=
  let bad := Err (Errorf "address %s: %s" []) in
  match cut_last ":" hostport with
  | None => bad
  | Some (before, port) =>
      match hostport with
      | String b rest =>
          if Ascii.eqb b "[" then
            match cut_on "]" rest with
            | Some (host, String c port') =>
                if (Ascii.eqb c ":" && negb (contains_byte ":" port') && negb (contains_byte "[" rest)
                    && negb (contains_byte "]" port'))%bool
                then Ok (host, port') else bad
            | _ => bad
            end
          else if (contains_byte ":" before || contains_byte "[" hostport || contains_byte "]" hostport)%bool then bad
          else Ok (before, port)
      | EmptyString => bad
      end
  end.

Example SplitHostPort_examples :
  SplitHostPort "0.0.0.0:15150" = Ok ("0.0.0.0", "15150")%string /\ SplitHostPort "[::1]:80" = Ok ("::1", "80")%string /\
  SplitHostPort ":15150" = Ok ("", "15150")%string /\ (exists e, SplitHostPort "15150" = Err e) /\ (exists e, SplitHostPort "::1:80" = Err e).
Proof. repeat split; by eexists. Qed.

Section Programs.

Context `{FlagNumbers} `{NetIP}.

Definition get_bool (c : config) (v : string) : bool := match c !! v with Some (VBool b) => b | _ => false end.

(** ** cloud-api-adaptor *)

Definition DefaultProxyTimeout : Z := 5 * 60 * 1000000000.

Definition tls_flags : list flag :=
  [str "ca-cert-file" "tls.CAFile" ""; str "cert-file" "tls.CertFile" ""; str "cert-key" "tls.KeyFile" "";
   boolean "tls-skip-verify" "tls.SkipVerify"; boolean "disable-tls" "disableTLS"].

Definition adaptor_flags : list flag :=
  [str "socket" "server.SocketPath" "/run/peerpod/hypervisor.sock"; str "pods-dir" "server.PodsDir" "/run/peerpod/pods";
   str "pause-image" "server.PauseImage" ""; str "forwarder-port" "server.ForwarderPort" "15150"] ++ tls_flags ++
  [boolean "secure-comms" "secureComms"; boolean "secure-comms-no-trustee" "secureCommsNoTrustee";
   str "secure-comms-inbounds" "secureCommsInbounds" ""; str "secure-comms-outbounds" "secureCommsOutbounds" "";
   str "secure-comms-pp-inbounds" "secureCommsPpInbounds" ""; str "secure-comms-pp-outbounds" "secureCommsPpOutbounds" "";
   str "secure-comms-kbs" "secureCommsKbsAddr" "kbs-service.trustee-operator-system:8080";
   mkFlag "proxy-timeout" "server.ProxyTimeout" (KDuration DefaultProxyTimeout);
   str "tunnel-type" "network.TunnelType" "vxlan"; str "host-interface" "network.HostInterface" "";
   mkFlag "vxlan-port" "network.VXLAN.Port" (KInt 4789); mkFlag "vxlan-min-id" "network.VXLAN.MinID" (KInt 555000);
   boolean "ext-network-via-podvm" "network.ExternalNetViaPodVM";
   list_flag "pod-subnet-cidrs" "network.PodSubnetCIDRs" (fun value l => SubnetCIDRs_Set l value);
   str "initdata" "server.Initdata" ""; boolean "cloud-config-verify" "server.EnableCloudConfigVerify";
   mkFlag "peerpods-limit-per-node" "server.PeerPodsLimitPerNode" (KInt 10); boolean "enable-scratch-space" "server.EnableScratchSpace"].

Definition tls_of (c : config) : TLSConfig :=
  mkTLSConfig (get_str c "tls.CAFile") (get_str c "tls.CertFile") (get_str c "tls.KeyFile") (get_bool c "tls.SkipVerify") "" "" "".

Definition network_of (c : config) : NetworkConfig :=
  mkNetworkConfig (get_str c "network.TunnelType") (get_str c "network.HostInterface") (get_int c "network.VXLAN.Port")
    (get_int c "network.VXLAN.MinID") (get_bool c "network.ExternalNetViaPodVM") (get_strs c "network.PodSubnetCIDRs").

(** The part of [serverConfig] that [Setup] writes itself. *)
Record secure_comms := mkSecureComms {
  sc_Trustee : bool;
  sc_Inbounds : string;
  sc_Outbounds : string;
  sc_PpInbounds : string;
  sc_PpOutbounds : string;
  sc_KbsAddress : string
}.

Record adaptor := mkAdaptor {
  ad_TLS : option TLSConfig;
  ad_SecureComms : option secure_comms;
  ad_config : config
}.

(** What [Setup] calls: the Kubernetes client of secure communication, the network of the
    node, the constructor of the provider and the parser of initdata. *)
Record adaptor_calls := mkCalls {
  InitKubeMgrInVivo : option GoError;
  call_NewWorkerNode : NetworkConfig -> option GoError;
  call_NewProvider : string -> config -> option GoError;
  call_Parse : string -> option GoError
}.

Definition secure_of (c : config) : secure_comms :=
  mkSecureComms (negb (get_bool c "secureCommsNoTrustee")) (get_str c "secureCommsInbounds") (get_str c "secureCommsOutbounds")
    (get_str c "secureCommsPpInbounds") (get_str c "secureCommsPpOutbounds") (get_str c "secureCommsKbsAddr").

(** After the flags: the transport, the environment, the network, the provider and the
    default initdata. *)
Definition adaptor_finish (calls : adaptor_calls) (cloudName : string) (m : manager) (getenv : string -> string) (c : config)
    : result adaptor :=
  let finish tls secure :=
    let c := mg_LoadEnv m getenv c in
    match call_NewWorkerNode calls (network_of c) with
    | Some e => Err e
    | None =>
        match call_NewProvider calls cloudName c with
        | Some e => Err e
        | None =>
            let initdata := get_str c "server.Initdata" in
            match (if nonempty initdata then call_Parse calls initdata else None) with
            | Some e => Err (Errorf "failed to parse global initdata: %w" [e])
            | None => Ok (mkAdaptor tls secure c)
            end
        end
    end in
  if get_bool c "secureComms" then
    match InitKubeMgrInVivo calls with
    | Some e => Err (Errorf "secure comms failed to initialize KubeMgr: %w" [e])
    | None => finish None (Some (secure_of c))
    end
  else finish (if get_bool c "disableTLS" then None else Some (tls_of c)) None.

Definition find_manager (ms : list (string * manager)) (name : string) : option manager :=
  snd <$> List.find (fun m => String.eqb (fst m) name) ms.

Definition adaptor_Setup (ms : list (string * manager)) (calls : adaptor_calls) (args : list string) (getenv : string -> string)
    : outcome (command (result adaptor)) :=
  match args with
  | _ :: cloudName :: options =>
      if (String.eqb cloudName "version" || String.eqb cloudName "help")%bool then Return (Exits 0)
      else if match cloudName with EmptyString => true | String c _ => Ascii.eqb c "-" end then Return (Exits 1)
      else
        match find_manager ms cloudName with
        | None => Return (Exits 1)
        | Some m =>
            match Parse (cloudName :: options) (adaptor_flags ++ mg_flags m) ∅ with
            | Panic => Panic
            | Return (Exits code) => Return (Exits code)
            | Return (Continue c) => Return (Continue (adaptor_finish calls cloudName m getenv c))
            end
        end
  | _ => Return (Exits 1)
  end.

(** ** agent-protocol-forwarder *)

Definition forwarder_flags : list flag :=
  [boolean "version" "showVersion"; str "config" "configPath" "/run/peerpod/apf.json"; str "listen" "listenAddr" "0.0.0.0:15150";
   str "kata-agent-socket" "kataAgentSocketPath" "/run/kata-containers/agent.sock"; str "pod-namespace" "podNamespace" "/run/netns/podns";
   str "host-interface" "HostInterface" ""] ++ tls_flags ++
  [boolean "secure-comms" "secureComms"; str "secure-comms-inbounds" "secureCommsInbounds" "";
   str "secure-comms-outbounds" "secureCommsOutbounds" ""].

(** The configuration file. *)
Record forwarder_file := mkForwarderFile {
  ff_daemon : daemon_spec;
  ff_SecureComms : bool;
  ff_WnPublicKey : string;
  ff_PpPrivateKey : string;
  ff_Inbounds : string;
  ff_Outbounds : string
}.

(** The SSH server: tags and keys. *)
Record ssh_service := mkSshService {
  ss_inbounds : list string;
  ss_outbounds : list string;
  ss_secrets : gmap string (option string)
}.

Record forwarder := mkForwarder { fw_ssh : option ssh_service; fw_daemon : daemon }.

(** The address to listen on with secure communication, and its port. *)
Definition local_address (listenAddr : string) : string * string :=
  let '(host, port) := match SplitHostPort listenAddr with Ok hp => hp | Err _ => (""%string, ""%string) end in
  (if String.eqb host "127.0.0.1" then listenAddr else "127.0.0.1:" +:+ port, port).

(** The keys come from the key broker, or from the configuration file. *)
Definition forwarder_secrets (from_flag : bool) (file : forwarder_file) : gmap string (option string) :=
  if from_flag then AddKey PP_PRIVATE_KEY (AddKey WN_PUBLIC_KEY ∅)
  else SetKey PP_PRIVATE_KEY (ff_PpPrivateKey file) (SetKey WN_PUBLIC_KEY (ff_WnPublicKey file) ∅).

(** [singleton] is the outcome of [ppssh.Singleton], which panics in a second process. *)
Definition forwarder_services (singleton : outcome unit) (c : config) (file : forwarder_file) : outcome forwarder :=
  if (get_bool c "secureComms" || ff_SecureComms file)%bool then
    let '(listenAddr, port) := local_address (get_str c "listenAddr") in
    let inbounds := ["BOTH_PHASES:KBS:8080"%string] ++ split_on "," (get_str c "secureCommsInbounds") ++ split_on "," (ff_Inbounds file) in
    let outbounds := ["KUBERNETES_PHASE:KATAAGENT:" +:+ port] ++ split_on "," (get_str c "secureCommsOutbounds") ++ split_on "," (ff_Outbounds file) in
    match singleton with
    | Panic => Panic
    | Return _ =>
        Return (mkForwarder (Some (mkSshService inbounds outbounds (forwarder_secrets (get_bool c "secureComms") file)))
                  (NewDaemon (ff_daemon file) listenAddr None))
    end
  else
    Return (mkForwarder None
      (NewDaemon (ff_daemon file) (get_str c "listenAddr") (if get_bool c "disableTLS" then None else Some (tls_of c)))).

Definition forwarder_Setup (singleton : outcome unit) (load : string -> result forwarder_file) (args : list string) : outcome (command (result forwarder)) :=
  match Parse args forwarder_flags ∅ with
  | Panic => Panic
  | Return (Exits code) => Return (Exits code)
  | Return (Continue c) =>
      if get_bool c "showVersion" then Return (Exits 0)
      else
        match load (get_str c "configPath") with
        | Err e => Return (Continue (Err e))
        | Ok file =>
            match forwarder_services singleton c file with
            | Panic => Panic
            | Return f => Return (Continue (Ok f))
            end
        end
  end.

(** ** Theorems *)

Lemma adaptor_flags_declared two half name m : (name, m) ∈ managers two half ->
  exists c, declare [] (adaptor_flags ++ mg_flags m) ∅ = Return c.
Proof.
  intros Hin. eexists. apply declare_distinct; [|intros f _; apply not_elem_of_nil].
  repeat (apply elem_of_cons in Hin as [[= -> ->]|Hin]; [apply (bool_decide_unpack _); by vm_compute|]).
  by apply not_elem_of_nil in Hin.
Qed.

Lemma find_manager_in ms name m : find_manager ms name = Some m -> (name, m) ∈ ms.
Proof.
  unfold find_manager. destruct (List.find _ ms) as [[n x]|] eqn:E; [|done]. intros [= <-].
  apply find_some in E as [Hin Hn]. apply String.eqb_eq in Hn. cbn in Hn. subst. by apply list_elem_of_In.
Qed.

(** No provider declares a flag of the adaptor again, so no command line makes the
    declaration of the flags panic. *)
Theorem adaptor_Setup_returns two half calls args getenv :
  adaptor_Setup (managers two half) calls args getenv <> Panic.
Proof.
  unfold adaptor_Setup. destruct args as [|prog [|cloudName options]]; try done.
  destruct (_ || _)%bool; [done|]. destruct (match cloudName with EmptyString => true | String c _ => Ascii.eqb c "-" end); [done|].
  destruct (find_manager _ cloudName) as [m|] eqn:Em; [|done]. apply find_manager_in, adaptor_flags_declared in Em as [c Ec].
  unfold Parse. rewrite Ec. destruct options as [|o options]; [done|]. by destruct (flagset_Parse _ _ c) as [[c' r]|e].
Qed.

Lemma adaptor_finish_ok calls name m getenv c a : adaptor_finish calls name m getenv c = Ok a ->
  ad_config a = mg_LoadEnv m getenv c /\
  ad_SecureComms a = (if get_bool c "secureComms" then Some (secure_of c) else None) /\
  ad_TLS a = (if get_bool c "secureComms" || get_bool c "disableTLS" then None else Some (tls_of c)) /\
  call_NewProvider calls name (ad_config a) = None /\
  (get_str (ad_config a) "server.Initdata" <> ""%string -> call_Parse calls (get_str (ad_config a) "server.Initdata") = None).
Proof.
  unfold adaptor_finish. set (c' := mg_LoadEnv m getenv c). set (id := get_str c' "server.Initdata"). cbv zeta.
  destruct (call_NewWorkerNode calls (network_of c')) as [e1|]; [by destruct (get_bool c "secureComms"), (InitKubeMgrInVivo calls)|].
  destruct (call_NewProvider calls name c') as [e2|] eqn:Ep; [by destruct (get_bool c "secureComms"), (InitKubeMgrInVivo calls)|].
  destruct (if nonempty id then call_Parse calls id else None) as [e3|] eqn:Ei; [by destruct (get_bool c "secureComms"), (InitKubeMgrInVivo calls)|].
  assert (Hid : id <> ""%string -> call_Parse calls id = None).
  { intros Hn. unfold nonempty in Ei. by rewrite (proj2 (String.eqb_neq _ _) Hn) in Ei. }
  destruct (get_bool c "secureComms"); [destruct (InitKubeMgrInVivo calls); [done|]|]; intros [= <-]; by split_and!.
Qed.

(** The transport to the pod VMs: SSH when secure communication is asked for, otherwise
    TLS unless it is disabled; never both.  The default initdata was parsed. *)
Theorem adaptor_transport ms calls args getenv a :
  adaptor_Setup ms calls args getenv = Return (Continue (Ok a)) ->
  exists prog name options m c, args = prog :: name :: options /\ find_manager ms name = Some m /\
    Parse (name :: options) (adaptor_flags ++ mg_flags m) ∅ = Return (Continue c) /\
    ad_config a = mg_LoadEnv m getenv c /\
    ad_SecureComms a = (if get_bool c "secureComms" then Some (secure_of c) else None) /\
    ad_TLS a = (if get_bool c "secureComms" || get_bool c "disableTLS" then None else Some (tls_of c)) /\
    call_NewProvider calls name (ad_config a) = None /\
    (get_str (ad_config a) "server.Initdata" <> ""%string -> call_Parse calls (get_str (ad_config a) "server.Initdata") = None).
Proof.
  unfold adaptor_Setup. destruct args as [|prog [|name options]]; try done.
  destruct (_ || _)%bool; [done|]. destruct (match name with EmptyString => true | String c _ => Ascii.eqb c "-" end); [done|].
  destruct (find_manager _ name) as [m|] eqn:Em; [|done]. destruct (Parse _ _ _) as [[c|code]|] eqn:Ep; try done.
  intros [= E]. exists prog, name, options, m, c. apply adaptor_finish_ok in E. repeat (split; [done|]). exact E.
Qed.

(** *** The forwarder *)

Lemma cut_last_none sep s : contains_byte sep s = false -> cut_last sep s = None.
Proof.
  induction s as [|x s IH]; [done|]. rewrite contains_byte_cons. intros [Hx Hs]. cbn. rewrite IH by done.
  by rewrite (proj2 (Ascii.eqb_neq _ _) Hx).
Qed.

Lemma cut_last_app sep a b : contains_byte sep b = false -> cut_last sep (a +:+ String sep b) = Some (a, b).
Proof.
  intros Hb. induction a as [|x a IH].
  - rewrite string_app_nil. cbn. by rewrite cut_last_none, Ascii.eqb_refl.
  - rewrite string_app_cons. cbn. by rewrite IH.
Qed.

Lemma cut_last_some sep s : forall a b, cut_last sep s = Some (a, b) -> s = a +:+ String sep b /\ contains_byte sep b = false.
Proof.
  induction s as [|x s IH]; [done|]. intros a b. cbn. destruct (cut_last sep s) as [[a' b']|] eqn:E.
  - intros [= <- <-]. destruct (IH _ _ eq_refl) as [-> Hb]. by rewrite string_app_cons.
  - destruct (Ascii.eqb_spec x sep) as [->|]; [|done]. intros [= <- <-]. rewrite string_app_nil. split; [done|].
    clear IH. induction s as [|y s IH]; [done|]. cbn in E. destruct (cut_last sep s) as [[]|]; [done|].
    destruct (Ascii.eqb_spec y sep); [done|]. apply contains_byte_cons. split; [done|by apply IH].
Qed.

(** A port has no colon and no brackets. *)
Definition plain_port (port : string) : Prop :=
  contains_byte ":" port = false /\ contains_byte "[" port = false /\ contains_byte "]" port = false.

Lemma SplitHostPort_port s host port : SplitHostPort s = Ok (host, port) -> plain_port port.
Proof.
  unfold SplitHostPort, plain_port. destruct (cut_last ":" s) as [[before p]|] eqn:E; [|done].
  destruct s as [|b rest]; [done|]. destruct (Ascii.eqb b "[").
  - destruct (cut_on "]" rest) as [[h [|x p']]|] eqn:Ec; try done.
    destruct (Ascii.eqb_spec x ":") as [->|]; cbn [andb]; [|done].
    destruct (contains_byte ":" p') eqn:E1, (contains_byte "[" rest) eqn:E2, (contains_byte "]" p') eqn:E3; cbn [andb negb]; try done.
    intros [= -> ->]. split_and!; try done.
    assert (Hr : rest = host +:+ String "]" (String ":" port)).
    { clear - Ec. revert host Ec. induction rest as [|y rest IH]; intros host; cbn; [done|].
      destruct (Ascii.eqb_spec y "]") as [->|]; [intros [= <- ->]; by rewrite string_app_nil|].
      destruct (cut_on "]" rest) as [[h q]|]; [|done]. intros [= <- ->]. rewrite string_app_cons. f_equal. by apply IH. }
    rewrite Hr in E2. apply contains_byte_app in E2 as [_ E2]. by apply contains_byte_cons in E2 as [_ [_ E2]%contains_byte_cons].
  - destruct (_ || _)%bool eqn:Eo; [done|]. apply orb_false_iff in Eo as [[_ Ei]%orb_false_iff Ej].
    intros [= <- <-]. apply cut_last_some in E as [E Hp]. rewrite E in Ei, Ej.
    apply contains_byte_app in Ei as [_ [_ ?]%contains_byte_cons]. apply contains_byte_app in Ej as [_ [_ ?]%contains_byte_cons]. done.
Qed.

Lemma SplitHostPort_local port : plain_port port -> SplitHostPort ("127.0.0.1:" +:+ port) = Ok ("127.0.0.1"%string, port).
Proof.
  intros (Hc & Ho & Hb). unfold SplitHostPort.
  replace ("127.0.0.1:" +:+ port)%string with ("127.0.0.1" +:+ String ":" port) by reflexivity.
  rewrite cut_last_app by done. change ("127.0.0.1" +:+ String ":" port) with (String "1" ("27.0.0.1" +:+ String ":" port)).
  cbn [Ascii.eqb]. change (Ascii.eqb "1" "[") with false. cbn iota.
  assert (Hno : forall x, contains_byte x "127.0.0.1" = false -> x <> ":"%char -> contains_byte x port = false ->
    contains_byte x (String "1" ("27.0.0.1" +:+ String ":" port)) = false).
  { intros x H1' H2' H3'. change (String "1" ("27.0.0.1" +:+ String ":" port)) with ("127.0.0.1" +:+ String ":" port).
    apply contains_byte_app. split; [done|]. apply contains_byte_cons. split; [congruence|done]. }
  rewrite (Hno "["%char), (Hno "]"%char) by done. reflexivity.
Qed.

(** With secure communication the forwarder listens on the loopback address only, without
    TLS, and the tunnel to the agent ends at the port it listens on; otherwise there is
    no SSH server, and TLS is used unless it is disabled. *)
Theorem forwarder_listens singleton c file f :
  forwarder_services singleton c file = Return f ->
  if get_bool c "secureComms" || ff_SecureComms file then
    exists port s rest, SplitHostPort (d_listenAddr (fw_daemon f)) = Ok ("127.0.0.1"%string, port) /\
      d_tlsConfig (fw_daemon f) = None /\ fw_ssh f = Some s /\ ss_outbounds s = ("KUBERNETES_PHASE:KATAAGENT:" +:+ port) :: rest
  else fw_ssh f = None /\ d_listenAddr (fw_daemon f) = get_str c "listenAddr" /\
       (d_tlsConfig (fw_daemon f) = None <-> get_bool c "disableTLS" = true).
Proof.
  unfold forwarder_services. destruct (_ || _)%bool.
  - unfold local_address. destruct (match SplitHostPort _ with Ok hp => hp | Err _ => _ end) as [host port] eqn:Es.
    destruct singleton as [[]|]; [|done]. intros [= <-]. cbn [fw_daemon fw_ssh d_listenAddr d_tlsConfig NewDaemon].
    eexists port, _, _. split_and!; [|done|done|done].
    destruct (String.eqb_spec host "127.0.0.1") as [->|].
    + by destruct (SplitHostPort (get_str c "listenAddr")) as [hp|e]; subst.
    + apply SplitHostPort_local. destruct (SplitHostPort (get_str c "listenAddr")) as [[h p]|e] eqn:E.
      * injection Es as -> ->. by eapply SplitHostPort_port.
      * by injection Es as <- <-.
  - intros [= <-]. cbn. split_and!; try done. by destruct (get_bool c "disableTLS").
Qed.

(** The keys: to be fetched from the key broker when the flag asks for it, else those of
    the configuration file. *)
Theorem forwarder_keys from_flag file :
  GetKey PP_PRIVATE_KEY (forwarder_secrets from_flag file) = (if from_flag then None else Some (ff_PpPrivateKey file)) /\
  GetKey WN_PUBLIC_KEY (forwarder_secrets from_flag file) = (if from_flag then None else Some (ff_WnPublicKey file)) /\
  dom (forwarder_secrets from_flag file) = {[PP_PRIVATE_KEY; WN_PUBLIC_KEY]}.
Proof.
  assert (Hne : PP_PRIVATE_KEY <> WN_PUBLIC_KEY) by done. unfold forwarder_secrets, GetKey, SetKey, AddKey. destruct from_flag.
  - split_and!; [reflexivity|reflexivity|]. apply (bool_decide_unpack _). by vm_compute.
  - rewrite lookup_insert_eq, lookup_insert_ne, lookup_insert_eq by done. split_and!; try done.
Qed.

End Programs.

(** ** Witnesses *)

Definition healthy : adaptor_calls := mkCalls None (fun _ => None) (fun _ _ => None) (fun _ => None).

Definition started (r : outcome (command (result adaptor))) : bool :=
  match r with Return (Continue (Ok _)) => true | _ => false end.

Definition example_Setup : outcome (command (result adaptor)) :=
  adaptor_Setup (@managers text_numbers _ (""%string) (""%string)) healthy ["caa"; "gcp"; "-secure-comms"; "-zone=z1"]%string (fun _ => ""%string).

(** An adaptor with secure communication, which does not use TLS as well. *)
Lemma adaptor_transport_witness : exists a, example_Setup = Return (Continue (Ok a)) /\ (ad_TLS a = None \/ ad_SecureComms a = None).
Proof.
  assert (Hs : started example_Setup = true) by (vm_compute; reflexivity).
  destruct example_Setup as [[[a|e]|code]|] eqn:E; try discriminate Hs.
  exists a. split; [reflexivity|].
  destruct (adaptor_transport _ _ _ _ _ E) as (prog & name & options & m & c & _ & _ & _ & _ & Hx & Ht & _).
  rewrite Hx, Ht. destruct (get_bool c "secureComms"); [by left|by right].
Defined.

Definition example_file : forwarder_file := mkForwarderFile (mkDaemonSpec "cert" "key" "ca" None) true "wn" "pp" "" "".

Lemma forwarder_listens_witness :
  exists f port, forwarder_services (Return tt) (<["listenAddr"%string := VStr "0.0.0.0:15150"]> (∅ : config)) example_file = Return f /\
    SplitHostPort (d_listenAddr (fw_daemon f)) = Ok ("127.0.0.1"%string, port).
Proof.
  destruct (forwarder_services (Return tt) (<["listenAddr"%string := VStr "0.0.0.0:15150"]> (∅ : config)) example_file) as [f|] eqn:E.
  - destruct (forwarder_listens _ _ _ _ E) as (port & s & rest & Hp & _). by exists f, port.
  - exfalso. revert E. unfold forwarder_services. rewrite (orb_true_r (get_bool _ _)). by destruct (local_address _).
Defined.
