(* ===== verification/CsiDispatch.v ===== *)
(** * Dispatch of PeerpodVolume changes

    Models src/csi-wrapper/pkg/peerpodvolume/controller.go around [syncHandler] of
    CsiVolumes: the event handlers of the informer, the work queue and the workers
    that take keys from it.  Informer and workers run at the same time: an [action] is
    what one of them does next.  The work queue of client-go is an interface with the
    laws its documentation states. *)

From Stdlib Require Import ZArith Ascii String Lia.
From stdpp Require Import base gmap strings list fin_maps fin_sets.
From S2P Require Import Prelude CsiVolumes.

(** ** The work queue *)

Inductive got (Q : Type) := Got (key : string) (q : Q) | Empty | Quit.
Arguments Got {Q} key q.
Arguments Empty {Q}.
Arguments Quit {Q}.

(** [pending] are the keys that will be handed out, now, after a delay or once the worker
    that has the key is done with it; [processing] those handed out and not done.  A key
    that was put back for later can be added once more and handed out before its time: then
    it stays pending, and it is handed out again.  [load] bounds how often keys are still
    handed out. *)
Class WorkQueue (Q : Type) := {
  pending : Q -> gset string;
  processing : Q -> gset string;
  shut : Q -> bool;
  load : Q -> nat;
  q_Add : string -> Q -> Q;
  q_AddRateLimited : string -> Q -> Q;
  q_Forget : string -> Q -> Q;
  q_Done : string -> Q -> Q;
  q_Get : Q -> got Q;
  q_ShutDown : Q -> Q;

  Add_spec : forall k q, shut q = false ->
    pending (q_Add k q) = {[k]} ∪ pending q /\ processing (q_Add k q) = processing q /\ shut (q_Add k q) = false;
  AddRateLimited_spec : forall k q, shut q = false ->
    pending (q_AddRateLimited k q) = {[k]} ∪ pending q /\ processing (q_AddRateLimited k q) = processing q /\
    shut (q_AddRateLimited k q) = false;
  Forget_spec : forall k q,
    pending (q_Forget k q) = pending q /\ processing (q_Forget k q) = processing q /\ shut (q_Forget k q) = shut q;
  Done_spec : forall k q,
    pending (q_Done k q) = pending q /\ processing (q_Done k q) = processing q ∖ {[k]} /\ shut (q_Done k q) = shut q;
  Get_spec : forall q, shut q = false ->
    match q_Get q with
    | Got k q' => k ∈ pending q /\ k ∉ processing q /\ pending q ∖ {[k]} ⊆ pending q' ⊆ pending q /\
                  processing q' = {[k]} ∪ processing q /\ shut q' = false /\ (load q' < load q)%nat
    | Empty => pending q ⊆ processing q
    | Quit => False
    end;
  load_Add : forall k q, shut q = false -> (load (q_Add k q) <= S (load q))%nat;
  load_AddRateLimited : forall k q, shut q = false -> (load (q_AddRateLimited k q) <= S (load q))%nat;
  load_Forget : forall k q, load (q_Forget k q) = load q;
  load_Done : forall k q, load (q_Done k q) = load q;
  ShutDown_spec : forall q, shut (q_ShutDown q) = true;
  shut_Add : forall k q, shut q = true -> shut (q_Add k q) = true;
  shut_AddRateLimited : forall k q, shut q = true -> shut (q_AddRateLimited k q) = true;
  shut_Get : forall q k q', shut q = true -> q_Get q = Got k q' -> shut q' = true
}.

(** ** The controller *)

(** [cache.MetaNamespaceKeyFunc] *)
Definition key_of (id : string * string) : string :=
  if String.eqb (fst id) "" then snd id else (fst id +:+ String "/" (snd id)).

(** A worker in [processNextWorkItem]: before [Get]; with a key; in the function it calls
    for the object; back from [syncHandler]. *)
Inductive worker :=
| Idle
| Took (key : string)
| Syncing (key : string) (v : PeerpodVolume)
| Finishing (key : string) (err : option GoError)
| Ended.

Inductive decision := Drop | Retry (e : GoError) | Run (v : PeerpodVolume).

(** [syncHandler] up to its call of the function. *)
Definition decide_key (ns key : string) (lister : string -> result PeerpodVolume) : decision :=
  match SplitMetaNamespaceKey key with
  | None => Drop
  | Some (namespace, name) =>
      if negb (String.eqb namespace ns) then Drop
      else match lister name with
           | Err e => if IsNotFound e then Drop else Retry e
           | Ok v => if String.eqb (VolumeID (v_Spec v)) "" then Drop else Run v
           end
  end.

Section Dispatch.

Context {Q : Type} `{WorkQueue Q} (namespace : string).

(** The informer changes its cache at once and calls the event handlers later, in order. *)
Inductive notice :=
| OnAdd (id : string * string)
| OnUpdate (id : string * string) (old new : PeerpodVolume)
| OnDelete (v : PeerpodVolume) (tombstone : bool).

Record dispatcher := mkDispatcher {
  cache : gmap (string * string) PeerpodVolume;
  notices : list notice;
  queue : Q;
  workers : list worker;
  synced : list (string * PeerpodVolume);
  deleted : list PeerpodVolume
}.

Inductive action :=
(** the informer *)
| InformerAdds (id : string * string) (v : PeerpodVolume)
| InformerUpdates (id : string * string) (v : PeerpodVolume)
| InformerDeletes (id : string * string) (tombstone : bool)
| HandlerRuns
(** a worker *)
| WorkerGets (w : nat)
| WorkerReads (w : nat) (failure : option GoError)
| WorkerReturns (w : nat)
| WorkerFinishes (w : nat)
(** the channel that stops the controller *)
| Stop.

Definition set_worker (w : nat) (x : worker) (q : Q) (s : dispatcher) : dispatcher :=
  mkDispatcher (cache s) (notices s) q (<[w := x]> (workers s)) (synced s) (deleted s).

Definition enqueuePeerpodvolume (id : string * string) (s : dispatcher) : dispatcher :=
  mkDispatcher (cache s) (notices s) (q_Add (key_of id) (queue s)) (workers s) (synced s) (deleted s).

(** A change of the cache and the notice of it. *)
Definition inform (m : gmap (string * string) PeerpodVolume) (n : notice) (s : dispatcher) : dispatcher :=
  mkDispatcher m (notices s ++ [n]) (queue s) (workers s) (synced s) (deleted s).

(** The update handler drops an update that has the resource version it replaces. *)
Definition updatePeerpodvolume (id : string * string) (old new : PeerpodVolume) (s : dispatcher) : dispatcher :=
  if String.eqb (v_ResourceVersion old) (v_ResourceVersion new) then s else enqueuePeerpodvolume id s.

(** A deletion that the informer noticed only later is reported by a tombstone, which is
    not a PeerpodVolume. *)
Definition handleDeletedPeerpodvolume (v : PeerpodVolume) (tombstone : bool) (s : dispatcher) : dispatcher :=
  if tombstone then s else mkDispatcher (cache s) (notices s) (queue s) (workers s) (synced s) (v :: deleted s).

Definition handle (n : notice) : dispatcher -> dispatcher :=
  match n with
  | OnAdd id => enqueuePeerpodvolume id
  | OnUpdate id old new => updatePeerpodvolume id old new
  | OnDelete v tombstone => handleDeletedPeerpodvolume v tombstone
  end.

Definition lister (s : dispatcher) (failure : option GoError) (name : string) : result PeerpodVolume :=
  match failure with
  | Some e => Err e
  | None => match cache s !! (namespace, name) with Some v => Ok v | None => Err (APIStatus NotFound) end
  end.

Definition worker_read (w : nat) (key : string) (failure : option GoError) (s : dispatcher) : dispatcher :=
  match decide_key namespace key (lister s failure) with
  | Drop => set_worker w (Finishing key None) (queue s) s
  | Retry e => set_worker w (Finishing key (Some e)) (queue s) s
  | Run v =>
      mkDispatcher (cache s) (notices s) (queue s) (<[w := Syncing key v]> (workers s)) ((key, v) :: synced s) (deleted s)
  end.

(** The end of [processNextWorkItem], with the deferred [Done]. *)
Definition worker_finish (w : nat) (key : string) (err : option GoError) (s : dispatcher) : dispatcher :=
  match err with
  | None => set_worker w Idle (q_Done key (q_Forget key (queue s))) s
  | Some _ => set_worker w Idle (q_Done key (q_AddRateLimited key (queue s))) s
  end.

Definition dispatch_step (a : action) (s : dispatcher) : option dispatcher :=
  match a with
  | InformerAdds id v =>
      match cache s !! id with None => Some (inform (<[id := v]> (cache s)) (OnAdd id) s) | Some _ => None end
  | InformerUpdates id v =>
      match cache s !! id with Some old => Some (inform (<[id := v]> (cache s)) (OnUpdate id old v) s) | None => None end
  | InformerDeletes id tombstone =>
      match cache s !! id with Some v => Some (inform (delete id (cache s)) (OnDelete v tombstone) s) | None => None end
  | HandlerRuns =>
      match notices s with
      | [] => None
      | n :: rest => Some (handle n (mkDispatcher (cache s) rest (queue s) (workers s) (synced s) (deleted s)))
      end
  | WorkerGets w =>
      match workers s !! w : option worker with
      | Some Idle =>
          match q_Get (queue s) with
          | Got key q => Some (set_worker w (Took key) q s)
          | Empty => None
          | Quit => Some (set_worker w Ended (queue s) s)
          end
      | _ => None
      end
  | WorkerReads w failure =>
      match workers s !! w : option worker with Some (Took key) => Some (worker_read w key failure s) | _ => None end
  | WorkerReturns w =>
      match workers s !! w : option worker with Some (Syncing key v) => Some (set_worker w (Finishing key None) (queue s) s) | _ => None end
  | WorkerFinishes w =>
      match workers s !! w : option worker with Some (Finishing key err) => Some (worker_finish w key err s) | _ => None end
  | Stop => Some (mkDispatcher (cache s) (notices s) (q_ShutDown (queue s)) (workers s) (synced s) (deleted s))
  end.

(** What Kubernetes promises: names without a slash, different objects have different
    resource versions, and a lister reports a missing object only when it is missing. *)
Definition well_named (id : string * string) : Prop :=
  fst id <> ""%string /\ contains_byte "/" (fst id) = false /\ contains_byte "/" (snd id) = false.

Definition valid_action (a : action) (s : dispatcher) : Prop :=
  match a with
  | InformerAdds id _ => well_named id
  | InformerUpdates id v => forall old, cache s !! id = Some old -> v_ResourceVersion old = v_ResourceVersion v -> old = v
  | WorkerReads _ (Some e) => IsNotFound e = false
  | _ => True
  end.

Inductive steps (s : dispatcher) : list action -> dispatcher -> Prop :=
| steps_nil : steps s [] s
| steps_snoc acts a s1 s2 : steps s acts s1 -> valid_action a s1 -> dispatch_step a s1 = Some s2 -> steps s (acts ++ [a]) s2.

Definition initial (q : Q) (threadiness : nat) : dispatcher := mkDispatcher ∅ [] q (replicate threadiness Idle) [] [].

(** The object with which the function was called last for a key. *)
Fixpoint last_synced (key : string) (log : list (string * PeerpodVolume)) : option PeerpodVolume :=
  match log with
  | [] => None
  | (k, v) :: log => if String.eqb k key then Some v else last_synced key log
  end.

(** ** Invariant *)

Definition holds (x : worker) : option string :=
  match x with Took k | Syncing k _ | Finishing k _ => Some k | Idle | Ended => None end.

(** The worker will still read the object, or puts the key back. *)
Definition retries (x : worker) (k : string) : Prop :=
  match x with Took k' | Finishing k' (Some _) => k' = k | _ => False end.

Definition will_enqueue (n : notice) (k : string) : Prop :=
  match n with
  | OnAdd id => key_of id = k
  | OnUpdate id old new => key_of id = k /\ v_ResourceVersion old <> v_ResourceVersion new
  | OnDelete _ _ => False
  end.

(** The key is on its way to the function. *)
Definition awaits (s : dispatcher) (k : string) : Prop :=
  (exists n, n ∈ notices s /\ will_enqueue n k) \/ k ∈ pending (queue s) \/
  (exists w x, workers s !! w = Some x /\ retries x k).

Definition relevant (id : string * string) (v : PeerpodVolume) : Prop :=
  fst id = namespace /\ VolumeID (v_Spec v) <> ""%string.

Record dispatch_inv (s : dispatcher) : Prop := mkDispatchInv {
  inv_named : forall id v, cache s !! id = Some v -> well_named id;
  inv_held : forall w x k, workers s !! w = Some x -> holds x = Some k -> k ∈ processing (queue s);
  inv_holder : forall k, k ∈ processing (queue s) -> exists w x, workers s !! w = Some x /\ holds x = Some k;
  inv_excl : forall w1 w2 x1 x2 k, workers s !! w1 = Some x1 -> workers s !! w2 = Some x2 ->
    holds x1 = Some k -> holds x2 = Some k -> w1 = w2;
  inv_covered : forall id v, cache s !! id = Some v -> relevant id v ->
    awaits s (key_of id) \/ last_synced (key_of id) (synced s) = Some v
}.

Lemma split_key id : well_named id -> SplitMetaNamespaceKey (key_of id) = Some id.
Proof.
  destruct id as [ns name]. intros (Hne & Hn & Hm). cbn in *. unfold key_of, SplitMetaNamespaceKey. cbn.
  rewrite (proj2 (String.eqb_neq _ _) Hne). by rewrite split_on_app, split_on_none.
Qed.

Lemma key_of_inj id1 id2 : well_named id1 -> well_named id2 -> key_of id1 = key_of id2 -> id1 = id2.
Proof. intros W1 W2 E. apply split_key in W1, W2. congruence. Qed.

(** *** The workers *)

Record workers_ok (q : Q) (ws : list worker) : Prop := mkWorkersOk {
  ok_held : forall w x k, ws !! w = Some x -> holds x = Some k -> k ∈ processing q;
  ok_holder : forall k, k ∈ processing q -> exists w x, ws !! w = Some x /\ holds x = Some k;
  ok_excl : forall w1 w2 x1 x2 k, ws !! w1 = Some x1 -> ws !! w2 = Some x2 -> holds x1 = Some k -> holds x2 = Some k -> w1 = w2
}.

Lemma dispatch_workers s : dispatch_inv s -> workers_ok (queue s) (workers s).
Proof. intros [? ? ? ? ?]. by constructor. Qed.

Lemma lookup_worker (ws : list worker) w x w' x' : <[w := x]> ws !! w' = Some x' -> (w' = w /\ x' = x) \/ (w' <> w /\ ws !! w' = Some x').
Proof. intros E. apply list_lookup_insert_Some in E as [(-> & -> & ?)|[? ?]]; [by left|right; split; congruence]. Qed.

(** A worker goes on with its key. *)
Lemma workers_ok_keep q q' ws w x y : workers_ok q ws -> processing q' = processing q -> ws !! w = Some x ->
  holds y = holds x -> workers_ok q' (<[w := y]> ws).
Proof.
  intros [Hh Hr He] Eq Hx Hy. pose proof (lookup_lt_Some _ _ _ Hx) as Hl. constructor; rewrite ?Eq.
  - intros w' x' k Hw' Hk. apply lookup_worker in Hw' as [[-> ->]|[? Hw']]; [|by eapply Hh].
    rewrite Hy in Hk. by eapply Hh.
  - intros k Hk. destruct (Hr k Hk) as (w' & x' & Hw' & Hk'). destruct (decide (w' = w)) as [->|Hn].
    + exists w, y. split; [by apply list_lookup_insert_eq|]. congruence.
    + exists w', x'. by rewrite list_lookup_insert_ne.
  - intros w1 w2 x1 x2 k Hw1 Hw2 Hk1 Hk2.
    apply lookup_worker in Hw1 as [[-> ->]|[? Hw1]]; apply lookup_worker in Hw2 as [[-> ->]|[? Hw2]]; try done;
      rewrite ?Hy in *; by eapply He.
Qed.

(** A worker takes a key. *)
Lemma workers_ok_take q q' ws w x y k : workers_ok q ws -> processing q' = {[k]} ∪ processing q -> k ∉ processing q ->
  ws !! w = Some x -> holds x = None -> holds y = Some k -> workers_ok q' (<[w := y]> ws).
Proof.
  intros [Hh Hr He] Eq Hk Hx Hn Hy. pose proof (lookup_lt_Some _ _ _ Hx) as Hl. constructor.
  - intros w' x' k' Hw' Hk'. rewrite Eq. apply lookup_worker in Hw' as [[-> ->]|[? Hw']]; [set_solver|].
    apply elem_of_union_r. by eapply Hh.
  - intros k' Hk'. rewrite Eq in Hk'. apply elem_of_union in Hk' as [->%elem_of_singleton|Hk'].
    + exists w, y. split; [by apply list_lookup_insert_eq|done].
    + destruct (Hr k' Hk') as (w' & x' & Hw' & E'). exists w', x'. split; [|done].
      rewrite list_lookup_insert_ne; [done|]. intros ->. congruence.
  - intros w1 w2 x1 x2 k' Hw1 Hw2 Hk1 Hk2.
    apply lookup_worker in Hw1 as [[-> ->]|[? Hw1]]; apply lookup_worker in Hw2 as [[-> ->]|[? Hw2]]; try done.
    + destruct Hk. rewrite Hy in Hk1. injection Hk1 as <-. by eapply Hh.
    + destruct Hk. rewrite Hy in Hk2. injection Hk2 as <-. by eapply Hh.
    + by eapply He.
Qed.

(** A worker is done with its key. *)
Lemma workers_ok_done q q' ws w x y k : workers_ok q ws -> processing q' = processing q ∖ {[k]} ->
  ws !! w = Some x -> holds x = Some k -> holds y = None -> workers_ok q' (<[w := y]> ws).
Proof.
  intros [Hh Hr He] Eq Hx Hk Hy. constructor.
  - intros w' x' k' Hw' Hk'. rewrite Eq. apply lookup_worker in Hw' as [[-> ->]|[Hn Hw']]; [congruence|].
    apply elem_of_difference. split; [by eapply Hh|]. intros ->%elem_of_singleton. by apply Hn; eapply He.
  - intros k' Hk'. rewrite Eq in Hk'. apply elem_of_difference in Hk' as [Hk' Hne].
    destruct (Hr k' Hk') as (w' & x' & Hw' & E'). exists w', x'. split; [|done].
    rewrite list_lookup_insert_ne; [done|]. intros ->. assert (k' = k) by congruence. set_solver.
  - intros w1 w2 x1 x2 k' Hw1 Hw2 Hk1 Hk2.
    apply lookup_worker in Hw1 as [[-> ->]|[? Hw1]]; apply lookup_worker in Hw2 as [[-> ->]|[? Hw2]]; try congruence.
    by eapply He.
Qed.

(** *** What is on its way stays on its way *)

Lemma awaits_worker s q ws k w x y : awaits s k -> pending (queue s) ⊆ pending q -> workers s !! w = Some x ->
  (retries x k -> k ∈ pending q \/ retries y k) -> ws = <[w := y]> (workers s) ->
  awaits (mkDispatcher (cache s) (notices s) q ws (synced s) (deleted s)) k.
Proof.
  intros Ha Hp Hx Hy ->. pose proof (lookup_lt_Some _ _ _ Hx) as Hl. destruct Ha as [Ha|[Ha|(w' & x' & Hw' & Hr)]].
  - by left.
  - right. left. by apply Hp.
  - destruct (decide (w' = w)) as [->|Hn].
    + assert (x' = x) as -> by congruence. destruct (Hy Hr) as [|Hr']; [by right; left|].
      right. right. exists w, y. split; [by apply list_lookup_insert_eq|done].
    + right. right. exists w', x'. cbn. by rewrite list_lookup_insert_ne.
Qed.

Lemma decide_relevant s failure id v : cache s !! id = Some v -> well_named id -> relevant id v ->
  decide_key namespace (key_of id) (lister s failure) =
  match failure with None => Run v | Some e => if IsNotFound e then Drop else Retry e end.
Proof.
  intros Hc Hw [Hns Hv]. unfold decide_key. rewrite split_key by done. destruct id as [ns name]. cbn in Hns. subst ns.
  rewrite String.eqb_refl. cbn [negb]. unfold lister. destruct failure as [err|]; [done|]. rewrite Hc.
  by rewrite (proj2 (String.eqb_neq _ _) Hv).
Qed.

(** *** Preservation *)

Lemma inform_inv s id m n : dispatch_inv s ->
  (forall id' v, m !! id' = Some v -> well_named id') ->
  (forall id' v, m !! id' = Some v -> id' <> id -> cache s !! id' = Some v) ->
  (forall v, m !! id = Some v -> relevant id v -> will_enqueue n (key_of id) \/ cache s !! id = Some v) ->
  dispatch_inv (inform m n s).
Proof.
  intros I Hw Ho Hn. destruct I as [_ ? ? ? Hc]. constructor; cbn [inform cache queue workers synced notices]; try done.
  intros id' v Hv Hr.
  assert (Hold : cache s !! id' = Some v -> awaits (inform m n s) (key_of id') \/ last_synced (key_of id') (synced s) = Some v).
  { intros Hv'. destruct (Hc id' v Hv' Hr) as [[(n' & Hin & He)|Ha]|]; [left; left|left; right; exact Ha|by right].
    exists n'. split; [apply elem_of_app; by left|done]. }
  destruct (decide (id' = id)) as [->|Hne]; [|by apply Hold, Ho].
  destruct (Hn v Hv Hr) as [He|Hv']; [|by apply Hold].
  left. left. exists n. split; [apply elem_of_app; right; by apply list_elem_of_singleton|done].
Qed.

Lemma handle_inv s n rest : notices s = n :: rest -> shut (queue s) = false -> dispatch_inv s ->
  dispatch_inv (handle n (mkDispatcher (cache s) rest (queue s) (workers s) (synced s) (deleted s))).
Proof.
  intros En Hs [Hw Hh Hr He Hc]. set (s0 := mkDispatcher (cache s) rest (queue s) (workers s) (synced s) (deleted s)).
  assert (Hadd : forall id, (forall k, will_enqueue n k -> k = key_of id) -> dispatch_inv (enqueuePeerpodvolume id s0)).
  { intros id Hn. destruct (Add_spec (key_of id) (queue s) Hs) as (Ep & Eq & _).
    constructor; cbn [enqueuePeerpodvolume s0 cache queue workers synced notices]; rewrite ?Eq; try done.
    intros id' v Hv Hrel. destruct (Hc id' v Hv Hrel) as [Ha|]; [left|by right].
    destruct Ha as [(n' & Hin & Hn')|[Ha|Ha]]; [|right; left; cbn; set_solver|by right; right].
    rewrite En in Hin. apply elem_of_cons in Hin as [->|Hin]; [|left; by exists n'].
    right. left. cbn. rewrite (Hn _ Hn'). set_solver. }
  assert (Hskip : (forall k, ~ will_enqueue n k) -> forall d, dispatch_inv (mkDispatcher (cache s) rest (queue s) (workers s) (synced s) d)).
  { intros Hn d. constructor; cbn [cache queue workers synced notices]; try done.
    intros id' v Hv Hrel. destruct (Hc id' v Hv Hrel) as [Ha|]; [left|by right].
    destruct Ha as [(n' & Hin & Hn')|Ha]; [|by right]. rewrite En in Hin. apply elem_of_cons in Hin as [->|Hin]; [by destruct (Hn _ Hn')|].
    left. by exists n'. }
  destruct n as [id|id old new|v tombstone]; cbn [handle].
  - apply Hadd. by intros k <-.
  - unfold updatePeerpodvolume. destruct (String.eqb_spec (v_ResourceVersion old) (v_ResourceVersion new)) as [Er|Er].
    + apply Hskip. by intros k [_ Hne].
    + apply Hadd. by intros k [<- _].
  - unfold handleDeletedPeerpodvolume. destruct tombstone; by apply Hskip; intros k [].
Qed.

Lemma get_inv s w key q : workers s !! w = Some Idle -> q_Get (queue s) = Got key q -> shut (queue s) = false ->
  dispatch_inv s -> dispatch_inv (set_worker w (Took key) q s).
Proof.
  intros Hi Hg Hs I. pose proof (Get_spec (queue s) Hs) as Hsp. rewrite Hg in Hsp. destruct Hsp as (Hp & Hnp & Ep & Eq & _).
  pose proof (workers_ok_take _ q _ w _ (Took key) key (dispatch_workers s I) Eq Hnp Hi eq_refl eq_refl) as [Hh Hr He].
  destruct I as [Hw _ _ _ Hc]. constructor; cbn [set_worker cache queue workers synced notices]; try done.
  intros id v Hv Hrel. destruct (Hc id v Hv Hrel) as [Ha|]; [left|by right]. pose proof (lookup_lt_Some _ _ _ Hi) as Hl.
  destruct (decide (key_of id = key)) as [Ek|Hne].
  { right. right. exists w, (Took key). cbn. split; [by apply list_lookup_insert_eq|done]. }
  destruct Ha as [Ha|[Ha|(w' & x & Hw' & Hx)]]; [by left|right; left; cbn; set_solver|].
  right. right. exists w', x. cbn. rewrite list_lookup_insert_ne; [done|]. intros ->. by rewrite Hi in Hw'; injection Hw' as <-.
Qed.

Lemma read_inv s w key failure : workers s !! w = Some (Took key) -> valid_action (WorkerReads w failure) s ->
  dispatch_inv s -> dispatch_inv (worker_read w key failure s).
Proof.
  intros Hi Hval I. pose proof (dispatch_workers s I) as Hok. destruct I as [Hw _ _ _ Hc]. pose proof (lookup_lt_Some _ _ _ Hi) as Hl.
  assert (Hkeep : forall y, holds y = Some key -> workers_ok (queue s) (<[w := y]> (workers s))) by (intros y Hy; by eapply workers_ok_keep).
  assert (Hoth : forall y k, k <> key -> awaits s k -> forall log, awaits (mkDispatcher (cache s) (notices s) (queue s) (<[w := y]> (workers s)) log (deleted s)) k).
  { intros y k Hne [Ha|[Ha|(w' & x & Hw' & Hx)]] log; [by left|by right; left|right; right]. exists w', x. cbn.
    rewrite list_lookup_insert_ne; [done|]. intros ->. rewrite Hi in Hw'. injection Hw' as <-. by apply Hne. }
  unfold worker_read. destruct (decide_key namespace key (lister s failure)) as [|err|v0] eqn:Ed;
    [destruct (Hkeep (Finishing key None) eq_refl)|destruct (Hkeep (Finishing key (Some err)) eq_refl)|destruct (Hkeep (Syncing key v0) eq_refl)].
  all: constructor; cbn [set_worker cache queue workers synced notices]; try done.
  all: intros id v Hv Hrel; destruct (decide (key_of id = key)) as [Ek|Hne].
  all: try (rewrite <- Ek, (decide_relevant s failure id v) in Ed by eauto).
  - destruct failure as [err|]; [|done]. cbn in Hval. by rewrite Hval in Ed.
  - destruct (Hc id v Hv Hrel) as [Ha|]; [left|by right]. by apply Hoth.
  - left. right. right. exists w, (Finishing key (Some err)). split; [by apply list_lookup_insert_eq|done].
  - destruct (Hc id v Hv Hrel) as [Ha|]; [left|by right]. by apply Hoth.
  - destruct failure as [err|]; [by destruct (IsNotFound err)|]. injection Ed as ->. right. cbn. by rewrite Ek, String.eqb_refl.
  - destruct (Hc id v Hv Hrel) as [Ha|Hls]; [left; by apply Hoth|right]. cbn. by rewrite (proj2 (String.eqb_neq key (key_of id)) (fun E => Hne (eq_sym E))).
Qed.

Lemma finish_inv s w key err : workers s !! w = Some (Finishing key err) -> shut (queue s) = false ->
  dispatch_inv s -> dispatch_inv (worker_finish w key err s).
Proof.
  intros Hi Hs I. pose proof (dispatch_workers s I) as Hok. destruct I as [Hw _ _ _ Hc].
  assert (Hq : exists q, worker_finish w key err s = set_worker w Idle q s /\ processing q = processing (queue s) ∖ {[key]} /\
    pending (queue s) ⊆ pending q /\ (is_Some err -> key ∈ pending q)).
  { destruct err as [e0|]; eexists; (split; [reflexivity|]).
    - destruct (AddRateLimited_spec key (queue s) Hs) as (Ep & Eq & _).
      destruct (Done_spec key (q_AddRateLimited key (queue s))) as (Ep' & Eq' & _). rewrite Ep', Eq', Ep, Eq. split_and!; set_solver.
    - destruct (Forget_spec key (queue s)) as (Ep & Eq & _). destruct (Done_spec key (q_Forget key (queue s))) as (Ep' & Eq' & _).
      rewrite Ep', Eq', Ep, Eq. split_and!; [done|done|by intros []]. }
  destruct Hq as (q & -> & Eq & Hp & Hk). pose proof (workers_ok_done _ q _ w _ Idle key Hok Eq Hi eq_refl eq_refl) as [? ? ?].
  constructor; cbn [set_worker cache queue workers synced notices]; try done.
  intros id v Hv Hrel. destruct (Hc id v Hv Hrel) as [Ha|]; [left|by right].
  eapply awaits_worker; [exact Ha|exact Hp|exact Hi| |reflexivity]. destruct err as [e0|]; cbn; [intros <-; left; by apply Hk|done].
Qed.

Lemma return_inv s w key v : workers s !! w = Some (Syncing key v) -> dispatch_inv s ->
  dispatch_inv (set_worker w (Finishing key None) (queue s) s).
Proof.
  intros Hi I. pose proof (dispatch_workers s I) as Hok. destruct I as [Hw _ _ _ Hc].
  destruct (workers_ok_keep _ (queue s) _ w _ (Finishing key None) Hok eq_refl Hi eq_refl) as [? ? ?].
  constructor; cbn [set_worker cache queue workers synced notices]; try done.
  intros id v' Hv Hrel. destruct (Hc id v' Hv Hrel) as [Ha|]; [left|by right].
  by eapply awaits_worker; [exact Ha|done|exact Hi| |reflexivity].
Qed.

Lemma step_shut a s s' : dispatch_step a s = Some s' -> shut (queue s') = false -> shut (queue s) = false.
Proof.
  intros E Hs. destruct (shut (queue s)) eqn:Hsh; [|done]. exfalso. apply not_true_iff_false in Hs. apply Hs. clear Hs.
  destruct a as [id v|id v|id tb| |w|w failure|w|w|]; cbn in E.
  - destruct (cache s !! id); [done|]. by injection E as <-.
  - destruct (cache s !! id); [|done]. by injection E as <-.
  - destruct (cache s !! id); [|done]. by injection E as <-.
  - destruct (notices s) as [|n rest]; [done|]. injection E as <-. destruct n as [id|id old new|v tb]; cbn.
    + by apply shut_Add.
    + unfold updatePeerpodvolume. destruct (String.eqb _ _); [done|by apply shut_Add].
    + by destruct tb.
  - destruct (workers s !! w) as [[]|]; try done. destruct (q_Get (queue s)) eqn:Eg; try done; injection E as <-; [|done]. by eapply shut_Get.
  - destruct (workers s !! w) as [[]|]; try done. injection E as <-. unfold worker_read. by destruct (decide_key _ _ _).
  - destruct (workers s !! w) as [[]|]; try done. by injection E as <-.
  - destruct (workers s !! w) as [[| | |key err|]|]; try done. injection E as <-. unfold worker_finish. destruct err as [e0|]; cbn.
    + destruct (Done_spec key (q_AddRateLimited key (queue s))) as (_ & _ & ->). by apply shut_AddRateLimited.
    + destruct (Done_spec key (q_Forget key (queue s))) as (_ & _ & ->). by destruct (Forget_spec key (queue s)) as (_ & _ & ->).
  - injection E as <-. apply ShutDown_spec.
Qed.

Lemma step_inv a s s' : valid_action a s -> dispatch_step a s = Some s' -> shut (queue s') = false -> dispatch_inv s -> dispatch_inv s'.
Proof.
  intros Hval E Hs' I. pose proof (step_shut _ _ _ E Hs') as Hs.
  destruct a as [id v|id v|id tb| |w|w failure|w|w|]; cbn in E.
  - destruct (cache s !! id) eqn:Ec; [done|]. injection E as <-. apply (inform_inv s id); [done|..].
    + intros id' v' [[<- <-]|[? Hv']]%lookup_insert_Some; [done|by eapply inv_named].
    + intros id' v' Hv' Hne. by rewrite lookup_insert_ne in Hv'.
    + intros v' _ _. by left.
  - destruct (cache s !! id) as [old|] eqn:Ec; [|done]. injection E as <-. apply (inform_inv s id); [done|..].
    + intros id' v' [[<- <-]|[? Hv']]%lookup_insert_Some; by eapply inv_named.
    + intros id' v' Hv' Hne. by rewrite lookup_insert_ne in Hv'.
    + intros v' Hv' _. rewrite lookup_insert_eq in Hv'. injection Hv' as <-.
      destruct (decide (v_ResourceVersion old = v_ResourceVersion v)) as [Er|Er]; [right|by left].
      by rewrite (Hval old Ec Er) in Ec.
  - destruct (cache s !! id) as [old|] eqn:Ec; [|done]. injection E as <-. apply (inform_inv s id); [done|..].
    + intros id' v' [? Hv']%lookup_delete_Some. by eapply inv_named.
    + by intros id' v' [? Hv']%lookup_delete_Some Hne.
    + intros v' Hv'. by rewrite lookup_delete_eq in Hv'.
  - destruct (notices s) as [|n rest] eqn:En; [done|]. injection E as <-. by apply handle_inv.
  - destruct (workers s !! w) as [[]|] eqn:Ew; try done. pose proof (Get_spec (queue s) Hs) as Hsp.
    destruct (q_Get (queue s)) as [key q| |] eqn:Eg; try done. injection E as <-. by apply get_inv.
  - destruct (workers s !! w) as [[]|] eqn:Ew; try done. injection E as <-. by apply read_inv.
  - destruct (workers s !! w) as [[]|] eqn:Ew; try done. injection E as <-. by eapply return_inv.
  - destruct (workers s !! w) as [[]|] eqn:Ew; try done. injection E as <-. by apply finish_inv.
  - injection E as <-. cbn in Hs'. by rewrite ShutDown_spec in Hs'.
Qed.

Lemma initial_inv q n : pending q = ∅ -> processing q = ∅ -> dispatch_inv (initial q n).
Proof.
  intros Hp Hq. constructor; cbn [initial cache queue workers synced notices].
  - intros id v Hv. by rewrite lookup_empty in Hv.
  - intros w x k [-> _]%lookup_replicate Hx. done.
  - intros k Hk. rewrite Hq in Hk. set_solver.
  - by intros w1 w2 x1 x2 k [-> _]%lookup_replicate _ Hx.
  - intros id v Hv. by rewrite lookup_empty in Hv.
Qed.

Lemma steps_inv s acts s' : steps s acts s' -> shut (queue s') = false -> dispatch_inv s -> dispatch_inv s'.
Proof.
  intros R. induction R as [|acts a s1 s2 R IH Hv E]; [done|]. intros Hs I. eapply step_inv; [done..|].
  apply IH; [by eapply step_shut|done].
Qed.

(** *** Progress *)

Local Open Scope nat_scope.

Definition alive (s : dispatcher) : Prop := Forall (fun x => x <> Ended) (workers s).

Lemma step_alive a s s' : dispatch_step a s = Some s' -> shut (queue s') = false -> alive s ->
  alive s' /\ length (workers s') = length (workers s).
Proof.
  intros E Hs' A. pose proof (step_shut _ _ _ E Hs') as Hs. unfold alive in *.
  destruct a as [id v|id v|id tb| |w|w failure|w|w|]; cbn in E.
  - destruct (cache s !! id); [done|]. by injection E as <-.
  - destruct (cache s !! id); [|done]. by injection E as <-.
  - destruct (cache s !! id); [|done]. by injection E as <-.
  - destruct (notices s) as [|n rest]; [done|]. injection E as <-. destruct n as [id|id old new|v tb]; cbn; [done| |by destruct tb].
    unfold updatePeerpodvolume. by destruct (String.eqb _ _).
  - destruct (workers s !! w) as [[]|] eqn:Ew; try done. pose proof (Get_spec (queue s) Hs) as Hsp.
    destruct (q_Get (queue s)) as [key q| |] eqn:Eg; try done. injection E as <-. cbn. rewrite length_insert. split; [by apply Forall_insert|done].
  - destruct (workers s !! w) as [[]|] eqn:Ew; try done. injection E as <-. unfold worker_read.
    destruct (decide_key _ _ _); cbn; rewrite length_insert; (split; [by apply Forall_insert|done]).
  - destruct (workers s !! w) as [[]|] eqn:Ew; try done. injection E as <-. cbn. rewrite length_insert. split; [by apply Forall_insert|done].
  - destruct (workers s !! w) as [[]|] eqn:Ew; try done. injection E as <-. unfold worker_finish.
    destruct err; cbn; rewrite length_insert; (split; [by apply Forall_insert|done]).
  - by injection E as <-.
Qed.

Lemma steps_alive s acts s' : steps s acts s' -> shut (queue s') = false -> alive s ->
  alive s' /\ length (workers s') = length (workers s).
Proof.
  intros R. induction R as [|acts a s1 s2 R IH Hv E]; [done|]. intros Hs A.
  destruct (IH (step_shut _ _ _ E Hs) A) as [A1 L1]. destruct (step_alive _ _ _ E Hs A1) as [A2 L2]. split; [done|congruence].
Qed.

(** The actions of the controller itself, while the lister works. *)
Definition internal_action (a : action) : Prop :=
  match a with HandlerRuns | WorkerGets _ | WorkerReads _ None | WorkerReturns _ | WorkerFinishes _ => True | _ => False end.

Definition worker_weight (x : worker) : nat :=
  match x with Took _ => 3 | Syncing _ _ => 2 | Finishing _ None => 1 | Finishing _ (Some _) => 5 | Idle | Ended => 0 end.

Definition work_left (s : dispatcher) : nat :=
  5 * length (notices s) + 4 * load (queue s) + sum_list_with worker_weight (workers s).

Lemma sum_worker (ws : list worker) w x y : ws !! w = Some x ->
  sum_list_with worker_weight (<[w := y]> ws) + worker_weight x = sum_list_with worker_weight ws + worker_weight y.
Proof.
  revert w. induction ws as [|z ws IH]; intros [|w]; cbn; try done.
  - intros [= ->]. lia.
  - intros Hw. specialize (IH w Hw). unfold insert in *. lia.
Qed.

Lemma decide_no_retry s key err : decide_key namespace key (lister s None) <> Retry err.
Proof.
  unfold decide_key. destruct (SplitMetaNamespaceKey key) as [[ns name]|]; [|done]. destruct (negb _); [done|].
  unfold lister. destruct (cache s !! (namespace, name)) as [v|]; [by destruct (String.eqb _ _)|done].
Qed.

Lemma dispatch_decreases a s s' : internal_action a -> shut (queue s) = false -> dispatch_step a s = Some s' -> work_left s' < work_left s.
Proof.
  intros Ha Hs E. unfold work_left. destruct a as [id v|id v|id tb| |w|w [e0|]|w|w|]; cbn in Ha; try done; cbn in E.
  - destruct (notices s) as [|n rest] eqn:En; [done|]. injection E as <-. cbn [length].
    assert (Hadd : forall id, 5 * length rest + 4 * load (q_Add (key_of id) (queue s)) + sum_list_with worker_weight (workers s) <
      5 * S (length rest) + 4 * load (queue s) + sum_list_with worker_weight (workers s)).
    { intros id. pose proof (load_Add (key_of id) (queue s) Hs). lia. }
    destruct n as [id|id old new|v tb]; cbn -[Nat.mul]; [apply Hadd| |destruct tb; cbn -[Nat.mul]; lia].
    unfold updatePeerpodvolume. destruct (String.eqb _ _); cbn -[Nat.mul]; [lia|apply Hadd].
  - destruct (workers s !! w) as [[]|] eqn:Ew; try done. pose proof (Get_spec (queue s) Hs) as Hsp.
    destruct (q_Get (queue s)) as [key q| |] eqn:Eg; try done. injection E as <-. cbn -[Nat.mul]. destruct Hsp as (_ & _ & _ & _ & _ & Hlt).
    pose proof (sum_worker _ w _ (Took key) Ew) as Hsum. cbn in Hsum. lia.
  - destruct (workers s !! w) as [[]|] eqn:Ew; try done. injection E as <-. unfold worker_read.
    destruct (decide_key namespace key (lister s None)) as [|err|v0] eqn:Ed; [|by apply decide_no_retry in Ed|]; cbn -[Nat.mul].
    + pose proof (sum_worker _ w _ (Finishing key None) Ew) as Hsum. cbn in Hsum. lia.
    + pose proof (sum_worker _ w _ (Syncing key v0) Ew) as Hsum. cbn in Hsum. lia.
  - destruct (workers s !! w) as [[]|] eqn:Ew; try done. injection E as <-. cbn -[Nat.mul].
    pose proof (sum_worker _ w _ (Finishing key None) Ew) as Hsum. cbn in Hsum. lia.
  - destruct (workers s !! w) as [[]|] eqn:Ew; try done. injection E as <-. pose proof (sum_worker _ w _ Idle Ew) as Hsum.
    unfold worker_finish. destruct err as [e0|]; cbn -[Nat.mul] in *.
    + rewrite load_Done. pose proof (load_AddRateLimited key (queue s) Hs). lia.
    + rewrite load_Done, load_Forget. lia.
Qed.

Lemma stuck_settled s : dispatch_inv s -> alive s -> workers s <> [] -> shut (queue s) = false ->
  (forall a, internal_action a -> dispatch_step a s = None) ->
  forall id v, cache s !! id = Some v -> relevant id v -> last_synced (key_of id) (synced s) = Some v.
Proof.
  intros I A Hne Hs Hstuck id v Hv Hrel. destruct (inv_covered s I id v Hv Hrel) as [Ha|]; [exfalso|done].
  assert (Hidle : forall w x, workers s !! w = Some x -> x = Idle).
  { intros w x Hw. destruct x as [|key|key v'|key err|]; [done|..].
    - specialize (Hstuck (WorkerReads w None) Logic.I). cbn in Hstuck. by rewrite Hw in Hstuck.
    - specialize (Hstuck (WorkerReturns w) Logic.I). cbn in Hstuck. by rewrite Hw in Hstuck.
    - specialize (Hstuck (WorkerFinishes w) Logic.I). cbn in Hstuck. by rewrite Hw in Hstuck.
    - by eapply Forall_lookup_1 in Hw; [|exact A]. }
  destruct Ha as [(n & Hin & _)|[Ha|(w & x & Hw & Hx)]].
  - specialize (Hstuck HandlerRuns Logic.I). cbn in Hstuck. destruct (notices s); [by apply not_elem_of_nil in Hin|done].
  - assert (Hproc : processing (queue s) = ∅).
    { apply set_eq. intros k. split; [|set_solver]. intros Hk. destruct (inv_holder s I k Hk) as (w & x & Hw & Hx).
      by rewrite (Hidle w x Hw) in Hx. }
    destruct (workers s) as [|x0 ws] eqn:Ews; [done|]. assert (x0 = Idle) as -> by by apply (Hidle 0).
    specialize (Hstuck (WorkerGets 0) Logic.I). cbn in Hstuck. rewrite Ews in Hstuck. cbn in Hstuck.
    pose proof (Get_spec (queue s) Hs) as Hsp. destruct (q_Get (queue s)); try done. set_solver.
  - by rewrite (Hidle w x Hw) in Hx.
Qed.

(** ** Theorems *)

(** *** Deletions *)

Lemma steps_det s acts s1 s2 : steps s acts s1 -> steps s acts s2 -> s1 = s2.
Proof.
  intros R1. revert s2. induction R1 as [|acts a s1 s1' R1 IH _ E]; intros s2 R2.
  - inversion R2 as [|acts a s3 s4 R3 _ E Ee]; [done|]. by destruct acts.
  - inversion R2 as [Ee|acts' a' s3 s4 R3 _ E' Ee]; [by destruct acts|]. apply app_inj_tail in Ee as [-> ->]. subst s4.
    rewrite (IH _ R3) in E. congruence.
Qed.

(** A deletion that is reported with the object is passed on. *)
Definition told (v : PeerpodVolume) (s : dispatcher) : Prop := OnDelete v false ∈ notices s \/ v ∈ deleted s.

Lemma told_step a s s' v : dispatch_step a s = Some s' -> told v s -> told v s'.
Proof.
  unfold told. intros E T. destruct a as [id u|id u|id tb| |w|w failure|w|w|]; cbn in E.
  - destruct (cache s !! id); [done|]. injection E as <-. cbn. set_solver.
  - destruct (cache s !! id); [|done]. injection E as <-. cbn. set_solver.
  - destruct (cache s !! id); [|done]. injection E as <-. cbn. set_solver.
  - destruct (notices s) as [|n rest]; [done|]. injection E as <-. rewrite elem_of_cons in T.
    destruct n as [id|id old new|u tb]; cbn.
    + destruct T as [[|T]|T]; [done|by left|by right].
    + unfold updatePeerpodvolume. destruct T as [[|T]|T]; [done|left|right]; by destruct (String.eqb _ _).
    + unfold handleDeletedPeerpodvolume. destruct T as [[[= <- <-]|T]|T]; [right; by left|left; by destruct tb|right].
      destruct tb; [done|by right].
  - destruct (workers s !! w) as [[]|]; try done. destruct (q_Get (queue s)); try done; by injection E as <-.
  - destruct (workers s !! w) as [[]|]; try done. injection E as <-. unfold worker_read. by destruct (decide_key _ _ _).
  - destruct (workers s !! w) as [[]|]; try done. by injection E as <-.
  - destruct (workers s !! w) as [[| | |key err|]|]; try done. injection E as <-. unfold worker_finish. by destruct err.
  - by injection E as <-.
Qed.

Lemma steps_deletion s acts1 id acts2 s1 s' v : steps s acts1 s1 -> cache s1 !! id = Some v ->
  steps s (acts1 ++ InformerDeletes id false :: acts2) s' -> told v s'.
Proof.
  intros R1 Hv R. revert s' R. induction acts2 as [|a acts2 IH] using rev_ind; intros s' R.
  - inversion R as [Ee|acts a s2 s3 R2 _ E Ee Hs]; [by apply app_cons_not_nil in Ee|]. apply app_inj_tail in Ee as [-> ->]. subst s3.
    rewrite (steps_det _ _ _ _ R1 R2) in Hv. cbn in E. rewrite Hv in E. injection E as <-. left. cbn. set_solver.
  - rewrite app_comm_cons, app_assoc in R. inversion R as [Ee|acts b s2 s3 R2 _ E Ee Hs]; [by apply app_cons_not_nil in Ee|].
    apply app_inj_tail in Ee as [-> ->]. subst s3. by eapply told_step, IH.
Qed.

(** C14: No change of a volume that is there is missed: as long as the controller is not
    stopped, every object of the cache that is of the controller's namespace and has a
    volume id is either on its way to the handler or the handler was last called with it
    as it is now; the handler never runs twice at a time for one volume; and a deletion
    that the informer reports with the object, not with a tombstone, was passed to the
    delete handler or is among the notices it has still to be given. *)
Theorem dispatch_complete q threadiness acts s :
  pending q = ∅ -> processing q = ∅ ->
  steps (initial q threadiness) acts s -> shut (queue s) = false ->
  (forall id v, cache s !! id = Some v -> fst id = namespace -> VolumeID (v_Spec v) <> ""%string ->
     awaits s (key_of id) \/ last_synced (key_of id) (synced s) = Some v) /\
  (forall w1 w2 k v1 v2, workers s !! w1 = Some (Syncing k v1) -> workers s !! w2 = Some (Syncing k v2) -> w1 = w2) /\
  (forall acts1 id acts2 s1 v, acts = acts1 ++ InformerDeletes id false :: acts2 ->
     steps (initial q threadiness) acts1 s1 -> cache s1 !! id = Some v ->
     OnDelete v false ∈ notices s \/ v ∈ deleted s).
Proof.
  intros Hp Hq R Hs. pose proof (steps_inv _ _ _ R Hs (initial_inv q threadiness Hp Hq)) as [_ _ _ He Hc].
  split_and!; [intros id v Hv ? ?; by apply Hc|intros w1 w2 k v1 v2 H1' H2'; by eapply He|].
  intros acts1 id acts2 s1 v -> R1 Hv. by eapply steps_deletion.
Qed.

(** C12: When the informer is quiet and the lister works, the controller comes to rest after a
    bounded number of its own actions, in any order, and then the handler was last called
    with every volume of the namespace as it is. *)
Theorem dispatch_settles q threadiness acts s later s' :
  pending q = ∅ -> processing q = ∅ -> 0 < threadiness ->
  steps (initial q threadiness) acts s -> steps s later s' -> shut (queue s') = false -> Forall internal_action later ->
  length later <= work_left s /\
  ((forall a, internal_action a -> dispatch_step a s' = None) ->
   forall id v, cache s' !! id = Some v -> fst id = namespace -> VolumeID (v_Spec v) <> ""%string ->
     last_synced (key_of id) (synced s') = Some v).
Proof.
  intros Hp Hq Hn R R' Hs' Hint. split.
  - assert (Hb : length later + work_left s' <= work_left s); [|lia].
    induction R' as [|later a s1 s2 R' IH Hv E]; [cbn; lia|]. apply Forall_app in Hint as [Hl Ha]. apply Forall_cons_1 in Ha as [Ha _].
    pose proof (step_shut _ _ _ E Hs') as Hs1. specialize (IH Hs1 Hl). pose proof (dispatch_decreases _ _ _ Ha Hs1 E).
    rewrite length_app. cbn [length]. lia.
  - intros Hstuck id v Hv Hns Hvol.
    assert (Hs : shut (queue s) = false).
    { clear - R' Hs'. induction R' as [|later a s1 s2 R' IH Hv E]; [done|]. apply IH. by eapply step_shut. }
    assert (A0 : alive (initial q threadiness)) by (apply Forall_replicate; done).
    pose proof (steps_inv _ _ _ R' Hs' (steps_inv _ _ _ R Hs (initial_inv q threadiness Hp Hq))) as I.
    destruct (steps_alive _ _ _ R Hs A0) as [A1 L1]. destruct (steps_alive _ _ _ R' Hs' A1) as [A2 L2].
    apply (stuck_settled s'); try done. intros Hnil. rewrite Hnil in L2. cbn in L1. rewrite length_replicate in L1. cbn in L2. lia.
Qed.

End Dispatch.

(** The decision is that of [syncHandler]. *)
Lemma syncHandler_decides `{CsiEnv W} ns key lst (f : PeerpodVolume -> M (wrapper W) unit) :
  syncHandler ns key lst f =
  match decide_key ns key lst with
  | Drop => mret None
  | Retry e => mret (Some e)
  | Run v => mbind (f v) (fun _ => mret None)
  end.
Proof.
  unfold syncHandler, decide_key. destruct (SplitMetaNamespaceKey key) as [[namespace name]|]; [|done].
  destruct (negb _); [done|]. destruct (lst name) as [v|e0]; [by destruct (String.eqb _ _)|by destruct (IsNotFound e0)].
Qed.

(** ** A queue *)

(** The items in order; a key that is put back for later is one more item, also when it
    is there already. *)
Record fifo := mkFifo { fifo_items : list string; fifo_busy : gset string; fifo_closed : bool }.

Fixpoint without_first (k : string) (l : list string) : list string :=
  match l with [] => [] | x :: l => if String.eqb x k then l else x :: without_first k l end.

Definition fifo_get (q : fifo) : got fifo :=
  match List.find (fun k => negb (bool_decide (k ∈ fifo_busy q))) (fifo_items q) with
  | Some k => Got k (mkFifo (without_first k (fifo_items q)) ({[k]} ∪ fifo_busy q) (fifo_closed q))
  | None => if fifo_closed q then Quit else Empty
  end.

Definition fifo_later (k : string) (q : fifo) : fifo :=
  if fifo_closed q then q else mkFifo (fifo_items q ++ [k]) (fifo_busy q) false.

Definition fifo_add (k : string) (q : fifo) : fifo :=
  if bool_decide (k ∈ fifo_items q) then q else fifo_later k q.

Lemma without_first_elem k l x : (x ∈ without_first k l -> x ∈ l) /\ (x ∈ l -> x <> k -> x ∈ without_first k l).
Proof.
  induction l as [|y l IH]; cbn; [done|]. destruct (String.eqb_spec y k) as [->|]; set_solver.
Qed.

Lemma without_first_length k l : k ∈ l -> (length (without_first k l) < length l)%nat.
Proof.
  induction l as [|y l IH]; intros Hk; [by apply not_elem_of_nil in Hk|]. cbn. destruct (String.eqb_spec y k) as [->|Hne]; [lia|].
  apply elem_of_cons in Hk as [->|Hk]; [done|]. cbn. specialize (IH Hk). lia.
Qed.

#[export, refine] Instance fifo_queue : WorkQueue fifo := {
  pending q := list_to_set (fifo_items q);
  processing := fifo_busy;
  shut := fifo_closed;
  load q := length (fifo_items q);
  q_Add := fifo_add;
  q_AddRateLimited := fifo_later;
  q_Forget _ q := q;
  q_Done k q := mkFifo (fifo_items q) (fifo_busy q ∖ {[k]}) (fifo_closed q);
  q_Get := fifo_get;
  q_ShutDown q := mkFifo (fifo_items q) (fifo_busy q) true
}.
Proof.
  - intros k q Hs. unfold fifo_add, fifo_later. case_bool_decide; rewrite ?Hs; cbn; split_and!; try done; rewrite ?list_to_set_app_L; cbn; set_solver.
  - intros k q Hs. unfold fifo_later. rewrite Hs. cbn. split_and!; [|done..]. rewrite list_to_set_app_L. cbn. set_solver.
  - done.
  - done.
  - intros q Hs. unfold fifo_get. destruct (List.find _ _) as [k|] eqn:E.
    + apply find_some in E as [Hin Hb]. apply negb_true_iff, bool_decide_eq_false in Hb. apply list_elem_of_In in Hin.
      cbn. split_and!; [by apply elem_of_list_to_set|done| | |done|done|by apply without_first_length].
      * intros x. rewrite elem_of_difference, elem_of_singleton, !elem_of_list_to_set. intros [? ?]. by apply without_first_elem.
      * intros x. rewrite !elem_of_list_to_set. apply without_first_elem.
    + rewrite Hs. intros k Hk. apply elem_of_list_to_set, list_elem_of_In in Hk. pose proof (find_none _ _ E k Hk) as Hb.
      by apply negb_false_iff, bool_decide_eq_true in Hb.
  - intros k q Hs. unfold fifo_add, fifo_later. rewrite Hs. case_bool_decide; cbn; rewrite ?length_app; cbn; lia.
  - intros k q Hs. unfold fifo_later. rewrite Hs. cbn. rewrite length_app. cbn. lia.
  - done.
  - done.
  - done.
  - intros k q Hs. unfold fifo_add, fifo_later. rewrite Hs. by case_bool_decide.
  - intros k q Hs. unfold fifo_later. by rewrite Hs.
  - intros q k q' Hs. unfold fifo_get. destruct (List.find _ _); [intros [= _ <-]; done|]. by rewrite Hs.
Defined.

(** ** Witnesses *)

Definition valid_check (a : action) (s : @dispatcher fifo) : bool :=
  match a with
  | InformerAdds id _ => negb (String.eqb (fst id) "") && negb (contains_byte "/" (fst id)) && negb (contains_byte "/" (snd id))
  | InformerUpdates id v => match cache s !! id with Some old => negb (String.eqb (v_ResourceVersion old) (v_ResourceVersion v)) | None => true end
  | WorkerReads _ (Some e) => negb (IsNotFound e)
  | _ => true
  end.

Lemma valid_check_sound a (s : @dispatcher fifo) : valid_check a s = true -> valid_action a s.
Proof.
  destruct a as [id v|id v|id tb| |w|w [err|]|w|w|]; cbn; try done.
  - rewrite !andb_true_iff, !negb_true_iff. intros [[Hn H1'] H2']. by apply String.eqb_neq in Hn.
  - intros Hc old Ho Er. rewrite Ho in Hc. apply negb_true_iff, String.eqb_neq in Hc. done.
  - by rewrite negb_true_iff.
Qed.

Fixpoint run_actions (ns : string) (acts : list action) (s : @dispatcher fifo) : option (@dispatcher fifo) :=
  match acts with
  | [] => Some s
  | a :: acts => if valid_check a s then match dispatch_step ns a s with Some s' => run_actions ns acts s' | None => None end else None
  end.

Lemma steps_cons ns (s s1 s2 : @dispatcher fifo) a acts : valid_action a s -> dispatch_step ns a s = Some s1 ->
  steps ns s1 acts s2 -> steps ns s (a :: acts) s2.
Proof.
  intros Hv E R. induction R as [|acts b s2 s3 R IH Hb Eb]; [by apply (steps_snoc _ _ [] a s); [constructor|..]|].
  by apply (steps_snoc _ _ (a :: acts) b s2).
Qed.

Lemma run_actions_steps ns acts : forall (s s' : @dispatcher fifo), run_actions ns acts s = Some s' -> steps ns s acts s'.
Proof.
  induction acts as [|a acts IH]; intros s s' E; cbn in E; [injection E as <-; constructor|].
  destruct (valid_check a s) eqn:Ev; [|done]. destruct (dispatch_step ns a s) as [s1|] eqn:Es; [|done].
  eapply steps_cons; [by apply valid_check_sound|exact Es|by apply IH].
Qed.

Definition volume_at (version : string) : PeerpodVolume :=
  mkVolume "vol-1" None (mkVolumeSpec "" "" "" "" "" "vol-1" "" "" "" "" "" "" "" "" "" "" "" "") "" version.

(** The volume changes while a worker reads it, and the lister fails once. *)
Definition busy_run : list action :=
  [InformerAdds ("default", "vol-1")%string (volume_at "1"); HandlerRuns; WorkerGets 0; WorkerReads 0 None;
   InformerUpdates ("default", "vol-1")%string (volume_at "2"); HandlerRuns; WorkerReturns 0; WorkerFinishes 0; WorkerGets 1;
   WorkerReads 1 (Some (Sentinel "timeout"%string))].

Definition rest_run : list action :=
  [WorkerFinishes 1; WorkerGets 0; WorkerReads 0 None; WorkerReturns 0; WorkerFinishes 0].

Definition fresh_fifo : fifo := mkFifo [] ∅ false.

Definition busy_state : @dispatcher fifo := match run_actions "default" busy_run (initial fresh_fifo 2) with Some s => s | None => initial fresh_fifo 2 end.
Definition rest_state : @dispatcher fifo := match run_actions "default" rest_run busy_state with Some s => s | None => initial fresh_fifo 2 end.

Lemma dispatch_complete_witness :
  awaits rest_state "default/vol-1" \/ last_synced "default/vol-1" (synced rest_state) = Some (volume_at "2").
Proof.
  assert (R : steps "default" (initial fresh_fifo 2) (busy_run ++ rest_run) rest_state) by (apply run_actions_steps; by vm_compute).
  apply (proj1 (dispatch_complete "default" fresh_fifo 2 _ rest_state ltac:(done) ltac:(done) R ltac:(done)) ("default", "vol-1")%string (volume_at "2"));
    by vm_compute.
Defined.

Lemma dispatch_settles_witness :
  (length rest_run <= work_left busy_state)%nat /\ last_synced "default/vol-1" (synced rest_state) = Some (volume_at "2").
Proof.
  assert (R : steps "default" (initial fresh_fifo 2) busy_run busy_state) by (apply run_actions_steps; by vm_compute).
  assert (R' : steps "default" busy_state rest_run rest_state) by (apply run_actions_steps; by vm_compute).
  destruct (dispatch_settles "default" fresh_fifo 2 busy_run busy_state rest_run rest_state ltac:(done) ltac:(done) ltac:(lia) R R' ltac:(done)
    ltac:(repeat constructor)) as [Hb Hset].
  split; [exact Hb|]. apply (Hset) with (id := ("default", "vol-1")%string); [|by vm_compute..].
  intros a Ha. destruct a as [| | | |w|w [|]|w|w|]; try done; cbn; by destruct w as [|[|w]].
Defined.

Definition final_deleted (acts : list action) : option (list PeerpodVolume) :=
  deleted <$> run_actions "default" acts (initial fresh_fifo 1).

(** The delete handler is called for volumes of other namespaces too, and it is not
    called for a volume of this one whose deletion is reported by a tombstone. *)
Example deletions_by_namespace :
  final_deleted [InformerAdds ("other", "vol-1")%string (volume_at "1"); InformerDeletes ("other", "vol-1")%string false; HandlerRuns; HandlerRuns]
    = Some [volume_at "1"] /\
  final_deleted [InformerAdds ("default", "vol-1")%string (volume_at "1"); InformerDeletes ("default", "vol-1")%string true; HandlerRuns; HandlerRuns]
    = Some [].
Proof. split; by vm_compute. Qed.
