(* ===== verification/SshTunnel.v ===== *)
(** * The data path of a tunnel

    Models [NewInboundInstance] and [Outbound.accept] of
    src/cloud-api-adaptor/pkg/securecomms/sshproxy/sshproxy.go: between a TCP connection
    and a channel of the SSH connection two goroutines copy bytes, one in each direction,
    and a third one serves the requests on the channel.  They run at the same time; a
    [tunnel_event] is what one of them, or one of the two remote ends, does next.

    The two ends differ in what [Close] does.  A closed TCP connection fails its reads and
    writes at once.  [Close] of an SSH channel only sends a message: writes fail from then
    on, but a read goes on until the remote's library has answered with its own close
    message, and a write waits while the window is empty.  Writes to either end wait for
    the remote to take bytes. *)

From Stdlib Require Import ZArith Lia.
From stdpp Require Import base list.
From S2P Require Import Prelude.

Local Open Scope nat_scope.

(** ** State *)

(** One end of the tunnel as the process sees it: bytes that can be read, whether the
    remote side has finished sending, bytes written, whether the process closed it, how
    many more bytes the remote side takes, and, for the channel, whether its close message
    came.  [arrived] is everything the remote side sent. *)
Record pipe_end := mkEnd {
  pe_input : list Z;
  pe_ended : bool;
  pe_output : list Z;
  pe_closed : bool;
  pe_room : nat;
  pe_gone : bool;
  pe_arrived : list Z
}.

(** The TCP connection and the SSH channel. *)
Inductive side := Tcp | Chan.
Definition other (d : side) : side := match d with Tcp => Chan | Chan => Tcp end.

#[export] Instance side_eq_dec : EqDecision side.
Proof. solve_decision. Defined.

(** A goroutine in [io.Copy], with the bytes it has read and not written; then it closes
    its destination and its source. *)
Inductive copier := Copying (buf : list Z) | ClosingDst | ClosingSrc | CopyDone.

(** The goroutine for the requests on the channel. *)
Inductive requests_phase := Serving | ReqClosingTcp | ReqClosingChan | ReqDone.

Record ssh_tunnel := mkTunnel {
  tcp_end : pipe_end;
  chan_end : pipe_end;
  to_tcp : copier;
  to_chan : copier;
  requests : requests_phase;
  refused_requests : nat
}.

Definition end_of (t : ssh_tunnel) (d : side) : pipe_end := match d with Tcp => tcp_end t | Chan => chan_end t end.
Definition copier_to (t : ssh_tunnel) (d : side) : copier := match d with Tcp => to_tcp t | Chan => to_chan t end.

(** The window of the channel and the buffer of the connection are what they are. *)
Definition fresh_end (room : nat) : pipe_end := mkEnd [] false [] false room false [].
Definition fresh_tunnel (buffer window : nat) : ssh_tunnel :=
  mkTunnel (fresh_end buffer) (fresh_end window) (Copying []) (Copying []) Serving 0.

Inductive tunnel_start :=
| Started (t : ssh_tunnel)
| Abandoned (tcp_open chan_open : bool).

(** A failed [OpenChannel] leaves the TCP connection open; a failed [Dial] closes the
    channel. *)
Definition NewInboundInstance (opened : bool) (buffer window : nat) : tunnel_start :=
  if opened then Started (fresh_tunnel buffer window) else Abandoned true false.
Definition outbound_accept (dialled : bool) (buffer window : nat) : tunnel_start :=
  if dialled then Started (fresh_tunnel buffer window) else Abandoned false false.

(** ** Steps *)

Inductive tunnel_event :=
(** the remote ends *)
| RemoteSends (d : side) (bytes : list Z)
| RemoteEnds (d : side)
| IoFails (d : side)
| ChannelRequest (want_reply : bool)
| PeerIsDone
(** the remote's TCP stack or SSH library: it takes bytes; its close message comes, of its
    own accord or as the answer to one *)
| RemoteTakes (d : side) (bytes : nat)
| RemoteCloses
(** the goroutines *)
| CopierMoves (d : side) (n : nat)
| RequestsMove.

Definition set_end (d : side) (e : pipe_end) (t : ssh_tunnel) : ssh_tunnel :=
  match d with
  | Tcp => mkTunnel e (chan_end t) (to_tcp t) (to_chan t) (requests t) (refused_requests t)
  | Chan => mkTunnel (tcp_end t) e (to_tcp t) (to_chan t) (requests t) (refused_requests t)
  end.
Definition set_copier (d : side) (c : copier) (t : ssh_tunnel) : ssh_tunnel :=
  match d with
  | Tcp => mkTunnel (tcp_end t) (chan_end t) c (to_chan t) (requests t) (refused_requests t)
  | Chan => mkTunnel (tcp_end t) (chan_end t) (to_tcp t) c (requests t) (refused_requests t)
  end.
Definition set_requests (r : requests_phase) (t : ssh_tunnel) : ssh_tunnel :=
  mkTunnel (tcp_end t) (chan_end t) (to_tcp t) (to_chan t) r (refused_requests t).

Definition close_end (d : side) (t : ssh_tunnel) : ssh_tunnel :=
  let e := end_of t d in set_end d (mkEnd (pe_input e) (pe_ended e) (pe_output e) true (pe_room e) (pe_gone e) (pe_arrived e)) t.

Definition take_input (n : nat) (e : pipe_end) : pipe_end :=
  mkEnd (drop n (pe_input e)) (pe_ended e) (pe_output e) (pe_closed e) (pe_room e) (pe_gone e) (pe_arrived e).
Definition put_output (bytes : list Z) (e : pipe_end) : pipe_end :=
  mkEnd (pe_input e) (pe_ended e) (pe_output e ++ bytes) (pe_closed e) (pe_room e - length bytes) (pe_gone e) (pe_arrived e).

(** What a read of the end does next, and a write to it. *)
Inductive io := Fails | Waits | Goes.

Definition read_of (d : side) (e : pipe_end) : io :=
  match d, pe_closed e with
  | Tcp, true => Fails
  | _, _ => match pe_input e with [] => if pe_ended e then Fails else Waits | _ => Goes end
  end.

(** The channel reserves a part of the window before it looks whether it was closed. *)
Definition write_of (d : side) (e : pipe_end) : io :=
  match d with
  | Tcp => if pe_closed e then Fails else match pe_room e with O => Waits | _ => Goes end
  | Chan => if pe_gone e then Fails else match pe_room e with O => Waits | _ => if pe_closed e then Fails else Goes end
  end.

(** The copier that writes to [d]; a read returns [n] bytes, at least one and at most
    what there is, and a write gets rid of [n], at most what there is room for.  The end of
    the source and an error both end [io.Copy]. *)
Definition copier_step (d : side) (n : nat) (t : ssh_tunnel) : option ssh_tunnel :=
  let src := end_of t (other d) in let dst := end_of t d in
  match copier_to t d with
  | Copying [] =>
      match read_of (other d) src with
      | Fails => Some (set_copier d ClosingDst t)
      | Waits => None
      | Goes => if decide (0 < n) then Some (set_copier d (Copying (take n (pe_input src))) (set_end (other d) (take_input n src) t)) else None
      end
  | Copying buf =>
      match write_of d dst with
      | Fails => Some (set_copier d ClosingDst t)
      | Waits => None
      | Goes =>
          let k := n `min` pe_room dst in
          if decide (0 < n) then Some (set_copier d (Copying (drop k buf)) (set_end d (put_output (take k buf) dst) t)) else None
      end
  | ClosingDst => Some (set_copier d ClosingSrc (close_end d t))
  | ClosingSrc => Some (set_copier d CopyDone (close_end (other d) t))
  | CopyDone => None
  end.

(** On the inbound side the goroutine for requests closes both ends when the channel or
    the peer is done; on the outbound side its loop just ends. *)
Definition requests_end (inbound : bool) (t : ssh_tunnel) : option ssh_tunnel :=
  match requests t with
  | Serving => Some (set_requests (if inbound then ReqClosingTcp else ReqDone) t)
  | _ => None
  end.

(** The library closes the Go channel of the requests when the close message came. *)
Definition requests_step (inbound : bool) (t : ssh_tunnel) : option ssh_tunnel :=
  match requests t with
  | Serving => if pe_gone (chan_end t) then requests_end inbound t else None
  | ReqClosingTcp => Some (set_requests ReqClosingChan (close_end Tcp t))
  | ReqClosingChan => Some (set_requests ReqDone (close_end Chan t))
  | ReqDone => None
  end.

(** The library answers a close message with its own, after which it writes no more. *)
Definition remote_closes (t : ssh_tunnel) : ssh_tunnel :=
  let e := chan_end t in set_end Chan (mkEnd (pe_input e) true (pe_output e) true (pe_room e) true (pe_arrived e)) t.

(** A connection that was closed takes no bytes in. *)
Definition deaf (d : side) (e : pipe_end) : bool :=
  (pe_ended e || match d with Tcp => pe_closed e | Chan => false end)%bool.

Definition tunnel_step (inbound : bool) (ev : tunnel_event) (t : ssh_tunnel) : option ssh_tunnel :=
  match ev with
  | RemoteSends d bytes =>
      let e := end_of t d in
      if deaf d e then None
      else Some (set_end d (mkEnd (pe_input e ++ bytes) false (pe_output e) (pe_closed e) (pe_room e) (pe_gone e) (pe_arrived e ++ bytes)) t)
  | RemoteEnds d =>
      let e := end_of t d in Some (set_end d (mkEnd (pe_input e) true (pe_output e) (pe_closed e) (pe_room e) (pe_gone e) (pe_arrived e)) t)
  | IoFails d => match copier_to t d with Copying _ => Some (set_copier d ClosingDst t) | _ => None end
  | ChannelRequest want_reply =>
      match requests t with
      | Serving => Some (mkTunnel (tcp_end t) (chan_end t) (to_tcp t) (to_chan t) Serving (if want_reply then S (refused_requests t) else refused_requests t))
      | _ => None
      end
  | PeerIsDone => if inbound then requests_end inbound t else None
  | RemoteTakes d bytes =>
      let e := end_of t d in
      Some (set_end d (mkEnd (pe_input e) (pe_ended e) (pe_output e) (pe_closed e) (pe_room e + bytes) (pe_gone e) (pe_arrived e)) t)
  | RemoteCloses => Some (remote_closes t)
  | CopierMoves d n => copier_step d n t
  | RequestsMove => requests_step inbound t
  end.

Inductive tunnel_reach (inbound : bool) : ssh_tunnel -> ssh_tunnel -> list tunnel_event -> Prop :=
| reach_nil t : tunnel_reach inbound t t []
| reach_cons t t1 t2 ev evs : tunnel_step inbound ev t = Some t1 -> tunnel_reach inbound t1 t2 evs -> tunnel_reach inbound t t2 (ev :: evs).

(** ** Invariant *)

(** Toward [d]: while bytes are copied, none is lost or reordered; what was written is
    always a beginning of what arrived. *)
Definition stream_ok (t : ssh_tunnel) (d : side) : Prop :=
  let src := end_of t (other d) in let dst := end_of t d in
  match copier_to t d with
  | Copying buf => pe_arrived src = pe_output dst ++ buf ++ pe_input src
  | ClosingDst => pe_output dst `prefix_of` pe_arrived src
  | ClosingSrc => pe_output dst `prefix_of` pe_arrived src /\ pe_closed dst = true
  | CopyDone => pe_output dst `prefix_of` pe_arrived src /\ pe_closed dst = true /\ pe_closed src = true
  end.

Lemma stream_prefix t d : stream_ok t d -> pe_output (end_of t d) `prefix_of` pe_arrived (end_of t (other d)).
Proof. unfold stream_ok. destruct (copier_to t d) as [buf| | |]; [intros ->; by apply prefix_app_r|done|by intros []|by intros []]. Qed.

(** Direction [d] depends on its copier, on what arrived and waits at the source, on the
    output of the destination and on both being closed. *)
Lemma stream_ok_ext t t' d : stream_ok t d -> copier_to t' d = copier_to t d ->
  pe_arrived (end_of t' (other d)) = pe_arrived (end_of t (other d)) -> pe_input (end_of t' (other d)) = pe_input (end_of t (other d)) ->
  pe_output (end_of t' d) = pe_output (end_of t d) ->
  (forall d', pe_closed (end_of t d') = true -> pe_closed (end_of t' d') = true) -> stream_ok t' d.
Proof.
  unfold stream_ok. intros Hok -> -> -> -> Hc. destruct (copier_to t d) as [buf| | |]; [done|done|..].
  - destruct Hok as [? ?]. split; [done|by apply Hc].
  - destruct Hok as (? & ? & ?). split_and!; [done|by apply Hc..].
Qed.

Lemma other_other d : other (other d) = d.
Proof. by destruct d. Qed.
Lemma other_ne d : other d <> d.
Proof. by destruct d. Qed.
Lemma side_cases (d d' : side) : d' = d \/ d' = other d.
Proof. destruct d, d'; auto. Qed.

Lemma end_of_eq d e t : end_of (set_end d e t) d = e.
Proof. by destruct d. Qed.
Lemma end_of_ne d d' e t : d' <> d -> end_of (set_end d e t) d' = end_of t d'.
Proof. by destruct d, d'. Qed.
Lemma end_of_set d d' e t : end_of (set_end d e t) d' = if decide (d' = d) then e else end_of t d'.
Proof. by destruct d, d'. Qed.
Lemma copier_eq d c t : copier_to (set_copier d c t) d = c.
Proof. by destruct d. Qed.
Lemma copier_ne d d' c t : d' <> d -> copier_to (set_copier d c t) d' = copier_to t d'.
Proof. by destruct d, d'. Qed.
Lemma end_of_set_copier d c t : end_of (set_copier d c t) = end_of t.
Proof. by destruct d. Qed.
Lemma copier_to_set_end d e t : copier_to (set_end d e t) = copier_to t.
Proof. by destruct d. Qed.
Lemma requests_set_end d e t : requests (set_end d e t) = requests t.
Proof. by destruct d. Qed.
Lemma requests_set_copier d c t : requests (set_copier d c t) = requests t.
Proof. by destruct d. Qed.

(** An end keeps its bytes and is perhaps closed. *)
Lemma stream_set_end t d d' e : stream_ok t d ->
  pe_arrived e = pe_arrived (end_of t d') -> pe_input e = pe_input (end_of t d') -> pe_output e = pe_output (end_of t d') ->
  (pe_closed (end_of t d') = true -> pe_closed e = true) -> stream_ok (set_end d' e t) d.
Proof.
  intros Hok Ha Hi Ho Hc. eapply stream_ok_ext; [exact Hok|by rewrite copier_to_set_end|rewrite ?end_of_set; case_decide; by subst..|].
  intros d''. rewrite ?end_of_set. case_decide; [by subst|done].
Qed.

Lemma stream_close t d d' : stream_ok t d -> stream_ok (close_end d' t) d.
Proof. intros Hok. by apply stream_set_end. Qed.

Lemma stream_remote_closes t d : stream_ok t d -> stream_ok (remote_closes t) d.
Proof. intros Hok. unfold remote_closes. by apply stream_set_end. Qed.

(** The copier of the other direction moves on. *)
Lemma stream_other_copier t d c : stream_ok t (other d) -> stream_ok (set_copier d c t) (other d).
Proof. intros Hok. eapply stream_ok_ext; [exact Hok|by apply copier_ne, other_ne|rewrite end_of_set_copier; done..]. Qed.

(** Giving up leaves a beginning of what arrived. *)
Lemma stream_give_up t d : stream_ok t d -> stream_ok (set_copier d ClosingDst t) d.
Proof. intros Hok. unfold stream_ok at 1. rewrite copier_eq. rewrite end_of_set_copier. by apply stream_prefix. Qed.

Lemma copier_step_ok d n t t' : copier_step d n t = Some t' -> (forall d', stream_ok t d') -> forall d', stream_ok t' d'.
Proof.
  unfold copier_step. intros E Hok. pose proof (Hok d) as Hd. pose proof (Hok (other d)) as Ho.
  assert (Hgive : t' = set_copier d ClosingDst t -> forall d', stream_ok t' d').
  { intros -> d'. destruct (side_cases d d') as [->| ->]; [by apply stream_give_up|by apply stream_other_copier]. }
  destruct (copier_to t d) as [[|b buf]| | |] eqn:Ec; [| | | |done].
  - destruct (read_of (other d) (end_of t (other d))); [injection E as <-; by apply Hgive|done|].
    destruct (decide (0 < n)); [|done]. injection E as <-. intros d'. destruct (side_cases d d') as [->| ->].
    + unfold stream_ok in *. rewrite copier_eq, Ec in *. rewrite end_of_set_copier in *. rewrite end_of_eq.
      rewrite end_of_ne by (intros Ex; by apply (other_ne d)). cbn [take_input pe_arrived pe_input]. rewrite Hd. by rewrite take_drop.
    + apply stream_other_copier. eapply stream_ok_ext; [exact Ho|by rewrite copier_to_set_end|..]; rewrite ?other_other.
      * by rewrite end_of_ne by (intros Ex; by apply (other_ne d)).
      * by rewrite end_of_ne by (intros Ex; by apply (other_ne d)).
      * by rewrite end_of_eq.
      * intros d''. rewrite ?end_of_set. case_decide; [by subst|done].
  - destruct (write_of d (end_of t d)); [injection E as <-; by apply Hgive|done|]. destruct (decide (0 < n)); [|done]. injection E as <-.
    intros d'. destruct (side_cases d d') as [->| ->].
    + unfold stream_ok in *. rewrite copier_eq, Ec in *. rewrite end_of_set_copier in *. rewrite end_of_eq.
      rewrite (end_of_ne d (other d)) by apply other_ne. cbn [put_output pe_output]. rewrite Hd, <- app_assoc. f_equal.
      by rewrite app_assoc, take_drop.
    + apply stream_other_copier. eapply stream_ok_ext; [exact Ho|by rewrite copier_to_set_end|..]; rewrite ?other_other.
      * by rewrite end_of_eq.
      * by rewrite end_of_eq.
      * by rewrite end_of_ne by apply other_ne.
      * intros d''. rewrite ?end_of_set. case_decide; [by subst|done].
  - injection E as <-. intros d'. destruct (side_cases d d') as [->| ->]; [|by apply stream_other_copier, stream_close].
    pose proof (stream_prefix _ _ (stream_close t d d Hd)) as Hp. unfold stream_ok. rewrite copier_eq. rewrite end_of_set_copier.
    split; [done|]. unfold close_end. by rewrite end_of_eq.
  - injection E as <-. intros d'. destruct (side_cases d d') as [->| ->]; [|by apply stream_other_copier, stream_close].
    pose proof (stream_prefix _ _ (stream_close t d (other d) Hd)) as Hp. unfold stream_ok in Hd |- *. rewrite copier_eq, Ec in *.
    rewrite end_of_set_copier. split_and!; [done| |].
    + unfold close_end. rewrite end_of_ne by (intros Ex; by apply (other_ne d)). apply Hd.
    + unfold close_end. by rewrite end_of_eq.
Qed.

(** Bytes that arrive go to the end of the input. *)
Lemma stream_arrive t d d' bytes : stream_ok t d' ->
  let e := end_of t d in
  stream_ok (set_end d (mkEnd (pe_input e ++ bytes) false (pe_output e) (pe_closed e) (pe_room e) (pe_gone e) (pe_arrived e ++ bytes)) t) d'.
Proof.
  intros Hd e. destruct (side_cases d d') as [->| ->].
  - eapply stream_ok_ext; [exact Hd|by rewrite copier_to_set_end|rewrite ?(end_of_ne d (other d)) by apply other_ne; done..|by rewrite end_of_eq|].
    intros d''. rewrite ?end_of_set. case_decide; [by subst|done].
  - unfold stream_ok in *. rewrite copier_to_set_end in *. rewrite other_other in *. rewrite !end_of_eq.
    rewrite !(end_of_ne d (other d)) by apply other_ne. cbn [pe_arrived pe_input pe_output pe_closed]. fold e in Hd.
    destruct (copier_to t (other d)) as [buf| | |].
    + rewrite Hd. by rewrite <- !app_assoc.
    + by apply prefix_app_r.
    + destruct Hd. split; [by apply prefix_app_r|done].
    + destruct Hd as (? & ? & ?). split_and!; [by apply prefix_app_r|done|done].
Qed.

Lemma requests_end_fields inbound t t' : requests_end inbound t = Some t' -> exists r, t' = set_requests r t.
Proof. unfold requests_end. destruct (requests t); try done. intros [= <-]. by eexists. Qed.

Lemma requests_step_fields inbound t t' : requests_step inbound t = Some t' ->
  exists r, t' = set_requests r t \/ exists d, t' = set_requests r (close_end d t).
Proof.
  unfold requests_step. destruct (requests t); try done.
  - destruct (pe_gone _); [|done]. intros [r ->]%requests_end_fields. exists r. by left.
  - intros [= <-]. eexists. right. by exists Tcp.
  - intros [= <-]. eexists. right. by exists Chan.
Qed.

Lemma tunnel_step_ok inbound ev t t' : tunnel_step inbound ev t = Some t' -> (forall d, stream_ok t d) -> forall d, stream_ok t' d.
Proof.
  intros E Hok d. assert (Hreq : forall u, (forall d, stream_ok u d) -> forall r, stream_ok (set_requests r u) d) by (intros u Hu r; apply Hu).
  destruct ev as [d' bytes|d'|d'|want| |d' k| |d' n|]; cbn in E.
  - destruct (deaf _ _); [done|]. injection E as <-. by apply stream_arrive.
  - injection E as <-. by apply stream_set_end.
  - destruct (copier_to t d') eqn:Ec; try done. injection E as <-.
    destruct (side_cases d' d) as [->| ->]; [by apply stream_give_up|by apply stream_other_copier].
  - destruct (requests t); try done. injection E as <-. apply Hok.
  - destruct inbound; [|done]. apply requests_end_fields in E as [r ->]. by apply Hreq.
  - injection E as <-. by apply stream_set_end.
  - injection E as <-. exact (stream_remote_closes t d (Hok d)).
  - by eapply copier_step_ok.
  - apply requests_step_fields in E as (r & [->|[d' ->]]); apply Hreq; [done|]. intros d''. by apply stream_close.
Qed.

Lemma reach_ok inbound t t' evs : tunnel_reach inbound t t' evs -> (forall d, stream_ok t d) -> forall d, stream_ok t' d.
Proof. intros R. induction R as [|t t1 t2 ev evs E R IH]; [done|]. intros Hok. apply IH. by eapply tunnel_step_ok. Qed.

Lemma fresh_ok b w d : stream_ok (fresh_tunnel b w) d.
Proof. by destruct d. Qed.

(** The close message is the last the remote sends. *)
Definition gone_ok (t : ssh_tunnel) : Prop := pe_gone (chan_end t) = true -> pe_ended (chan_end t) = true.

Lemma gone_set_end t d e : gone_ok t -> (pe_gone e = true -> pe_ended e = true) -> gone_ok (set_end d e t).
Proof. destruct d; unfold gone_ok; cbn; auto. Qed.

Lemma gone_end t d : gone_ok t -> d = Chan -> pe_gone (end_of t d) = true -> pe_ended (end_of t d) = true.
Proof. intros Hg ->. exact Hg. Qed.

Lemma gone_keep t d e : gone_ok t -> pe_gone e = pe_gone (end_of t d) -> pe_ended e = pe_ended (end_of t d) -> gone_ok (set_end d e t).
Proof. destruct d; unfold gone_ok; cbn; [done|]. by intros Hg -> ->. Qed.

Lemma gone_copier t d c : gone_ok t -> gone_ok (set_copier d c t).
Proof. by destruct d. Qed.

Lemma copier_step_gone d n t t' : copier_step d n t = Some t' -> gone_ok t -> gone_ok t'.
Proof.
  unfold copier_step. intros E Hg. destruct (copier_to t d) as [[|b buf]| | |]; [| | | |done].
  - destruct (read_of _ _); [injection E as <-; by apply gone_copier|done|]. destruct (decide (0 < n)); [|done]. injection E as <-.
    by apply gone_copier, gone_keep.
  - destruct (write_of _ _); [injection E as <-; by apply gone_copier|done|]. destruct (decide (0 < n)); [|done]. injection E as <-.
    by apply gone_copier, gone_keep.
  - injection E as <-. by apply gone_copier, gone_keep.
  - injection E as <-. by apply gone_copier, gone_keep.
Qed.

Lemma tunnel_step_gone inbound ev t t' : tunnel_step inbound ev t = Some t' -> gone_ok t -> gone_ok t'.
Proof.
  intros E Hg. destruct ev as [d bytes|d|d|want| |d k| |d n|]; cbn in E.
  - destruct (deaf d (end_of t d)) eqn:Ed; [done|]. injection E as <-. apply orb_false_iff in Ed as [Ed _].
    apply gone_keep; [done|done|]. by rewrite Ed.
  - injection E as <-. by apply gone_set_end.
  - destruct (copier_to t d); try done. injection E as <-. by apply gone_copier.
  - destruct (requests t); try done. by injection E as <-.
  - destruct inbound; [|done]. by apply requests_end_fields in E as [r ->].
  - injection E as <-. by apply gone_keep.
  - injection E as <-. by apply (gone_set_end t Chan).
  - by eapply copier_step_gone.
  - apply requests_step_fields in E as (r & [->|[d ->]]); [done|]. change (gone_ok (close_end d t)). by apply gone_keep.
Qed.

Lemma reach_gone inbound t t' evs : tunnel_reach inbound t t' evs -> gone_ok t -> gone_ok t'.
Proof. intros R. induction R as [|t t1 t2 ev evs E R IH]; [done|]. intros Hg. apply IH. by eapply tunnel_step_gone. Qed.

(** ** Progress *)

Definition tunnel_internal (ev : tunnel_event) : bool := match ev with CopierMoves _ _ | RequestsMove => true | _ => false end.

(** What the remote's TCP stack and SSH library do of their own. *)
Definition remote_library (ev : tunnel_event) : bool := match ev with RemoteTakes _ _ | RemoteCloses => true | _ => false end.

(** The remote owes nothing: its close message came if the channel was closed, and it
    takes bytes at the ends that are open. *)
Definition remote_answered (t : ssh_tunnel) : Prop :=
  (pe_closed (chan_end t) = true -> pe_gone (chan_end t) = true) /\
  (forall d, pe_closed (end_of t d) = false -> 0 < pe_room (end_of t d)).

Definition copier_weight (c : copier) : nat :=
  match c with Copying buf => 3 + length buf | ClosingDst => 2 | ClosingSrc => 1 | CopyDone => 0 end.
Definition side_work (t : ssh_tunnel) (d : side) : nat := copier_weight (copier_to t d) + 2 * length (pe_input (end_of t d)).
Definition requests_weight (r : requests_phase) : nat := match r with Serving => 3 | ReqClosingTcp => 2 | ReqClosingChan => 1 | ReqDone => 0 end.
Definition tunnel_work (t : ssh_tunnel) : nat := side_work t Tcp + side_work t Chan + requests_weight (requests t).

Lemma tunnel_work_sides t d : tunnel_work t = side_work t d + side_work t (other d) + requests_weight (requests t).
Proof. unfold tunnel_work. destruct d; cbn [other]; lia. Qed.

(** An end that keeps its input. *)
Lemma end_work t d e d' : pe_input e = pe_input (end_of t d) -> side_work (set_end d e t) d' = side_work t d'.
Proof.
  intros Hi. unfold side_work. rewrite copier_to_set_end. destruct (side_cases d d') as [->| ->];
    [by rewrite end_of_eq, Hi|by rewrite end_of_ne by apply other_ne].
Qed.

Lemma end_work_all t d e : pe_input e = pe_input (end_of t d) -> tunnel_work (set_end d e t) = tunnel_work t.
Proof. intros Hi. unfold tunnel_work. by rewrite !end_work, requests_set_end. Qed.

Lemma copier_work t d c : tunnel_work (set_copier d c t) + copier_weight (copier_to t d) = tunnel_work t + copier_weight c.
Proof.
  rewrite !(tunnel_work_sides _ d). unfold side_work. rewrite copier_eq, (copier_ne d (other d)) by apply other_ne.
  rewrite end_of_set_copier, requests_set_copier. lia.
Qed.

Lemma copier_step_work d n t t' : copier_step d n t = Some t' -> tunnel_work t' < tunnel_work t.
Proof.
  unfold copier_step. intros E.
  assert (Hset : forall c u, tunnel_work u = tunnel_work t -> copier_to u = copier_to t -> copier_weight c < copier_weight (copier_to t d) ->
    tunnel_work (set_copier d c u) < tunnel_work t).
  { intros c u Hu Ec Hlt. pose proof (copier_work u d c) as Hw. rewrite Hu, Ec in Hw. lia. }
  destruct (copier_to t d) as [[|b buf]| | |] eqn:Ec; [| | | |done].
  - destruct (read_of (other d) (end_of t (other d))) eqn:Er; [injection E as <-; apply Hset; auto; cbn; lia|done|].
    destruct (decide (0 < n)); [|done]. injection E as <-. set (src := end_of t (other d)) in *.
    pose proof (copier_work (set_end (other d) (take_input n src) t) d (Copying (take n (pe_input src)))) as Hw.
    rewrite copier_to_set_end, Ec in Hw. cbn [copier_weight length] in Hw.
    assert (Hu : tunnel_work (set_end (other d) (take_input n src) t) + 2 * length (pe_input src) = tunnel_work t + 2 * length (drop n (pe_input src))).
    { rewrite !(tunnel_work_sides _ d). unfold side_work. rewrite copier_to_set_end, requests_set_end, end_of_eq.
      rewrite (end_of_ne (other d) d) by (intros Ex; by apply (other_ne d)). fold src. cbn [take_input pe_input]. lia. }
    assert (Hne : pe_input src <> []).
    { intros Hn. revert Er. unfold read_of. rewrite Hn. destruct (other d), (pe_closed src), (pe_ended src); done. }
    rewrite length_drop in Hu. rewrite length_take in Hw. destruct (pe_input src); [done|]. cbn [length] in *. lia.
  - destruct (write_of d (end_of t d)) eqn:Ew; [injection E as <-; apply Hset; auto; cbn; lia|done|].
    destruct (decide (0 < n)); [|done]. injection E as <-. apply Hset; [by apply end_work_all|apply copier_to_set_end|].
    assert (Hr : pe_room (end_of t d) <> 0).
    { intros Hz. revert Ew. unfold write_of. rewrite Hz. destruct d; [by destruct (pe_closed _)|by destruct (pe_gone _)]. }
    cbn [copier_weight]. rewrite length_drop. cbn [length]. lia.
  - injection E as <-. apply Hset; [by apply end_work_all|apply copier_to_set_end|cbn; lia].
  - injection E as <-. apply Hset; [by apply end_work_all|apply copier_to_set_end|cbn; lia].
Qed.

Lemma requests_work t u r : tunnel_work u = tunnel_work t -> requests u = requests t -> requests_weight r < requests_weight (requests t) ->
  tunnel_work (set_requests r u) < tunnel_work t.
Proof. unfold tunnel_work. intros Hu Er Hlt. change (side_work u Tcp + side_work u Chan + requests_weight r < side_work t Tcp + side_work t Chan + requests_weight (requests t)). rewrite Er in Hu. lia. Qed.

Lemma internal_work inbound ev t t' : tunnel_internal ev = true -> tunnel_step inbound ev t = Some t' -> tunnel_work t' < tunnel_work t.
Proof.
  destruct ev as [| | | | | | |d n|]; try done; intros _ E; [by eapply copier_step_work|]. cbn in E. unfold requests_step in E.
  destruct (requests t) eqn:Er; try done.
  - destruct (pe_gone (chan_end t)); [|done]. unfold requests_end in E. rewrite Er in E. injection E as <-.
    apply requests_work; [done|done|]. rewrite Er. destruct inbound; cbn; lia.
  - injection E as <-. apply (requests_work t (close_end Tcp t)); [by apply end_work_all|done|rewrite Er; cbn; lia].
  - injection E as <-. apply (requests_work t (close_end Chan t)); [by apply end_work_all|done|rewrite Er; cbn; lia].
Qed.

Lemma library_work inbound ev t t' : remote_library ev = true -> tunnel_step inbound ev t = Some t' -> tunnel_work t' = tunnel_work t.
Proof. destruct ev as [| | | | |d k| | |]; try done; intros _ [= <-]; [by apply end_work_all|by apply (end_work_all t Chan)]. Qed.

(** A copier that can do nothing. *)
Lemma copier_stuck t d : remote_answered t -> (forall n, copier_step d n t = None) ->
  copier_to t d = CopyDone \/
  (copier_to t d = Copying [] /\ pe_ended (end_of t (other d)) = false /\ pe_input (end_of t (other d)) = [] /\
   (d = Chan -> pe_closed (end_of t (other d)) = false)).
Proof.
  intros [Hgone Hroom] Hst. specialize (Hst 1). unfold copier_step in Hst. specialize (Hroom d).
  destruct (copier_to t d) as [[|b buf]| | |]; try done; [right| |by left].
  - unfold read_of in Hst. destruct d, (pe_closed (end_of t (other _))) eqn:Ec; cbn [other] in *; try done;
      destruct (pe_input _), (pe_ended _) eqn:Ee; try done; split_and!; try done; by rewrite Ec.
  - exfalso. unfold write_of in Hst. destruct d; cbn [end_of] in *.
    + destruct (pe_closed (tcp_end t)); [done|]. specialize (Hroom eq_refl). by destruct (pe_room (tcp_end t)); [lia|].
    + destruct (pe_gone (chan_end t)); [done|]. destruct (pe_closed (chan_end t)); [by specialize (Hgone eq_refl)|].
      specialize (Hroom eq_refl). by destruct (pe_room (chan_end t)); [lia|].
Qed.

(** ** Theorems *)

(** In both directions the bytes written are always a beginning of the bytes that arrived,
    in order and without repetition; and a copier that has ended has closed both ends. *)
Theorem tunnel_streams inbound b w t evs : tunnel_reach inbound (fresh_tunnel b w) t evs -> forall d,
  pe_output (end_of t d) `prefix_of` pe_arrived (end_of t (other d)) /\
  (copier_to t d = CopyDone -> pe_closed (end_of t d) = true /\ pe_closed (end_of t (other d)) = true).
Proof.
  intros R d. pose proof (reach_ok _ _ _ _ R (fresh_ok b w) d) as Hok. split; [by apply stream_prefix|].
  intros Ec. unfold stream_ok in Hok. rewrite Ec in Hok. by destruct Hok as (_ & ? & ?).
Qed.

(** C28: When nothing new comes from the remote ends, and their TCP stack and SSH library go
    on working, the goroutines of a tunnel stop after a bounded number of their own
    steps.  When none of them can go on, the channel's close was answered if it was
    closed, and the remote takes bytes at the ends that are open, then either both ends
    are open and everything that arrived was delivered, or both copiers and the goroutine
    of the requests have ended and both ends are closed. *)
Theorem tunnel_settles inbound b w t t' evs later :
  tunnel_reach inbound (fresh_tunnel b w) t evs -> tunnel_reach inbound t t' later ->
  Forall (fun ev => tunnel_internal ev || remote_library ev = true)%bool later ->
  length (List.filter tunnel_internal later) <= tunnel_work t /\
  ((forall ev, tunnel_internal ev = true -> tunnel_step inbound ev t' = None) -> remote_answered t' ->
   (forall d, pe_closed (end_of t' d) = false /\ pe_ended (end_of t' d) = false /\
      pe_output (end_of t' d) = pe_arrived (end_of t' (other d))) \/
   (forall d, pe_closed (end_of t' d) = true /\ copier_to t' d = CopyDone) /\ requests t' = ReqDone).
Proof.
  intros R R' Hint. pose proof (reach_ok _ _ _ _ R' (reach_ok _ _ _ _ R (fresh_ok b w))) as Hok.
  assert (Hg : gone_ok t') by (eapply reach_gone; [exact R'|]; by eapply reach_gone; [exact R|]). split.
  - clear R Hok Hg. enough (length (List.filter tunnel_internal later) + tunnel_work t' <= tunnel_work t) by lia.
    induction R' as [|t0 t1 t2 ev evs' E R' IH]; [done|]. apply List.Forall_cons_iff in Hint as [Hi Hl]. specialize (IH Hl).
    cbn [List.filter]. destruct (tunnel_internal ev) eqn:Ei.
    + pose proof (internal_work _ _ _ _ Ei E). cbn [length]. lia.
    + rewrite <- (library_work _ _ _ _ Hi E). done.
  - intros Hst Ha. assert (Hstuck := fun d => copier_stuck t' d Ha (fun n => Hst (CopierMoves d n) eq_refl)).
    destruct Ha as [Hgone _].
    assert (Hdone : forall d, copier_to t' d = CopyDone -> (forall d', pe_closed (end_of t' d') = true /\ copier_to t' d' = CopyDone) /\ requests t' = ReqDone).
    { intros d Ed. pose proof (Hok d) as Hd. unfold stream_ok in Hd. rewrite Ed in Hd. destruct Hd as (_ & Hc & Ho).
      assert (Hall : forall d', pe_closed (end_of t' d') = true) by (intros d'; destruct (side_cases d d') as [->| ->]; done).
      pose proof (Hgone (Hall Chan)) as Hgo. split.
      - intros d'. split; [apply Hall|]. destruct (Hstuck d') as [|(_ & He & _ & Hcl)]; [done|]. destruct d'; cbn [other end_of] in *.
        + by rewrite (Hg Hgo) in He.
        + specialize (Hcl eq_refl). by rewrite (Hall Tcp : pe_closed (tcp_end t') = true) in Hcl.
      - specialize (Hst RequestsMove eq_refl). cbn in Hst. unfold requests_step, requests_end in Hst. rewrite Hgo in Hst.
        by destruct (requests t'). }
    destruct (Hstuck Tcp) as [Et|(Et & He & Hi & _)]; [right; by apply (Hdone Tcp)|].
    destruct (Hstuck Chan) as [Es|(Es & He' & Hi' & Hc')]; [right; by apply (Hdone Chan)|].
    cbn [other end_of] in *. assert (Hcc : pe_closed (chan_end t') = false).
    { destruct (pe_closed (chan_end t')) eqn:E; [|done]. by rewrite (Hg (Hgone eq_refl)) in He. }
    left. intros d. pose proof (Hok d) as Hd. unfold stream_ok in Hd.
    destruct d; cbn [other end_of] in *; rewrite ?Et, ?Es in Hd; rewrite ?Hi, ?Hi' in Hd; rewrite app_nil_r in Hd; split_and!; auto.
Qed.

(** ** Examples *)

Fixpoint run_tunnel (inbound : bool) (evs : list tunnel_event) (t : ssh_tunnel) : option ssh_tunnel :=
  match evs with [] => Some t | ev :: evs => match tunnel_step inbound ev t with Some t' => run_tunnel inbound evs t' | None => None end end.

Lemma run_tunnel_reach inbound evs : forall t t', run_tunnel inbound evs t = Some t' -> tunnel_reach inbound t t' evs.
Proof.
  induction evs as [|ev evs IH]; intros t t' E; cbn in E; [injection E as <-; constructor|].
  destruct (tunnel_step inbound ev t) as [t1|] eqn:Es; [|done]. by eapply reach_cons; [exact Es|apply IH].
Qed.

Definition start_tunnel : ssh_tunnel := fresh_tunnel 8 2.
Definition tunnel_after (evs : list tunnel_event) (t : ssh_tunnel) : ssh_tunnel := default start_tunnel (run_tunnel true evs t).

(** A client sends three bytes and ends its side; the window of the channel takes two, then
    the remote takes more; the close of the channel is answered. *)
Definition client_ends : list tunnel_event := [RemoteSends Tcp [1; 2; 3]%Z; RemoteEnds Tcp].
Definition copied : list tunnel_event :=
  [CopierMoves Chan 3; CopierMoves Chan 5; RemoteTakes Chan 4; CopierMoves Chan 1; CopierMoves Chan 1; CopierMoves Chan 1; CopierMoves Chan 1;
   RemoteCloses; CopierMoves Tcp 1; CopierMoves Tcp 1; CopierMoves Tcp 1; RequestsMove; RequestsMove; RequestsMove].

Definition ended_tunnel : ssh_tunnel := Eval vm_compute in tunnel_after client_ends start_tunnel.
Definition copied_tunnel : ssh_tunnel := Eval vm_compute in tunnel_after copied ended_tunnel.

Lemma tunnel_streams_witness : pe_output (end_of copied_tunnel Chan) `prefix_of` pe_arrived (end_of copied_tunnel (other Chan)).
Proof.
  assert (R : tunnel_reach true start_tunnel copied_tunnel (client_ends ++ copied)) by (apply run_tunnel_reach; by vm_compute).
  exact (proj1 (tunnel_streams true 8 2 copied_tunnel _ R Chan)).
Defined.

Lemma tunnel_settles_witness : length (List.filter tunnel_internal copied) <= tunnel_work ended_tunnel /\
  (forall d, pe_closed (end_of copied_tunnel d) = true) /\ pe_output (chan_end copied_tunnel) = [1; 2; 3]%Z.
Proof.
  assert (R : tunnel_reach true start_tunnel ended_tunnel client_ends) by (apply run_tunnel_reach; by vm_compute).
  assert (R' : tunnel_reach true ended_tunnel copied_tunnel copied) by (apply run_tunnel_reach; by vm_compute).
  destruct (tunnel_settles true 8 2 ended_tunnel copied_tunnel client_ends copied R R' ltac:(repeat constructor)) as [Hb Hs].
  split; [exact Hb|]. split; [|by vm_compute]. destruct Hs as [Hs|[Hs _]].
  - intros ev Hev. destruct ev as [| | | | | | |[|] n|]; done.
  - split; [done|]. by intros [|].
  - by destruct (Hs Tcp) as (Hf & _).
  - intros d. apply Hs.
Defined.

(** While the close of the channel is not answered, the copier from it waits. *)
Example close_needs_answer :
  let t := tunnel_after [RemoteEnds Tcp; CopierMoves Chan 1; CopierMoves Chan 1; CopierMoves Chan 1] start_tunnel in
  copier_to t Chan = CopyDone /\ pe_closed (chan_end t) = true /\
  copier_step Tcp 1 t = None /\ copier_step Tcp 1 (remote_closes t) <> None.
Proof. split_and!; by vm_compute. Qed.

(** A client that ends its side after its request does not get the answer: the copier of
    the request closes both ends. *)
Example half_close_loses_answer :
  let t := tunnel_after (client_ends ++ [CopierMoves Chan 3; RemoteTakes Chan 1; CopierMoves Chan 3; CopierMoves Chan 1; RemoteSends Chan [7; 8]%Z;
             CopierMoves Chan 1; CopierMoves Chan 1; CopierMoves Tcp 2; CopierMoves Tcp 1; CopierMoves Tcp 1; CopierMoves Tcp 1]) start_tunnel in
  pe_arrived (end_of t Chan) = [7; 8]%Z /\ pe_output (end_of t Tcp) = [] /\ copier_to t Tcp = CopyDone.
Proof. split_and!; by vm_compute. Qed.
