(* ===== verification/Redact.v ===== *)
(** * Redaction of configurations in the log

    Models src/cloud-providers/util/redacting.go and the methods [Redact] of the
    configurations: before a provider logs its configuration, the named fields of a copy
    are replaced.  [RedactStruct] works by reflection and panics on a field that does not
    exist or is not a string, so that it matters which types the fields have. *)

From Stdlib Require Import ZArith Ascii String Lia.
From stdpp Require Import base gmap strings list.
From S2P Require Import Prelude InstanceTypes NetAddr Flags Managers Commands.

Section Redact.

Context `{FlagNumbers} `{NetIP}.

Definition replacement : string := "**********".

(** For a field of another type the zero value of the whole structure is assigned to it,
    which panics like the use of a field that does not exist. *)
Fixpoint RedactStruct (struc : config) (fields : list string) : outcome config :=
  match fields with
  | [] => Return struc
  | f :: fields =>
      match struc !! f with
      | Some (VStr _) => RedactStruct (<[f := VStr replacement]> struc) fields
      | _ => Panic
      end
  end.

(** The fields that each [Redact] names; docker and libvirt have none and log their
    configuration as it is. *)
Definition redacted_fields (name : string) : list string :=
  if String.eqb name "aws" then ["AccessKeyId"; "SecretKey"; "SessionToken"]%string
  else if String.eqb name "azure" then ["ClientId"; "TenantId"; "ClientSecret"]%string
  else if String.eqb name "gcp" then ["GcpCredentials"]%string
  else if String.eqb name "alibabacloud" then ["AccessKeyId"; "SecretKey"]%string
  else if String.eqb name "ibmcloud-powervs" then ["ApiKey"]%string
  else if String.eqb name "ibmcloud" then ["ApiKey"]%string
  else if String.eqb name "vsphere" then ["UserName"; "Password"; "Thumbprint"]%string
  else if String.eqb name "byom" then ["SSHPrivKey"]%string
  else [].

Definition Redact (name : string) (c : config) : outcome config := RedactStruct c (redacted_fields name).

(** The zero value of the one such field that no flag declares. *)
Definition zero_config : config := {["SSHPrivKey"%string := VStr ""]}.

(** ** Types of variables *)

Definition is_str (c : config) (v : string) : bool := match c !! v with Some (VStr _) => true | _ => false end.

Definition str_kind (k : kind) : bool := match k with KString _ => true | _ => false end.
Definition str_rule (r : env_rule) : bool := match r with EnvString _ _ _ => true | EnvOther _ _ => false end.

(** Every flag and every rule that writes the variable writes a string. *)
Definition str_var (fs : list flag) (rules : list env_rule) (v : string) : bool :=
  forallb (fun f => negb (String.eqb (fl_var f) v) || str_kind (fl_kind f))%bool fs &&
  forallb (fun r => negb (String.eqb (rule_var r) v) || str_rule r)%bool rules.

Definition declared_var (fs : list flag) (v : string) : bool := existsb (fun f => String.eqb (fl_var f) v) fs.

Lemma is_str_insert c v x y : is_str c v = true -> (v = x -> exists s, y = VStr s) -> is_str (<[x := y]> c) v = true.
Proof.
  unfold is_str. intros Hc Hx. destruct (decide (v = x)) as [->|Hne]; [|by rewrite lookup_insert_ne].
  rewrite lookup_insert_eq. by destruct (Hx eq_refl) as [s ->].
Qed.

Lemma str_flag fs v f : forallb (fun f => negb (String.eqb (fl_var f) v) || str_kind (fl_kind f))%bool fs = true -> f ∈ fs ->
  fl_var f = v -> exists d, fl_kind f = KString d.
Proof.
  intros Hall Hin Hv. rewrite forallb_forall in Hall. specialize (Hall f (proj1 (list_elem_of_In _ _) Hin)). cbn in Hall.
  rewrite Hv, String.eqb_refl in Hall. cbn in Hall. destruct (fl_kind f); try done. by eexists.
Qed.

Lemma declare_str v fs : forallb (fun f => negb (String.eqb (fl_var f) v) || str_kind (fl_kind f))%bool fs = true ->
  forall seen c c', declare seen fs c = Return c' -> (is_str c v || declared_var fs v = true)%bool -> is_str c' v = true.
Proof.
  induction fs as [|f fs IH]; intros Hall seen c c' E Hc; [injection E as <-; by rewrite orb_false_r in Hc|].
  cbn [declare forallb] in *. destruct (bool_decide _); [done|]. apply andb_true_iff in Hall as [Hf Hall]. eapply IH; [done|exact E|].
  change (declared_var (f :: fs) v) with (String.eqb (fl_var f) v || declared_var fs v)%bool in Hc.
  destruct (declared_var fs v); [by rewrite orb_true_r|]. rewrite !orb_false_r in *. unfold declare_one, is_str in *.
  destruct (String.eqb_spec (fl_var f) v) as [Ev|Hne].
  - cbn in Hf. destruct (fl_kind f); try done. cbn. by rewrite Ev, lookup_insert_eq.
  - rewrite orb_false_r in Hc. destruct (default_of (fl_kind f)); [by rewrite lookup_insert_ne|done].
Qed.

Lemma find_flag_in fs name f : find_flag fs name = Some f -> f ∈ fs.
Proof.
  induction fs as [|g fs IH]; cbn; [done|]. destruct (String.eqb _ _); [intros [= ->]; by left|]. intros E. right. by apply IH.
Qed.

Lemma assign_str fs v f value c c' : forallb (fun f => negb (String.eqb (fl_var f) v) || str_kind (fl_kind f))%bool fs = true ->
  f ∈ fs -> assign f value c = Ok c' -> is_str c v = true -> is_str c' v = true.
Proof.
  intros Hall Hin E Hc. unfold assign in E. destruct (set_flag (fl_kind f) value c) as [y|e0] eqn:Es; [|done]. injection E as <-.
  apply is_str_insert; [done|]. intros ->. destruct (str_flag fs _ f Hall Hin eq_refl) as [d Ek]. rewrite Ek in Es. cbn in Es.
  injection Es as <-. by eexists.
Qed.

Lemma flagset_Parse_str fs v : forallb (fun f => negb (String.eqb (fl_var f) v) || str_kind (fl_kind f))%bool fs = true ->
  forall n args c c' rest, (length args <= n)%nat -> flagset_Parse fs args c = Ok (c', rest) -> is_str c v = true -> is_str c' v = true.
Proof.
  intros Hall. induction n as [|n IH]; intros args c c' rest Hn E Hc; (destruct args as [|arg args]; [by injection E as <- _|]); cbn in Hn; [lia|].
  cbn in E. destruct (classify arg args) as [name value|more|]; [|by injection E as <- _|done].
  destruct (find_flag fs name) as [f|] eqn:Ef; [|by destruct (_ || _)%bool]. apply find_flag_in in Ef.
  assert (Hstep : forall x more, (length more <= n)%nat ->
    match assign f x c with Ok c => flagset_Parse fs more c | Err e => Err e end = Ok (c', rest) -> is_str c' v = true).
  { intros x more Hm Ex. destruct (assign f x c) as [c1|e0] eqn:Ea; [|done]. eapply IH; [exact Hm|exact Ex|]. by eapply assign_str. }
  destruct value as [x|]; [apply (Hstep x args); [lia|done]|]. destruct (is_bool (fl_kind f)); [apply (Hstep "true"%string args); [lia|done]|].
  destruct args as [|x args]; [done|]. apply (Hstep x args); [cbn in Hn; lia|done].
Qed.

Lemma LoadEnv_str v rules getenv : forallb (fun r => negb (String.eqb (rule_var r) v) || str_rule r)%bool rules = true ->
  forall c, is_str c v = true -> is_str (fold_left (apply_rule getenv) rules c) v = true.
Proof.
  induction rules as [|r rules IH]; intros Hall c Hc; [done|]. cbn in Hall |- *. apply andb_true_iff in Hall as [Hr Hall].
  apply IH; [done|]. destruct r as [x env fb|x value]; cbn in *; [apply is_str_insert; [done|by eexists]|].
  destruct (value getenv c) as [y|]; [|done]. apply is_str_insert; [done|]. intros ->. by rewrite String.eqb_refl in Hr.
Qed.

(** ** Redaction *)

Lemma RedactStruct_spec fields : forall c, (forall f, f ∈ fields -> is_str c f = true) -> exists c', RedactStruct c fields = Return c' /\
  (forall f, f ∈ fields -> c' !! f = Some (VStr replacement)) /\ (forall f, f ∉ fields -> c' !! f = c !! f).
Proof.
  induction fields as [|f fields IH]; intros c Hs; [exists c; split_and!; try done; intros f Hf; by apply not_elem_of_nil in Hf|].
  cbn [RedactStruct]. pose proof (Hs f ltac:(by left)) as Hf. unfold is_str in Hf. destruct (c !! f) as [[]|] eqn:Ef; try done.
  destruct (IH (<[f := VStr replacement]> c)) as (c' & E & Hin & Hout).
  { intros g Hg. apply is_str_insert; [apply Hs; by right|by eexists]. }
  exists c'. split; [done|]. split.
  - intros g Hg. destruct (decide (g ∈ fields)) as [Hi|Hn]; [by apply Hin|]. apply elem_of_cons in Hg as [->|Hg]; [|done].
    rewrite Hout by done. apply lookup_insert_eq.
  - intros g Hg. apply not_elem_of_cons in Hg as [Hne Hn]. rewrite Hout by done. by apply lookup_insert_ne.
Qed.

(** The fields to redact are strings in the flags and in the rules of every manager, and
    all but the private key of BYOM are declared. *)
Lemma redacted_are_strings two half name m : (name, m) ∈ managers two half ->
  forallb (fun v => str_var (adaptor_flags ++ mg_flags m) (mg_env m) v && (is_str zero_config v || declared_var (adaptor_flags ++ mg_flags m) v))%bool
    (redacted_fields name) = true.
Proof.
  intros Hin. repeat (apply elem_of_cons in Hin as [[= -> ->]|Hin]; [by vm_compute|]). by apply not_elem_of_nil in Hin.
Qed.

(** C40: Whatever the command line and the environment are, the log line of every provider is
    written without a panic, shows a replacement for each credential that the provider
    names, and the other fields as they are. *)
Theorem credentials_redacted two half name m args getenv c :
  (name, m) ∈ managers two half ->
  Parse args (adaptor_flags ++ mg_flags m) zero_config = Return (Continue c) ->
  exists logged, Redact name (mg_LoadEnv m getenv c) = Return logged /\
    (forall f, f ∈ redacted_fields name -> logged !! f = Some (VStr replacement)) /\
    (forall f, f ∉ redacted_fields name -> logged !! f = mg_LoadEnv m getenv c !! f).
Proof.
  intros Hm E. apply redacted_are_strings in Hm. apply RedactStruct_spec. intros f Hf.
  rewrite forallb_forall in Hm. specialize (Hm f (proj1 (list_elem_of_In _ _) Hf)). apply andb_true_iff in Hm as [[Hfs Hrs]%andb_true_iff Hd].
  apply LoadEnv_str; [done|]. unfold Parse in E. destruct (declare [] _ zero_config) as [c0|] eqn:Ec; [|done].
  destruct args as [|prog [|arg args]]; [done|done|]. destruct (flagset_Parse _ _ c0) as [[c1 rest]|e0] eqn:Ep; [|done]. injection E as <-.
  eapply flagset_Parse_str; [exact Hfs|reflexivity|exact Ep|]. eapply declare_str; [exact Hfs|exact Ec|by rewrite Hd].
Qed.

End Redact.

(** ** Witness *)

Definition aws_args : list string := ["aws"; "-aws-secret-key=hidden"; "-imageid=ami-1"]%string.

Definition aws_parsed : outcome (command config) := @Parse text_numbers aws_args (adaptor_flags ++ mg_flags aws_manager) zero_config.

Lemma credentials_redacted_witness : exists c logged, aws_parsed = Return (Continue c) /\
  Redact "aws" (mg_LoadEnv aws_manager aws_env c) = Return logged /\
  logged !! "SecretKey"%string = Some (VStr replacement) /\ logged !! "AccessKeyId"%string = Some (VStr replacement).
Proof.
  assert (Hs : (match aws_parsed with Return (Continue _) => true | _ => false end) = true) by (vm_compute; reflexivity).
  destruct aws_parsed as [[c|code]|] eqn:E; try discriminate Hs. exists c.
  destruct (@credentials_redacted text_numbers _ ""%string ""%string "aws" aws_manager aws_args aws_env c) as (logged & Er & Hin & _);
    [by right; left|exact E|].
  exists logged. split; [reflexivity|]. split; [exact Er|]. split; apply Hin; [right; by left|by left].
Defined.
