(* ===== verification/Deployment.v ===== *)
(** * The two daemons together

    The tunnel for the agent protocol, from the configuration of both daemons: [NewService]
    of src/cloud-api-adaptor/pkg/adaptor/cloud/cloud.go makes the tags of the worker node,
    [Setup] of cmd/agent-protocol-forwarder/main.go those of the pod VM, and the peers of
    sshproxy.go connect what the tags name. *)

From Stdlib Require Import ZArith Ascii String Lia.
From stdpp Require Import base gmap strings list.
From S2P Require Import Prelude InstanceTypes NetAddr Tls Forwarder SshProxy SshProxyProps SecureComms Flags Managers Commands.

Open Scope Z_scope.

(** ** The worker node *)

(** Inbounds and outbounds that [NewService] gives to the SSH client. *)
Definition service_tags (sc : secure_comms) : list string * list string :=
  ("KUBERNETES_PHASE:KATAAGENT:0"%string :: split_on "," (sc_Inbounds sc),
   split_on "," (sc_Outbounds sc) ++ (if sc_Trustee sc then ["BOTH_PHASES:KBS:" +:+ sc_KbsAddress sc] else [])).

Section NewService.

Context {W : Type} `{SshKeys} `{!SecureEnv W} `{!ListenEnv W}.

(** With secure communication the client is made first; without it there is none, and a
    failure ends the process. *)
Definition NewService_ssh (secure : option secure_comms) (sshport : string) : M W (command (option SshClient)) :=
  match secure with
  | None => mret (Continue None)
  | Some sc =>
      let '(inbounds, outbounds) := service_tags sc in
      mbind (InitSshClient inbounds outbounds (sc_Trustee sc) (sc_KbsAddress sc) sshport) (fun r =>
        mret match r with Ok client => Continue (Some client) | Err _ => Exits 1 end)
  end.

End NewService.

(** ** Tags *)

Definition KATAAGENT : string := "KATAAGENT".

Lemma trim_right_id s : (forall c, is_space c = true -> contains_byte c s = false) -> trim_right s = s.
Proof.
  induction s as [|c s IH]; intros Hs; [done|]. cbn. rewrite IH.
  - destruct s; [|done]. destruct (is_space c) eqn:Ec; [|done]. by apply Hs, contains_byte_cons in Ec as [? _].
  - intros d Hd. by apply Hs, contains_byte_cons in Hd as [_ ?].
Qed.

Lemma TrimSpace_id s : (forall c, is_space c = true -> contains_byte c s = false) -> TrimSpace s = s.
Proof.
  intros Hs. unfold TrimSpace. assert (E : trim_left s = s); [|rewrite E; by apply trim_right_id].
  destruct s as [|c s]; [done|]. cbn. destruct (is_space c) eqn:Ec; [|done]. by apply Hs, contains_byte_cons in Ec as [? _].
Qed.

Lemma agent_tag_parses port : 0 <= port <= 65535 ->
  ParseTag (TrimSpace ("KUBERNETES_PHASE:KATAAGENT:" +:+ FormatInt port)) = Ok (mkTag port "" KATAAGENT KUBERNETES_PHASE).
Proof.
  intros Hp. rewrite TrimSpace_id.
  - apply (proj2 ParseTag_roundtrip (mkTag port "" KATAAGENT KUBERNETES_PHASE)). by repeat split; cbn; try lia.
  - intros c Hc. apply contains_byte_app. split.
    + unfold contains_byte. cbn. repeat (rewrite (proj2 (Ascii.eqb_neq c _)) by (intros ->; discriminate Hc)). done.
    + apply FormatInt_no_byte; [lia|]. unfold is_space, is_digit in *. destruct (nat_of_ascii c =? 32)%nat eqn:E1.
      * apply Nat.eqb_eq in E1. by rewrite E1.
      * cbn in Hc. apply andb_true_iff in Hc as [_ Hc%Nat.leb_le]. apply andb_false_iff. left. apply Nat.leb_gt. cbn. lia.
Qed.

Lemma ob_AddTags_extends tags : forall l outs, ob_AddTags tags l = (None, outs) -> l `prefix_of` outs.
Proof.
  induction tags as [|tag tags IH]; intros l outs E; cbn in E; [by injection E as <-|].
  destruct (String.eqb _ _); [by apply IH|]. destruct (ParseTag _) as [t|e0]; [|done].
  etransitivity; [|by apply IH]. unfold ob_Add. by apply prefix_app_r.
Qed.

Section Inbounds.

Context {W : Type} `{ListenEnv W}.

Lemma ib_Add_extends namespace port name phase l w rp l' w' :
  ib_Add namespace port name phase l w = (Return (Ok (rp, l')), w') -> exists tl, l' = l ++ [mkInbound name tl phase].
Proof.
  unfold ib_Add, mbind, mret. destruct (listen namespace port w) as [[tl|e0] w1]; [|done].
  destruct (Listener_Port tl); [|done]. intros [= _ <- _]. by eexists.
Qed.

Lemma ib_AddTags_extends tags : forall ports l w outs ports' w',
  ib_AddTags tags ports l w = (Return (None, ports', outs), w') -> l `prefix_of` outs.
Proof.
  induction tags as [|tag tags IH]; intros ports l w outs ports' w' E; cbn in E; [by injection E as _ <- _|].
  destruct (String.eqb _ _); [by eapply IH|]. destruct (ParseTag _) as [t|e0]; [|done].
  unfold mbind in E. destruct (ib_Add _ _ _ _ l w) as [[[[rp l']|e0]|] w1] eqn:Ea; [|done..].
  apply ib_Add_extends in Ea as [tl ->]. etransitivity; [|by eapply IH]. by apply prefix_app_r.
Qed.

(** The tags of the worker node begin with an inbound for the agent. *)
Lemma service_agent_inbound sc w ports ins w' :
  ib_AddTags (fst (service_tags sc)) ∅ [] w = (Return (None, ports, ins), w') ->
  exists i, i ∈ ins /\ ib_Name i = KATAAGENT /\ ib_Phase i = KUBERNETES_PHASE.
Proof.
  cbn [service_tags fst ib_AddTags]. change (String.eqb (TrimSpace "KUBERNETES_PHASE:KATAAGENT:0") "") with false. cbn iota.
  change (ParseTag (TrimSpace "KUBERNETES_PHASE:KATAAGENT:0")) with (@Ok Tag (mkTag 0 "" KATAAGENT KUBERNETES_PHASE)). cbn iota.
  unfold mbind at 1. cbn [t_host t_port t_name t_phase]. destruct (ib_Add _ _ _ _ [] w) as [[[[rp l']|e0]|] w1] eqn:Ea; [|done..].
  apply ib_Add_extends in Ea as [tl ->]. intros E. apply ib_AddTags_extends in E.
  exists (mkInbound KATAAGENT tl KUBERNETES_PHASE). split; [|done]. eapply elem_of_prefix; [|exact E]. by left.
Qed.

End Inbounds.

(** ** Theorem *)

Section Agent.

Context `{FlagNumbers} `{NetIP} {W : Type} `{ListenEnv W}.

(** The pod VM: the outbound for the agent ends where the daemon listens. *)
Lemma forwarder_agent_outbound c file f s host port outs :
  forwarder_services (Return tt) c file = Return f -> fw_ssh f = Some s ->
  SplitHostPort (get_str c "listenAddr") = Ok (host, FormatInt port) -> 0 <= port <= 65535 ->
  ob_AddTags (ss_outbounds s) [] = (None, outs) ->
  exists o, o ∈ outs /\ ob_Name o = KATAAGENT /\ ob_Phase o = KUBERNETES_PHASE /\
    SplitHostPort (ob_OutAddr o) = Ok ("127.0.0.1"%string, FormatInt port) /\
    SplitHostPort (d_listenAddr (fw_daemon f)) = Ok ("127.0.0.1"%string, FormatInt port).
Proof.
  intros Ef Es Hsplit Hp Hout. unfold forwarder_services in Ef.
  destruct (_ || _)%bool; [|injection Ef as <-; discriminate Es]. unfold local_address in Ef. rewrite Hsplit in Ef.
  injection Ef as <-. cbn [fw_ssh] in Es. injection Es as <-. cbn [ss_outbounds fw_daemon d_listenAddr NewDaemon] in *.
  pose proof (SplitHostPort_port _ _ _ Hsplit) as Hplain.
  exists (mkOutbound KATAAGENT ("127.0.0.1:" +:+ FormatInt port) KUBERNETES_PHASE). split_and!; try done.
  - cbn [ob_AddTags app] in Hout. rewrite agent_tag_parses in Hout by done.
    destruct (String.eqb_spec (TrimSpace ("KUBERNETES_PHASE:KATAAGENT:" +:+ FormatInt port)) "") as [Ez|_].
    { pose proof (agent_tag_parses port Hp) as Hbad. rewrite Ez in Hbad. discriminate Hbad. }
    apply ob_AddTags_extends in Hout. eapply elem_of_prefix; [|exact Hout]. by left.
  - by apply SplitHostPort_local.
  - destruct (String.eqb_spec host "127.0.0.1") as [->|]; [done|by apply SplitHostPort_local].
Qed.

(** C10: With secure communication on both sides, when the tags of both sides are legal, no
    name is used twice on a side and the port of the daemon's address is a number up to
    65535, a connection to the inbound that the worker node opens for the agent reaches,
    in the Kubernetes phase, 127.0.0.1 with that port, and this is the address at which
    the daemon of the pod VM listens, whatever host was configured. *)
Theorem agent_tunnel sc w ports ins w' c file f s host port outs sid sid' :
  ib_AddTags (fst (service_tags sc)) ∅ [] w = (Return (None, ports, ins), w') -> NoDup (map ib_Name ins) ->
  forwarder_services (Return tt) c file = Return f -> fw_ssh f = Some s ->
  SplitHostPort (get_str c "listenAddr") = Ok (host, FormatInt port) -> 0 <= port <= 65535 ->
  ob_AddTags (ss_outbounds s) [] = (None, outs) -> NoDup (map ob_Name outs) ->
  exists o c1 c2,
    SplitHostPort (ob_OutAddr o) = Ok ("127.0.0.1"%string, FormatInt port) /\
    SplitHostPort (d_listenAddr (fw_daemon f)) = Ok ("127.0.0.1"%string, FormatInt port) /\
    peer_run (AddTags ins [] ++ [OReady]) (peer_start (new_peer KUBERNETES sid)) = Return c1 /\
    is_Some (pr_inbounds (c_peer c1) !! KATAAGENT) /\
    peer_run (AddTags (@nil (Inbound Listener)) outs ++ [OReady; OChan (Some (mkNewChannel "tunnel" KATAAGENT None))])
      (peer_start (new_peer KUBERNETES sid')) = Return c2 /\
    c_trace c2 = [ETunnel o false].
Proof.
  intros Hin Hni Ef Es Hsplit Hp Hout Hno. destruct (service_agent_inbound _ _ _ _ _ Hin) as (i & Hi & Hname & Hphase).
  destruct (forwarder_agent_outbound _ _ _ _ _ _ _ Ef Es Hsplit Hp Hout) as (o & Ho & Hon & Hop & Haddr & Hlisten).
  destruct (tunnel_connects (L := Listener) KUBERNETES KUBERNETES sid sid' (new_peer KUBERNETES sid) ins [] [] outs i o)
    as (_ & c1 & c2 & R1 & R2 & Ht); try done; [by right|congruence..|].
  rewrite Hname in *.
  assert (Hs : is_Some (pr_inbounds (c_peer c1) !! KATAAGENT)).
  { rewrite peer_run_app, run_AddTags in R1. cbn [c_peer c_loop c_trace peer_start] in R1. set (q := add_inbounds ins _) in R1.
    assert (Hr : pr_ready q = false) by (unfold q; destruct (add_inbounds_fields ins (add_outbounds [] (new_peer KUBERNETES sid))) as (_ & _ & ->); done).
    assert (Hq : pr_inbounds q !! ib_Name i = Some KUBERNETES_PHASE) by (unfold q; rewrite add_inbounds_lookup by done; by rewrite Hphase).
    cbn [peer_run peer_step] in R1. unfold peer_Ready in R1. cbn [c_peer c_loop peer_start] in R1. rewrite Hr in R1. injection R1 as <-.
    cbn [c_peer]. rewrite Hname in Hq. exists KUBERNETES_PHASE. exact Hq. }
  exists o, c1, c2. rewrite Haddr, Hlisten. split_and!; try done. rewrite Ht. destruct Hs as [ph ->]. by rewrite Hon.
Qed.

End Agent.

(** ** Witness *)

(** Sockets by their ports. *)
Definition port_listen : ListenEnv Z := {|
  Listener := Z;
  NS := unit;
  ListenTCP := fun p w => if p =? 0 then (Ok w, w + 1) else (Ok p, w);
  Listener_Port := fun p => Ok (FormatInt p);
  Listener_Close := fun _ => mret tt;
  ns_Open := fun _ => mret (Ok tt);
  ns_Run := fun _ m => m;
  ns_Close := fun _ => mret tt
|}.

Definition default_listen : gmap string (@fval text_numbers) := {["listenAddr"%string := VStr "0.0.0.0:15150"]}.

Definition default_tags : secure_comms := mkSecureComms false "" "" "" "" "".

Lemma agent_tunnel_witness : exists o c2,
  SplitHostPort (ob_OutAddr o) = Ok ("127.0.0.1", "15150")%string /\
  peer_run (AddTags (@nil (Inbound Z)) [mkOutbound KATAAGENT "127.0.0.1:15150" KUBERNETES_PHASE]
    ++ [OReady; OChan (Some (mkNewChannel "tunnel" KATAAGENT None))]) (peer_start (new_peer KUBERNETES "")) = Return c2 /\
  c_trace c2 = [ETunnel o false].
Proof.
  destruct (@agent_tunnel text_numbers Z port_listen default_tags 40000 {[KATAAGENT := "40000"%string]}
    [mkInbound KATAAGENT 40000 KUBERNETES_PHASE] 40001 default_listen example_file
    (match forwarder_services (Return tt) default_listen example_file with Return f => f | Panic => mkForwarder None (NewDaemon (ff_daemon example_file) "" None) end)
    (mkSshService ["BOTH_PHASES:KBS:8080"; ""; ""] ["KUBERNETES_PHASE:KATAAGENT:15150"; ""; ""]
       (forwarder_secrets false example_file))%string
    "0.0.0.0" 15150 [mkOutbound KATAAGENT "127.0.0.1:15150" KUBERNETES_PHASE] "s" "")
    as (o & c1 & c2 & Ha & Hl & _ & _ & R & Ht); try (vm_compute; reflexivity).
  - apply (bool_decide_unpack _). by vm_compute.
  - lia.
  - apply (bool_decide_unpack _). by vm_compute.
  - exists o, c2. split_and!; [exact Ha|exact R|exact Ht].
Defined.
