(* ===== verification/AzCopy.v ===== *)
(** * Copying a community image

    Models src/cloud-api-adaptor/cmd/az-copy-image/main.go: a temporary disk and a
    temporary image are made from a community image, published as a version of an image
    in a gallery and deleted by deferred functions.  [log.Fatalf] ends the process without
    running deferred functions: it is the error of the monad, and what is deferred runs
    only at the end.  The clients of Azure and the command az are operations. *)

From Stdlib Require Import ZArith Ascii String Lia.
From stdpp Require Import base strings list.
From S2P Require Import Prelude ProviderKit.

Open Scope go_scope.

(** ** Data *)

(** The parameters after the flags were parsed. *)
Record az_params := mkAzParams {
  az_subscriptionID : string;
  az_resourceGroup : string;
  az_location : string;
  az_imageGallery : string;
  az_imageDefinition : string;
  az_imageVersion : string;
  az_communityGalleryImage : string;
  az_targetRegions : string
}.

Inductive az_resource :=
| AzDisk (name source : string)
| AzImage (name diskID : string)
| AzGallery (name : string)
| AzDefinition (gallery name : string)
| AzVersion (gallery definition version imageID : string) (regions : list string).

Inductive az_call :=
| AzCreate (r : az_resource) (err : option GoError)
| AzDelete (r : az_resource) (err : option GoError).

Class AzCopyEnv (W : Type) := {
  defaultSubscriptionID : M W (result string);
  groupLocation : string -> M W (result string);
  uuid_New : M W string;
  NewDefaultAzureCredential : M W (option GoError);
  NewAzClient : string -> M W (option GoError);
  BeginCreateOrUpdate : string -> string -> az_resource -> M W (option GoError);
  PollUntilDone : M W (option GoError);
  BeginDelete : string -> az_resource -> M W (option GoError)
}.

(** [^\d+\.\d+\.\d+$] *)
Definition all_digits (s : string) : bool := (negb (String.eqb s "") && forallb is_digit (String.list_ascii_of_string s))%bool.
Definition version_matches (s : string) : bool :=
  match split_on "." s with [a; b; c] => (all_digits a && all_digits b && all_digits c)%bool | _ => false end.

Definition target_regions (s : string) : list string :=
  filter (fun r => r <> ""%string) (map TrimSpace (split_on "," s)).

Definition resourceID (subscriptionID resourceGroup kind name : string) : string :=
  "/subscriptions/" +:+ subscriptionID +:+ "/resourceGroups/" +:+ resourceGroup +:+ "/providers/Microsoft.Compute/" +:+ kind +:+ "/" +:+ name.

Section AzCopy.

Context {W : Type} `{AzCopyEnv W}.

Notation P := (G W az_call).

(** ** Operations *)

Definition fatal (text : string) (e : GoError) : GoError := Errorf text [e].

(** A client, the creation and the wait for its end. *)
Definition az_create (group location client : string) (r : az_resource) : P unit :=
  do c := ask_err (NewAzClient client) orelse fatal "creating %s client: %v" in
  do b := act_err (AzCreate r) (BeginCreateOrUpdate group location r) orelse fatal "creating %s: %v" in
  gwrap (fatal "waiting for %s: %v") (ask_err PollUntilDone).

(** A deferred deletion; its errors are dropped. *)
Definition az_delete (group : string) (r : az_resource) : P unit :=
  do d := gcatch (act_err (AzDelete r) (BeginDelete group r)) in
  match d with
  | Ok _ => do p := gcatch (ask_err PollUntilDone) in gret tt
  | Err _ => gret tt
  end.

Definition subscription_of (p : az_params) : P string :=
  if String.eqb (az_subscriptionID p) "" then gwrap (fatal "cannot determine subscription ID: %v") (ask defaultSubscriptionID)
  else gret (az_subscriptionID p).

Definition location_of (p : az_params) : P string :=
  if String.eqb (az_location p) "" then gwrap (fatal "cannot determine location: %v") (ask (groupLocation (az_resourceGroup p)))
  else gret (az_location p).

(** From the disk on, with the deferred deletions at the end. *)
Definition az_publish (p : az_params) (subscriptionID location managedDiskName userImageName : string) : P unit :=
  let group := az_resourceGroup p in
  let disk := AzDisk managedDiskName (az_communityGalleryImage p) in
  let image := AzImage userImageName (resourceID subscriptionID group "disks" managedDiskName) in
  do d := az_create group location "disks" disk in
  do i := az_create group location "images" image in
  do g := az_create group location "galleries" (AzGallery (az_imageGallery p)) in
  do f := az_create group location "gallery images" (AzDefinition (az_imageGallery p) (az_imageDefinition p)) in
  do v := az_create group location "gallery image versions"
            (AzVersion (az_imageGallery p) (az_imageDefinition p) (az_imageVersion p)
               (resourceID subscriptionID group "images" userImageName) (target_regions (az_targetRegions p))) in
  do d1 := az_delete group image in
  az_delete group disk.

Definition az_main (p : az_params) : P unit :=
  if negb (version_matches (az_imageVersion p)) then gfail (Errorf "-version %q is invalid; expected something like 1.2.3" [])
  else
    do subscriptionID := subscription_of p in
    if (String.eqb (az_resourceGroup p) "" || String.eqb (az_communityGalleryImage p) "")%bool
    then gfail (Sentinel "required parameters")
    else
      do location := location_of p in
      do n1 := ask (mbind uuid_New (fun u => mret (Ok ("tmp-disk-" +:+ u)))) in
      do n2 := ask (mbind uuid_New (fun u => mret (Ok ("tmp-img-" +:+ u)))) in
      do cred := ask_err NewDefaultAzureCredential orelse fatal "creating credential: %v" in
      az_publish p subscriptionID location n1 n2.

(** ** Theorems *)

Definition created (c : az_call) : Prop := match c with AzCreate _ _ => True | AzDelete _ _ => False end.

(** What a run did: all five resources and the two deletions, or some creations in this
    order and nothing else. *)
Definition az_outcome (p : az_params) (r : outcome (result unit)) (l : list az_call) : Prop :=
  match r with
  | Panic => False
  | Return (Err _) => Forall created l /\ (length l <= 5)%nat
  | Return (Ok _) => version_matches (az_imageVersion p) = true /\
      exists sub disk img e1 e2,
        let image := AzImage img (resourceID sub (az_resourceGroup p) "disks" disk) in l =
        [AzCreate (AzDisk disk (az_communityGalleryImage p)) None; AzCreate image None;
         AzCreate (AzGallery (az_imageGallery p)) None; AzCreate (AzDefinition (az_imageGallery p) (az_imageDefinition p)) None;
         AzCreate (AzVersion (az_imageGallery p) (az_imageDefinition p) (az_imageVersion p)
                     (resourceID sub (az_resourceGroup p) "images" img) (target_regions (az_targetRegions p))) None;
         AzDelete image e1; AzDelete (AzDisk disk (az_communityGalleryImage p)) e2]
  end.

Lemma az_create_wp group location client x (Q : _ -> list az_call -> Prop) :
  Q (Return (Ok tt)) [AzCreate x None] -> (forall e l, l = [] \/ (exists o, l = [AzCreate x o]) -> Q (Return (Err e)) l) ->
  wp (az_create group location client x) Q.
Proof. intros Hok Herr. unfold az_create. wp_run; eauto. Qed.

Lemma az_delete_wp group x (Q : _ -> list az_call -> Prop) :
  (forall o, Q (Return (Ok tt)) [AzDelete x o]) -> wp (az_delete group x) Q.
Proof. intros HQ. unfold az_delete. wp_run; apply HQ. Qed.

Lemma az_failed p e l : Forall created l -> (length l <= 5)%nat -> az_outcome p (Return (Err e)) l.
Proof. done. Qed.

Lemma az_publish_wp p sub location n1 n2 : version_matches (az_imageVersion p) = true -> wp (az_publish p sub location n1 n2) (az_outcome p).
Proof.
  intros Hv. unfold az_publish. cbv zeta.
  do 5 (apply wp_gbind, az_create_wp; [cbn beta iota|
          intros e l [Hl|[o Hl]]; rewrite Hl; clear Hl; cbn [app]; (apply az_failed; [repeat (apply List.Forall_cons; [exact I|]); apply List.Forall_nil|cbn; lia])]).
  apply wp_gbind, az_delete_wp. intros o. apply az_delete_wp. intros o'. cbn. split; [done|]. by exists sub, n1, n2, o, o'.
Qed.

(** A run that succeeds has made the version from the temporary image and has asked for
    the deletion of both temporary resources, in the order opposite to their creation.  A
    run that fails at any point has deleted nothing: the temporary resources made before
    the failure stay. *)
Theorem az_copy p s : exists l, sdk_calls (az_main p s).2 = sdk_calls s ++ l /\ az_outcome p (az_main p s).1 l.
Proof.
  revert s. change (wp (az_main p) (az_outcome p)). unfold az_main.
  destruct (version_matches (az_imageVersion p)) eqn:Hv; cbn [negb]; [|apply wp_gfail; split; [constructor|cbn; lia]].
  assert (Hfail : forall e, az_outcome p (Return (Err e)) []) by (intros e; split; [constructor|cbn; lia]).
  apply wp_gbind. unfold subscription_of. wp_run; try apply Hfail.
  all: unfold location_of; wp_run; try apply Hfail; by apply az_publish_wp.
Qed.

End AzCopy.

(** ** Example *)

(** An account in which the third wait fails: the wait for the gallery. *)
#[local] Instance failing_az : AzCopyEnv nat := {
  defaultSubscriptionID := mret (Ok "sub"%string);
  groupLocation := fun _ => mret (Ok "eastus"%string);
  uuid_New := mret "u"%string;
  NewDefaultAzureCredential := mret None;
  NewAzClient := fun _ => mret None;
  BeginCreateOrUpdate := fun _ _ _ => mret None;
  PollUntilDone := fun n => (if Nat.eqb n 2 then Some (Sentinel "quota"%string) else None, S n);
  BeginDelete := fun _ _ => mret None
}.

Definition example_params : az_params := mkAzParams "" "rg" "" "gal" "def" "0.0.1" "/community/image" "eastus, westeurope,".

(** The temporary disk and image stay behind. *)
Example az_copy_leaks : sdk_calls (az_main example_params (mkSdk 0%nat [])).2 =
  [AzCreate (AzDisk "tmp-disk-u" "/community/image") None;
   AzCreate (AzImage "tmp-img-u" "/subscriptions/sub/resourceGroups/rg/providers/Microsoft.Compute/disks/tmp-disk-u") None;
   AzCreate (AzGallery "gal") None] /\ target_regions "eastus, westeurope," = ["eastus"; "westeurope"]%string.
Proof. split; by vm_compute. Qed.
