(* ===== verification/ServiceSpec.v ===== *)
(** * What the hypervisor service promises

    An abstract specification of the service of pkg/adaptor/cloud, without networks,
    proxies, files or PeerPods: a table of virtual machines with their instances, the
    starts that wait for the provider or have its answer in hand, and what has become of
    every instance the provider returned.  Every run of the handlers of CloudService, with
    whatever answers of the things they call, is a run of the specification with the same
    requests and the same answers; what the specification keeps, the service keeps.

    A StartVM is two steps, because the service holds no lock while the provider creates
    the instance: other requests, also for the same sandbox, come in between.  The other
    requests are one step each. *)

From Stdlib Require Import ZArith Ascii String Lia.
From stdpp Require Import base gmap strings list fin_maps fin_sets.
From S2P Require Import Prelude InstanceTypes NetAddr CloudService CloudServiceProps.

(** ** The specification *)

(** [vm_instance] is empty before the first start. *)
Record vm := mkVm { vm_namespace : string; vm_pod : string; vm_instance : string }.

Definition running (i : string) (v : vm) : vm := mkVm (vm_namespace v) (vm_pod v) i.

(** [starting] are the starts that have an instance and have not recorded it; [live] the
    instances the provider has returned and not deleted, [refused] those of them that it
    has refused to delete, and [lost] those that no sandbox has any more although nobody
    asked for their deletion. *)
Record hypervisor := mkHypervisor {
  vms : gmap string vm;
  starting : list (string * string);
  live : gset string;
  refused : gset string;
  lost : gset string
}.

(** [RStart] is a start up to the answer of the provider, [RFinish n] the rest of the
    [n]-th of the starts under way; [RInfo] is one look of a query, with the error of its
    context if that is done by then. *)
Inductive request :=
| RCreate (req : CreateVMRequest)
| RStart (sid : string)
| RFinish (n : nat)
| RStop (sid : string)
| RInfo (namespace pod : string) (wait : bool) (ctxErr : option GoError).

(** A path, a success, an instance, an error, or none yet: of a start that goes on with an
    instance, and of a query that waits. *)
Inductive answer :=
| ASocket (path : string)
| AOk
| AInstance (id : string)
| AError
| AUnderWay (id : string)
| AWaiting.

Section Spec.

Context `{AnnotationKeys} (podsDir : string).

(** The machines of a pod. *)
Definition of_pod (a : hypervisor) (ns pod i : string) : Prop := exists sid, vms a !! sid = Some (mkVm ns pod i).

Inductive spec_step (a : hypervisor) : request -> answer -> hypervisor -> Prop :=
| spec_created req :
    req_Id req <> ""%string -> vms a !! req_Id req = None ->
    spec_step a (RCreate req)
      (ASocket (filepath_Join [filepath_Join [podsDir; req_Id req]; SocketName]))
      (mkHypervisor
        (<[req_Id req := mkVm (GetPodNamespace (req_Annotations req)) (GetPodName (req_Annotations req)) ""]> (vms a))
        (starting a) (live a) (refused a) (lost a))
| spec_not_created req : spec_step a (RCreate req) AError a
(** the provider returns an instance for a machine of the table *)
| spec_launched sid v i :
    vms a !! sid = Some v ->
    spec_step a (RStart sid) (AUnderWay i)
      (mkHypervisor (vms a) (starting a ++ [(sid, i)]) ({[i]} ∪ live a) (refused a) (lost a))
| spec_not_launched sid : spec_step a (RStart sid) AError a
(** the machine gets its instance, and one it had is lost; the answer can still be an error *)
| spec_recorded n sid i v ans :
    starting a !! n = Some (sid, i) -> vms a !! sid = Some v -> ans ∈ [AOk; AError] ->
    spec_step a (RFinish n) ans
      (mkHypervisor (<[sid := running i v]> (vms a)) (delete n (starting a)) (live a) (refused a)
        (lost a ∪ ({[vm_instance v]} ∖ {[i]}) ∩ live a))
(** the machine was stopped meanwhile *)
| spec_orphaned n sid i :
    starting a !! n = Some (sid, i) -> vms a !! sid = None ->
    spec_step a (RFinish n) AError
      (mkHypervisor (vms a) (delete n (starting a)) (live a) (refused a) (lost a ∪ {[i]} ∩ live a))
| spec_no_start n : starting a !! n = None -> spec_step a (RFinish n) AError a
| spec_stopped sid v :
    vms a !! sid = Some v ->
    spec_step a (RStop sid) AOk
      (mkHypervisor (delete sid (vms a)) (starting a)
        (live a ∖ {[vm_instance v]}) (refused a ∖ {[vm_instance v]}) (lost a ∖ {[vm_instance v]}))
| spec_stopped_refused sid v :
    vms a !! sid = Some v ->
    spec_step a (RStop sid) AOk
      (mkHypervisor (delete sid (vms a)) (starting a) (live a) (refused a ∪ {[vm_instance v]} ∩ live a) (lost a))
| spec_not_stopped sid : sid = ""%string \/ vms a !! sid = None -> spec_step a (RStop sid) AError a
| spec_info ns pod wait ctxErr i :
    of_pod a ns pod i -> i <> ""%string -> spec_step a (RInfo ns pod wait ctxErr) (AInstance i) a
| spec_no_info ns pod wait ctxErr :
    of_pod a ns pod "" \/ (forall i, ~ of_pod a ns pod i) /\ (wait = false \/ ctxErr <> None) ->
    spec_step a (RInfo ns pod wait ctxErr) AError a
| spec_waiting ns pod : (forall i, ~ of_pod a ns pod i) -> spec_step a (RInfo ns pod true None) AWaiting a.

Inductive spec_run (a : hypervisor) : list (request * answer) -> hypervisor -> Prop :=
| spec_run_nil : spec_run a [] a
| spec_run_snoc log q ans a1 a2 : spec_run a log a1 -> spec_step a1 q ans a2 -> spec_run a (log ++ [(q, ans)]) a2.

Definition spec_init : hypervisor := mkHypervisor ∅ [] ∅ ∅ ∅.

(** *** What the specification keeps

    Every instance is in the table, with a start under way, refused or lost, whatever ids
    the provider returns. *)
Definition recorded_in (a : hypervisor) (i : string) : Prop := exists sid v, vms a !! sid = Some v /\ vm_instance v = i.

Record spec_inv (a : hypervisor) : Prop := mkSpecInv {
  inv_refused : refused a ⊆ live a;
  inv_lost : lost a ⊆ live a;
  inv_live : forall i, i ∈ live a -> recorded_in a i \/ i ∈ (starting a).*2 \/ i ∈ refused a \/ i ∈ lost a
}.

Lemma spec_init_inv : spec_inv spec_init.
Proof. constructor; cbn; [done|done|set_solver]. Qed.

(** The instance of a start that is taken out, and the others. *)
Lemma starting_perm (l : list (string * string)) n sid i : l !! n = Some (sid, i) -> l.*2 ≡ₚ i :: (delete n l).*2.
Proof. intros Hn. apply delete_Permutation in Hn. by rewrite Hn at 1. Qed.

Lemma starting_rest (l : list (string * string)) n sid i j :
  l !! n = Some (sid, i) -> j ∈ l.*2 <-> j = i \/ j ∈ (delete n l).*2.
Proof. intros Hn. by rewrite (starting_perm _ _ _ _ Hn), elem_of_cons. Qed.

Lemma recorded_other a i sid v (m : gmap string vm) :
  recorded_in a i -> vms a !! sid = Some v -> vm_instance v <> i ->
  (forall sid', sid' <> sid -> m !! sid' = vms a !! sid') -> exists sid' v', m !! sid' = Some v' /\ vm_instance v' = i.
Proof.
  intros (sid' & v' & Hv' & Hi) Hv Hne Hm. exists sid', v'. split; [|done]. rewrite Hm; [done|]. intros ->. congruence.
Qed.

Lemma spec_step_inv a q ans a' : spec_step a q ans a' -> spec_inv a -> spec_inv a'.
Proof.
  intros Hs [Hr Hlo Hl]. destruct Hs as [req Hne Hn|req|sid v i Hv|sid|n sid i v ans Hn Hv _|n sid i Hn Hv|n|sid v Hv|sid v Hv|sid| | |];
    try done; (constructor; cbn [live refused lost starting vms]; [clear Hl; set_solver|clear Hl; set_solver|]); intros j Hj;
    pose proof (Hl j) as Hlj; clear Hl.
  - destruct (Hlj Hj) as [(sid & v & Hv & Hi)|Ho]; [|by right]. left. exists sid, v. cbn [vms]. split; [|done].
    rewrite lookup_insert_ne; [done|congruence].
  - rewrite fmap_app, elem_of_app. apply elem_of_union in Hj as [->%elem_of_singleton|Hj].
    + right. left. right. by apply list_elem_of_singleton.
    + destruct (Hlj Hj) as [Hrec|[Ho|Ho]]; [by left|right; left; by left|by right; right].
  - destruct (decide (j = i)) as [->|Hji]; [left; exists sid, (running i v); cbn [vms]; by rewrite lookup_insert_eq|].
    destruct (decide (vm_instance v = j)) as [<-|Hvj]; [clear Hlj; set_solver|].
    destruct (Hlj Hj) as [Hrec|[Hst|Ho]]; [|destruct (proj1 (starting_rest _ _ _ _ _ Hn) Hst); [done|by right; left]|].
    + left. eapply (recorded_other a j sid v); [done..|]. cbn [vms]. intros sid' Hs. by rewrite lookup_insert_ne.
    + right. right. rewrite elem_of_union. tauto.
  - rewrite elem_of_union, elem_of_intersection, elem_of_singleton.
    destruct (Hlj Hj) as [Hrec|[Hst|Ho]]; [by left|destruct (proj1 (starting_rest _ _ _ _ _ Hn) Hst) as [->|]; tauto|tauto].
  - rewrite elem_of_difference, elem_of_singleton in Hj. rewrite !elem_of_difference, !elem_of_singleton.
    destruct Hj as [Hj Hne]. destruct (Hlj Hj) as [Hrec|Ho]; [|tauto].
    left. eapply (recorded_other a j sid v); [done..|]. cbn [vms]. intros sid' Hs. by rewrite lookup_delete_ne.
  - rewrite elem_of_union, elem_of_intersection, elem_of_singleton.
    destruct (decide (vm_instance v = j)) as [<-|Hvj]; [tauto|]. destruct (Hlj Hj) as [Hrec|Ho]; [|tauto].
    left. eapply (recorded_other a j sid v); [done..|]. cbn [vms]. intros sid' Hs. by rewrite lookup_delete_ne.
Qed.

Lemma spec_run_inv a log a' : spec_run a log a' -> spec_inv a -> spec_inv a'.
Proof. intros R. induction R as [|log q ans a1 a2 R IH Hs]; [done|]. intros I. by eapply spec_step_inv, IH. Qed.

(** With a provider that returns names of its own the account is exact: no two machines or
    starts share an instance, and what they have the provider has. *)
Definition fresh_answer (a : hypervisor) (ans : answer) : Prop :=
  match ans with AUnderWay i => i <> ""%string /\ i ∉ live a | _ => True end.

Record exact_inv (a : hypervisor) : Prop := mkExactInv {
  ex_nonempty : "" ∉ live a;
  ex_starting : forall i, i ∈ (starting a).*2 -> i ∈ live a;
  ex_starts : NoDup (starting a).*2;
  ex_recorded : forall sid v, vms a !! sid = Some v -> vm_instance v <> ""%string ->
    vm_instance v ∈ live a /\ vm_instance v ∉ (starting a).*2;
  ex_distinct : forall sid1 sid2 v1 v2, vms a !! sid1 = Some v1 -> vms a !! sid2 = Some v2 ->
    vm_instance v1 = vm_instance v2 -> vm_instance v1 <> ""%string -> sid1 = sid2
}.

Lemma exact_init : exact_inv spec_init.
Proof. constructor; cbn; try set_solver; [constructor|..]; intros *; by rewrite lookup_empty. Qed.

Lemma exact_created a sid v R S : vm_instance v = ""%string -> exact_inv a ->
  exact_inv (mkHypervisor (<[sid := v]> (vms a)) (starting a) (live a) R S).
Proof.
  intros Hv [Hne Hst Hnd Hrec Hd]. constructor; cbn [vms starting live]; try done.
  - intros sid' v' [[_ <-]|[_ Hv']]%lookup_insert_Some Hn; [done|]. by eapply Hrec.
  - intros sid1 sid2 v1 v2 [[_ <-]|[_ H1]]%lookup_insert_Some [[_ <-]|[_ H2]]%lookup_insert_Some E Hn; try congruence. by eapply Hd.
Qed.

Lemma exact_launched a sid i R S : i <> ""%string -> i ∉ live a -> exact_inv a ->
  exact_inv (mkHypervisor (vms a) (starting a ++ [(sid, i)]) ({[i]} ∪ live a) R S).
Proof.
  intros Hi Hnew [Hne Hst Hnd Hrec Hd]. constructor; cbn [vms starting live]; rewrite ?fmap_app.
  - set_solver.
  - intros j [Hj| ->%list_elem_of_singleton]%elem_of_app; [apply Hst in Hj|]; set_solver.
  - apply NoDup_app. split_and!; [done| |apply NoDup_singleton]. intros j Hj ->%list_elem_of_singleton. by apply Hnew, Hst.
  - intros sid' v Hv Hn. destruct (Hrec _ _ Hv Hn) as [Hl Hs]. split; [set_solver|].
    intros [?|E%list_elem_of_singleton]%elem_of_app; [done|]. cbn in E. by rewrite E in Hl.
  - done.
Qed.

Lemma exact_recorded a n sid i v R S : starting a !! n = Some (sid, i) -> vms a !! sid = Some v -> exact_inv a ->
  exact_inv (mkHypervisor (<[sid := running i v]> (vms a)) (delete n (starting a)) (live a) R S).
Proof.
  intros Hn Hv [Hne Hst Hnd Hrec Hd]. pose proof (starting_perm _ _ _ _ Hn) as Hp. rewrite Hp in Hnd.
  apply NoDup_cons in Hnd as [Hi Hnd]. assert (Hi' : i ∈ (starting a).*2) by (rewrite Hp; left).
  constructor; cbn [vms starting live]; try done.
  - intros j Hj. apply Hst. rewrite Hp. by right.
  - intros sid' v' [[_ <-]|[_ Hv']]%lookup_insert_Some Hne'; [split; [by apply Hst|done]|].
    destruct (Hrec _ _ Hv' Hne') as [Hl Hs]. split; [done|]. contradict Hs. rewrite Hp. by right.
  - intros sid1 sid2 v1 v2 [[<- <-]|[_ H1]]%lookup_insert_Some [[<- <-]|[_ H2]]%lookup_insert_Some E Hn'; cbn in E, Hn'; try done.
    + destruct (Hrec _ _ H2) as [_ Hs]; congruence.
    + destruct (Hrec _ _ H1) as [_ Hs]; congruence.
    + by eapply Hd.
Qed.

Lemma exact_orphaned a n sid i R S : starting a !! n = Some (sid, i) -> exact_inv a ->
  exact_inv (mkHypervisor (vms a) (delete n (starting a)) (live a) R S).
Proof.
  intros Hn [Hne Hst Hnd Hrec Hd]. pose proof (starting_perm _ _ _ _ Hn) as Hp. rewrite Hp in Hnd.
  apply NoDup_cons in Hnd as [Hi Hnd]. constructor; cbn [vms starting live]; try done.
  - intros j Hj. apply Hst. rewrite Hp. by right.
  - intros sid' v' Hv' Hne'. destruct (Hrec _ _ Hv' Hne') as [Hl Hs]. split; [done|]. contradict Hs. rewrite Hp. by right.
Qed.

Lemma exact_stopped a sid v L R S : vms a !! sid = Some v ->
  L ⊆ live a -> (forall i, i ∈ live a -> i <> vm_instance v -> i ∈ L) -> exact_inv a ->
  exact_inv (mkHypervisor (delete sid (vms a)) (starting a) L R S).
Proof.
  intros Hv Hsub HL [Hne Hst Hnd Hrec Hd]. constructor; cbn [vms starting live].
  - set_solver.
  - intros i Hi. apply HL; [by apply Hst|]. intros ->. destruct (decide (vm_instance v = ""%string)) as [E|E].
    + apply Hne. rewrite <- E. by apply Hst.
    + by destruct (Hrec _ _ Hv E).
  - done.
  - intros sid' v' [Hne' Hv']%lookup_delete_Some Hn. destruct (Hrec _ _ Hv' Hn) as [Hl Hs]. split; [|done].
    apply HL; [done|]. intros E. apply Hne'. symmetry. by eapply Hd.
  - intros *. intros [_ H1]%lookup_delete_Some [_ H2]%lookup_delete_Some. by eapply Hd.
Qed.

Lemma spec_step_exact a q ans a' : spec_step a q ans a' -> fresh_answer a ans -> exact_inv a -> exact_inv a'.
Proof.
  intros Hs Hf I. destruct Hs as [req Hne Hn|req|sid v i Hv|sid|n sid i v ans Hn Hv _|n sid i Hn Hv|n|sid v Hv|sid v Hv|sid| | |]; try done.
  - by apply exact_created.
  - destruct Hf. by apply exact_launched.
  - by eapply exact_recorded.
  - by eapply exact_orphaned.
  - eapply exact_stopped; [done| | |done]; [set_solver|]. intros i Hi Hne. by rewrite elem_of_difference, elem_of_singleton.
  - by eapply exact_stopped.
Qed.

End Spec.

(** ** The service *)

Section Refinement.

Context {W : Type} `{CloudEnv W} `{AnnotationKeys} `{GoMapOrder}.
Context (serverConfig : ServerConfig).

Notation svc := (service W PodNet Addr).

(** The service with the starts that hold an instance, and the instances that were lost:
    a record of the run that no handler reads. *)
Record system := mkSystem {
  sys_service : svc;
  sys_starting : list (string * sandbox PodNet * Instance Addr);
  sys_lost : gset string
}.

Definition answer_of_create (r : outcome (result string)) : option answer :=
  match r with Panic => None | Return (Err _) => Some AError | Return (Ok path) => Some (ASocket path) end.

Definition answer_of_info (r : option (result string)) : answer :=
  match r with Some (Ok id) => AInstance id | Some (Err _) => AError | None => AWaiting end.

(** The instance that is lost when a start records [id]: that of an earlier start of the
    sandbox, or this one when the sandbox is gone. *)
Definition dropped (sid id : string) (s : svc) : gset string :=
  match sandboxes s !! sid with
  | None => {[id]}
  | Some sb => {[instanceID sb]} ∖ {[id]}
  end ∩ outstanding (trace s).

(** An instance that was deleted after all is not lost any more. *)
Definition still_lost (lost : gset string) (s : svc) : gset string := lost ∩ outstanding (trace s).

(** One step of the requests; a panic has no answer. *)
Definition serve (q : request) (y : system) : option answer * system :=
  let s := sys_service y in
  match q with
  | RCreate req =>
      let '(r, s') := CreateVM serverConfig req s in (answer_of_create r, mkSystem s' (sys_starting y) (sys_lost y))
  | RStart sid =>
      match StartVM_create sid s with
      | (Ok (sb, inst), s') => (Some (AUnderWay (ID inst)), mkSystem s' (sys_starting y ++ [(sid, sb, inst)]) (sys_lost y))
      | (Err _, s') => (Some AError, mkSystem s' (sys_starting y) (sys_lost y))
      end
  | RFinish n =>
      match sys_starting y !! n with
      | None => (Some AError, y)
      | Some (sid, sb, inst) =>
          let '(r, s') := StartVM_finish serverConfig sid sb inst s in
          (Some (if is_ok r then AOk else AError),
           mkSystem s' (delete n (sys_starting y)) (sys_lost y ∪ dropped sid (ID inst) s))
      end
  | RStop sid =>
      let '(r, s') := StopVM sid s in
      (Some (if is_ok r then AOk else AError), mkSystem s' (sys_starting y) (still_lost (sys_lost y) s'))
  | RInfo ns pod wait ctxErr =>
      (Some (answer_of_info (GetInfo ns pod wait [(sandboxes s, ctxErr)])), y)
  end.

(** The steps in any order; between them the world may change. *)
Inductive service_run (y : system) : list (request * answer) -> system -> Prop :=
| service_run_nil : service_run y [] y
| service_run_snoc log q ans y1 y2 :
    service_run y log y1 -> serve q y1 = (Some ans, y2) -> service_run y (log ++ [(q, ans)]) y2
| service_run_world log y1 w :
    service_run y log y1 ->
    service_run y log (mkSystem (mkService (sandboxes (sys_service y1)) (podToPP (sys_service y1)) (trace (sys_service y1)) w)
                         (sys_starting y1) (sys_lost y1)).

(** A whole StartVM is its two steps. *)
Lemma StartVM_steps sid y r s' : StartVM serverConfig sid (sys_service y) = (r, s') ->
  (exists y', serve (RStart sid) y = (Some AError, y') /\ sys_service y' = s' /\ is_ok r = false) \/
  exists i y1 y2, serve (RStart sid) y = (Some (AUnderWay i), y1) /\
    serve (RFinish (length (sys_starting y))) y1 = (Some (if is_ok r then AOk else AError), y2) /\ sys_service y2 = s'.
Proof.
  unfold StartVM, mbind, mret, serve. destruct (StartVM_create sid (sys_service y)) as [[[sb inst]|e] s1].
  - intros E. right. eexists _, _, _. split; [reflexivity|]. cbn [sys_starting sys_service].
    rewrite list_lookup_middle by done. rewrite E. by split.
  - intros [= <- <-]. left. by eexists.
Qed.

(** The looks of a query: it ends with the first that has an answer. *)
Lemma GetInfo_looks ns pod wait u (rest : list (gmap string (sandbox PodNet) * option GoError)) :
  GetInfo ns pod wait (u :: rest) = match GetInfo ns pod wait [u] with None => GetInfo ns pod wait rest | Some r => Some r end.
Proof.
  destruct u as [sbs e]. unfold GetInfo. cbn [GetInstanceID]. destruct (find_instance ns pod sbs) as [id|]; [by destruct (String.eqb id "")|].
  destruct wait; [|done]. by destruct e.
Qed.

(** *** Abstraction *)

Definition vm_of (sb : sandbox PodNet) : vm := mkVm (podNamespace sb) (podName sb) (instanceID sb).

(** The provider's instances and the refused ones, from the trace of calls. *)
Definition provider_step (p : gset string * gset string) (e : event Addr) : gset string * gset string :=
  match e with
  | EvCreate _ _ (Ok inst) => ({[ID inst]} ∪ p.1, p.2)
  | EvDelete id None => (p.1 ∖ {[id]}, p.2 ∖ {[id]})
  | EvDelete id (Some _) => (p.1, p.2 ∪ {[id]} ∩ p.1)
  | _ => p
  end.

Definition provider_state (tr : list (event Addr)) : gset string * gset string := foldl provider_step (∅, ∅) tr.

Definition abstract (y : system) : hypervisor :=
  mkHypervisor (vm_of <$> sandboxes (sys_service y)) ((fun x => (x.1.1, ID x.2)) <$> sys_starting y)
    (provider_state (trace (sys_service y))).1 (provider_state (trace (sys_service y))).2 (sys_lost y).

Lemma provider_state_snoc tr e : provider_state (tr ++ [e]) = provider_step (provider_state tr) e.
Proof. unfold provider_state. by rewrite foldl_app. Qed.

Definition silent (e : event Addr) : Prop := forall p, provider_step p e = p.

Lemma provider_state_silent tr evs : Forall silent evs -> provider_state (tr ++ evs) = provider_state tr.
Proof.
  intros Hs. unfold provider_state. rewrite foldl_app. generalize (foldl provider_step (∅, ∅) tr).
  induction Hs as [|e evs He _ IH]; intros p; [done|]. cbn. by rewrite He.
Qed.

Lemma neutral_silent evs : Forall neutral evs -> Forall silent evs.
Proof. intros Hn. eapply Forall_impl; [exact Hn|]. by intros []. Qed.

Lemma provider_state_outstanding tr : (provider_state tr).1 = outstanding tr.
Proof.
  assert (Hp : forall p, (foldl provider_step p tr).1 = foldl live_step p.1 tr); [|apply Hp].
  induction tr as [|e tr IH]; intros p; [done|]. cbn [foldl]. rewrite IH. f_equal. by destruct e as [? ? []|? []| | | |].
Qed.

(** A system whose tables and trace are those of another one has its abstraction. *)
Lemma abstract_same y s' : sandboxes s' = sandboxes (sys_service y) ->
  provider_state (trace s') = provider_state (trace (sys_service y)) ->
  abstract (mkSystem s' (sys_starting y) (sys_lost y)) = abstract y.
Proof. unfold abstract. cbn. by intros -> ->. Qed.

Lemma abstract_vm y sid : vms (abstract y) !! sid = vm_of <$> sandboxes (sys_service y) !! sid.
Proof. apply lookup_fmap. Qed.

Lemma abstract_start y n : starting (abstract y) !! n = (fun x => (x.1.1, ID x.2)) <$> sys_starting y !! n.
Proof. apply list_lookup_fmap. Qed.

(** *** Simulation *)

Notation spec_step := (spec_step (PodsDir serverConfig)).
Notation spec_run := (spec_run (PodsDir serverConfig)).

Lemma create_simulated req y ans y' :
  serve (RCreate req) y = (Some ans, y') -> spec_step (abstract y) (RCreate req) ans (abstract y').
Proof.
  unfold serve. pose proof (CreateVM_spec serverConfig req (sys_service y)) as Hc. destruct (CreateVM _ _ _) as [r s1].
  intros [= Ea <-]. destruct Hc as (Ht & _ & Hr). destruct r as [[path|err]|]; [| |done]; cbn in Ea; injection Ea as <-.
  - destruct Hr as (Hid & Hn & -> & sb & Hs & _ & Hpod & Hns & Hi).
    assert (abstract (mkSystem s1 (sys_starting y) (sys_lost y)) =
      mkHypervisor (<[req_Id req := mkVm (GetPodNamespace (req_Annotations req)) (GetPodName (req_Annotations req)) ""]>
      (vms (abstract y))) (starting (abstract y)) (live (abstract y)) (refused (abstract y)) (lost (abstract y))) as ->.
    { unfold abstract. cbn. rewrite Ht, Hs, fmap_insert. unfold vm_of at 1. by rewrite Hi, Hpod, Hns. }
    apply spec_created; [done|]. by rewrite abstract_vm, Hn.
  - rewrite abstract_same; [apply spec_not_created|done|by rewrite Ht].
Qed.

Lemma start_simulated sid y ans y' :
  serve (RStart sid) y = (Some ans, y') -> spec_step (abstract y) (RStart sid) ans (abstract y').
Proof.
  unfold serve. destruct (StartVM_create sid (sys_service y)) as [c s1] eqn:E. apply StartVM_create_spec in E.
  destruct c as [[sb inst]|err]; intros [= <- <-].
  - destruct E as (_ & Hsb & [Fs Ft]).
    assert (abstract (mkSystem s1 (sys_starting y ++ [(sid, sb, inst)]) (sys_lost y)) =
      mkHypervisor (vms (abstract y)) (starting (abstract y) ++ [(sid, ID inst)]) ({[ID inst]} ∪ live (abstract y))
        (refused (abstract y)) (lost (abstract y))) as ->.
    { unfold abstract. cbn. by rewrite Fs, Ft, provider_state_snoc, fmap_app. }
    apply spec_launched with (v := vm_of sb). by rewrite abstract_vm, Hsb.
  - rewrite abstract_same; [apply spec_not_launched|..]; destruct E as [->|(sb & e0 & _ & [Fs Ft])]; try done.
    by rewrite Ft, provider_state_snoc.
Qed.

Lemma finish_simulated n y ans y' :
  serve (RFinish n) y = (Some ans, y') -> spec_step (abstract y) (RFinish n) ans (abstract y').
Proof.
  unfold serve. destruct (sys_starting y !! n) as [[[sid sb] inst]|] eqn:En.
  2:{ intros [= <- <-]. apply spec_no_start. by rewrite abstract_start, En. }
  destruct (StartVM_finish _ _ _ _ _) as [r s1] eqn:E. apply StartVM_finish_spec in E as (evs & Ht & Hn & Hs). intros [= <- <-].
  assert (Hp : provider_state (trace s1) = provider_state (trace (sys_service y))) by (rewrite Ht; by apply provider_state_silent, neutral_silent).
  assert (Hst : starting (abstract y) !! n = Some (sid, ID inst)) by (by rewrite abstract_start, En).
  unfold abstract at 2. cbn [sys_service sys_starting sys_lost]. rewrite Hp, list_fmap_delete. unfold dropped.
  rewrite <- provider_state_outstanding. destruct (sandboxes (sys_service y) !! sid) as [sb0|] eqn:Esb; rewrite Hs || destruct Hs as [Hs Hr].
  - rewrite fmap_insert. change (vm_of (set_instance (ID inst) (Name inst) sb0)) with (running (ID inst) (vm_of sb0)).
    apply (spec_recorded _ (abstract y) n sid (ID inst) (vm_of sb0)); [done|by rewrite abstract_vm, Esb|destruct (is_ok r); set_solver].
  - rewrite Hs, Hr. apply (spec_orphaned _ (abstract y) n sid (ID inst)); [done|by rewrite abstract_vm, Esb].
Qed.

Lemma stop_simulated sid y ans y' : spec_inv (abstract y) ->
  serve (RStop sid) y = (Some ans, y') -> spec_step (abstract y) (RStop sid) ans (abstract y').
Proof.
  intros I. unfold serve. set (s := sys_service y). assert (Hlost : sys_lost y ⊆ (provider_state (trace s)).1) by apply (inv_lost _ I).
  destruct (decide (sid = "" \/ sandboxes s !! sid = None)) as [Hno|Hyes].
  { destruct (StopVM_unknown _ _ Hno) as [e0 ->]. intros [= <- <-]. unfold still_lost. rewrite <- provider_state_outstanding.
    replace (sys_lost y ∩ _) with (sys_lost y) by set_solver. rewrite abstract_same by done. apply spec_not_stopped.
    destruct Hno as [Hno|Hno]; [by left|right; rewrite abstract_vm; fold s; by rewrite Hno]. }
  destruct (sandboxes s !! sid) as [sb|] eqn:Esb; [|tauto].
  destruct (StopVM_spec sid sb s ltac:(tauto) Esb) as (s1 & d & patch & t & -> & Hs & Ht & Hp). intros [= <- <-].
  assert (Hst : provider_state (trace s1) = provider_step (provider_state (trace s)) (EvDelete (instanceID sb) d)).
  { rewrite Ht, app_assoc, provider_state_silent, provider_state_snoc; [done|].
    destruct Hp as [->|(_ & n & x & ->)]; by repeat constructor. }
  assert (Hv : vms (abstract y) !! sid = Some (vm_of sb)) by (by rewrite abstract_vm; fold s; rewrite Esb).
  unfold abstract at 2. cbn [sys_service sys_starting sys_lost]. unfold still_lost.
  rewrite <- provider_state_outstanding, Hst, Hs, fmap_delete. destruct d as [e|]; cbn [provider_step fst snd].
  - replace (sys_lost y ∩ _) with (sys_lost y) by set_solver. by apply (spec_stopped_refused _ (abstract y) sid (vm_of sb)).
  - replace (sys_lost y ∩ _) with (sys_lost y ∖ {[instanceID sb]}) by set_solver. by apply (spec_stopped _ (abstract y) sid (vm_of sb)).
Qed.

Lemma info_simulated ns pod wait ctxErr y ans y' :
  serve (RInfo ns pod wait ctxErr) y = (Some ans, y') -> spec_step (abstract y) (RInfo ns pod wait ctxErr) ans (abstract y').
Proof.
  unfold serve, GetInfo. cbn. unfold find_instance. destruct (List.find _ _) as [[sid sb]|] eqn:E; cbn.
  - apply find_some in E as [Hin E]. cbn in E. bool_to_prop. apply list_elem_of_In, elem_of_map_order in Hin.
    assert (Hv : of_pod (abstract y) ns pod (instanceID sb)).
    { exists sid. rewrite abstract_vm, Hin. cbn. unfold vm_of. congruence. }
    destruct (String.eqb (instanceID sb) "") eqn:Ei; intros [= <- <-]; bool_to_prop.
    + apply spec_no_info. left. by rewrite Ei in Hv.
    + by apply spec_info.
  - assert (Hno : forall i, ~ of_pod (abstract y) ns pod i).
    { intros i [sid Hv]. rewrite abstract_vm in Hv. destruct (sandboxes (sys_service y) !! sid) as [sb|] eqn:Hsb; [|done].
      injection Hv as En Ep Ei. eapply find_none in E; [|apply list_elem_of_In, elem_of_map_order; exact Hsb]. cbn in E.
      by rewrite En, Ep, !String.eqb_refl in E. }
    destruct wait, ctxErr; cbn; intros [= <- <-]; first [by apply spec_waiting|apply spec_no_info; right; by auto].
Qed.

Lemma serve_simulated q y ans y' : spec_inv (abstract y) ->
  serve q y = (Some ans, y') -> spec_step (abstract y) q ans (abstract y').
Proof.
  intros I. destruct q;
    [apply create_simulated|apply start_simulated|apply finish_simulated|by apply stop_simulated|apply info_simulated].
Qed.

Lemma service_simulated y log y' : spec_inv (abstract y) -> service_run y log y' -> spec_run (abstract y) log (abstract y').
Proof.
  intros I R. induction R as [|log q ans y1 y2 R IH E|log y1 w R IH]; [constructor| |done].
  eapply spec_run_snoc; [exact IH|]. apply serve_simulated; [by eapply spec_run_inv|done].
Qed.

Definition fresh_system (y : system) : Prop := fresh_service (sys_service y) /\ sys_starting y = [] /\ sys_lost y = ∅.

Lemma fresh_abstract y : fresh_system y -> abstract y = spec_init.
Proof. intros ([Hs Ht] & Hst & Hl). unfold abstract. by rewrite Hs, Ht, Hst, Hl, fmap_empty. Qed.

Lemma service_run_inv y log y' : fresh_system y -> service_run y log y' -> spec_inv (abstract y').
Proof.
  intros Hf R. eapply spec_run_inv; [apply service_simulated; [|exact R]|]; rewrite fresh_abstract by done; apply spec_init_inv.
Qed.

(** A provider that returns names of its own: not empty, and of no instance that it has. *)
Definition fresh_creations (tr : list (event Addr)) : Prop := forall tr1 pod sid inst tr2,
  tr = tr1 ++ EvCreate pod sid (Ok inst) :: tr2 -> ID inst <> ""%string /\ ID inst ∉ outstanding tr1.

Lemma fresh_prefix tr evs : fresh_creations (tr ++ evs) -> fresh_creations tr.
Proof. intros Hf tr1 pod sid inst tr2 ->. eapply Hf. by rewrite <- app_assoc. Qed.

Lemma serve_trace q y ans y' : serve q y = (Some ans, y') ->
  (exists evs, trace (sys_service y') = trace (sys_service y) ++ evs) /\
  (fresh_creations (trace (sys_service y')) -> fresh_answer (abstract y) ans).
Proof.
  unfold serve. destruct q as [req|sid|n|sid|ns pod wait e].
  - pose proof (CreateVM_spec serverConfig req (sys_service y)) as Hc. destruct (CreateVM _ _ _) as [r s1].
    destruct Hc as [Ht _]. intros [= Ea <-]. split; [exists []; by rewrite app_nil_r|]. by destruct r as [[]|]; cbn in Ea; simplify_eq.
  - destruct (StartVM_create sid (sys_service y)) as [c s1] eqn:E. apply StartVM_create_spec in E.
    destruct c as [[sb inst]|err]; intros [= <- <-].
    + destruct E as (_ & _ & [_ Ft]). cbn. rewrite Ft. split; [by eexists|]. intros Hf. rewrite provider_state_outstanding. by eapply Hf.
    + cbn. split; [|done]. destruct E as [->|(sb & e0 & _ & [_ Ft])]; [exists []; by rewrite app_nil_r|by eexists].
  - destruct (sys_starting y !! n) as [[[sid sb] inst]|]; [|intros [= <- <-]; split; [exists []; by rewrite app_nil_r|done]].
    destruct (StartVM_finish _ _ _ _ _) as [r s1] eqn:E. apply StartVM_finish_spec in E as (evs & Ht & _). intros [= <- <-].
    split; [by eexists|]. by destruct (is_ok r).
  - destruct (StopVM sid (sys_service y)) as [r s1] eqn:E. intros [= <- <-]. split; [|by destruct (is_ok r)].
    destruct (decide (sid = "" \/ sandboxes (sys_service y) !! sid = None)) as [Hno|Hyes].
    { destruct (StopVM_unknown _ _ Hno) as [e0 E0]. rewrite E0 in E. injection E as <- <-. exists []. by rewrite app_nil_r. }
    destruct (sandboxes (sys_service y) !! sid) as [sb|] eqn:Esb; [|tauto].
    destruct (StopVM_spec sid sb _ ltac:(tauto) Esb) as (s2 & d & patch & t & E2 & _ & Ht & _). rewrite E2 in E. injection E as <- <-.
    by eexists.
  - intros [= <- <-]. split; [exists []; by rewrite app_nil_r|]. by destruct (GetInfo _ _ _ _) as [[]|].
Qed.

Lemma run_exact y log y' : fresh_system y -> service_run y log y' -> fresh_creations (trace (sys_service y')) -> exact_inv (abstract y').
Proof.
  intros Hf R. induction R as [|log q ans y1 y2 R IH E|log y1 w R IH]; intros Hc.
  - rewrite fresh_abstract by done. apply exact_init.
  - destruct (serve_trace _ _ _ _ E) as [[evs Ht] Ha].
    eapply spec_step_exact; [by apply serve_simulated; [eapply service_run_inv|]|by apply Ha|]. apply IH. rewrite Ht in Hc. by eapply fresh_prefix.
  - by apply IH.
Qed.

Lemma serve_answers q y : exists ans y', serve q y = (Some ans, y').
Proof.
  unfold serve. destruct q as [req|sid|n|sid|ns pod wait e].
  - pose proof (CreateVM_spec serverConfig req (sys_service y)) as Hc. destruct (CreateVM _ _ _) as [r s1].
    destruct Hc as (_ & _ & Hr). destruct r as [[]|]; [by eexists _, _..|done].
  - destruct (StartVM_create _ _) as [[[]|] s1]; by eexists _, _.
  - destruct (sys_starting y !! n) as [[[sid sb] inst]|]; [|by eexists _, _]. destruct (StartVM_finish _ _ _ _ _). by eexists _, _.
  - destruct (StopVM _ _). by eexists _, _.
  - by eexists _, _.
Qed.

(** Where an instance is: in the table, with a start under way, refused or lost. *)
Definition in_sandbox (y : system) (id : string) : Prop :=
  exists sid sb, sandboxes (sys_service y) !! sid = Some sb /\ instanceID sb = id.

Definition under_way (y : system) : list string := (fun x => ID x.2) <$> sys_starting y.

Lemma abstract_under_way y : (starting (abstract y)).*2 = under_way y.
Proof. cbn. unfold under_way. by rewrite <- list_fmap_compose. Qed.

Lemma abstract_recorded y id : recorded_in (abstract y) id <-> in_sandbox y id.
Proof.
  unfold recorded_in, in_sandbox. split.
  - intros (sid & v & Hv & Hi). rewrite abstract_vm in Hv. destruct (_ !! sid) as [sb|] eqn:Hs; [|done]. injection Hv as <-. by exists sid, sb.
  - intros (sid & sb & Hs & Hi). exists sid, (vm_of sb). by rewrite abstract_vm, Hs.
Qed.

(** ** Theorems *)

(** C2: The service refines its specification: every run of the handlers from the start,
    with any requests in any order, other requests between the two halves of a StartVM,
    queries that wait or not, any instance ids and any failures of what the handlers
    call, is a run of the abstract table of machines with the same requests and answers
    that ends in the abstraction of the state the service is in; and every request that
    comes next is answered, without a panic. *)
Theorem service_refines y log y' :
  fresh_system y -> service_run y log y' ->
  spec_run spec_init log (abstract y') /\ (forall q, exists ans y2, serve q y' = (Some ans, y2)).
Proof.
  intros Hf R. split; [|intros q; apply serve_answers].
  rewrite <- (fresh_abstract y Hf). apply service_simulated; [rewrite fresh_abstract; [apply spec_init_inv|done]|done].
Qed.

(** C3: No instance the provider returned is forgotten without a trace.  After every run as
    above and for any ids, an instance that was returned and not deleted is recorded in a
    sandbox, or held by a StartVM that has not recorded it yet, or the provider has
    refused its deletion, or it is lost: its sandbox was stopped before StartVM recorded
    it, or a second StartVM of the sandbox took its place.  When the provider returns ids
    that are not empty and belong to no instance it has, the account is exact: these are
    all the instances there are, and no two sandboxes or starts share one. *)
Theorem instances_accounted_exactly y log y' :
  fresh_system y -> service_run y log y' ->
  let s' := sys_service y' in
  (forall id, id ∈ outstanding (trace s') ->
     in_sandbox y' id \/ id ∈ under_way y' \/ id ∈ (provider_state (trace s')).2 \/ id ∈ sys_lost y') /\
  (fresh_creations (trace s') ->
     (forall id, id <> ""%string -> in_sandbox y' id \/ id ∈ under_way y' \/ id ∈ (provider_state (trace s')).2 \/ id ∈ sys_lost y' ->
        id ∈ outstanding (trace s')) /\
     (forall sid1 sid2 sb1 sb2, sandboxes s' !! sid1 = Some sb1 -> sandboxes s' !! sid2 = Some sb2 ->
        instanceID sb1 = instanceID sb2 -> instanceID sb1 <> ""%string -> sid1 = sid2) /\
     NoDup (under_way y') /\
     (forall id, id <> ""%string -> in_sandbox y' id -> id ∉ under_way y')).
Proof.
  intros Hf R s'. destruct (service_run_inv y log y' Hf R) as [Hr Hlo Hl]. cbn [live refused lost abstract] in Hr, Hlo, Hl.
  rewrite provider_state_outstanding in Hr, Hlo, Hl. fold s' in Hr, Hlo, Hl. split.
  - intros id Hid. rewrite <- abstract_recorded, <- abstract_under_way. by apply Hl.
  - intros Hc. destruct (run_exact y log y' Hf R Hc) as [Hne Hst Hnd Hrec Hd]. rewrite abstract_under_way in Hst, Hnd, Hrec.
    assert (Hin : forall id, id <> ""%string -> in_sandbox y' id -> id ∈ outstanding (trace s') /\ id ∉ under_way y').
    { intros id Hi (sid & sb & Hs & <-). rewrite <- provider_state_outstanding. apply (Hrec sid (vm_of sb)); [by rewrite abstract_vm, Hs|done]. }
    cbn in Hst. rewrite provider_state_outstanding in Hst. split_and!.
    + intros id Hi [Hx|[Hx|[Hx|Hx]]]; [by apply Hin|by apply Hst|by apply Hr|by apply Hlo].
    + intros sid1 sid2 sb1 sb2 Hs1 Hs2 E Hi. apply (Hd sid1 sid2 (vm_of sb1) (vm_of sb2)); rewrite ?abstract_vm; try done; [by fold s'; rewrite Hs1|by fold s'; rewrite Hs2].
    + done.
    + intros id Hi Hx. by apply Hin.
Qed.

End Refinement.

(** ** Witnesses

    A machine is created and started, its instance asked for before and after it is
    recorded; a second start of it gets another instance, and the machine is stopped before
    that is recorded. *)

Definition sys0 : system (W := Z) := mkSystem start_state [] ∅.
Definition next (q : request) (y : system (W := Z)) : system := (serve conf1 q y).2.

Definition sys1 := next (RCreate req1) sys0.
Definition sys2 := next (RStart "s1") sys1.
Definition sys3 := next (RInfo "default" "web" true None) sys2.
Definition sys4 := next (RFinish 0) sys3.
Definition sys5 := next (RInfo "default" "web" false None) sys4.
Definition sys6 := next (RStart "s1") sys5.
Definition sys7 := next (RStop "s1") sys6.
Definition sys8 := next (RFinish 0) sys7.

Definition log5 : list (request * answer) :=
  [(RCreate req1, ASocket "/run/peerpod/pods/s1/agent.ttrpc"); (RStart "s1", AUnderWay "i-0");
   (RInfo "default" "web" true None, AError); (RFinish 0, AOk); (RInfo "default" "web" false None, AInstance "i-0")].
Definition log8 : list (request * answer) :=
  log5 ++ [(RStart "s1", AUnderWay "i-1"); (RStop "s1", AOk); (RFinish 0, AError)].

Lemma serve_next q ans y : (serve conf1 q y).1 = Some ans -> serve conf1 q y = (Some ans, next q y).
Proof. intros <-. apply run_pair. Qed.

Ltac run_next := eapply service_run_snoc; [|apply serve_next; vm_compute; reflexivity].

Lemma run_log5 : service_run conf1 sys0 log5 sys5.
Proof.
  change log5 with (((((([] ++ [(RCreate req1, ASocket "/run/peerpod/pods/s1/agent.ttrpc")]) ++ [(RStart "s1", AUnderWay "i-0")]) ++
    [(RInfo "default" "web" true None, AError)]) ++ [(RFinish 0, AOk)])) ++ [(RInfo "default" "web" false None, AInstance "i-0")]).
  do 5 run_next. constructor.
Qed.

Lemma run_log8 : service_run conf1 sys0 log8 sys8.
Proof.
  change log8 with (((log5 ++ [(RStart "s1", AUnderWay "i-1")]) ++ [(RStop "s1", AOk)]) ++ [(RFinish 0, AError)]).
  do 3 run_next. exact run_log5.
Qed.

Lemma sys0_fresh : fresh_system sys0.
Proof. by split. Qed.

Lemma service_refines_witness :
  spec_run (PodsDir conf1) spec_init log8 (abstract sys8) /\ (forall q, exists ans y2, serve conf1 q sys8 = (Some ans, y2)).
Proof. apply (@service_refines Z ipv4_netip counting_env kata_keys _ conf1 sys0); [exact sys0_fresh|exact run_log8]. Defined.

(** The instance of the second start is lost, and there is no other. *)
Lemma instances_accounted_exactly_witness :
  outstanding (trace (sys_service sys8)) = {["i-1"]} /\
  (in_sandbox sys8 "i-1" \/ "i-1" ∈ under_way sys8 \/ "i-1" ∈ (provider_state (trace (sys_service sys8))).2 \/ "i-1" ∈ sys_lost sys8) /\
  sys_lost sys8 = {["i-1"]} /\ NoDup (under_way sys5).
Proof.
  destruct (@instances_accounted_exactly Z ipv4_netip counting_env kata_keys _ conf1 sys0 log8 sys8 sys0_fresh run_log8) as [Hi _].
  destruct (@instances_accounted_exactly Z ipv4_netip counting_env kata_keys _ conf1 sys0 log5 sys5 sys0_fresh run_log5) as [_ Hx].
  split; [vm_compute; reflexivity|]. split; [apply Hi; apply (bool_decide_unpack _); vm_compute; exact I|].
  split; [vm_compute; reflexivity|]. apply Hx. intros tr1 pod sid inst tr2 E.
  assert (tr1 = []) as ->.
  { destruct tr1 as [|e1 [|e2 [|e3 tr1]]]; vm_compute in E; [done|discriminate..|]. injection E. intros E' _ _ _. by destruct tr1. }
  vm_compute in E. injection E as _ _ <- _. split; [done|]. apply not_elem_of_empty.
Defined.
