(* ===== verification/VolumeClient.v ===== *)
(** * The generated client of PeerpodVolume objects

    Models src/csi-wrapper/pkg/generated/peerpodvolume: the clientset and its
    construction, the typed client (a REST request per method) and the lister over an
    informer's index.  The REST library of client-go is the class [RestClient]; what the
    API server does with a request is stated in [ApiServer].  With them the client
    implements the interface that the handlers of CsiVolumes are written against:
    [client_env] and [client_laws]. *)

From Stdlib Require Import ZArith Ascii String Lia.
From stdpp Require Import base gmap strings list fin_maps.
From S2P Require Import Prelude CsiVolumes CsiProps CsiDispatch.

Open Scope Z_scope.
Open Scope go_scope.

(** ** Requests *)

Inductive verb := GET | POST | PUT | DELETE | PATCH (pt : string).

Record ListOptions := mkListOptions {
  lo_LabelSelector : string;
  lo_TimeoutSeconds : option Z;
  lo_Watch : bool;
  lo_rest : string
}.

Inductive params := PNone | POptions (text : string) | PList (o : ListOptions).

Inductive body := BNone | BVolume (v : PeerpodVolume) | BOptions (text : string) | BData (data : string).

Record RestRequest := mkRest {
  rq_verb : verb;
  rq_namespace : string;
  rq_resource : string;
  rq_name : option string;
  rq_subresources : list string;
  rq_params : params;
  rq_timeout : Z;
  rq_body : body
}.

Inductive RestAnswer := RVolume (v : PeerpodVolume) | RList (items : list PeerpodVolume) | RStatus.

(** [Do] and [Watch] of a request. *)
Class RestClient (W : Type) := {
  watcher : Type;
  rest_do : RestRequest -> M W (result RestAnswer);
  rest_watch : RestRequest -> M W (result watcher)
}.

(** [client.Get()] and the like, and the methods that fill a request in. *)
Definition new_request (v : verb) : RestRequest := mkRest v EmptyString EmptyString None [] PNone 0 BNone.

Definition Namespace (ns : string) (r : RestRequest) : RestRequest :=
  mkRest (rq_verb r) ns (rq_resource r) (rq_name r) (rq_subresources r) (rq_params r) (rq_timeout r) (rq_body r).
Definition Resource (res : string) (r : RestRequest) : RestRequest :=
  mkRest (rq_verb r) (rq_namespace r) res (rq_name r) (rq_subresources r) (rq_params r) (rq_timeout r) (rq_body r).
Definition ObjectName (n : string) (r : RestRequest) : RestRequest :=
  mkRest (rq_verb r) (rq_namespace r) (rq_resource r) (Some n) (rq_subresources r) (rq_params r) (rq_timeout r) (rq_body r).
Definition SubResource (subs : list string) (r : RestRequest) : RestRequest :=
  mkRest (rq_verb r) (rq_namespace r) (rq_resource r) (rq_name r) subs (rq_params r) (rq_timeout r) (rq_body r).
Definition VersionedParams (p : params) (r : RestRequest) : RestRequest :=
  mkRest (rq_verb r) (rq_namespace r) (rq_resource r) (rq_name r) (rq_subresources r) p (rq_timeout r) (rq_body r).
Definition Timeout_ (t : Z) (r : RestRequest) : RestRequest :=
  mkRest (rq_verb r) (rq_namespace r) (rq_resource r) (rq_name r) (rq_subresources r) (rq_params r) t (rq_body r).
Definition Body_ (b : body) (r : RestRequest) : RestRequest :=
  mkRest (rq_verb r) (rq_namespace r) (rq_resource r) (rq_name r) (rq_subresources r) (rq_params r) (rq_timeout r) b.

(** [Into(result)] with a fresh object: it stays empty when there is an error. *)
Definition Into_volume (r : result RestAnswer) : PeerpodVolume * option GoError :=
  match r with
  | Err e => (zero_volume, Some e)
  | Ok (RVolume v) => (v, None)
  | Ok _ => (zero_volume, Some (Errorf "unable to decode" []))
  end.

Definition Into_list (r : result RestAnswer) : list PeerpodVolume * option GoError :=
  match r with
  | Err e => ([], Some e)
  | Ok (RList items) => (items, None)
  | Ok _ => ([], Some (Errorf "unable to decode" []))
  end.

Definition Error_of (r : result RestAnswer) : option GoError :=
  match r with Err e => Some e | Ok _ => None end.

(** [time.Duration(seconds) * time.Second]: the product is an int64. *)
Definition list_timeout (o : ListOptions) : Z :=
  match lo_TimeoutSeconds o with Some s => wrap64 (s * 1000000000) | None => 0 end.

Section Client.

Context {W : Type} `{RestClient W}.

(** The client of a namespace; its REST client is the instance. *)
Record peerpodVolumes := mkPeerpodVolumes { c_ns : string }.

Definition newPeerpodVolumes (namespace : string) : peerpodVolumes := mkPeerpodVolumes namespace.

Context (c : peerpodVolumes).

Definition do_volume (r : RestRequest) : M W (PeerpodVolume * option GoError) :=
  let* a := rest_do r in mret (Into_volume a).

Definition volumes_Get (name options : string) : M W (PeerpodVolume * option GoError) :=
  do_volume (VersionedParams (POptions options) (ObjectName name (Resource "peerpodvolumes" (Namespace (c_ns c) (new_request GET))))).

Definition volumes_List (o : ListOptions) : M W (list PeerpodVolume * option GoError) :=
  let* a := rest_do (Timeout_ (list_timeout o) (VersionedParams (PList o)
              (Resource "peerpodvolumes" (Namespace (c_ns c) (new_request GET))))) in
  mret (Into_list a).

Definition volumes_Watch (o : ListOptions) : M W (result watcher) :=
  rest_watch (Timeout_ (list_timeout o)
    (VersionedParams (PList (mkListOptions (lo_LabelSelector o) (lo_TimeoutSeconds o) true (lo_rest o)))
      (Resource "peerpodvolumes" (Namespace (c_ns c) (new_request GET))))).

Definition volumes_Create (v : PeerpodVolume) (options : string) : M W (PeerpodVolume * option GoError) :=
  do_volume (Body_ (BVolume v) (VersionedParams (POptions options) (Resource "peerpodvolumes" (Namespace (c_ns c) (new_request POST))))).

Definition volumes_Update (v : PeerpodVolume) (options : string) : M W (PeerpodVolume * option GoError) :=
  do_volume (Body_ (BVolume v) (VersionedParams (POptions options)
    (ObjectName (v_Name v) (Resource "peerpodvolumes" (Namespace (c_ns c) (new_request PUT)))))).

Definition volumes_UpdateStatus (v : PeerpodVolume) (options : string) : M W (PeerpodVolume * option GoError) :=
  do_volume (Body_ (BVolume v) (VersionedParams (POptions options)
    (SubResource ["status"] (ObjectName (v_Name v) (Resource "peerpodvolumes" (Namespace (c_ns c) (new_request PUT))))))).

Definition volumes_Delete (name options : string) : M W (option GoError) :=
  let* a := rest_do (Body_ (BOptions options) (ObjectName name (Resource "peerpodvolumes" (Namespace (c_ns c) (new_request DELETE))))) in
  mret (Error_of a).

Definition volumes_DeleteCollection (options : string) (o : ListOptions) : M W (option GoError) :=
  let* a := rest_do (Body_ (BOptions options) (Timeout_ (list_timeout o) (VersionedParams (PList o)
              (Resource "peerpodvolumes" (Namespace (c_ns c) (new_request DELETE)))))) in
  mret (Error_of a).

Definition volumes_Patch (name pt data options : string) (subresources : list string) : M W (PeerpodVolume * option GoError) :=
  do_volume (Body_ (BData data) (VersionedParams (POptions options)
    (SubResource subresources (ObjectName name (Resource "peerpodvolumes" (Namespace (c_ns c) (new_request (PATCH pt)))))))).

End Client.

(** The Go pair as a result: the empty object beside an error is [object] of CsiVolumes. *)
Definition as_result (r : PeerpodVolume * option GoError) : result PeerpodVolume :=
  match r.2 with Some e => Err e | None => Ok r.1 end.

Lemma as_result_object a : object (as_result (Into_volume a)) = (Into_volume a).1.
Proof. by destruct a as [[]|]. Qed.

(** ** The handlers' interface *)

(** What an API server does with the requests of the client: a status subresource,
    optimistic concurrency, namespaces apart. *)
Class ApiServer (W : Type) `{RestClient W} := {
  server_volume : W -> string -> string -> option PeerpodVolume;
  server_named : forall w ns n v, server_volume w ns n = Some v -> v_Name v = n;
  server_elsewhere : forall rq w r w', rest_do rq w = (r, w') -> forall ns n, ns <> rq_namespace rq -> server_volume w' ns n = server_volume w ns n;
  server_other : forall rq w r w', rest_do rq w = (r, w') -> forall name n, rq_name rq = Some name -> n <> name ->
    server_volume w' (rq_namespace rq) n = server_volume w (rq_namespace rq) n;
  server_get : forall rq name w r w', rest_do rq w = (r, w') -> rq_verb rq = GET -> rq_name rq = Some name ->
    (forall ns n, server_volume w' ns n = server_volume w ns n) /\
    (forall v, r = Ok (RVolume v) -> server_volume w (rq_namespace rq) name = Some v);
  server_post : forall rq v w r w', rest_do rq w = (r, w') -> rq_verb rq = POST -> rq_body rq = BVolume v ->
    (forall n, n <> v_Name v -> server_volume w' (rq_namespace rq) n = server_volume w (rq_namespace rq) n) /\
    (forall v', r = Ok (RVolume v') -> server_volume w (rq_namespace rq) (v_Name v) = None /\
       server_volume w' (rq_namespace rq) (v_Name v) = Some v' /\
       v_Name v' = v_Name v /\ v_Labels v' = v_Labels v /\ v_Spec v' = v_Spec v);
  server_put : forall rq v w r w', rest_do rq w = (r, w') -> rq_verb rq = PUT -> rq_body rq = BVolume v ->
    rq_name rq = Some (v_Name v) -> rq_subresources rq = [] \/ rq_subresources rq = ["status"] ->
    let status := bool_decide (rq_subresources rq = ["status"]) in
    let applied v' := exists old, server_volume w (rq_namespace rq) (v_Name v) = Some old /\
      v_ResourceVersion old = v_ResourceVersion v /\ server_volume w' (rq_namespace rq) (v_Name v) = Some v' /\
      v_Name v' = v_Name v /\ v_Labels v' = v_Labels (if status then old else v) /\
      v_Spec v' = v_Spec (if status then old else v) /\ v_State v' = v_State (if status then v else old) in
    (forall v', r = Ok (RVolume v') -> applied v') /\
    (server_volume w' (rq_namespace rq) (v_Name v) = server_volume w (rq_namespace rq) (v_Name v) \/ exists v', applied v')
}.

Section Interface.

Context {W : Type} `{ApiServer W} (env : CsiEnv W) (ns : string).

(** The operations of the wrappers' environment on volumes, by the client of the namespace
    that the caller names; the services have the namespace [ns], and the driver, the file
    system and the rest are those of [env]. *)
Definition client_env : CsiEnv W := {|
  vol_Get namespace n := let* r := volumes_Get (newPeerpodVolumes namespace) n "" in mret (as_result r);
  vol_Create namespace v := let* r := volumes_Create (newPeerpodVolumes namespace) v "" in mret (as_result r);
  vol_Update namespace v := let* r := volumes_Update (newPeerpodVolumes namespace) v "" in mret (as_result r);
  vol_UpdateStatus namespace v := let* r := volumes_UpdateStatus (newPeerpodVolumes namespace) v "" in mret (as_result r);
  vol_Delete namespace n := volumes_Delete (newPeerpodVolumes namespace) n "";
  csi_Namespace := ns;
  driver_dial := @driver_dial W env;
  driver := @driver W env;
  uuid_NewV4 := @uuid_NewV4 W env;
  vminfo_dial := @vminfo_dial W env;
  GetVMInfo := @GetVMInfo W env;
  fs_change := @fs_change W env;
  csi_getenv := @csi_getenv W env;
  azureVM := @azureVM W env
|}.

(** The other operations do not reach the API server. *)
Record env_apart : Prop := mkEnvApart {
  apart_dial : forall w r w', @driver_dial W env w = (r, w') -> forall n, server_volume w' ns n = server_volume w ns n;
  apart_driver : forall c w r w', @driver W env c w = (r, w') -> forall n, server_volume w' ns n = server_volume w ns n;
  apart_uuid : forall w r w', @uuid_NewV4 W env w = (r, w') -> forall n, server_volume w' ns n = server_volume w ns n;
  apart_fs : forall k p w r w', @fs_change W env k p w = (r, w') -> forall n, server_volume w' ns n = server_volume w ns n
}.

(** What a typed call returns, from the answer to its request. *)
Lemma do_volume_run rq w r w' :
  mbind (do_volume rq) (fun x => mret (as_result x)) w = (r, w') ->
  exists a, rest_do rq w = (a, w') /\ forall v, r = Ok v -> a = Ok (RVolume v).
Proof.
  unfold mbind, mret, do_volume. unfold mbind, mret. destruct (rest_do rq w) as [a w1]. intros [= <- <-]. exists a. split; [done|].
  intros v. by destruct a as [[]|]; intros [= <-].
Qed.

(** The client keeps the laws that the handlers rely on. *)
Program Definition client_laws (apart : env_apart) : @CsiLaws W client_env :=
  {| vol_stored w n := server_volume w ns n |}.
Next Obligation. intros _ w n v. apply server_named. Qed.
Next Obligation.
  intros _ n w r w' E. apply do_volume_run in E as (a & E & Hr). destruct (server_get _ n _ _ _ E eq_refl eq_refl) as [Hs Hg].
  split; [by intros; apply Hs|]. intros v Hv. by apply Hg, Hr.
Qed.
Next Obligation.
  intros _ v w r w' E v' Hv'. apply do_volume_run in E as (a & E & Hr). destruct (server_post _ v _ _ _ E eq_refl eq_refl) as [_ Hp].
  by apply Hp, Hr.
Qed.
Next Obligation.
  intros _ v w r w' E n Hn. apply do_volume_run in E as (a & E & Hr). by apply (proj1 (server_post _ v _ _ _ E eq_refl eq_refl)).
Qed.
Next Obligation. intros _ v w r w' E n Hn. apply do_volume_run in E as (a & E & _). by apply (server_other _ _ _ _ E (v_Name v)). Qed.
Next Obligation. intros _ v w r w' E n Hn. apply do_volume_run in E as (a & E & _). by apply (server_other _ _ _ _ E (v_Name v)). Qed.
Next Obligation.
  intros _ v w r w' E applied. apply do_volume_run in E as (a & E & Hr).
  destruct (server_put _ v _ _ _ E eq_refl eq_refl eq_refl (or_introl eq_refl)) as [Hok Heff]. split; [by intros v' Hv'; apply Hok, Hr|done].
Qed.
Next Obligation.
  intros _ v w r w' E applied. apply do_volume_run in E as (a & E & Hr).
  destruct (server_put _ v _ _ _ E eq_refl eq_refl eq_refl (or_intror eq_refl)) as [Hok Heff]. split; [by intros v' Hv'; apply Hok, Hr|done].
Qed.
Next Obligation. intros Ha c w r w' E. by apply (apart_driver Ha c w r). Qed.
Next Obligation. intros Ha w r w' E. by apply (apart_dial Ha w r). Qed.
Next Obligation. intros Ha w r w' E. by apply (apart_uuid Ha w r). Qed.
Next Obligation. intros Ha k p w r w' E. by apply (apart_fs Ha k p w r). Qed.

End Interface.

(** ** The lister *)

(** An informer's index: [GetByKey], and [cache.ListAll] and [ListAllByNamespace], which
    hand the objects that a selector matches to a function, and can end with an error. *)
Record Indexer := mkIndexer {
  idx_GetByKey : string -> result (option PeerpodVolume);
  idx_ListAll : string -> list PeerpodVolume * option GoError;
  idx_ListAllByNamespace : string -> string -> list PeerpodVolume * option GoError
}.

Record peerpodVolumeLister := NewPeerpodVolumeLister { l_indexer : Indexer }.
Record peerpodVolumeNamespaceLister := mkNamespaceLister { nl_indexer : Indexer; nl_namespace : string }.

(** [ret = append(ret, m)] for each. *)
Definition append_all (items : list PeerpodVolume) : list PeerpodVolume := foldl (fun ret m => ret ++ [m]) [] items.

Definition lister_List (l : peerpodVolumeLister) (selector : string) : list PeerpodVolume * option GoError :=
  let '(items, err) := idx_ListAll (l_indexer l) selector in (append_all items, err).

Definition lister_PeerpodVolumes (l : peerpodVolumeLister) (namespace : string) : peerpodVolumeNamespaceLister :=
  mkNamespaceLister (l_indexer l) namespace.

Definition nslister_List (l : peerpodVolumeNamespaceLister) (selector : string) : list PeerpodVolume * option GoError :=
  let '(items, err) := idx_ListAllByNamespace (nl_indexer l) (nl_namespace l) selector in (append_all items, err).

Definition nslister_Get (l : peerpodVolumeNamespaceLister) (name : string) : result PeerpodVolume :=
  match idx_GetByKey (nl_indexer l) (nl_namespace l +:+ "/" +:+ name) with
  | Err e => Err e
  | Ok None => Err (APIStatus NotFound)
  | Ok (Some v) => Ok v
  end.

Lemma append_all_id items : append_all items = items.
Proof.
  unfold append_all. assert (Hl : forall acc, foldl (fun ret m => ret ++ [m]) acc items = acc ++ items); [|apply Hl].
  induction items as [|x items IH]; intros acc; cbn; [by rewrite app_nil_r|]. rewrite IH, <- app_assoc. done.
Qed.

(** The index of an informer with a given cache: objects are filed by their key. *)
Definition index_of (cache : gmap (string * string) PeerpodVolume) : Indexer :=
  mkIndexer
    (fun key => Ok match SplitMetaNamespaceKey key with Some id => cache !! id | None => None end)
    (fun _ => ((map_to_list cache).*2, None))
    (fun ns _ => ((filter (fun kv => kv.1.1 = ns) (map_to_list cache)).*2, None)).

(** The generated lister over that index is the lister of the dispatcher. *)
Lemma nslister_Get_dispatch {Q} `{WorkQueue Q} ns (s : dispatcher) name :
  well_named (ns, name) ->
  nslister_Get (lister_PeerpodVolumes (NewPeerpodVolumeLister (index_of (CsiDispatch.cache s))) ns) name = lister (Q := Q) ns s None name.
Proof.
  intros Hw. unfold nslister_Get. cbn. unfold CsiDispatch.lister.
  assert (ns +:+ "/" +:+ name = key_of (ns, name)) as ->.
  { unfold key_of. cbn. destruct Hw as (Hn & _). cbn in Hn. by rewrite (proj2 (String.eqb_neq _ _) Hn). }
  rewrite split_key by done. by destruct (CsiDispatch.cache s !! (ns, name)).
Qed.

(** ** The clientset *)

(** Types and constructors of client-go. *)
Class RestLibrary := {
  float32 : Type;
  above_zero : float32 -> bool;
  limiter : Type;
  http_client : Type;
  rest_client : Type;
  discovery_client : Type;
  NewTokenBucketRateLimiter : float32 -> Z -> limiter;
  DefaultKubernetesUserAgent : string
}.

Record RestConfig `{RestLibrary} := mkRestConfig {
  cfg_UserAgent : string;
  cfg_QPS : float32;
  cfg_Burst : Z;
  cfg_RateLimiter : option limiter;
  cfg_GroupVersion : option (string * string);
  cfg_APIPath : string;
  cfg_Codecs : string;
  cfg_rest : string
}.

Arguments mkRestConfig {_}.

Class RestBuild `{RestLibrary} := {
  HTTPClientFor : RestConfig -> result http_client;
  RESTClientForConfigAndClient : RestConfig -> http_client -> result rest_client;
  NewDiscoveryClientForConfigAndClient : RestConfig -> http_client -> result discovery_client;
  NewDiscoveryClient : rest_client -> discovery_client
}.

Section Clientset.

Context `{RestBuild}.

Definition with_user_agent (c : RestConfig) : RestConfig :=
  if String.eqb (cfg_UserAgent c) "" then
    mkRestConfig DefaultKubernetesUserAgent (cfg_QPS c) (cfg_Burst c) (cfg_RateLimiter c) (cfg_GroupVersion c) (cfg_APIPath c) (cfg_Codecs c) (cfg_rest c)
  else c.

Definition SchemeGroupVersion : string * string := ("confidentialcontainers.org", "v1alpha1").

(** Its error is always nil. *)
Definition setConfigDefaults (c : RestConfig) : RestConfig :=
  with_user_agent (mkRestConfig (cfg_UserAgent c) (cfg_QPS c) (cfg_Burst c) (cfg_RateLimiter c)
    (Some SchemeGroupVersion) "/apis" "WithoutConversion" (cfg_rest c)).

(** typed/peerpodvolume/v1alpha1: a nil client has a nil REST client. *)
Definition typed_NewForConfigAndClient (c : RestConfig) (h : http_client) : result rest_client :=
  RESTClientForConfigAndClient (setConfigDefaults c) h.

Definition typed_NewForConfig (c : RestConfig) : result rest_client :=
  let config := setConfigDefaults c in
  match HTTPClientFor config with
  | Err e => Err e
  | Ok h => typed_NewForConfigAndClient config h
  end.

Definition typed_NewForConfigOrDie (c : RestConfig) : outcome rest_client :=
  match typed_NewForConfig c with Err _ => Panic | Ok client => Return client end.

Definition typed_RESTClient (c : option rest_client) : option rest_client := match c with None => None | Some r => Some r end.

Record Clientset := mkClientset { cs_Discovery : discovery_client; cs_typed : rest_client }.

(** The limiter of a configuration that asks for one and has none. *)
Definition with_rate_limiter (c : RestConfig) : result RestConfig :=
  match cfg_RateLimiter c with
  | None =>
      if above_zero (cfg_QPS c) then
        if cfg_Burst c <=? 0 then Err (Errorf "burst is required to be greater than 0 when RateLimiter is not set and QPS is set to greater than 0" [])
        else Ok (mkRestConfig (cfg_UserAgent c) (cfg_QPS c) (cfg_Burst c) (Some (NewTokenBucketRateLimiter (cfg_QPS c) (cfg_Burst c)))
                   (cfg_GroupVersion c) (cfg_APIPath c) (cfg_Codecs c) (cfg_rest c))
      else Ok c
  | Some _ => Ok c
  end.

Definition NewForConfigAndClient (c : RestConfig) (h : http_client) : result Clientset :=
  match with_rate_limiter c with
  | Err e => Err e
  | Ok c =>
      match typed_NewForConfigAndClient c h with
      | Err e => Err e
      | Ok typed =>
          match NewDiscoveryClientForConfigAndClient c h with
          | Err e => Err e
          | Ok d => Ok (mkClientset d typed)
          end
      end
  end.

Definition NewForConfig (c : RestConfig) : result Clientset :=
  let c' := with_user_agent c in
  match HTTPClientFor c' with
  | Err e => Err e
  | Ok h => NewForConfigAndClient c' h
  end.

Definition NewForConfigOrDie (c : RestConfig) : outcome Clientset :=
  match NewForConfig c with Err _ => Panic | Ok cs => Return cs end.

Definition New_clientset (r : rest_client) : Clientset := mkClientset (NewDiscoveryClient r) r.

(** Both clients of a set are made from one configuration and one HTTP client; the
    configuration has a user agent, and a limiter when it asks for one. *)
Lemma NewForConfig_spec c cs :
  NewForConfig c = Ok cs ->
  exists c' h, HTTPClientFor (with_user_agent c) = Ok h /\ with_rate_limiter (with_user_agent c) = Ok c' /\
    RESTClientForConfigAndClient (setConfigDefaults c') h = Ok (cs_typed cs) /\
    NewDiscoveryClientForConfigAndClient c' h = Ok (cs_Discovery cs) /\
    (DefaultKubernetesUserAgent <> ""%string -> cfg_UserAgent c' <> ""%string) /\
    (above_zero (cfg_QPS c') = true -> cfg_RateLimiter c' <> None).
Proof.
  unfold NewForConfig, NewForConfigAndClient. destruct (HTTPClientFor _) as [h|] eqn:Eh; [|done].
  destruct (with_rate_limiter _) as [c'|] eqn:El; [|done]. unfold typed_NewForConfigAndClient.
  destruct (RESTClientForConfigAndClient _ _) as [t|] eqn:Et; [|done].
  destruct (NewDiscoveryClientForConfigAndClient _ _) as [d|] eqn:Ed; [|done]. intros [= <-]. exists c', h.
  repeat split; try done.
  - intros Hd. assert (cfg_UserAgent c' = cfg_UserAgent (with_user_agent c)) as ->.
    { unfold with_rate_limiter in El. go_cases; done. }
    unfold with_user_agent. destruct (String.eqb (cfg_UserAgent c) "") eqn:E; bool_to_prop; done.
  - unfold with_rate_limiter in El. go_cases; try done; congruence.
Qed.

End Clientset.

(** ** Namespaces stay apart *)

Create HintDb confinement.

Section Confinement.

Context {W : Type} `{ApiServer W} `{CsiCodec} (env : CsiEnv W) (ns : string).

Notation st := (wrapper W).

(** A computation that changes no volume outside the namespace. *)
Definition confined {A} (m : M st A) : Prop :=
  forall s a s', m s = (a, s') -> forall ns' n, ns' <> ns -> server_volume (vworld s') ns' n = server_volume (vworld s) ns' n.

(** The other operations do not reach the API server in any namespace. *)
Record env_outside : Prop := mkEnvOutside {
  outside_dial : forall w r w', @driver_dial W env w = (r, w') -> server_volume w' = server_volume w;
  outside_driver : forall c w r w', @driver W env c w = (r, w') -> server_volume w' = server_volume w;
  outside_uuid : forall w r w', @uuid_NewV4 W env w = (r, w') -> server_volume w' = server_volume w;
  outside_vmdial : forall w r w', @vminfo_dial W env w = (r, w') -> server_volume w' = server_volume w;
  outside_vminfo : forall a b w r w', @GetVMInfo W env a b w = (r, w') -> server_volume w' = server_volume w;
  outside_fs : forall k p w r w', @fs_change W env k p w = (r, w') -> server_volume w' = server_volume w
}.

Lemma confined_ret {A} (a : A) : confined (mret a).
Proof. by intros s a' s' [= <- <-]. Qed.

Lemma confined_bind {A B} (m : M st A) (k : A -> M st B) : confined m -> (forall a, confined (k a)) -> confined (mbind m k).
Proof.
  intros Hm Hk s b s'. unfold mbind. destruct (m s) as [a s1] eqn:E1. intros E2 ns' n Hn.
  rewrite (Hk _ _ _ _ E2 _ _ Hn). by eapply Hm.
Qed.

Lemma confined_api {A} (m : M W A) :
  (forall w a w', m w = (a, w') -> forall ns' n, ns' <> ns -> server_volume w' ns' n = server_volume w ns' n) -> confined (api m).
Proof. intros Hm s a s'. unfold api. destruct (m (vworld s)) as [x w'] eqn:E. intros [= <- <-]. by eapply Hm. Qed.

Context (outside : env_outside).

(** A request of the client goes to its namespace. *)
Lemma confined_request {A} (f : result RestAnswer -> A) rq : rq_namespace rq = ns ->
  forall w a w', mbind (rest_do rq) (fun x => mret (f x)) w = (a, w') ->
  forall ns' n, ns' <> ns -> server_volume w' ns' n = server_volume w ns' n.
Proof.
  intros <- w a w'. unfold mbind, mret. destruct (rest_do rq w) as [x w1] eqn:E. intros [= <- <-]. by eapply server_elsewhere.
Qed.

Lemma confined_volume rq : rq_namespace rq = ns ->
  confined (api (mbind (do_volume rq) (fun x => mret (as_result x)))).
Proof.
  intros Hn. apply confined_api. intros w a w'. unfold do_volume, mbind at 1, mret.
  destruct (mbind _ _ w) as [x w1] eqn:E. intros [= <- <-]. by eapply confined_request.
Qed.

Lemma confined_outside {A} (m : M W A) : (forall w a w', m w = (a, w') -> server_volume w' = server_volume w) -> confined (api m).
Proof. intros Hm. apply confined_api. intros w a w' E ns' n _. by rewrite (Hm _ _ _ E). Qed.

Notation envc := (client_env env ns).

Lemma confined_client c : confined (@client W envc c).
Proof.
  intros s a s'. unfold client. destruct (driver c (vworld s)) as [x w'] eqn:E. intros [= <- <-] ns' n _. cbn.
  by rewrite (outside_driver outside _ _ _ _ E).
Qed.

Lemma confined_Get n : confined (api (@vol_Get W envc (@csi_Namespace W envc) n)).
Proof. by apply confined_volume. Qed.
Lemma confined_Create v : confined (api (@vol_Create W envc (@csi_Namespace W envc) v)).
Proof. by apply confined_volume. Qed.
Lemma confined_Update v : confined (api (@vol_Update W envc (@csi_Namespace W envc) v)).
Proof. by apply confined_volume. Qed.
Lemma confined_UpdateStatus v : confined (api (@vol_UpdateStatus W envc (@csi_Namespace W envc) v)).
Proof. by apply confined_volume. Qed.
Lemma confined_Delete n : confined (api (@vol_Delete W envc (@csi_Namespace W envc) n)).
Proof. apply confined_api. intros w a w'. by apply confined_request. Qed.
Lemma confined_dial : confined (api (@driver_dial W envc)).
Proof. apply confined_outside, (outside_dial outside). Qed.
Lemma confined_uuid : confined (api (@uuid_NewV4 W envc)).
Proof. apply confined_outside, (outside_uuid outside). Qed.
Lemma confined_vmdial : confined (api (@vminfo_dial W envc)).
Proof. apply confined_outside, (outside_vmdial outside). Qed.
Lemma confined_vminfo a b : confined (api (@GetVMInfo W envc a b)).
Proof. apply confined_outside. intros w x w'. apply (outside_vminfo outside). Qed.
Lemma confined_fs k p : confined (api (@fs_change W envc k p)).
Proof. apply confined_outside. intros w x w'. apply (outside_fs outside). Qed.

Hint Resolve confined_ret confined_client confined_Get confined_Create confined_Update confined_UpdateStatus confined_Delete
  confined_dial confined_uuid confined_vmdial confined_vminfo confined_fs : confinement.

(** Goes through a handler: binds, calls, and the branches of the code. *)
Ltac confine := repeat first [intros; solve [auto with confinement] | intros; apply confined_bind; [|intros] | case_match].

Lemma confined_redirect {A} (fn : M st A) : confined fn -> confined (@redirect W envc _ fn).
Proof. intros Hf. unfold redirect. confine. Qed.

Lemma confined_forward c : confined (@forward W envc c).
Proof. unfold forward. apply confined_bind; [apply confined_redirect|]; confine. Qed.

Lemma confined_retry budget attempt : confined attempt -> confined (retry_loop budget attempt).
Proof. intros Ha. induction budget as [|budget IH]; cbn [retry_loop]; confine. Qed.

Hint Resolve confined_redirect confined_forward confined_retry : confinement.

Lemma confined_attempt c v state : confined (@reproduce_attempt W envc c v state).
Proof. unfold reproduce_attempt. apply confined_bind; [apply confined_redirect|]; confine. Qed.

Lemma confined_updates v : confined (@update_and_state_saved W envc v).
Proof. unfold update_and_state_saved. confine. Qed.

Lemma confined_update_state id v state : confined (@update_then_state W envc id v state).
Proof. unfold update_then_state. confine. Qed.

Lemma confined_pass c : confined (@pass_on W envc c).
Proof. unfold pass_on. confine. Qed.

Lemma confined_create id name : confined (@createPeerpodVolume W envc id name).
Proof. unfold createPeerpodVolume. confine. Qed.

Lemma confined_cached id req saved : confined (@publish_cached W envc _ id req saved).
Proof. unfold publish_cached. confine. Qed.

Hint Resolve confined_attempt confined_updates confined_update_state confined_pass confined_create confined_cached : confinement.

(** The handlers of the three wrappers. *)
Inductive csi_request :=
| QCreateVolume (name : string) (parameters : gmap string string) (rest : string)
| QDeleteVolume (id : string)
| QControllerPublish (req : ControllerPublishRequest)
| QControllerUnpublish (id node : string)
| QNodeStage (req : NodeStageRequest)
| QNodePublish (req : NodePublishRequest)
| QNodeUnpublish (req : NodeUnpublishRequest)
| QNodeUnstage (req : NodeUnstageRequest)
| QForward (c : DriverCall)
| QSyncController (v : PeerpodVolume)
| QSyncNode (v : PeerpodVolume)
| QSyncPodVM (v : PeerpodVolume)
| QAnnounce (items : list PeerpodVolume).

Definition ignore {A} (m : M st A) : M st unit := mbind m (fun _ => mret tt).

(** What a request does, through the client of the namespace. *)
Definition csi_serve (q : csi_request) : M st unit :=
  match q with
  | QCreateVolume name parameters rest => ignore (@CreateVolume W envc name parameters rest)
  | QDeleteVolume id => ignore (@DeleteVolume W envc id)
  | QControllerPublish req => ignore (@ControllerPublishVolume W envc _ req)
  | QControllerUnpublish id node => ignore (@ControllerUnpublishVolume W envc id node)
  | QNodeStage req => ignore (@NodeStageVolume W envc _ req)
  | QNodePublish req => ignore (@NodePublishVolume W envc _ req)
  | QNodeUnpublish req => ignore (@NodeUnpublishVolume W envc _ req)
  | QNodeUnstage req => ignore (@NodeUnstageVolume W envc _ req)
  | QForward c => ignore (@forward W envc c)
  | QSyncController v => @Controller_SyncHandler W envc _ v
  | QSyncNode v => ignore (@Node_SyncHandler W envc v)
  | QSyncPodVM v => @PodVM_SyncHandler W envc _ v
  | QAnnounce items => ignore (@announce_pods W envc items)
  end.

Lemma confined_ignore {A} (m : M st A) : confined m -> confined (ignore m).
Proof. intros Hm. unfold ignore. confine. Qed.

Lemma confined_announce items : confined (@announce_pods W envc items).
Proof. induction items as [|v items IH]; cbn [announce_pods]; [confine|]. unfold announce_pod. confine. Qed.

Lemma csi_serve_confined q : confined (csi_serve q).
Proof.
  destruct q as [name ps rest|id|req|id node|req|req|req|req|c|v|v|v|items]; cbn [csi_serve]; try apply confined_ignore.
  - unfold CreateVolume. confine.
  - unfold DeleteVolume. confine.
  - unfold ControllerPublishVolume. confine.
  - unfold ControllerUnpublishVolume, detach_applied. confine.
  - unfold NodeStageVolume. confine.
  - unfold NodePublishVolume. confine.
  - unfold NodeUnpublishVolume. confine.
  - unfold NodeUnstageVolume. confine.
  - apply confined_forward.
  - unfold Controller_SyncHandler. confine.
  - unfold Node_SyncHandler. confine.
  - unfold PodVM_SyncHandler, ReproduceNodeStageVolume, ReproduceNodePublishVolume, ReproduceNodeUnpublishVolume,
      ReproduceNodeUnstageVolume. confine.
  - apply confined_announce.
Qed.

Fixpoint csi_serve_all (qs : list csi_request) : M st unit :=
  match qs with [] => mret tt | q :: qs => mbind (csi_serve q) (fun _ => csi_serve_all qs) end.

(** C17: The wrappers keep to their namespace: whatever requests the storage system makes, in
    any order and with any failures of the API server or of the driver, no PeerpodVolume of
    another namespace is created, changed or deleted, because every call that a handler
    makes names the namespace of its service. *)
Theorem csi_confined_to_namespace qs s ns' name : ns' <> ns ->
  server_volume (vworld (csi_serve_all qs s).2) ns' name = server_volume (vworld s) ns' name.
Proof.
  intros Hn. destruct (csi_serve_all qs s) as [u s'] eqn:E. revert s u s' E ns' name Hn. change (confined (csi_serve_all qs)).
  induction qs as [|q qs IH]; [apply confined_ret|]. apply confined_bind; [apply csi_serve_confined|done].
Qed.

End Confinement.

(** ** Witnesses: an API server *)

Record rserver := mkRServer { robjects : gmap (string * string) PeerpodVolume; rrevision : Z }.

Definition rput (ns : string) (v : PeerpodVolume) (w : rserver) : result RestAnswer * rserver :=
  let v' := mkVolume (v_Name v) (v_Labels v) (v_Spec v) (v_State v) (FormatInt (rrevision w)) in
  (Ok (RVolume v'), mkRServer (<[(ns, v_Name v) := v']> (robjects w)) (rrevision w + 1)).

Definition rserve (rq : RestRequest) : M rserver (result RestAnswer) := fun w =>
  let ns := rq_namespace rq in
  match rq_verb rq, rq_name rq, rq_body rq with
  | GET, Some n, _ =>
      match robjects w !! (ns, n) with Some v => (Ok (RVolume (named n v)), w) | None => (Err (APIStatus NotFound), w) end
  | GET, None, _ => (Ok (RList ((filter (fun kv => kv.1.1 = ns) (map_to_list (robjects w))).*2)), w)
  | POST, None, BVolume v =>
      match robjects w !! (ns, v_Name v) with Some _ => (Err (APIStatus AlreadyExists), w) | None => rput ns (with_state v "") w end
  | PUT, Some n, BVolume v =>
      if negb (String.eqb n (v_Name v)) then (Err (APIStatus OtherReason), w)
      else match robjects w !! (ns, n) with
           | None => (Err (APIStatus NotFound), w)
           | Some old =>
               if negb (String.eqb (v_ResourceVersion old) (v_ResourceVersion v)) then (Err (APIStatus Conflict), w)
               else rput ns (named n (if bool_decide (rq_subresources rq = ["status"]) then with_state old (v_State v)
                                      else with_state v (v_State old))) w
           end
  | DELETE, Some n, _ => (Ok RStatus, mkRServer (delete (ns, n) (robjects w)) (rrevision w))
  | _, _, _ => (Err (APIStatus OtherReason), w)
  end.

#[export] Instance rserver_client : RestClient rserver := {
  watcher := unit;
  rest_do := rserve;
  rest_watch _ w := (Ok tt, w)
}.

Definition rstored (w : rserver) (ns n : string) : option PeerpodVolume := named n <$> robjects w !! (ns, n).

(** What a request does to the objects: nothing, one object put, or one deleted. *)
Lemma rserve_effect rq w r w' : rserve rq w = (r, w') ->
  (robjects w' = robjects w) \/
  (exists v, rq_verb rq <> GET /\ robjects w' = <[(rq_namespace rq, v_Name v) := v]> (robjects w) /\
     (rq_name rq = None \/ rq_name rq = Some (v_Name v)) /\ (forall b, rq_body rq = BVolume b -> v_Name v = v_Name b)) \/
  (exists n, rq_verb rq = DELETE /\ rq_name rq = Some n /\ robjects w' = delete (rq_namespace rq, n) (robjects w)).
Proof.
  unfold rserve, rput. destruct (rq_verb rq) eqn:Ev, (rq_name rq) as [n|] eqn:En, (rq_body rq) as [|b| |] eqn:Eb;
    try (intros [= <- <-]; by left); try (intros [= <- <-]; right; right; by exists n).
  1-4: destruct (robjects w !! _); intros [= <- <-]; by left.
  - destruct (robjects w !! _); [intros [= <- <-]; by left|]. intros [= <- <-]. right. left. eexists (mkVolume _ _ _ _ _). cbn.
    split; [done|]. split; [reflexivity|]. cbn. split; [by left|]. intros b' Eb'. by simplify_eq.
  - destruct (negb (String.eqb n (v_Name b))) eqn:Enb; [intros [= <- <-]; by left|].
    bool_to_prop. destruct (robjects w !! _) as [old|]; [|intros [= <- <-]; by left].
    destruct (String.eqb (v_ResourceVersion old) _); cbn [negb]; [|intros [= <- <-]; by left].
    intros [= <- <-]. right. left. eexists (mkVolume _ _ _ _ _). cbn. split; [done|]. split; [reflexivity|]. cbn. split; [right; by subst|]. intros b' Eb'. by simplify_eq.
Qed.

Lemma rstored_insert ns n v (w w' : rserver) ns' n' : robjects w' = <[(ns, n) := v]> (robjects w) -> (ns', n') <> (ns, n) ->
  rstored w' ns' n' = rstored w ns' n'.
Proof. intros E Hn. unfold rstored. by rewrite E, lookup_insert_ne by congruence. Qed.

Lemma rserve_apart rq w r w' ns' n' : rserve rq w = (r, w') ->
  ns' <> rq_namespace rq \/ (exists n, rq_name rq = Some n /\ n' <> n) \/ (exists b, rq_verb rq = POST /\ rq_body rq = BVolume b /\ n' <> v_Name b) ->
  rstored w' ns' n' = rstored w ns' n'.
Proof.
  intros E Ha. apply rserve_effect in E as [E|[(v & _ & E & Hn & Hb)|(n & Hv & Hn & E)]]; [unfold rstored; by rewrite E|..].
  - eapply rstored_insert; [exact E|]. intros [= Ens Enn]. destruct Ha as [|[(n & Hn' & Hne)|(b & _ & Hb' & Hne)]]; [done|..].
    + destruct Hn as [Hn|Hn]; congruence.
    + apply Hne. rewrite Enn. by apply Hb.
  - unfold rstored. rewrite E, lookup_delete_ne; [done|]. intros [= Ens Enn].
    destruct Ha as [|[(n2 & Hn' & Hne)|(b & Hv' & _)]]; congruence.
Qed.

#[export, program] Instance rserver_laws : ApiServer rserver := { server_volume := rstored }.
Next Obligation. intros w ns n v E. apply fmap_Some in E as (x & _ & ->). done. Qed.
Next Obligation. intros rq w r w' E ns n Hn. eapply rserve_apart; [exact E|by left]. Qed.
Next Obligation. intros rq w r w' E name n Hname Hn. eapply rserve_apart; [exact E|right; left; by exists name]. Qed.
Next Obligation.
  intros rq name w r w' E Hv Hn. cbn in E. unfold rserve in E. rewrite Hv, Hn in E.
  destruct (robjects w !! (rq_namespace rq, name)) as [v|] eqn:El; injection E as <- <-; (split; [done|]); intros v' E'; simplify_eq/=.
  unfold rstored. by rewrite El.
Qed.
Next Obligation.
  intros rq v w r w' E Hv Hb. split; [intros n Hn; eapply rserve_apart; [exact E|right; right; eauto]|].
  intros v' Hr. cbn in E. unfold rserve, rput in E. rewrite Hv, Hb in E. destruct (rq_name rq); [by simplify_eq|].
  destruct (robjects w !! _) as [x|] eqn:El; [by simplify_eq|]. injection E as <- <-. injection Hr as <-. unfold rstored. cbn.
  rewrite El, lookup_insert_eq. by repeat split.
Qed.
Next Obligation.
  intros rq v w r w' E Hv Hb Hn Hs status applied. cbn in E. unfold rserve in E. rewrite Hv, Hb, Hn in E.
  rewrite String.eqb_refl in E. cbn [negb] in E.
  destruct (robjects w !! (rq_namespace rq, v_Name v)) as [old|] eqn:El; [|injection E as <- <-; split; [done|by left]].
  destruct (String.eqb _ _) eqn:Erv; cbn [negb] in E; bool_to_prop; [|injection E as <- <-; split; [done|by left]].
  unfold rput in E. injection E as <- <-.
  match goal with |- (forall v', Ok (RVolume ?x) = _ -> _) /\ _ => assert (applied x) as Ha end.
  { exists (named (v_Name v) old). unfold rstored. cbn. rewrite El, lookup_insert_eq. repeat split; try done; fold status; by destruct status. }
  split; [by intros v' [= <-]|right; eauto].
Qed.

(** Drivers and files besides the server. *)
Definition bench_env : CsiEnv rserver := {|
  vol_Get _ _ w := (Err (APIStatus NotFound), w);
  vol_Create _ v w := (Ok v, w);
  vol_Update _ v w := (Ok v, w);
  vol_UpdateStatus _ v w := (Ok v, w);
  vol_Delete _ _ w := (None, w);
  csi_Namespace := "default";
  driver_dial w := (None, w);
  driver _ w := (Ok (mkAnswer "vol" {["device-path" := "/dev/vdb"]} ""), w);
  uuid_NewV4 w := ("uuid", w);
  vminfo_dial w := (None, w);
  GetVMInfo _ _ w := (Ok "vm-1", w);
  fs_change _ _ w := (tt, w);
  csi_getenv _ := "x";
  azureVM _ := false
|}.

Lemma bench_outside : env_outside bench_env.
Proof. by constructor; intros; simplify_eq/=. Qed.

Definition volume_at (ns : string) : wrapper rserver := mkWrapper [] (mkRServer {[(ns, "vol") := named "vol" plain_volume]} 2).

Lemma csi_confined_to_namespace_witness :
  server_volume (vworld (csi_serve_all bench_env "default" [QControllerPublish vol_req; QDeleteVolume "vol"] (volume_at "other")).2) "other" "vol"
  = server_volume (vworld (volume_at "other")) "other" "vol".
Proof. apply (csi_confined_to_namespace bench_env "default" bench_outside). done. Defined.
