(* ===== verification/InformerFactory.v ===== *)
(** * The informer factory of PeerpodVolume objects

    Models src/csi-wrapper/pkg/generated/peerpodvolume/informers/externalversions:
    factory.go, generic.go and the informer of peerpodvolume/v1alpha1.  The factory's lock
    makes its methods atomic; the goroutines it starts run until their stop channel is
    closed, and [Shutdown] waits for them.  A state of the transition system is the
    factory with its goroutines, the channels that are closed and the calls of [Shutdown]
    that wait. *)

From Stdlib Require Import ZArith Ascii String Lia.
From stdpp Require Import base gmap strings list fin_maps fin_sets.
From S2P Require Import Prelude NetAddr CsiVolumes VolumeClient.

Open Scope go_scope.
Local Open Scope nat_scope.

Section Factory.

Context {W : Type} `{RestClient W} `{GoMapOrder}.

(** A transformation of the list options, and the list and watch functions with it. *)
Definition TweakListOptionsFunc : Type := ListOptions -> ListOptions.

(** [cache.NewSharedIndexInformer]: what it is given, and the handlers added later. *)
Record SharedIndexInformer := mkInformer {
  inf_List : ListOptions -> M W (list PeerpodVolume * option GoError);
  inf_Watch : ListOptions -> M W (result watcher);
  inf_object : string;
  inf_resync : Z;
  inf_indexers : list string
}.

Definition NewInformerFunc : Type := Z -> SharedIndexInformer.

(** [reflect.TypeOf(&PeerpodVolume{})] *)
Definition PeerpodVolumeType : string := "*v1alpha1.PeerpodVolume".

Definition tweaked (tweak : option TweakListOptionsFunc) (o : ListOptions) : ListOptions :=
  match tweak with Some t => t o | None => o end.

Definition NewFilteredPeerpodVolumeInformer (namespace : string) (resync : Z) (indexers : list string)
    (tweak : option TweakListOptionsFunc) : SharedIndexInformer :=
  mkInformer
    (fun o => volumes_List (newPeerpodVolumes namespace) (tweaked tweak o))
    (fun o => volumes_Watch (newPeerpodVolumes namespace) (tweaked tweak o))
    PeerpodVolumeType resync indexers.

Definition NewPeerpodVolumeInformer (namespace : string) (resync : Z) (indexers : list string) : SharedIndexInformer :=
  NewFilteredPeerpodVolumeInformer namespace resync indexers None.

Definition NamespaceIndex : string := "namespace".

(** ** The factory *)

(** A goroutine that runs an informer until a channel is closed. *)
Record run := mkRun { run_type : string; run_stop : nat; run_ended : bool }.

Record sharedInformerFactory := mkFactory {
  f_namespace : string;
  f_tweak : option TweakListOptionsFunc;
  f_defaultResync : Z;
  f_customResync : gmap string Z;
  f_informers : gmap string SharedIndexInformer;
  f_startedInformers : gmap string bool;
  f_wg : nat;
  f_shuttingDown : bool;
  f_runs : list run  (** the goroutines started, oldest first *)
}.

Definition SharedInformerOption : Type := sharedInformerFactory -> sharedInformerFactory.

(** The configuration has one object per type. *)
Definition WithCustomResyncConfig (resyncConfig : gmap string Z) : SharedInformerOption := fun f =>
  mkFactory (f_namespace f) (f_tweak f) (f_defaultResync f) (resyncConfig ∪ f_customResync f) (f_informers f) (f_startedInformers f) (f_wg f) (f_shuttingDown f) (f_runs f).

Definition WithTweakListOptions (tweak : TweakListOptionsFunc) : SharedInformerOption := fun f =>
  mkFactory (f_namespace f) (Some tweak) (f_defaultResync f) (f_customResync f) (f_informers f) (f_startedInformers f) (f_wg f) (f_shuttingDown f) (f_runs f).

Definition WithNamespace (namespace : string) : SharedInformerOption := fun f =>
  mkFactory namespace (f_tweak f) (f_defaultResync f) (f_customResync f) (f_informers f) (f_startedInformers f) (f_wg f) (f_shuttingDown f) (f_runs f).

Definition NamespaceAll : string := EmptyString.

Definition NewSharedInformerFactoryWithOptions (defaultResync : Z) (options : list SharedInformerOption) : sharedInformerFactory :=
  foldl (fun f opt => opt f) (mkFactory NamespaceAll None defaultResync ∅ ∅ ∅ 0 false []) options.

Definition NewSharedInformerFactory (defaultResync : Z) : sharedInformerFactory :=
  NewSharedInformerFactoryWithOptions defaultResync [].

Definition NewFilteredSharedInformerFactory (defaultResync : Z) (namespace : string) (tweak : TweakListOptionsFunc) : sharedInformerFactory :=
  NewSharedInformerFactoryWithOptions defaultResync [WithNamespace namespace; WithTweakListOptions tweak].

(** One round of the loop of [Start]. *)
Definition start_informer (stopCh : nat) (f : sharedInformerFactory) (ti : string * SharedIndexInformer) : sharedInformerFactory :=
  let t := ti.1 in
  if default false (f_startedInformers f !! t) then f
  else mkFactory (f_namespace f) (f_tweak f) (f_defaultResync f) (f_customResync f) (f_informers f)
         (<[t := true]> (f_startedInformers f)) (S (f_wg f)) (f_shuttingDown f) (f_runs f ++ [mkRun t stopCh false]).

Definition factory_Start (stopCh : nat) (f : sharedInformerFactory) : sharedInformerFactory :=
  if f_shuttingDown f then f else foldl (start_informer stopCh) f (map_order (f_informers f)).

(** [Shutdown] up to its wait. *)
Definition Shutdown_begin (f : sharedInformerFactory) : sharedInformerFactory :=
  mkFactory (f_namespace f) (f_tweak f) (f_defaultResync f) (f_customResync f) (f_informers f) (f_startedInformers f) (f_wg f) true (f_runs f).

(** The end of a goroutine, with the deferred [Done]. *)
Definition run_ends (i : nat) (x : run) (f : sharedInformerFactory) : sharedInformerFactory :=
  mkFactory (f_namespace f) (f_tweak f) (f_defaultResync f) (f_customResync f) (f_informers f) (f_startedInformers f) (pred (f_wg f))
    (f_shuttingDown f) (<[i := mkRun (run_type x) (run_stop x) true]> (f_runs f)).

(** [wait] is [cache.WaitForCacheSync] of an informer: false when the channel is closed first. *)
Definition WaitForCacheSync (wait : string -> bool) (f : sharedInformerFactory) : gmap string bool :=
  let informers := filter (fun ti => default false (f_startedInformers f !! ti.1) = true) (map_order (f_informers f)) in
  foldl (fun res ti => <[ti.1 := wait ti.1]> res) ∅ informers.

Definition InformerFor (t : string) (newFunc : NewInformerFunc) (f : sharedInformerFactory) : SharedIndexInformer * sharedInformerFactory :=
  match f_informers f !! t with
  | Some informer => (informer, f)
  | None =>
      let resync := default (f_defaultResync f) (f_customResync f !! t) in
      let informer := newFunc resync in
      (informer, mkFactory (f_namespace f) (f_tweak f) (f_defaultResync f) (f_customResync f) (<[t := informer]> (f_informers f))
                   (f_startedInformers f) (f_wg f) (f_shuttingDown f) (f_runs f))
  end.

(** ** Access by group and version: interface.go, v1alpha1 *)

Record peerpodVolumeInformer := mkPeerpodVolumeInformer { i_namespace : string; i_tweak : option TweakListOptionsFunc }.

(** [Confidentialcontainers().V1alpha1().PeerpodVolumes()]: group, version and informer hand
    the namespace and the filter on. *)
Definition group_New (namespace : string) (tweak : option TweakListOptionsFunc) : string * option TweakListOptionsFunc := (namespace, tweak).
Definition V1alpha1 (g : string * option TweakListOptionsFunc) : string * option TweakListOptionsFunc := (g.1, g.2).
Definition version_PeerpodVolumes (v : string * option TweakListOptionsFunc) : peerpodVolumeInformer := mkPeerpodVolumeInformer v.1 v.2.
Definition Confidentialcontainers (f : sharedInformerFactory) : string * option TweakListOptionsFunc := group_New (f_namespace f) (f_tweak f).

Definition defaultInformer (i : peerpodVolumeInformer) : NewInformerFunc := fun resync =>
  NewFilteredPeerpodVolumeInformer (i_namespace i) resync [NamespaceIndex] (i_tweak i).

Definition informer_Informer (i : peerpodVolumeInformer) (f : sharedInformerFactory) : SharedIndexInformer * sharedInformerFactory :=
  InformerFor PeerpodVolumeType (defaultInformer i) f.

(** [index] is [GetIndexer] of an informer. *)
Definition informer_Lister (index : SharedIndexInformer -> Indexer) (i : peerpodVolumeInformer) (f : sharedInformerFactory)
    : peerpodVolumeLister * sharedInformerFactory :=
  let '(informer, f') := informer_Informer i f in (NewPeerpodVolumeLister (index informer), f').

Definition ForResource (resource : string * string * string) (f : sharedInformerFactory)
    : result (SharedIndexInformer * (string * string)) * sharedInformerFactory :=
  if bool_decide (resource = (SchemeGroupVersion, "peerpodvolumes")) then
    let '(informer, f') := informer_Informer (version_PeerpodVolumes (V1alpha1 (Confidentialcontainers f))) f in
    (Ok (informer, (resource.1.1, resource.2)), f')
  else (Err (Errorf "no informer found for %v" []), f).

(** ** Runs *)

(** [closed] are the closed channels, [waiting] the calls of [Shutdown] that have not
    returned. *)
Record world_of := mkWorldOf { fac : sharedInformerFactory; closed : gset nat; waiting : nat }.

Inductive factory_action :=
| CallInformerFor (t : string) (newFunc : NewInformerFunc)
| CallStart (stopCh : nat)
| CallShutdown
| CloseChannel (ch : nat)
| RunEnds (i : nat)
| ShutdownReturns.

Definition factory_step (a : factory_action) (s : world_of) : option world_of :=
  match a with
  | CallInformerFor t newFunc => Some (mkWorldOf (InformerFor t newFunc (fac s)).2 (closed s) (waiting s))
  | CallStart stopCh => Some (mkWorldOf (factory_Start stopCh (fac s)) (closed s) (waiting s))
  | CallShutdown => Some (mkWorldOf (Shutdown_begin (fac s)) (closed s) (S (waiting s)))
  | CloseChannel ch => Some (mkWorldOf (fac s) ({[ch]} ∪ closed s) (waiting s))
  | RunEnds i =>
      match f_runs (fac s) !! i with
      | Some x => if (negb (run_ended x) && bool_decide (run_stop x ∈ closed s))%bool
                  then Some (mkWorldOf (run_ends i x (fac s)) (closed s) (waiting s)) else None
      | None => None
      end
  | ShutdownReturns =>
      match waiting s, f_wg (fac s) with
      | S n, O => Some (mkWorldOf (fac s) (closed s) n)
      | _, _ => None
      end
  end.

Inductive factory_runs (s : world_of) : list factory_action -> world_of -> Prop :=
| factory_runs_nil : factory_runs s [] s
| factory_runs_snoc acts a s1 s2 : factory_runs s acts s1 -> factory_step a s1 = Some s2 -> factory_runs s (acts ++ [a]) s2.

(** ** Invariant *)

Definition active (rs : list run) : nat := length (filter (fun x => run_ended x = false) rs).

(** No type is run twice, exactly the started types are run, each is registered, and the
    counter counts the goroutines that have not ended. *)
Record factory_inv (f : sharedInformerFactory) : Prop := mkFactoryInv {
  inv_once : NoDup (run_type <$> f_runs f);
  inv_started : forall t, default false (f_startedInformers f !! t) = true <-> t ∈ run_type <$> f_runs f;
  inv_registered : forall t, t ∈ run_type <$> f_runs f -> is_Some (f_informers f !! t);
  inv_count : f_wg f = active (f_runs f)
}.

Lemma active_snoc rs x : active (rs ++ [x]) = active rs + (if run_ended x then 0 else 1).
Proof.
  unfold active. rewrite filter_app, length_app. f_equal. destruct (run_ended x) eqn:E.
  - by rewrite filter_cons_False by (by rewrite E).
  - by rewrite filter_cons_True by done.
Qed.

Lemma active_end rs i x : rs !! i = Some x -> run_ended x = false ->
  active rs = S (active (<[i := mkRun (run_type x) (run_stop x) true]> rs)).
Proof.
  intros Hi Hx. rewrite (insert_take_drop _ _ _ (lookup_lt_Some _ _ _ Hi)), <- (take_drop_middle _ _ _ Hi) at 1.
  unfold active. rewrite !filter_app, !length_app, filter_cons_True, filter_cons_False by done. cbn [length]. lia.
Qed.

Lemma start_informer_inv stopCh f ti : is_Some (f_informers f !! ti.1) -> factory_inv f -> factory_inv (start_informer stopCh f ti).
Proof.
  intros Hr [Ho Hs Hg Hc]. unfold start_informer. destruct (default false _) eqn:E; [done|].
  assert (Hn : ti.1 ∉ run_type <$> f_runs f) by (rewrite <- Hs; by rewrite E).
  constructor; cbn [f_runs f_startedInformers f_informers f_wg]; rewrite ?fmap_app; cbn [fmap list_fmap run_type].
  - apply NoDup_app. split; [done|]. split; [set_solver|]. by repeat constructor; set_solver.
  - intros t. rewrite elem_of_app, list_elem_of_singleton. destruct (decide (t = ti.1)) as [->|Hne].
    + rewrite lookup_insert_eq. cbn. split; [by right|done].
    + rewrite lookup_insert_ne by done. rewrite Hs. split; [by left|by intros [|]].
  - intros t. rewrite elem_of_app, list_elem_of_singleton. intros [Ht| ->]; [by apply Hg|done].
  - rewrite active_snoc. cbn. lia.
Qed.

(** What a start leaves alone. *)
Lemma start_informer_frame stopCh f ti : f_informers (start_informer stopCh f ti) = f_informers f /\
  f_shuttingDown (start_informer stopCh f ti) = f_shuttingDown f /\ f_runs f `prefix_of` f_runs (start_informer stopCh f ti).
Proof.
  unfold start_informer. destruct (default false _); [by repeat split|]. repeat split; try done. by eexists.
Qed.

Lemma start_all_spec stopCh (l : list (string * SharedIndexInformer)) f :
  Forall (fun ti => is_Some (f_informers f !! ti.1)) l -> factory_inv f ->
  let f' := foldl (start_informer stopCh) f l in
  factory_inv f' /\ f_informers f' = f_informers f /\ f_shuttingDown f' = f_shuttingDown f /\ f_runs f `prefix_of` f_runs f' /\
  (forall t, t ∈ l.*1 -> t ∈ run_type <$> f_runs f').
Proof.
  revert f. induction l as [|ti l IH]; intros f Hl I; cbn [foldl].
  { repeat split; try done; [apply I..|]. intros t Ht. by apply not_elem_of_nil in Ht. }
  apply List.Forall_cons_iff in Hl as [Ht Hl]. destruct (start_informer_frame stopCh f ti) as (Ei & Es & Hp).
  pose proof (start_informer_inv stopCh f ti Ht I) as I1.
  destruct (IH (start_informer stopCh f ti)) as (I2 & Ei2 & Es2 & Hp2 & Hall); [by rewrite Ei|done|].
  split; [done|]. split; [congruence|]. split; [congruence|]. split; [by etrans|].
  intros t [->|Hin]%elem_of_cons; [|by apply Hall]. destruct Hp2 as [more ->]. rewrite fmap_app, elem_of_app. left.
  apply (inv_started _ I1). unfold start_informer. destruct (default false (f_startedInformers f !! ti.1)) eqn:E; [done|].
  cbn [f_startedInformers]. by rewrite lookup_insert_eq.
Qed.

Lemma factory_Start_spec stopCh f : factory_inv f ->
  factory_inv (factory_Start stopCh f) /\ f_informers (factory_Start stopCh f) = f_informers f /\
  f_shuttingDown (factory_Start stopCh f) = f_shuttingDown f /\ f_runs f `prefix_of` f_runs (factory_Start stopCh f) /\
  (f_shuttingDown f = false -> forall t, is_Some (f_informers f !! t) -> t ∈ run_type <$> f_runs (factory_Start stopCh f)) /\
  (f_shuttingDown f = true -> factory_Start stopCh f = f).
Proof.
  intros I. unfold factory_Start. destruct (f_shuttingDown f) eqn:E; [by repeat split; try apply I|].
  destruct (start_all_spec stopCh (map_order (f_informers f)) f) as (I' & Ei & Es & Hp & Hall); [|done|].
  - apply Forall_forall. intros [t i] Hti. cbn. apply elem_of_map_order in Hti. by exists i.
  - split; [done|]. split; [done|]. split; [congruence|]. split; [done|]. split; [|done]. intros _ t [i Hi].
    apply Hall. apply list_elem_of_fmap. exists (t, i). split; [done|]. by apply elem_of_map_order.
Qed.

Lemma factory_step_inv a s s' : factory_step a s = Some s' -> factory_inv (fac s) -> factory_inv (fac s').
Proof.
  intros E I. destruct a as [t newFunc|stopCh| |ch|i|]; cbn in E.
  - injection E as <-. cbn. unfold InformerFor. destruct (f_informers (fac s) !! t) eqn:Et; [done|].
    destruct I as [Ho Hs Hg Hc]. constructor; cbn; try done. intros t' Ht'. destruct (decide (t' = t)) as [->|Hn].
    + rewrite lookup_insert_eq. by eexists.
    + rewrite lookup_insert_ne by done. by apply Hg.
  - injection E as <-. by apply factory_Start_spec.
  - injection E as <-. destruct I. by constructor.
  - by injection E as <-.
  - destruct (f_runs (fac s) !! i) as [x|] eqn:Ei; [|done]. destruct (negb _ && _)%bool eqn:Eb; [|done]. injection E as <-.
    apply andb_true_iff in Eb as [Ee _]. apply negb_true_iff in Ee. destruct I as [Ho Hs Hg Hc].
    assert (Et : run_type <$> <[i := mkRun (run_type x) (run_stop x) true]> (f_runs (fac s)) = run_type <$> f_runs (fac s)).
    { rewrite list_fmap_insert. apply list_insert_id. cbn. by rewrite list_lookup_fmap, Ei. }
    constructor; cbn [run_ends fac f_runs f_startedInformers f_informers f_wg]; rewrite ?Et; try done.
    rewrite Hc, (active_end _ _ _ Ei Ee). done.
  - destruct (waiting s); [done|]. destruct (f_wg (fac s)); [|done]. by injection E as <-.
Qed.

Definition factory_init (f : sharedInformerFactory) : Prop :=
  f_informers f = ∅ /\ f_startedInformers f = ∅ /\ f_wg f = 0 /\ f_shuttingDown f = false /\ f_runs f = [].

(** An option sets the namespace, the filter or the periods. *)
Inductive known_option : SharedInformerOption -> Prop :=
| known_resync m : known_option (WithCustomResyncConfig m)
| known_tweak t : known_option (WithTweakListOptions t)
| known_namespace ns : known_option (WithNamespace ns).

Lemma new_factory_init resync options : Forall known_option options -> factory_init (NewSharedInformerFactoryWithOptions resync options).
Proof.
  intros Ho. unfold NewSharedInformerFactoryWithOptions.
  assert (Hi : factory_init (mkFactory NamespaceAll None resync ∅ ∅ ∅ 0 false [])) by done. revert Hi.
  generalize (mkFactory NamespaceAll None resync ∅ ∅ ∅ 0 false []).
  induction Ho as [|o options Hk _ IH]; intros f Hf; [done|]. apply IH. by destruct Hk.
Qed.

Lemma factory_init_inv f : factory_init f -> factory_inv f.
Proof.
  intros (Hi & Hs & Hw & _ & Hr). constructor; rewrite ?Hi, ?Hs, ?Hw, ?Hr; cbn; try done.
  - constructor.
  - intros t. rewrite lookup_empty. split; [done|]. intros Ht. by apply not_elem_of_nil in Ht.
  - intros t Ht. by apply not_elem_of_nil in Ht.
Qed.

Lemma factory_runs_inv s acts s' : factory_runs s acts s' -> factory_inv (fac s) -> factory_inv (fac s').
Proof. intros R. induction R as [|acts a s1 s2 R IH E]; [done|]. intros I. by eapply factory_step_inv, IH. Qed.

(** What a step does to the goroutines and to the informers. *)
Lemma factory_step_frame a s s' : factory_inv (fac s) -> factory_step a s = Some s' ->
  (run_type <$> f_runs (fac s)) `prefix_of` (run_type <$> f_runs (fac s')) /\
  (forall t i, f_informers (fac s) !! t = Some i -> f_informers (fac s') !! t = Some i) /\
  (f_shuttingDown (fac s) = true -> f_shuttingDown (fac s') = true /\ run_type <$> f_runs (fac s') = run_type <$> f_runs (fac s)).
Proof.
  intros I E. destruct a as [t newFunc|stopCh| |ch|i|]; cbn in E.
  - injection E as <-. cbn. unfold InformerFor. destruct (f_informers (fac s) !! t) eqn:Et; [done|]. cbn. split; [done|]. split; [|done].
    intros t' i Hi. rewrite lookup_insert_ne; [done|congruence].
  - injection E as <-. cbn. destruct (factory_Start_spec stopCh (fac s) I) as (_ & -> & -> & [more Hp] & _ & Hs). split; [|split; [done|]].
    + rewrite Hp, fmap_app. by eexists.
    + intros Hd. by rewrite (Hs Hd).
  - injection E as <-. done.
  - injection E as <-. done.
  - destruct (f_runs (fac s) !! i) as [x|] eqn:Ei; [|done]. destruct (negb _ && _)%bool; [|done]. injection E as <-. cbn.
    rewrite list_fmap_insert, list_insert_id; [done|]. cbn. by rewrite list_lookup_fmap, Ei.
  - destruct (waiting s); [done|]. destruct (f_wg (fac s)); [|done]. by injection E as <-.
Qed.

Lemma factory_runs_frame s acts s' : factory_inv (fac s) -> factory_runs s acts s' ->
  (run_type <$> f_runs (fac s)) `prefix_of` (run_type <$> f_runs (fac s')) /\
  (forall t i, f_informers (fac s) !! t = Some i -> f_informers (fac s') !! t = Some i) /\
  (f_shuttingDown (fac s) = true -> f_shuttingDown (fac s') = true /\ run_type <$> f_runs (fac s') = run_type <$> f_runs (fac s)).
Proof.
  intros I R. induction R as [|acts a s1 s2 R IH E]; [done|]. destruct IH as (Hp & Hi & Hs).
  destruct (factory_step_frame a s1 s2 (factory_runs_inv _ _ _ R I) E) as (Hp' & Hi' & Hs').
  split; [by etrans|]. split; [eauto|]. intros Hd. destruct (Hs Hd) as [Hd1 Er]. destruct (Hs' Hd1) as [Hd2 Er']. split; [done|congruence].
Qed.

(** *** Progress of a shutdown *)

Definition settling (a : factory_action) : Prop := match a with RunEnds _ | ShutdownReturns => True | _ => False end.

Definition factory_left (s : world_of) : nat := active (f_runs (fac s)) + waiting s.

Lemma settling_decreases a s s' : settling a -> factory_step a s = Some s' -> factory_left s' < factory_left s.
Proof.
  intros Ha E. unfold factory_left. destruct a as [| | | |i|]; try done; cbn in E.
  - destruct (f_runs (fac s) !! i) as [x|] eqn:Ei; [|done]. destruct (negb _ && _)%bool eqn:Eb; [|done]. injection E as <-.
    apply andb_true_iff in Eb as [Ee _]. apply negb_true_iff in Ee. cbn -[active]. rewrite (active_end _ _ _ Ei Ee). lia.
  - destruct (waiting s); [done|]. destruct (f_wg (fac s)); [|done]. injection E as <-. cbn. lia.
Qed.

Lemma shutdown_stuck s : factory_inv (fac s) ->
  (forall x, x ∈ f_runs (fac s) -> run_stop x ∈ closed s) -> (forall a, settling a -> factory_step a s = None) ->
  waiting s = 0 /\ Forall (fun x => run_ended x = true) (f_runs (fac s)).
Proof.
  intros I Hcl Hstuck.
  assert (Hend : Forall (fun x => run_ended x = true) (f_runs (fac s))).
  { apply Forall_forall. intros x Hx. destruct (run_ended x) eqn:E; [done|exfalso]. pose proof (Hcl x Hx) as Hc.
    apply list_elem_of_lookup in Hx as [i Hi]. specialize (Hstuck (RunEnds i) Logic.I). cbn in Hstuck. rewrite Hi, E in Hstuck.
    rewrite bool_decide_eq_true_2 in Hstuck by done. done. }
  split; [|done]. destruct (waiting s) as [|n] eqn:Ew; [done|exfalso]. specialize (Hstuck ShutdownReturns Logic.I). cbn in Hstuck.
  rewrite Ew, (inv_count _ I) in Hstuck. assert (active (f_runs (fac s)) = 0) as E0; [|by rewrite E0 in Hstuck].
  clear - Hend. unfold active. induction Hend as [|x rs Hx _ IH]; [done|]. rewrite filter_cons_False; [done|]. by rewrite Hx.
Qed.

(** ** Theorems *)

(** An informer runs at most once: in every run of the factory, with calls of its
    methods in any order, no type of object has two goroutines, each goroutine runs an
    informer that is registered and never replaced, and after [Shutdown] has begun none is
    started. *)
Theorem informer_runs_once resync options acts s later s' :
  Forall known_option options ->
  factory_runs (mkWorldOf (NewSharedInformerFactoryWithOptions resync options) ∅ 0) acts s -> factory_runs s later s' ->
  NoDup (run_type <$> f_runs (fac s')) /\
  (forall t, t ∈ run_type <$> f_runs (fac s') -> is_Some (f_informers (fac s') !! t)) /\
  (forall t i, f_informers (fac s) !! t = Some i -> f_informers (fac s') !! t = Some i) /\
  (f_shuttingDown (fac s) = true -> run_type <$> f_runs (fac s') = run_type <$> f_runs (fac s)).
Proof.
  intros Ho R R'. pose proof (factory_init_inv _ (new_factory_init resync options Ho)) as I0.
  pose proof (factory_runs_inv _ _ _ R I0) as I. pose proof (factory_runs_inv _ _ _ R' I) as I'.
  destruct (factory_runs_frame _ _ _ I R') as (_ & Hi & Hs). split; [apply I'|]. split; [apply I'|]. split; [done|]. by intros Hd; apply Hs.
Qed.

(** A shutdown ends: once the stop channels of all goroutines are closed, every
    schedule of the goroutines and of the waiting calls is bounded, and where none of them can
    move, all goroutines have ended and every call of [Shutdown] has returned; a call
    returns only when all goroutines have ended. *)
Theorem factory_shutdown_ends resync options acts s later s' :
  Forall known_option options ->
  factory_runs (mkWorldOf (NewSharedInformerFactoryWithOptions resync options) ∅ 0) acts s ->
  factory_runs s later s' -> Forall settling later -> (forall x, x ∈ f_runs (fac s') -> run_stop x ∈ closed s') ->
  length later <= factory_left s /\
  ((forall a, settling a -> factory_step a s' = None) -> waiting s' = 0 /\ Forall (fun x => run_ended x = true) (f_runs (fac s'))) /\
  (is_Some (factory_step ShutdownReturns s') -> Forall (fun x => run_ended x = true) (f_runs (fac s'))).
Proof.
  intros Ho R R' Hset Hcl. pose proof (factory_init_inv _ (new_factory_init resync options Ho)) as I0.
  pose proof (factory_runs_inv _ _ _ R' (factory_runs_inv _ _ _ R I0)) as I'. split; [|split].
  - assert (Hb : length later + factory_left s' <= factory_left s); [|lia]. clear Hcl I'.
    induction R' as [|later a s1 s2 R' IH E]; [cbn; lia|]. apply Forall_app in Hset as [Hl Ha]. apply List.Forall_cons_iff in Ha as [Ha _].
    specialize (IH Hl). pose proof (settling_decreases _ _ _ Ha E). rewrite length_app. cbn [length]. lia.
  - by apply shutdown_stuck.
  - intros [s2 E]. cbn in E. destruct (waiting s'); [done|]. destruct (f_wg (fac s')) eqn:Ew; [|done]. rewrite (inv_count _ I') in Ew.
    apply Forall_forall. intros x Hx. destruct (run_ended x) eqn:Ex; [done|exfalso].
    assert (x ∈ filter (fun x => run_ended x = false) (f_runs (fac s'))) as Hin by (apply list_elem_of_filter; done).
    unfold active in Ew. apply nil_length_inv in Ew. rewrite Ew in Hin. by apply not_elem_of_nil in Hin.
Qed.

End Factory.

(** ** Witnesses *)

Definition new_factory : world_of (W := rserver) := mkWorldOf (NewSharedInformerFactoryWithOptions 30 [WithNamespace "default"]) ∅ 0.

Definition factory_acts : list (factory_action (W := rserver)) :=
  [CallInformerFor PeerpodVolumeType (defaultInformer (mkPeerpodVolumeInformer "default" None)); CallStart 7; CallShutdown; CloseChannel 7].

Definition factory_after (acts : list (factory_action (W := rserver))) (s : world_of) : world_of :=
  foldl (fun s a => default s (factory_step a s)) s acts.

Lemma factory_after_runs s acts : Forall (fun a => forall s, is_Some (factory_step a s)) acts -> factory_runs (W := rserver) s acts (factory_after acts s).
Proof.
  induction acts as [|a acts IH] using rev_ind; [constructor|]. intros [Ha Hl]%Forall_app. apply List.Forall_cons_iff in Hl as [Hl _].
  eapply factory_runs_snoc; [by apply IH|]. unfold factory_after. rewrite foldl_app. cbn [foldl].
  destruct (Hl (foldl (fun s a => default s (factory_step a s)) s acts)) as [s' E]. by rewrite E.
Qed.

Lemma factory_acts_run : factory_runs new_factory factory_acts (factory_after factory_acts new_factory).
Proof. apply factory_after_runs. repeat (apply List.Forall_cons; [intros s; by eexists|]). apply List.Forall_nil. Qed.

Lemma informer_runs_once_witness : NoDup (run_type <$> f_runs (fac (factory_after factory_acts new_factory))).
Proof.
  eapply (informer_runs_once 30 [WithNamespace "default"] factory_acts (factory_after factory_acts new_factory) []).
  - apply List.Forall_cons; [constructor|apply List.Forall_nil].
  - exact factory_acts_run.
  - constructor.
Defined.

Lemma factory_after_one s a : is_Some (factory_step a s) -> factory_runs (W := rserver) s [a] (factory_after [a] s).
Proof.
  intros [s' E]. change [a] with ([] ++ [a]) at 1. eapply factory_runs_snoc; [constructor|]. unfold factory_after. cbn. by rewrite E.
Qed.

Definition factory_ended : world_of (W := rserver) := factory_after [RunEnds 0] (factory_after factory_acts new_factory).

Lemma factory_shutdown_ends_witness : length [RunEnds (W := rserver) 0] <= 2 /\ Forall (fun x => run_ended x = true) (f_runs (fac factory_ended)).
Proof.
  destruct (factory_shutdown_ends 30 [WithNamespace "default"] factory_acts (factory_after factory_acts new_factory) [RunEnds 0] factory_ended)
    as (Hl & _ & Hend).
  - apply List.Forall_cons; [constructor|apply List.Forall_nil].
  - exact factory_acts_run.
  - apply factory_after_one. by eexists.
  - apply List.Forall_cons; [exact I|apply List.Forall_nil].
  - intros x Hx. assert (x = mkRun PeerpodVolumeType 7 true) as ->.
    { assert (f_runs (fac factory_ended) = [mkRun PeerpodVolumeType 7 true]) as E by (vm_compute; reflexivity).
      rewrite E in Hx. by apply list_elem_of_singleton in Hx. }
    apply (bool_decide_unpack _). vm_compute. exact I.
  - split; [exact Hl|]. apply Hend. by eexists.
Defined.
