(* ===== verification/CsiServer.v ===== *)
(** * The servers of the CSI wrapper

    Models src/csi-wrapper/pkg/utils/endpoint.go (the address a wrapper listens on),
    pkg/wrapper/server.go (the gRPC server and the goroutine that runs it) and
    identityservice.go.  The server is a transition system: the caller of [Run], the
    goroutine in [serve], and whoever calls [Stop]. *)

From Stdlib Require Import ZArith Ascii String Lia.
From stdpp Require Import base gmap strings list.
From S2P Require Import Prelude InstanceTypes CsiVolumes CsiProps.

Open Scope go_scope.
Local Open Scope nat_scope.

(** ** Endpoints *)

(** [strings.SplitN(s, "://", 2)] with two parts. *)
Fixpoint cut_scheme (s : string) : option (string * string) :=
  if HasPrefix s "://" then Some (EmptyString, drop_bytes 3 s)
  else match s with
       | EmptyString => None
       | String c s' => match cut_scheme s' with Some (a, b) => Some (String c a, b) | None => None end
       end.

Section Endpoint.

(** [unicode.ToLower] outside of ASCII. *)
Context (unicode_lower : Z -> Z).

(** [strings.HasPrefix(strings.ToLower(s), p)] for an ASCII [p]: the runes are mapped one
    by one, and an ASCII byte of the result is a rune of its own. *)
Definition has_lower_prefix (s p : string) : bool :=
  bool_decide (take (String.length p) (ToLower_rune unicode_lower <$> runes (bytes_of s)) = bytes_of p).

(** [s[1]] exists where there is a separator, and panics otherwise. *)
Definition endpoint_Parse (ep : string) : outcome (result (string * string)) :=
  if (has_lower_prefix ep "unix://" || has_lower_prefix ep "tcp://")%bool then
    match cut_scheme ep with
    | None => Panic
    | Some (proto, addr) =>
        Return (if String.eqb addr "" then Err (Errorf "Invalid endpoint: %v" []) else Ok (proto, addr))
    end
  else Return (Ok ("unix", ep)).

End Endpoint.

(** The file system and the network. *)
Class ListenEnv (W : Type) := {
  listener : Type;
  os_Remove : string -> M W (option GoError);
  IsNotExist : GoError -> bool;
  net_Listen : string -> string -> M W (result listener);
  lower_of : Z -> Z
}.

Section Listen.

Context {W : Type} `{ListenEnv W}.

(** The listener, and the path that [cleanup] removes, if it removes one. *)
Definition Listen (endpoint : string) : M W (outcome (result (listener * option string))) :=
  match endpoint_Parse lower_of endpoint with
  | Panic => mret Panic
  | Return (Err e) => mret (Return (Err e))
  | Return (Ok (proto, addr)) =>
      if String.eqb proto "unix" then
        let addr := "/" +:+ addr in
        let* e := os_Remove addr in
        match e with
        | Some err =>
            if IsNotExist err then
              let* l := net_Listen proto addr in
              mret (Return match l with Err e => Err e | Ok l => Ok (l, Some addr) end)
            else mret (Return (Err (Errorf "%s: %q" [])))
        | None =>
            let* l := net_Listen proto addr in
            mret (Return match l with Err e => Err e | Ok l => Ok (l, Some addr) end)
        end
      else
        let* l := net_Listen proto addr in
        mret (Return match l with Err e => Err e | Ok l => Ok (l, None) end)
  end.

End Listen.

(** *** Lemmas *)

Lemma cut_scheme_app p s : contains_byte ":" p = false -> cut_scheme (p +:+ "://" +:+ s) = Some (p, s).
Proof.
  induction p as [|c p IH]; [by destruct s|]. rewrite contains_byte_cons, string_app_cons. intros [Hc Hp].
  cbn [cut_scheme]. assert (HasPrefix (String c (p +:+ "://" +:+ s)) "://" = false) as ->.
  { cbn [HasPrefix]. by rewrite (proj2 (Ascii.eqb_neq _ _) (not_eq_sym Hc)). }
  by rewrite IH.
Qed.

Lemma HasPrefix_split s p : HasPrefix s p = true -> s = p +:+ drop_bytes (String.length p) s.
Proof.
  revert s. induction p as [|c p IH]; intros s; [by destruct s|]. destruct s as [|d s]; [done|]. cbn [HasPrefix].
  intros [Hc Hp]%andb_true_iff. apply Ascii.eqb_eq in Hc as <-. rewrite string_app_cons. cbn. by rewrite <- IH.
Qed.

(** A string with the separator is cut at the first one. *)
Lemma cut_scheme_sound s p t : cut_scheme s = Some (p, t) -> s = p +:+ "://" +:+ t.
Proof.
  revert p t. induction s as [|c s IH]; intros p t; [done|]. cbn [cut_scheme].
  destruct (HasPrefix (String c s) "://") eqn:E.
  - intros [= <- <-]. by apply HasPrefix_split in E.
  - destruct (cut_scheme s) as [[x y]|]; [|done]. intros [= <- <-]. rewrite string_app_cons. by rewrite (IH x y).
Qed.

Definition ascii_only (s : string) : Prop := Forall (fun b => (b < 128)%Z) (bytes_of s).

Lemma runes_ascii l : Forall (fun b => (b < 128)%Z) l -> runes l = l.
Proof. intros Hl. induction Hl as [|b l Hb _ IH]; [done|]. cbn [runes]. rewrite (proj2 (Z.ltb_lt _ _) Hb). by rewrite IH. Qed.

Lemma bytes_of_app s t : bytes_of (s +:+ t) = bytes_of s ++ bytes_of t.
Proof. induction s as [|c s IH]; [done|]. rewrite string_app_cons. unfold bytes_of in *. cbn. f_equal. exact IH. Qed.

Lemma bytes_of_length s : length (bytes_of s) = String.length s.
Proof. unfold bytes_of. rewrite length_map. induction s as [|c s IH]; [done|]. cbn. by rewrite IH. Qed.

(** The lower-case letters of an ASCII string. *)
Definition lower_bytes_of (s : string) : list Z := ToLower_rune id <$> bytes_of s.

Lemma lower_fmap f s : ascii_only s -> ToLower_rune f <$> runes (bytes_of s) = lower_bytes_of s.
Proof.
  intros Hs. rewrite runes_ascii by done. unfold lower_bytes_of. unfold ascii_only in Hs.
  induction Hs as [|b l Hb _ IH]; [done|]. cbn [fmap list_fmap]. f_equal; [|done]. unfold ToLower_rune. by rewrite (proj2 (Z.ltb_lt _ _) Hb).
Qed.

Lemma ascii_app s t : ascii_only (s +:+ t) <-> ascii_only s /\ ascii_only t.
Proof. unfold ascii_only. by rewrite bytes_of_app, Forall_app. Qed.

Lemma has_lower_prefix_app f p q t : ascii_only (p +:+ t) -> lower_bytes_of p = bytes_of q -> has_lower_prefix f (p +:+ t) q = true.
Proof.
  intros Ha Hq. apply bool_decide_eq_true_2. rewrite lower_fmap by done. unfold lower_bytes_of in *. rewrite bytes_of_app, fmap_app, Hq.
  rewrite take_app_length'; [done|]. by rewrite bytes_of_length.
Qed.

(** A lower-case separator is the separator. *)
Lemma lower_separator b : ToLower_rune id b = 58%Z -> (0 <= b)%Z -> b = 58%Z.
Proof. unfold ToLower_rune, cont, id. destruct (b <? 128)%Z; [|done]. destruct (_ && _)%bool eqn:E; bool_to_prop; lia. Qed.

Lemma lower_slash b : ToLower_rune id b = 47%Z -> (0 <= b)%Z -> b = 47%Z.
Proof. unfold ToLower_rune, cont, id. destruct (b <? 128)%Z; [|done]. destruct (_ && _)%bool eqn:E; bool_to_prop; lia. Qed.

Lemma byte_char c : Z.of_nat (nat_of_ascii c) = 58%Z -> c = ":"%char.
Proof. intros E. rewrite <- (ascii_nat_embedding c). by assert (nat_of_ascii c = 58) as -> by lia. Qed.

Lemma byte_slash c : Z.of_nat (nat_of_ascii c) = 47%Z -> c = "/"%char.
Proof. intros E. rewrite <- (ascii_nat_embedding c). by assert (nat_of_ascii c = 47) as -> by lia. Qed.

(** Behind a prefix that is a scheme, in any case, the separator stands. *)
Lemma prefix_separated f s q : ascii_only s -> has_lower_prefix f s (q +:+ "://") = true ->
  exists p t, s = p +:+ "://" +:+ t /\ lower_bytes_of p = bytes_of q.
Proof.
  intros Hs Hp. apply bool_decide_eq_true in Hp. rewrite lower_fmap in Hp by done. clear Hs f. revert s Hp.
  induction q as [|d q IH]; intros s Hp.
  - destruct s as [|c1 [|c2 [|c3 s]]]; try done. exists EmptyString, s. split; [|done].
    unfold lower_bytes_of in Hp. cbn in Hp. injection Hp as E1 E2 E3.
    apply lower_separator, byte_char in E1 as ->; [|lia]. apply lower_slash, byte_slash in E2 as ->; [|lia].
    by apply lower_slash, byte_slash in E3 as ->; [|lia].
  - destruct s as [|c s]; [done|]. rewrite string_app_cons in Hp. cbn [String.length bytes_of String.list_ascii_of_string map] in Hp.
    unfold lower_bytes_of in Hp. cbn [bytes_of String.list_ascii_of_string map fmap list_fmap take] in Hp. injection Hp as Ec Hp.
    destruct (IH s Hp) as (p & t & -> & Hq). exists (String c p), t. split; [done|]. unfold lower_bytes_of, bytes_of in *. cbn. f_equal; [exact Ec|exact Hq].
Qed.

Lemma separated_cut f s q : ascii_only s -> has_lower_prefix f s (q +:+ "://") = true -> contains_byte ":" q = false ->
  exists p t, cut_scheme s = Some (p, t) /\ s = p +:+ "://" +:+ t /\ lower_bytes_of p = bytes_of q.
Proof.
  intros Hs Hp Hq. destruct (prefix_separated f s q Hs Hp) as (p & t & -> & Hl). exists p, t. split; [|done].
  apply cut_scheme_app. destruct (contains_byte ":" p) eqn:E; [exfalso|done]. unfold contains_byte in *.
  apply existsb_exists in E as (c & Hin & Hc). apply Ascii.eqb_eq in Hc as <-.
  assert (In 58%Z (lower_bytes_of p)) as Hin'.
  { unfold lower_bytes_of, bytes_of. rewrite <- list_elem_of_In. apply list_elem_of_fmap. exists 58%Z. split; [done|].
    apply list_elem_of_In, in_map_iff. by exists ":"%char. }
  rewrite Hl in Hin'. unfold bytes_of in Hin'. apply in_map_iff in Hin' as (c & Hc & Hin'). apply byte_char in Hc as ->.
  assert (existsb (Ascii.eqb ":") (String.list_ascii_of_string q) = true); [|congruence].
  apply existsb_exists. exists ":"%char. split; [done|by rewrite Ascii.eqb_refl].
Qed.

(** An endpoint is read without a panic; what is given with the scheme "unix" or "tcp", in
    any case, is split into the scheme as it is written and the address, which must not be empty;
    anything else is the path of a socket. *)
Theorem endpoint_Parse_spec f ep : ascii_only ep ->
  match endpoint_Parse f ep with
  | Panic => False
  | Return (Ok (proto, addr)) =>
      (addr <> ""%string /\ ep = proto +:+ "://" +:+ addr /\ lower_bytes_of proto ∈ [bytes_of "unix"; bytes_of "tcp"]) \/
      (proto = "unix"%string /\ addr = ep)
  | Return (Err _) => exists proto, ep = proto +:+ "://" /\ lower_bytes_of proto ∈ [bytes_of "unix"; bytes_of "tcp"]
  end.
Proof.
  intros Ha. unfold endpoint_Parse. destruct (_ || _)%bool eqn:E; [|by right].
  assert (exists p t, cut_scheme ep = Some (p, t) /\ ep = p +:+ "://" +:+ t /\ lower_bytes_of p ∈ [bytes_of "unix"; bytes_of "tcp"])
    as (p & t & -> & Hep & Hp).
  { apply orb_true_iff in E as [E|E].
    - destruct (separated_cut f ep "unix" Ha E eq_refl) as (p & t & Hc & He & Hl). exists p, t. rewrite Hl. set_solver.
    - destruct (separated_cut f ep "tcp" Ha E eq_refl) as (p & t & Hc & He & Hl). exists p, t. rewrite Hl. set_solver. }
  destruct (String.eqb t "") eqn:Et; bool_to_prop.
  - exists p. by rewrite Hep, Et, string_app_nil_r.
  - by left.
Qed.

(** ** The gRPC server *)

(** Where the goroutine of [serve] is. *)
Inductive serve_phase := NotStarted | BeforeListen | Listening (socket : option string) | Serving | ServeEnded.

(** Where the caller of [Run] is. *)
Inductive run_phase := BeforeStart | InWait | RunReturned.

(** [srv_cleanup] is the field [cleanup]: not set, or the path it removes, if any.  The
    services are those registered. *)
Record nonBlockingGRPCServer := mkGrpc {
  srv_wg : nat;
  srv_server : bool;
  srv_cleanup : option (option string);
  srv_services : list string;
  srv_serve : serve_phase;
  srv_run : run_phase;
  srv_stopped : bool;
  srv_removed : list string;
  srv_dead : bool  (** the process has ended, by a fatal error or a panic *)
}.

Definition NewNonBlockingGRPCServer : nonBlockingGRPCServer := mkGrpc 0 false None [] NotStarted BeforeStart false [] false.

Inductive server_action :=
| RunStarts                           (** [Start] and the call of [Wait] *)
| WaitReturns
| ListenReturns (r : result (option string))
| ServeStarts
| ServeReturns                        (** its error is dropped *)
| CallStop (graceful : bool).

(** The services of a wrapper that are not nil, in the order of registration. *)
Definition registered (ids cs ns : bool) : list string :=
  (if ids then ["identity"] else []) ++ (if cs then ["controller"] else []) ++ (if ns then ["node"] else []).

Section Server.

Context (ids cs ns : bool).

Definition server_Start (s : nonBlockingGRPCServer) : nonBlockingGRPCServer :=
  mkGrpc (S (srv_wg s)) (srv_server s) (srv_cleanup s) (srv_services s) BeforeListen InWait (srv_stopped s) (srv_removed s) (srv_dead s).

Definition die (s : nonBlockingGRPCServer) : nonBlockingGRPCServer :=
  mkGrpc (srv_wg s) (srv_server s) (srv_cleanup s) (srv_services s) (srv_serve s) (srv_run s) (srv_stopped s) (srv_removed s) true.

Definition set_serve (p : serve_phase) (s : nonBlockingGRPCServer) : nonBlockingGRPCServer :=
  mkGrpc (srv_wg s) (srv_server s) (srv_cleanup s) (srv_services s) p (srv_run s) (srv_stopped s) (srv_removed s) (srv_dead s).

(** The fields are set and the services registered before [Serve]. *)
Definition install (socket : option string) (s : nonBlockingGRPCServer) : nonBlockingGRPCServer :=
  mkGrpc (srv_wg s) true (Some socket) (registered ids cs ns) Serving (srv_run s) (srv_stopped s) (srv_removed s) (srv_dead s).

(** [Stop] and [ForceStop]: without a server they dereference nil. *)
Definition server_Stop (s : nonBlockingGRPCServer) : nonBlockingGRPCServer :=
  if srv_server s then
    match srv_cleanup s with
    | None => die s
    | Some path =>
        mkGrpc (srv_wg s) (srv_server s) (srv_cleanup s) (srv_services s) (srv_serve s) (srv_run s) true
          (srv_removed s ++ match path with Some p => [p] | None => [] end) (srv_dead s)
    end
  else die s.

Definition server_step (a : server_action) (s : nonBlockingGRPCServer) : option nonBlockingGRPCServer :=
  if srv_dead s then None else
  match a with
  | RunStarts => match srv_run s with BeforeStart => Some (server_Start s) | _ => None end
  | WaitReturns =>
      match srv_run s, srv_wg s with
      | InWait, O => Some (mkGrpc 0 (srv_server s) (srv_cleanup s) (srv_services s) (srv_serve s) RunReturned (srv_stopped s) (srv_removed s) false)
      | _, _ => None
      end
  | ListenReturns r =>
      match srv_serve s with
      | BeforeListen => Some match r with Err _ => die s | Ok socket => set_serve (Listening socket) s end
      | _ => None
      end
  | ServeStarts => match srv_serve s with Listening socket => Some (install socket s) | _ => None end
  | ServeReturns => match srv_serve s with Serving => Some (set_serve ServeEnded s) | _ => None end
  | CallStop _ => Some (server_Stop s)
  end.

Inductive server_runs (s : nonBlockingGRPCServer) : list server_action -> nonBlockingGRPCServer -> Prop :=
| server_runs_nil : server_runs s [] s
| server_runs_snoc acts a s1 s2 : server_runs s acts s1 -> server_step a s1 = Some s2 -> server_runs s (acts ++ [a]) s2.

(** Nothing calls [Done]. *)
Definition server_inv (s : nonBlockingGRPCServer) : Prop :=
  srv_run s <> RunReturned /\ (srv_run s = InWait -> srv_wg s = 1) /\ (srv_run s = BeforeStart -> srv_wg s = 0) /\
  (srv_serve s = Serving -> srv_services s = registered ids cs ns /\ srv_cleanup s <> None).

Lemma server_step_inv a s s' : server_step a s = Some s' -> server_inv s -> server_inv s'.
Proof.
  intros E (Hr & Hw & Hb & Hs). unfold server_step in E. destruct (srv_dead s) eqn:Ed; [done|]. destruct a; cbn in E.
  - destruct (srv_run s) eqn:Er; try done. injection E as <-. unfold server_inv. cbn. repeat split; try done. intros _. by rewrite Hb.
  - destruct (srv_run s) eqn:Er; try done. destruct (srv_wg s) eqn:Ew; [|done]. by specialize (Hw eq_refl).
  - destruct (srv_serve s) eqn:Ev; try done. injection E as <-. destruct r; unfold server_inv; cbn; rewrite ?Ev; done.
  - destruct (srv_serve s) eqn:Ev; try done. injection E as <-. unfold server_inv. cbn. done.
  - destruct (srv_serve s) eqn:Ev; try done. injection E as <-. unfold server_inv. cbn. done.
  - injection E as <-. unfold server_Stop. destruct (srv_server s); [destruct (srv_cleanup s) eqn:Ec|]; unfold server_inv; cbn; rewrite ?Ec; done.
Qed.

(** [Run] never returns: nothing counts the goroutine of the server down, so the caller
    waits for ever, also when the server has failed; and while the server accepts calls,
    the services that were given are registered. *)
Theorem server_Run_never_returns acts s : server_runs NewNonBlockingGRPCServer acts s ->
  srv_run s <> RunReturned /\ server_step WaitReturns s = None /\ (srv_serve s = Serving -> srv_services s = registered ids cs ns).
Proof.
  intros R. assert (I : server_inv s).
  { induction R as [|acts a s1 s2 R IH E]; [by repeat split|]. by eapply server_step_inv. }
  destruct I as (Hr & Hw & Hb & Hs). split; [done|]. split; [|by intros H; apply Hs].
  unfold server_step. destruct (srv_dead s); [done|]. destruct (srv_run s); try done. by rewrite Hw.
Qed.

(** A server whose listener fails leaves a process that waits and serves nobody. *)
Lemma server_fails_silently : exists acts s, server_runs NewNonBlockingGRPCServer acts s /\
  srv_serve s = ServeEnded /\ srv_dead s = false /\ srv_run s = InWait /\ srv_stopped s = false.
Proof.
  exists ([] ++ [RunStarts] ++ [ListenReturns (Ok (Some "/csi.sock"))] ++ [ServeStarts] ++ [ServeReturns]). eexists. split.
  - rewrite !app_assoc. eapply server_runs_snoc; [eapply server_runs_snoc; [eapply server_runs_snoc; [eapply server_runs_snoc|]|]|];
      [constructor|reflexivity..].
  - done.
Qed.

(** Stopping before the goroutine has set the server ends the process. *)
Lemma server_early_stop graceful : exists s, server_runs NewNonBlockingGRPCServer [RunStarts; CallStop graceful] s /\ srv_dead s = true.
Proof.
  exists (die (server_Start NewNonBlockingGRPCServer)). split; [|reflexivity]. change [RunStarts; CallStop graceful] with (([] ++ [RunStarts]) ++ [CallStop graceful]).
  eapply server_runs_snoc; [eapply server_runs_snoc|]; [constructor|reflexivity..].
Qed.

End Server.

(** *** The interceptor *)

(** What is logged, by level. *)
Inductive log_line := LogCall (level : nat) (method : string) | LogRequest | LogError | LogResponse | LogJson (method : string) (err : string).

(** [logGRPC] at a verbosity: the call's result is the handler's. *)
Definition logGRPC {A} (verbosity : nat) (method : string) (error_text : GoError -> string) (r : result A) : result A * list log_line :=
  let pri := if String.eqb method "/csi.v1.Identity/Probe" then 5 else 3 in
  let v5 := 5 <=? verbosity in
  (r, (if pri <=? verbosity then [LogCall pri method] else []) ++ (if v5 then [LogRequest] else []) ++
      (match r with Err _ => [LogError] | Ok _ => [] end) ++
      (if v5 then [LogResponse; LogJson method (match r with Err e => error_text e | Ok _ => EmptyString end)] else [])).

(** Errors are logged at every verbosity. *)
Lemma logGRPC_errors {A} verbosity method text (e : GoError) : LogError ∈ (logGRPC (A := A) verbosity method text (Err e)).2.
Proof. unfold logGRPC. cbn [snd]. rewrite !elem_of_app. right. right. left. by apply list_elem_of_singleton. Qed.

(** ** Identity: identityservice.go *)

Section Identity.

Context {W : Type} `{CsiEnv W}.

Definition NewIdentityService (targetEndpoint : string) : string := "unix://" +:+ targetEndpoint.

Definition GetPluginInfo (req : string) := forward (W := W) (DOther "GetPluginInfo" req).
Definition Probe (req : string) := forward (W := W) (DOther "Probe" req).
Definition GetPluginCapabilities (req : string) := forward (W := W) (DOther "GetPluginCapabilities" req).

End Identity.

(** ** The services: constructors of pkg/wrapper *)

Record WrapperService := mkService { ws_TargetEndpoint : string; ws_Namespace : string; ws_VMIDInformationEndpoint : string }.

Definition NewControllerService (targetEndpoint namespace : string) : WrapperService := mkService ("unix://" +:+ targetEndpoint) namespace EmptyString.
Definition NewPodVMNodeService (targetEndpoint namespace : string) : WrapperService := mkService ("unix://" +:+ targetEndpoint) namespace EmptyString.

Section NodeService.

Context {W : Type} `{CsiEnv W}.

Definition DefaultKubeletLibDir : string := "/var/lib/kubelet".
Definition DefaultKubeletDataDir : string := "/var/data/kubelet".

(** Errors of kata's direct volumes are logged. *)
Definition addKataDirectVolume (volumePath : string) : M (wrapper W) unit := api (fs_change "kata-add" volumePath).
Definition removeKataDirectVolume (volumePath : string) : M (wrapper W) unit := api (fs_change "kata-remove" volumePath).

(** The directories of the kubelet are registered before the service exists. *)
Definition NewNodeService (targetEndpoint namespace vmIDInformationEndpoint : string) : M (wrapper W) WrapperService :=
  let* _l := addKataDirectVolume DefaultKubeletLibDir in
  let* _d := addKataDirectVolume DefaultKubeletDataDir in
  mret (mkService ("unix://" +:+ targetEndpoint) namespace vmIDInformationEndpoint).

(** The three services do nothing when a volume is deleted. *)
Definition DeleteFunction (v : PeerpodVolume) : M (wrapper W) unit := mret tt.

End NodeService.

(** ** Azure's identifiers of virtual machines

    The regular expression of controllerservice.go: the literal parts in any case, the others
    without a slash and not empty. *)
Section AzureVM.

(** Simple case folding outside of ASCII. *)
Context (unicode_fold : Z -> Z).

Definition fold_eq (s t : string) : bool :=
  bool_decide (ToLower_rune unicode_fold <$> runes (bytes_of s) = ToLower_rune unicode_fold <$> runes (bytes_of t)).

Definition azureVMRegexp (s : string) : bool :=
  match split_on "/" s with
  | [e; a; sub; b; group; c; ns; d; name] =>
      (String.eqb e "" && fold_eq a "subscriptions" && nonempty sub && fold_eq b "resourceGroups" && nonempty group &&
       fold_eq c "providers" && fold_eq ns "Microsoft.Compute" && fold_eq d "virtualMachines" && nonempty name)%bool
  | [e; a; sub; b; group; c; ns; d; set; f; name] =>
      (String.eqb e "" && fold_eq a "subscriptions" && nonempty sub && fold_eq b "resourceGroups" && nonempty group &&
       fold_eq c "providers" && fold_eq ns "Microsoft.Compute" && fold_eq d "virtualMachineScaleSets" && nonempty set &&
       fold_eq f "virtualMachines" && nonempty name)%bool
  | _ => false
  end.

Lemma split_on_last sep s : contains_byte sep (List.last (split_on sep s) EmptyString) = false.
Proof. apply last_forall; [apply split_on_elems|done]. Qed.

Lemma split_on_cons sep s : exists w ws, split_on sep s = w :: ws.
Proof. destruct s as [|c s]; [by eexists _, _|]. cbn. destruct (Ascii.eqb c sep); [by eexists _, _|]. destruct (split_on sep s); by eexists _, _. Qed.

Lemma split_on_single sep s w : split_on sep s = [w] -> w = s.
Proof.
  revert w. induction s as [|c s IH]; intros w; [by intros [= <-]|]. cbn. destruct (split_on_cons sep s) as (x & xs & E). rewrite E in *.
  destruct (Ascii.eqb c sep); [done|]. intros [= <- ->]. by rewrite (IH x).
Qed.

Lemma split_trim s : List.last (split_on "/" s) EmptyString <> ""%string -> trim_slashes s = s.
Proof.
  induction s as [|c s IH]; [done|]. cbn [split_on]. destruct (split_on_cons "/" s) as (w & ws & Es). rewrite Es in *.
  assert (Hs : contains_byte "/" s = false -> c <> "/"%char -> trim_slashes (String c s) = String c s).
  { intros Hn Hc. apply trim_slashes_id, contains_byte_cons. by split. }
  assert (Ht : trim_slashes s = s -> s <> ""%string -> trim_slashes (String c s) = String c s).
  { intros Hi Hn. cbn [trim_slashes]. rewrite Hi. by destruct s. }
  destruct (Ascii.eqb c "/") eqn:E.
  - change (List.last (EmptyString :: w :: ws) EmptyString) with (List.last (w :: ws) EmptyString). intros Hl. apply Ht; [by apply IH|].
    intros ->. cbn in Es. injection Es as <- <-. done.
  - apply Ascii.eqb_neq in E. intros Hl. destruct ws as [|w2 ws].
    + apply Hs; [|done]. rewrite <- (split_on_single _ _ _ Es). pose proof (split_on_elems "/" s) as He. rewrite Es in He. by apply Forall_cons in He as [? _].
    + apply Ht; [by apply IH|]. by intros ->.
Qed.

(** For an Azure VM the driver is given the name of the VM, the last part of its identifier. *)
Lemma azure_node_name s : azureVMRegexp s = true ->
  filepath_Base s = List.last (split_on "/" s) EmptyString /\ nonempty (filepath_Base s) = true /\ contains_byte "/" (filepath_Base s) = false.
Proof.
  intros Hr. assert (Hl : nonempty (List.last (split_on "/" s) EmptyString) = true).
  { unfold azureVMRegexp in Hr. destruct (split_on "/" s) as [|? [|? [|? [|? [|? [|? [|? [|? [|? [|? [|? [|]]]]]]]]]]]]; try done;
      by apply andb_true_iff in Hr as [_ Hr]. }
  assert (filepath_Base s = List.last (split_on "/" s) EmptyString) as E; [|rewrite E; split; [done|split; [done|apply split_on_last]]].
  unfold nonempty in Hl. apply negb_true_iff in Hl. unfold filepath_Base.
  destruct (String.eqb s "") eqn:Es; [apply String.eqb_eq in Es as ->; done|].
  rewrite split_trim by (by apply String.eqb_neq). by rewrite Hl.
Qed.

End AzureVM.

Example azure_ids :
  azureVMRegexp id "/subscriptions/s1/resourceGroups/rg/providers/Microsoft.Compute/virtualMachines/vm-1" = true /\
  azureVMRegexp id "/SUBSCRIPTIONS/s1/resourcegroups/rg/providers/microsoft.compute/virtualMachineScaleSets/set/virtualMachines/3" = true /\
  azureVMRegexp id "/subscriptions/s1/resourceGroups/rg/providers/Microsoft.Compute/disks/vm-1" = false /\
  azureVMRegexp id "i-0abc" = false.
Proof. by vm_compute. Qed.
