(* ===== verification/CsiMonitor.v ===== *)
(** * The monitor of PeerpodVolume objects

    Models src/csi-wrapper/pkg/peerpodvolume/monitor.go, the construction and [Run] of
    controller.go, and the three programs of src/csi-wrapper/cmd.  The monitor is a transition
    system of the goroutines it starts, around the informer factory of InformerFactory: the
    caller of [Start], the controller, and the informer.  What the controller's workers do
    with the queue is CsiDispatch. *)

From Stdlib Require Import ZArith Ascii String Lia.
From stdpp Require Import base gmap strings list fin_maps fin_sets.
From S2P Require Import Prelude NetAddr CsiVolumes CsiProps VolumeClient InformerFactory CsiServer Flags Managers.

Open Scope go_scope.
Local Open Scope nat_scope.

Section Monitor.

Context {W : Type} `{RestClient W} `{GoMapOrder}.

(** ** Construction *)

(** The lister, the informer whose cache is waited for, and the informer that has the
    event handlers. *)
Record PeerpodvolumeController := mkController {
  ct_namespace : string;
  ct_lister : peerpodVolumeLister;
  ct_synced : SharedIndexInformer (W := W);
  ct_handlers : SharedIndexInformer (W := W)
}.

Definition newPeerpodvolumeController (index : SharedIndexInformer (W := W) -> Indexer) (informer : peerpodVolumeInformer) (namespace : string)
    (f : sharedInformerFactory (W := W)) : PeerpodvolumeController * sharedInformerFactory (W := W) :=
  let '(lister, f) := informer_Lister index informer f in
  let '(synced, f) := informer_Informer informer f in
  let '(handled, f) := informer_Informer informer f in
  (mkController namespace lister synced handled, f).

Definition resync_period : Z := 30 * 1000000000.

Definition NewPodVolumeMonitor (index : SharedIndexInformer (W := W) -> Indexer) (namespace : string)
    : PeerpodvolumeController * sharedInformerFactory (W := W) :=
  let factory := NewSharedInformerFactory resync_period in
  newPeerpodvolumeController index (version_PeerpodVolumes (V1alpha1 (Confidentialcontainers factory))) namespace factory.

(** The informer of all namespaces, made once. *)
Definition monitor_informer : SharedIndexInformer (W := W) :=
  NewFilteredPeerpodVolumeInformer NamespaceAll resync_period [NamespaceIndex] None.

Lemma NewPodVolumeMonitor_spec index namespace :
  let '(c, f) := NewPodVolumeMonitor index namespace in
  c = mkController namespace (NewPeerpodVolumeLister (index monitor_informer)) monitor_informer monitor_informer /\
  f_informers f = {[PeerpodVolumeType := monitor_informer]} /\ f_startedInformers f = ∅ /\ f_wg f = 0 /\
  f_shuttingDown f = false /\ f_runs f = [].
Proof. done. Qed.

(** ** Runs *)

(** [Run] of the controller: it waits for the cache, starts the workers, and waits for the
    stop channel; the queue is shut down when it returns. *)
Inductive ctrl_phase := CtrlNotStarted | CtrlSyncing | CtrlRunning | CtrlEnded.

Inductive start_phase := StartNotCalled | StartSelecting | StartReturned.

(** The channel [stopCh]. *)
Definition stopCh : nat := 0.

Definition threadiness : nat := 2.

Record csiPodVolumeMonitor := mkMonitor {
  mon_world : world_of (W := W);  (** the factory, its goroutines and the closed channels *)
  mon_start : start_phase;
  mon_ready : bool;     (** [readyCh] is closed *)
  mon_stopOnce : bool;
  mon_ctx : bool;       (** the context is done *)
  mon_ctrl : ctrl_phase;
  mon_hasSynced : bool;
  mon_workers : nat;    (** worker goroutines started *)
  mon_queueShut : bool;
  mon_panicked : bool
}.

Definition mon_stopped (m : csiPodVolumeMonitor) : bool := bool_decide (stopCh ∈ closed (mon_world m)).

Inductive monitor_action :=
(** callers and the API server *)
| MonStart
| MonShutdown
| CtxDone
| CacheSyncs
(** the goroutines *)
| SelectReturns
| CtrlSynced
| CtrlAborts
| CtrlReturns
| InformerEnds (i : nat).

(** [close(m.stopCh)]: closing a closed channel panics. *)
Definition close_stopCh (m : csiPodVolumeMonitor) : csiPodVolumeMonitor :=
  mkMonitor (mkWorldOf (fac (mon_world m)) ({[stopCh]} ∪ closed (mon_world m)) (waiting (mon_world m))) (mon_start m) (mon_ready m) true
    (mon_ctx m) (mon_ctrl m) (mon_hasSynced m) (mon_workers m) (mon_queueShut m) (mon_panicked m || mon_stopped m)%bool.

(** [Shutdown]: [stopOnce] guards the close. *)
Definition monitor_Shutdown (m : csiPodVolumeMonitor) : csiPodVolumeMonitor :=
  if mon_stopOnce m then m else close_stopCh m.

(** [Start] up to its select; closing [readyCh] a second time panics. *)
Definition monitor_Start (m : csiPodVolumeMonitor) : csiPodVolumeMonitor :=
  mkMonitor (mkWorldOf (factory_Start stopCh (fac (mon_world m))) (closed (mon_world m)) (waiting (mon_world m)))
    StartSelecting true (mon_stopOnce m) (mon_ctx m) CtrlSyncing (mon_hasSynced m) (mon_workers m) (mon_queueShut m) (mon_ready m).

Definition set_ctrl (p : ctrl_phase) (workers : nat) (shut : bool) (m : csiPodVolumeMonitor) : csiPodVolumeMonitor :=
  mkMonitor (mon_world m) (mon_start m) (mon_ready m) (mon_stopOnce m) (mon_ctx m) p (mon_hasSynced m) workers shut (mon_panicked m).

Definition set_start (p : start_phase) (m : csiPodVolumeMonitor) : csiPodVolumeMonitor :=
  mkMonitor (mon_world m) p (mon_ready m) (mon_stopOnce m) (mon_ctx m) (mon_ctrl m) (mon_hasSynced m) (mon_workers m) (mon_queueShut m) (mon_panicked m).

Definition monitor_step (a : monitor_action) (m : csiPodVolumeMonitor) : option csiPodVolumeMonitor :=
  if mon_panicked m then None else
  match a with
  | MonStart => Some (monitor_Start m)
  | MonShutdown => Some (monitor_Shutdown m)
  | CtxDone =>
      Some (mkMonitor (mon_world m) (mon_start m) (mon_ready m) (mon_stopOnce m) true (mon_ctrl m) (mon_hasSynced m) (mon_workers m) (mon_queueShut m) false)
  | CacheSyncs =>
      (** only an informer that runs fills its cache *)
      if decide (0 < active (f_runs (fac (mon_world m)))) then
        Some (mkMonitor (mon_world m) (mon_start m) (mon_ready m) (mon_stopOnce m) (mon_ctx m) (mon_ctrl m) true (mon_workers m) (mon_queueShut m) false)
      else None
  | SelectReturns =>
      match mon_start m with
      | StartSelecting =>
          if mon_ctx m then Some (set_start StartReturned (monitor_Shutdown m))
          else if mon_stopped m then Some (set_start StartReturned m) else None
      | _ => None
      end
  | CtrlSynced =>
      match mon_ctrl m with
      | CtrlSyncing => if mon_hasSynced m then Some (set_ctrl CtrlRunning (mon_workers m + threadiness) (mon_queueShut m) m) else None
      | _ => None
      end
  | CtrlAborts =>
      match mon_ctrl m with CtrlSyncing => if mon_stopped m then Some (set_ctrl CtrlEnded (mon_workers m) true m) else None | _ => None end
  | CtrlReturns =>
      match mon_ctrl m with CtrlRunning => if mon_stopped m then Some (set_ctrl CtrlEnded (mon_workers m) true m) else None | _ => None end
  | InformerEnds i =>
      match factory_step (RunEnds i) (mon_world m) with
      | Some w => Some (mkMonitor w (mon_start m) (mon_ready m) (mon_stopOnce m) (mon_ctx m) (mon_ctrl m) (mon_hasSynced m) (mon_workers m) (mon_queueShut m) false)
      | None => None
      end
  end.

Inductive monitor_runs (m : csiPodVolumeMonitor) : list monitor_action -> csiPodVolumeMonitor -> Prop :=
| monitor_runs_nil : monitor_runs m [] m
| monitor_runs_snoc acts a m1 m2 : monitor_runs m acts m1 -> monitor_step a m1 = Some m2 -> monitor_runs m (acts ++ [a]) m2.

Definition monitor_init (f : sharedInformerFactory (W := W)) : csiPodVolumeMonitor :=
  mkMonitor (mkWorldOf f ∅ 0) StartNotCalled false false false CtrlNotStarted false 0 false false.

(** ** Invariant *)

Definition starts (acts : list monitor_action) : nat :=
  length (List.filter (fun a => match a with MonStart => true | _ => false end) acts).

(** Before and after the one call of [Start]. *)
Record monitor_inv (started : bool) (m : csiPodVolumeMonitor) : Prop := mkMonitorInv {
  minv_registered : f_informers (fac (mon_world m)) = {[PeerpodVolumeType := monitor_informer]};
  minv_running : f_shuttingDown (fac (mon_world m)) = false;
  minv_runs : if started then (exists ended, f_runs (fac (mon_world m)) = [mkRun PeerpodVolumeType stopCh ended]) /\ mon_ctrl m <> CtrlNotStarted /\ mon_start m <> StartNotCalled
              else f_runs (fac (mon_world m)) = [] /\ f_startedInformers (fac (mon_world m)) = ∅ /\ mon_ctrl m = CtrlNotStarted /\ mon_start m = StartNotCalled;
  minv_ready : mon_ready m = started;
  minv_panic : mon_panicked m = false;
  minv_once : mon_stopOnce m = mon_stopped m;
  minv_workers : mon_workers m = match mon_ctrl m with CtrlRunning => threadiness | CtrlEnded => mon_workers m | _ => 0 end;
  minv_bound : mon_workers m <= threadiness;
  minv_synced : 0 < mon_workers m -> mon_hasSynced m = true;
  minv_queue : mon_queueShut m = true <-> mon_ctrl m = CtrlEnded;
  minv_ended : mon_ctrl m = CtrlEnded \/ mon_start m = StartReturned -> mon_stopped m = true
}.

Lemma monitor_init_inv index ns : monitor_inv false (monitor_init (NewPodVolumeMonitor index ns).2).
Proof.
  constructor; cbn; try done.
  - lia.
  - lia.
  - by intros [|].
Qed.

(** Starting the factory of a monitor runs its one informer. *)
Lemma factory_Start_monitor f : f_informers f = {[PeerpodVolumeType := monitor_informer]} -> f_shuttingDown f = false ->
  f_startedInformers f = ∅ -> f_runs f = [] ->
  f_runs (factory_Start stopCh f) = [mkRun PeerpodVolumeType stopCh false] /\
  f_informers (factory_Start stopCh f) = f_informers f /\ f_shuttingDown (factory_Start stopCh f) = false.
Proof.
  intros Hi Hd Hs Hr. unfold factory_Start. rewrite Hd, Hi.
  assert (map_order {[PeerpodVolumeType := monitor_informer]} = [(PeerpodVolumeType, monitor_informer)]) as ->.
  { apply Permutation_singleton_r. by rewrite map_order_perm, map_to_list_singleton. }
  cbn [foldl]. unfold start_informer. cbn [fst]. rewrite Hs, lookup_empty. cbn. by rewrite Hr, Hi, Hd.
Qed.

Lemma Shutdown_inv started m : monitor_inv started m -> monitor_inv started (monitor_Shutdown m) /\ mon_stopped (monitor_Shutdown m) = true.
Proof.
  intros I. unfold monitor_Shutdown. destruct (mon_stopOnce m) eqn:E; [split; [done|by rewrite <- (minv_once _ _ I)]|].
  assert (Hst : bool_decide (stopCh ∈ {[stopCh]} ∪ closed (mon_world m)) = true) by (apply bool_decide_eq_true_2; set_solver).
  destruct I as [K1 K2 K3 K4 K5 K6 K7 K8 K9 K10 K11].
  split; [|exact Hst]. constructor; try done. cbn. by rewrite K5, <- K6, E.
Qed.

Lemma set_start_inv m : monitor_inv true m -> mon_stopped m = true -> monitor_inv true (set_start StartReturned m).
Proof. intros [K1 K2 (K3 & ? & ?) K4 K5 K6 K7 K8 K9 K10 K11] Hs. by constructor. Qed.

Lemma set_end_inv m : monitor_inv true m -> mon_stopped m = true -> monitor_inv true (set_ctrl CtrlEnded (mon_workers m) true m).
Proof. intros [K1 K2 (K3 & ? & ?) K4 K5 K6 K7 K8 K9 K10 K11] Hs. by constructor. Qed.

Lemma started_of started m : monitor_inv started m -> mon_ctrl m <> CtrlNotStarted \/ mon_start m <> StartNotCalled -> started = true.
Proof. intros I [Hc|Hc]; destruct started; try done; pose proof (minv_runs _ _ I) as (_ & _ & ? & ?); congruence. Qed.

Lemma monitor_step_inv a m m' started : monitor_step a m = Some m' -> monitor_inv started m -> (a = MonStart -> started = false) ->
  monitor_inv (started || match a with MonStart => true | _ => false end)%bool m'.
Proof.
  intros E I Ha. unfold monitor_step in E. rewrite (minv_panic _ _ I) in E. destruct a; rewrite ?orb_false_r.
  - rewrite (Ha eq_refl) in *. injection E as <-. destruct I as [K1 K2 (K3 & K4 & K5 & K6) K7 K8 K9 K10 K11 K12 K13 K14].
    destruct (factory_Start_monitor _ K1 K2 K4 K3) as (Hr & Hi & Hd). unfold monitor_Start, mon_stopped in *. rewrite K5 in *.
    constructor; cbn [mon_world mon_start mon_ready mon_panicked mon_stopOnce mon_ctrl mon_hasSynced mon_workers mon_queueShut fac closed waiting];
      try done; [congruence|by split; [exists false|]|by split; [intros Hq; apply K13 in Hq|]|by intros [|]].
  - injection E as <-. by apply Shutdown_inv.
  - injection E as <-. destruct I. by constructor.
  - destruct (decide _); [|done]. injection E as <-. destruct I. by constructor.
  - destruct (mon_start m) eqn:Es; try done. assert (started = true) as -> by (apply (started_of _ m I); right; by rewrite Es).
    destruct (mon_ctx m); [injection E as <-|destruct (mon_stopped m) eqn:Est; [injection E as <-|done]]; [|by apply set_start_inv].
    destruct (Shutdown_inv _ _ I) as [I' Hs]. by apply set_start_inv.
  - destruct (mon_ctrl m) eqn:Ec; try done. destruct (mon_hasSynced m) eqn:Eh; [|done]. injection E as <-.
    assert (started = true) as -> by (apply (started_of _ m I); left; by rewrite Ec).
    destruct I as [K1 K2 (K3 & ? & ?) K4 K5 K6 K7 K8 K9 K10 K11]. rewrite Ec in *. constructor; cbn; rewrite ?K7; try done.
    + split; [intros Hq; by apply K10 in Hq|done].
    + intros [|Hx]; [done|]. apply K11. by right.
  - destruct (mon_ctrl m) eqn:Ec; try done. destruct (mon_stopped m) eqn:Est; [|done]. injection E as <-.
    assert (started = true) as -> by (apply (started_of _ m I); left; by rewrite Ec). by apply set_end_inv.
  - destruct (mon_ctrl m) eqn:Ec; try done. destruct (mon_stopped m) eqn:Est; [|done]. injection E as <-.
    assert (started = true) as -> by (apply (started_of _ m I); left; by rewrite Ec). by apply set_end_inv.
  - cbn in E. destruct (f_runs (fac (mon_world m)) !! i) as [x|] eqn:Ei; [|done].
    destruct (negb _ && _)%bool; [|done]. injection E as <-. destruct I as [K1 K2 K3 K4 K5 K6 K7 K8 K9 K10 K11].
    destruct started; [|by destruct K3 as (Hr & _); rewrite Hr in Ei].
    destruct K3 as [[ended Hr] ?]. rewrite Hr in Ei. destruct i as [|i]; [|done]. injection Ei as <-.
    constructor; cbn; try done. rewrite Hr. split; [by exists true|done].
Qed.

Lemma starts_snoc acts a : starts (acts ++ [a]) = starts acts + match a with MonStart => 1 | _ => 0 end.
Proof. unfold starts. rewrite List.filter_app, length_app. by destruct a. Qed.

Lemma monitor_runs_inv index ns acts m : monitor_runs (monitor_init (NewPodVolumeMonitor index ns).2) acts m -> starts acts <= 1 ->
  monitor_inv (0 <? starts acts) m.
Proof.
  intros R. induction R as [|acts a m1 m2 R IH E]; [intros _; apply monitor_init_inv|]. rewrite starts_snoc. intros Hs.
  specialize (IH ltac:(lia)). pose proof (monitor_step_inv a m1 m2 _ E IH) as Hinv.
  assert (Ha : a = MonStart -> (0 <? starts acts) = false) by (intros ->; apply Nat.ltb_ge; lia). specialize (Hinv Ha).
  assert ((0 <? starts acts + match a with MonStart => 1 | _ => 0 end) = ((0 <? starts acts) || match a with MonStart => true | _ => false end)%bool) as ->; [|done].
  destruct a; rewrite ?Nat.add_0_r, ?orb_false_r, ?orb_true_r; try done. apply Nat.ltb_lt. lia.
Qed.

(** *** Progress *)

Definition monitor_internal (a : monitor_action) : Prop :=
  match a with SelectReturns | CtrlSynced | CtrlAborts | CtrlReturns | InformerEnds _ => True | _ => False end.

Definition monitor_left (m : csiPodVolumeMonitor) : nat :=
  match mon_start m with StartSelecting => 1 | _ => 0 end + match mon_ctrl m with CtrlSyncing => 2 | CtrlRunning => 1 | _ => 0 end +
  active (f_runs (fac (mon_world m))).

Lemma monitor_decreases a m m' : monitor_internal a -> monitor_step a m = Some m' -> monitor_left m' < monitor_left m.
Proof.
  intros Ha E. unfold monitor_step in E. destruct (mon_panicked m); [done|]. unfold monitor_left. destruct a; try done.
  - destruct (mon_start m) eqn:Es; try done. destruct (mon_ctx m); [injection E as <-|destruct (mon_stopped m); [injection E as <-|done]];
      unfold monitor_Shutdown, close_stopCh; cbn -[active]; try destruct (mon_stopOnce m); cbn -[active]; lia.
  - destruct (mon_ctrl m) eqn:Ec; try done. destruct (mon_hasSynced m); [|done]. injection E as <-. cbn -[active]. lia.
  - destruct (mon_ctrl m) eqn:Ec; try done. destruct (mon_stopped m); [|done]. injection E as <-. cbn -[active]. lia.
  - destruct (mon_ctrl m) eqn:Ec; try done. destruct (mon_stopped m); [|done]. injection E as <-. cbn -[active]. lia.
  - destruct (factory_step (RunEnds i) (mon_world m)) as [w|] eqn:Ef; [|done]. injection E as <-.
    pose proof (settling_decreases (RunEnds i) (mon_world m) w Logic.I Ef) as Hd. unfold factory_left in Hd.
    assert (waiting w = waiting (mon_world m)) as Ew.
    { cbn in Ef. destruct (f_runs (fac (mon_world m)) !! i); [|done]. destruct (negb _ && _)%bool; [|done]. by injection Ef as <-. }
    cbn -[active]. lia.
Qed.

Lemma stopped_stays a m m' : monitor_internal a -> monitor_step a m = Some m' -> mon_stopped m = true -> mon_stopped m' = true.
Proof.
  intros Ha E Hs. unfold monitor_step in E. destruct (mon_panicked m); [done|]. destruct a; try done.
  - destruct (mon_start m); try done. destruct (mon_ctx m); [|rewrite Hs in E; by injection E as <-]. injection E as <-.
    unfold monitor_Shutdown. destruct (mon_stopOnce m); [done|]. apply bool_decide_eq_true_2. cbn. set_solver.
  - destruct (mon_ctrl m); try done. destruct (mon_hasSynced m); [|done]. by injection E as <-.
  - destruct (mon_ctrl m); try done. rewrite Hs in E. by injection E as <-.
  - destruct (mon_ctrl m); try done. rewrite Hs in E. by injection E as <-.
  - cbn in E. destruct (f_runs (fac (mon_world m)) !! i); [|done]. destruct (negb _ && _)%bool; [|done]. by injection E as <-.
Qed.

Lemma monitor_stuck m : monitor_inv true m -> mon_stopped m = true -> (forall a, monitor_internal a -> monitor_step a m = None) ->
  mon_start m = StartReturned /\ mon_queueShut m = true /\ Forall (fun x => run_ended x = true) (f_runs (fac (mon_world m))).
Proof.
  intros I Hs Hstuck. pose proof (minv_panic _ _ I) as Hp. destruct (minv_runs _ _ I) as ([ended Hr] & Hc & Hn).
  unfold monitor_step in Hstuck. rewrite Hp in Hstuck. split; [|split].
  - specialize (Hstuck SelectReturns Logic.I). cbn in Hstuck. rewrite Hs in Hstuck. destruct (mon_start m); [done| |done]. by destruct (mon_ctx m).
  - apply (minv_queue _ _ I). destruct (mon_ctrl m) eqn:Ec; try done.
    + specialize (Hstuck CtrlAborts Logic.I). cbn in Hstuck. by rewrite ?Ec, Hs in Hstuck.
    + specialize (Hstuck CtrlReturns Logic.I). cbn in Hstuck. by rewrite ?Ec, Hs in Hstuck.
  - rewrite Hr. apply List.Forall_cons; [|apply List.Forall_nil]. destruct ended; [done|exfalso].
    specialize (Hstuck (InformerEnds 0) Logic.I). cbn in Hstuck. rewrite Hr in Hstuck. cbn in Hstuck. unfold mon_stopped in Hs. by rewrite Hs in Hstuck.
Qed.

(** ** Theorems *)

(** C15: The monitor runs its informer once and handles no volume before the cache is
    filled: in every run with one call of [Start], any calls of [Shutdown] and any
    cancellation, nothing panics, the informer of all namespaces is run by one goroutine, at
    most the two workers are started and only after the cache has synced, and the queue is
    shut down only after the monitor was stopped. *)
Theorem monitor_safe index ns acts m :
  monitor_runs (monitor_init (NewPodVolumeMonitor index ns).2) acts m -> starts acts <= 1 ->
  mon_panicked m = false /\
  f_informers (fac (mon_world m)) = {[PeerpodVolumeType := monitor_informer]} /\
  length (f_runs (fac (mon_world m))) = starts acts /\
  mon_workers m <= threadiness /\ (0 < mon_workers m -> mon_hasSynced m = true) /\
  (mon_queueShut m = true -> mon_stopped m = true).
Proof.
  intros R Hs. pose proof (monitor_runs_inv _ _ _ _ R Hs) as [K1 K2 K3 K4 K5 K6 K7 K8 K9 K10 K11].
  split; [done|]. split; [done|]. split; [|split; [done|split; [done|]]].
  - destruct (0 <? starts acts) eqn:E; bool_to_prop.
    + destruct K3 as [[ended ->] _]. cbn. lia.
    + destruct K3 as [-> _]. cbn. lia.
  - intros Hq. apply K11. left. by apply K10.
Qed.

(** C16: Stopping the monitor ends it: once it was started and stopped, every schedule of its
    goroutines is bounded by four steps, and where none can move, [Start] has returned, the
    controller has returned and shut its queue down, and the informer has ended. *)
Theorem monitor_stops index ns acts m later m' :
  monitor_runs (monitor_init (NewPodVolumeMonitor index ns).2) acts m -> starts acts = 1 -> mon_stopped m = true ->
  monitor_runs m later m' -> Forall monitor_internal later ->
  length later <= 4 /\
  ((forall a, monitor_internal a -> monitor_step a m' = None) ->
   mon_start m' = StartReturned /\ mon_queueShut m' = true /\ Forall (fun x => run_ended x = true) (f_runs (fac (mon_world m')))).
Proof.
  intros R Hone Hst R' Hint.
  assert (Hm : monitor_inv true m) by (pose proof (monitor_runs_inv _ _ _ _ R ltac:(lia)) as I; by rewrite Hone in I).
  assert (Hb : length later + monitor_left m' <= monitor_left m /\ monitor_inv true m' /\ mon_stopped m' = true).
  { clear R. induction R' as [|later a m1 m2 R' IH E]; [split; [cbn; lia|done]|].
    apply Forall_app in Hint as [Hl Ha]. apply List.Forall_cons_iff in Ha as [Ha _]. destruct (IH Hl) as (Hlen & I1 & Hs1).
    pose proof (monitor_decreases _ _ _ Ha E). pose proof (monitor_step_inv a m1 m2 true E I1) as I2.
    rewrite length_app. cbn [length]. split; [lia|]. split; [apply I2; by intros ->|by eapply stopped_stays]. }
  destruct Hb as (Hlen & I' & Hst'). split; [|by apply monitor_stuck].
  assert (monitor_left m <= 4); [|lia]. destruct (minv_runs _ _ Hm) as [[ended Hr] _]. unfold monitor_left. rewrite Hr.
  destruct (mon_start m), (mon_ctrl m), ended; vm_compute; lia.
Qed.

End Monitor.

(** ** Announcing the volumes of a pod *)

Section Announce.

Context {W : Type} `{CsiLaws W}.

Definition announced (v v' : PeerpodVolume) : Prop :=
  v_State v' = PeerPodVSIRunning /\
  v_Spec v' = set_pod (v_Spec v) (csi_getenv "POD_NAME") (csi_getenv "POD_NAME_SPACE") (csi_getenv "POD_NODE_NAME").

Lemma announce_pod_spec v s s' : announce_pod v s = (Return (Ok tt), s') ->
  (exists v', held s' (v_Name v) = Some v' /\ announced v v') /\ (forall n, n <> v_Name v -> held s' n = held s n) /\ calls s' = calls s.
Proof.
  unfold announce_pod, mbind, mret, api. destruct (v_Labels v) as [labels|]; [|done]. cbn [with_spec v_Name].
  match goal with |- context [vol_Update _ ?x _] => set (updated := x) end.
  destruct (vol_Update csi_Namespace updated (vworld s)) as [u w1] eqn:E1. destruct u as [v1|]; [|done]. cbn [vworld calls].
  destruct (vol_UpdateStatus _ _ w1) as [us w2] eqn:E2. destruct us as [v2|]; [|done]. intros [= <-].
  destruct (proj1 (vol_Update_law _ _ _ _ E1) v1 eq_refl) as (old1 & _ & _ & Hs1 & Hn1 & _ & Hsp1 & _).
  destruct (proj1 (vol_UpdateStatus_law _ _ _ _ E2) v2 eq_refl) as (old2 & Ho2 & _ & Hs2 & Hn2 & _ & Hsp2 & Hst2).
  cbn [with_state v_Name] in Ho2, Hs2. rewrite Hn1 in Ho2, Hs2. rewrite Hs1 in Ho2. injection Ho2 as <-. cbn [updated with_spec v_Name v_Spec] in *.
  split; [|split; [|done]].
  - exists v2. split; [exact Hs2|]. split; [exact Hst2|]. rewrite Hsp2, Hsp1. done.
  - intros n Hn. unfold held. cbn [vworld]. rewrite (vol_UpdateStatus_other _ _ _ _ E2) by (cbn; congruence).
    by rewrite (vol_Update_other _ _ _ _ E1).
Qed.

Lemma announce_pods_spec items s s' : NoDup (v_Name <$> items) -> announce_pods items s = (Return (Ok tt), s') ->
  (forall v, v ∈ items -> exists v', held s' (v_Name v) = Some v' /\ announced v v') /\
  (forall n, n ∉ v_Name <$> items -> held s' n = held s n) /\ calls s' = calls s.
Proof.
  revert s. induction items as [|v items IH]; intros s Hd; cbn [announce_pods].
  { intros [= <-]. split; [|done]. intros v Hv. by apply not_elem_of_nil in Hv. }
  apply NoDup_cons in Hd as [Hv Hd]. unfold mbind. destruct (announce_pod v s) as [r s1] eqn:E1.
  destruct r as [[[]|]|]; try done. intros E2. destruct (announce_pod_spec v s s1 E1) as (Ha & Ho & Hc).
  destruct (IH s1 Hd E2) as (Hall & Hother & Hc2). split; [|split; [|congruence]].
  - intros x [->|Hx]%elem_of_cons; [|by apply Hall]. by rewrite Hother.
  - intros n Hn. cbn in Hn. apply not_elem_of_cons in Hn as [Hn1 Hn2]. rewrite Hother by done. by apply Ho.
Qed.

End Announce.

(** ** The programs: cmd/csi-controller-wrapper, csi-node-wrapper, csi-podvm-wrapper *)

(** How the main goroutine ends, or that it has started the monitor of the namespace of its
    service with the handlers of that service and waits in [Run], which never returns
    ([server_Run_never_returns]): the endpoint, the service, the target of the identity
    service, and the services registered. *)
Inductive main_end :=
| MainExits (code : Z)
| MainFatal
| MainServes (endpoint : string) (service : WrapperService) (identity : string) (services : list string).

Section Programs.

Context {W : Type} `{RestClient W} (env : CsiEnv W) `{FlagNumbers} `{RestBuild}.

(** The flags of glog, which the command line has too, and [clientcmd.BuildConfigFromFlags]. *)
Context (glog_flags : list flag) (BuildConfigFromFlags : result RestConfig).

Definition common_flags (endpoint : string) : list flag :=
  [str "endpoint" "Endpoint" endpoint; str "namespace" "Namespace" "default"; str "target-endpoint" "TargetEndpoint" "/csi/csi.sock"].

Definition endpoint_of (c : gmap string fval) (v : string) : string := match c !! v with Some (VStr s) => s | _ => EmptyString end.

(** [flag.Parse] ends the process on an error, with 0 when help was asked for. *)
Definition flag_Parse (fs : list flag) (args : list string) : outcome (command (gmap string fval)) :=
  match declare [] (glog_flags ++ fs) ∅ with
  | Panic => Panic
  | Return c =>
      Return match flagset_Parse (glog_flags ++ fs) args c with
             | Ok (c, _) => Continue c
             | Err e => Exits (if errors_Is "flag: help requested" e then 0 else 2)%Z
             end
  end.

(** The client: [None] is the fatal end without a configuration. *)
Definition make_client : option (outcome Clientset) :=
  match BuildConfigFromFlags with Err _ => None | Ok c => Some (NewForConfigOrDie c) end.

Definition controller_main (args : list string) : outcome main_end :=
  match flag_Parse (common_flags "/csi/csi-controller-wrapper.sock") args with
  | Panic => Panic
  | Return (Exits code) => Return (MainExits code)
  | Return (Continue c) =>
      if String.eqb (endpoint_of c "Endpoint") "" then Return MainFatal
      else if String.eqb (endpoint_of c "TargetEndpoint") "" then Return MainFatal
      else match make_client with
           | None => Return MainFatal
           | Some Panic => Panic
           | Some (Return _) =>
               Return (MainServes (endpoint_of c "Endpoint") (NewControllerService (endpoint_of c "TargetEndpoint") (endpoint_of c "Namespace"))
                         (NewIdentityService (endpoint_of c "TargetEndpoint")) (registered true true false))
           end
  end.

(** The client is made first; the service registers the kubelet's directories. *)
Definition node_main (args : list string) : M (wrapper W) (outcome main_end) :=
  match flag_Parse (common_flags "/csi/csi-node-wrapper.sock" ++
          [str "vm-id-information-endpoint" "VMIDInformationEndpoint" "/run/peerpod/hypervisor.sock"]) args with
  | Panic => mret Panic
  | Return (Exits code) => mret (Return (MainExits code))
  | Return (Continue c) =>
      match make_client with
      | None => mret (Return MainFatal)
      | Some Panic => mret Panic
      | Some (Return _) =>
          let* service := @NewNodeService W env (endpoint_of c "TargetEndpoint") (endpoint_of c "Namespace") (endpoint_of c "VMIDInformationEndpoint") in
          mret (Return (MainServes (endpoint_of c "Endpoint") service (NewIdentityService (endpoint_of c "TargetEndpoint")) (registered true false true)))
      end
  end.

(** The volumes labelled with the pod's uid. *)
Definition pod_selector : ListOptions := mkListOptions ("podUid=" +:+ @csi_getenv W env "POD_UID") None false "".

Definition announce_listed (ns endpoint target : string) : M (wrapper W) (outcome main_end) :=
  let* r := api (volumes_List (newPeerpodVolumes ns) pod_selector) in
  match r.2 with
  | Some _ => mret (Return MainFatal)
  | None =>
      let* a := @announce_pods W (client_env env ns) r.1 in
      mret match a with
           | Panic => Panic
           | Return (Err _) => Return MainFatal
           | Return (Ok _) => Return (MainServes endpoint (NewPodVMNodeService target ns) (NewIdentityService target) (registered true false true))
           end
  end.

Definition podvm_main (args : list string) : M (wrapper W) (outcome main_end) :=
  match flag_Parse (common_flags "/csi/csi-podvm-wrapper.sock") args with
  | Panic => mret Panic
  | Return (Exits code) => mret (Return (MainExits code))
  | Return (Continue c) =>
      match make_client with
      | None => mret (Return MainFatal)
      | Some Panic => mret Panic
      | Some (Return _) => announce_listed (endpoint_of c "Namespace") (endpoint_of c "Endpoint") (endpoint_of c "TargetEndpoint")
      end
  end.

End Programs.

Section ProgramProps.

Context {W : Type} `{ApiServer W} (env : CsiEnv W) `{FlagNumbers} `{RestBuild}.
Context (glog_flags : list flag) (BuildConfigFromFlags : result RestConfig).

(** Listing does not change the objects. *)
Hypothesis list_reads : forall rq w r w', rest_do rq w = (r, w') -> rq_verb rq = GET -> rq_name rq = None ->
  forall ns n, server_volume w' ns n = server_volume w ns n.

(** C18: The pod VM's wrapper serves only after it has announced the pod: when it
    comes to serving, the API server has answered its query for the volumes of the
    pod, and each of them, if no other process writes it, is in the state that lets the worker
    node send the VM's id and carries the name, namespace and node of the pod. *)
Theorem podvm_serves_after_announcing args s ep service identity services s' :
  (forall ns, env_apart env ns) ->
  podvm_main env glog_flags BuildConfigFromFlags args s = (Return (MainServes ep service identity services), s') ->
  services = ["identity"; "node"] /\ identity = ws_TargetEndpoint service /\
  let ns := ws_Namespace service in
  exists items w1,
    volumes_List (newPeerpodVolumes ns) (pod_selector env) (vworld s) = ((items, None), w1) /\
    (NoDup (v_Name <$> items) -> forall v, v ∈ items -> exists v', server_volume (vworld s') ns (v_Name v) = Some v' /\
       v_State v' = PeerPodVSIRunning /\
       v_Spec v' = set_pod (v_Spec v) (@csi_getenv W env "POD_NAME") (@csi_getenv W env "POD_NAME_SPACE") (@csi_getenv W env "POD_NODE_NAME")) /\
    (NoDup (v_Name <$> items) -> forall n, n ∉ v_Name <$> items -> server_volume (vworld s') ns n = server_volume (vworld s) ns n).
Proof.
  intros Hapart. unfold podvm_main. destruct (flag_Parse _ _ _) as [[c|code]|]; try done.
  destruct (make_client _) as [[cs|]|]; try done.
  generalize (endpoint_of c "Namespace"). intros ns. unfold announce_listed, mbind, mret, api.
  destruct (volumes_List _ _ _) as [[items err] w1] eqn:El. cbn [fst snd]. destruct err; [done|].
  destruct (announce_pods items _) as [a s2] eqn:Ea. destruct a as [[[]|]|]; try done. intros [= _ <- <- <- <-].
  assert (Hsame : forall n, server_volume w1 ns n = server_volume (vworld s) ns n).
  { intros n. unfold volumes_List, mbind, mret in El. destruct (rest_do _ (vworld s)) as [ans w2] eqn:Er. injection El as _ <-.
    eapply list_reads; [exact Er|done..]. }
  split; [done|]. split; [done|]. unfold NewPodVMNodeService. cbn [ws_Namespace]. exists items, w1. split; [exact El|].
  assert (Hp : NoDup (v_Name <$> items) -> _) by exact (fun Hd => @announce_pods_spec W (client_env env ns) (client_laws env ns (Hapart ns)) items _ _ Hd Ea).
  split; intros Hd; destruct (Hp Hd) as (Hall & Ho & _); [exact Hall|].
  intros n Hn. rewrite <- (Hsame n). exact (Ho n Hn).
Qed.

End ProgramProps.

(** ** Witnesses *)

#[export] Instance plain_rest : RestLibrary := {
  float32 := Z;
  above_zero q := (0 <? q)%Z;
  limiter := Z;
  http_client := unit;
  rest_client := string;
  discovery_client := string;
  NewTokenBucketRateLimiter q b := q;
  DefaultKubernetesUserAgent := "agent"
}.

#[export] Instance plain_build : RestBuild := {
  HTTPClientFor _ := Ok tt;
  RESTClientForConfigAndClient c _ := Ok (cfg_APIPath c);
  NewDiscoveryClientForConfigAndClient c _ := Ok (cfg_APIPath c);
  NewDiscoveryClient c := c
}.

Definition plain_config : RestConfig := mkRestConfig ""%string 5%Z 10%Z None None ""%string ""%string ""%string.

Lemma bench_apart ns : env_apart bench_env ns.
Proof. by constructor; intros; simplify_eq/=. Qed.

Lemma rserver_list_reads (rq : RestRequest) (w : rserver) r w' : rest_do rq w = (r, w') -> rq_verb rq = GET -> rq_name rq = None ->
  forall ns n, server_volume w' ns n = server_volume w ns n.
Proof. cbn. unfold rserve. intros E Hv Hn. rewrite Hv, Hn in E. destruct (rq_body rq); by injection E as _ <-. Qed.

Definition podvm_run : outcome main_end * wrapper rserver :=
  @podvm_main rserver _ bench_env text_numbers _ _ [] (Ok plain_config) ["-namespace=default"]%string (volume_at "default").

Lemma podvm_serves_after_announcing_witness :
  podvm_run.1 = Return (MainServes "/csi/csi-podvm-wrapper.sock" (mkService "unix:///csi/csi.sock" "default" "") "unix:///csi/csi.sock" ["identity"; "node"]) /\
  exists items w1, volumes_List (newPeerpodVolumes "default") (pod_selector bench_env) (vworld (volume_at "default")) = ((items, None), w1).
Proof.
  assert (E : podvm_run.1 = Return (MainServes "/csi/csi-podvm-wrapper.sock" (mkService "unix:///csi/csi.sock" "default" "") "unix:///csi/csi.sock" ["identity"; "node"])) by (vm_compute; reflexivity).
  split; [exact E|].
  destruct (@podvm_serves_after_announcing rserver _ _ bench_env text_numbers _ _ [] (Ok plain_config) rserver_list_reads
    ["-namespace=default"]%string (volume_at "default") "/csi/csi-podvm-wrapper.sock"%string (mkService "unix:///csi/csi.sock" "default" "") "unix:///csi/csi.sock"%string
    ["identity"; "node"]%string podvm_run.2 bench_apart) as (_ & _ & items & w1 & Hl & _).
  - rewrite <- E. apply surjective_pairing.
  - by exists items, w1.
Defined.

Definition any_index (_ : SharedIndexInformer (W := rserver)) : Indexer := index_of ∅.

Definition mon0 : csiPodVolumeMonitor (W := rserver) := monitor_init (NewPodVolumeMonitor any_index "default").2.

Definition mon_next (a : monitor_action) (m : csiPodVolumeMonitor (W := rserver)) : csiPodVolumeMonitor := default m (monitor_step a m).

Definition mon_acts : list monitor_action := [MonStart; CacheSyncs; CtrlSynced; CtxDone; SelectReturns].

Definition mon_from (m : csiPodVolumeMonitor (W := rserver)) (acts : list monitor_action) : csiPodVolumeMonitor := foldl (fun m a => mon_next a m) m acts.

Definition mon_run : list monitor_action -> csiPodVolumeMonitor (W := rserver) := mon_from mon0.

Definition mon_enabled (a : monitor_action) (m : csiPodVolumeMonitor (W := rserver)) : bool := match monitor_step a m with Some _ => true | None => false end.

Lemma mon_from_snoc m acts a : monitor_runs m acts (mon_from m acts) -> mon_enabled a (mon_from m acts) = true ->
  monitor_runs m (acts ++ [a]) (mon_from m (acts ++ [a])).
Proof.
  unfold mon_enabled. destruct (monitor_step a (mon_from m acts)) as [m'|] eqn:E; [intros R _|done]. eapply monitor_runs_snoc; [exact R|].
  unfold mon_from. rewrite foldl_app. cbn. fold (mon_from m acts). unfold mon_next. by rewrite E.
Qed.

Lemma mon_acts_run : monitor_runs mon0 mon_acts (mon_run mon_acts).
Proof.
  change mon_acts with ((((([] ++ [MonStart]) ++ [CacheSyncs]) ++ [CtrlSynced]) ++ [CtxDone]) ++ [SelectReturns]).
  repeat (apply mon_from_snoc; [|vm_compute; reflexivity]). constructor.
Qed.

(** The goroutines that are left end, after which none can move. *)
Definition mon_ends : list monitor_action := [InformerEnds 0; CtrlReturns].

Lemma mon_ends_run : monitor_runs (mon_run mon_acts) mon_ends (mon_from (mon_run mon_acts) mon_ends).
Proof.
  change mon_ends with (([] ++ [InformerEnds 0]) ++ [CtrlReturns]). repeat (apply mon_from_snoc; [|vm_compute; reflexivity]). constructor.
Qed.

Lemma monitor_safe_witness : mon_workers (mon_run mon_acts) = 2 /\ mon_hasSynced (mon_run mon_acts) = true.
Proof.
  destruct (monitor_safe any_index "default" mon_acts (mon_run mon_acts) mon_acts_run) as (_ & _ & _ & _ & Hw & _); [cbn; lia|].
  assert (mon_workers (mon_run mon_acts) = 2) as E by reflexivity. split; [exact E|]. apply Hw. rewrite E. lia.
Defined.

Lemma monitor_stops_witness : length mon_ends <= 4 /\ mon_start (mon_from (mon_run mon_acts) mon_ends) = StartReturned.
Proof.
  destruct (monitor_stops any_index "default" mon_acts (mon_run mon_acts) mon_ends (mon_from (mon_run mon_acts) mon_ends) mon_acts_run)
    as [Hlen Hend]; [vm_compute; reflexivity|vm_compute; reflexivity|exact mon_ends_run|by repeat constructor|].
  split; [exact Hlen|]. apply Hend. intros [| | | | | | | |[|i]] Ha; try done; vm_compute; reflexivity.
Defined.
