(* ===== verification/Admission.v ===== *)
(** * Admission of pods, and the two manager programs

    Models src/webhook/pkg/mutating_webhook/mutating-webhook.go (the handler of the API
    server's admission requests around the mutation of Webhook), src/webhook/main.go and
    src/peerpod-ctrl/main.go.  JSON and JSON patches are an interface with the laws of
    their round trips; the manager of controller-runtime is a class. *)

From Stdlib Require Import ZArith Ascii String Lia.
From stdpp Require Import base gmap strings list fin_maps.
From S2P Require Import Prelude InstanceTypes CloudService Webhook Flags Managers.

Open Scope Z_scope.

(** ** The handler *)

(** [Decode] reads a pod from the raw object, [Marshal] writes one, [CreatePatch] makes
    the patch from one text to another, which the API server applies. *)
Class AdmissionCodec := {
  patch : Type;
  Decode : string -> result Pod;
  Marshal : Pod -> result string;
  CreatePatch : string -> string -> result patch;
  apply_patch : patch -> string -> option string
}.

(** The laws: what was marshalled decodes to the same pod, and a patch turns the first text
    into one that reads like the second. *)
Class AdmissionLaws `{AdmissionCodec} := {
  Decode_Marshal : forall p t, Marshal p = Ok t -> Decode t = Ok p;
  patch_applies : forall a b p, CreatePatch a b = Ok p -> exists c, apply_patch p a = Some c /\ Decode c = Decode b
}.

Section Handler.

Context `{WebhookEnv} `{AdmissionCodec}.

Inductive Response := Errored (code : Z) (e : GoError) | Patched (p : patch).

(** [admission.PatchResponseFromRaw] *)
Definition PatchResponseFromRaw (original current : string) : Response :=
  match CreatePatch original current with Err e => Errored 500 e | Ok p => Patched p end.

(** The error of [mutatePod] is dropped; it is always nil. *)
Definition Handle (raw : string) : outcome Response :=
  match Decode raw with
  | Err e => Return (Errored 400 e)
  | Ok pod =>
      match mutatePod pod with
      | Panic => Panic
      | Return mutatedPod =>
          Return match Marshal mutatedPod with
                 | Err e => Errored 500 e
                 | Ok marshaledPod => PatchResponseFromRaw raw marshaledPod
                 end
      end
  end.

(** What the API server stores after the handler has admitted an object. *)
Definition admission_of (raw : string) : option string :=
  match Handle raw with Return (Patched p) => apply_patch p raw | _ => None end.

Context `{!AdmissionLaws}.

(** What is stored is the mutated pod. *)
Lemma admission_of_spec raw stored : admission_of raw = Some stored ->
  exists pod pod', Decode raw = Ok pod /\ mutatePod pod = Return pod' /\ Decode stored = Ok pod'.
Proof.
  unfold admission_of, Handle. destruct (Decode raw) as [pod|] eqn:Ed; [|done]. destruct (mutatePod pod) as [pod'|] eqn:Em; [|done].
  destruct (Marshal pod') as [t|] eqn:Et; [|done]. unfold PatchResponseFromRaw.
  destruct (CreatePatch raw t) as [p|] eqn:Ec; [|done]. destruct (patch_applies _ _ _ Ec) as (c & Ha & Hc). rewrite Ha. intros [= <-].
  exists pod, pod'. rewrite Hc. split; [done|]. split; [done|]. by apply Decode_Marshal.
Qed.

(** The handler answers every object: with 400 exactly when it is no pod, with 500 when the
    mutated pod cannot be written; it panics only for a pod without containers. *)
Theorem Handle_total raw :
  match Handle raw with
  | Panic => exists pod, Decode raw = Ok pod /\ Containers pod = []
  | Return (Errored code _) => (code = 400 /\ ~ is_ok (Decode raw) = true) \/ code = 500
  | Return (Patched p) => exists stored pod pod', apply_patch p raw = Some stored /\ Decode raw = Ok pod /\
      mutatePod pod = Return pod' /\ Decode stored = Ok pod'
  end.
Proof.
  destruct (Handle raw) as [[code e|p]|] eqn:E.
  - unfold Handle in E. destruct (Decode raw) as [pod|]; [|left; by injection E as <- _].
    destruct (mutatePod pod) as [pod'|]; [|done]. destruct (Marshal pod'); [|right; by injection E as <- _].
    unfold PatchResponseFromRaw in E. destruct (CreatePatch _ _); [done|]. right. by injection E as <- _.
  - assert (exists stored, apply_patch p raw = Some stored) as [stored Hs].
    { unfold Handle in E. destruct (Decode raw) as [pod|]; [|done]. destruct (mutatePod pod) as [pod'|]; [|done].
      destruct (Marshal pod') as [t|]; [|done]. unfold PatchResponseFromRaw in E. destruct (CreatePatch raw t) as [p'|] eqn:Ec; [|done].
      injection E as <-. destruct (patch_applies _ _ _ Ec) as (c & Ha & _). by exists c. }
    destruct (admission_of_spec raw stored) as (pod & pod' & ? & ? & ?); [unfold admission_of; by rewrite E|]. by exists stored, pod, pod'.
  - unfold Handle in E. destruct (Decode raw) as [pod|]; [|done]. exists pod. split; [done|].
    destruct (mutatePod pod) eqn:Em; [done|]. unfold mutatePod in Em. destruct (RuntimeClassName pod); [|done].
    destruct (String.eqb _ _); [|done]. unfold adjustResourceSpec in Em. by destruct (Containers pod).
Qed.

(** C24: From admission to the VM: when TARGET_RUNTIMECLASS is not set, a pod of the default
    runtime class whose containers request more than no CPU is stored with annotations
    from which the adaptor reads a number of virtual CPUs that covers both the requests and
    the limits of its containers by less than one CPU too many, and asks the node for
    nothing but one pod VM.  (A pod that only has limits gets no annotation.) *)
Theorem admitted_pod_gets_its_cpus `{AnnotationKeys} raw stored pod :
  DefaultVCPUs = PEERPODS_CPU_ANNOTATION -> wh_getenv "TARGET_RUNTIMECLASS" = ""%string ->
  admission_of raw = Some stored -> Decode raw = Ok pod -> RuntimeClassName pod = Some RUNTIME_CLASS_NAME_DEFAULT ->
  let wanted := Z.max (GetResourceRequestQuantity pod ResourceCPU) (GetResourceLimitQuantity pod ResourceCPU) in
  0 < GetResourceRequestQuantity pod ResourceCPU -> wanted <= max_int64 * nano ->
  exists pod' first others, Decode stored = Ok pod' /\
    wanted <= fst (fst (GetPodvmResourcesFromAnnotation (default ∅ (Annotations pod')))) * nano < wanted + nano /\
    Containers pod' = first :: others /\ c_Resources first = mkResources {[extended_resource := nano]} {[extended_resource := nano]} /\
    Forall (fun c => c_Resources c = no_resources) (others ++ InitContainers pod').
Proof.
  intros Hk He Ha Hd Hrc wanted Hreq Hmax. destruct (admission_of_spec _ _ Ha) as (pod0 & pod' & Hd0 & Hm & Hs).
  rewrite Hd in Hd0. injection Hd0 as <-. unfold mutatePod in Hm. rewrite Hrc, He in Hm. cbn in Hm.
  pose proof (cpu_annotation_covers_request pod pod' Hk Hm Hreq Hmax) as Hc. unfold adjustResourceSpec in Hm.
  destruct (Containers pod) as [|c cs] eqn:Ec; [done|]. cbn in Hm. injection Hm as <-.
  eexists _, _, _. split; [exact Hs|]. split; [exact Hc|]. split; [reflexivity|]. split; [done|].
  cbn. apply Forall_app. split; apply Forall_fmap, Forall_forall; by intros.
Qed.

End Handler.

(** ** The manager programs *)

Record ManagerOptions := mkManagerOptions {
  mo_metrics : string;
  mo_port : Z;
  mo_probe : string;
  mo_leader : bool;
  mo_leaderID : string;
  mo_uncached : list string
}.

(** What is asked of controller-runtime. *)
Inductive manager_call :=
| MNew (o : ManagerOptions)
| MRegister (path : string)
| MController (name : string)
| MCheck (name : string)
| MStart.

(** The answer of each call, by what was asked before; [GetConfigOrDie] can end the process. *)
Class ManagerEnv := {
  has_config : bool;
  manager_answer : list manager_call -> manager_call -> option GoError
}.

Section Managers_.

Context `{FlagNumbers} `{ManagerEnv} (zap_flags : list flag).

Definition manager_flags : list flag :=
  [str "metrics-bind-address" "metricsAddr" ":8080"; str "health-probe-bind-address" "probeAddr" ":8081"; boolean "leader-elect" "enableLeaderElection"].

Definition manager_str (c : gmap string fval) (v : string) : string := match c !! v with Some (VStr s) => s | _ => EmptyString end.
Definition manager_bool (c : gmap string fval) (v : string) : bool := match c !! v with Some (VBool b) => b | _ => false end.

(** The calls in order; the first error ends the process with 1. *)
Fixpoint manager_calls (done : list manager_call) (todo : list manager_call) : Z * list manager_call :=
  match todo with
  | [] => (0, done)
  | call :: rest =>
      match manager_answer done call with
      | Some _ => (1, done ++ [call])
      | None => manager_calls (done ++ [call]) rest
      end
  end.

(** [flag.Parse], [GetConfigOrDie], and then the calls; the exit code and the calls made. *)
Definition manager_program (calls : gmap string fval -> list manager_call) (args : list string) : outcome (Z * list manager_call) :=
  match declare [] (manager_flags ++ zap_flags) ∅ with
  | Panic => Panic
  | Return c =>
      Return match flagset_Parse (manager_flags ++ zap_flags) args c with
             | Err e => (if errors_Is "flag: help requested" e then 0 else 2, [])
             | Ok (c, _) => if has_config then manager_calls [] (calls c) else (1, [])
             end
  end.

Definition webhook_main : list string -> outcome (Z * list manager_call) :=
  manager_program (fun c =>
    [MNew (mkManagerOptions (manager_str c "metricsAddr") 9443 (manager_str c "probeAddr") (manager_bool c "enableLeaderElection")
             "a3663802.confidential-containers" []);
     MRegister "/mutate-v1-pod"; MCheck "healthz"; MCheck "readyz"; MStart]).

Definition peerpod_ctrl_main : list string -> outcome (Z * list manager_call) :=
  manager_program (fun c =>
    [MNew (mkManagerOptions (manager_str c "metricsAddr") 9443 (manager_str c "probeAddr") (manager_bool c "enableLeaderElection")
             "33f6c5d6.confidentialcontainers.org" ["Secret"; "ConfigMap"]);
     MController "PeerPod"; MCheck "healthz"; MCheck "readyz"; MStart]).

(** The calls made are a prefix of those to be made, all but the last without an error. *)
Lemma manager_calls_spec done todo code made : manager_calls done todo = (code, made) ->
  exists n, made = done ++ take n todo /\ (code = 0 -> made = done ++ todo).
Proof.
  revert done. induction todo as [|call todo IH]; intros done; cbn [manager_calls].
  - intros [= <- <-]. exists 0%nat. cbn. by rewrite !app_nil_r.
  - destruct (manager_answer done call) as [e|] eqn:E.
    + intros [= <- <-]. exists 1%nat. split; [done|discriminate].
    + intros Hm. destruct (IH _ Hm) as (n & -> & Hc). exists (S n). cbn [take]. rewrite <- app_assoc. split; [done|].
      intros Hz. specialize (Hc Hz). rewrite <- !app_assoc in Hc. exact Hc.
Qed.

End Managers_.

(** ** Witnesses *)

#[export] Instance resources_eq_dec : EqDecision Resources.
Proof. solve_decision. Defined.

#[export] Instance container_eq_dec : EqDecision Container.
Proof. solve_decision. Defined.

#[export] Instance pod_eq_dec : EqDecision Pod.
Proof. solve_decision. Defined.

#[export] Instance resources_countable : Countable Resources.
Proof. by refine (inj_countable' (fun r => (Requests r, Limits r)) (fun p => mkResources p.1 p.2) _); intros []. Defined.

#[export] Instance container_countable : Countable Container.
Proof. by refine (inj_countable' (fun c => (c_Resources c, c_rest c)) (fun p => mkContainer p.1 p.2) _); intros []. Defined.

#[export] Instance pod_countable : Countable Pod.
Proof.
  by refine (inj_countable' (fun p => (Annotations p, RuntimeClassName p, Containers p, InitContainers p, p_rest p))
    (fun x => let '(a, b, c, d, e) := x in mkPodSpec a b c d e) _); intros [].
Defined.

(** A pod as the text of its number; a patch is the new text. *)
#[export] Instance text_admission : AdmissionCodec := {
  patch := string;
  Decode t := match of_text t with Some p => Ok p | None => Err (Errorf "decode" []) end;
  Marshal p := Ok (to_text p);
  CreatePatch _ b := Ok b;
  apply_patch p _ := Some p
}.

#[export, refine] Instance text_admission_laws : AdmissionLaws := {}.
Proof.
  - intros p t [= <-]. cbn. by rewrite of_to_text.
  - intros a b p [= <-]. by exists b.
Defined.

Definition pod_text : string := Eval vm_compute in to_text pod1.

Lemma pod_text_decodes : Decode pod_text = Ok pod1.
Proof. change pod_text with (to_text pod1). cbn. by rewrite of_to_text. Qed.

#[local] Instance admission_keys : AnnotationKeys := {
  SandboxName := "io.kubernetes.cri.sandbox-name";
  SandboxNamespace := "io.kubernetes.cri.sandbox-namespace";
  MachineType := "io.katacontainers.config.hypervisor.machine_type";
  ImagePath := "io.katacontainers.config.hypervisor.image";
  DefaultVCPUs := PEERPODS_CPU_ANNOTATION;
  DefaultMemory := PEERPODS_MEMORY_ANNOTATION;
  DefaultGPUs := PEERPODS_GPU_ANNOTATION
}.

(** 2.6 CPUs requested, 3.2 as a limit. *)
Lemma admitted_pod_gets_its_cpus_witness :
  exists pod' first others, Decode (to_text pod2) = Ok pod' /\
    3200 * 10 ^ 6 <= fst (fst (GetPodvmResourcesFromAnnotation (default ∅ (Annotations pod')))) * nano < 3200 * 10 ^ 6 + nano /\
    Containers pod' = first :: others /\ c_Resources first = mkResources {[extended_resource := nano]} {[extended_resource := nano]} /\
    Forall (fun c => c_Resources c = no_resources) (others ++ InitContainers pod').
Proof.
  apply (admitted_pod_gets_its_cpus pod_text (to_text pod2) pod1).
  - reflexivity.
  - reflexivity.
  - unfold admission_of, Handle. rewrite pod_text_decodes.
    assert (mutatePod pod1 = Return pod2) as -> by (vm_compute; reflexivity). reflexivity.
  - exact pod_text_decodes.
  - reflexivity.
  - vm_compute. reflexivity.
  - vm_compute. discriminate.
Defined.
