(* ===== verification/Clients.v ===== *)
(** * Construction of clients

    Models how the programs get at Kubernetes and at the clouds: the configuration that
    pkg/securecomms/kubemgr/kubemgr.go finds, [NewPeerPodService] of pkg/adaptor/k8sops, the
    labels of a node (cloud-providers/util/k8snode.go), and the credentials with which the
    providers of AWS, Azure, GCP, Alibaba Cloud and Power VS make their clients.  The SDKs and
    client-go are parameters: what is modelled is which of their constructors is called and
    with what. *)

From Stdlib Require Import ZArith Ascii String Lia.
From stdpp Require Import base gmap strings list fin_maps.
From S2P Require Import Prelude Flags Managers.

Open Scope Z_scope.

(** ** kubemgr.go *)

(** A client configuration: verification of the server, and the rest. *)
Record KubeConfig := mkKubeConfig { kc_Insecure : bool; kc_CAData : option string; kc_rest : string }.

Class KubeLibrary := {
  kube_client : Type;
  InClusterConfig : result KubeConfig;
  BuildConfigFromFlags : string -> result KubeConfig;
  kube_NewForConfig : KubeConfig -> result kube_client;
  fake_client : kube_client;
  HomeDir : string;
  kube_getenv : string -> string
}.

(** [KubeMgr], a global: the client is nil until one was made. *)
Record KubeMgrStruct `{KubeLibrary} := mkKubeMgr { km_Client : option kube_client; km_CocoNamespace : string }.
Arguments mkKubeMgr {_}.

Section KubeMgr.

Context `{KubeLibrary} `{FlagNumbers} (cocoNamespace : string).

(** [filepath.SplitList]: the empty list has no element. *)
Definition SplitList (p : string) : list string := if String.eqb p "" then [] else split_on ":" p.

Fixpoint first_config (paths : list string) : option KubeConfig :=
  match paths with
  | [] => None
  | p :: rest => match BuildConfigFromFlags p with Ok c => Some c | Err _ => first_config rest end
  end.

(** The default of the flag; its variable is read when the flag is declared. *)
Definition kubeconfig_default : string :=
  if String.eqb HomeDir "" then EmptyString else filepath_Join [HomeDir; ".kube"; "config"].

(** [declared] are the flags that the program has declared before, [args] its command line.
    Declaring the flag a second time panics; an error of the command line ends the
    process. *)
Definition getKubeConfigInVitro (declared : list flag) (args : list string) : outcome (command (result KubeConfig)) :=
  match InClusterConfig with
  | Ok c => Return (Continue (Ok c))
  | Err _ =>
      match first_config (SplitList (kube_getenv "KUBECONFIG")) with
      | Some c => Return (Continue (Ok c))
      | None =>
          if bool_decide ("kubeconfig" ∈ (fl_name <$> declared)) then Panic
          else
            let flagFilePath := kubeconfig_default in
            let fs := declared ++ [str "kubeconfig" "kubeconfig" kubeconfig_default] in
            Return match flagset_Parse fs args {["kubeconfig" := VStr kubeconfig_default]} with
                   | Err e => Exits (if errors_Is "flag: help requested" e then 0 else 2)
                   | Ok _ =>
                       Continue match BuildConfigFromFlags flagFilePath with
                                | Ok c => Ok c
                                | Err _ => Err (Errorf "no Config found to access KubeApi! Use KUBECONFIG or ~/.kube/config" [])
                                end
                   end
      end
  end.

Definition skip_verify (skip : bool) (c : KubeConfig) : KubeConfig := if skip then mkKubeConfig true None (kc_rest c) else c.

(** The global is replaced first: a failure leaves it without a client. *)
Definition InitKubeMgrInVitro (skip : bool) (declared : list flag) (args : list string) : outcome (command (option GoError * KubeMgrStruct)) :=
  match getKubeConfigInVitro declared args with
  | Panic => Panic
  | Return (Exits code) => Return (Exits code)
  | Return (Continue (Err e)) => Return (Continue (Some e, mkKubeMgr None cocoNamespace))
  | Return (Continue (Ok c)) =>
      Return (Continue match kube_NewForConfig (skip_verify skip c) with
                       | Err e => (Some (Errorf "failed to configure KubeApi using config: %w" [e]), mkKubeMgr None cocoNamespace)
                       | Ok client => (None, mkKubeMgr (Some client) cocoNamespace)
                       end)
  end.

Definition InitKubeMgrInVivo : option GoError * KubeMgrStruct :=
  match InClusterConfig with
  | Err e => (Some (Errorf "no config found to access KubeApi! err: %w" [e]), mkKubeMgr None cocoNamespace)
  | Ok c =>
      match kube_NewForConfig c with
      | Err e => (Some (Errorf "failed to configure KubeApi using config: %w" [e]), mkKubeMgr None cocoNamespace)
      | Ok client => (None, mkKubeMgr (Some client) cocoNamespace)
      end
  end.

Definition InitKubeMgrMock : KubeMgrStruct := mkKubeMgr (Some fake_client) cocoNamespace.

(** Where the configuration is taken from: in a cluster that of the cluster, else the first
    file of KUBECONFIG that loads, else the file in the home directory. *)
Lemma getKubeConfigInVitro_source declared args c : getKubeConfigInVitro declared args = Return (Continue (Ok c)) ->
  InClusterConfig = Ok c \/
  (is_ok InClusterConfig = false /\ exists before p after, SplitList (kube_getenv "KUBECONFIG") = before ++ p :: after /\
     Forall (fun q => is_ok (BuildConfigFromFlags q) = false) before /\ BuildConfigFromFlags p = Ok c) \/
  (is_ok InClusterConfig = false /\ Forall (fun q => is_ok (BuildConfigFromFlags q) = false) (SplitList (kube_getenv "KUBECONFIG")) /\
     BuildConfigFromFlags kubeconfig_default = Ok c).
Proof.
  unfold getKubeConfigInVitro. destruct InClusterConfig as [c0|]; [intros [= ->]; by left|]. intros E. right.
  assert (Hf : forall l, match first_config l with
    | Some c => exists before p after, l = before ++ p :: after /\ Forall (fun q => is_ok (BuildConfigFromFlags q) = false) before /\ BuildConfigFromFlags p = Ok c
    | None => Forall (fun q => is_ok (BuildConfigFromFlags q) = false) l end).
  { induction l as [|p l IH]; cbn [first_config]; [apply Forall_nil; done|]. destruct (BuildConfigFromFlags p) as [c1|] eqn:Ep.
    - exists [], p, l. split; [done|]. split; [apply Forall_nil; done|done].
    - destruct (first_config l) as [c1|].
      + destruct IH as (before & q & after & -> & Hb & Hq). exists (p :: before), q, after. split; [done|]. split; [|done].
        apply Forall_cons. split; [by rewrite Ep|done].
      + apply Forall_cons. split; [by rewrite Ep|done]. }
  specialize (Hf (SplitList (kube_getenv "KUBECONFIG"))). destruct (first_config _) as [c1|].
  - injection E as ->. left. by split.
  - destruct (bool_decide _); [done|]. destruct (flagset_Parse _ _ _) as [x|]; [|done].
    destruct (BuildConfigFromFlags kubeconfig_default) as [c1|]; [|done]. injection E as ->. by right.
Qed.

(** The flag of the configuration has no effect: its variable is read before the command line
    is parsed, so two command lines that both parse give the same configuration. *)
Theorem kubeconfig_flag_ignored declared args1 args2 r1 r2 :
  getKubeConfigInVitro declared args1 = Return (Continue r1) -> getKubeConfigInVitro declared args2 = Return (Continue r2) -> r1 = r2.
Proof.
  unfold getKubeConfigInVitro. destruct InClusterConfig as [c0|]; [congruence|]. destruct (first_config _) as [c1|]; [congruence|].
  destruct (bool_decide _); [done|]. destruct (flagset_Parse _ args1 _) as [x|]; [|done]. destruct (flagset_Parse _ args2 _) as [y|]; [|done]. congruence.
Qed.

End KubeMgr.

(** ** k8sops and util: clients in the cluster *)

Section InCluster.

Context `{KubeLibrary}.

(** node.go *)
Definition getKubeConfig : result KubeConfig := match InClusterConfig with Err e => Err e | Ok c => Ok c end.
Definition getClient (c : KubeConfig) : result kube_client := match kube_NewForConfig c with Err e => Err e | Ok client => Ok client end.

(** A REST client for a group and version at a path. *)
Record RestSettings := mkRestSettings { rs_config : KubeConfig; rs_Group : string; rs_Version : string; rs_APIPath : string }.

Record PeerPodService := mkPeerPodService {
  ps_client : kube_client;
  ps_uclient : RestSettings;
  ps_cloudProvider : string;
  ps_podToPP : gmap string string
}.

(** [UnversionedRESTClientFor] *)
Context (rest_client_for : RestSettings -> option GoError).

Definition NewPeerPodService : result PeerPodService :=
  let cloudProvider := kube_getenv "CLOUD_PROVIDER" in
  if String.eqb cloudProvider "" then Err (Sentinel "NewPeerPodService: failed to get cloudProvider")
  else
    match getKubeConfig with
    | Err e => Err (Errorf "NewPeerPodService: failed to get config: %w" [e])
    | Ok config =>
        match getClient config with
        | Err e => Err (Errorf "NewPeerPodService: failed to create clientset: %w" [e])
        | Ok clientset =>
            let settings := mkRestSettings config "confidentialcontainers.org" "v1alpha1" "/apis" in
            match rest_client_for settings with
            | Some _ => Err (Errorf "NewPeerPodService: failed to create UnversionedRESTClient: %s" [])
            | None => Ok (mkPeerPodService clientset settings cloudProvider ∅)
            end
        end
    end.

(** cloud.go, [NewService]: without the service PeerPods are not owned, and the adaptor runs. *)
Definition service_ppService : option PeerPodService :=
  match NewPeerPodService with Ok s => Some s | Err _ => None end.

(** PeerPods are owned exactly when the provider is named and the cluster's API is reachable. *)
Lemma service_ppService_spec s : service_ppService = Some s ->
  ps_cloudProvider s = kube_getenv "CLOUD_PROVIDER" /\ ps_cloudProvider s <> ""%string /\ ps_podToPP s = ∅ /\
  exists c, InClusterConfig = Ok c /\ kube_NewForConfig c = Ok (ps_client s) /\ rs_config (ps_uclient s) = c.
Proof.
  unfold service_ppService, NewPeerPodService, getKubeConfig, getClient. destruct (String.eqb _ "") eqn:E; [done|]. bool_to_prop.
  destruct InClusterConfig as [c|]; [|done]. destruct (kube_NewForConfig c) as [client|] eqn:Ec; [|done].
  destruct (rest_client_for _); [done|]. intros [= <-]. cbn. split; [done|]. split; [done|]. split; [done|]. by exists c.
Qed.

(** k8snode.go: [node] reads the labels of a node. *)
Definition NodeLabels (node : kube_client -> string -> result (gmap string string)) (name : string) : result (gmap string string) :=
  match InClusterConfig with
  | Err e => Err (Errorf "failed to get k8s rest config: %w" [e])
  | Ok c =>
      match kube_NewForConfig c with
      | Err e => Err (Errorf "failed to create k8s clientset: %w" [e])
      | Ok client => node client name
      end
  end.

End InCluster.

(** ** Credentials of the clouds *)

(** What a client of a cloud is made with. *)
Inductive credential :=
| StaticKeys (id secret token : string)
| SharedProfile (profile : string)
| WorkloadIdentity
| ClientSecret (tenant client secret : string)
| JsonCredentials (json scope : string)
| ApplicationDefault
| AccessKeys (id secret : string)
| CredentialChain.

(** [sdk_client] makes a client for a credential and a region; [sdk_check] is a call that a
    constructor makes to see whether a credential works. *)
Class CloudSdk := {
  sdk_client : string -> credential -> string -> option GoError;
  sdk_check : string -> credential -> option GoError
}.

Definition check {A} (e : option GoError) (wrap : GoError -> GoError) (k : result A) : result A :=
  match e with Some err => Err (wrap err) | None => k end.

Definition unwrapped (e : GoError) : GoError := e.

Section Credentials.

Context `{CloudSdk}.

(** aws/ec2.go *)
Definition NewEC2Client (accessKeyId secretKey sessionToken region loginProfile : string) : result credential :=
  if (nonempty accessKeyId && nonempty secretKey)%bool then
    let c := StaticKeys accessKeyId secretKey sessionToken in
    check (sdk_client "ec2" c region) (fun _ => Errorf "configuration error when using creds: %s" []) (Ok c)
  else
    let c := SharedProfile loginProfile in
    check (sdk_client "ec2" c region) (fun _ => Errorf "configuration error when using shared profile: %s" []) (Ok c).

(** azure/client.go *)
Definition NewAzureClient (tenantId clientId clientSecret : string) : result credential :=
  let c := if String.eqb clientSecret "" then WorkloadIdentity else ClientSecret tenantId clientId clientSecret in
  check (sdk_client "azidentity" c "") unwrapped (Ok c).

(** azure/provider.go, [NewProvider] up to the list of sizes: the path of the key is cleaned. *)
Definition azure_NewProvider_client (tenantId clientId clientSecret sshKeyPath : string) : result (credential * string) :=
  let path := if nonempty sshKeyPath then path_Clean sshKeyPath else sshKeyPath in
  match NewAzureClient tenantId clientId clientSecret with Err e => Err e | Ok c => Ok (c, path) end.

(** gcp/provider.go *)
Definition computeScope : string := "https://www.googleapis.com/auth/compute".

Definition gcp_NewProvider (gcpCredentials : string) : result credential :=
  if nonempty gcpCredentials then
    let c := JsonCredentials gcpCredentials computeScope in
    check (sdk_check "google" c) (fun _ => Errorf "configuration error when using creds: %s" [])
      (check (sdk_client "instances" c "") (fun _ => Errorf "NewInstancesRESTClient with credentials error: %s" []) (Ok c))
  else check (sdk_client "instances" ApplicationDefault "") (fun _ => Errorf "NewInstancesRESTClient error: %s" []) (Ok ApplicationDefault).

(** alibabacloud/provider.go: both clients are made with one credential. *)
Definition ali_NewProvider_clients (accessKeyId secretKey region : string) : result credential :=
  let clients c :=
    check (sdk_client "ecs" c region) (fun _ => Errorf "create alibaba cloud ecs client error: %v" [])
      (check (sdk_client "vpc" c region) (fun _ => Errorf "create alibaba cloud vpc client error: %v" []) (Ok c)) in
  if (String.eqb accessKeyId "" || String.eqb secretKey "")%bool then
    check (sdk_client "credentials" CredentialChain "") (fun _ => Errorf "failed to pass authentication of alibaba cloud: %v" [])
      (check (sdk_check "credentials" CredentialChain) (fun _ => Errorf "failed to get credential of alibaba cloud: %v" []) (clients CredentialChain))
  else clients (AccessKeys accessKeyId secretKey).

(** A key without its secret is not used, and nothing tells so: the ambient credentials of
    the machine are. *)
Lemma half_keys_ignored id region profile c :
  (NewEC2Client id "" "" region profile = Ok c -> c = SharedProfile profile) /\
  (ali_NewProvider_clients id "" region = Ok c -> c = CredentialChain).
Proof.
  unfold NewEC2Client, ali_NewProvider_clients, check. rewrite andb_false_r, orb_true_r.
  split; intros E; repeat case_match; by simplify_eq.
Qed.

End Credentials.

(** ** ibmcloud-powervs/powervs.go *)

(** The clients of IBM: an identity client for a key, the account of a key (a pointer), and a
    session for an account in a zone. *)
Class PowerVsSdk := {
  identity_client : Type;
  pi_session : Type;
  NewIamIdentityV1 : string -> result identity_client;
  GetAPIKeysDetails : identity_client -> string -> result (option string);
  NewIBMPISession : string -> string -> string -> result pi_session
}.

Section PowerVsClient.

Context `{PowerVsSdk}.

Definition newIdentityClient (apikey : string) : result identity_client :=
  match NewIamIdentityV1 apikey with Err e => Err e | Ok c => Ok c end.

Definition getAccount (key : string) (c : identity_client) : result (option string) :=
  match GetAPIKeysDetails c key with Err e => Err e | Ok account => Ok account end.

Record powervsService := mkPowervsService { pv_session : pi_session; pv_serviceInstanceID : string }.

(** The account is dereferenced. *)
Definition newPowervsClient (apikey serviceinstanceID zone : string) : outcome (result powervsService) :=
  match newIdentityClient apikey with
  | Err e => Return (Err e)
  | Ok ic =>
      match getAccount apikey ic with
      | Err e => Return (Err e)
      | Ok None => Panic
      | Ok (Some account) =>
          Return match NewIBMPISession apikey account zone with
                 | Err e => Err e
                 | Ok session => Ok (mkPowervsService session serviceinstanceID)
                 end
      end
  end.

(** ibmcloud-powervs/provider.go *)
Definition powervs_NewProvider (apikey serviceinstanceID zone : string) : outcome (result powervsService) :=
  match newPowervsClient apikey serviceinstanceID zone with
  | Panic => Panic
  | Return (Err e) => Return (Err e)
  | Return (Ok s) => Return (Ok s)
  end.

(** The session of a provider is of the account that the key belongs to; a key whose details
    name no account makes the constructor panic. *)
Lemma newPowervsClient_account apikey id zone :
  match newPowervsClient apikey id zone with
  | Panic => exists ic, NewIamIdentityV1 apikey = Ok ic /\ GetAPIKeysDetails ic apikey = Ok None
  | Return (Err _) => True
  | Return (Ok s) => pv_serviceInstanceID s = id /\ exists ic account, NewIamIdentityV1 apikey = Ok ic /\
      GetAPIKeysDetails ic apikey = Ok (Some account) /\ NewIBMPISession apikey account zone = Ok (pv_session s)
  end.
Proof.
  unfold newPowervsClient, newIdentityClient, getAccount. destruct (NewIamIdentityV1 apikey) as [ic|] eqn:E1; [|done].
  destruct (GetAPIKeysDetails ic apikey) as [[account|]|] eqn:E2; [|by exists ic|done].
  destruct (NewIBMPISession apikey account zone) as [s|] eqn:E3; [|done]. cbn. split; [done|]. by exists ic, account.
Qed.

End PowerVsClient.
