(* ===== verification/Programs.v ===== *)
(** * The daemons of the adaptor and the commands of the pod VM, as processes

    Models the main functions of src/cloud-api-adaptor/cmd/cloud-api-adaptor,
    cmd/agent-protocol-forwarder and cmd/process-user-data, [NewStarter] and [List] of
    cmd/starter.go, the start of the probe (pkg/probe) and of the SSH service of the pod VM
    (pkg/securecomms/ppssh).  A daemon is the Setup of Commands followed by a run of the
    starter of Starter, and ends with a status. *)

From Stdlib Require Import ZArith Ascii String Lia.
From stdpp Require Import base gmap strings list.
From S2P Require Import Prelude NetAddr ProviderTable Initdata Userdata UserdataProps NodeOps AdaptorServer Flags Managers Commands SshUtil SshProxy SecureComms Clients.
From S2P Require Import Starter.

Open Scope go_scope.

(** ** Daemons *)

(** [NewStarter] makes one channel of errors per service; [List] gives the services back. *)
Definition NewStarter {A} (services : list A) : list (A * phase) := map (fun service => (service, Running)) services.

Definition starter_List {A} (s : list (A * phase)) : list A := map fst s.

Lemma starter_List_New {A} (services : list A) : starter_List (NewStarter services) = services.
Proof. unfold starter_List, NewStarter. rewrite map_map. cbn. apply map_id. Qed.

Inductive process :=
| ProcessRuns (s : starter)
| ProcessExits (code : Z)
| ProcessPanics.

(** What the process is after the starter has made the steps of a schedule; [None] when
    the schedule is not possible. *)
Definition process_of (s : starter) : process :=
  match main s with
  | Returned None => ProcessExits 0
  | Returned (Some _) => ProcessExits 1
  | Exited code => ProcessExits code
  | _ => ProcessRuns s
  end.

Section Daemons.

Context {A : Type} (services_of : A -> nat).

(** The context is a background context: it ends only by the starter itself. *)
Definition background (e : event) : Prop := match e with ParentDone _ => False | _ => True end.

Definition daemon_main (setup : outcome (command (result A))) (notify_socket : bool) (es : list event) : option process :=
  match setup with
  | Panic => Some ProcessPanics
  | Return (Exits code) => Some (ProcessExits code)
  | Return (Continue (Err _)) => Some (ProcessExits 1)
  | Return (Continue (Ok a)) => process_of <$> run_events es (Start (services_of a) notify_socket)
  end.

End Daemons.

(** The adaptor has one service; the probe is started beside it. *)
Definition adaptor_main : outcome (command (result adaptor)) -> bool -> list event -> option process := daemon_main (fun _ => 1%nat).

(** The SSH server, if any, comes before the daemon. *)
Definition forwarder_main : outcome (command (result forwarder)) -> bool -> list event -> option process :=
  daemon_main (fun f => match fw_ssh f with Some _ => 2%nat | None => 1%nat end).

(** The configuration file of the forwarder. *)
Definition load (os_Open : string -> result string) (decode : string -> result forwarder_file) (path : string) : result forwarder_file :=
  match os_Open path with
  | Err e => Err (Errorf "failed to open %s: %w" [e])
  | Ok file =>
      match decode file with
      | Err e => Err (Errorf "failed to decode a Agent Protocol Forwarder config file file: %s: %w" [e])
      | Ok obj => Ok obj
      end
  end.

(** *** Why a daemon stops *)

(** Without a parent that ends, the context ends by a signal or by a service that failed;
    a second signal ends the process. *)
Record stop_inv (s : starter) : Prop := mkStopInv {
  stop_reason : ctx s <> None -> (0 < signals s)%nat \/ exists k p, services s !! k = Some p /\ told p;
  stop_signals : (match main s with Exited _ => signals s = 2 | _ => signals s <= 1 end)%nat;
  stop_code : forall code, main s = Exited code -> code = 1%Z;
  stop_ctx : ctx s <> Some DeadlineExceeded
}.

Lemma stop_init n socket : stop_inv (Start n socket).
Proof. by constructor; cbn; [|lia|..]. Qed.

(** A change of one service that keeps what it was told. *)
Lemma told_insert (l : list (phase * bool)) (i : nat) q p : l !! i = Some q -> (told q -> told p) ->
  (exists k x, l !! k = Some x /\ told x) -> exists k x, <[i := p]> l !! k = Some x /\ told x.
Proof.
  intros Hi Hp (k & x & Hk & Hx). destruct (decide (i = k)) as [->|Hn].
  - exists k, p. rewrite list_lookup_insert_eq by (by eapply lookup_lt_Some). split; [done|]. apply Hp. congruence.
  - exists k, x. by rewrite list_lookup_insert_ne.
Qed.

Lemma stop_service s i q p c : stop_inv s -> services s !! i = Some q -> (told q -> told p) ->
  (forall code, main s <> Exited code) -> (c = ctx s \/ (told p /\ c = cancel (ctx s))) ->
  stop_inv (mkStarter (<[i := p]> (services s)) c (signals s) (main s) (notifier s) (sent s)).
Proof.
  intros [Hr Hs Hc Hd] Hi Hp Hm Hctx. constructor; cbn; [|done|done|].
  - intros Hne. destruct Hctx as [->|[Ht ->]].
    + destruct (Hr Hne) as [|Ht]; [by left|right]. by eapply told_insert.
    + right. exists i, p. by rewrite list_lookup_insert_eq by (by eapply lookup_lt_Some).
  - destruct Hctx as [->|[_ ->]]; [done|]. destruct (ctx s) as [[]|]; done.
Qed.

Lemma stop_main s s' : stop_inv s -> main_step s = Some s' -> stop_inv s'.
Proof.
  intros [Hr Hs Hc Hd]. unfold main_step. destruct (main s) as [|k|err|code] eqn:Em; try done.
  - destruct (ctx s) as [[]|] eqn:Ec; [|done..]. intros [= <-]. by constructor; cbn.
  - destruct (services s !! k) as [[[| |e|r] b]|] eqn:Ek; try done; intros [= <-]; constructor; cbn; try done.
    intros Hne. destruct (Hr Hne) as [|Ht]; [by left|right]. by eapply told_insert.
Qed.

Lemma stop_step e s s' : background e -> stop_inv s -> step e s = Some s' -> stop_inv s'.
Proof.
  intros He I Hs. assert (Hm : (forall code, main s <> Exited code) /\ step_event e s = Some s').
  { unfold step in Hs. destruct (main s); try done; by split. }
  clear Hs. destruct Hm as [Hm Hs]. destruct e as [k err|k|c| |k|b|]; cbn [step_event] in Hs.
  - destruct (services s !! k) as [[[] b]|] eqn:Ek; try done. injection Hs as <-.
    eapply stop_service; [done|exact Ek|done|done|by left].
  - destruct (services s !! k) as [[p b]|] eqn:Ek; [|done]. injection Hs as <-.
    eapply stop_service; [done|exact Ek|done|done|by left].
  - done.
  - destruct I as [Hr Hsg Hc Hd]. unfold signal_step in Hs. destruct (signals s) as [|[|n]] eqn:Es; injection Hs as <- || done; constructor; cbn.
    + intros _. left. lia.
    + by destruct (main s) as [| | |code]; [lia..|destruct (Hm code)].
    + done.
    + by destruct (ctx s) as [[]|].
    + intros _. left. lia.
    + done.
    + by intros code [= <-].
    + done.
  - destruct (services s !! k) as [[[|e| |] b]|] eqn:Ek; try done. injection Hs as <-.
    eapply stop_service; [done|exact Ek|done|done|by right].
  - destruct I as [Hr Hsg Hc Hd]. unfold notifier_step in Hs.
    destruct (notifier s); try done; repeat case_match; try done; injection Hs as <-; by constructor.
  - by eapply stop_main.
Qed.

Lemma stop_run es : forall s s', Forall background es -> stop_inv s -> run_events es s = Some s' -> stop_inv s'.
Proof.
  induction es as [|e es IH]; intros s s' Hb I; cbn; [by intros [= <-]|].
  destruct (step e s) as [s1|] eqn:E; [|done]. apply List.Forall_cons_iff in Hb as [He Hb]. intros Hr.
  eapply IH; [done| |done]. by eapply stop_step.
Qed.

Lemma below_length l Q : below (length l) Q l -> Forall Q l.
Proof. intros Hb. apply Forall_lookup. intros i p Hi. eapply Hb; [|done]. by eapply lookup_lt_Some. Qed.

(** The status of a daemon tells why it ended: after a Setup that succeeded it is 0 exactly
    when one signal asked for the end and all services ended without an error, and 1 when
    a second signal came or a service failed, the first one in their order; a daemon does
    not stop by itself without a failure. *)
Theorem daemon_exit_status {A} (services_of : A -> nat) setup socket es code :
  Forall background es -> daemon_main services_of setup socket es = Some (ProcessExits code) ->
  match setup with
  | Panic => False
  | Return (Exits c) => code = c
  | Return (Continue (Err _)) => code = 1%Z
  | Return (Continue (Ok a)) =>
      exists s, run_events es (Start (services_of a) socket) = Some s /\
        ((code = 0%Z /\ signals s = 1%nat /\ Forall ended_well (services s)) \/
         (code = 1%Z /\ (signals s = 2%nat \/
            exists k e b, services s !! k = Some (Closed (Some e), b) /\ below k ended_well (services s))))
  end.
Proof.
  intros Hb. unfold daemon_main. destruct setup as [[[a|e]|c]|]; try done; [|by intros [= <-]..].
  destruct (run_events es _) as [s|] eqn:Er; [|done]. intros [= Ep].
  pose proof (stop_run es _ _ Hb (stop_init _ _) Er) as [Hr Hs Hc Hd].
  pose proof (inv_run es _ _ (inv_init _ _) Er) as [Hm _ _ _].
  exists s. split; [done|]. unfold process_of, main_ok in *. destruct (main s) as [|k|[err|]|c] eqn:Em; try done; injection Ep as <-.
  - right. split; [done|]. destruct Hm as [(e & Hx & Hne & _)|(k & e & b & Hk & _ & Hbelow & _)].
    + destruct e; [done|]. congruence.
    + right. by exists k, e, b.
  - left. split; [done|]. destruct Hm as [Hx Hall]. apply below_length in Hall. split; [|done].
    destruct Hr as [|(k & p & Hk & Ht)]; [congruence|lia|].
    rewrite Forall_lookup in Hall. specialize (Hall _ _ Hk). unfold ended_well, told in *. by rewrite Hall in Ht.
  - right. split; [by apply Hc|]. by left.
Qed.

(** ** The start-up probe *)

Section ProbeServer.

Context {W : Type} `{KubeLibrary} `{ProbeEnv W}.

Definition CreateClientset : result kube_client :=
  match InClusterConfig with Err e => Err e | Ok config => kube_NewForConfig config end.

(** The package variables and the address that is served. *)
Record probe_server := mkProbeServer {
  pb_checker : Checker;
  pb_startTime : Z;
  podsReadizProbesDone : bool;
  pb_address : string
}.

(** Without a client there is no probe. *)
Definition probe_Start (socketPath : string) (now : Z) : option probe_server :=
  let port := probe_Getenv (W := W) "PROBE_PORT" in
  let port := if String.eqb port "" then "8000" else port in
  match CreateClientset with
  | Err _ => None
  | Ok _ => Some (mkProbeServer (mkChecker (GetRuntimeclassName (W := W)) socketPath) now false (":" +:+ port))
  end.

(** A request for /startup; [between] is what happens in the world before it. *)
Fixpoint probe_requests (between : list (W -> W)) (p : probe_server) : M W (list Z) :=
  match between with
  | [] => mret []
  | f :: rest => fun w =>
      let '((status, done), w') := StartupHandler (pb_checker p) (pb_startTime p) (podsReadizProbesDone p) (f w) in
      let '(l, w'') := probe_requests rest (mkProbeServer (pb_checker p) (pb_startTime p) done (pb_address p)) w' in
      (status :: l, w'')
  end.

(** The answer by the socket alone. *)
Definition by_socket (p : probe_server) (f : W -> W) (w : W) : Z * W :=
  let '(o, w') := IsSocketOpen (pb_checker p) (f w) in
  (if match snd o with Some _ => true | None => negb (fst o) end then StatusInternalServerError else StatusOK, w').

Fixpoint socket_answers (between : list (W -> W)) (p : probe_server) : M W (list Z) :=
  match between with
  | [] => mret []
  | f :: rest => fun w => let '(status, w') := by_socket p f w in let '(l, w'') := socket_answers rest p w' in (status :: l, w'')
  end.

Lemma probe_done between p w : podsReadizProbesDone p = true -> probe_requests between p w = socket_answers between p w.
Proof.
  revert w. induction between as [|f rest IH]; intros w Hd; [done|]. cbn. unfold by_socket, StartupHandler, mbind, mret. rewrite Hd.
  assert (E : mkProbeServer (pb_checker p) (pb_startTime p) true (pb_address p) = p) by (destruct p; cbn in Hd; by subst).
  destruct (IsSocketOpen _ (f w)) as [o w1]. destruct (match snd o with Some _ => true | None => _ end); by rewrite E, IH.
Qed.

(** Once a probe has succeeded the pods are not looked at any more: every later probe
    answers by the socket alone. *)
Theorem probe_sticks first f rest p w :
  last (probe_requests (first ++ [f]) p w).1 = Some StatusOK ->
  exists p', pb_checker p' = pb_checker p /\
    probe_requests (first ++ f :: rest) p w =
    let '(l, w1) := probe_requests (first ++ [f]) p w in let '(l', w2) := socket_answers rest p' w1 in (l ++ l', w2).
Proof.
  revert p w. induction first as [|g first IH]; intros p w; cbn.
  - pose proof (StartupHandler_spec (pb_checker p) (pb_startTime p) (podsReadizProbesDone p) (f w)) as Hs. cbv zeta in Hs.
    destruct (StartupHandler _ _ _ (f w)) as [[status done] w1]. destruct Hs as (_ & _ & Hd). cbn. intros [= ->].
    specialize (Hd eq_refl). subst done. set (p' := mkProbeServer (pb_checker p) (pb_startTime p) true (pb_address p)).
    exists p'. split; [done|]. by rewrite (probe_done rest p').
  - destruct (StartupHandler _ _ _ (g w)) as [[status done] w1].
    set (p1 := mkProbeServer (pb_checker p) (pb_startTime p) done (pb_address p)).
    specialize (IH p1 w1). destruct (probe_requests (first ++ [f]) p1 w1) as [l w2] eqn:El. cbn [fst]. intros Hl.
    assert (last l = Some StatusOK) as Hl'.
    { destruct l as [|x l]; [|done]. exfalso. clear -El. destruct first; cbn in El; repeat case_match; done. }
    destruct (IH Hl') as (p' & Hp & E). exists p'. split; [done|]. rewrite E. by destruct (socket_answers rest p' w2).
Qed.

End ProbeServer.

(** ** The SSH service of the pod VM *)

(** [Start] listens, tells that it is ready, leaves the phases to a goroutine ([pp_serve] of
    SecureComms) and returns: the error, and whether it is ready.  A port that is in use ends
    the process. *)
Definition pp_Start {W} (net_Listen : string -> string -> M W (option GoError)) (sshport : string) : M W (outcome (option GoError * bool)) :=
  let* e := net_Listen "tcp" ("0.0.0.0:" +:+ sshport) in
  mret match e with Some _ => Panic | None => Return (None, true) end.

(** ** process-user-data *)

Section UserData.

Context {W : Type} `{PodVMEnv W} `{InitdataEnv} `{GoMapOrder}.

Notation st := (podvm W).

(** What the command library makes of a command line: the root command with its flag and
    arguments, the provisioning of files with its time limit, or an error. *)
Inductive cobra_call :=
| CobraRoot (versionFlag : bool) (args : list string)
| CobraProvisionFiles (fetchTimeout : Z)
| CobraError (e : GoError).

(** The root command only prints. *)
Inductive root_output := ShowsVersion | ShowsHelp | ShowsNothing.

Definition root_Run (versionFlag : bool) (args : list string) : root_output :=
  if versionFlag then ShowsVersion else if bool_decide (args = []) then ShowsHelp else ShowsNothing.

(** The default of [-user-data-fetch-timeout], in seconds. *)
Definition default_fetchTimeout : Z := 180.

Definition provision_files_RunE (fetchTimeout : Z) : M st (option GoError) := ProvisionFiles (NewConfig fetchTimeout).

(** [main]: the exit status. *)
Definition user_data_main (call : cobra_call) : M st Z :=
  match call with
  | CobraRoot _ _ => mret 0%Z
  | CobraProvisionFiles t => let* e := provision_files_RunE t in mret (match e with Some _ => 1%Z | None => 0%Z end)
  | CobraError _ => mret 1%Z
  end.

(** The command that provisions files exits with 0 exactly when provisioning succeeded; then
    the last file written is the digest of an initdata that parsed, and before it nothing but
    listed files and a generated initdata. *)
Theorem provision_files_status t (s s' : st) code :
  user_data_main (CobraProvisionFiles t) s = (code, s') ->
  (code = 0%Z \/ code = 1%Z) /\
  (code = 0%Z -> exists cc l content id,
     Initdata.Parse content = Ok id /\ dummy_write (NewConfig t) l /\
     written s' = written s ++ allowed_only WriteFilesList (config_entries cc) ++ l ++
       allowed_only InitdDataFilesList (initdata_entries (NewConfig t) id) ++ [(DigestPath, Digest id)]).
Proof.
  cbn. unfold provision_files_RunE, mbind, mret. destruct (ProvisionFiles (NewConfig t) s) as [[e|] s1] eqn:E; intros [= <- <-].
  - split; [by right|done].
  - split; [by left|]. intros _. destruct (ProvisionFiles_success _ _ _ E) as (cc & l & content & id & Hw & Hl & Hp & _).
    by exists cc, l, content, id.
Qed.

End UserData.

(** ** Witnesses *)

(** A signal ends the forwarder after both of its services have returned. *)
Definition stop_schedule : list event := [ServiceReady 0; Signal; ServiceReturns 0 None; ServiceReturns 1 None; MainMoves; MainMoves; MainMoves; MainMoves].

Lemma daemon_exit_status_witness : daemon_main (fun n => n) (Return (Continue (Ok 2%nat))) false stop_schedule = Some (ProcessExits 0) /\
  exists s, run_events stop_schedule (Start 2 false) = Some s /\ signals s = 1%nat /\ Forall ended_well (services s).
Proof.
  assert (E : daemon_main (fun n => n) (Return (Continue (Ok 2%nat))) false stop_schedule = Some (ProcessExits 0)) by reflexivity.
  split; [exact E|]. assert (Hb : Forall background stop_schedule) by (by repeat constructor).
  destruct (daemon_exit_status _ _ _ _ _ Hb E) as (s & Hr & [(_ & Hs & Ha)|[Hc _]]); [|done].
  by exists s.
Defined.
